(* ===== verification/_CoqProject ===== *)
-Q . S2P
Prelude.v
Ring.v
Chars.v
Format.v
Riscv.v
Spinlock.v
Memory.v
Bytes.v
Kstring.v
Kalloc.v
Vm.v
PageTable.v
Proc.v
Sched.v
Switch.v
Sleeplock.v
Kill.v
UserMem.v
UserCopy.v
UserSpace.v
Freewalk.v
Procmem.v
Kstate.v
Bio.v
Cache.v
Log.v
Crash.v
Fs.v
Txn.v
Fileio.v
Itable.v
Dir.v
Dirent.v
Inodes.v
Namei.v
Pipe.v
Console.v
Printf.v
File.v
Life.v
Exec.v
Sysfile.v
Fd.v
Fork.v
Syscall.v
Virtio.v
Trap.v
Asm.v
Sys.v
Ulib.v
Grep.v
Utils.v
Jobs.v
Fifotest.v
Stcftest.v
Sjftest.v
Schedeval.v
Sh.v
ShParse.v
ShRun.v
Umalloc.v
Mkfs.v
MkfsMain.v
Boot.v
