(* ===== verification/Prelude.v ===== *)
(** * xv6 with scheduling policies: a model of the system and its properties

    The program is the xv6 kernel for RISC-V under src/kernel, extended with
    four scheduling policies beside round robin (FIFO, SJF, STCF and MLFQ) and
    with system calls that set a process's hints and read its times; the user
    programs under src/user that run on it, with the tests of the policies; and
    src/mkfs, which builds the disk it starts from.  This development translates
    the code function by function and proves that its parts do what they are
    for.

    ** How code becomes definitions

    A kernel function is a computation [M S A] (this file) over the state [S]
    of its layer: it returns ([Ret]), stops the kernel ([Panic]), waits forever
    on a spin lock that is held ([Spin]), runs out of the bound of a loop
    ([NoFuel]), or hands the CPU over ([Swtch]) and goes on with whatever state
    comes back.  So an execution of one kernel thread is explicit, and the
    other harts and threads act at its context switches.  [for] and [while] are
    [forl], [iterl], [accl] and [loop]; a function's early return is the [inr]
    of its loop.  Integers are [Z] with the wrap-around of their C type
    written out ([u8] to [u64], [s32]).  Tables are lists, pointers into a
    table indices, and structures on disk bytes at offsets.

    A user program is a tree of system calls [U A] (Sys): an interaction tree
    whose events are the calls of user.h, with the bytes that travel through
    their buffers.  [while] is [ITree.iter].  An environment says what the
    kernel may answer; [uwp env Q Qx t w] says that in world [w], whatever
    [env] answers, [t] performs finitely many calls and then returns with [Q]
    or exits with [Qx].  So every theorem about a user program includes its
    termination.  The assembly routines are lists of instructions that run on
    the registers of a hart (Asm), and mkfs is a computation [M] over the
    sectors of the image.

    The states of the kernel form a tower, joined by lenses ([Lens], [lift]):
    [machine] (harts, registers, spin locks, clock, console: Spinlock) inside
    [mem] (physical memory and the free list: Kalloc) inside [pstate] (the
    process table and sleep locks: Proc) inside [kstate] (buffers, log, inodes,
    files, pipes, console, disk: Kstate).

    ** The files and the code they model

    - Prelude: integers, computations, loops, layers, tactics ([kstep],
      [zbool]); Ring: circular buffers with counters that wrap around; Bytes:
      little-endian fields of byte arrays.
    - Riscv: riscv.h, memlayout.h.  Spinlock: spinlock.c and [struct cpu].
      Memory and Kstring: byte memory and string.c.  Kalloc: kalloc.c.
    - Vm: vm.c; PageTable: the tree of page-table pages behind it; UserSpace:
      growing, shrinking and copying an address space; Freewalk: giving it back.
    - Proc: proc.h and the parts of proc.c that do not touch files; Sched:
      the policies and the scheduler loop of proc.c; Switch: the protocol of
      [sched], [yield], [sleep] and [wakeup]; Sleeplock: sleeplock.c and the
      predicate [calm]; Kill: [kkill].
    - UserMem: [copyin], [copyout] and the system call arguments of syscall.c;
      UserCopy: what they copy, with the pages they fault in.  Procmem:
      [proc_pagetable], [allocproc] and [freeproc] and the pages they move.
    - Kstate: the state and the structures of buf.h, fs.h, file.h, log.c,
      pipe.c, console.c and virtio.h, and the interface of the disk driver.
    - Bio and Cache: bio.c and its view as an LRU cache.  Log and Crash: log.c
      and its crash safety.  Fs: fs.c up to file contents; Txn: its blocks and
      inodes inside a transaction; Fileio: file contents; Itable: the inode
      table; Dir: directories and paths of fs.c; Dirent: directories as finite
      maps; Inodes: references and locks of inodes; Namei: path resolution.
    - Pipe: pipe.c.  Console: console.c and uart.c.  File: file.c.  Life:
      fork, exit and wait of proc.c.  Exec: exec.c.  Sysfile: sysfile.c; Fd: its
      descriptors and their files.  Fork: [kfork] as a whole.
      Syscall: sysproc.c, syscall.c.  Virtio: virtio_disk.c and plic.c.
      Trap: trap.c, main.c and [forkret].
    - Asm: swtch.S, trampoline.S, kernelvec.S, entry.S and start.c.
    - Chars: C strings as lists of codes; Format: what the two [printf]s share
      and user/printf.c; Printf: printf.c.
    - Sys: user.h and the logic of user programs; Ulib: ulib.c.  Grep: grep.c.
      Utils: cat, echo, wc, kill, ln, mkdir, rm, ls, init, zombie, forktest,
      forphan, dorphan, stressfs, logstress.  Umalloc: umalloc.c.
    - Sh: sh.c; ShParse: the grammar its parser accepts; ShRun: the processes a
      command line becomes.
    - Jobs: parents, children and pipes as the scheduling tests see them;
      Fifotest, Stcftest, Sjftest, Schedeval: the programs of these names.
    - Mkfs: mkfs.c and the files of an image while it grows; MkfsMain: the image
      it leaves; Boot: the kernel of Namei and Fileio on that image.

    ** What the theorems show

    - Scheduling.  Each of the five policies runs exactly the process it
      should: the order it is meant to minimise is a [PolicyOrder] and the scan
      finds its least runnable process, or reports that there is none; the
      times it charges are stated; MLFQ's levels, priorities and slices stay in
      range and move as stated, and aging moves a process up.
    - Processes and locks.  Spin locks exclude each other on all harts in every
      interleaving of their operations; a process that yields or sleeps hands
      the CPU over with exactly its own lock held and gets it back so, and one
      that sleeps is marked before anyone can take the lock it gave up;
      [wakeup] and [kkill] reach just the processes they name.
    - Memory.  The allocator is a stack of pages; page tables map what
      [mappages] was told to map and nothing else changes; string.c computes
      its specification on every input, overlaps included.  Copies to and from
      user memory move exactly the bytes asked for, fault in the pages that
      were promised, and stop with an error where the process has no access.
      Growing, copying and freeing an address space account for every page, on
      the paths where memory runs out too.
    - Processes and memory.  [kfork] makes a child with the memory, registers,
      descriptors and directory of its parent, or gives back all it took.
    - Storage.  The buffer cache is an LRU cache; a commit interrupted after
      any of its disk writes leaves a disk from which recovery gives the file
      system before or after the transaction; block allocation, inodes and
      file contents do what they should inside a transaction, and what is
      written is what is read.  A directory is a finite map from names to
      inodes, to which [dirlink] adds a name, with a new block where it must, or
      fails without a trace; a path resolves to the inode its names lead to, with
      every reference and lock taken on the way given back.  Reference counts of
      open files are the numbers of descriptors that refer to them, and the last
      [close] gives up the end of the pipe or the reference to the inode.
    - Devices.  Pipes are queues, the console is a line editor, and the disk
      driver neither loses nor shares a descriptor.
    - Assembly.  [swtch] saves one context and resumes the other; a trap from
      user space and the return from it give back every register, and one from
      the kernel all that the interrupted code relies on; [start] enters [main]
      in supervisor mode with the interrupts and the timer it needs.
    - User programs.  [match] of grep decides the language of the pattern, and
      grep prints the lines it selects.  The shell's parser accepts exactly the
      lines of its grammar, builds the tree they mean and always ends, and
      running a line starts the programs of the tree with their arguments and
      descriptors, or says which call failed and runs nothing that needs it.  [malloc] and [free] keep the free list and hand out memory
      that belongs to no one else.  The two [printf]s write the same text.
      cat, wc and forktest do what they are for.
    - Tests of the policies.  Where the process table has room for the children
      the verdict of each test program is exact: the number of tests it reports
      as passed is the number of those in which the children came in the order
      the policy asks for; all its processes end, and the parent reaps every
      child.  For stcftest the theorem covers refused forks too: its processes
      end, but its report need not be right.
    - mkfs.  The image holds the files of the command line, each in blocks of
      its own that the bitmap marks, as the kernel's inodes find them; a kernel
      that opens a path on it and reads finds each file with its content, and no
      other name.
    - Some theorems state where the code does not do what it means to: an
      overrun under STCF, the double charge of MLFQ and its slice after aging,
      stcftest without a single child, a full log, killing pid 0,
      a request [malloc] cuts, a buffer logstress overruns, times schedeval
      prints.

    ** Interfaces and hypotheses

    [DiskDriver] is the disk driver as bio.c calls it and [DiskOk] its law, a
    request transfers one block; [ram_disk] is an instance.  [WaitBound] bounds
    how often a process may be woken before the condition it waits for holds;
    theorems hold for every bound.  [calm me s] says that process [me] runs
    with no process lock taken: then a critical section changes what its body
    changes and nothing else.  The theorems about the file system are proved
    from [calm], [cache] and [txn], which say what a process inside a
    transaction may assume, and [ready], which adds the table of inodes; each
    has an example state that satisfies them.  [pt_state] and [aspace] say which
    pages a page table and an address space own, [pspace] those of a process,
    [files_ok] that the counts of open files are right, and [forkable] all that
    [kfork] relies on; [kfork] keeps it.

    The environments of user programs are [posix] (calls may fail, reads and
    writes may be short), [smooth] (reads and writes succeed), [parent] (a
    limited process table, for forktest), [roomy] (fresh pids, [wait] returns
    any child that is left, pipes deliver any bytes), [kernel] and [full], in
    which any or all forks fail, and for the shell the descriptor tables of
    ShRun, where [fork], [exec], [open] and [pipe] fail as an oracle says.

    ** Bounds

    A loop over a table or over bytes has a bound computed from its data, large
    enough for every iteration and the one that stops; where a theorem says a
    function returns, the bound is part of what is proved.  The loops around
    [sleep] run at most [S wait_bound] times, and a [scheduler] is cut after a
    number of rounds, since it never ends.  The shell's parser gets [4 n + 4]
    steps of recursion for [n] characters, the allocator twice the length of its
    list and four, [iappend] one step for each byte and one more; in each case
    the theorems show that this is enough.

    ** Not modelled

    - Preemption inside the kernel: other harts and interrupts act between the
      steps of the lock theorem (Spinlock) and at context switches, not inside
      other code; memory is sequentially consistent.  In the C part of the model
      [swtch] is the step [Swtch] of the monad; Asm shows what the instructions
      do.
    - Devices: registers read as an arbitrary input sequence, and waiting for
      a device is no step.  [DiskOk] makes a request atomic, while the driver
      of Virtio sleeps until the interrupt.
    - In the kernel a call of [printf] is recorded with its format and
      arguments; Printf models what it writes.
    - usertests.c and grind.c, which drive the whole system with system calls
      and check little about the code itself; busy loops that only pass time.
    - The build: linker scripts, Makefile, prototypes. *)
From Stdlib Require Export ZArith Lia.
From stdpp Require Export base strings numbers gmap list.
#[export] Set Default Goal Selector "!".

Open Scope Z_scope.

(** * Machine-width integers *)

Definition u8 (z : Z) : Z := z mod 2 ^ 8.
Definition u16 (z : Z) : Z := z mod 2 ^ 16.
Definition u32 (z : Z) : Z := z mod 2 ^ 32.
Definition u64 (z : Z) : Z := z mod 2 ^ 64.
Definition s32 (z : Z) : Z := (z + 2 ^ 31) mod 2 ^ 32 - 2 ^ 31.

(** * Kernel computations *)

(** Where a [swtch] transfers control: a kernel thread gives the CPU to the
    per-CPU scheduler, the scheduler gives it to the kernel thread of a slot of
    the process table. *)
Inductive target := ToScheduler | ToProc (i : nat).

Inductive prog (S A : Type) : Type :=
| Ret (a : A) (s : S)
| Panic (msg : string) (s : S)
| Spin (s : S)
| NoFuel (s : S)
| Swtch (t : target) (s : S) (k : S -> prog S A).
Arguments Ret {S A}. Arguments Panic {S A}. Arguments Spin {S A}.
Arguments NoFuel {S A}. Arguments Swtch {S A}.

Definition M (S A : Type) : Type := S -> prog S A.

Fixpoint pbind {S A B} (m : prog S A) (f : A -> M S B) : prog S B :=
  match m with
  | Ret a s => f a s
  | Panic msg s => Panic msg s
  | Spin s => Spin s
  | NoFuel s => NoFuel s
  | Swtch t s k => Swtch t s (fun s' => pbind (k s') f)
  end.

Definition ret {S A} (a : A) : M S A := fun s => Ret a s.
Definition bind {S A B} (m : M S A) (f : A -> M S B) : M S B :=
  fun s => pbind (m s) f.
Definition panic {S A} (msg : string) : M S A := fun s => Panic msg s.
Definition spin {S A} : M S A := fun s => Spin s.
Definition nofuel {S A} : M S A := fun s => NoFuel s.
Definition swtch {S} (t : target) : M S unit :=
  fun s => Swtch t s (fun s' => Ret tt s').
Definition gets {S A} (f : S -> A) : M S A := fun s => Ret (f s) s.
Definition modify {S} (f : S -> S) : M S unit := fun s => Ret tt (f s).

Declare Scope kernel_scope.
Delimit Scope kernel_scope with K.
Bind Scope kernel_scope with M.
Notation "x <- c1 ;; c2" := (bind c1 (fun x => c2))
  (at level 100, c1 at next level, c2 at level 200, right associativity)
  : kernel_scope.
Notation "c1 ;; c2" := (bind c1 (fun _ => c2))
  (at level 100, c2 at level 200, right associativity) : kernel_scope.
Open Scope kernel_scope.

(** Loops.  [forl] is a [for] over a list of indices that carries the loop's
    local variables [x]; its body returns [inl] to go on and [inr] to leave the
    loop early ([break] or [return]).  [loop] is a [while] with a bound on the
    number of iterations. *)
Fixpoint forl {S I X R} (l : list I) (body : I -> X -> M S (X + R)) (x : X)
  : M S (X + R) :=
  match l with
  | [] => ret (inl x)
  | i :: l' =>
      r <- body i x ;;
      match r with
      | inl x' => forl l' body x'
      | inr r' => ret (inr r')
      end
  end.

Fixpoint loop {S X R} (fuel : nat) (body : X -> M S (X + R)) (x : X) : M S R :=
  match fuel with
  | O => nofuel
  | S n =>
      r <- body x ;;
      match r with
      | inl x' => loop n body x'
      | inr r' => ret r'
      end
  end.

(** A [for] whose body changes no local variable and never leaves early. *)
Fixpoint iterl {S I} (l : list I) (body : I -> M S unit) : M S unit :=
  match l with
  | [] => ret tt
  | i :: l' => body i ;; iterl l' body
  end.

(** A [for] that carries a local variable and never leaves early. *)
Fixpoint accl {S I X} (l : list I) (body : I -> X -> M S X) (x : X) : M S X :=
  match l with
  | [] => ret x
  | i :: l' => x' <- body i x ;; accl l' body x'
  end.

Definition when {S} (b : bool) (m : M S unit) : M S unit :=
  if b then m else ret tt.

(** * Layers

    The kernel is a tower of components, each with its own state: a lens says
    how the state [S] of a component sits inside the state [T] of the component
    above it, and [lift] runs a lower operation inside an upper one.  A context
    switch inside a lifted operation hands the whole upper state to the rest of
    the system. *)
Class Lens (T S : Type) := {
  lget : T -> S;
  lset : S -> T -> T;
  lget_lset : forall s t, lget (lset s t) = s;
  lset_lget : forall t, lset (lget t) t = t;
  lset_lset : forall s s' t, lset s (lset s' t) = lset s t }.

#[program] Definition lens_compose {T U S} `{!Lens T U} `{!Lens U S} : Lens T S := {|
  lget t := lget (lget t);
  lset s t := lset (lset s (lget t)) t |}.
Next Obligation. intros. cbn. by rewrite !lget_lset. Qed.
Next Obligation. intros. cbn. by rewrite !lset_lget. Qed.
Next Obligation. intros. cbn. by rewrite !lget_lset, !lset_lset. Qed.

Fixpoint plift {T S A} `{!Lens T S} (p : prog S A) (t : T) : prog T A :=
  match p with
  | Ret a s => Ret a (lset s t)
  | Panic msg s => Panic msg (lset s t)
  | Spin s => Spin (lset s t)
  | NoFuel s => NoFuel (lset s t)
  | Swtch tg s k => Swtch tg (lset s t) (fun t' => plift (k (lget t')) t')
  end.

Definition lift {T S A} `{!Lens T S} (m : M S A) : M T A :=
  fun t => plift (m (lget t)) t.

(** * Weakest preconditions

    [wp R m Q s]: run from [s], [m] does not panic, does not spin on a lock
    that is held, does not run out of loop fuel, and returns with [Q]; at every
    context switch the rest of the system is assumed to hand back a state
    related to the one given away by [R]. *)
Fixpoint pwp {S A} (R : target -> S -> S -> Prop) (p : prog S A)
  (Q : A -> S -> Prop) : Prop :=
  match p with
  | Ret a s => Q a s
  | Panic _ _ | Spin _ | NoFuel _ => False
  | Swtch t s k => forall s', R t s s' -> pwp R (k s') Q
  end.

Definition wp {S A} (R : target -> S -> S -> Prop) (m : M S A)
  (Q : A -> S -> Prop) (s : S) : Prop := pwp R (m s) Q.

(** The rest of the system never runs: the relation for code with no context
    switch. *)
Definition no_switch {S} : target -> S -> S -> Prop := fun _ _ _ => False.

(** Run a computation with the rest of the system given by [env], which says
    what state comes back from a switch: the switches done, and the value and
    state at the end unless it stops with an error. *)
Fixpoint prun {S A} (env : target -> S -> S) (p : prog S A) : list target * option (A * S) :=
  match p with
  | Ret a s => ([], Some (a, s))
  | Panic _ _ | Spin _ | NoFuel _ => ([], None)
  | Swtch t s k => let (ts, r) := prun env (k (env t s)) in (t :: ts, r)
  end.

Section Wp.
Context {S : Type} (R : target -> S -> S -> Prop).

Lemma pwp_bind {A B} (p : prog S A) (f : A -> M S B) Q :
  pwp R p (fun a s => wp R (f a) Q s) <-> pwp R (pbind p f) Q.
Proof.
  induction p as [| | | |t s k IH]; cbn; [done..|].
  split; intros H s' Hs'; by apply IH, H.
Qed.

Lemma wp_bind {A B} (m : M S A) (f : A -> M S B) Q s :
  wp R m (fun a s' => wp R (f a) Q s') s -> wp R (bind m f) Q s.
Proof. apply pwp_bind. Qed.

Lemma pwp_mono {A} (p : prog S A) (Q Q' : A -> S -> Prop) :
  pwp R p Q -> (forall a s, Q a s -> Q' a s) -> pwp R p Q'.
Proof.
  intros HQ HQQ. induction p as [| | | |t s k IH]; cbn in *; eauto.
Qed.

Lemma wp_mono {A} (m : M S A) (Q Q' : A -> S -> Prop) s :
  wp R m Q s -> (forall a s', Q a s' -> Q' a s') -> wp R m Q' s.
Proof. apply pwp_mono. Qed.

Lemma wp_ret {A} (a : A) Q s : Q a s -> wp R (ret a) Q s.
Proof. done. Qed.

Lemma wp_of_Ret {A} (m : M S A) Q s a s' :
  m s = Ret a s' -> Q a s' -> wp R m Q s.
Proof. intros E H. unfold wp. by rewrite E. Qed.

Lemma wp_forl {I X Z'} (Inv : list I -> X -> S -> Prop)
  (Qr : Z' -> S -> Prop) (body : I -> X -> M S (X + Z')) l x s :
  Inv l x s ->
  (forall i l' x s, Inv (i :: l') x s ->
     wp R (body i x) (fun r s' => match r with
                        | inl x' => Inv l' x' s'
                        | inr z => Qr z s' end) s) ->
  wp R (forl l body x) (fun r s' => match r with
                        | inl x' => Inv [] x' s'
                        | inr z => Qr z s' end) s.
Proof.
  intros H0 Hb. revert x s H0. induction l as [|i l IH]; intros x s H0; [done|].
  apply wp_bind. eapply wp_mono; [by apply Hb|].
  intros [x'|z] s' H; [by apply IH|done].
Qed.

Lemma wp_loop {X A} (Inv : nat -> X -> S -> Prop) (Q : A -> S -> Prop)
  (body : X -> M S (X + A)) n x s :
  Inv n x s ->
  (forall x s, Inv O x s -> False) ->
  (forall n x s, Inv (Datatypes.S n) x s ->
     wp R (body x) (fun r s' => match r with
                      | inl x' => Inv n x' s'
                      | inr a => Q a s' end) s) ->
  wp R (loop n body x) Q s.
Proof.
  intros H0 HO Hb. revert x s H0. induction n as [|n IH]; intros x s H0.
  - exfalso. eauto.
  - apply wp_bind. eapply wp_mono; [by apply Hb|].
    intros [x'|z] s' H; [by apply IH|done].
Qed.
End Wp.

Lemma pwp_lift {T S A} `{!Lens T S} (R : target -> T -> T -> Prop)
  (RS : target -> S -> S -> Prop) (p : prog S A) (Q : A -> T -> Prop)
  (J : T -> Prop) t :
  J t ->
  (forall s t, J t -> J (lset s t)) ->
  (forall tg t t', J t -> R tg t t' -> J t' /\ RS tg (lget t) (lget t')) ->
  pwp RS p (fun a s => forall t, J t -> Q a (lset s t)) ->
  pwp R (plift p t) Q.
Proof.
  intros HJ Hset HR. revert t HJ.
  induction p as [| | | |tg s k IH]; intros t HJ H; cbn in *; eauto.
  intros t' Ht'. destruct (HR tg (lset s t) t') as [HJ' HS]; [by auto..|].
  rewrite lget_lset in HS. apply IH; [done|]. by apply H.
Qed.

(** * Equational reasoning on computations *)

Section Equations.
Context {S A B : Type}.
Implicit Types (m : M S A) (f : A -> M S B) (s : S).

Lemma bind_Ret m f s a s' : m s = Ret a s' -> bind m f s = f a s'.
Proof. intros E. unfold bind. by rewrite E. Qed.

Lemma bind_Panic m f s e s' : m s = Panic e s' -> bind m f s = Panic e s'.
Proof. intros E. unfold bind. by rewrite E. Qed.

Lemma bind_Spin m f s s' : m s = Spin s' -> bind m f s = Spin s'.
Proof. intros E. unfold bind. by rewrite E. Qed.

Lemma bind_Swtch m f s t s' k :
  m s = Swtch t s' k -> bind m f s = Swtch t s' (fun s2 => pbind (k s2) f).
Proof. intros E. unfold bind. by rewrite E. Qed.
End Equations.

Lemma prun_bind {S A B} env (p : prog S A) (f : A -> M S B) ts a s :
  prun env p = (ts, Some (a, s)) ->
  prun env (pbind p f) = (ts ++ (prun env (f a s)).1, (prun env (f a s)).2).
Proof.
  revert ts. induction p as [a' s'| | | |t s' k IH]; intros ts; cbn; [|done..|].
  - intros [= <- -> ->]. by destruct (prun env (f a s)).
  - destruct (prun env (k (env t s'))) as [ts' r] eqn:E. intros [= <- ->].
    by rewrite (IH _ _ E).
Qed.

Lemma lift_Ret {T S A} `{!Lens T S} (m : M S A) t a s :
  m (lget t) = Ret a s -> lift m t = Ret a (lset s t).
Proof. intros E. unfold lift. by rewrite E. Qed.

Lemma lift_Panic {T S A} `{!Lens T S} (m : M S A) t e s :
  m (lget t) = Panic e s -> lift m t = Panic e (lset s t).
Proof. intros E. unfold lift. by rewrite E. Qed.

Lemma lift_Spin {T S A} `{!Lens T S} (m : M S A) t s :
  m (lget t) = Spin s -> lift m t = Spin (lset s t).
Proof. intros E. unfold lift. by rewrite E. Qed.

Lemma iterl_app {S I} (l1 l2 : list I) (body : I -> M S unit) s s' :
  iterl l1 body s = Ret tt s' ->
  iterl (l1 ++ l2) body s = iterl l2 body s'.
Proof.
  revert s. induction l1 as [|i l1 IH]; intros s; cbn.
  - by intros [= ->].
  - unfold bind. destruct (body i s) as [[] s1| | | |]; cbn; try done. apply IH.
Qed.

(** Updates of a list at an index. *)
Lemma list_alter_alter {A} (f g : A -> A) (l : list A) i :
  alter g i (alter f i l) = alter (fun x => g (f x)) i l.
Proof. revert i. induction l as [|p l IH]; intros [|i]; cbn; f_equal; auto. Qed.

Lemma list_alter_same {A} `{Inhabited A} (f g : A -> A) (l : list A) i :
  f (l !!! i) = g (l !!! i) -> alter f i l = alter g i l.
Proof. revert i. induction l as [|p l IH]; intros [|i] E; cbn in *; f_equal; auto. Qed.

(** One iteration of a loop, by the way its body ends. *)
Lemma loop_exit {S X R} n (body : X -> M S (X + R)) x s r s' :
  body x s = Ret (inr r) s' -> loop (Datatypes.S n) body x s = Ret r s'.
Proof. intros E. cbn. by rewrite (bind_Ret _ _ _ _ _ E). Qed.

Lemma loop_next {S X R} n (body : X -> M S (X + R)) x s x' s' :
  body x s = Ret (inl x') s' -> loop (Datatypes.S n) body x s = loop n body x' s'.
Proof. intros E. cbn. by rewrite (bind_Ret _ _ _ _ _ E). Qed.

Lemma forl_exit {S I X R} i l (body : I -> X -> M S (X + R)) x s r s' :
  body i x s = Ret (inr r) s' -> forl (i :: l) body x s = Ret (inr r) s'.
Proof. intros E. cbn. by rewrite (bind_Ret _ _ _ _ _ E). Qed.

Lemma forl_next {S I X R} i l (body : I -> X -> M S (X + R)) x s x' s' :
  body i x s = Ret (inl x') s' -> forl (i :: l) body x s = forl l body x' s'.
Proof. intros E. cbn. by rewrite (bind_Ret _ _ _ _ _ E). Qed.

(** [kstep]: run the first statement of a computation, with the equation [E]
    that says what it returns. *)
Tactic Notation "kstep" uconstr(E) := erewrite bind_Ret; [|eapply E].
Tactic Notation "kstep" uconstr(E) "by" tactic3(tac) :=
  erewrite bind_Ret; [|eapply E; tac].

(** [zbool]: case on every integer comparison of the goal, dropping the
    impossible cases. *)
Ltac zbool :=
  repeat match goal with
  | |- context [Z.leb ?a ?b] => destruct (Z.leb_spec a b); try lia
  | |- context [Z.ltb ?a ?b] => destruct (Z.ltb_spec a b); try lia
  | |- context [Z.eqb ?a ?b] => destruct (Z.eqb_spec a b); try lia
  end; cbn [andb orb negb].
