(* ===== verification/Ring.v ===== *)
(** Circular buffers indexed by 32-bit counters that wrap around: the pipes and
    the console's input.  The size [N] of the buffer divides [2^32], so that a
    counter's position in the buffer does not see the wrap-around. *)
From S2P Require Import Prelude.

Lemma u32_cases z : exists q, u32 z = z - q * 2 ^ 32 /\ 0 <= u32 z < 2 ^ 32.
Proof.
  exists (z / 2 ^ 32). unfold u32. rewrite Z.mod_eq by lia.
  pose proof (Z.mod_pos_bound z (2 ^ 32)). rewrite Z.mod_eq in H by lia. lia.
Qed.

Lemma u32_range z : 0 <= u32 z < 2 ^ 32.
Proof. destruct (u32_cases z) as (_ & _ & H). exact H. Qed.

(** How far counter [b] is ahead of counter [a]. *)
Definition ahead (a b : Z) : Z := u32 (b - a).

(** [u32s]: replace every [u32] by a remainder that [lia] understands. *)
Ltac u32s :=
  unfold ahead in *;
  repeat match goal with
  | |- context [u32 ?z] => let q := fresh "q" in let E := fresh in
      destruct (u32_cases z) as (q & E & ?); generalize dependent (u32 z); intros
  | _ : context [u32 ?z] |- _ => let q := fresh "q" in let E := fresh in
      destruct (u32_cases z) as (q & E & ?); generalize dependent (u32 z); intros
  end.

Section Counters.
Context (a b : Z) (Ha : 0 <= a < 2 ^ 32) (Hb : 0 <= b < 2 ^ 32).

Lemma ahead_zero : ahead a b = 0 <-> a = b.
Proof using Ha Hb. u32s. lia. Qed.

Lemma ahead_next : ahead a b < 2 ^ 31 -> ahead a (u32 (b + 1)) = ahead a b + 1.
Proof using Ha Hb. u32s. lia. Qed.

Lemma ahead_back : 0 < ahead a b -> ahead a (u32 (b - 1)) = ahead a b - 1.
Proof using Ha Hb. u32s. lia. Qed.

Lemma ahead_less : 0 < ahead a b -> ahead (u32 (a + 1)) b = ahead a b - 1.
Proof using Ha Hb. u32s. lia. Qed.

Lemma ahead_split c : 0 <= c < 2 ^ 32 -> ahead a c + ahead c b < 2 ^ 32 -> ahead a b = ahead a c + ahead c b.
Proof using Ha Hb. u32s. lia. Qed.

Lemma ahead_at : u32 (a + ahead a b) = b.
Proof using Ha Hb. u32s. lia. Qed.
End Counters.

Section Slice.
Context {A : Type} `{Inhabited A} (N : Z) (HN : 0 < N) (Hdiv : (N | 2 ^ 32)).
Implicit Types (buf : list A) (a n : Z).

Lemma pos_u32 z k : (u32 z + k) mod N = (z + k) mod N.
Proof using HN Hdiv.
  destruct (u32_cases z) as (q & -> & _). destruct Hdiv as [m ->].
  replace (z - q * (m * N) + k) with (z + k + (- q * m) * N) by lia. apply Z.mod_add. lia.
Qed.

(** The [n] elements from counter [a] on. *)
Definition slice buf a n : list A :=
  (fun k => buf !!! Z.to_nat ((a + Z.of_nat k) mod N)) <$> seq 0 (Z.to_nat n).

Lemma slice_length buf a n : length (slice buf a n) = Z.to_nat n.
Proof. unfold slice. by rewrite length_fmap, length_seq. Qed.

Lemma slice_u32 buf a n : slice buf (u32 a) n = slice buf a n.
Proof using HN Hdiv. unfold slice. apply list_fmap_ext. intros i k _. by rewrite pos_u32. Qed.

Lemma slice_snoc buf a n :
  0 <= n -> slice buf a (n + 1) = slice buf a n ++ [buf !!! Z.to_nat ((a + n) mod N)].
Proof.
  intros Hn. unfold slice. replace (Z.to_nat (n + 1)) with (S (Z.to_nat n)) by lia.
  rewrite seq_S, fmap_app. cbn. by rewrite Z2Nat.id by done.
Qed.

Lemma slice_cons buf a n :
  0 < n -> slice buf a n = buf !!! Z.to_nat (a mod N) :: slice buf (u32 (a + 1)) (n - 1).
Proof using HN Hdiv.
  intros Hn. rewrite slice_u32. unfold slice. replace (Z.to_nat n) with (S (Z.to_nat (n - 1))) by lia.
  cbn [seq fmap list_fmap]. rewrite Z.add_0_r. f_equal.
  rewrite <- fmap_S_seq, <- list_fmap_compose. apply list_fmap_ext. intros k i _. cbn. do 3 f_equal. lia.
Qed.

Lemma slice_app buf a n m : 0 <= n -> 0 <= m -> slice buf a (n + m) = slice buf a n ++ slice buf (a + n) m.
Proof.
  intros Hn Hm. unfold slice. rewrite Z2Nat.inj_add, seq_app, fmap_app by done. f_equal.
  replace (0 + Z.to_nat n)%nat with (Z.to_nat n + 0)%nat by lia.
  rewrite <- fmap_add_seq, <- list_fmap_compose. apply list_fmap_ext. intros i k _. cbn. do 3 f_equal. lia.
Qed.

(** Writing past the slice leaves it alone. *)
Lemma slice_store buf a n p x :
  0 <= n <= p -> p < N -> slice (<[Z.to_nat ((a + p) mod N) := x]> buf) a n = slice buf a n.
Proof using HN.
  intros Hn Hp. unfold slice. apply list_fmap_ext. intros i k Hk. apply lookup_seq in Hk.
  rewrite list_lookup_total_insert_ne; [done|].
  pose proof (Z.mod_pos_bound (a + Z.of_nat k) N HN). pose proof (Z.mod_pos_bound (a + p) N HN). intros E.
  apply Z2Nat.inj in E; [|lia..]. apply Z.cong_iff_0 in E.
  replace (a + p - (a + Z.of_nat k)) with (p - Z.of_nat k) in E by lia.
  rewrite Z.mod_small in E by lia. lia.
Qed.

(** Adding an element at the end. *)
Lemma slice_push buf a n x :
  length buf = Z.to_nat N -> 0 <= n < N ->
  slice (<[Z.to_nat ((a + n) mod N) := x]> buf) a (n + 1) = slice buf a n ++ [x].
Proof using HN.
  intros Hl Hn. rewrite slice_snoc, slice_store by lia. f_equal. f_equal.
  apply list_lookup_total_insert_eq. rewrite Hl. pose proof (Z.mod_pos_bound (a + n) N HN). lia.
Qed.
End Slice.
