(* ===== verification/Chars.v ===== *)
(** C strings as lists of character codes, without the NUL that ends them, and
    the conversions between numbers and digits that the printing functions and
    [atoi] share. *)
From S2P Require Import Prelude.

(** The codes of a literal. *)
Fixpoint chars (s : string) : list Z :=
  match s with
  | EmptyString => []
  | String a s' => Z.of_N (Ascii.N_of_ascii a) :: chars s'
  end.
(** The code of a one-character literal. *)
Definition ch (s : string) : Z := default 0 (head (chars s)).
Definition NEWLINE : Z := 10.

(** A literal with a newline at its end. *)
Definition nl (s : string) : list Z := chars s ++ [NEWLINE].

(** The string that starts a buffer: up to the first NUL. *)
Fixpoint upto_nul (bs : list Z) : list Z :=
  match bs with
  | [] => []
  | b :: bs' => if b =? 0 then [] else b :: upto_nul bs'
  end.

(** [s[i]], with the NUL at the end. *)
Definition cat (s : list Z) (i : nat) : Z := default 0 (s !! i).

(** A string: bytes other than NUL. *)
Definition nonul (s : list Z) : Prop := Forall (fun c => 0 < c < 256) s.

Lemma cat_end s : cat s (length s) = 0.
Proof. unfold cat. by rewrite lookup_ge_None_2. Qed.

Lemma cat_cons c s i : cat (c :: s) (S i) = cat s i.
Proof. done. Qed.

Lemma cat_app s s' i : cat (s ++ s') (length s + i) = cat s' i.
Proof. unfold cat. rewrite lookup_app_r by lia. do 2 f_equal. lia. Qed.

Lemma cat_inside s i : cat s i <> 0 -> (i < length s)%nat.
Proof.
  unfold cat. destruct (s !! i) eqn:E; [|done]. intros _. by eapply lookup_lt_Some.
Qed.

Lemma cat_zero s i : nonul s -> (i <= length s)%nat -> cat s i = 0 <-> i = length s.
Proof.
  intros Hs Hi. unfold cat. destruct (s !! i) as [c|] eqn:E.
  - pose proof (lookup_lt_Some _ _ _ E). apply (Forall_lookup_1 _ _ _ _ Hs) in E. cbn in *. lia.
  - apply lookup_ge_None_1 in E. cbn. lia.
Qed.

(** * Digits *)

(** The value of digits, the most significant first. *)
Definition number (base : Z) (ds : list Z) : Z := foldl (fun n d => n * base + d) 0 ds.

Lemma number_acc base ds n :
  foldl (fun n d => n * base + d) n ds = n * base ^ Z.of_nat (length ds) + number base ds.
Proof.
  unfold number. revert n. induction ds as [|d ds IH]; intros n; cbn [foldl length].
  - rewrite Z.pow_0_r. lia.
  - rewrite IH, (IH (0 * base + d)). rewrite Nat2Z.inj_succ, Z.pow_succ_r by lia. lia.
Qed.

Lemma number_app base ds es :
  number base (ds ++ es) = number base ds * base ^ Z.of_nat (length es) + number base es.
Proof. unfold number at 1. rewrite foldl_app. apply number_acc. Qed.

Lemma number_snoc base ds d : number base (ds ++ [d]) = number base ds * base + d.
Proof. unfold number. by rewrite foldl_app. Qed.

(** Less than [base ^ n] for [n] digits. *)
Lemma number_bound base ds :
  1 < base -> Forall (fun d => 0 <= d < base) ds ->
  0 <= number base ds < base ^ Z.of_nat (length ds).
Proof.
  intros Hb. induction ds as [|d ds IH] using rev_ind; intros H; [done|].
  apply Forall_app in H as [H1 H2]. rewrite Forall_singleton in H2.
  rewrite number_snoc, length_app, Nat.add_comm. cbn [length Nat.add].
  rewrite Nat2Z.inj_succ, Z.pow_succ_r by lia. specialize (IH H1).
  generalize dependent (base ^ Z.of_nat (length ds)). generalize (number base ds). intros n B IH.
  assert (0 <= n * base <= (B - 1) * base) by nia. lia.
Qed.
