(* ===== verification/Format.v ===== *)
(** Formats and numbers: what kernel/printf.c and user/printf.c share, and the
    user library's [vprintf].

    A format is the codes of its characters; [va k] is the [k]-th argument slot
    (64 bits, as [va_arg] finds it) and [cstr p] the string at address [p].
    [vprintf] is the list of the bytes it writes, one [write] each.  The digits
    of a number go through the array [buf] of 20 characters: a store past its
    end, which C leaves undefined, makes [int_chars] return [None], and
    [int_chars_correct] shows there is none. *)
From S2P Require Import Prelude Ring Chars.

Definition s64 (z : Z) : Z := (z + 2 ^ 63) mod 2 ^ 64 - 2 ^ 63.

(** * Numbers *)

Definition digits : list Z := chars "0123456789abcdef".
Definition u_digits : list Z := chars "0123456789ABCDEF".

(** The [do] loop of [printint]: the digits of [x], the least significant
    first; [room] is what is left of [buf]. *)
Fixpoint digit_loop (digits : list Z) (base : Z) (room : nat) (x : Z) : option (list Z) :=
  match room with
  | O => None
  | S room' =>
      let c := digits !!! Z.to_nat (x mod base) in
      let x' := x / base in
      if negb (x' =? 0) then cons c <$> digit_loop digits base room' x' else Some [c]
  end.

(** The characters of [xx] in the order they are printed: [buf] backwards. *)
Definition int_chars (digits : list Z) (xx base : Z) (sign : bool) : option (list Z) :=
  let neg := sign && (xx <? 0) in
  let x := if neg then u64 (- xx) else u64 xx in
  buf ← digit_loop digits base 20 x;
  if neg then (if (length buf <? 20)%nat then Some (rev (buf ++ [ch "-"])) else None)
  else Some (rev buf).

(** [x <<= 4] sixteen times, the top digit printed each time. *)
Fixpoint ptr_loop (digits : list Z) (n : nat) (x : Z) : list Z :=
  match n with
  | O => []
  | S n' => digits !!! Z.to_nat (Z.shiftr x 60) :: ptr_loop digits n' (u64 (Z.shiftl x 4))
  end.
Definition ptr_chars (digits : list Z) (x : Z) : list Z := ch "0" :: ch "x" :: ptr_loop digits 16 x.

Section Format.
Context (cstr : Z -> list Z) (va : nat -> Z).

Definition NULL_TEXT : list Z := chars "(null)".
Definition str_arg (p : Z) : list Z := if p =? 0 then NULL_TEXT else cstr p.

(** * user/printf.c *)

Definition u_printint (xx base : Z) (sgn : bool) : option (list Z) := int_chars u_digits xx base sgn.
Definition u_printptr (x : Z) : list Z := ptr_chars u_digits x.

(** The loop of [vprintf] at index [i], argument [k]: the bytes written.
    [percent] is [state == '%']. *)
Fixpoint vprintf_loop (fuel : nat) (fmt : list Z) (i k : nat) (percent : bool) : option (list Z) :=
  match fuel with
  | O => None
  | S fuel' =>
      let c0 := cat fmt i in
      if c0 =? 0 then Some [] else
      if negb percent then
        if c0 =? ch "%" then vprintf_loop fuel' fmt (i + 1) k true
        else cons c0 <$> vprintf_loop fuel' fmt (i + 1) k false
      else
        let c1 := if negb (c0 =? 0) then cat fmt (i + 1) else 0 in
        let c2 := if negb (c1 =? 0) then cat fmt (i + 2) else 0 in
        let emit out i k := out ← out; app out <$> vprintf_loop fuel' fmt i k false in
        if c0 =? ch "d" then emit (u_printint (s32 (va k)) 10 true) (i + 1)%nat (k + 1)%nat
        else if (c0 =? ch "l") && (c1 =? ch "d") then
          emit (u_printint (s64 (va k)) 10 true) (i + 2)%nat (k + 1)%nat
        else if (c0 =? ch "l") && (c1 =? ch "l") && (c2 =? ch "d") then
          emit (u_printint (s64 (va k)) 10 true) (i + 3)%nat (k + 1)%nat
        else if c0 =? ch "u" then emit (u_printint (u32 (va k)) 10 false) (i + 1)%nat (k + 1)%nat
        else if (c0 =? ch "l") && (c1 =? ch "u") then
          emit (u_printint (s64 (va k)) 10 false) (i + 2)%nat (k + 1)%nat
        else if (c0 =? ch "l") && (c1 =? ch "l") && (c2 =? ch "u") then
          emit (u_printint (s64 (va k)) 10 false) (i + 3)%nat (k + 1)%nat
        else if c0 =? ch "x" then emit (u_printint (u32 (va k)) 16 false) (i + 1)%nat (k + 1)%nat
        else if (c0 =? ch "l") && (c1 =? ch "x") then
          emit (u_printint (s64 (va k)) 16 false) (i + 2)%nat (k + 1)%nat
        else if (c0 =? ch "l") && (c1 =? ch "l") && (c2 =? ch "x") then
          emit (u_printint (s64 (va k)) 16 false) (i + 3)%nat (k + 1)%nat
        else if c0 =? ch "p" then emit (Some (u_printptr (u64 (va k)))) (i + 1)%nat (k + 1)%nat
        else if c0 =? ch "c" then emit (Some [u8 (u32 (va k))]) (i + 1)%nat (k + 1)%nat
        else if c0 =? ch "s" then emit (Some (str_arg (va k))) (i + 1)%nat (k + 1)%nat
        else if c0 =? ch "%" then emit (Some [ch "%"]) (i + 1)%nat k
        else emit (Some [ch "%"; c0]) (i + 1)%nat k
  end.
Definition vprintf (fmt : list Z) : option (list Z) :=
  vprintf_loop (S (length fmt)) fmt 0 0 false.
End Format.

(** * What a number looks like *)

(** The value of a digit, -1 for other characters. *)
Definition digit_value (c : Z) : Z :=
  if (ch "0" <=? c) && (c <=? ch "9") then c - ch "0"
  else if (ch "a" <=? c) && (c <=? ch "f") then c - ch "a" + 10
  else if (ch "A" <=? c) && (c <=? ch "F") then c - ch "A" + 10 else -1.

(** [cs] is the numeral of [n]: a minus sign if it is negative, then digits of
    its absolute value, the first of which is not 0 unless it is the only one. *)
Definition numeral (base n : Z) (cs : list Z) : Prop :=
  exists ds, cs = (if n <? 0 then [ch "-"] else []) ++ ds /\
    Forall (fun c => 0 <= digit_value c < base) ds /\
    number base (digit_value <$> ds) = Z.abs n /\
    ((exists z, ds = [z] /\ digit_value z = 0) \/ 0 < number base (digit_value <$> take 1 ds)).

(** A table of the sixteen digits. *)
Definition table (tbl : list Z) : Prop :=
  forallb (fun d => digit_value (tbl !!! d) =? Z.of_nat d) (seq 0 16) = true.

Lemma table_digits : table digits. Proof. done. Qed.
Lemma table_u_digits : table u_digits. Proof. done. Qed.

Lemma table_value tbl d : table tbl -> 0 <= d < 16 -> digit_value (tbl !!! Z.to_nat d) = d.
Proof.
  intros H Hd. unfold table in H. rewrite forallb_forall in H.
  specialize (H (Z.to_nat d)). rewrite Z.eqb_eq, Z2Nat.id in H by lia. apply H.
  apply in_seq. lia.
Qed.

Section Numbers.
Context (tbl : list Z) (Ht : table tbl) (base : Z) (Hb : 1 < base <= 16).

(** The digits of [x]: their value, and how many there are. *)
Lemma digit_loop_correct room x :
  0 <= x < base ^ Z.of_nat room -> (0 < room)%nat ->
  exists ds, digit_loop tbl base room x = Some (rev ds) /\
    Forall (fun c => 0 <= digit_value c < base) ds /\
    number base (digit_value <$> ds) = x /\
    ((exists z, ds = [z] /\ digit_value z = 0) \/ 0 < number base (digit_value <$> take 1 ds)) /\
    (length ds = 1%nat \/ base ^ (Z.of_nat (length ds) - 1) <= x).
Proof using Ht Hb.
  revert x. induction room as [|room IH]; intros x Hx Hr; [lia|]. cbn [digit_loop].
  pose proof (Z.mod_pos_bound x base ltac:(lia)) as Hm.
  pose proof (table_value tbl (x mod base) Ht ltac:(lia)) as Hv.
  pose proof (Z.div_mod x base ltac:(lia)) as Hdm.
  set (c := tbl !!! Z.to_nat (x mod base)) in *.
  destruct (Z.eqb_spec (x / base) 0) as [E|E]; cbn [negb].
  - exists [c]. split; [done|]. rewrite Forall_singleton, Hv. unfold number. cbn. rewrite Hv.
    split; [lia|]. split; [lia|]. split; [|by left].
    destruct (decide (x mod base = 0)); [left; exists c; split; [done|lia]|right; lia].
  - assert (0 < x / base) by (pose proof (Z.div_pos x base); lia).
    assert (x / base < base ^ Z.of_nat room).
    { apply Z.div_lt_upper_bound; [lia|]. rewrite Nat2Z.inj_succ, Z.pow_succ_r in Hx by lia. lia. }
    assert (0 < room)%nat by (destruct room; [cbn in *; lia|lia]).
    destruct (IH (x / base)) as (ds & -> & Hf & Hn & Hl & Hp); [lia|done|].
    exists (ds ++ [c]). split; [by rewrite rev_app_distr|].
    rewrite Forall_app, Forall_singleton, Hv, fmap_app. split; [done|]. cbn [fmap list_fmap].
    rewrite number_snoc, Hn, Hv. split; [lia|]. split.
    + right. destruct ds as [|z ds]; [cbn in *; lia|]. cbn [app take fmap list_fmap].
      destruct Hl as [(z' & [= -> ->] & Hz)|Hl]; [|exact Hl].
      unfold number in Hn. cbn in Hn. lia.
    + right. rewrite length_app. cbn [length].
      replace (Z.of_nat (length ds + 1) - 1) with (Z.of_nat (length ds)) by lia.
      destruct Hp as [->|Hp].
      * change (Z.of_nat 1) with 1. rewrite Z.pow_1_r. nia.
      * destruct (length ds) as [|k] eqn:El; [destruct ds; [cbn in *; lia|done]|].
        rewrite Nat2Z.inj_succ, Z.pow_succ_r by lia. replace (Z.of_nat (S k) - 1) with (Z.of_nat k) in Hp by lia.
        nia.
Qed.

Lemma digit_loop_length n (ds : list Z) x :
  (length ds = 1%nat \/ base ^ (Z.of_nat (length ds) - 1) <= x) ->
  x < base ^ Z.of_nat n -> (0 < n)%nat -> (length ds <= n)%nat.
Proof using Hb.
  intros [->|Hp] Hx Hn; [lia|]. destruct (decide (length ds <= n)%nat); [done|].
  assert (base ^ Z.of_nat n <= base ^ (Z.of_nat (length ds) - 1)); [|lia].
  apply Z.pow_le_mono_r; lia.
Qed.
End Numbers.

Lemma int_chars_numeral tbl xx base (sign : bool)
  (Ht : tbl = digits \/ tbl = u_digits) (Hx : - 2 ^ 63 <= xx < 2 ^ 63)
  (Hb : base = 10 \/ base = 16 /\ sign = false) :
  exists cs, int_chars tbl xx base sign = Some cs /\
    numeral base (if sign then xx else u64 xx) cs /\ (length cs <= 20)%nat.
Proof.
  assert (table tbl) as HT by (destruct Ht as [-> | ->]; done).
  assert (1 < base <= 16) as Hb' by lia.
  assert (2 ^ 64 < base ^ Z.of_nat 20) as H20 by (destruct Hb as [-> | [-> _]]; done).
  set (neg := sign && (xx <? 0)). set (y := if neg then u64 (- xx) else u64 xx).
  assert (y = Z.abs (if sign then xx else u64 xx) /\ 0 <= y < 2 ^ 64 /\
          neg = ((if sign then xx else u64 xx) <? 0) /\ (neg = true -> y <= 2 ^ 63)) as (Ey & Hy & En & Hneg).
  { unfold y, neg, u64. pose proof (Z.mod_pos_bound xx (2 ^ 64) ltac:(lia)).
    destruct sign; cbn [andb]; [|rewrite Z.abs_eq by lia; destruct (Z.ltb_spec (xx mod 2 ^ 64) 0); lia].
    destruct (Z.ltb_spec xx 0); rewrite Z.mod_small by lia; split_and!; lia || done. }
  destruct (digit_loop_correct tbl HT base Hb' 20 y) as (ds & Ed & Hf & Hn & Hl & Hp); [lia|lia|].
  unfold int_chars. fold neg y. rewrite Ed. cbn [mbind option_bind].
  assert (length ds <= 20)%nat by (eapply digit_loop_length; [exact Hb'|done|lia|lia]).
  unfold numeral. rewrite <- En. destruct neg.
  - assert (length ds <= 19)%nat.
    { eapply digit_loop_length; [exact Hb'|done| |lia]. specialize (Hneg eq_refl).
      destruct Hb as [-> | [-> Hs]]; [|rewrite Hs in En; unfold u64 in En;
        pose proof (Z.mod_pos_bound xx (2 ^ 64) ltac:(lia)); lia].
      assert (2 ^ 63 < 10 ^ Z.of_nat 19) by done. lia. }
    rewrite length_rev. destruct (Nat.ltb_spec (length ds) 20); [|lia].
    rewrite rev_app_distr, rev_involutive. eexists. split; [done|]. split; [|cbn; lia].
    exists ds. rewrite <- Ey. done.
  - rewrite rev_involutive. eexists. split; [done|]. split; [|done]. exists ds. rewrite <- Ey. done.
Qed.

(** [printint] prints numbers that read back: for a 64-bit argument in base
    10, and in base 16 without a sign, the characters are the numeral of the
    argument (as a signed or as an unsigned number), without leading zeros, and
    the array [buf] of 20 characters is never overrun.  It holds of the
    kernel's and the user's table of digits. *)
Theorem int_chars_correct tbl xx base (sign : bool)
  (Ht : tbl = digits \/ tbl = u_digits) (Hx : - 2 ^ 63 <= xx < 2 ^ 63)
  (Hb : base = 10 \/ base = 16 /\ sign = false) :
  exists cs, int_chars tbl xx base sign = Some cs /\
    numeral base (if sign then xx else u64 xx) cs /\ (length cs <= 20)%nat.
Proof. by apply int_chars_numeral. Qed.

(** * What a format prints *)

(** [cases]: case on the conditions of the goal, the innermost first. *)
Ltac cases :=
  repeat match goal with |- context [if ?b then _ else _] =>
    match b with context [if _ then _ else _] => fail 1 | _ => idtac end; destruct b end.

Section Formats.
Context (cstr : Z -> list Z) (va : nat -> Z).

(** One step through a format: where it ends, or the characters printed and the
    next index and argument.  [tbl] is the table of digits and [cv] what becomes
    of a character argument. *)
Definition fmt_step (tbl : list Z) (cv : Z -> Z) (fmt : list Z) (i k : nat) :
    option (option (list Z) * nat * nat) :=
  let cx := cat fmt i in
  if cx =? 0 then None else
  if negb (cx =? ch "%") then Some (Some [cx], i + 1, k)%nat else
  let i := (i + 1)%nat in
  let c0 := cat fmt i in
  let c1 := if negb (c0 =? 0) then cat fmt (i + 1) else 0 in
  let c2 := if negb (c1 =? 0) then cat fmt (i + 2) else 0 in
  if c0 =? ch "d" then Some (int_chars tbl (s32 (va k)) 10 true, i + 1, k + 1)%nat
  else if (c0 =? ch "l") && (c1 =? ch "d") then Some (int_chars tbl (s64 (va k)) 10 true, i + 2, k + 1)%nat
  else if (c0 =? ch "l") && (c1 =? ch "l") && (c2 =? ch "d")
  then Some (int_chars tbl (s64 (va k)) 10 true, i + 3, k + 1)%nat
  else if c0 =? ch "u" then Some (int_chars tbl (u32 (va k)) 10 false, i + 1, k + 1)%nat
  else if (c0 =? ch "l") && (c1 =? ch "u") then Some (int_chars tbl (s64 (va k)) 10 false, i + 2, k + 1)%nat
  else if (c0 =? ch "l") && (c1 =? ch "l") && (c2 =? ch "u")
  then Some (int_chars tbl (s64 (va k)) 10 false, i + 3, k + 1)%nat
  else if c0 =? ch "x" then Some (int_chars tbl (u32 (va k)) 16 false, i + 1, k + 1)%nat
  else if (c0 =? ch "l") && (c1 =? ch "x") then Some (int_chars tbl (s64 (va k)) 16 false, i + 2, k + 1)%nat
  else if (c0 =? ch "l") && (c1 =? ch "l") && (c2 =? ch "x")
  then Some (int_chars tbl (s64 (va k)) 16 false, i + 3, k + 1)%nat
  else if c0 =? ch "p" then Some (Some (ptr_chars tbl (u64 (va k))), i + 1, k + 1)%nat
  else if c0 =? ch "c" then Some (Some [cv (u32 (va k))], i + 1, k + 1)%nat
  else if c0 =? ch "s" then Some (Some (str_arg cstr (va k)), i + 1, k + 1)%nat
  else if c0 =? ch "%" then Some (Some [ch "%"], i + 1, k)%nat
  else if c0 =? 0 then None
  else Some (Some [ch "%"; c0], i + 1, k)%nat.

(** The text of a format from index [i] and argument [k] on. *)
Inductive formatted (tbl : list Z) (cv : Z -> Z) (fmt : list Z) : nat -> nat -> list Z -> Prop :=
| fmt_stop i k : fmt_step tbl cv fmt i k = None -> formatted tbl cv fmt i k []
| fmt_emit i k o i' k' out :
    fmt_step tbl cv fmt i k = Some (Some o, i', k') -> formatted tbl cv fmt i' k' out ->
    formatted tbl cv fmt i k (o ++ out).

Lemma s32_range z : - 2 ^ 63 <= s32 z < 2 ^ 63.
Proof. unfold s32. pose proof (Z.mod_pos_bound (z + 2 ^ 31) (2 ^ 32)). lia. Qed.
Lemma s64_range z : - 2 ^ 63 <= s64 z < 2 ^ 63.
Proof. unfold s64. pose proof (Z.mod_pos_bound (z + 2 ^ 63) (2 ^ 64)). lia. Qed.
Lemma u32_in_range z : - 2 ^ 63 <= u32 z < 2 ^ 63.
Proof. pose proof (u32_range z). lia. Qed.

(** A step prints something definite and advances, inside the format. *)
Lemma fmt_step_some tbl cv fmt i k r :
  tbl = digits \/ tbl = u_digits ->
  fmt_step tbl cv fmt i k = Some r ->
  exists o i' k', r = (Some o, i', k') /\
    (i + (if (cat fmt i =? ch "%")%Z then 1 else 0) < length fmt)%nat /\
    (i + (if (cat fmt i =? ch "%")%Z then 2 else 1) <= i')%nat.
Proof.
  intros Ht H. assert (i + (if (cat fmt i =? ch "%")%Z then 1 else 0) < length fmt)%nat as Hi.
  { revert H. unfold fmt_step. cbv zeta. destruct (Z.eqb_spec (cat fmt i) 0) as [E|E]; [done|].
    apply cat_inside in E. destruct (Z.eqb_spec (cat fmt i) (ch "%")) as [E1|E1]; cbn [negb]; [|lia].
    destruct (Z.eqb_spec (cat fmt (i + 1)) 0) as [E2|E2]; [rewrite E2; done|].
    apply cat_inside in E2. done. }
  assert (forall xx base sign, - 2 ^ 63 <= xx < 2 ^ 63 -> base = 10 \/ base = 16 /\ sign = false ->
    exists o, int_chars tbl xx base sign = Some o) as Hint.
  { intros xx base sign H1 H2. destruct (int_chars_numeral tbl xx base sign Ht H1 H2) as (o & -> & _). eauto. }
  pose proof (s32_range (va k)) as R1. pose proof (s64_range (va k)) as R2. pose proof (u32_in_range (va k)) as R3.
  revert H. unfold fmt_step. cbv zeta. destruct (cat fmt i =? ch "%"); cbn [negb];
  cases; intros [= <-];
  try match goal with |- context [int_chars tbl ?xx ?base ?sign] =>
    destruct (Hint xx base sign) as [o ->];
      [assumption|first [left; reflexivity|right; split; reflexivity]|] end;
  do 3 eexists; (split; [reflexivity|]); lia.
Qed.

(** Every format prints some text. *)
Lemma formatted_total tbl cv fmt i k :
  tbl = digits \/ tbl = u_digits -> exists out, formatted tbl cv fmt i k out.
Proof.
  intros Ht. remember (length fmt - i)%nat as n eqn:En. revert i k En.
  induction n as [n IH] using lt_wf_ind. intros i k En.
  destruct (fmt_step tbl cv fmt i k) as [r|] eqn:E; [|exists []; by constructor].
  destruct (fmt_step_some _ _ _ _ _ _ Ht E) as (o & i' & k' & -> & H1 & H2).
  assert (i < i')%nat by (destruct (cat fmt i =? ch "%"); lia).
  destruct (IH (length fmt - i')%nat ltac:(lia) i' k' eq_refl) as [out Ho].
  exists (o ++ out). by econstructor.
Qed.

(** ** The user library *)

(** One directive of the format is one or two iterations of [vprintf]. *)
Lemma vprintf_loop_step fmt i k fuel :
  (length fmt - i < fuel)%nat ->
  vprintf_loop cstr va fuel fmt i k false =
  match fmt_step u_digits u8 fmt i k with
  | None => Some []
  | Some (o, i', k') => o ← o; app o <$> vprintf_loop cstr va (fuel - (if cat fmt i =? ch "%" then 2 else 1)) fmt i' k' false
  end.
Proof.
  intros Hn. destruct fuel as [|fuel]; [lia|]. cbn [vprintf_loop]. unfold fmt_step. cbv zeta.
  destruct (Z.eqb_spec (cat fmt i) 0) as [E|E]; [done|]. cbn [negb].
  pose proof (cat_inside _ _ E) as Hi.
  destruct (Z.eqb_spec (cat fmt i) (ch "%")) as [E'|E']; cbn [negb].
  - destruct fuel as [|fuel]; [lia|]. replace (S (S fuel) - 2)%nat with fuel by lia.
    cbn [vprintf_loop]. cbv zeta. cbn [negb]. unfold u_printint, u_printptr.
    destruct (Z.eqb_spec (cat fmt (i + 1)) 0) as [E0|E0]; [by rewrite E0|]. cases; done.
  - replace (S fuel - 1)%nat with fuel by lia. cbn [mbind option_bind].
    by destruct (vprintf_loop _ _ _ _ _ _ _).
Qed.

Lemma vprintf_loop_eq fmt i k out fuel :
  formatted u_digits u8 fmt i k out -> (length fmt - i < fuel)%nat ->
  vprintf_loop cstr va fuel fmt i k false = Some out.
Proof.
  intros Hf. revert fuel. induction Hf as [i k E|i k o i' k' out E Hf IH]; intros fuel Hn;
    rewrite vprintf_loop_step, E by done; [done|]. cbn [mbind option_bind].
  destruct (fmt_step_some u_digits u8 fmt i k _ (or_intror eq_refl) E)
    as (? & ? & ? & [= <- <- <-] & H1 & H2).
  rewrite IH; [done|]. destruct (cat fmt i =? ch "%"); lia.
Qed.

(** ** Directives *)

Inductive conv := Cd | Cld | Clld | Cu | Clu | Cllu | Cx | Clx | Cllx | Cp | Cc | Cs.
Inductive piece := Text (c : Z) | Arg (v : conv) | Percent | Odd (c : Z).

Definition spell_conv (v : conv) : list Z :=
  match v with
  | Cd => chars "d" | Cld => chars "ld" | Clld => chars "lld"
  | Cu => chars "u" | Clu => chars "lu" | Cllu => chars "llu"
  | Cx => chars "x" | Clx => chars "lx" | Cllx => chars "llx"
  | Cp => chars "p" | Cc => chars "c" | Cs => chars "s"
  end.
Definition spell (p : piece) : list Z :=
  match p with
  | Text c => [c]
  | Arg v => ch "%" :: spell_conv v
  | Percent => chars "%%"
  | Odd c => [ch "%"; c]
  end.
Definition format_of (ps : list piece) : list Z := concat (spell <$> ps).

(** A directive of its own: an unknown letter must not begin a known one. *)
Definition piece_ok (p : piece) : Prop :=
  match p with
  | Text c => c <> 0 /\ c <> ch "%"
  | Odd c => c <> 0 /\ c ∉ chars "dluxpcs%"
  | _ => True
  end.

(** What a conversion prints for the argument [w]. *)
Definition shows (cv : Z -> Z) (v : conv) (w : Z) (cs : list Z) : Prop :=
  match v with
  | Cd => numeral 10 (s32 w) cs
  | Cld | Clld => numeral 10 (s64 w) cs
  | Cu => numeral 10 (u32 w) cs
  | Clu | Cllu => numeral 10 (u64 w) cs
  | Cx => numeral 16 (u32 w) cs
  | Clx | Cllx => numeral 16 (u64 w) cs
  | Cp => exists ds, cs = chars "0x" ++ ds /\ length ds = 16%nat /\
            number 16 (digit_value <$> ds) = u64 w
  | Cc => cs = [cv (u32 w)]
  | Cs => cs = str_arg cstr w
  end.

(** The text of directives, from argument [k] on. *)
Inductive rendered (cv : Z -> Z) : list piece -> nat -> list Z -> Prop :=
| rd_nil k : rendered cv [] k []
| rd_text c ps k out : rendered cv ps k out -> rendered cv (Text c :: ps) k (c :: out)
| rd_arg v ps k cs out :
    shows cv v (va k) cs -> rendered cv ps (k + 1) out -> rendered cv (Arg v :: ps) k (cs ++ out)
| rd_percent ps k out : rendered cv ps k out -> rendered cv (Percent :: ps) k (ch "%" :: out)
| rd_odd c ps k out : rendered cv ps k out -> rendered cv (Odd c :: ps) k (ch "%" :: c :: out).

Lemma ptr_loop_number tbl n x :
  table tbl -> 0 <= x < 2 ^ 64 -> (n <= 16)%nat ->
  length (ptr_loop tbl n x) = n /\
  number 16 (digit_value <$> ptr_loop tbl n x) = x / 2 ^ (64 - 4 * Z.of_nat n).
Proof.
  intros Ht. revert x. induction n as [|n IH]; intros x Hx Hn; cbn [ptr_loop fmap list_fmap length].
  - split; [done|]. change (64 - 4 * Z.of_nat 0) with 64. by rewrite Z.div_small.
  - rewrite Z.shiftr_div_pow2, Z.shiftl_mul_pow2 by lia.
    pose proof (Z.div_mod x (2 ^ 60) ltac:(lia)) as E. pose proof (Z.mod_pos_bound x (2 ^ 60) ltac:(lia)) as Hr.
    set (d := x / 2 ^ 60) in *. set (r := x mod 2 ^ 60) in *.
    assert (0 <= d < 16) as Hd by lia.
    assert (u64 (x * 2 ^ 4) = r * 2 ^ 4) as ->.
    { unfold u64. rewrite E. replace ((2 ^ 60 * d + r) * 2 ^ 4) with (r * 2 ^ 4 + d * 2 ^ 64) by lia.
      rewrite Z.mod_add by lia. apply Z.mod_small. lia. }
    destruct (IH (r * 2 ^ 4)) as [L N]; [lia|lia|]. split; [by rewrite L|].
    rewrite table_value by done. change (?a :: ?l) with ([a] ++ l). rewrite number_app, N, length_fmap, L.
    unfold number. cbn [foldl]. rewrite Z.mul_0_l, Z.add_0_l.
    replace (64 - 4 * Z.of_nat n) with (4 + (60 - 4 * Z.of_nat n)) by lia.
    rewrite Z.pow_add_r, (Z.mul_comm r), Z.div_mul_cancel_l by lia.
    replace (64 - 4 * Z.of_nat (S n)) with (60 - 4 * Z.of_nat n) by lia.
    rewrite E. replace (2 ^ 60 * d) with (d * 16 ^ Z.of_nat n * 2 ^ (60 - 4 * Z.of_nat n)).
    + rewrite Z.div_add_l by lia. done.
    + replace (16 ^ Z.of_nat n) with (2 ^ (4 * Z.of_nat n)) by (rewrite Z.pow_mul_r by lia; done).
      rewrite <- Z.mul_assoc, <- Z.pow_add_r by lia.
      replace (4 * Z.of_nat n + (60 - 4 * Z.of_nat n)) with 60 by lia. lia.
Qed.

Lemma fmt_step_shift tbl cv pre fmt k :
  fmt_step tbl cv (pre ++ fmt) (length pre) k =
  match fmt_step tbl cv fmt 0 k with
  | Some (o, i', k') => Some (o, length pre + i', k')%nat
  | None => None
  end.
Proof.
  unfold fmt_step. cbv zeta. rewrite <- !Nat.add_assoc.
  replace (cat (pre ++ fmt) (length pre)) with (cat fmt 0) by (rewrite <- (cat_app pre), Nat.add_0_r; done).
  rewrite !cat_app. cbn [Nat.add]. cases; done.
Qed.

(** A directive is one step. *)
Lemma fmt_step_piece tbl cv p post k :
  tbl = digits \/ tbl = u_digits -> piece_ok p ->
  exists o, rendered cv [p] k o /\
    fmt_step tbl cv (spell p ++ post) 0 k =
      Some (Some o, length (spell p), match p with Arg _ => k + 1 | _ => k end)%nat.
Proof.
  intros Ht Hp.
  assert (forall w, u64 (s64 w) = u64 w) as Es.
  { intros w. unfold u64, s64. Z.to_euclidean_division_equations. lia. }
  assert (forall w, u64 (u32 w) = u32 w) as Eu.
  { intros w. unfold u64. pose proof (u32_range w). apply Z.mod_small. lia. }
  destruct p as [c|v| |c]; cbn [spell].
  - exists [c]. split; [repeat constructor|]. unfold fmt_step. cbv zeta.
    destruct Hp as [H0 H1]. change (cat ([c] ++ post) 0) with c.
    rewrite (proj2 (Z.eqb_neq _ _) H0), (proj2 (Z.eqb_neq _ _) H1). done.
  - assert (exists o, shows cv v (va k) o /\ fmt_step tbl cv ((ch "%" :: spell_conv v) ++ post) 0 k =
      Some (Some o, length (ch "%" :: spell_conv v), k + 1)%nat) as (o & Ho & E).
    2: { exists o. split; [|done]. rewrite <- (app_nil_r o). constructor; [done|constructor]. }
    pose proof (s32_range (va k)) as R1. pose proof (s64_range (va k)) as R2. pose proof (u32_in_range (va k)) as R3.
    destruct v; cbn [spell_conv shows];
    match goal with
    | |- context [numeral 10 (s32 _)] => destruct (int_chars_numeral tbl _ 10 true Ht R1) as (o & E & N & _); [by left|]
    | |- context [numeral 10 (s64 _)] => destruct (int_chars_numeral tbl _ 10 true Ht R2) as (o & E & N & _); [by left|]
    | |- context [numeral 10 (u32 _)] => destruct (int_chars_numeral tbl _ 10 false Ht R3) as (o & E & N & _); [by left|]
    | |- context [numeral 10 (u64 _)] => destruct (int_chars_numeral tbl _ 10 false Ht R2) as (o & E & N & _); [by left|]
    | |- context [numeral 16 (u32 _)] => destruct (int_chars_numeral tbl _ 16 false Ht R3) as (o & E & N & _); [by right|]
    | |- context [numeral 16 (u64 _)] => destruct (int_chars_numeral tbl _ 16 false Ht R2) as (o & E & N & _); [by right|]
    | |- _ => idtac
    end; rewrite ?Es, ?Eu in *;
    try (exists o; split; [exact N|]; rewrite <- E; reflexivity).
    + eexists. split; [|reflexivity]. destruct (ptr_loop_number tbl 16 (u64 (va k))) as [L N].
      * destruct Ht as [-> | ->]; done.
      * apply Z.mod_pos_bound. lia.
      * lia.
      * eexists. split; [reflexivity|]. split; [done|]. rewrite N. change (64 - _) with 0. apply Z.div_1_r.
    + eexists. split; [done|reflexivity].
    + eexists. split; [done|reflexivity].
  - exists (chars "%"). split; [repeat constructor|done].
  - exists [ch "%"; c]. split; [repeat constructor|]. destruct Hp as [H0 H1].
    unfold fmt_step. cbv zeta. change (cat ([ch "%"; c] ++ post) 0) with (ch "%").
    change (cat ([ch "%"; c] ++ post) (0 + 1)) with c. change (ch "%" =? 0) with false.
    change (ch "%" =? ch "%") with true. cbn [negb].
    assert (forall d, d ∈ chars "dluxpcs%" -> (c =? d) = false) as Hc.
    { intros d Hd. apply Z.eqb_neq. intros ->. done. }
    rewrite (proj2 (Z.eqb_neq _ _) H0). cbn [negb].
    rewrite (Hc (ch "d")), (Hc (ch "l")), (Hc (ch "u")), (Hc (ch "x")), (Hc (ch "p")), (Hc (ch "c")),
      (Hc (ch "s")), (Hc (ch "%")) by (apply (bool_decide_unpack _); vm_compute; exact I).
    done.
Qed.

Lemma rendered_app cv p ps k o out :
  rendered cv [p] k o -> rendered cv ps (match p with Arg _ => k + 1 | _ => k end) out ->
  rendered cv (p :: ps) k (o ++ out).
Proof.
  intros H1 H2. inversion H1 as [|c ? ? ? H3|v ? ? cs ? H3 H4|? ? ? H3|c ? ? ? H3]; subst;
    try (inversion H3; subst; by constructor).
  inversion H4; subst. rewrite app_nil_r. by constructor.
Qed.

(** Directives in a row print what each of them does. *)
Lemma formatted_pieces tbl cv ps pre k :
  tbl = digits \/ tbl = u_digits -> Forall piece_ok ps ->
  exists out, rendered cv ps k out /\
    formatted tbl cv (pre ++ format_of ps) (length pre) k out.
Proof.
  intros Ht Hps. revert pre k. induction Hps as [|p ps Hp Hps IH]; intros pre k.
  - exists []. split; [constructor|]. constructor. by rewrite fmt_step_shift.
  - destruct (fmt_step_piece tbl cv p (format_of ps) k Ht Hp) as (o & Ho & E).
    destruct (IH (pre ++ spell p) (match p with Arg _ => k + 1 | _ => k end)%nat) as (out & Hr & Hf).
    exists (o ++ out). split; [by apply rendered_app|].
    change (format_of (p :: ps)) with (spell p ++ format_of ps).
    eapply fmt_emit; [rewrite fmt_step_shift, E; reflexivity|].
    rewrite <- app_assoc, length_app in Hf. exact Hf.
Qed.
End Formats.

(** * The two printers *)

(** The same character of the two outputs: the same digit, or one truncated to
    a byte. *)
Definition same_char (u k : Z) : Prop :=
  u = k \/ u = u8 k \/ exists d, (d < 16)%nat /\ u = u_digits !!! d /\ k = digits !!! d.

Lemma same_refl cs : Forall2 same_char cs cs.
Proof. induction cs; constructor; [by left|done]. Qed.

Lemma same_digit d : 0 <= d < 16 -> same_char (u_digits !!! Z.to_nat d) (digits !!! Z.to_nat d).
Proof. intros Hd. right; right. exists (Z.to_nat d). split; [lia|done]. Qed.

Lemma digit_loop_same base room x :
  1 < base <= 16 ->
  option_Forall2 (Forall2 same_char) (digit_loop u_digits base room x) (digit_loop digits base room x).
Proof.
  intros Hb. revert x. induction room as [|room IH]; intros x; cbn [digit_loop]; [constructor|].
  pose proof (Z.mod_pos_bound x base ltac:(lia)).
  pose proof (same_digit (x mod base) ltac:(lia)) as Hd.
  destruct (negb _); [|constructor; constructor; [done|constructor]].
  destruct (IH (x / base)); constructor. by constructor.
Qed.

Lemma int_chars_same xx base sign :
  1 < base <= 16 ->
  option_Forall2 (Forall2 same_char) (int_chars u_digits xx base sign) (int_chars digits xx base sign).
Proof.
  intros Hb. unfold int_chars. destruct (digit_loop_same base 20 (if sign && (xx <? 0) then u64 (- xx) else u64 xx) Hb)
    as [l1 l2 Hl|]; cbn [mbind option_bind]; [|constructor].
  assert (Forall2 same_char (rev l1) (rev l2)) by (rewrite !rev_alt; by apply Forall2_reverse).
  destruct (sign && (xx <? 0)); [|by constructor].
  rewrite (Forall2_length _ _ _ Hl). destruct (length l2 <? 20)%nat; constructor.
  rewrite !rev_app_distr. constructor; [by left|done].
Qed.

Lemma ptr_loop_same n x : 0 <= x < 2 ^ 64 -> Forall2 same_char (ptr_loop u_digits n x) (ptr_loop digits n x).
Proof.
  revert x. induction n as [|n IH]; intros x Hx; cbn [ptr_loop]; constructor.
  - apply same_digit. rewrite Z.shiftr_div_pow2 by lia. Z.to_euclidean_division_equations. lia.
  - apply IH. apply Z.mod_pos_bound. lia.
Qed.

Lemma formatted_same cstr va fmt i k uout :
  formatted cstr va u_digits u8 fmt i k uout ->
  exists out, formatted cstr va digits (fun c => c) fmt i k out /\ Forall2 same_char uout out.
Proof.
  assert (forall i k, match fmt_step cstr va u_digits u8 fmt i k, fmt_step cstr va digits (fun c => c) fmt i k with
    | Some (o, i', k'), Some (o2, i2, k2) => option_Forall2 (Forall2 same_char) o o2 /\ i2 = i' /\ k2 = k'
    | None, None => True | _, _ => False end) as Hs.
  { clear i k uout. intros i k. pose proof (fun xx sg => int_chars_same xx 10 sg ltac:(lia)) as H10.
    pose proof (fun xx sg => int_chars_same xx 16 sg ltac:(lia)) as H16.
    unfold fmt_step. cbv zeta. cases; try done; (split; [|done]); try apply H10; try apply H16;
      constructor; try apply same_refl.
    all: try (constructor; [by left|]; constructor; [by left|]; apply ptr_loop_same, Z.mod_pos_bound; lia).
    all: constructor; [by right; left|constructor]. }
  induction 1 as [i k E|i k o i' k' uout E Hf IH]; specialize (Hs i k); rewrite E in Hs.
  - exists []. split; [|constructor]. constructor. by destruct (fmt_step _ _ digits _ _ _ _).
  - destruct (fmt_step _ _ digits _ _ _ _) as [[[o2 i2] k2]|] eqn:E2; [|done].
    destruct Hs as (Ho & -> & ->). inversion Ho as [? o3 H3|]; subst.
    destruct IH as (out & Hf2 & Hall). exists (o3 ++ out). split; [by econstructor|by apply Forall2_app].
Qed.

(** * Witnesses *)

Lemma int_chars_correct_witness :
  exists cs, int_chars digits (- 42) 10 true = Some cs /\ numeral 10 (- 42) cs /\ (length cs <= 20)%nat.
Proof.
  apply (int_chars_correct digits (- 42) 10 true); [by left|lia|by left].
Defined.

(** Text, a conversion of each kind and an unfinished one. *)
Example vprintf_example :
  vprintf (fun _ => chars "init") (fun k => Z.of_nat k * 10 - 10) (chars "%d %u %lx %s%c%%%z%") =
  Some (chars "-10 0 A init" ++ [30] ++ chars "%%z").
Proof. vm_compute. reflexivity. Qed.
