(* ===== verification/Riscv.v ===== *)
(** Constants and bit-level macros of kernel/riscv.h and kernel/memlayout.h:
    page rounding, page-table entries, virtual-address indices and the layout
    of the kernel's address spaces, with the arithmetic facts the other files
    use. *)
From S2P Require Import Prelude.

(** * riscv.h: the supervisor status register *)
Definition SSTATUS_SPP : Z := Z.shiftl 1 8.
Definition SSTATUS_SPIE : Z := Z.shiftl 1 5.
Definition SSTATUS_SIE : Z := Z.shiftl 1 1.

(** * riscv.h: pages and page-table entries *)
Definition PGSIZE : Z := 4096.
Definition PGSHIFT : Z := 12.

Definition PGROUNDUP (sz : Z) : Z :=
  Z.land (u64 (sz + PGSIZE - 1)) (Z.lnot (PGSIZE - 1)).
Definition PGROUNDDOWN (a : Z) : Z := Z.land a (Z.lnot (PGSIZE - 1)).

Definition PTE_V : Z := Z.shiftl 1 0.
Definition PTE_R : Z := Z.shiftl 1 1.
Definition PTE_W : Z := Z.shiftl 1 2.
Definition PTE_X : Z := Z.shiftl 1 3.
Definition PTE_U : Z := Z.shiftl 1 4.

Definition PA2PTE (pa : Z) : Z := u64 (Z.shiftl (Z.shiftr pa 12) 10).
Definition PTE2PA (pte : Z) : Z := u64 (Z.shiftl (Z.shiftr pte 10) 12).
Definition PTE_FLAGS (pte : Z) : Z := Z.land pte 0x3FF.

Definition PXMASK : Z := 0x1FF.
Definition PXSHIFT (level : Z) : Z := PGSHIFT + 9 * level.
Definition PX (level va : Z) : Z := Z.land (Z.shiftr va (PXSHIFT level)) PXMASK.

Definition MAXVA : Z := Z.shiftl 1 (9 + 9 + 9 + 12 - 1).

Definition SATP_SV39 : Z := Z.shiftl 8 60.
Definition MAKE_SATP (pagetable : Z) : Z :=
  Z.lor SATP_SV39 (Z.shiftr pagetable 12).

(** * memlayout.h *)
Definition UART0 : Z := 0x10000000.
Definition UART0_IRQ : Z := 10.
Definition VIRTIO0 : Z := 0x10001000.
Definition VIRTIO0_IRQ : Z := 1.
Definition PLIC : Z := 0x0c000000.
Definition PLIC_SENABLE (hart : Z) : Z := PLIC + 0x2080 + hart * 0x100.
Definition PLIC_SPRIORITY (hart : Z) : Z := PLIC + 0x201000 + hart * 0x2000.
Definition PLIC_SCLAIM (hart : Z) : Z := PLIC + 0x201004 + hart * 0x2000.
Definition KERNBASE : Z := 0x80000000.
Definition PHYSTOP : Z := KERNBASE + 128 * 1024 * 1024.
Definition TRAMPOLINE : Z := MAXVA - PGSIZE.
Definition KSTACK (p : Z) : Z := TRAMPOLINE - (p + 1) * 2 * PGSIZE.
Definition TRAPFRAME : Z := TRAMPOLINE - PGSIZE.

(** * Rounding *)

Lemma land_lnot_ones a n : 0 <= n -> Z.land a (Z.lnot (2 ^ n - 1)) = a - a mod 2 ^ n.
Proof.
  intros Hn. pose proof (Z.pow_pos_nonneg 2 n ltac:(lia) Hn).
  replace (2 ^ n - 1) with (Z.ones n) by (rewrite Z.ones_equiv; lia).
  rewrite <- Z.ldiff_land, Z.ldiff_ones_r, Z.shiftl_mul_pow2, Z.shiftr_div_pow2 by done.
  pose proof (Z.div_mod a (2 ^ n)). lia.
Qed.

Lemma pgrounddown_eq a : PGROUNDDOWN a = a - a mod PGSIZE.
Proof. apply (land_lnot_ones a 12). done. Qed.

Lemma pgroundup_eq a :
  0 <= a <= 2 ^ 64 - PGSIZE ->
  PGROUNDUP a = (a + PGSIZE - 1) - (a + PGSIZE - 1) mod PGSIZE.
Proof.
  intros Ha. unfold PGROUNDUP, u64, PGSIZE in *.
  rewrite Z.mod_small by lia. apply (land_lnot_ones _ 12). done.
Qed.

Lemma pgroundup_aligned a : (PGROUNDUP a) mod PGSIZE = 0.
Proof.
  unfold PGROUNDUP. generalize (u64 (a + PGSIZE - 1)). intros b.
  change (PGSIZE - 1) with (2 ^ 12 - 1). rewrite land_lnot_ones by done.
  change PGSIZE with (2 ^ 12). pose proof (Z.div_mod b (2 ^ 12) ltac:(done)) as E.
  replace (b - b mod 2 ^ 12) with (b / 2 ^ 12 * 2 ^ 12) by lia.
  apply Z_mod_mult.
Qed.

(** [PGROUNDUP] is the least multiple of the page size that is not below its
    argument. *)
Lemma pgroundup_bounds a :
  0 <= a <= 2 ^ 64 - PGSIZE -> a <= PGROUNDUP a < a + PGSIZE.
Proof.
  intros Ha. rewrite pgroundup_eq by done.
  pose proof (Z.mod_pos_bound (a + PGSIZE - 1) PGSIZE ltac:(done)).
  unfold PGSIZE in *. lia.
Qed.

Lemma pgroundup_id a :
  0 <= a <= 2 ^ 64 - PGSIZE -> a mod PGSIZE = 0 -> PGROUNDUP a = a.
Proof.
  intros Ha Hm. rewrite pgroundup_eq by done. unfold PGSIZE in *.
  pose proof (Z.div_mod a 4096 ltac:(done)).
  rewrite (Z.mod_eq (a + 4096 - 1) 4096) by done.
  replace ((a + 4096 - 1) / 4096) with (a / 4096); [lia|].
  apply (Z.div_unique _ _ _ 4095); lia.
Qed.

(** * Page-table entries *)

Lemma PA2PTE_eq pa : 0 <= pa < 2 ^ 64 -> PA2PTE pa = pa / 2 ^ 12 * 2 ^ 10.
Proof.
  intros Hpa. unfold PA2PTE.
  rewrite Z.shiftl_mul_pow2, Z.shiftr_div_pow2 by done.
  apply Z.mod_small.
  pose proof (Z.div_pos pa (2 ^ 12) ltac:(lia) ltac:(lia)).
  pose proof (Z.div_lt_upper_bound pa (2 ^ 12) (2 ^ 52) ltac:(lia) ltac:(lia)). lia.
Qed.

Lemma lor_add a b n : 0 <= n -> a mod 2 ^ n = 0 -> 0 <= b < 2 ^ n -> Z.lor a b = a + b.
Proof.
  intros Hn Ha Hb. rewrite Z.add_nocarry_lxor, Z.lxor_lor; [done|..];
    apply Z.bits_inj'; intros i Hi; rewrite Z.land_spec, Z.bits_0.
  all: destruct (decide (i < n)) as [Hin|Hin].
  all: try (rewrite <- (Z.mod_pow2_bits_low a n i), Ha, Z.bits_0 by lia; done).
  all: rewrite <- (Z.mod_small b (2 ^ n)), Z.mod_pow2_bits_high by lia;
    apply andb_false_r.
Qed.

Lemma pte_compose pa flags :
  0 <= pa < 2 ^ 56 -> 0 <= flags < 2 ^ 10 ->
  Z.lor (PA2PTE pa) flags = pa / 2 ^ 12 * 2 ^ 10 + flags.
Proof.
  intros Hpa Hf. rewrite PA2PTE_eq by lia. apply lor_add with 10; try done.
  apply Z_mod_mult.
Qed.

(** A page-table entry gives back the page and the flags it was built from. *)
Lemma PTE2PA_compose pa flags :
  0 <= pa < 2 ^ 56 -> pa mod PGSIZE = 0 -> 0 <= flags < 2 ^ 10 ->
  PTE2PA (Z.lor (PA2PTE pa) flags) = pa.
Proof.
  intros Hpa Ha Hf. rewrite pte_compose by done. unfold PTE2PA, u64.
  rewrite Z.shiftl_mul_pow2, Z.shiftr_div_pow2 by done.
  rewrite Z.div_add_l, (Z.div_small flags), Z.add_0_r by lia.
  pose proof (Z.div_mod pa (2 ^ 12) ltac:(done)). change PGSIZE with (2 ^ 12) in Ha.
  rewrite Z.mod_small; lia.
Qed.

Lemma PTE2PA_aligned v : PTE2PA v mod PGSIZE = 0.
Proof.
  unfold PTE2PA, u64. rewrite Z.shiftl_mul_pow2 by done. change PGSIZE with (2 ^ 12).
  change (2 ^ 64) with (2 ^ 52 * 2 ^ 12). rewrite Zmult_mod_distr_r. apply Z_mod_mult.
Qed.

Lemma PTE_FLAGS_eq pte : PTE_FLAGS pte = pte mod 2 ^ 10.
Proof. apply (Z.land_ones pte 10). done. Qed.

Lemma PTE_FLAGS_compose pa flags :
  0 <= pa < 2 ^ 56 -> 0 <= flags < 2 ^ 10 ->
  PTE_FLAGS (Z.lor (PA2PTE pa) flags) = flags.
Proof.
  intros Hpa Hf. rewrite pte_compose, PTE_FLAGS_eq by done.
  rewrite Z.add_comm, Z_mod_plus_full. by apply Z.mod_small.
Qed.

Lemma PX_eq level va : 0 <= level -> PX level va = va / 2 ^ (12 + 9 * level) mod 2 ^ 9.
Proof.
  intros Hl. unfold PX, PXSHIFT, PGSHIFT. rewrite Z.shiftr_div_pow2 by lia.
  apply (Z.land_ones _ 9). done.
Qed.

Lemma PX_bounds level va : 0 <= level -> 0 <= PX level va < 512.
Proof. intros Hl. rewrite PX_eq by done. by apply Z.mod_pos_bound. Qed.

(** The three indices and the page offset determine a virtual address. *)
Lemma va_decompose va :
  0 <= va < 2 ^ 39 ->
  va = PX 2 va * 2 ^ 30 + PX 1 va * 2 ^ 21 + PX 0 va * 2 ^ 12 + va mod PGSIZE.
Proof.
  intros Hva. rewrite !PX_eq by done. unfold PGSIZE.
  change (2 ^ (12 + 9 * 2)) with (2 ^ 30). change (2 ^ (12 + 9 * 1)) with (2 ^ 21).
  change (2 ^ (12 + 9 * 0)) with (2 ^ 12).
  Z.to_euclidean_division_equations. lia.
Qed.

#[global] Opaque PGROUNDUP PGROUNDDOWN PA2PTE PTE2PA PTE_FLAGS PX MAKE_SATP.
