(* ===== verification/Spinlock.v ===== *)
(** The machine as one hart sees it and kernel/spinlock.c.

    [machine] is the bottom layer of the kernel's state: the per-CPU structures
    of kernel/proc.h with the supervisor registers of each hart, the spin locks,
    the timer, the console output and the addresses the linker chose.  A lock of
    the source is named by a [lockid] (its address); a lock that was never
    initialised reads as zeroes, as static storage does.  [acquire] of a lock
    that another CPU holds is the outcome [Spin]. *)
From S2P Require Import Prelude Riscv.

(** * State *)

Definition NCPU : nat := 8.

(** The objects that carry a sleep lock: a buffer of the cache, an inode of
    the inode table. *)
Inductive sleepid := SlBuf (i : nat) | SlInode (i : nat).

Inductive lockid :=
| PidLock | WaitLock | TicksLock | KmemLock | BcacheLock | LogLock
| ItableLock | FtableLock | ConsLock | TxLock | VdiskLock | PrLock
| ProcLock (i : nat)
| PipeLock (pi : Z)
| SleepLk (id : sleepid).

#[export] Instance sleepid_eq_dec : EqDecision sleepid.
Proof. solve_decision. Defined.
#[export] Instance lockid_eq_dec : EqDecision lockid.
Proof. solve_decision. Defined.

Definition lockid_encode (lk : lockid) : nat * Z :=
  match lk with
  | PidLock => (0%nat, 0) | WaitLock => (0%nat, 1) | TicksLock => (0%nat, 2)
  | KmemLock => (0%nat, 3) | BcacheLock => (0%nat, 4) | LogLock => (0%nat, 5)
  | ItableLock => (0%nat, 6) | FtableLock => (0%nat, 7) | ConsLock => (0%nat, 8)
  | TxLock => (0%nat, 9) | VdiskLock => (0%nat, 10) | PrLock => (0%nat, 11)
  | ProcLock i => (1%nat, Z.of_nat i)
  | PipeLock pi => (2%nat, pi)
  | SleepLk (SlBuf i) => (3%nat, Z.of_nat i)
  | SleepLk (SlInode i) => (4%nat, Z.of_nat i)
  end.

Definition lockid_decode (x : nat * Z) : option lockid :=
  match x with
  | (0%nat, 0) => Some PidLock | (0%nat, 1) => Some WaitLock
  | (0%nat, 2) => Some TicksLock | (0%nat, 3) => Some KmemLock
  | (0%nat, 4) => Some BcacheLock | (0%nat, 5) => Some LogLock
  | (0%nat, 6) => Some ItableLock | (0%nat, 7) => Some FtableLock
  | (0%nat, 8) => Some ConsLock | (0%nat, 9) => Some TxLock | (0%nat, 10) => Some VdiskLock
  | (0%nat, 11) => Some PrLock
  | (1%nat, z) => Some (ProcLock (Z.to_nat z))
  | (2%nat, z) => Some (PipeLock z)
  | (3%nat, z) => Some (SleepLk (SlBuf (Z.to_nat z)))
  | (4%nat, z) => Some (SleepLk (SlInode (Z.to_nat z)))
  | _ => None
  end.

#[export] Program Instance lockid_countable : Countable lockid :=
  inj_countable lockid_encode lockid_decode _.
Next Obligation.
  intros [| | | | | | | | | | | |i|pi|[i|i]]; cbn; try done; by rewrite Nat2Z.id.
Qed.

Record spinlock := Spinlock {
  lk_locked : Z;
  lk_name : string;
  lk_cpu : option nat }.

#[export] Instance spinlock_inhabited : Inhabited spinlock :=
  populate (Spinlock 0 "" None).

Record csrs := Csrs {
  sstatus : Z; sepc : Z; scause : Z; stval : Z; stvec : Z; satp : Z;
  stimecmp : Z }.

Record cpu := Cpu {
  c_proc : option nat;
  c_noff : Z;
  c_intena : Z;
  c_csr : csrs }.

#[export] Instance cpu_inhabited : Inhabited cpu :=
  populate (Cpu None 0 0 (Csrs 0 0 0 0 0 0 0)).

(** Addresses fixed by kernel.ld and the assembler sources. *)
Record layout := Layout {
  ld_end : Z; ld_etext : Z; ld_trampoline : Z; ld_uservec : Z; ld_userret : Z;
  ld_kernelvec : Z; ld_forkret : Z; ld_usertrap : Z }.

(** [m_rdtime k] is the value the [k]-th read of the timer returns; [m_now]
    counts the reads done so far. *)
Record machine := Machine {
  m_tp : nat;
  m_cpus : list cpu;
  m_locks : gmap lockid spinlock;
  m_rdtime : nat -> Z;
  m_now : nat;
  m_console : list (string * list Z);
  m_ld : layout }.

Definition with_tp h m :=
  Machine h (m_cpus m) (m_locks m) (m_rdtime m) (m_now m) (m_console m) (m_ld m).
Definition with_cpus cs m :=
  Machine (m_tp m) cs (m_locks m) (m_rdtime m) (m_now m) (m_console m) (m_ld m).
Definition with_locks ls m :=
  Machine (m_tp m) (m_cpus m) ls (m_rdtime m) (m_now m) (m_console m) (m_ld m).
Definition with_now n m :=
  Machine (m_tp m) (m_cpus m) (m_locks m) (m_rdtime m) n (m_console m) (m_ld m).
Definition with_console o m :=
  Machine (m_tp m) (m_cpus m) (m_locks m) (m_rdtime m) (m_now m) o (m_ld m).

Definition set_csr r c := Cpu (c_proc c) (c_noff c) (c_intena c) r.
Definition set_noff n c := Cpu (c_proc c) n (c_intena c) (c_csr c).
Definition set_intena i c := Cpu (c_proc c) (c_noff c) i (c_csr c).
Definition set_cproc p c := Cpu p (c_noff c) (c_intena c) (c_csr c).
Definition set_sstatus x r :=
  Csrs x (sepc r) (scause r) (stval r) (stvec r) (satp r) (stimecmp r).
Definition set_sepc x r :=
  Csrs (sstatus r) x (scause r) (stval r) (stvec r) (satp r) (stimecmp r).
Definition set_stvec x r :=
  Csrs (sstatus r) (sepc r) (scause r) (stval r) x (satp r) (stimecmp r).
Definition set_satp x r :=
  Csrs (sstatus r) (sepc r) (scause r) (stval r) (stvec r) x (stimecmp r).
Definition set_stimecmp x r :=
  Csrs (sstatus r) (sepc r) (scause r) (stval r) (stvec r) (satp r) x.

(** The structure of the hart that runs, and a change of it. *)
Definition curcpu (m : machine) : cpu := m_cpus m !!! m_tp m.
Definition modcpu (f : cpu -> cpu) (m : machine) : machine :=
  with_cpus (<[m_tp m := f (curcpu m)]> (m_cpus m)) m.

(** * riscv.h: register access *)
Definition r_tp : M machine nat := gets m_tp.
Definition r_sstatus : M machine Z := gets (fun m => sstatus (c_csr (curcpu m))).
Definition r_sepc : M machine Z := gets (fun m => sepc (c_csr (curcpu m))).
Definition r_scause : M machine Z := gets (fun m => scause (c_csr (curcpu m))).
Definition r_stval : M machine Z := gets (fun m => stval (c_csr (curcpu m))).
Definition r_satp : M machine Z := gets (fun m => satp (c_csr (curcpu m))).
Definition w_csr (f : csrs -> csrs) : M machine unit :=
  modify (modcpu (fun c => set_csr (f (c_csr c)) c)).
Definition w_sstatus (x : Z) : M machine unit := w_csr (set_sstatus x).
Definition w_sepc (x : Z) : M machine unit := w_csr (set_sepc x).
Definition w_stvec (x : Z) : M machine unit := w_csr (set_stvec x).
Definition w_satp (x : Z) : M machine unit := w_csr (set_satp x).
Definition w_stimecmp (x : Z) : M machine unit := w_csr (set_stimecmp x).

Definition getTime : M machine Z :=
  m <- gets id ;; modify (with_now (S (m_now m))) ;; ret (u64 (m_rdtime m (m_now m))).
Definition r_time : M machine Z := getTime.

Definition intr_on : M machine unit :=
  x <- r_sstatus ;; w_sstatus (Z.lor x SSTATUS_SIE).
Definition intr_off : M machine unit :=
  x <- r_sstatus ;; w_sstatus (Z.land x (Z.lnot SSTATUS_SIE)).
Definition intr_get : M machine Z :=
  x <- r_sstatus ;;
  ret (if Z.land x SSTATUS_SIE =? 0 then 0 else 1).

(** Console output of printf: the format, as the source spells it, and its
    arguments, a string as its characters. *)
Definition printf (fmt : string) (args : list Z) : M machine unit :=
  modify (fun m => with_console (m_console m ++ [(fmt, args)]) m).

(** * proc.c: the current CPU *)
Definition cpuid : M machine nat := r_tp.
Definition mycpu : M machine nat := cpuid.

(** * spinlock.c *)
Definition initlock (lk : lockid) (name : string) : M machine unit :=
  modify (fun m => with_locks (<[lk := Spinlock 0 name None]> (m_locks m)) m).

Definition push_off : M machine unit :=
  old <- intr_get ;;
  intr_off ;;
  m <- gets id ;;
  when (c_noff (curcpu m) =? 0) (modify (modcpu (set_intena old))) ;;
  modify (modcpu (fun c => set_noff (c_noff c + 1) c)).

Definition pop_off : M machine unit :=
  i <- intr_get ;;
  if negb (i =? 0) then panic "pop_off - interruptible" else
  m <- gets id ;;
  if c_noff (curcpu m) <? 1 then panic "pop_off" else
  modify (modcpu (fun c => set_noff (c_noff c - 1) c)) ;;
  m' <- gets id ;;
  when ((c_noff (curcpu m') =? 0) && negb (c_intena (curcpu m') =? 0)) intr_on.

Definition holding (lk : lockid) : M machine bool :=
  m <- gets id ;; h <- mycpu ;;
  ret (negb (lk_locked (m_locks m !!! lk) =? 0)
       && bool_decide (lk_cpu (m_locks m !!! lk) = Some h)).

Definition acquire (lk : lockid) : M machine unit :=
  push_off ;;
  h <- holding lk ;;
  if (h : bool) then panic "acquire" else
  m <- gets id ;;
  let l := m_locks m !!! lk in
  if negb (lk_locked l =? 0) then spin else
  modify (with_locks (<[lk := Spinlock 1 (lk_name l) (lk_cpu l)]> (m_locks m))) ;;
  c <- mycpu ;;
  modify (fun m => with_locks (<[lk := Spinlock 1 (lk_name l) (Some c)]> (m_locks m)) m).

Definition release (lk : lockid) : M machine unit :=
  h <- holding lk ;;
  if negb h then panic "release" else
  modify (fun m => let l := m_locks m !!! lk in
    with_locks (<[lk := Spinlock (lk_locked l) (lk_name l) None]> (m_locks m)) m) ;;
  modify (fun m => let l := m_locks m !!! lk in
    with_locks (<[lk := Spinlock 0 (lk_name l) (lk_cpu l)]> (m_locks m)) m) ;;
  pop_off.

(** * Interrupt state of a hart *)

Definition sie (c : cpu) : bool :=
  negb (Z.land (sstatus (c_csr c)) SSTATUS_SIE =? 0).

(** A hart is well formed when its nesting depth is not negative and
    interrupts are off whenever the depth is positive. *)
Definition cpu_ok (c : cpu) : Prop :=
  0 <= c_noff c /\ (0 < c_noff c -> sie c = false).

Definition hart_ok (m : machine) : Prop :=
  (m_tp m < length (m_cpus m))%nat /\ cpu_ok (curcpu m).

Definition sie_off (c : cpu) : cpu :=
  set_csr (set_sstatus (Z.land (sstatus (c_csr c)) (Z.lnot SSTATUS_SIE)) (c_csr c)) c.
Definition sie_on (c : cpu) : cpu :=
  set_csr (set_sstatus (Z.lor (sstatus (c_csr c)) SSTATUS_SIE) (c_csr c)) c.

(** What [push_off] and [pop_off] do to the structure of the hart. *)
Definition push_cpu (c : cpu) : cpu :=
  set_noff (c_noff c + 1)
    (if c_noff c =? 0 then set_intena (Z.b2z (sie c)) (sie_off c) else sie_off c).
Definition pop_cpu (c : cpu) : cpu :=
  if (c_noff c =? 1) && negb (c_intena c =? 0)
  then sie_on (set_noff (c_noff c - 1) c) else set_noff (c_noff c - 1) c.

(** A critical section leaves only a trace in [intena], at the outermost
    level. *)
Definition touch_cpu (c : cpu) : cpu :=
  if c_noff c =? 0 then set_intena (Z.b2z (sie c)) c else c.
Definition touch : machine -> machine := modcpu touch_cpu.

Lemma SIE_testbit i : 0 <= i -> Z.testbit SSTATUS_SIE i = (i =? 1).
Proof. intros Hi. change SSTATUS_SIE with (2 ^ 1). rewrite Z.pow2_bits_eqb by done. apply Z.eqb_sym. Qed.

Lemma land_SIE_0 x : Z.land x SSTATUS_SIE = 0 <-> Z.testbit x 1 = false.
Proof.
  split; intros H.
  - apply (f_equal (fun z => Z.testbit z 1)) in H.
    rewrite Z.land_spec, SIE_testbit, Z.bits_0, andb_true_r in H; done.
  - apply Z.bits_inj'. intros i Hi. rewrite Z.land_spec, SIE_testbit, Z.bits_0 by done.
    destruct (i =? 1) eqn:E; [apply Z.eqb_eq in E as ->; by rewrite H|apply andb_false_r].
Qed.

Lemma sie_testbit c : sie c = Z.testbit (sstatus (c_csr c)) 1.
Proof.
  unfold sie. destruct (Z.testbit _ 1) eqn:E.
  - destruct (Z.eqb_spec (Z.land (sstatus (c_csr c)) SSTATUS_SIE) 0) as [H|H]; [|done].
    apply land_SIE_0 in H. congruence.
  - apply land_SIE_0 in E. by rewrite E.
Qed.

Lemma sie_sie_off c : sie (sie_off c) = false.
Proof.
  rewrite sie_testbit. unfold sie_off. cbn [c_csr set_csr sstatus set_sstatus].
  rewrite Z.land_spec, Z.lnot_spec, SIE_testbit by done.
  apply andb_false_r.
Qed.

Lemma sie_sie_on c : sie (sie_on c) = true.
Proof. 
  rewrite sie_testbit. unfold sie_on. cbn [c_csr set_csr sstatus set_sstatus].
  rewrite Z.lor_spec, SIE_testbit by done. apply orb_true_r.
 Qed.

Lemma sie_off_id c : sie c = false -> sie_off c = c.
Proof.
  rewrite sie_testbit. intros H. destruct c as [p n i [x ? ? ? ? ? ?]]. cbn [c_csr sstatus] in H.
  unfold sie_off, set_csr, set_sstatus. cbn [c_csr sstatus c_proc c_noff c_intena sepc scause stval stvec satp stimecmp]. do 2 f_equal.
  apply Z.bits_inj'. intros j Hj. rewrite Z.land_spec, Z.lnot_spec, SIE_testbit by done.
  destruct (Z.eqb_spec j 1) as [->|]; [by rewrite H|apply andb_true_r].
Qed.

Lemma sie_on_off c : sie c = true -> sie_on (sie_off c) = c.
Proof.
  rewrite sie_testbit. intros H. destruct c as [p n i [x ? ? ? ? ? ?]]. cbn [c_csr sstatus] in H.
  unfold sie_on, sie_off, set_csr, set_sstatus. cbn [c_csr sstatus c_proc c_noff c_intena sepc scause stval stvec satp stimecmp]. do 2 f_equal.
  apply Z.bits_inj'. intros j Hj.
  rewrite Z.lor_spec, Z.land_spec, Z.lnot_spec, SIE_testbit by done.
  destruct (Z.eqb_spec j 1) as [->|]; [by rewrite H|].
  by rewrite andb_true_r, orb_false_r.
Qed.

Lemma push_cpu_ok c : cpu_ok c -> cpu_ok (push_cpu c).
Proof.
  intros [H _]. split.
  - unfold push_cpu. cbn. lia.
  - intros _. unfold push_cpu. destruct (c_noff c =? 0); apply sie_sie_off.
Qed.

Lemma pop_push_cpu c : cpu_ok c -> pop_cpu (push_cpu c) = touch_cpu c.
Proof.
  intros [Hn Hs]. unfold pop_cpu, push_cpu, touch_cpu. cbn [c_noff set_noff].
  destruct (Z.eqb_spec (c_noff c) 0) as [E|E].
  - rewrite E. cbn [Z.add Z.eqb Z.sub andb]. cbn [c_intena set_noff set_intena].
    destruct (sie c) eqn:Es; cbn.
    + rewrite <- (sie_on_off c) at 3 by done. destruct c; cbn in *; subst; done.
    + rewrite <- (sie_off_id c) at 3 by done. destruct c; cbn in *; subst; done.
  - replace (c_noff c + 1 =? 1) with false by (symmetry; apply Z.eqb_neq; lia). cbn.
    rewrite sie_off_id by (apply Hs; lia). destruct c; cbn. unfold set_noff. cbn. f_equal. lia.
Qed.

Lemma touch_cpu_idem c : touch_cpu (touch_cpu c) = touch_cpu c.
Proof. unfold touch_cpu. destruct c as [p n i r]; cbn. destruct (n =? 0) eqn:E; cbn; by rewrite E. Qed.

Lemma touch_cpu_ok c : cpu_ok c -> cpu_ok (touch_cpu c).
Proof. unfold touch_cpu, cpu_ok. destruct (c_noff c =? 0); done. Qed.

(** * The current hart *)

Lemma curcpu_modcpu f m :
  (m_tp m < length (m_cpus m))%nat -> curcpu (modcpu f m) = f (curcpu m).
Proof. intros H. unfold curcpu, modcpu. cbn. by rewrite list_lookup_total_insert_eq. Qed.

Lemma modcpu_modcpu f g m :
  (m_tp m < length (m_cpus m))%nat ->
  modcpu g (modcpu f m) = modcpu (fun c => g (f c)) m.
Proof.
  intros H. unfold modcpu at 1. rewrite curcpu_modcpu by done.
  unfold modcpu, with_cpus. cbn. by rewrite list_insert_insert_eq.
Qed.

Lemma modcpu_id m :
  (m_tp m < length (m_cpus m))%nat -> modcpu (fun c => c) m = m.
Proof.
  intros H. unfold modcpu, with_cpus, curcpu. destruct m as [tp cs ls rd nw co ld].
  cbn in *. f_equal. apply list_insert_id. by apply list_lookup_lookup_total_lt.
Qed.

Lemma modcpu_ext f g m : f (curcpu m) = g (curcpu m) -> modcpu f m = modcpu g m.
Proof. intros H. unfold modcpu. by rewrite H. Qed.

Lemma modcpu_tp f m : m_tp (modcpu f m) = m_tp m.
Proof. done. Qed.

Lemma modcpu_bound f m :
  (m_tp m < length (m_cpus m))%nat ->
  (m_tp (modcpu f m) < length (m_cpus (modcpu f m)))%nat.
Proof. intros H. cbn. by rewrite length_insert. Qed.

Lemma hart_ok_modcpu f m :
  hart_ok m -> cpu_ok (f (curcpu m)) -> hart_ok (modcpu f m).
Proof.
  intros [H _] Hc. split; [by apply modcpu_bound|]. by rewrite curcpu_modcpu.
Qed.

Lemma with_locks_modcpu f ls m : with_locks ls (modcpu f m) = modcpu f (with_locks ls m).
Proof. done. Qed.

Lemma touch_touch m : hart_ok m -> touch (touch m) = touch m.
Proof.
  intros [H _]. unfold touch. rewrite modcpu_modcpu by done.
  apply modcpu_ext, touch_cpu_idem.
Qed.

Lemma touch_hart_ok m : hart_ok m -> hart_ok (touch m).
Proof. intros H. apply hart_ok_modcpu; [done|]. apply touch_cpu_ok, H. Qed.

(** * What each operation does *)

Lemma intr_get_eq m : intr_get m = Ret (Z.b2z (sie (curcpu m))) m.
Proof.
  unfold intr_get, bind, r_sstatus, gets, ret, sie. cbn [pbind].
  by destruct (Z.land _ _ =? 0).
Qed.

Lemma intr_off_eq m : intr_off m = Ret tt (modcpu sie_off m).
Proof. done. Qed.

Lemma intr_on_eq m : intr_on m = Ret tt (modcpu sie_on m).
Proof. done. Qed.

Lemma push_off_eq m : hart_ok m -> push_off m = Ret tt (modcpu push_cpu m).
Proof.
  intros [Hb _]. unfold push_off. kstep intr_get_eq. kstep intr_off_eq.
  kstep eq_refl. unfold id. rewrite curcpu_modcpu by done. unfold when.
  change (c_noff (sie_off (curcpu m))) with (c_noff (curcpu m)).
  destruct (c_noff (curcpu m) =? 0) eqn:E.
  - kstep eq_refl. unfold modify. f_equal.
    rewrite !modcpu_modcpu by (rewrite ?modcpu_tp; cbn; rewrite ?length_insert; done).
    apply modcpu_ext. unfold push_cpu. by rewrite E.
  - kstep eq_refl. unfold modify. f_equal. rewrite modcpu_modcpu by done.
    apply modcpu_ext. unfold push_cpu. by rewrite E.
Qed.

Lemma pop_off_eq m :
  (m_tp m < length (m_cpus m))%nat ->
  sie (curcpu m) = false -> 1 <= c_noff (curcpu m) ->
  pop_off m = Ret tt (modcpu pop_cpu m).
Proof.
  intros Hb Hs Hn. unfold pop_off. kstep intr_get_eq. rewrite Hs. cbn [Z.b2z Z.eqb negb].
  kstep eq_refl. unfold id.
  replace (c_noff (curcpu m) <? 1) with false by (symmetry; apply Z.ltb_ge; lia).
  kstep eq_refl. kstep eq_refl. unfold id. rewrite curcpu_modcpu by done. cbn [c_noff set_noff c_intena].
  unfold when.
  assert ((c_noff (curcpu m) - 1 =? 0) = (c_noff (curcpu m) =? 1)) as E1.
  { destruct (Z.eqb_spec (c_noff (curcpu m) - 1) 0), (Z.eqb_spec (c_noff (curcpu m)) 1); lia. }
  rewrite E1.
  destruct ((c_noff (curcpu m) =? 1) && negb (c_intena (curcpu m) =? 0)) eqn:E.
  - rewrite intr_on_eq, modcpu_modcpu by done. f_equal. apply modcpu_ext.
    unfold pop_cpu. by rewrite E.
  - unfold ret. f_equal. apply modcpu_ext. unfold pop_cpu. by rewrite E.
Qed.

Definition lock_free (lk : lockid) (m : machine) : Prop :=
  exists name, m_locks m !! lk = Some (Spinlock 0 name None).
Definition lock_held (lk : lockid) (h : nat) (m : machine) : Prop :=
  exists name, m_locks m !! lk = Some (Spinlock 1 name (Some h)).

Definition acquired (lk : lockid) (m : machine) : machine :=
  with_locks (<[lk := Spinlock 1 (lk_name (m_locks m !!! lk)) (Some (m_tp m))]> (m_locks m))
    (modcpu push_cpu m).
Definition released (lk : lockid) (m : machine) : machine :=
  with_locks (<[lk := Spinlock 0 (lk_name (m_locks m !!! lk)) None]> (m_locks m))
    (modcpu pop_cpu m).

Lemma holding_eq lk m :
  holding lk m =
  Ret (negb (lk_locked (m_locks m !!! lk) =? 0)
       && bool_decide (lk_cpu (m_locks m !!! lk) = Some (m_tp m))) m.
Proof. done. Qed.

Lemma acquire_unlocked lk m :
  hart_ok m -> lk_locked (m_locks m !!! lk) = 0 ->
  acquire lk m = Ret tt (acquired lk m).
Proof.
  intros Hm Hl. unfold acquire. kstep push_off_eq by done. kstep holding_eq.
  change (m_locks (modcpu push_cpu m)) with (m_locks m). rewrite Hl. cbn [Z.eqb negb andb].
  kstep eq_refl. unfold id. change (m_locks (modcpu push_cpu m)) with (m_locks m).
  cbv zeta. rewrite Hl. cbn [Z.eqb negb]. kstep eq_refl. kstep eq_refl.
  unfold modify, acquired. f_equal. unfold with_locks. cbn. f_equal. apply insert_insert_eq.
Qed.

Lemma acquire_free lk m :
  hart_ok m -> lock_free lk m -> acquire lk m = Ret tt (acquired lk m).
Proof.
  intros Hm [nm Hl]. apply acquire_unlocked; [done|]. by rewrite (lookup_total_correct _ _ _ Hl).
Qed.

Lemma release_held lk m :
  (m_tp m < length (m_cpus m))%nat -> lock_held lk (m_tp m) m ->
  sie (curcpu m) = false -> 1 <= c_noff (curcpu m) ->
  release lk m = Ret tt (released lk m).
Proof.
  intros Hb [nm Hl] Hs Hn. unfold release. kstep holding_eq.
  assert (m_locks m !!! lk = Spinlock 1 nm (Some (m_tp m))) as Hl'
    by by apply lookup_total_correct.
  rewrite Hl'. cbn [lk_locked lk_cpu Z.eqb negb]. rewrite bool_decide_eq_true_2 by done.
  cbn [andb negb]. kstep eq_refl. kstep eq_refl. rewrite Hl'.
  match goal with |- pop_off ?x = _ => change x with
    (with_locks (m_locks x) m) end.
  rewrite pop_off_eq by done. f_equal. unfold released. rewrite Hl'.
  rewrite with_locks_modcpu. f_equal. unfold with_locks. cbn [m_tp m_cpus m_locks m_rdtime m_now m_console m_ld].
  f_equal. rewrite lookup_total_insert_eq, insert_insert_eq. done.
Qed.

Lemma released_acquired lk m :
  hart_ok m -> lock_free lk m -> released lk (acquired lk m) = touch m.
Proof.
  intros Hm [nm Hl]. unfold released, acquired, touch.
  rewrite !with_locks_modcpu. cbn [m_locks with_locks modcpu with_cpus].
  rewrite insert_insert_eq, lookup_total_insert_eq. cbn [lk_name].
  rewrite (lookup_total_correct _ _ _ Hl). cbn [lk_name]. rewrite insert_id by done.
  destruct Hm as [Hb Hc]. rewrite modcpu_modcpu by done.
  match goal with |- modcpu _ ?x = _ => replace x with m by (by destruct m) end.
  by apply modcpu_ext, pop_push_cpu.
Qed.

(** After [acquire] the lock is held by this hart, at one more level, with
    interrupts off. *)
Lemma acquired_held lk m : lock_held lk (m_tp m) (acquired lk m).
Proof. eexists. unfold acquired. cbn. by rewrite lookup_insert_eq. Qed.

Lemma acquired_other lk lk' m :
  lk <> lk' -> m_locks (acquired lk m) !! lk' = m_locks m !! lk'.
Proof. intros H. cbn. by rewrite lookup_insert_ne. Qed.

Lemma curcpu_acquired lk m : hart_ok m -> curcpu (acquired lk m) = push_cpu (curcpu m).
Proof. intros [Hb _]. by apply (curcpu_modcpu push_cpu m). Qed.

Lemma acquired_hart_ok lk m : hart_ok m -> hart_ok (acquired lk m).
Proof.
  intros Hm. split; [apply (modcpu_bound push_cpu m), Hm|].
  rewrite curcpu_acquired by done. apply push_cpu_ok, Hm.
Qed.

Lemma push_cpu_noff c : c_noff (push_cpu c) = c_noff c + 1.
Proof. done. Qed.

Lemma push_cpu_sie c : sie (push_cpu c) = false.
Proof. unfold push_cpu. destruct (c_noff c =? 0); apply sie_sie_off. Qed.

(** Acquire, then release with nothing in between. *)
Lemma release_acquired lk m :
  hart_ok m -> lock_free lk m -> release lk (acquired lk m) = Ret tt (touch m).
Proof.
  intros Hm Hf. rewrite <- (released_acquired lk m) by done. apply release_held.
  - apply acquired_hart_ok, Hm.
  - apply (acquired_held lk m).
  - rewrite curcpu_acquired by done. apply push_cpu_sie.
  - rewrite curcpu_acquired by done. rewrite push_cpu_noff. destruct Hm as [_ [? _]]. lia.
Qed.

Lemma lock_free_touch lk m : lock_free lk (touch m) <-> lock_free lk m.
Proof. done. Qed.

(** Inside a critical section another one leaves no trace. *)
Lemma touch_acquired lk m : hart_ok m -> touch (acquired lk m) = acquired lk m.
Proof.
  intros Hm. pose proof Hm as [Hb [Hn _]]. unfold touch.
  rewrite (modcpu_ext _ (fun c => c)).
  - apply modcpu_id. by apply acquired_hart_ok.
  - rewrite curcpu_acquired by done. unfold touch_cpu. rewrite push_cpu_noff.
    replace (c_noff (curcpu m) + 1 =? 0) with false; [done|]. symmetry. apply Z.eqb_neq. lia.
Qed.

Lemma push_touch_cpu c : push_cpu (touch_cpu c) = push_cpu c.
Proof.
  unfold push_cpu, touch_cpu. destruct (c_noff c =? 0) eqn:E; cbn; by rewrite E.
Qed.

Lemma acquired_touch lk m : hart_ok m -> acquired lk (touch m) = acquired lk m.
Proof.
  intros Hm. unfold acquired. cbn [m_locks m_tp touch modcpu with_cpus]. f_equal.
  unfold touch. rewrite modcpu_modcpu by apply Hm. apply modcpu_ext, push_touch_cpu.
Qed.

(** Two locks taken, released in the other order. *)
Lemma release_first lk lk' m :
  lk <> lk' -> hart_ok m -> lock_free lk m -> lock_free lk' m ->
  release lk (acquired lk' (acquired lk m)) = Ret tt (acquired lk' m).
Proof.
  intros Hne Hm [nm Hl] [nm' Hl'].
  pose proof (acquired_hart_ok lk m Hm) as Hm1. pose proof (acquired_hart_ok lk' _ Hm1) as Hm2.
  rewrite release_held; [|apply Hm2| | |].
  - f_equal. unfold released, acquired.
    cbn [m_locks with_locks modcpu with_cpus m_tp]. rewrite !with_locks_modcpu.
    rewrite modcpu_modcpu by (cbn; rewrite length_insert; apply Hm).
    unfold with_locks at 2 3. cbn [m_tp m_cpus m_locks m_rdtime m_now m_console m_ld with_locks].
    rewrite (insert_insert_ne _ lk lk') by done. rewrite insert_insert_eq.
    rewrite (lookup_total_insert_ne _ lk lk') by done.
    rewrite (lookup_total_insert_ne _ lk' lk) by done. rewrite lookup_total_insert_eq.
    rewrite (lookup_total_correct _ _ _ Hl). cbn [lk_name].
    rewrite (insert_id (m_locks m) lk) by done.
    transitivity (modcpu (fun c => pop_cpu (push_cpu (push_cpu c)))
      (with_locks (<[lk' := Spinlock 1 (lk_name (m_locks m !!! lk')) (Some (m_tp m))]> (m_locks m)) m)).
    { rewrite <- (modcpu_modcpu push_cpu (fun c => pop_cpu (push_cpu c))) by apply Hm. done. }
    apply modcpu_ext. change (curcpu (with_locks _ m)) with (curcpu m).
    rewrite pop_push_cpu by apply push_cpu_ok, Hm.
    unfold touch_cpu. rewrite push_cpu_noff. destruct Hm as [_ [Hn _]].
    by rewrite (proj2 (Z.eqb_neq (c_noff (curcpu m) + 1) 0)) by lia.
  - exists nm. unfold acquired. cbn. rewrite lookup_insert_ne, lookup_insert_eq by done.
    by rewrite (lookup_total_correct _ _ _ Hl).
  - rewrite curcpu_acquired by done. apply push_cpu_sie.
  - rewrite curcpu_acquired, push_cpu_noff, curcpu_acquired, push_cpu_noff by done.
    destruct Hm as [_ [? _]]. lia.
Qed.

Create HintDb kernel discriminated.
#[export] Hint Resolve touch_hart_ok acquired_hart_ok acquired_held : kernel.

(** * Every branch of acquire and release *)

Lemma acquire_cases lk m :
  hart_ok m ->
  acquire lk m =
    let l := m_locks m !!! lk in
    if negb (lk_locked l =? 0) then
      if bool_decide (lk_cpu l = Some (m_tp m))
      then Panic "acquire" (modcpu push_cpu m)
      else Spin (modcpu push_cpu m)
    else Ret tt (acquired lk m).
Proof.
  intros Hm. cbv zeta. destruct (Z.eqb_spec (lk_locked (m_locks m !!! lk)) 0) as [E|E].
  - cbn. by apply acquire_unlocked.
  - cbn [negb]. unfold acquire. kstep push_off_eq by done. kstep holding_eq.
    change (m_locks (modcpu push_cpu m)) with (m_locks m).
    change (m_tp (modcpu push_cpu m)) with (m_tp m).
    apply Z.eqb_neq in E. rewrite E. cbn [negb andb].
    destruct (bool_decide _); [done|].
    kstep eq_refl. unfold id. change (m_locks (modcpu push_cpu m)) with (m_locks m).
    cbv zeta. by rewrite E.
Qed.

Lemma acquire_inv lk m m' :
  hart_ok m -> acquire lk m = Ret tt m' ->
  lk_locked (m_locks m !!! lk) = 0 /\ m' = acquired lk m.
Proof.
  intros Hm. rewrite acquire_cases by done. cbv zeta.
  destruct (Z.eqb_spec (lk_locked (m_locks m !!! lk)) 0) as [E|E]; cbn [negb].
  - by intros [= <-].
  - by destruct (bool_decide _).
Qed.

Lemma release_not_held lk m :
  lk_cpu (m_locks m !!! lk) <> Some (m_tp m) -> release lk m = Panic "release" m.
Proof.
  intros H. unfold release. kstep holding_eq.
  rewrite bool_decide_eq_false_2 by done. by rewrite andb_false_r.
Qed.

Lemma release_inv lk m m' :
  release lk m = Ret tt m' ->
  lk_cpu (m_locks m !!! lk) = Some (m_tp m) /\ lk_locked (m_locks m !!! lk) <> 0.
Proof.
  intros H. destruct (decide (lk_cpu (m_locks m !!! lk) = Some (m_tp m))) as [E|E].
  - split; [done|]. intros H0. unfold release in H. rewrite (bind_Ret _ _ _ _ _ (holding_eq _ _)) in H.
    by rewrite H0 in H.
  - by rewrite release_not_held in H.
Qed.

(** * Mutual exclusion

    Harts interleave at the granularity of [acquire], [release] and changes of
    the interrupt-enable bit outside critical sections.  [crit] records which
    hart has returned from [acquire] of which lock and not yet called
    [release]. *)
Definition crit := gset (lockid * nat).

Inductive lock_step : machine * crit -> machine * crit -> Prop :=
| step_acquire m cs h lk m' :
    (h < length (m_cpus m))%nat ->
    acquire lk (with_tp h m) = Ret tt m' ->
    lock_step (m, cs) (m', cs ∪ {[ (lk, h) ]})
| step_release m cs h lk m' :
    (h < length (m_cpus m))%nat ->
    release lk (with_tp h m) = Ret tt m' ->
    lock_step (m, cs) (m', cs ∖ {[ (lk, h) ]})
| step_intr_on m cs h m' :
    (h < length (m_cpus m))%nat ->
    c_noff (curcpu (with_tp h m)) = 0 ->
    intr_on (with_tp h m) = Ret tt m' ->
    lock_step (m, cs) (m', cs)
| step_intr_off m cs h m' :
    (h < length (m_cpus m))%nat ->
    intr_off (with_tp h m) = Ret tt m' ->
    lock_step (m, cs) (m', cs).

Definition held_by (h : nat) (ls : gmap lockid spinlock) : gmap lockid spinlock :=
  filter (fun p => lk_cpu p.2 = Some h) ls.

Definition lock_inv (st : machine * crit) : Prop :=
  let (m, cs) := st in
  (forall lk l, m_locks m !! lk = Some l ->
     (lk_locked l = 0 /\ lk_cpu l = None) \/
     (lk_locked l = 1 /\ exists h, lk_cpu l = Some h)) /\
  (forall lk h, (lk, h) ∈ cs <-> lock_held lk h m) /\
  (forall h c, m_cpus m !! h = Some c ->
     c_noff c = Z.of_nat (size (held_by h (m_locks m))) /\ cpu_ok c).

(** Start-up: no lock held, every hart at level 0. *)
Definition lock_init (st : machine * crit) : Prop :=
  let (m, cs) := st in
  cs = ∅ /\
  (forall lk l, m_locks m !! lk = Some l -> lk_locked l = 0 /\ lk_cpu l = None) /\
  (forall h c, m_cpus m !! h = Some c -> c_noff c = 0).

Lemma held_by_empty h ls :
  (forall lk l, ls !! lk = Some l -> lk_cpu l = None) -> held_by h ls = ∅.
Proof.
  intros H. apply map_empty_filter_2. intros lk l Hl E. cbn in E.
  by rewrite (H _ _ Hl) in E.
Qed.

Lemma held_by_take h lk l ls :
  lk_cpu l = Some h -> held_by h ls !! lk = None ->
  size (held_by h (<[lk := l]> ls)) = S (size (held_by h ls)).
Proof.
  intros Hl Hn. unfold held_by in *. rewrite map_filter_insert_True by done.
  by apply map_size_insert_None.
Qed.

Lemma held_by_other h lk l ls :
  lk_cpu l <> Some h -> (forall l', ls !! lk = Some l' -> lk_cpu l' <> Some h) ->
  held_by h (<[lk := l]> ls) = held_by h ls.
Proof.
  intros Hl Hn. by apply map_filter_insert_not'.
Qed.

Lemma held_by_drop h lk l l0 ls :
  lk_cpu l <> Some h -> ls !! lk = Some l0 -> lk_cpu l0 = Some h ->
  size (held_by h ls) = S (size (held_by h (<[lk := l]> ls))).
Proof.
  intros Hl H0 Hc. rewrite <- (held_by_take h lk l0 (<[lk := l]> ls)).
  - by rewrite insert_insert_eq, insert_id.
  - done.
  - apply map_lookup_filter_None_2. right. intros l'. rewrite lookup_insert_eq.
    by intros [= <-].
Qed.

Lemma pop_cpu_noff c : c_noff (pop_cpu c) = c_noff c - 1.
Proof. unfold pop_cpu. by destruct (_ && _). Qed.

Lemma pop_cpu_ok c : sie c = false -> 1 <= c_noff c -> cpu_ok (pop_cpu c).
Proof.
  intros Hs Hn. split; [rewrite pop_cpu_noff; lia|]. rewrite pop_cpu_noff. intros H.
  unfold pop_cpu. replace (c_noff c =? 1) with false by (symmetry; apply Z.eqb_neq; lia). done.
Qed.

Section MutualExclusion.
Context (m : machine) (cs : crit) (h : nat).
Hypothesis Hinv : lock_inv (m, cs).
Hypothesis Hh : (h < length (m_cpus m))%nat.

Lemma lock_inv_hart_ok : hart_ok (with_tp h m).
Proof.
  split; [done|]. unfold curcpu. cbn.
  destruct (lookup_lt_is_Some_2 _ _ Hh) as [c Hc].
  rewrite (list_lookup_total_correct _ _ _ Hc). by apply (proj2 (proj2 Hinv) h).
Qed.

Lemma lock_inv_noff :
  c_noff (curcpu (with_tp h m)) = Z.of_nat (size (held_by h (m_locks m))).
Proof.
  destruct (lookup_lt_is_Some_2 _ _ Hh) as [c Hc]. unfold curcpu. cbn.
  rewrite (list_lookup_total_correct _ _ _ Hc). by apply (proj2 (proj2 Hinv) h).
Qed.

(** A lock whose word is 0 is held by nobody. *)
Lemma lock_inv_unlocked lk l :
  m_locks m !! lk = Some l -> lk_locked l = 0 -> lk_cpu l = None.
Proof. intros Hl H0. destruct (proj1 Hinv lk l Hl) as [?|[? _]]; naive_solver lia. Qed.

Lemma lock_held_insert lk l lk' h' ls :
  lock_held lk' h' (with_locks (<[lk := l]> ls) m) <->
  (lk' = lk /\ lk_locked l = 1 /\ lk_cpu l = Some h') \/
  (lk' <> lk /\ lock_held lk' h' (with_locks ls m)).
Proof.
  unfold lock_held. cbn. setoid_rewrite lookup_insert_Some. destruct l as [a n c]. cbn.
  split.
  - intros [nm [[-> [= -> -> ->]]|[? ?]]]; [by left|]. right. split; [done|]. by exists nm.
  - intros [(-> & -> & ->)|[? [nm ?]]]; [exists n; by left|exists nm; right; done].
Qed.

Lemma lock_inv_acquire lk :
  lk_locked (m_locks m !!! lk) = 0 ->
  lock_inv (acquired lk (with_tp h m), cs ∪ {[ (lk, h) ]}).
Proof using Hinv Hh.
  intros H0. pose proof lock_inv_hart_ok as Hok. pose proof lock_inv_noff as Hno.
  destruct Hinv as (Hl & Hc & Hn).
  assert (forall l', m_locks m !! lk = Some l' -> lk_cpu l' = None) as Hnone.
  { intros l' E. apply (lock_inv_unlocked lk l' E).
    by rewrite (lookup_total_correct _ _ _ E) in H0. }
  split; [|split].
  - intros lk' l. cbn. rewrite lookup_insert_Some.
    intros [[<- <-]|[_ H]]; [right; cbn; eauto|by apply (Hl lk')].
  - intros lk' h'. rewrite elem_of_union, elem_of_singleton, Hc.
    change (lock_held lk' h' (acquired lk (with_tp h m))) with
      (lock_held lk' h' (with_locks (<[lk := Spinlock 1 (lk_name (m_locks m !!! lk)) (Some h)]>
        (m_locks m)) m)).
    rewrite lock_held_insert. cbn. change (with_locks (m_locks m) m) with
      (with_locks (m_locks m) m). replace (with_locks (m_locks m) m) with m by by destruct m.
    split; [|naive_solver].
    intros [Hx|Hx]; [|naive_solver].
    right. split; [|done]. intros ->. destruct Hx as [nm E].
    by apply Hnone in E.
  - intros h' c. cbn. rewrite list_lookup_insert_Some.
    intros [(<- & <- & _)|[Hne E]].
    + change (c_noff (push_cpu (curcpu (with_tp h m))) =
        Z.of_nat (size (held_by h (<[lk := Spinlock 1 (lk_name (m_locks m !!! lk)) (Some h)]>
          (m_locks m)))) /\ cpu_ok (push_cpu (curcpu (with_tp h m)))).
      rewrite held_by_take; [|done|].
      * rewrite push_cpu_noff, Hno. split; [lia|]. apply push_cpu_ok, Hok.
      * apply map_lookup_filter_None_2. right. intros l' E. cbn. by rewrite (Hnone _ E).
    + rewrite held_by_other.
      * by apply Hn.
      * cbn. congruence.
      * intros l' E'. by rewrite (Hnone _ E').
Qed.

Lemma lock_inv_release lk l :
  m_locks m !! lk = Some l -> lk_locked l <> 0 -> lk_cpu l = Some h ->
  release lk (with_tp h m) = Ret tt (released lk (with_tp h m)) /\
  lock_inv (released lk (with_tp h m), cs ∖ {[ (lk, h) ]}).
Proof using Hinv Hh.
  intros El H0 Ec. pose proof lock_inv_hart_ok as Hok. pose proof lock_inv_noff as Hno.
  destruct Hinv as (Hl & Hc & Hn).
  set (l' := Spinlock 0 (lk_name (m_locks m !!! lk)) None).
  pose proof (held_by_drop h lk l' l (m_locks m) ltac:(done) El Ec) as Hsz.
  assert (1 <= c_noff (curcpu (with_tp h m))) as H1 by lia.
  assert (sie (curcpu (with_tp h m)) = false) as Hs by (apply Hok; lia).
  split; [|split; [|split]].
  - apply release_held; [done| |done|done]. exists (lk_name l). cbn. rewrite El.
    destruct (Hl _ _ El) as [[? _]|[? _]]; [done|]. destruct l; cbn in *; by subst.
  - intros lk' l0. cbn. rewrite lookup_insert_Some.
    intros [[<- <-]|[_ H]]; [left; done|by apply (Hl lk')].
  - intros lk' h'. rewrite elem_of_difference, elem_of_singleton, Hc.
    change (lock_held lk' h' (released lk (with_tp h m))) with
      (lock_held lk' h' (with_locks (<[lk := l']> (m_locks m)) m)).
    rewrite lock_held_insert. cbn. replace (with_locks (m_locks m) m) with m by by destruct m.
    split; [|naive_solver]. intros [[nm E] Hne]. right. split; [|by exists nm].
    intros ->. rewrite El in E. naive_solver.
  - intros h' c. cbn. rewrite list_lookup_insert_Some.
    intros [(<- & <- & _)|[Hne E]].
    + change (c_noff (pop_cpu (curcpu (with_tp h m))) =
        Z.of_nat (size (held_by h (<[lk := l']> (m_locks m)))) /\
        cpu_ok (pop_cpu (curcpu (with_tp h m)))).
      rewrite pop_cpu_noff. split; [lia|]. by apply pop_cpu_ok.
    + rewrite held_by_other; [by apply Hn|done|].
      intros l0 E0. rewrite El in E0. congruence.
Qed.
End MutualExclusion.

Lemma lock_inv_step st st' : lock_inv st -> lock_step st st' -> lock_inv st'.
Proof.
  intros Hinv Hstep. destruct Hstep as [m cs h lk m' Hh E|m cs h lk m' Hh E|m cs h m' Hh E0 E|m cs h m' Hh E].
  - apply acquire_inv in E as [H0 ->]; [|by eapply lock_inv_hart_ok].
    by apply lock_inv_acquire.
  - pose proof (release_inv _ _ _ E) as [Hc Hl]. cbn in Hc, Hl.
    destruct (m_locks m !! lk) as [l|] eqn:El.
    + rewrite (lookup_total_correct _ _ _ El) in Hc, Hl.
      destruct (lock_inv_release m cs h Hinv Hh lk l El Hl Hc) as [E' Hi]. congruence.
    + by rewrite lookup_total_alt, El in Hc.
  - injection E as <-. destruct Hinv as (Hl & Hc & Hn). split; [done|split; [done|]].
    intros h' c. cbn. rewrite list_lookup_insert_Some. intros [(<- & <- & _)|[_ H]]; [|by apply Hn].
    destruct (lookup_lt_is_Some_2 _ _ Hh) as [c Hc'].
    unfold curcpu in *. cbn in *. rewrite (list_lookup_total_correct _ _ _ Hc') in *.
    destruct (Hn h c Hc') as [Hno Hok]. split; [done|]. unfold cpu_ok. cbn. lia.
  - injection E as <-. destruct Hinv as (Hl & Hc & Hn). split; [done|split; [done|]].
    intros h' c. cbn. rewrite list_lookup_insert_Some. intros [(<- & <- & _)|[_ H]]; [|by apply Hn].
    destruct (lookup_lt_is_Some_2 _ _ Hh) as [c Hc'].
    change (set_csr _ _) with (sie_off (curcpu (with_tp h m))).
    unfold curcpu. cbn. rewrite (list_lookup_total_correct _ _ _ Hc').
    destruct (Hn h c Hc') as [Hno Hok]. split; [done|]. split; [apply Hok|].
    intros _. apply sie_sie_off.
Qed.

Lemma lock_init_inv st : lock_init st -> lock_inv st.
Proof.
  destruct st as [m cs]. intros (-> & Hl & Hn). split; [|split].
  - intros lk l H. left. by apply (Hl lk).
  - intros lk h. split; [set_solver|]. intros [nm E]. by apply Hl in E as [? _].
  - intros h c H. rewrite held_by_empty by (intros lk l E; by apply (Hl lk)).
    rewrite (Hn h c H). split; [done|]. unfold cpu_ok. rewrite (Hn h c H). lia.
Qed.

(** C10. Mutual exclusion: in every state the harts reach from start-up, at most
    one hart is between [acquire] and [release] of a lock, and that hart has
    interrupts disabled. *)
Theorem spinlock_mutual_exclusion st0 m cs lk h1 h2 c :
  lock_init st0 -> rtc lock_step st0 (m, cs) ->
  (lk, h1) ∈ cs -> (lk, h2) ∈ cs -> m_cpus m !! h1 = Some c ->
  h1 = h2 /\ sie c = false.
Proof.
  intros H0 Hrtc H1 H2 Hc.
  assert (lock_inv (m, cs)) as (Hl & Hcs & Hn).
  { apply lock_init_inv in H0. induction Hrtc; [done|]. eauto using lock_inv_step. }
  apply Hcs in H1 as [n1 E1]. apply Hcs in H2 as [n2 E2].
  split; [congruence|]. destruct (Hn _ _ Hc) as [Hno [_ Hoff]]. apply Hoff.
  destruct (decide (size (held_by h1 (m_locks m)) = 0%nat)) as [Hz|]; [|lia].
  apply map_size_empty_iff in Hz. exfalso.
  eapply (map_filter_empty_not_lookup _ (m_locks m)); [exact Hz| |exact E1]. done.
Qed.

Definition pushes (n : nat) : M machine unit := iterl (replicate n tt) (fun _ => push_off).
Definition pops (n : nat) : M machine unit := iterl (replicate n tt) (fun _ => pop_off).

Lemma touch_cpu_nested c : 0 < c_noff c -> touch_cpu c = c.
Proof. intros H. unfold touch_cpu. by replace (c_noff c =? 0) with false by lia. Qed.

Lemma pop_after_push m : hart_ok m -> pop_off (modcpu push_cpu m) = Ret tt (touch m).
Proof.
  intros [Hb Hc]. rewrite pop_off_eq.
  - rewrite modcpu_modcpu by done. f_equal. by apply modcpu_ext, pop_push_cpu.
  - by apply modcpu_bound.
  - rewrite curcpu_modcpu by done. apply push_cpu_sie.
  - rewrite curcpu_modcpu, push_cpu_noff by done. destruct Hc. lia.
Qed.

(** [push_off] and [pop_off] are matched: however deep they are nested, [n]
    pops undo [n] pushes; the interrupt-enable bit and the nesting depth are
    what they were, and in between interrupts are off and the depth is [n]
    higher. *)
Theorem push_pop_matched n m :
  hart_ok m -> (0 < n)%nat ->
  exists m1, pushes n m = Ret tt m1 /\
    sie (curcpu m1) = false /\
    c_noff (curcpu m1) = c_noff (curcpu m) + Z.of_nat n /\
    pops n m1 = Ret tt (touch m).
Proof.
  destruct n as [|n]; [lia|]. intros Hm _. revert m Hm. induction n as [|n IH]; intros m Hm.
  - exists (modcpu push_cpu m). unfold pushes, pops. cbn [replicate iterl].
    rewrite curcpu_modcpu by apply Hm.
    split; [by kstep push_off_eq by done|]. split; [apply push_cpu_sie|].
    split; [done|]. by kstep pop_after_push by done.
  - destruct (IH (modcpu push_cpu m)) as (m1 & E1 & Hs & Hn & E2).
    { apply hart_ok_modcpu; [done|]. apply push_cpu_ok, Hm. }
    destruct Hm as [Hb Hc]. rewrite curcpu_modcpu in Hn by done. rewrite push_cpu_noff in Hn.
    exists m1. split; [|split; [done|split; [lia|]]].
    + unfold pushes. cbn [replicate iterl]. by kstep push_off_eq by done.
    + unfold pops. rewrite replicate_S_end. rewrite (iterl_app _ _ _ _ _ E2). cbn [iterl].
      assert (touch (modcpu push_cpu m) = modcpu push_cpu m) as ->.
      { unfold touch. rewrite modcpu_modcpu by done. apply modcpu_ext.
        apply touch_cpu_nested. rewrite push_cpu_noff. destruct Hc. lia. }
      by kstep pop_after_push by done.
Qed.

(** * An example machine: eight harts, every lock initialised and free *)

Definition demo_layout : layout :=
  Layout 0x80024000 0x80008000 0x80007000 0x80007000 0x8000709c 0x80006000 0x80002000 0x80003000.
Definition demo_locks : gmap lockid spinlock :=
  list_to_map ((fun lk => (lk, Spinlock 0 "" None)) <$>
    ([PidLock; WaitLock; TicksLock; KmemLock; BcacheLock; LogLock; ItableLock; FtableLock;
      ConsLock; TxLock; VdiskLock; PrLock]
     ++ (ProcLock <$> seq 0 64) ++ ((fun i => SleepLk (SlBuf i)) <$> seq 0 30)
     ++ ((fun i => SleepLk (SlInode i)) <$> seq 0 50))).
Definition demo_machine : machine :=
  Machine 0 (replicate NCPU (Cpu None 0 0 (Csrs 0 0 0 0 0 0 0))) demo_locks
    (fun k => 1000 * Z.of_nat k) 0 [] demo_layout.

Lemma demo_hart_ok : hart_ok demo_machine.
Proof. split; [vm_compute; lia|]. split; [done|]. vm_compute. done. Qed.

Lemma demo_lock_free lk l : demo_locks !! lk = Some l -> lock_free lk demo_machine.
Proof.
  intros H. exists "". change (m_locks demo_machine) with demo_locks.
  pose proof H as Hl. apply elem_of_list_to_map_2 in Hl.
  apply list_elem_of_fmap in Hl as (lk' & [= -> ->] & _). done.
Qed.

Lemma demo_proc_free i : (i < 64)%nat -> lock_free (ProcLock i) demo_machine.
Proof.
  intros Hi. destruct (demo_locks !! ProcLock i) as [l|] eqn:E; [by apply (demo_lock_free _ l)|].
  exfalso. apply not_elem_of_list_to_map_2 in E. apply E.
  apply list_elem_of_fmap. exists (ProcLock i, Spinlock 0 "" None). split; [done|].
  apply list_elem_of_fmap. exists (ProcLock i). split; [done|].
  apply elem_of_app. right. apply elem_of_app. left. apply list_elem_of_fmap. exists i. split; [done|].
  apply elem_of_seq. lia.
Qed.

Lemma demo_sleep_free id :
  match id with SlBuf i => (i < 30)%nat | SlInode i => (i < 50)%nat end ->
  lock_free (SleepLk id) demo_machine.
Proof.
  intros Hi. destruct (demo_locks !! SleepLk id) as [l|] eqn:E; [by apply (demo_lock_free _ l)|].
  exfalso. apply not_elem_of_list_to_map_2 in E. apply E.
  apply list_elem_of_fmap. exists (SleepLk id, Spinlock 0 "" None). split; [done|].
  apply list_elem_of_fmap. exists (SleepLk id). split; [done|].
  apply elem_of_app. right. apply elem_of_app. right. apply elem_of_app.
  destruct id as [i|i]; [left|right]; apply list_elem_of_fmap; exists i;
    (split; [done|]); apply elem_of_seq; lia.
Qed.

Lemma push_pop_matched_witness :
  exists m1, pushes 3 demo_machine = Ret tt m1 /\
    sie (curcpu m1) = false /\
    c_noff (curcpu m1) = c_noff (curcpu demo_machine) + Z.of_nat 3 /\
    pops 3 m1 = Ret tt (touch demo_machine).
Proof. apply (push_pop_matched 3 demo_machine); [apply demo_hart_ok|lia]. Defined.

Definition demo_acquired : machine :=
  match acquire KmemLock (with_tp 3 demo_machine) with Ret _ m => m | _ => demo_machine end.

Lemma spinlock_mutual_exclusion_witness :
  3%nat = 3%nat /\ sie (m_cpus demo_acquired !!! 3%nat) = false.
Proof.
  apply (spinlock_mutual_exclusion (demo_machine, ∅) demo_acquired (∅ ∪ {[ (KmemLock, 3%nat) ]})
    KmemLock 3 3).
  - split; [done|]. split.
    + intros lk l Hl. destruct (demo_lock_free lk l Hl) as [nm E].
      change (m_locks demo_machine) with demo_locks in E, Hl. rewrite Hl in E.
      injection E as ->. done.
    + intros h c Hc. apply list_elem_of_lookup_2 in Hc.
      apply elem_of_replicate in Hc as [-> _]. done.
  - apply rtc_once, step_acquire; [vm_compute; lia|]. reflexivity.
  - set_solver.
  - set_solver.
  - vm_compute. reflexivity.
Defined.

(** * Critical sections seen from an upper layer *)

Section Lifted.
Context {T : Type} `{!Lens T machine}.

Lemma lift_acquire lk (t : T) :
  hart_ok (lget t) -> lock_free lk (lget t) ->
  lift (acquire lk) t = Ret tt (lset (acquired lk (lget t)) t).
Proof. intros Hm Hf. apply lift_Ret. by apply acquire_free. Qed.

Lemma lift_release lk m (t : T) :
  hart_ok m -> lock_free lk m -> lget t = acquired lk m ->
  lift (release lk) t = Ret tt (lset (touch m) t).
Proof. intros Hm Hf E. apply lift_Ret. rewrite E. by apply release_acquired. Qed.
End Lifted.
