(* ===== verification/Memory.v ===== *)
(** Byte-addressed memory with little-endian words, as the kernel sees physical
    memory through its direct map. *)
From S2P Require Import Prelude.

(** A byte that was never written reads as 0. *)
Definition rd8 (ram : gmap Z Z) (a : Z) : Z := default 0 (ram !! a).
Definition wr8 (ram : gmap Z Z) (a v : Z) : gmap Z Z := <[a := u8 v]> ram.

Fixpoint load (n : nat) (ram : gmap Z Z) (a : Z) : Z :=
  match n with
  | O => 0
  | S n' => rd8 ram a + 256 * load n' ram (a + 1)
  end.
Fixpoint store (n : nat) (ram : gmap Z Z) (a v : Z) : gmap Z Z :=
  match n with
  | O => ram
  | S n' => store n' (wr8 ram a v) (a + 1) (v / 256)
  end.

Definition rd64 : gmap Z Z -> Z -> Z := load 8.
Definition wr64 : gmap Z Z -> Z -> Z -> gmap Z Z := store 8.

(** All the bytes of a memory are bytes. *)
Definition bytes_ok (ram : gmap Z Z) : Prop := forall a, 0 <= rd8 ram a < 256.

(** Two memories agree on [n] bytes at [a]. *)
Definition same_bytes (n a : Z) (r r' : gmap Z Z) : Prop :=
  forall x, a <= x < a + n -> rd8 r' x = rd8 r x.

Lemma rd8_wr8 ram a v x : rd8 (wr8 ram a v) x = if a =? x then u8 v else rd8 ram x.
Proof.
  unfold rd8, wr8. rewrite lookup_insert. case_decide; destruct (Z.eqb_spec a x); done.
Qed.

Lemma u8_range v : 0 <= u8 v < 256.
Proof. unfold u8. change (2 ^ 8) with 256. apply Z.mod_pos_bound. done. Qed.

Lemma u8_id v : 0 <= v < 256 -> u8 v = v.
Proof. intros H. apply Z.mod_small. done. Qed.

Lemma bytes_ok_empty : bytes_ok ∅.
Proof. intros a. change (rd8 ∅ a) with 0. lia. Qed.

Lemma bytes_ok_wr8 ram a v : bytes_ok ram -> bytes_ok (wr8 ram a v).
Proof. intros H x. rewrite rd8_wr8. destruct (a =? x); [apply u8_range|apply H]. Qed.

Lemma rd8_store n ram a v x :
  rd8 (store n ram a v) x =
  if (a <=? x) && (x <? a + Z.of_nat n) then u8 (v / 256 ^ (x - a)) else rd8 ram x.
Proof.
  revert ram a v. induction n as [|n IH]; intros ram a v; cbn [store].
  - destruct (Z.leb_spec a x), (Z.ltb_spec x (a + Z.of_nat 0)); cbn; lia || done.
  - rewrite IH, rd8_wr8.
    destruct (Z.eqb_spec a x) as [->|Hne].
    + destruct (Z.leb_spec (x + 1) x); [lia|]. cbn [andb].
      destruct (Z.leb_spec x x); [|lia]. destruct (Z.ltb_spec x (x + Z.of_nat (S n))); [|lia].
      cbn. rewrite Z.sub_diag, Z.div_1_r. done.
    + destruct (Z.leb_spec (a + 1) x), (Z.leb_spec a x); try lia; cbn [andb]; [|done].
      replace (a + 1 + Z.of_nat n) with (a + Z.of_nat (S n)) by lia.
      destruct (x <? _); [|done]. f_equal. rewrite Z.div_div by lia. f_equal.
      replace (x - a) with (1 + (x - (a + 1))) by lia. rewrite Z.pow_add_r by lia. done.
Qed.

Lemma load_ext n r r' a :
  same_bytes (Z.of_nat n) a r r' -> load n r' a = load n r a.
Proof.
  revert a. induction n as [|n IH]; intros a H; [done|]. cbn [load].
  rewrite (H a), IH; [done| |lia]. intros x Hx. apply H. lia.
Qed.

Lemma load_store_ne n k ram a b v :
  b + Z.of_nat k <= a \/ a + Z.of_nat n <= b -> load n (store k ram b v) a = load n ram a.
Proof.
  intros H. apply load_ext. intros x Hx. rewrite rd8_store.
  destruct (Z.leb_spec b x), (Z.ltb_spec x (b + Z.of_nat k)); cbn; lia || done.
Qed.

Lemma load_store_eq n ram a v :
  0 <= v < 256 ^ Z.of_nat n -> load n (store n ram a v) a = v.
Proof.
  revert ram a v. induction n as [|n IH]; intros ram a v Hv.
  - cbn in *. lia.
  - cbn [load store]. rewrite IH.
    + rewrite rd8_store. destruct (Z.leb_spec (a + 1) a); [lia|]. cbn [andb].
      rewrite rd8_wr8, Z.eqb_refl. unfold u8. change (2 ^ 8) with 256.
      pose proof (Z.div_mod v 256 ltac:(done)). lia.
    + rewrite Nat2Z.inj_succ, Z.pow_succ_r in Hv by lia. split.
      * apply Z.div_pos; lia.
      * apply Z.div_lt_upper_bound; lia.
Qed.

Lemma rd64_wr64_eq ram a v : 0 <= v < 2 ^ 64 -> rd64 (wr64 ram a v) a = v.
Proof. intros H. by apply load_store_eq. Qed.

Lemma rd64_wr64_ne ram a b v :
  b + 8 <= a \/ a + 8 <= b -> rd64 (wr64 ram b v) a = rd64 ram a.
Proof. intros H. by apply load_store_ne. Qed.

Lemma rd8_wr64_ne ram a b v : b < a \/ a + 8 <= b -> rd8 (wr64 ram a v) b = rd8 ram b.
Proof.
  intros H. unfold wr64. rewrite rd8_store.
  destruct (Z.leb_spec a b), (Z.ltb_spec b (a + Z.of_nat 8)); cbn; lia || done.
Qed.

Lemma bytes_ok_store n ram a v : bytes_ok ram -> bytes_ok (store n ram a v).
Proof.
  intros H x. rewrite rd8_store. destruct (_ && _); [apply u8_range|apply H].
Qed.

Lemma bytes_ok_wr64 ram a v : bytes_ok ram -> bytes_ok (wr64 ram a v).
Proof. apply bytes_ok_store. Qed.

Lemma load_bound n ram a : bytes_ok ram -> 0 <= load n ram a < 256 ^ Z.of_nat n.
Proof.
  intros H. revert a. induction n as [|n IH]; intros a; [cbn; lia|].
  cbn [load]. specialize (H a). specialize (IH (a + 1)).
  rewrite Nat2Z.inj_succ, Z.pow_succ_r by lia. lia.
Qed.

Lemma rd64_bound ram a : bytes_ok ram -> 0 <= rd64 ram a < 2 ^ 64.
Proof. apply load_bound. Qed.

Lemma rd64_ext r r' a : same_bytes 8 a r r' -> rd64 r' a = rd64 r a.
Proof. intros H. by apply (load_ext 8). Qed.

#[global] Arguments rd8 : simpl never.
#[global] Arguments wr8 : simpl never.
#[global] Arguments rd64 : simpl never.
#[global] Arguments wr64 : simpl never.
#[global] Arguments load : simpl never.
#[global] Arguments store : simpl never.
#[global] Opaque load store rd64 wr64 rd8 wr8.
