(* ===== verification/Bytes.v ===== *)
(** Byte arrays: structures as C lays them out in a disk block or a buffer,
    little-endian fields at byte offsets of a list of bytes. *)
From S2P Require Import Prelude.

Fixpoint le_bytes (n : nat) (v : Z) : list Z :=
  match n with
  | O => []
  | S n' => v mod 256 :: le_bytes n' (v / 256)
  end.
Fixpoint le_val (bs : list Z) : Z :=
  match bs with
  | [] => 0
  | b :: bs' => b + 256 * le_val bs'
  end.

Definition sub_bytes (off n : nat) (l : list Z) : list Z := take n (drop off l).
Definition put_bytes (off : nat) (bs l : list Z) : list Z :=
  take off l ++ bs ++ drop (off + length bs) l.

(** An [n]-byte field at offset [off]. *)
Definition get_le (n off : nat) (l : list Z) : Z := le_val (sub_bytes off n l).
Definition put_le (n off : nat) (v : Z) (l : list Z) : list Z :=
  put_bytes off (le_bytes n v) l.

Definition s16 (z : Z) : Z := (z + 2 ^ 15) mod 2 ^ 16 - 2 ^ 15.
Definition s8 (z : Z) : Z := (z + 2 ^ 7) mod 2 ^ 8 - 2 ^ 7.

Definition all_bytes (l : list Z) : Prop := Forall (fun b => 0 <= b < 256) l.

Lemma length_le_bytes n v : length (le_bytes n v) = n.
Proof. revert v. induction n as [|n IH]; intros v; cbn; [done|]. by rewrite IH. Qed.

Lemma le_bytes_all n v : all_bytes (le_bytes n v).
Proof.
  revert v. induction n as [|n IH]; intros v; cbn; constructor; [|apply IH].
  by apply Z.mod_pos_bound.
Qed.

Lemma le_val_le_bytes n v : le_val (le_bytes n v) = v mod 2 ^ (8 * Z.of_nat n).
Proof.
  revert v. induction n as [|n IH]; intros v.
  - cbn. by rewrite Z.mod_1_r.
  - cbn [le_bytes le_val]. rewrite IH.
    replace (8 * Z.of_nat (S n)) with (8 + 8 * Z.of_nat n) by lia.
    rewrite Z.pow_add_r by lia. change (2 ^ 8) with 256.
    rewrite Z.rem_mul_r by lia. done.
Qed.

Lemma le_val_range bs : all_bytes bs -> 0 <= le_val bs < 2 ^ (8 * Z.of_nat (length bs)).
Proof.
  induction 1 as [|b bs Hb _ IH]; cbn [le_val length]; [cbn; lia|].
  replace (8 * Z.of_nat (S (length bs))) with (8 + 8 * Z.of_nat (length bs)) by lia.
  rewrite Z.pow_add_r by lia. change (2 ^ 8) with 256. lia.
Qed.

Lemma le_bytes_le_val bs : all_bytes bs -> le_bytes (length bs) (le_val bs) = bs.
Proof.
  induction 1 as [|b bs Hb _ IH]; cbn [le_val length le_bytes]; [done|].
  f_equal.
  - rewrite (Z.mul_comm 256), Z.mod_add by lia. by apply Z.mod_small.
  - rewrite (Z.mul_comm 256), Z.div_add by lia. rewrite Z.div_small by lia. exact IH.
Qed.

Section Fields.
Context (l : list Z).

Lemma length_put_bytes off bs :
  (off + length bs <= length l)%nat -> length (put_bytes off bs l) = length l.
Proof. intros H. unfold put_bytes. rewrite !length_app, length_take, length_drop. lia. Qed.

Lemma length_put_le n off v :
  (off + n <= length l)%nat -> length (put_le n off v l) = length l.
Proof. intros H. apply length_put_bytes. by rewrite length_le_bytes. Qed.

Lemma sub_put_same off bs :
  (off + length bs <= length l)%nat -> sub_bytes off (length bs) (put_bytes off bs l) = bs.
Proof.
  intros H. unfold sub_bytes, put_bytes.
  rewrite drop_app_length' by (rewrite length_take; lia). by rewrite take_app_length.
Qed.

Lemma sub_put_below off bs off' n :
  (off' + n <= off)%nat -> (off <= length l)%nat ->
  sub_bytes off' n (put_bytes off bs l) = sub_bytes off' n l.
Proof.
  intros H Hl. unfold sub_bytes, put_bytes.
  rewrite drop_app_le by (rewrite length_take; lia).
  rewrite take_app_le by (rewrite length_drop, length_take; lia).
  rewrite !take_drop_commute. rewrite take_take. f_equal. f_equal. lia.
Qed.

Lemma sub_put_above off bs off' n :
  (off + length bs <= off')%nat -> (off + length bs <= length l)%nat ->
  sub_bytes off' n (put_bytes off bs l) = sub_bytes off' n l.
Proof.
  intros H Hl. unfold sub_bytes, put_bytes. f_equal.
  rewrite app_assoc, drop_app_ge by (rewrite length_app, length_take; lia).
  rewrite drop_drop. f_equal. rewrite length_app, length_take. lia.
Qed.

(** A field of a structure that was just written. *)
Lemma sub_put_inside off bs k n :
  (off + length bs <= length l)%nat -> (k + n <= length bs)%nat ->
  sub_bytes (off + k) n (put_bytes off bs l) = sub_bytes k n bs.
Proof.
  intros H Hk. unfold sub_bytes, put_bytes. rewrite <- drop_drop.
  rewrite drop_app_length' by (rewrite length_take; lia). rewrite drop_app_le by lia.
  rewrite take_app_le; [done|]. rewrite length_drop. lia.
Qed.

Lemma get_put_same n off v :
  (off + n <= length l)%nat -> get_le n off (put_le n off v l) = v mod 2 ^ (8 * Z.of_nat n).
Proof.
  intros H. unfold get_le, put_le. rewrite <- (length_le_bytes n v) at 1.
  rewrite sub_put_same by (by rewrite length_le_bytes). apply le_val_le_bytes.
Qed.

Lemma get_put_other n off v n' off' :
  (off' + n' <= off \/ off + n <= off')%nat -> (off + n <= length l)%nat ->
  get_le n' off' (put_le n off v l) = get_le n' off' l.
Proof.
  intros [H|H] Hl; unfold get_le, put_le; f_equal.
  - apply sub_put_below; lia.
  - apply sub_put_above; rewrite length_le_bytes; lia.
Qed.
End Fields.

Lemma put_bytes_all off bs l : all_bytes bs -> all_bytes l -> all_bytes (put_bytes off bs l).
Proof.
  intros Hb Hl. unfold put_bytes, all_bytes in *.
  rewrite !Forall_app. split; [by apply Forall_take|]. split; [done|by apply Forall_drop].
Qed.

Lemma get_le_range n off l :
  all_bytes l -> (off + n <= length l)%nat -> 0 <= get_le n off l < 2 ^ (8 * Z.of_nat n).
Proof.
  intros Hl H. unfold get_le.
  assert (length (sub_bytes off n l) = n) as E.
  { unfold sub_bytes. rewrite length_take, length_drop. lia. }
  rewrite <- E at 3. apply le_val_range. by apply Forall_take, Forall_drop.
Qed.

Lemma s16_mod v : s16 (v mod 2 ^ 16) = s16 v.
Proof. unfold s16. by rewrite Z.add_mod_idemp_l by done. Qed.

Lemma s16_id v : - 2 ^ 15 <= v < 2 ^ 15 -> s16 v = v.
Proof. intros H. unfold s16. rewrite Z.mod_small by lia. lia. Qed.
