(* ===== verification/Kstring.v ===== *)
(** kernel/string.c, on byte memory.

    Each function is the loop of the source, with its pointers as addresses and
    its counters decremented where the source decrements them.  [char] is
    unsigned on RISC-V.  [strlen] has a bound on the number of iterations, which
    its theorem shows is enough whenever a NUL is within reach. *)
From S2P Require Import Prelude Memory.

Fixpoint memset_loop (todo : nat) (ram : gmap Z Z) (cdst c i : Z) : gmap Z Z :=
  match todo with
  | O => ram
  | S n => memset_loop n (wr8 ram (cdst + i) c) cdst c (i + 1)
  end.
Definition memset (ram : gmap Z Z) (dst c n : Z) : gmap Z Z :=
  memset_loop (Z.to_nat n) ram dst c 0.

Fixpoint memcmp_loop (n : nat) (ram : gmap Z Z) (s1 s2 : Z) : Z :=
  match n with
  | O => 0
  | S n' =>
      if negb (rd8 ram s1 =? rd8 ram s2) then rd8 ram s1 - rd8 ram s2
      else memcmp_loop n' ram (s1 + 1) (s2 + 1)
  end.
Definition memcmp (ram : gmap Z Z) (v1 v2 n : Z) : Z :=
  memcmp_loop (Z.to_nat n) ram v1 v2.

Fixpoint copy_up (n : nat) (ram : gmap Z Z) (d s : Z) : gmap Z Z :=
  match n with
  | O => ram
  | S n' => copy_up n' (wr8 ram d (rd8 ram s)) (d + 1) (s + 1)
  end.
Fixpoint copy_down (n : nat) (ram : gmap Z Z) (d s : Z) : gmap Z Z :=
  match n with
  | O => ram
  | S n' => copy_down n' (wr8 ram (d - 1) (rd8 ram (s - 1))) (d - 1) (s - 1)
  end.
Definition memmove (ram : gmap Z Z) (dst src n : Z) : gmap Z Z :=
  if n =? 0 then ram
  else if (src <? dst) && (dst <? src + n)
  then copy_down (Z.to_nat n) ram (dst + n) (src + n)
  else copy_up (Z.to_nat n) ram dst src.
Definition memcpy (ram : gmap Z Z) (dst src n : Z) : gmap Z Z :=
  memmove ram dst src n.

(** [strncmp_loop] returns the final [n], [p] and [q]. *)
Fixpoint strncmp_loop (n : nat) (ram : gmap Z Z) (p q : Z) : nat * Z * Z :=
  match n with
  | O => (O, p, q)
  | S n' =>
      if negb (rd8 ram p =? 0) && (rd8 ram p =? rd8 ram q)
      then strncmp_loop n' ram (p + 1) (q + 1) else (n, p, q)
  end.
Definition strncmp (ram : gmap Z Z) (p q n : Z) : Z :=
  let '(n', p', q') := strncmp_loop (Z.to_nat n) ram p q in
  match n' with O => 0 | S _ => rd8 ram p' - rd8 ram q' end.

(** Copy until [n] bytes are done or a NUL was copied; the bytes left over. *)
Fixpoint strcopy (n : nat) (ram : gmap Z Z) (s t : Z) : gmap Z Z * Z * nat :=
  match n with
  | O => (ram, s, O)
  | S n' =>
      let ram' := wr8 ram s (rd8 ram t) in
      if negb (rd8 ram t =? 0) then strcopy n' ram' (s + 1) (t + 1)
      else (ram', s + 1, n')
  end.
Fixpoint zero_fill (n : nat) (ram : gmap Z Z) (s : Z) : gmap Z Z :=
  match n with
  | O => ram
  | S n' => zero_fill n' (wr8 ram s 0) (s + 1)
  end.
Definition strncpy (ram : gmap Z Z) (s t n : Z) : gmap Z Z :=
  let '(ram', s', todo) := strcopy (Z.to_nat n) ram s t in zero_fill todo ram' s'.

Definition safestrcpy (ram : gmap Z Z) (s t n : Z) : gmap Z Z :=
  if n <=? 0 then ram
  else let '(ram', s', _) := strcopy (Z.to_nat (n - 1)) ram s t in wr8 ram' s' 0.

(** [safestrcpy] between two arrays: [dst] after copying [src] into it. *)
Definition arr_mem (a : Z) (bs : list Z) (ram : gmap Z Z) : gmap Z Z :=
  foldr (fun '(i, b) r => wr8 r (a + Z.of_nat i) b) ram (imap pair bs).
Definition arr_safestrcpy (dst src : list Z) (n : Z) : list Z :=
  let s := 0 in
  let t := Z.of_nat (length dst) in
  let ram := safestrcpy (arr_mem s dst (arr_mem t src ∅)) s t n in
  (fun i => rd8 ram (s + Z.of_nat i)) <$> seq 0 (length dst).

(** [strncpy] and [strncmp] on arrays, in the same way. *)
Definition arr_strncpy (dst src : list Z) (n : Z) : list Z :=
  let t := Z.of_nat (length dst) in
  let ram := strncpy (arr_mem 0 dst (arr_mem t src ∅)) 0 t n in
  (fun i => rd8 ram (Z.of_nat i)) <$> seq 0 (length dst).
Definition arr_strncmp (p q : list Z) (n : Z) : Z :=
  let t := Z.of_nat (length p) in
  strncmp (arr_mem 0 p (arr_mem t q ∅)) 0 t n.

Fixpoint strlen_loop (fuel : nat) (ram : gmap Z Z) (s n : Z) : option Z :=
  match fuel with
  | O => None
  | S f => if rd8 ram (s + n) =? 0 then Some n else strlen_loop f ram s (n + 1)
  end.
Definition strlen (fuel : nat) (ram : gmap Z Z) (s : Z) : option Z :=
  strlen_loop fuel ram s 0.

(** * What they compute *)

Lemma rd8_memset_loop n ram d c i x :
  rd8 (memset_loop n ram d c i) x =
  if (d + i <=? x) && (x <? d + i + Z.of_nat n) then u8 c else rd8 ram x.
Proof.
  revert ram i. induction n as [|n IH]; intros ram i; cbn [memset_loop].
  - destruct (Z.leb_spec (d + i) x), (Z.ltb_spec x (d + i + Z.of_nat 0)); cbn; lia || done.
  - rewrite IH, rd8_wr8. zbool; done.
Qed.

Lemma rd8_memset ram d c n x :
  0 <= n ->
  rd8 (memset ram d c n) x = if (d <=? x) && (x <? d + n) then u8 c else rd8 ram x.
Proof.
  intros Hn. unfold memset. rewrite rd8_memset_loop, Z2Nat.id, Z.add_0_r by done. done.
Qed.

Lemma bytes_ok_memset ram d c n : bytes_ok ram -> 0 <= n -> bytes_ok (memset ram d c n).
Proof. intros H Hn x. rewrite rd8_memset by done. destruct (_ && _); [apply u8_range|apply H]. Qed.

(** Copying upwards is right when the destination does not lie inside the
    source ahead of it. *)
Lemma rd8_copy_up n ram d s x :
  bytes_ok ram -> d <= s \/ s + Z.of_nat n <= d ->
  rd8 (copy_up n ram d s) x =
  if (d <=? x) && (x <? d + Z.of_nat n) then rd8 ram (s + (x - d)) else rd8 ram x.
Proof.
  revert ram d s. induction n as [|n IH]; intros ram d s Hb Hd; cbn [copy_up].
  - destruct (Z.leb_spec d x), (Z.ltb_spec x (d + Z.of_nat 0)); cbn; lia || done.
  - rewrite IH; [|by apply bytes_ok_wr8|lia].
    rewrite !rd8_wr8, u8_id by apply Hb.
    zbool; try done; f_equal; lia.
Qed.

Lemma rd8_copy_down n ram d s x :
  bytes_ok ram -> s <= d ->
  rd8 (copy_down n ram d s) x =
  if (d - Z.of_nat n <=? x) && (x <? d) then rd8 ram (s + (x - d)) else rd8 ram x.
Proof.
  revert ram d s. induction n as [|n IH]; intros ram d s Hb Hd; cbn [copy_down].
  - destruct (Z.leb_spec (d - Z.of_nat 0) x), (Z.ltb_spec x d); cbn; lia || done.
  - rewrite IH; [|by apply bytes_ok_wr8|lia].
    rewrite !rd8_wr8, u8_id by apply Hb.
    zbool; try done; f_equal; lia.
Qed.

Lemma rd8_memmove ram dst src n x :
  bytes_ok ram -> 0 <= n ->
  rd8 (memmove ram dst src n) x =
  if (dst <=? x) && (x <? dst + n) then rd8 ram (src + (x - dst)) else rd8 ram x.
Proof.
  intros Hb Hn. unfold memmove. destruct (Z.eqb_spec n 0) as [->|Hn0].
  - zbool; done.
  - destruct (Z.ltb_spec src dst), (Z.ltb_spec dst (src + n)); cbn [andb].
    1: rewrite rd8_copy_down by (done || lia).
    2-4: rewrite rd8_copy_up by (done || lia).
    all: rewrite Z2Nat.id by done; zbool; try done; f_equal; lia.
Qed.

Lemma bytes_ok_memmove ram dst src n :
  bytes_ok ram -> 0 <= n -> bytes_ok (memmove ram dst src n).
Proof. intros Hb Hn x. rewrite rd8_memmove by done. destruct (_ && _); apply Hb. Qed.

(** The [n] bytes at [a]. *)
Definition bytes_at (ram : gmap Z Z) (a : Z) (n : nat) : list Z :=
  (fun i => rd8 ram (a + Z.of_nat i)) <$> seq 0 n.

(** [memmove] copies [n] bytes as if through a buffer, whatever the overlap
    of source and destination, and changes no byte outside the destination. *)
Theorem memmove_correct ram dst src (n : nat) :
  bytes_ok ram ->
  bytes_at (memmove ram dst src (Z.of_nat n)) dst n = bytes_at ram src n /\
  (forall x, x < dst \/ dst + Z.of_nat n <= x ->
     rd8 (memmove ram dst src (Z.of_nat n)) x = rd8 ram x).
Proof.
  intros Hb. split.
  - apply list_fmap_ext. intros i k [-> Hi]%lookup_seq. rewrite rd8_memmove by (done || lia).
    zbool. f_equal. lia.
  - intros x Hx. rewrite rd8_memmove by (done || lia). zbool; done.
Qed.

Lemma memcmp_loop_spec n ram a b :
  (forall i, 0 <= i < Z.of_nat n -> rd8 ram (a + i) = rd8 ram (b + i)) /\
    memcmp_loop n ram a b = 0 \/
  exists i, 0 <= i < Z.of_nat n /\
    (forall j, 0 <= j < i -> rd8 ram (a + j) = rd8 ram (b + j)) /\
    memcmp_loop n ram a b = rd8 ram (a + i) - rd8 ram (b + i) /\
    rd8 ram (a + i) <> rd8 ram (b + i).
Proof.
  revert a b. induction n as [|n IH]; intros a b; cbn [memcmp_loop].
  - left. split; [lia|done].
  - destruct (Z.eqb_spec (rd8 ram a) (rd8 ram b)) as [E|E]; cbn [negb].
    + destruct (IH (a + 1) (b + 1)) as [[H ->]|(i & Hi & Hj & -> & Hne)].
      * left. split; [|done]. intros i Hi. destruct (decide (i = 0)) as [->|].
        { by rewrite !Z.add_0_r. }
        specialize (H (i - 1) ltac:(lia)). replace (a + i) with (a + 1 + (i - 1)) by lia.
        by replace (b + i) with (b + 1 + (i - 1)) by lia.
      * right. exists (i + 1). replace (a + (i + 1)) with (a + 1 + i) by lia.
        replace (b + (i + 1)) with (b + 1 + i) by lia. split; [lia|split; [|done]].
        intros j Hj'. destruct (decide (j = 0)) as [->|]; [by rewrite !Z.add_0_r|].
        specialize (Hj (j - 1) ltac:(lia)). replace (a + j) with (a + 1 + (j - 1)) by lia.
        by replace (b + j) with (b + 1 + (j - 1)) by lia.
    + right. exists 0. rewrite !Z.add_0_r. split; [lia|split; [lia|done]].
Qed.

(** A NUL-terminated string at [s] with the characters [bs]. *)
Definition cstring (ram : gmap Z Z) (s : Z) (bs : list Z) : Prop :=
  (forall (i : nat) b, bs !! i = Some b -> rd8 ram (s + Z.of_nat i) = b /\ b <> 0) /\
  rd8 ram (s + Z.of_nat (length bs)) = 0.

Lemma cstring_nil ram s : cstring ram s [] -> rd8 ram s = 0.
Proof. intros [_ H]. cbn in H. by rewrite Z.add_0_r in H. Qed.

Lemma cstring_cons ram s b bs :
  cstring ram s (b :: bs) <-> rd8 ram s = b /\ b <> 0 /\ cstring ram (s + 1) bs.
Proof.
  unfold cstring. cbn [length]. replace (s + Z.of_nat (S (length bs)))
    with (s + 1 + Z.of_nat (length bs)) by lia. split.
  - intros [H H0]. destruct (H O b eq_refl) as [E Hb]. rewrite Z.add_0_r in E.
    repeat split; try done; destruct (H (S i) b0) as [E' ?]; try done.
    rewrite <- E'. f_equal. lia.
  - intros (E & Hb & H & H0). split; [|done]. intros [|i] b'; cbn.
    + intros [= <-]. by rewrite Z.add_0_r.
    + intros Hi. destruct (H i b' Hi) as [E' ?]. split; [|done]. rewrite <- E'. f_equal. lia.
Qed.

Lemma cstring_ext ram ram' s bs :
  same_bytes (Z.of_nat (length bs) + 1) s ram ram' -> cstring ram s bs -> cstring ram' s bs.
Proof.
  intros Hs [H H0]. split.
  - intros i b Hi. pose proof (lookup_lt_Some _ _ _ Hi). rewrite Hs by lia. by apply H.
  - rewrite Hs by lia. done.
Qed.

Lemma strlen_loop_spec fuel ram s k bs :
  cstring ram (s + k) bs -> (length bs < fuel)%nat ->
  strlen_loop fuel ram s k = Some (k + Z.of_nat (length bs)).
Proof.
  revert fuel k. induction bs as [|b bs IH]; intros [|fuel] k Hc Hf; cbn in Hf; try lia;
    cbn [strlen_loop].
  - rewrite (cstring_nil _ _ Hc). cbn. f_equal. lia.
  - apply cstring_cons in Hc as (E & Hb & Hc). apply Z.eqb_neq in Hb. rewrite E, Hb.
    rewrite IH; [cbn; f_equal; lia| |lia]. by rewrite Z.add_assoc.
Qed.

(** [strlen] stops at the first NUL and returns its index. *)
Theorem strlen_correct fuel ram s bs :
  cstring ram s bs -> (length bs < fuel)%nat ->
  strlen fuel ram s = Some (Z.of_nat (length bs)).
Proof.
  intros Hc Hf. unfold strlen. rewrite (strlen_loop_spec fuel ram s 0 bs); [done| |done].
  by rewrite Z.add_0_r.
Qed.

Lemma strncmp_loop_spec n ram p q a b :
  cstring ram p a -> cstring ram q b ->
  let '(n', p', q') := strncmp_loop n ram p q in
  match n' with O => take n a = take n b
  | S _ => rd8 ram p' <> rd8 ram q' /\ take n a <> take n b \/
           rd8 ram p' = rd8 ram q' /\ take n a = take n b end.
Proof.
  revert p q a b. induction n as [|n IH]; intros p q a b Ha Hb; cbn [strncmp_loop]; [done|].
  destruct a as [|x a]; destruct b as [|y b].
  - apply cstring_nil in Ha, Hb. rewrite Ha, Hb. cbn. right. by rewrite Ha, Hb.
  - apply cstring_nil in Ha. apply cstring_cons in Hb as (Ey & Hy & _). rewrite Ha. cbn.
    left. rewrite Ha, Ey. split; [lia|done].
  - apply cstring_nil in Hb. apply cstring_cons in Ha as (Ex & Hx & _). rewrite Hb, Ex.
    apply Z.eqb_neq in Hx as Hx'. rewrite Hx'. cbn. left. rewrite Ex, Hb. done.
  - apply cstring_cons in Ha as (Ex & Hx & Ha). apply cstring_cons in Hb as (Ey & Hy & Hb).
    rewrite Ex, Ey. apply Z.eqb_neq in Hx as Hx'. rewrite Hx'. cbn [negb andb].
    destruct (Z.eqb_spec x y) as [->|Hne].
    + specialize (IH (p + 1) (q + 1) a b Ha Hb). destruct (strncmp_loop _ _ _ _) as [[n' p'] q'].
      destruct n'; cbn [take firstn]; [congruence|].
      destruct IH as [[? ?]|[? ?]]; [left|right]; (split; [done|congruence]).
    + left. rewrite Ex, Ey. split; [done|]. cbn. congruence.
Qed.

(** [strncmp] is 0 exactly when the first [n] characters of the two strings
    agree. *)
Theorem strncmp_correct ram p q n a b :
  cstring ram p a -> cstring ram q b ->
  strncmp ram p q n = 0 <-> take (Z.to_nat n) a = take (Z.to_nat n) b.
Proof.
  intros Ha Hb. unfold strncmp.
  pose proof (strncmp_loop_spec (Z.to_nat n) ram p q a b Ha Hb) as H.
  destruct (strncmp_loop _ _ _ _) as [[[|n'] p'] q']; [done|].
  destruct H as [[? ?]|[? ?]]; (split; [|done || lia]); intros; done || lia.
Qed.

Lemma strcopy_spec n ram s t bs :
  cstring ram t bs -> bytes_ok ram ->
  s + Z.of_nat n <= t \/ t + Z.of_nat (length bs) < s ->
  let k := Nat.min n (S (length bs)) in
  exists ram', strcopy n ram s t = (ram', s + Z.of_nat k, (n - k)%nat) /\ bytes_ok ram' /\
    forall x, rd8 ram' x =
      if (s <=? x) && (x <? s + Z.of_nat k) then rd8 ram (t + (x - s)) else rd8 ram x.
Proof.
  revert ram s t bs. induction n as [|n IH]; intros ram s t bs Hc Hb Hd; cbn zeta.
  - exists ram. cbn. split; [by rewrite Z.add_0_r|]. split; [done|]. intros x. zbool; done.
  - destruct bs as [|b bs].
    + apply cstring_nil in Hc. cbn [strcopy]. rewrite Hc. cbn [Z.eqb negb length].
      exists (wr8 ram s 0). replace (Nat.min (S n) 1) with 1%nat by lia.
      replace (S n - 1)%nat with n by lia. split; [done|]. split; [by apply bytes_ok_wr8|].
      intros x. rewrite rd8_wr8. zbool; try done. subst. by rewrite Z.sub_diag, Z.add_0_r.
    + apply cstring_cons in Hc as (E & Hb0 & Hc). cbn [length] in *. cbn [strcopy].
      rewrite E. apply Z.eqb_neq in Hb0 as Hb0'. rewrite Hb0'. cbn [negb].
      destruct (IH (wr8 ram s b) (s + 1) (t + 1) bs) as (ram' & Er & Hbr & Hx).
      { eapply cstring_ext; [|exact Hc]. intros x Hx. rewrite rd8_wr8. zbool; done. }
      { by apply bytes_ok_wr8. }
      { lia. }
      exists ram'. rewrite Er. replace (Nat.min (S n) (S (S (length bs))))
        with (S (Nat.min n (S (length bs)))) by lia.
      split; [do 2 f_equal; lia|]. split; [done|]. intros x. rewrite Hx, !rd8_wr8.
      rewrite u8_id by (rewrite <- E; apply Hb).
      zbool; try done; subst; f_equal; lia.
Qed.

Lemma rd8_zero_fill n ram s x :
  rd8 (zero_fill n ram s) x = if (s <=? x) && (x <? s + Z.of_nat n) then 0 else rd8 ram x.
Proof.
  revert ram s. induction n as [|n IH]; intros ram s; cbn [zero_fill].
  - zbool; done.
  - rewrite IH, rd8_wr8. zbool; done.
Qed.

Lemma take_cstring ram ram' s t bs (k : nat) :
  cstring ram t bs -> (k <= length bs)%nat ->
  (forall x, s <= x < s + Z.of_nat k -> rd8 ram' x = rd8 ram (t + (x - s))) ->
  rd8 ram' (s + Z.of_nat k) = 0 ->
  cstring ram' s (take k bs).
Proof.
  intros [H _] Hk Hx H0. split.
  - intros i b Hi. apply lookup_take_Some in Hi as [Hi Hik]. rewrite Hx by lia.
    replace (t + (s + Z.of_nat i - s)) with (t + Z.of_nat i) by lia. by apply H.
  - rewrite length_take, Nat.min_l by done. done.
Qed.

(** [safestrcpy] into a buffer of [n] bytes leaves there the source string,
    cut to [n - 1] characters and NUL-terminated, and writes nothing outside the
    buffer. *)
Theorem safestrcpy_correct ram s t n bs :
  cstring ram t bs -> bytes_ok ram -> 0 < n ->
  s + n <= t \/ t + Z.of_nat (length bs) < s ->
  cstring (safestrcpy ram s t n) s (take (Z.to_nat (n - 1)) bs) /\
  (forall x, x < s \/ s + n <= x -> rd8 (safestrcpy ram s t n) x = rd8 ram x).
Proof.
  intros Hc Hb Hn Hd. unfold safestrcpy. replace (n <=? 0) with false by lia.
  destruct (strcopy_spec (Z.to_nat (n - 1)) ram s t bs) as (ram' & -> & Hb' & Hx);
    [done|done|lia|].
  split.
  - destruct (decide (Z.to_nat (n - 1) <= length bs)%nat) as [Hl|Hl].
    + rewrite Nat.min_l in * by lia. apply (take_cstring ram _ s t bs); [done..| |].
      * intros x Hx'. rewrite rd8_wr8, Hx. zbool; done.
      * rewrite rd8_wr8. zbool; done.
    + rewrite take_ge by lia. rewrite Nat.min_r in * by lia.
      assert (take (length bs) bs = bs) as E by by apply take_ge.
      rewrite <- E at 2. apply (take_cstring ram _ s t bs); [done|done| |].
      * intros x Hx'. rewrite rd8_wr8, Hx. zbool; done.
      * rewrite rd8_wr8, Hx. zbool; try done. rewrite <- (proj2 Hc). f_equal. lia.
  - intros x Hx'. rewrite rd8_wr8, Hx. zbool; done.
Qed.

(** [strncpy] into a field of [n] bytes copies the string without a
    terminator when it fills the field, pads the field with zeroes otherwise,
    and writes nothing outside the field. *)
Theorem strncpy_correct ram s t n bs x :
  cstring ram t bs -> bytes_ok ram -> 0 <= n ->
  s + n <= t \/ t + Z.of_nat (length bs) < s ->
  rd8 (strncpy ram s t n) x =
  if (s <=? x) && (x <? s + n)
  then if x <? s + Z.of_nat (length bs) then rd8 ram (t + (x - s)) else 0
  else rd8 ram x.
Proof.
  intros Hc Hb Hn Hd. unfold strncpy.
  destruct (strcopy_spec (Z.to_nat n) ram s t bs) as (ram' & -> & Hb' & Hx); [done|done|lia|].
  rewrite rd8_zero_fill, Hx.
  destruct (decide (Z.to_nat n <= length bs)%nat) as [Hl|Hl].
  - rewrite Nat.min_l in * by lia. zbool; done.
  - rewrite Nat.min_r in * by lia. zbool; try done.
    replace (t + (x - s)) with (t + Z.of_nat (length bs)) by lia. apply Hc.
Qed.

#[global] Arguments memset : simpl never.
#[global] Arguments memmove : simpl never.
#[global] Opaque memset memmove.

(** * Arrays in memory *)

Lemma rd8_arr_mem a bs ram x :
  rd8 (arr_mem a bs ram) x =
  if (a <=? x) && (x <? a + Z.of_nat (length bs)) then u8 (bs !!! Z.to_nat (x - a)) else rd8 ram x.
Proof.
  unfold arr_mem. enough (forall k : nat,
    rd8 (foldr (fun '(i, b) r => wr8 r (a + Z.of_nat i) b) ram (imap (fun (i : nat) (b : Z) => ((k + i)%nat, b)) bs)) x =
    if (a + Z.of_nat k <=? x) && (x <? a + Z.of_nat k + Z.of_nat (length bs))
    then u8 (bs !!! Z.to_nat (x - (a + Z.of_nat k))) else rd8 ram x) as H.
  { specialize (H O). rewrite Z.add_0_r in H. exact H. }
  induction bs as [|b bs IH]; intros k.
  - cbn. zbool; done.
  - rewrite imap_cons. cbn [foldr]. rewrite rd8_wr8, Nat.add_0_r.
    rewrite (imap_ext _ (fun (i : nat) (b : Z) => ((S k + i)%nat, b)))
      by (intros; cbn; by rewrite Nat.add_succ_r).
    rewrite IH. cbn [length].
    destruct (Z.eqb_spec (a + Z.of_nat k) x) as [<-|Hne].
    + rewrite Z.sub_diag. zbool. done.
    + zbool; try done. f_equal.
      replace (Z.to_nat (x - (a + Z.of_nat k))) with (S (Z.to_nat (x - (a + Z.of_nat (S k))))) by lia.
      done.
Qed.

Lemma bytes_ok_arr_mem a bs ram : bytes_ok ram -> bytes_ok (arr_mem a bs ram).
Proof. intros H x. rewrite rd8_arr_mem. destruct (_ && _); [apply u8_range|apply H]. Qed.

Lemma bytes_at_lookup ram a n i :
  (i < n)%nat -> bytes_at ram a n !!! i = rd8 ram (a + Z.of_nat i).
Proof.
  intros Hi. apply list_lookup_total_correct. unfold bytes_at.
  by rewrite list_lookup_fmap, lookup_seq_lt by done.
Qed.

(** * Examples *)

Definition demo_ram : gmap Z Z := arr_mem 100 [104; 101; 108; 108; 111; 0; 7] ∅.

Lemma arr_mem_ok a bs ram : Forall (fun b => 0 <= b < 256) bs -> bytes_ok ram -> bytes_ok (arr_mem a bs ram).
Proof.
  unfold arr_mem. intros Hb Hr.
  assert (Forall (fun p : nat * Z => 0 <= p.2 < 256) (imap pair bs)) as Hf.
  { apply Forall_forall. intros [i b] Hi. apply list_elem_of_lookup_1 in Hi as [k Hk].
    rewrite list_lookup_imap in Hk. destruct (bs !! k) as [x|] eqn:Hx; [|done].
    cbn in Hk. injection Hk as -> ->. rewrite Forall_lookup in Hb. by apply (Hb i). }
  induction Hf as [|[i b] l H _ IH]; [done|]. cbn. by apply bytes_ok_wr8.
Qed.

Lemma demo_bytes_ok : bytes_ok demo_ram.
Proof.
  apply arr_mem_ok; [repeat constructor; lia|]. apply bytes_ok_empty.
Qed.

Lemma demo_cstring : cstring demo_ram 100 [104; 101; 108; 108; 111].
Proof.
  split; [|reflexivity]. intros i b Hb.
  do 5 (destruct i as [|i]; [cbn in Hb; injection Hb as <-; split; [reflexivity|done]|]).
  done.
Qed.

Lemma memmove_correct_witness :
  bytes_at (memmove demo_ram 102 100 5) 102 5 = bytes_at demo_ram 100 5 /\
  (forall x, x < 102 \/ 102 + 5 <= x -> rd8 (memmove demo_ram 102 100 5) x = rd8 demo_ram x).
Proof. apply (memmove_correct demo_ram 102 100 5). apply demo_bytes_ok. Defined.

Lemma strlen_correct_witness : strlen 10 demo_ram 100 = Some 5.
Proof. apply (strlen_correct 10 demo_ram 100 _ demo_cstring). cbn. lia. Defined.

Lemma strncmp_correct_witness :
  strncmp demo_ram 100 100 3 = 0 <->
  take (Z.to_nat 3) [104; 101; 108; 108; 111] = take (Z.to_nat 3) [104; 101; 108; 108; 111].
Proof. apply strncmp_correct; apply demo_cstring. Defined.

Lemma safestrcpy_correct_witness :
  cstring (safestrcpy demo_ram 200 100 4) 200 [104; 101; 108] /\
  (forall x, x < 200 \/ 200 + 4 <= x -> rd8 (safestrcpy demo_ram 200 100 4) x = rd8 demo_ram x).
Proof.
  apply (safestrcpy_correct demo_ram 200 100 4 _ demo_cstring demo_bytes_ok); cbn; lia.
Defined.

Lemma strncpy_correct_witness :
  rd8 (strncpy demo_ram 200 100 14) 207 = 0.
Proof.
  apply (strncpy_correct demo_ram 200 100 14 _ 207 demo_cstring demo_bytes_ok); cbn; lia.
Defined.
