(* ===== verification/Kalloc.v ===== *)
(** kernel/kalloc.c: the physical page allocator.

    The free list is threaded through the free pages themselves: [ms_freelist]
    is [kmem.freelist] and the first word of a free page is [r->next].  The
    abstract view is a stack of page addresses ([freelist]); [kfree] pushes and
    [kalloc] pops. *)
From S2P Require Import Prelude Riscv Spinlock Memory Kstring.

(** Physical memory and the globals of kalloc.c and vm.c: [kmem.freelist] and
    [kernel_pagetable]. *)
Record mem := Mem {
  ms_hw : machine;
  ms_ram : gmap Z Z;
  ms_freelist : Z;
  ms_kpgtbl : Z }.

Definition with_hw h s := Mem h (ms_ram s) (ms_freelist s) (ms_kpgtbl s).
Definition with_ram r s := Mem (ms_hw s) r (ms_freelist s) (ms_kpgtbl s).
Definition with_freelist f s := Mem (ms_hw s) (ms_ram s) f (ms_kpgtbl s).
Definition with_kpgtbl k s := Mem (ms_hw s) (ms_ram s) (ms_freelist s) k.

#[export] Program Instance mem_machine : Lens mem machine := {|
  lget := ms_hw;
  lset := with_hw |}.
Next Obligation. done. Qed.
Next Obligation. by intros []. Qed.
Next Obligation. done. Qed.

Definition ram_set (f : gmap Z Z -> gmap Z Z) : M mem unit :=
  modify (fun s => with_ram (f (ms_ram s)) s).

Definition kfree (pa : Z) : M mem unit :=
  s <- gets id ;;
  if negb (pa mod PGSIZE =? 0) || (pa <? ld_end (m_ld (ms_hw s))) || (PHYSTOP <=? pa)
  then panic "kfree" else
  ram_set (fun r => memset r pa 1 PGSIZE) ;;
  lift (acquire KmemLock) ;;
  s <- gets id ;;
  ram_set (fun r => wr64 r pa (ms_freelist s)) ;;
  modify (with_freelist pa) ;;
  lift (release KmemLock).

Definition kalloc : M mem Z :=
  lift (acquire KmemLock) ;;
  r <- gets ms_freelist ;;
  when (negb (r =? 0)) (modify (fun s => with_freelist (rd64 (ms_ram s) r) s)) ;;
  lift (release KmemLock) ;;
  when (negb (r =? 0)) (ram_set (fun m => memset m r 5 PGSIZE)) ;;
  ret r.

(** The loop of [freerange] runs once per page that fits below [pa_end]. *)
Definition freerange (pa_start pa_end : Z) : M mem unit :=
  loop (S (Z.to_nat ((pa_end - PGROUNDUP pa_start) / PGSIZE)))
    (fun p =>
       if p + PGSIZE <=? pa_end
       then kfree p ;; ret (inl (p + PGSIZE)) else ret (inr tt))
    (PGROUNDUP pa_start).

Definition kinit : M mem unit :=
  lift (initlock KmemLock "kmem") ;;
  s <- gets id ;;
  freerange (ld_end (m_ld (ms_hw s))) PHYSTOP.

(** * The free list *)

Fixpoint freelist (ram : gmap Z Z) (head : Z) (l : list Z) : Prop :=
  match l with
  | [] => head = 0
  | a :: l' => head = a /\ freelist ram (rd64 ram a) l'
  end.

(** A page [kfree] accepts: aligned, in the RAM above the kernel image. *)
Definition page_ok (ld : layout) (pa : Z) : Prop :=
  pa mod PGSIZE = 0 /\ ld_end ld <= pa < PHYSTOP.

Record kmem_ok (s : mem) (l : list Z) : Prop := {
  ko_list : freelist (ms_ram s) (ms_freelist s) l;
  ko_nodup : NoDup l;
  ko_pages : Forall (page_ok (m_ld (ms_hw s))) l;
  ko_end : 0 < ld_end (m_ld (ms_hw s));
  ko_bytes : bytes_ok (ms_ram s) }.

(** Locks and interrupt state: the allocator can be entered. *)
Definition kmem_ready (s : mem) : Prop :=
  hart_ok (ms_hw s) /\ lock_free KmemLock (ms_hw s).

Lemma pages_disjoint a b x :
  a mod PGSIZE = 0 -> b mod PGSIZE = 0 -> a <> b ->
  a <= x < a + PGSIZE -> b <= x < b + PGSIZE -> False.
Proof.
  intros Ha Hb Hne Hx Hy. unfold PGSIZE in *.
  pose proof (Z.div_mod a 4096 ltac:(done)). pose proof (Z.div_mod b 4096 ltac:(done)). lia.
Qed.

Lemma freelist_ext ram ram' head l :
  (forall a, a ∈ l -> rd64 ram' a = rd64 ram a) ->
  freelist ram head l -> freelist ram' head l.
Proof.
  revert head. induction l as [|a l IH]; intros head H; cbn; [done|].
  intros [-> Hl]. split; [done|]. rewrite H by set_solver. apply IH; [set_solver|done].
Qed.

(** Changes confined to one page do not disturb the words of the others. *)
Lemma rd64_other_page ram ram' pa a :
  pa mod PGSIZE = 0 -> a mod PGSIZE = 0 -> a <> pa ->
  (forall x, x < pa \/ pa + PGSIZE <= x -> rd8 ram' x = rd8 ram x) ->
  rd64 ram' a = rd64 ram a.
Proof.
  intros Hpa Ha Hne Hx. apply rd64_ext. intros x Hr. apply Hx.
  destruct (decide (x < pa \/ pa + PGSIZE <= x)) as [|Hin]; [done|]. exfalso.
  eapply (pages_disjoint a pa x); try done; unfold PGSIZE in *; lia.
Qed.

(** Memory changes that spare the free pages keep the allocator's state. *)
Lemma kmem_ok_ext s s' l :
  kmem_ok s l -> ms_freelist s' = ms_freelist s ->
  m_ld (ms_hw s') = m_ld (ms_hw s) -> bytes_ok (ms_ram s') ->
  (forall a, a ∈ l -> rd64 (ms_ram s') a = rd64 (ms_ram s) a) -> kmem_ok s' l.
Proof.
  intros [Hl Hnd Hp He Hb] Ef El Hb' Hw. constructor.
  - rewrite Ef. by eapply freelist_ext.
  - done.
  - by rewrite El.
  - by rewrite El.
  - done.
Qed.

Definition touch_mem (s : mem) : mem := with_hw (touch (ms_hw s)) s.

Lemma kfree_eq pa s :
  kmem_ready s -> page_ok (m_ld (ms_hw s)) pa ->
  kfree pa s = Ret tt (Mem (touch (ms_hw s))
    (wr64 (memset (ms_ram s) pa 1 PGSIZE) pa (ms_freelist s)) pa (ms_kpgtbl s)).
Proof.
  intros [Hh Hf] (Ha & Hlo & Hhi). unfold kfree. kstep eq_refl. unfold id.
  rewrite Ha. replace (pa <? _) with false by lia. replace (PHYSTOP <=? pa) with false by lia.
  cbn [Z.eqb negb orb]. kstep eq_refl. kstep lift_acquire by done.
  do 3 kstep eq_refl. by rewrite (lift_release KmemLock (ms_hw s)).
Qed.

(** [kfree] refuses an address that is not page-aligned, lies below the end
    of the kernel image or at or above the end of RAM: it panics before it
    touches memory or the free list. *)
Theorem kfree_refuses pa s :
  ~ page_ok (m_ld (ms_hw s)) pa -> kfree pa s = Panic "kfree" s.
Proof.
  intros H. unfold kfree. kstep eq_refl. unfold id, page_ok in *.
  zbool; done || lia.
Qed.

Lemma kalloc_eq s :
  kmem_ready s ->
  kalloc s = Ret (ms_freelist s)
    (if ms_freelist s =? 0 then touch_mem s
     else Mem (touch (ms_hw s)) (memset (ms_ram s) (ms_freelist s) 5 PGSIZE)
            (rd64 (ms_ram s) (ms_freelist s)) (ms_kpgtbl s)).
Proof.
  intros [Hh Hf]. unfold kalloc. kstep lift_acquire by done. kstep eq_refl.
  cbn [lset mem_machine with_hw ms_freelist]. destruct (ms_freelist s =? 0) eqn:E; cbn [negb when].
  - kstep eq_refl. kstep (lift_release KmemLock (ms_hw s)) by done. by kstep eq_refl.
  - kstep eq_refl. kstep (lift_release KmemLock (ms_hw s)) by done. kstep eq_refl. reflexivity.
Qed.

Lemma freelist_push s pa l :
  kmem_ok s l -> page_ok (m_ld (ms_hw s)) pa -> pa ∉ l ->
  freelist (wr64 (memset (ms_ram s) pa 1 PGSIZE) pa (ms_freelist s)) pa (pa :: l).
Proof.
  intros Hk (Ha & Hlo & Hhi) Hni. cbn. split; [done|].
  assert (0 <= ms_freelist s < 2 ^ 64) as Hb.
  { pose proof (ko_list _ _ Hk) as Hl. pose proof (ko_pages _ _ Hk) as Hp.
    pose proof (ko_end _ _ Hk). destruct l as [|a l]; cbn in Hl; [lia|].
    destruct Hl as [-> _]. apply Forall_cons_1 in Hp as [(_ & ? & ?) _].
    unfold PHYSTOP, KERNBASE in *. lia. }
  rewrite rd64_wr64_eq by done. eapply freelist_ext; [|apply Hk].
  intros a Hal. apply (rd64_other_page _ _ pa).
  - done.
  - pose proof (ko_pages _ _ Hk) as Hp. rewrite Forall_forall in Hp. by destruct (Hp a Hal).
  - by intros ->.
  - intros x Hx. rewrite rd8_wr64_ne by (unfold PGSIZE in *; lia).
    rewrite rd8_memset by done. zbool; done.
Qed.

(** Freeing a page pushes it on the free list, which stays a duplicate-free
    list of valid pages, and changes no byte outside the page. *)
Lemma kfree_spec pa s l :
  kmem_ready s -> kmem_ok s l -> page_ok (m_ld (ms_hw s)) pa -> pa ∉ l ->
  exists s', kfree pa s = Ret tt s' /\ kmem_ready s' /\ kmem_ok s' (pa :: l) /\
    m_ld (ms_hw s') = m_ld (ms_hw s) /\
    forall x, x < pa \/ pa + PGSIZE <= x -> rd8 (ms_ram s') x = rd8 (ms_ram s) x.
Proof.
  intros Hr Hk Hp Hni. eexists. split; [by apply kfree_eq|]. split; [|split; [|split; [done|]]].
  - split; [apply touch_hart_ok|]; apply Hr.
  - destruct Hk as [Hl Hnd Hfp Hen Hby]. constructor; cbn.
    + by apply freelist_push.
    + by constructor.
    + by constructor.
    + done.
    + by apply bytes_ok_wr64, bytes_ok_memset.
  - cbn. intros x Hx. rewrite rd8_wr64_ne by (unfold PGSIZE in *; lia).
    rewrite rd8_memset by done. zbool; done.
Qed.

(** Allocation pops a page off the free list: the result is 0 exactly when
    no page is free; otherwise it is a valid page that is no longer free, filled
    with the junk byte 5, and no other byte changed. *)
Lemma kalloc_spec s l :
  kmem_ready s -> kmem_ok s l ->
  exists pa s', kalloc s = Ret pa s' /\ kmem_ready s' /\
    m_ld (ms_hw s') = m_ld (ms_hw s) /\
    match l with
    | [] => pa = 0 /\ s' = touch_mem s
    | a :: l' => pa = a /\ pa <> 0 /\ page_ok (m_ld (ms_hw s)) pa /\
        kmem_ok s' l' /\ (pa ∉ l') /\
        (forall x, pa <= x < pa + PGSIZE -> rd8 (ms_ram s') x = 5) /\
        (forall x, x < pa \/ pa + PGSIZE <= x -> rd8 (ms_ram s') x = rd8 (ms_ram s) x)
    end.
Proof.
  intros Hr Hk. do 2 eexists. split; [by apply kalloc_eq|].
  destruct Hk as [Hl Hnd Hfp Hen Hby]. destruct l as [|a l']; cbn in Hl.
  - rewrite Hl. cbn. split; [|done]. split; [apply touch_hart_ok|]; apply Hr.
  - destruct Hl as [-> Hl]. apply Forall_cons_1 in Hfp as [Hpa Hfp].
    apply NoDup_cons in Hnd as [Hni Hnd]. pose proof Hpa as (Ha & Hlo & Hhi).
    replace (a =? 0) with false by lia.
    pose proof (fun x => rd8_memset (ms_ram s) a 5 PGSIZE x ltac:(done)) as Hms.
    pose proof (bytes_ok_memset (ms_ram s) a 5 PGSIZE Hby ltac:(done)) as Hbs.
    revert Hms Hbs. generalize (memset (ms_ram s) a 5 PGSIZE). intros r5 Hms Hbs.
    split; [split; [apply touch_hart_ok|]; apply Hr|]. split; [done|].
    split; [done|]. split; [lia|]. split; [done|]. split; [|split; [done|split]].
    + constructor; cbn; try done.
      eapply freelist_ext; [|exact Hl]. intros b Hb. apply (rd64_other_page _ _ a).
      * done.
      * rewrite Forall_forall in Hfp. by destruct (Hfp b Hb).
      * by intros ->.
      * intros x Hx. rewrite Hms. zbool; done.
    + cbn. intros x Hx. rewrite Hms. zbool; done.
    + cbn. intros x Hx. rewrite Hms. zbool; done.
Qed.

(** Both leave the hart as a critical section leaves it. *)
Lemma kalloc_hw s pa s' : kmem_ready s -> kalloc s = Ret pa s' -> ms_hw s' = touch (ms_hw s).
Proof. intros Hr. rewrite kalloc_eq by done. intros [= _ <-]. by destruct (_ =? 0). Qed.

Lemma kfree_hw pa s s' :
  kmem_ready s -> page_ok (m_ld (ms_hw s)) pa -> kfree pa s = Ret tt s' -> ms_hw s' = touch (ms_hw s).
Proof. intros Hr Hp. rewrite kfree_eq by done. by intros [= <-]. Qed.

(** * Initialisation *)

Fixpoint pages (p : Z) (n : nat) : list Z :=
  match n with O => [] | S n' => p :: pages (p + PGSIZE) n' end.

Lemma elem_of_pages p n a :
  a ∈ pages p n <-> exists i, 0 <= i < Z.of_nat n /\ a = p + i * PGSIZE.
Proof.
  revert p. induction n as [|n IH]; intros p; cbn [pages].
  - split; [set_solver|]. intros (i & ? & _). lia.
  - rewrite elem_of_cons, IH. split.
    + intros [->|(i & Hi & ->)]; [exists 0; lia|]. exists (i + 1). lia.
    + intros (i & Hi & ->). destruct (decide (i = 0)) as [->|]; [left; lia|].
      right. exists (i - 1). lia.
Qed.

Lemma freerange_loop pa_end n p s l :
  n = Z.to_nat ((pa_end - p) / PGSIZE) -> pa_end <= PHYSTOP ->
  kmem_ready s -> kmem_ok s l ->
  p mod PGSIZE = 0 -> ld_end (m_ld (ms_hw s)) <= p -> Forall (fun a => a < p) l ->
  exists s', loop (S n)
      (fun p => if p + PGSIZE <=? pa_end
                then kfree p ;; ret (inl (p + PGSIZE)) else ret (inr tt)) p s = Ret tt s' /\
    kmem_ready s' /\ kmem_ok s' (reverse (pages p n) ++ l) /\
    m_ld (ms_hw s') = m_ld (ms_hw s).
Proof.
  revert p s l. induction n as [|n IH]; intros p s l Hn Hend Hr Hk Hp Hlo Hl.
  - exists s. cbn [loop]. replace (p + PGSIZE <=? pa_end) with false; [done|].
    symmetry. apply Z.leb_gt. unfold PGSIZE in *.
    destruct (decide (pa_end < p + 4096)); [done|].
    pose proof (Z.div_le_lower_bound (pa_end - p) 4096 1). lia.
  - assert (p + PGSIZE <= pa_end) as Hle.
    { unfold PGSIZE in *. destruct (decide (p + 4096 <= pa_end)); [done|].
      pose proof (Z.div_lt_upper_bound (pa_end - p) 4096 1). lia. }
    assert (page_ok (m_ld (ms_hw s)) p) as Hpg by (unfold page_ok, PGSIZE in *; lia).
    destruct (kfree_spec p s l) as (s1 & E1 & Hr1 & Hk1 & Hld & _); [done..| |].
    { rewrite Forall_forall in Hl. intros Hin. specialize (Hl _ Hin). lia. }
    destruct (IH (p + PGSIZE) s1 (p :: l)) as (s2 & E2 & Hr2 & Hk2 & Hld2).
    + unfold PGSIZE in *. replace (pa_end - (p + 4096)) with (pa_end - p + (-1) * 4096) by lia.
      rewrite Z.div_add by done. lia.
    + done.
    + done.
    + done.
    + unfold PGSIZE in *. rewrite <- Zplus_mod_idemp_l, Hp. done.
    + rewrite Hld. unfold PGSIZE. lia.
    + constructor; [unfold PGSIZE; lia|]. eapply Forall_impl; [exact Hl|]. unfold PGSIZE. lia.
    + exists s2. split; [|split; [done|split]].
      * cbn [loop] in *. replace (p + PGSIZE <=? pa_end) with true by lia.
        erewrite bind_Ret; [|by kstep E1]. exact E2.
      * cbn [pages]. rewrite reverse_cons, <- (assoc_L app). exact Hk2.
      * congruence.
Qed.

(** After [kinit] the free list holds exactly the pages [kfree] accepts:
    every aligned page between the end of the kernel image and the end of RAM,
    once each. *)
Theorem kinit_correct s :
  hart_ok (ms_hw s) -> bytes_ok (ms_ram s) -> ms_freelist s = 0 ->
  0 < ld_end (m_ld (ms_hw s)) <= PHYSTOP ->
  exists s' l, kinit s = Ret tt s' /\ kmem_ready s' /\ kmem_ok s' l /\
    forall pa, pa ∈ l <-> page_ok (m_ld (ms_hw s)) pa.
Proof.
  intros Hh Hb Hf0 Hend. set (e := ld_end (m_ld (ms_hw s))) in *.
  assert (PHYSTOP <= 2 ^ 64 - PGSIZE) as HP by done.
  pose proof (pgroundup_bounds e ltac:(lia)) as Hr. pose proof (pgroundup_aligned e) as Ha.
  set (s1 := lset (with_locks (<[KmemLock := Spinlock 0 "kmem" None]> (m_locks (ms_hw s)))
    (ms_hw s)) s).
  destruct (freerange_loop PHYSTOP _ (PGROUNDUP e) s1 [] eq_refl) as (s' & E & Hr' & Hk & Hld).
  - done.
  - split; [done|]. exists "kmem"%string. cbn. by rewrite lookup_insert_eq.
  - constructor; [done|by constructor|done|cbn; lia|done].
  - done.
  - cbn. lia.
  - done.
  - rewrite app_nil_r in Hk. exists s', (reverse (pages (PGROUNDUP e)
      (Z.to_nat ((PHYSTOP - PGROUNDUP e) / PGSIZE)))). split; [|split; [done|split; [done|]]].
    + unfold kinit. kstep eq_refl. kstep eq_refl. exact E.
    + intros pa. rewrite elem_of_reverse, elem_of_pages. unfold page_ok. fold e.
      unfold PGSIZE in *. split.
      * intros (i & Hi & ->). rewrite Z_mod_plus_full. split; [done|].
        pose proof (Z.mul_div_le (PHYSTOP - PGROUNDUP e) 4096 ltac:(done)). lia.
      * intros (Hm & Hlo & Hhi). exists ((pa - PGROUNDUP e) / 4096).
        assert (PHYSTOP mod 4096 = 0) as HPm by done.
        apply Z_div_exact_full_2 in Hm, Ha, HPm; [|done..].
        set (q := pa / 4096) in *. set (qe := PGROUNDUP e / 4096) in *.
        set (qs := PHYSTOP / 4096) in *.
        replace ((pa - PGROUNDUP e) / 4096) with (q - qe) by (apply (Z.div_unique _ _ _ 0); lia).
        replace ((PHYSTOP - PGROUNDUP e) / 4096) with (qs - qe)
          by (apply (Z.div_unique _ _ _ 0); lia).
        lia.
Qed.

(** * The allocator as a stack of pages *)

Inductive alloc_op := OpAlloc | OpFree (pa : Z).

(** The abstract allocator: the free pages, last freed first. *)
Definition stack_op (o : alloc_op) (free : list Z) : Z * list Z :=
  match o, free with
  | OpAlloc, [] => (0, [])
  | OpAlloc, pa :: free' => (pa, free')
  | OpFree pa, _ => (0, pa :: free)
  end.
Definition legal_op (ld : layout) (o : alloc_op) (free : list Z) : Prop :=
  match o with OpAlloc => True | OpFree pa => page_ok ld pa /\ pa ∉ free end.

Fixpoint stack_run (os : list alloc_op) (free : list Z) : list Z * list Z :=
  match os with
  | [] => ([], free)
  | o :: os' => let '(r, free1) := stack_op o free in
                let '(rs, free2) := stack_run os' free1 in (r :: rs, free2)
  end.
Fixpoint legal_run (ld : layout) (os : list alloc_op) (free : list Z) : Prop :=
  match os with
  | [] => True
  | o :: os' => legal_op ld o free /\ legal_run ld os' (stack_op o free).2
  end.

Definition alloc_op_run (o : alloc_op) : M mem Z :=
  match o with OpAlloc => kalloc | OpFree pa => kfree pa ;; ret 0 end.
Fixpoint alloc_run (os : list alloc_op) : M mem (list Z) :=
  match os with
  | [] => ret []
  | o :: os' => r <- alloc_op_run o ;; rs <- alloc_run os' ;; ret (r :: rs)
  end.

Lemma kmem_ok_touch s l : kmem_ok s l -> kmem_ok (touch_mem s) l.
Proof. intros H. by apply (kmem_ok_ext s); [..|apply H|]. Qed.

Lemma alloc_op_refines o s free :
  kmem_ready s -> kmem_ok s free -> legal_op (m_ld (ms_hw s)) o free ->
  exists s', alloc_op_run o s = Ret (stack_op o free).1 s' /\
    kmem_ready s' /\ kmem_ok s' (stack_op o free).2 /\ m_ld (ms_hw s') = m_ld (ms_hw s).
Proof.
  intros Hr Hk Hl. destruct o as [|pa].
  - destruct (kalloc_spec s free Hr Hk) as (pa & s' & E & Hr' & Hld & H).
    destruct free as [|a free]; exists s'.
    + destruct H as [-> ->]. eauto using kmem_ok_touch.
    + destruct H as (-> & _ & _ & Hk' & _). eauto.
  - destruct Hl as [Hp Hn].
    destruct (kfree_spec pa s free Hr Hk Hp Hn) as (s' & E & Hr' & Hk' & Hld & _).
    exists s'. split; [|done]. cbn [alloc_op_run]. by kstep E.
Qed.

(** C32. Refinement: any sequence of allocations and legal frees behaves as on
    the abstract stack of pages; the same addresses come out, in the same order,
    nothing panics, and the free list in memory ends as the abstract stack. *)
Theorem allocator_refines os s free :
  kmem_ready s -> kmem_ok s free -> legal_run (m_ld (ms_hw s)) os free ->
  exists s', alloc_run os s = Ret (stack_run os free).1 s' /\
    kmem_ready s' /\ kmem_ok s' (stack_run os free).2.
Proof.
  revert s free. induction os as [|o os IH]; intros s free Hr Hk Hl; [by exists s|].
  destruct Hl as [Ho Hl]. cbn [stack_run alloc_run].
  destruct (alloc_op_refines o s free Hr Hk Ho) as (s1 & E1 & Hr1 & Hk1 & Hld).
  destruct (stack_op o free) as [r free1]. cbn [fst snd] in *.
  rewrite <- Hld in Hl. destruct (IH s1 free1 Hr1 Hk1 Hl) as (s2 & E2 & Hr2 & Hk2).
  destruct (stack_run os free1) as [rs free2]. cbn [fst snd] in *.
  exists s2. split; [|done]. kstep E1. by kstep E2.
Qed.

(** * Examples *)

(** Two free pages, linked through their first words. *)
Definition demo_mem : mem :=
  Mem demo_machine (wr64 (wr64 ∅ 0x80025000 0x80026000) 0x80026000 0) 0x80025000 0.

Lemma demo_kmem_ready : kmem_ready demo_mem.
Proof. split; [apply demo_hart_ok|]. by eapply demo_lock_free. Qed.

Lemma demo_kmem_ok : kmem_ok demo_mem [0x80025000; 0x80026000].
Proof.
  split.
  - vm_compute. done.
  - repeat (apply NoDup_cons; split; [set_solver|]). apply NoDup_nil_2.
  - repeat constructor; vm_compute; done.
  - done.
  - cbn. repeat apply bytes_ok_wr64. apply bytes_ok_empty.
Qed.

Lemma kfree_refuses_witness : kfree 0x80025008 demo_mem = Panic "kfree" demo_mem.
Proof. apply kfree_refuses. vm_compute. intros [H _]. done. Defined.

Lemma kinit_correct_witness :
  exists s' l, kinit (Mem demo_machine ∅ 0 0) = Ret tt s' /\ kmem_ready s' /\ kmem_ok s' l /\
    forall pa, pa ∈ l <-> page_ok demo_layout pa.
Proof.
  apply (kinit_correct (Mem demo_machine ∅ 0 0)).
  - apply demo_hart_ok.
  - apply bytes_ok_empty.
  - reflexivity.
  - split; vm_compute; done.
Defined.

Lemma allocator_refines_witness :
  exists s', alloc_run [OpAlloc; OpFree 0x80030000; OpAlloc; OpAlloc; OpAlloc] demo_mem =
      Ret [0x80025000; 0; 0x80030000; 0x80026000; 0] s' /\ kmem_ready s' /\ kmem_ok s' [].
Proof.
  apply (allocator_refines [OpAlloc; OpFree 0x80030000; OpAlloc; OpAlloc; OpAlloc] demo_mem
    [0x80025000; 0x80026000]); [apply demo_kmem_ready|apply demo_kmem_ok|].
  cbn. split_and!; try done; set_solver.
Defined.
