(* ===== verification/Vm.v ===== *)
(** kernel/vm.c below the process layer: page tables in physical memory.

    A page table is the address of a page of 512 little-endian entries; a
    pointer to an entry is its address, 0 the null pointer.  The operations run
    on the allocator's state and allocate and free through [kalloc] and [kfree].
    TLB flushes have no effect on the modelled state. *)
From S2P Require Import Prelude Riscv Spinlock Memory Kstring Kalloc.

Definition NPROC : nat := 64.

Definition pte_at (pte : Z) : M mem Z := gets (fun s => rd64 (ms_ram s) pte).
Definition pte_set (pte v : Z) : M mem unit := ram_set (fun r => wr64 r pte v).
Definition has (v flag : Z) : bool := negb (Z.land v flag =? 0).

(** The body of the loop of [walk]: one level down, with the table it makes if
    there is none. *)
Definition walk_level (va : Z) (alloc : bool) (level pagetable : Z) : M mem (Z + unit) :=
  let pte := pagetable + 8 * PX level va in
  v <- pte_at pte ;;
  if has v PTE_V then ret (inl (PTE2PA v))
  else if negb alloc then ret (inr tt)
  else
    pagetable <- kalloc ;;
    if pagetable =? 0 then ret (inr tt) else
    ram_set (fun r => memset r pagetable 0 PGSIZE) ;;
    pte_set pte (Z.lor (PA2PTE pagetable) PTE_V) ;;
    ret (inl pagetable).

Definition walk (pagetable va : Z) (alloc : bool) : M mem Z :=
  if MAXVA <=? va then panic "walk" else
  r <- forl [2; 1] (walk_level va alloc) pagetable ;;
  match r with
  | inl pagetable => ret (pagetable + 8 * PX 0 va)
  | inr _ => ret 0
  end.

Definition walkaddr (pagetable va : Z) : M mem Z :=
  if MAXVA <=? va then ret 0 else
  pte <- walk pagetable va false ;;
  if pte =? 0 then ret 0 else
  v <- pte_at pte ;;
  if negb (has v PTE_V) then ret 0 else
  if negb (has v PTE_U) then ret 0 else
  ret (PTE2PA v).

Definition mappages_body (pagetable last perm : Z) '(a, pa) : M mem (Z * Z + Z) :=
  pte <- walk pagetable a true ;;
  if pte =? 0 then ret (inr (-1)) else
  v <- pte_at pte ;;
  if has v PTE_V then panic "mappages: remap" else
  pte_set pte (Z.lor (Z.lor (PA2PTE pa) perm) PTE_V) ;;
  if a =? last then ret (inr 0) else
  ret (inl (u64 (a + PGSIZE), u64 (pa + PGSIZE))).

(** One iteration per page: [size / PGSIZE] of them reach [last]. *)
Definition mappages (pagetable va size pa perm : Z) : M mem Z :=
  if negb (va mod PGSIZE =? 0) then panic "mappages: va not aligned" else
  if negb (size mod PGSIZE =? 0) then panic "mappages: size not aligned" else
  if size =? 0 then panic "mappages: size" else
  let last := u64 (va + size - PGSIZE) in
  loop (Z.to_nat (size / PGSIZE)) (mappages_body pagetable last perm) (va, pa).

Definition kvmmap (kpgtbl va pa sz perm : Z) : M mem unit :=
  r <- mappages kpgtbl va sz pa perm ;;
  if negb (r =? 0) then panic "kvmmap" else ret tt.

(** proc.c: a page for each process's kernel stack, below a guard page. *)
Definition proc_mapstacks (kpgtbl : Z) : M mem unit :=
  iterl (seq 0 NPROC) (fun p =>
    pa <- kalloc ;;
    if pa =? 0 then panic "kalloc" else
    let va := KSTACK (Z.of_nat p) in
    kvmmap kpgtbl va pa PGSIZE (Z.lor PTE_R PTE_W)).

Definition kvmmake : M mem Z :=
  ld <- gets (fun s => m_ld (ms_hw s)) ;;
  kpgtbl <- kalloc ;;
  ram_set (fun r => memset r kpgtbl 0 PGSIZE) ;;
  kvmmap kpgtbl UART0 UART0 PGSIZE (Z.lor PTE_R PTE_W) ;;
  kvmmap kpgtbl VIRTIO0 VIRTIO0 PGSIZE (Z.lor PTE_R PTE_W) ;;
  kvmmap kpgtbl PLIC PLIC 0x4000000 (Z.lor PTE_R PTE_W) ;;
  kvmmap kpgtbl KERNBASE KERNBASE (ld_etext ld - KERNBASE) (Z.lor PTE_R PTE_X) ;;
  kvmmap kpgtbl (ld_etext ld) (ld_etext ld) (PHYSTOP - ld_etext ld) (Z.lor PTE_R PTE_W) ;;
  kvmmap kpgtbl TRAMPOLINE (ld_trampoline ld) PGSIZE (Z.lor PTE_R PTE_X) ;;
  proc_mapstacks kpgtbl ;;
  ret kpgtbl.

Definition kvminit : M mem unit :=
  k <- kvmmake ;; modify (with_kpgtbl k).

Definition kvminithart : M mem unit :=
  s <- gets id ;; lift (w_satp (MAKE_SATP (ms_kpgtbl s))).

Definition uvmcreate : M mem Z :=
  pagetable <- kalloc ;;
  if pagetable =? 0 then ret 0 else
  ram_set (fun r => memset r pagetable 0 PGSIZE) ;;
  ret pagetable.

Definition uvmunmap_body (pagetable : Z) (do_free : bool) (last : Z) (a : Z) : M mem (Z + unit) :=
  if negb (a <? last) then ret (inr tt) else
  pte <- walk pagetable a false ;;
  if pte =? 0 then ret (inl (u64 (a + PGSIZE))) else
  v <- pte_at pte ;;
  if negb (has v PTE_V) then ret (inl (u64 (a + PGSIZE))) else
  when do_free (kfree (PTE2PA v)) ;;
  pte_set pte 0 ;;
  ret (inl (u64 (a + PGSIZE))).

Definition uvmunmap (pagetable va npages : Z) (do_free : bool) : M mem unit :=
  if negb (va mod PGSIZE =? 0) then panic "uvmunmap: not aligned" else
  loop (S (Z.to_nat npages)) (uvmunmap_body pagetable do_free (u64 (va + npages * PGSIZE))) va.

Definition uvmdealloc (pagetable oldsz newsz : Z) : M mem Z :=
  if oldsz <=? newsz then ret oldsz else
  when (PGROUNDUP newsz <? PGROUNDUP oldsz)
    (let npages := s32 ((PGROUNDUP oldsz - PGROUNDUP newsz) / PGSIZE) in
     uvmunmap pagetable (PGROUNDUP newsz) (u64 npages) true) ;;
  ret newsz.

Definition uvmalloc_body (pagetable newsz xperm oldsz a : Z) : M mem (Z + Z) :=
  if negb (a <? newsz) then ret (inr newsz) else
  mem <- kalloc ;;
  if mem =? 0 then uvmdealloc pagetable a oldsz ;; ret (inr 0) else
  ram_set (fun r => memset r mem 0 PGSIZE) ;;
  r <- mappages pagetable a PGSIZE mem (Z.lor (Z.lor PTE_R PTE_U) xperm) ;;
  if negb (r =? 0)
  then kfree mem ;; uvmdealloc pagetable a oldsz ;; ret (inr 0)
  else ret (inl (u64 (a + PGSIZE))).

Definition uvmalloc (pagetable oldsz newsz xperm : Z) : M mem Z :=
  if newsz <? oldsz then ret oldsz else
  let oldsz := PGROUNDUP oldsz in
  loop (S (Z.to_nat ((newsz - oldsz + PGSIZE - 1) / PGSIZE))) (uvmalloc_body pagetable newsz xperm oldsz) oldsz.

(** The body of the loop of [freewalk]: entry [i], [walk] is the recursive call. *)
Definition free_entry (walk : Z -> M mem unit) (pagetable : Z) (i : nat) : M mem unit :=
  let slot := pagetable + 8 * Z.of_nat i in
  pte <- pte_at slot ;;
  if has pte PTE_V && negb (has pte (Z.lor (Z.lor PTE_R PTE_W) PTE_X))
  then walk (PTE2PA pte) ;; pte_set slot 0
  else if has pte PTE_V then panic "freewalk: leaf" else ret tt.

(** [fuel] bounds the depth of the recursion; Sv39 page tables have three
    levels. *)
Fixpoint freewalk (fuel : nat) (pagetable : Z) : M mem unit :=
  match fuel with
  | O => nofuel
  | S f => iterl (seq 0 512) (free_entry (freewalk f) pagetable) ;; kfree pagetable
  end.

Definition uvmfree (pagetable sz : Z) : M mem unit :=
  when (0 <? sz) (uvmunmap pagetable 0 (PGROUNDUP sz / PGSIZE) true) ;;
  freewalk 3 pagetable.

Definition uvmcopy_body (old new sz i : Z) : M mem (Z + option Z) :=
  if negb (i <? sz) then ret (inr None) else
  pte <- walk old i false ;;
  if pte =? 0 then ret (inl (u64 (i + PGSIZE))) else
  v <- pte_at pte ;;
  if negb (has v PTE_V) then ret (inl (u64 (i + PGSIZE))) else
  let pa := PTE2PA v in
  let flags := PTE_FLAGS v in
  mem <- kalloc ;;
  if mem =? 0 then ret (inr (Some i)) else
  ram_set (fun r => memmove r mem pa PGSIZE) ;;
  r <- mappages new i PGSIZE mem flags ;;
  if negb (r =? 0) then kfree mem ;; ret (inr (Some i))
  else ret (inl (u64 (i + PGSIZE))).

Definition uvmcopy (old new sz : Z) : M mem Z :=
  r <- loop (S (Z.to_nat ((sz + PGSIZE - 1) / PGSIZE))) (uvmcopy_body old new sz) 0 ;;
  match r with
  | None => ret 0
  | Some i => uvmunmap new 0 (i / PGSIZE) true ;; ret (-1)
  end.

Definition uvmclear (pagetable va : Z) : M mem unit :=
  pte <- walk pagetable va false ;;
  if pte =? 0 then panic "uvmclear" else
  v <- pte_at pte ;;
  pte_set pte (Z.land v (Z.lnot PTE_U)).

Definition ismapped (pagetable va : Z) : M mem Z :=
  pte <- walk pagetable va false ;;
  if pte =? 0 then ret 0 else
  v <- pte_at pte ;;
  if has v PTE_V then ret 1 else ret 0.
