(* ===== verification/PageTable.v ===== *)
(** What page tables mean: the abstract view of the tables vm.c builds in
    physical memory, and the theorems that [walk], [mappages], [walkaddr] and
    [uvmunmap] implement it.

    The abstract view of a page table is the function [pt_get] from virtual
    addresses to leaf entries (0 where nothing is mapped).  Its well-formedness
    [pt_wf] gives every page of the tree one owner: the root, the level-1 table
    of an index, or the level-0 table of a pair of indices, none of them on the
    allocator's free list. *)
From S2P Require Import Prelude Riscv Spinlock Memory Kstring Kalloc Vm.

Inductive node := NRoot | NL1 (i : Z) | NL0 (i j : Z).

Definition ent (ram : gmap Z Z) (p i : Z) : Z := rd64 ram (p + 8 * i).

(** The table an entry points to, if it is valid. *)
Definition pt_step (ram : gmap Z Z) (p i : Z) : option Z :=
  if has (ent ram p i) PTE_V then Some (PTE2PA (ent ram p i)) else None.

Definition pt_slot (ram : gmap Z Z) (root va : Z) : option Z :=
  p1 ← pt_step ram root (PX 2 va);
  p0 ← pt_step ram p1 (PX 1 va);
  Some (p0 + 8 * PX 0 va).

Definition pt_get (ram : gmap Z Z) (root va : Z) : Z :=
  match pt_slot ram root va with Some a => rd64 ram a | None => 0 end.

Lemma pt_get_eq ram root va :
  pt_get ram root va =
  match pt_step ram root (PX 2 va) with
  | None => 0
  | Some q => match pt_step ram q (PX 1 va) with
              | None => 0
              | Some r => ent ram r (PX 0 va)
              end
  end.
Proof.
  unfold pt_get, pt_slot. destruct (pt_step ram root (PX 2 va)) as [q|]; [|reflexivity].
  cbn [mbind option_bind]. destruct (pt_step ram q (PX 1 va)); reflexivity.
Qed.

Definition child (n : node) (i : Z) : node :=
  match n with NRoot => NL1 i | NL1 j => NL0 j i | NL0 _ _ => n end.
Definition is_dir (n : node) : bool :=
  match n with NL0 _ _ => false | _ => true end.

Definition PTE_RWX : Z := Z.lor (Z.lor PTE_R PTE_W) PTE_X.

(** A page of the tree hangs where its owner says. *)
Definition hangs (ram : gmap Z Z) (root : Z) (own : gmap Z node) (p : Z) (n : node) : Prop :=
  match n with
  | NRoot => True
  | NL1 i => 0 <= i < 256 /\ pt_step ram root i = Some p
  | NL0 i j => 0 <= j < 512 /\ exists q, own !! q = Some (NL1 i) /\ pt_step ram q j = Some p
  end.

Record pt_wf (ram : gmap Z Z) (root : Z) (own : gmap Z node) (free : list Z) : Prop := {
  pw_root : own !! root = Some NRoot;
  pw_uniq : forall p, own !! p = Some NRoot -> p = root;
  pw_l2 : forall i q, 0 <= i < 512 -> pt_step ram root i = Some q -> own !! q = Some (NL1 i);
  pw_l1 : forall p i j q, own !! p = Some (NL1 i) -> 0 <= j < 512 ->
    pt_step ram p j = Some q -> own !! q = Some (NL0 i j);
  pw_page : forall p n, own !! p = Some n ->
    p mod PGSIZE = 0 /\ 0 < p < PHYSTOP /\ p ∉ free;
  pw_up : forall p n, own !! p = Some n -> hangs ram root own p n;
  pw_dir : forall p n i q, own !! p = Some n -> is_dir n = true -> 0 <= i < 512 ->
    pt_step ram p i = Some q -> has (ent ram p i) PTE_RWX = false }.

(** * Entries under writes *)

Lemma slot_in_page p i x :
  0 <= i < 512 -> p + 8 * i <= x < p + 8 * i + 8 -> p <= x < p + PGSIZE.
Proof. unfold PGSIZE. lia. Qed.

Lemma ent_wr64 ram p i v q k :
  p mod PGSIZE = 0 -> q mod PGSIZE = 0 -> 0 <= i < 512 -> 0 <= k < 512 ->
  0 <= v < 2 ^ 64 ->
  ent (wr64 ram (p + 8 * i) v) q k =
  if (p =? q) && (i =? k) then v else ent ram q k.
Proof.
  intros Hp Hq Hi Hk Hv. unfold ent. destruct (Z.eqb_spec p q) as [->|Hpq]; cbn [andb].
  - destruct (Z.eqb_spec i k) as [->|Hik]; [by apply rd64_wr64_eq|].
    apply rd64_wr64_ne. lia.
  - apply rd64_wr64_ne.
    destruct (decide (p + 8 * i + 8 <= q + 8 * k \/ q + 8 * k + 8 <= p + 8 * i)) as [|Hn]; [done|].
    exfalso. apply (pages_disjoint p q (Z.max (p + 8 * i) (q + 8 * k))); try done;
      unfold PGSIZE; lia.
Qed.

Lemma rd64_zero ram a : (forall x, a <= x < a + 8 -> rd8 ram x = 0) -> rd64 ram a = 0.
Proof.
  intros H. rewrite (rd64_ext ∅ ram a); [done|]. intros x Hx. rewrite H by lia. done.
Qed.

Lemma ent_memset ram pg q k :
  pg mod PGSIZE = 0 -> q mod PGSIZE = 0 -> 0 <= k < 512 ->
  ent (memset ram pg 0 PGSIZE) q k = if pg =? q then 0 else ent ram q k.
Proof.
  intros Hp Hq Hk. unfold ent. destruct (Z.eqb_spec pg q) as [->|Hne].
  - apply rd64_zero. intros x Hx. rewrite rd8_memset by done. unfold PGSIZE in *. zbool; done.
  - apply rd64_ext. intros x Hx. rewrite rd8_memset by done.
    destruct (Z.leb_spec pg x); [|done]. destruct (Z.ltb_spec x (pg + PGSIZE)); [|done].
    exfalso. apply (pages_disjoint pg q x); try done. eapply slot_in_page; [exact Hk|]. lia.
Qed.

Lemma ent_ext ram ram' p k :
  0 <= k < 512 -> same_bytes PGSIZE p ram ram' -> ent ram' p k = ent ram p k.
Proof.
  intros Hk H. apply rd64_ext. intros x Hx. apply H. by eapply slot_in_page.
Qed.

(** * walk without allocation *)

Lemma walk_read root va s :
  va < MAXVA -> walk root va false s = Ret (default 0 (pt_slot (ms_ram s) root va)) s.
Proof.
  intros Hva. unfold walk. replace (MAXVA <=? va) with false by lia.
  unfold pt_slot, pt_step, ent. cbn [forl]. unfold walk_level, bind, pte_at, gets, ret. cbn [pbind].
  destruct (has (rd64 (ms_ram s) (root + 8 * PX 2 va)) PTE_V); cbn [pbind]; [|done].
  cbn. destruct (has (rd64 _ _) PTE_V); done.
Qed.

Lemma slot_nonzero ram root own free va a :
  pt_wf ram root own free -> pt_slot ram root va = Some a -> a <> 0.
Proof.
  intros Hwf Ea. unfold pt_slot in Ea. destruct (pt_step _ root _) as [p1|] eqn:E1; [|done].
  cbn in Ea. destruct (pt_step _ p1 _) as [p0|] eqn:E0; [|done]. injection Ea as <-.
  apply (pw_l2 _ _ _ _ Hwf) in E1; [|by apply PX_bounds].
  apply (pw_l1 _ _ _ _ Hwf _ _ _ _ E1) in E0; [|by apply PX_bounds].
  apply (pw_page _ _ _ _ Hwf) in E0 as (_ & ? & _).
  pose proof (PX_bounds 0 va ltac:(done)). lia.
Qed.

Lemma walkaddr_eq root va s own free :
  pt_wf (ms_ram s) root own free -> 0 <= va ->
  walkaddr root va s =
  Ret (if (va <? MAXVA) && has (pt_get (ms_ram s) root va) PTE_V &&
          has (pt_get (ms_ram s) root va) PTE_U
       then PTE2PA (pt_get (ms_ram s) root va) else 0) s.
Proof.
  intros Hwf Hva. unfold walkaddr. destruct (Z.leb_spec MAXVA va).
  { by replace (va <? MAXVA) with false by lia. }
  replace (va <? MAXVA) with true by lia. cbn [andb]. kstep walk_read by done.
  unfold pt_get. destruct (pt_slot (ms_ram s) root va) as [a|] eqn:Ea.
  - assert (a <> 0) as Ha by by eapply slot_nonzero.
    change (default 0 (Some a)) with a. apply Z.eqb_neq in Ha. rewrite Ha. kstep eq_refl.
    destruct (has (rd64 (ms_ram s) a) PTE_V), (has (rd64 (ms_ram s) a) PTE_U); done.
  - done.
Qed.

(** [walkaddr] returns the page a valid user-accessible leaf entry points
    to, and 0 in every other case (address out of range, missing table, invalid
    entry, entry without the user bit); it changes nothing. *)
Theorem walkaddr_correct root va s own free :
  pt_wf (ms_ram s) root own free -> 0 <= va ->
  walkaddr root va s =
  Ret (if (va <? MAXVA) && has (pt_get (ms_ram s) root va) PTE_V &&
          has (pt_get (ms_ram s) root va) PTE_U
       then PTE2PA (pt_get (ms_ram s) root va) else 0) s.
Proof. apply walkaddr_eq. Qed.

(** * Growing the tree by one table *)

Lemma has_lor x f : f <> 0 -> has (Z.lor x f) f = true.
Proof.
  intros Hf. unfold has. replace (Z.land (Z.lor x f) f) with f.
  - apply Z.eqb_neq in Hf. by rewrite Hf.
  - symmetry. apply Z.bits_inj'. intros i _. rewrite Z.land_spec, Z.lor_spec.
    destruct (Z.testbit x i), (Z.testbit f i); done.
Qed.

Lemma has_0 f : has 0 f = false.
Proof. done. Qed.

Definition table_pte (pg : Z) : Z := Z.lor (PA2PTE pg) PTE_V.

Lemma table_pte_range pg : 0 <= pg < 2 ^ 56 -> 0 <= table_pte pg < 2 ^ 64.
Proof.
  intros Hp. unfold table_pte. rewrite pte_compose by (done || lia).
  change PTE_V with 1. pose proof (Z.div_pos pg (2 ^ 12)).
  pose proof (Z.div_lt_upper_bound pg (2 ^ 12) (2 ^ 44)). lia.
Qed.

Lemma table_pte_page pg :
  0 <= pg < 2 ^ 56 -> pg mod PGSIZE = 0 -> PTE2PA (table_pte pg) = pg.
Proof. intros Hp Ha. unfold table_pte. by apply PTE2PA_compose. Qed.

Lemma has_flags v f : 0 <= f < 2 ^ 10 -> has v f = has (PTE_FLAGS v) f.
Proof.
  intros Hf. unfold has. do 2 f_equal. rewrite PTE_FLAGS_eq, <- Z.land_ones by done.
  rewrite <- Z.land_assoc. f_equal. rewrite Z.land_comm, Z.land_ones by done. by rewrite Z.mod_small.
Qed.

Lemma table_pte_dir pg : 0 <= pg < 2 ^ 56 -> has (table_pte pg) PTE_RWX = false.
Proof. intros Hp. rewrite has_flags by done. unfold table_pte. by rewrite PTE_FLAGS_compose. Qed.

(** The memory after the new table is zeroed and linked, and its owners. *)
Definition grown (ram1 : gmap Z Z) (p idx pg : Z) : gmap Z Z :=
  wr64 (memset ram1 pg 0 PGSIZE) (p + 8 * idx) (table_pte pg).
Definition grow_own (n : node) (idx pg : Z) (own : gmap Z node) : gmap Z node :=
  <[pg := child n idx]> own.

(** [pg] was the first free page, [ram1] is the memory after its allocation,
    and the directory [p] has no table at [idx]. *)
Record growing (ram ram1 : gmap Z Z) (root p idx pg : Z) (n : node)
  (own : gmap Z node) (free : list Z) : Prop := {
  gr_wf : pt_wf ram root own (pg :: free);
  gr_p : own !! p = Some n;
  gr_dir : is_dir n = true;
  gr_idx : 0 <= idx < 512;
  gr_none : pt_step ram p idx = None;
  gr_low : n = NRoot -> idx < 256;
  gr_pg : pg mod PGSIZE = 0 /\ 0 < pg < PHYSTOP;
  gr_free : pg ∉ free;
  gr_ram : forall x, x < pg \/ pg + PGSIZE <= x -> rd8 ram1 x = rd8 ram x }.

Lemma PX_low va : 0 <= va < MAXVA -> PX 2 va < 256.
Proof.
  intros Hva. rewrite PX_eq by done. change MAXVA with (2 ^ 38) in Hva. change (12 + 9 * 2) with 30.
  rewrite Z.mod_small; Z.to_euclidean_division_equations; lia.
Qed.

Section Grow.
Context {ram ram1 : gmap Z Z} {root p idx pg : Z} {n : node}.
Context {own : gmap Z node} {free : list Z}.
Context (G : growing ram ram1 root p idx pg n own free).
Abbreviation ram' := (grown ram1 p idx pg).
Abbreviation own' := (grow_own n idx pg own).

Lemma pg_fresh : own !! pg = None.
Proof using G.
  destruct (own !! pg) as [m|] eqn:E; [|done].
  apply (pw_page _ _ _ _ (gr_wf _ _ _ _ _ _ _ _ _ G)) in E as (_ & _ & E). set_solver.
Qed.

Lemma own_own' q m : own !! q = Some m -> own' !! q = Some m.
Proof using G.
  intros Hq. unfold grow_own. rewrite lookup_insert_ne; [done|]. intros E.
  rewrite <- E, pg_fresh in Hq. done.
Qed.

Lemma own_ne_pg q m : own !! q = Some m -> (pg =? q) = false.
Proof using G.
  intros Hq. apply Z.eqb_neq. intros E. by rewrite <- E, pg_fresh in Hq.
Qed.

Lemma own_ne q q' m m' : own !! q = Some m -> own !! q' = Some m' -> m <> m' -> (q =? q') = false.
Proof using Type. intros Hq Hq' Hne. apply Z.eqb_neq. intros E. rewrite E in Hq. congruence. Qed.

Lemma ent_grown q k m :
  own' !! q = Some m -> 0 <= k < 512 ->
  ent ram' q k = if (p =? q) && (idx =? k) then table_pte pg
                 else if pg =? q then 0 else ent ram q k.
Proof using G.
  intros Hq Hk. destruct G as [Hwf Hp _ Hidx _ _ Hpg _ Hram1].
  destruct (pw_page _ _ _ _ Hwf _ _ Hp) as (Hpa & _ & _).
  assert (q mod PGSIZE = 0) as Hqa.
  { unfold grow_own in Hq; apply lookup_insert_Some in Hq as [[<- _]|[_ Hq]]; [apply Hpg|].
    by apply (pw_page _ _ _ _ Hwf) in Hq as (? & _ & _). }
  unfold grown. rewrite ent_wr64; [|try done..].
  2: { apply table_pte_range. unfold PHYSTOP, KERNBASE in *. lia. }
  destruct (_ && _); [done|]. rewrite ent_memset; [|apply Hpg|done|done].
  destruct (Z.eqb_spec pg q) as [|Hne]; [done|]. apply ent_ext; [done|]. intros x Hx. apply Hram1.
  destruct (decide (x < pg \/ pg + PGSIZE <= x)) as [|Hn]; [done|].
  exfalso. apply (pages_disjoint pg q x); try done; [apply Hpg|lia].
Qed.

Lemma step_grown q k m :
  own' !! q = Some m -> 0 <= k < 512 ->
  pt_step ram' q k = if (p =? q) && (idx =? k) then Some pg
                     else if pg =? q then None else pt_step ram q k.
Proof using G.
  intros Hq Hk. unfold pt_step. rewrite (ent_grown q k m) by done.
  destruct (_ && _).
  - rewrite table_pte_page.
    + unfold table_pte. by rewrite has_lor by done.
    + destruct (gr_pg _ _ _ _ _ _ _ _ _ G). unfold PHYSTOP, KERNBASE in *. lia.
    + apply (gr_pg _ _ _ _ _ _ _ _ _ G).
  - by destruct (pg =? q).
Qed.

Lemma pg_small : 0 <= pg < 2 ^ 56.
Proof using G. destruct (gr_pg _ _ _ _ _ _ _ _ _ G). unfold PHYSTOP, KERNBASE in *. lia. Qed.

(** The tables that were there stay where they are. *)
Lemma step_keeps q m k t :
  own !! q = Some m -> 0 <= k < 512 -> pt_step ram q k = Some t -> pt_step ram' q k = Some t.
Proof using G.
  intros Hq Hk Hst. rewrite (step_grown q k m), (own_ne_pg q m) by (done || by apply own_own').
  destruct (_ && _) eqn:E; [|done]. apply andb_true_iff in E as [E2%Z.eqb_eq E3%Z.eqb_eq]. subst.
  pose proof (gr_none _ _ _ _ _ _ _ _ _ G). congruence.
Qed.

Lemma hangs_grown q m : own' !! q = Some m -> hangs ram' root own' q m.
Proof using G.
  pose proof G as [Hwf Hp Hdir Hidx Hnone Hlow Hpg Hfree _]. intros Hq.
  assert (pt_step ram' p idx = Some pg) as Hlink by (rewrite (step_grown p idx n) by (done || by apply own_own'); by rewrite !Z.eqb_refl).
  unfold grow_own in Hq. apply lookup_insert_Some in Hq as [[<- <-]|[_ Hq]].
  - assert (n = NRoot \/ exists i, n = NL1 i) as Hn by (clear -Hdir; destruct n as [|i|]; [by left|right; by exists i|discriminate]).
    pose proof (own_own' _ _ Hp) as Hp'. destruct Hn as [Hn|[i Hn]]; rewrite Hn in Hp, Hp' |- *; cbn [child hangs]; (split; [exact Hidx || (specialize (Hlow Hn); lia)|]).
    + by rewrite <- (pw_uniq _ _ _ _ Hwf p Hp).
    + exists p. split; [exact Hp'|exact Hlink].
  - pose proof (pw_up _ _ _ _ Hwf q m Hq) as Hu. destruct m as [|i|i j]; [done| |]; destruct Hu as [Hi Hu]; (split; [done|]).
    + apply (step_keeps root NRoot); [apply Hwf|lia|done].
    + destruct Hu as (r & Hr & Hst). exists r. split; [by apply own_own'|]. by apply (step_keeps r (NL1 i)).
Qed.

Lemma pt_wf_grown : pt_wf ram' root own' free.
Proof using G.
  pose proof G as [Hwf Hp Hdir Hidx Hnone _ Hpg Hfree _].
  pose proof (pw_root _ _ _ _ Hwf) as Hroot. constructor.
  - by apply own_own'.
  - intros q Hq. unfold grow_own in Hq. apply lookup_insert_Some in Hq as [[_ Hq]|[_ Hq]].
    + by destruct n.
    + by apply (pw_uniq _ _ _ _ Hwf).
  - intros i q Hi. rewrite (step_grown root i NRoot), (own_ne_pg root NRoot) by (done || by apply own_own').
    destruct ((p =? root) && (idx =? i)) eqn:E.
    + intros [= <-]. apply andb_true_iff in E as [E1%Z.eqb_eq E2%Z.eqb_eq].
      rewrite E1, Hroot in Hp. injection Hp as <-. rewrite <- E2. apply lookup_insert_eq.
    + intros Hs. by apply own_own', (pw_l2 _ _ _ _ Hwf).
  - intros q i j r Hq Hj. rewrite (step_grown q j (NL1 i)) by done.
    destruct ((p =? q) && (idx =? j)) eqn:E.
    + intros [= <-]. apply andb_true_iff in E as [E1%Z.eqb_eq E2%Z.eqb_eq].
      apply own_own' in Hp. rewrite E1, Hq in Hp. injection Hp as <-. rewrite <- E2.
      apply lookup_insert_eq.
    + destruct (Z.eqb_spec pg q) as [|Hne]; [done|]. intros Hs. apply own_own'.
      apply (pw_l1 _ _ _ _ Hwf q); try done. by unfold grow_own in Hq; apply lookup_insert_Some in Hq as [[? _]|[_ ?]].
  - intros q m Hq. unfold grow_own in Hq; apply lookup_insert_Some in Hq as [[<- _]|[_ Hq]].
    + split; [apply Hpg|]. split; [apply Hpg|done].
    + apply (pw_page _ _ _ _ Hwf) in Hq as (? & ? & ?). set_solver.
  - exact hangs_grown.
  - intros q m i r Hq Hm Hi. rewrite (step_grown q i m), (ent_grown q i m) by done.
    destruct (_ && _); [intros _; apply table_pte_dir, pg_small|].
    destruct (Z.eqb_spec pg q) as [|Hne]; [done|]. intros Hst. apply (pw_dir _ _ _ _ Hwf q m i r); try done.
    by unfold grow_own in Hq; apply lookup_insert_Some in Hq as [[? _]|[_ ?]].
Qed.

(** A leaf table is not the directory that grew, so its entries are as
    before. *)
Lemma leaf_grown q i j k :
  own !! q = Some (NL0 i j) -> 0 <= k < 512 -> ent ram' q k = ent ram q k.
Proof using G.
  intros Hq Hk. rewrite (ent_grown q k _ (own_own' _ _ Hq)), (own_ne_pg _ _ Hq) by done.
  pose proof G as [_ Hp Hdir _ _ _ _ _ _]. rewrite (own_ne p q n (NL0 i j)); [done..|].
  by intros ->.
Qed.

Lemma pg_empty k : 0 <= k < 512 -> ent ram' pg k = 0.
Proof using G.
  intros Hk. rewrite (ent_grown pg k (child n idx)) by (done || apply lookup_insert_eq).
  rewrite Z.eqb_refl. pose proof (gr_p _ _ _ _ _ _ _ _ _ G) as Hp.
  apply own_ne_pg in Hp. rewrite Z.eqb_sym in Hp. by rewrite Hp.
Qed.

(** Linking an empty table changes no translation. *)
Lemma pt_get_grown va : pt_get ram' root va = pt_get ram root va.
Proof using G.
  pose proof G as [Hwf Hp Hdir Hidx Hnone _ _ _ _].
  pose proof (pw_root _ _ _ _ Hwf) as Hroot.
  pose proof (PX_bounds 2 va ltac:(done)) as B2. pose proof (PX_bounds 1 va ltac:(done)) as B1.
  pose proof (PX_bounds 0 va ltac:(done)) as B0.
  rewrite !pt_get_eq, (step_grown root _ NRoot), (own_ne_pg root NRoot)
    by (done || by apply own_own').
  destruct ((p =? root) && (idx =? PX 2 va)) eqn:E.
  { apply andb_true_iff in E as [E1%Z.eqb_eq E2%Z.eqb_eq]. rewrite E1, E2 in Hnone.
    rewrite Hnone. unfold pt_step. by rewrite pg_empty. }
  destruct (pt_step ram root (PX 2 va)) as [q|] eqn:E2; [|reflexivity].
  pose proof (pw_l2 _ _ _ _ Hwf _ _ B2 E2) as Hq.
  rewrite (step_grown q _ _ (own_own' _ _ Hq)), (own_ne_pg _ _ Hq) by exact B1.
  destruct ((p =? q) && (idx =? PX 1 va)) eqn:E'.
  { apply andb_true_iff in E' as [E3%Z.eqb_eq E4%Z.eqb_eq]. rewrite E3, E4 in Hnone.
    rewrite Hnone. by apply pg_empty. }
  destruct (pt_step ram q (PX 1 va)) as [r|] eqn:E1; [|reflexivity].
  pose proof (pw_l1 _ _ _ _ Hwf _ _ _ _ Hq B1 E1) as Hr.
  exact (leaf_grown r _ _ _ Hr B0).
Qed.
End Grow.

(** * walk with allocation *)

Record pt_state (s : mem) (root : Z) (own : gmap Z node) (free : list Z) : Prop := {
  pt_ready : kmem_ready s;
  pt_kmem : kmem_ok s free;
  pt_tree : pt_wf (ms_ram s) root own free }.

(** Pages only move from the free list into the tree, and no byte outside the
    tree and the free pages changes. *)
Record pt_grow (s : mem) (own : gmap Z node) (free : list Z)
  (s' : mem) (own' : gmap Z node) (free' : list Z) : Prop := {
  pg_own : own ⊆ own';
  pg_pages : forall p, is_Some (own' !! p) \/ p ∈ free' <-> is_Some (own !! p) \/ p ∈ free;
  pg_frame : forall x, (forall p, is_Some (own !! p) \/ p ∈ free -> x < p \/ p + PGSIZE <= x) ->
    rd8 (ms_ram s') x = rd8 (ms_ram s) x;
  pg_ld : m_ld (ms_hw s') = m_ld (ms_hw s);
  pg_hw : touch (ms_hw s) = ms_hw s -> ms_hw s' = ms_hw s }.

Lemma pt_grow_refl s own free : pt_grow s own free s own free.
Proof. by constructor. Qed.

Lemma pt_grow_trans s own free s1 own1 free1 s2 own2 free2 :
  pt_grow s own free s1 own1 free1 -> pt_grow s1 own1 free1 s2 own2 free2 ->
  pt_grow s own free s2 own2 free2.
Proof.
  intros [Ho1 Hp1 Hf1 Hl1 Hh1] [Ho2 Hp2 Hf2 Hl2 Hh2]. constructor.
  - by etransitivity.
  - intros p. by rewrite Hp2, Hp1.
  - intros x Hx. rewrite Hf2, Hf1; [done..|]. intros p Hp. apply Hx. by apply Hp1.
  - congruence.
  - intros Ht. specialize (Hh1 Ht). rewrite <- Hh1. apply Hh2. by rewrite Hh1.
Qed.

(** Bytes a growing tree may write: the new page and one entry of [p]. *)
Lemma rd8_grown {ram ram1 root p idx pg n own free}
  (G : growing ram ram1 root p idx pg n own free) x :
  x < pg \/ pg + PGSIZE <= x -> x < p \/ p + PGSIZE <= x ->
  rd8 (grown ram1 p idx pg) x = rd8 ram x.
Proof.
  intros Hx Hx'. pose proof (gr_idx _ _ _ _ _ _ _ _ _ G). unfold grown.
  rewrite rd8_wr64_ne by (unfold PGSIZE in *; lia). rewrite rd8_memset by done.
  replace ((pg <=? x) && (x <? pg + PGSIZE)) with false by (symmetry; apply andb_false_iff; lia).
  by apply (gr_ram _ _ _ _ _ _ _ _ _ G).
Qed.

Lemma kmem_ok_grown {s s1 root p idx pg n own free}
  (G : growing (ms_ram s) (ms_ram s1) root p idx pg n own free) :
  kmem_ok s1 free -> bytes_ok (ms_ram s1) ->
  kmem_ok (with_ram (grown (ms_ram s1) p idx pg) s1) free.
Proof.
  intros Hk Hb. apply (kmem_ok_ext s1); [done..| |].
  - by apply bytes_ok_wr64, bytes_ok_memset.
  - intros a Ha. cbn.
    pose proof (ko_pages _ _ Hk) as Hp. rewrite Forall_forall in Hp.
    destruct (Hp a Ha) as (Haa & _ & _). pose proof G as [Hwf Hpn _ Hidx _ _ Hpg Hnf _].
    destruct (pw_page _ _ _ _ Hwf _ _ Hpn) as (Hpa & _ & Hpf).
    assert (a <> pg) by (intros ->; done). assert (a <> p) by set_solver.
    unfold grown. rewrite rd64_wr64_ne.
    + apply (rd64_other_page _ _ pg); [apply Hpg|done..|]. intros x Hx.
      rewrite rd8_memset by done. zbool; done.
    + destruct (decide (p + 8 * idx + 8 <= a \/ a + 8 <= p + 8 * idx)) as [|Hn]; [done|].
      exfalso. apply (pages_disjoint a p (Z.max a (p + 8 * idx))); try done; unfold PGSIZE; lia.
Qed.

Lemma pt_grow_grown {s s1 root p idx pg n own free}
  (G : growing (ms_ram s) (ms_ram s1) root p idx pg n own free) :
  ms_hw s1 = touch (ms_hw s) ->
  pt_grow s own (pg :: free)
    (with_ram (grown (ms_ram s1) p idx pg) s1) (grow_own n idx pg own) free.
Proof.
  intros Hhw. pose proof G as [Hwf Hpn _ _ _ _ _ _ _]. constructor.
  - apply insert_subseteq, (pg_fresh G).
  - intros q. unfold grow_own. rewrite lookup_insert. case_decide; [subst|]; set_solver.
  - intros x Hx. apply (rd8_grown G); apply Hx; [set_solver|eauto].
  - cbn. by rewrite Hhw.
  - cbn. by rewrite Hhw.
Qed.

Lemma walk_level_alloc s root own free p n va level :
  pt_state s root own free -> own !! p = Some n -> is_dir n = true -> 0 <= level ->
  (n = NRoot -> PX level va < 256) ->
  exists r s' own' free',
    walk_level va true level p s = Ret r s' /\
    pt_state s' root own' free' /\ pt_grow s own free s' own' free' /\
    (forall va', pt_get (ms_ram s') root va' = pt_get (ms_ram s) root va') /\
    (forall q m i t, own !! q = Some m -> 0 <= i < 512 ->
       pt_step (ms_ram s) q i = Some t -> pt_step (ms_ram s') q i = Some t) /\
    match r with
    | inl q => pt_step (ms_ram s') p (PX level va) = Some q /\
               own' !! q = Some (child n (PX level va))
    | inr _ => free' = []
    end.
Proof.
  intros [Hr Hk Hwf] Hp Hd Hlev Hlow. pose proof (PX_bounds level va Hlev) as Hi.
  set (idx := PX level va) in *. unfold walk_level. fold idx.
  erewrite bind_Ret; [|reflexivity]. fold (ent (ms_ram s) p idx).
  destruct (has (ent (ms_ram s) p idx) PTE_V) eqn:Ev.
  - exists (inl (PTE2PA (ent (ms_ram s) p idx))), s, own, free.
    assert (pt_step (ms_ram s) p idx = Some (PTE2PA (ent (ms_ram s) p idx))) as Es
      by (unfold pt_step; by rewrite Ev).
    split; [done|]. split; [done|]. split; [apply pt_grow_refl|]. split; [done|]. split; [done|].
    split; [done|]. destruct n as [|i|]; [| |done].
    + pose proof (pw_uniq _ _ _ _ Hwf p Hp) as ->. by apply (pw_l2 _ _ _ _ Hwf).
    + by apply (pw_l1 _ _ _ _ Hwf p).
  - cbn [negb]. destruct (kalloc_spec s free Hr Hk) as (pg & s1 & E1 & Hr1 & Hld1 & H1).
    rewrite (bind_Ret _ _ _ _ _ E1).
    destruct free as [|a free'].
    + destruct H1 as [-> ->]. cbn [Z.eqb]. exists (inr tt), (touch_mem s), own, [].
      split; [done|]. split.
      { constructor; [done| |done]. by apply kmem_ok_touch. }
      split; [by constructor|]. split; [done|]. split; done.
    + destruct H1 as (-> & Hne & Hpok & Hk1 & Hnin & _ & Hfr). apply Z.eqb_neq in Hne as Hne'.
      rewrite Hne'. assert (G : growing (ms_ram s) (ms_ram s1) root p idx a n own free').
      { constructor; try done.
        - unfold pt_step. by rewrite Ev.
        - destruct Hpok as (? & ? & ?). pose proof (ko_end _ _ Hk). lia. }
      exists (inl a), (with_ram (grown (ms_ram s1) p idx a) s1), (grow_own n idx a own), free'.
      split; [reflexivity|]. split; [|split; [|split; [|split; [|split]]]].
      * constructor; [done| |by apply (pt_wf_grown G)]. by apply (kmem_ok_grown G); [|apply Hk1].
      * apply (pt_grow_grown G). by apply (kalloc_hw s a).
      * intros va'. apply (pt_get_grown G).
      * intros q m i t Hq Hi' Hst. by apply (step_keeps G q m).
      * cbn. rewrite (step_grown G p idx n) by (done || by apply (own_own' G)).
        by rewrite !Z.eqb_refl.
      * apply lookup_insert_eq.
Qed.

Lemma walk_alloc s root own free va :
  pt_state s root own free -> 0 <= va < MAXVA ->
  exists slot s' own' free',
    walk root va true s = Ret slot s' /\
    pt_state s' root own' free' /\ pt_grow s own free s' own' free' /\
    (forall va', pt_get (ms_ram s') root va' = pt_get (ms_ram s) root va') /\
    (slot = 0 /\ free' = [] \/
     slot <> 0 /\ exists p0, slot = p0 + 8 * PX 0 va /\
       own' !! p0 = Some (NL0 (PX 2 va) (PX 1 va)) /\
       pt_slot (ms_ram s') root va = Some slot).
Proof.
  intros Hs Hva. unfold walk. replace (MAXVA <=? va) with false by lia. cbn [forl].
  destruct (walk_level_alloc s root own free root NRoot va 2 Hs) as
    (r1 & s1 & own1 & free1 & E1 & Hs1 & Hg1 & Hget1 & Hst1 & H1); [apply Hs|done|done|intros _; by apply PX_low|].
  destruct r1 as [p1|[]].
  2: { exists 0, s1, own1, free1. split; [|by eauto 10]. unfold bind. by rewrite E1. }
  destruct H1 as [Hp1 Ho1].
  destruct (walk_level_alloc s1 root own1 free1 p1 _ va 1 Hs1 Ho1) as
    (r2 & s2 & own2 & free2 & E2 & Hs2 & Hg2 & Hget2 & Hst2 & H2); [done..|].
  exists (match r2 with inl p0 => p0 + 8 * PX 0 va | inr _ => 0 end), s2, own2, free2.
  split. { unfold bind. rewrite E1. cbn [pbind]. rewrite E2. by destruct r2 as [|[]]. }
  split; [done|]. split; [by eapply pt_grow_trans|].
  split; [intros va'; by rewrite Hget2, Hget1|].
  destruct r2 as [p0|[]]; [|by left]. destruct H2 as [Hp0 Ho0]. right.
  pose proof (PX_bounds 0 va ltac:(done)).
  destruct (pw_page _ _ _ _ (pt_tree _ _ _ _ Hs2) _ _ Ho0) as (_ & ? & _).
  split; [lia|]. exists p0. split; [done|]. split; [done|].
  unfold pt_slot. rewrite (Hst2 root NRoot _ p1); [|apply Hs1|by apply PX_bounds|done].
  cbn [mbind option_bind]. rewrite Hp0. done.
Qed.

(** * Writing a leaf entry *)

Lemma px_page va :
  0 <= va < 2 ^ 39 -> va / PGSIZE = PX 2 va * 2 ^ 18 + PX 1 va * 2 ^ 9 + PX 0 va.
Proof.
  intros Hva. pose proof (va_decompose va Hva) as E.
  pose proof (Z.mod_pos_bound va PGSIZE ltac:(done)).
  symmetry. apply (Z.div_unique _ _ _ (va mod PGSIZE)); unfold PGSIZE in *; lia.
Qed.

Definition same_page (va va' : Z) : bool := va / PGSIZE =? va' / PGSIZE.

Lemma same_page_px va va' :
  0 <= va < 2 ^ 39 -> 0 <= va' < 2 ^ 39 ->
  same_page va va' = (PX 2 va =? PX 2 va') && (PX 1 va =? PX 1 va') && (PX 0 va =? PX 0 va').
Proof.
  intros H H'. unfold same_page. rewrite !px_page by done.
  pose proof (PX_bounds 2 va ltac:(done)). pose proof (PX_bounds 1 va ltac:(done)).
  pose proof (PX_bounds 0 va ltac:(done)). pose proof (PX_bounds 2 va' ltac:(done)).
  pose proof (PX_bounds 1 va' ltac:(done)). pose proof (PX_bounds 0 va' ltac:(done)).
  zbool; lia || done.
Qed.

Section Leaf.
Context (s : mem) (root p0 va v : Z) (own : gmap Z node) (free : list Z).
Context (Hs : pt_state s root own free) (Hva : 0 <= va < 2 ^ 39) (Hv : 0 <= v < 2 ^ 64).
Context (Ho : own !! p0 = Some (NL0 (PX 2 va) (PX 1 va))).
Context (Hslot : pt_slot (ms_ram s) root va = Some (p0 + 8 * PX 0 va)).
Abbreviation s' := (with_ram (wr64 (ms_ram s) (p0 + 8 * PX 0 va) v) s).

Lemma leaf_ent q m k :
  own !! q = Some m -> 0 <= k < 512 ->
  ent (ms_ram s') q k = if (p0 =? q) && (PX 0 va =? k) then v else ent (ms_ram s) q k.
Proof using All.
  intros Hq Hk. pose proof (PX_bounds 0 va ltac:(done)).
  apply ent_wr64; try done.
  - by apply (pw_page _ _ _ _ (pt_tree _ _ _ _ Hs) _ _ Ho).
  - by apply (pw_page _ _ _ _ (pt_tree _ _ _ _ Hs) _ _ Hq).
Qed.

Lemma leaf_step q m k :
  own !! q = Some m -> is_dir m = true -> 0 <= k < 512 ->
  pt_step (ms_ram s') q k = pt_step (ms_ram s) q k.
Proof using All.
  intros Hq Hm Hk. unfold pt_step. rewrite (leaf_ent q m k Hq Hk).
  assert ((p0 =? q) = false) as ->; [|done].
  apply Z.eqb_neq. intros E. rewrite E, Hq in Ho. by injection Ho as ->.
Qed.

Lemma leaf_state : pt_state s' root own free.
Proof using All.
  pose proof Hs as [Hr Hk Hwf]. constructor; [done| |].
  - apply (kmem_ok_ext s); [done..|by apply bytes_ok_wr64, Hk|].
    intros a Ha. cbn. apply rd64_wr64_ne. pose proof (ko_pages _ _ Hk) as Hp.
    rewrite Forall_forall in Hp. destruct (Hp a Ha) as (Haa & _).
    destruct (pw_page _ _ _ _ Hwf _ _ Ho) as (Hpa & _ & Hpf).
    pose proof (PX_bounds 0 va ltac:(done)).
    destruct (decide (p0 + 8 * PX 0 va + 8 <= a \/ a + 8 <= p0 + 8 * PX 0 va)) as [|Hn]; [done|].
    exfalso. apply (pages_disjoint a p0 (Z.max a (p0 + 8 * PX 0 va)));
      try done; [set_solver|unfold PGSIZE; lia..].
  - constructor; try apply Hwf.
    + intros i q Hi Hst. rewrite (leaf_step root NRoot) in Hst by (done || apply Hwf).
      by apply (pw_l2 _ _ _ _ Hwf).
    + intros p i j q Hp Hj Hst. rewrite (leaf_step p (NL1 i)) in Hst by done.
      by apply (pw_l1 _ _ _ _ Hwf p).
    + intros p n Hp. pose proof (pw_up _ _ _ _ Hwf p n Hp) as Hu. destruct n as [|i|i j]; [done| |].
      * cbn. rewrite (leaf_step root NRoot) by (done || apply Hwf || (destruct Hu; lia)). done.
      * destruct Hu as (Hj & q & Hq & Hst). split; [done|]. exists q. rewrite (leaf_step q (NL1 i)) by done. done.
    + intros p n i q Hp Hn Hi Hst. rewrite (leaf_step p n) in Hst by done.
      assert (ent (ms_ram s') p i = ent (ms_ram s) p i) as ->; [|by apply (pw_dir _ _ _ _ Hwf p n i q)].
      rewrite (leaf_ent p n i Hp Hi). assert ((p0 =? p) = false) as ->; [|done].
      apply Z.eqb_neq. intros E. rewrite E, Hp in Ho. by injection Ho as ->.
Qed.

Lemma leaf_grow : pt_grow s own free s' own free.
Proof using All.
  constructor; [done..| |done|done]. intros x Hx. cbn. apply rd8_wr64_ne.
  pose proof (PX_bounds 0 va ltac:(done)).
  destruct (Hx p0) as [?|?]; [by eauto| |]; unfold PGSIZE in *; lia.
Qed.

(** The translation changes on the page of [va] only. *)
Lemma leaf_get va' :
  0 <= va' < 2 ^ 39 ->
  pt_get (ms_ram s') root va' = if same_page va va' then v else pt_get (ms_ram s) root va'.
Proof using All.
  intros Hva'. pose proof Hs as [_ _ Hwf]. pose proof (pw_root _ _ _ _ Hwf) as Hroot.
  pose proof (PX_bounds 2 va' ltac:(done)) as B2. pose proof (PX_bounds 1 va' ltac:(done)) as B1.
  pose proof (PX_bounds 0 va' ltac:(done)) as B0.
  rewrite !pt_get_eq, (leaf_step root NRoot _ Hroot eq_refl B2).
  rewrite same_page_px by done. pose proof Hslot as Hsl. unfold pt_slot in Hsl.
  destruct (pt_step (ms_ram s) root (PX 2 va)) as [p1|] eqn:E2; [|done].
  cbn [mbind option_bind] in Hsl.
  destruct (pt_step (ms_ram s) p1 (PX 1 va)) as [p0'|] eqn:E1; [|done].
  cbn [mbind option_bind] in Hsl. assert (p0' = p0) as -> by (injection Hsl; lia).
  destruct (Z.eqb_spec (PX 2 va) (PX 2 va')) as [E2'|N2]; cbn [andb].
  - rewrite <- E2', E2. rewrite E2' in E2. pose proof (pw_l2 _ _ _ _ Hwf _ _ B2 E2) as Hp1.
    rewrite (leaf_step p1 _ _ Hp1 eq_refl B1).
    destruct (Z.eqb_spec (PX 1 va) (PX 1 va')) as [E1'|N1]; cbn [andb].
    + rewrite <- E1', E1. rewrite (leaf_ent p0 _ _ Ho B0), Z.eqb_refl. done.
    + destruct (pt_step (ms_ram s) p1 (PX 1 va')) as [r|] eqn:Er; [|done].
      pose proof (pw_l1 _ _ _ _ Hwf _ _ _ _ Hp1 B1 Er) as Hr. rewrite (leaf_ent r _ _ Hr B0).
      assert ((p0 =? r) = false) as ->; [|done]. apply Z.eqb_neq. intros E. rewrite <- E in Hr. congruence.
  - destruct (pt_step (ms_ram s) root (PX 2 va')) as [q|] eqn:Eq; [|done].
    pose proof (pw_l2 _ _ _ _ Hwf _ _ B2 Eq) as Hq. rewrite (leaf_step q _ _ Hq eq_refl B1).
    destruct (pt_step (ms_ram s) q (PX 1 va')) as [r|] eqn:Er; [|done].
    pose proof (pw_l1 _ _ _ _ Hwf _ _ _ _ Hq B1 Er) as Hr. rewrite (leaf_ent r _ _ Hr B0).
    assert ((p0 =? r) = false) as ->; [|done]. apply Z.eqb_neq. intros E. rewrite <- E in Hr. congruence.
Qed.
End Leaf.

(** * mappages *)

Definition leaf_pte (pa perm : Z) : Z := Z.lor (Z.lor (PA2PTE pa) perm) PTE_V.

Lemma lor_bound x y n : 0 <= n -> 0 <= x < 2 ^ n -> 0 <= y < 2 ^ n -> 0 <= Z.lor x y < 2 ^ n.
Proof.
  intros Hn Hx Hy. assert (Z.lor x y mod 2 ^ n = Z.lor x y) as <-.
  - rewrite <- Z.land_ones, Z.land_lor_distr_l, !Z.land_ones, !Z.mod_small by done. done.
  - apply Z.mod_pos_bound. lia.
Qed.

Section LeafPte.
Context (pa perm : Z) (Hpa : 0 <= pa < 2 ^ 56) (Hperm : 0 <= perm < 2 ^ 10).

Lemma leaf_pte_flags : leaf_pte pa perm = Z.lor (PA2PTE pa) (Z.lor perm PTE_V) /\
  0 <= Z.lor perm PTE_V < 2 ^ 10.
Proof using Hperm.
  split; [unfold leaf_pte; by rewrite Z.lor_assoc|]. by apply lor_bound.
Qed.

Lemma leaf_pte_range : 0 <= leaf_pte pa perm < 2 ^ 64.
Proof using Hpa Hperm.
  destruct leaf_pte_flags as [-> Hf]. rewrite pte_compose by done.
  pose proof (Z.div_pos pa (2 ^ 12)). pose proof (Z.div_lt_upper_bound pa (2 ^ 12) (2 ^ 44)). lia.
Qed.

Lemma leaf_pte_page : pa mod PGSIZE = 0 -> PTE2PA (leaf_pte pa perm) = pa.
Proof using Hpa Hperm.
  intros Ha. destruct leaf_pte_flags as [-> Hf]. by apply PTE2PA_compose.
Qed.

Lemma leaf_pte_valid : has (leaf_pte pa perm) PTE_V = true.
Proof. by apply has_lor. Qed.
End LeafPte.

Lemma same_page_aligned a va :
  a mod PGSIZE = 0 -> same_page a va = (a <=? va) && (va <? a + PGSIZE).
Proof.
  intros Ha. unfold same_page, PGSIZE in *.
  pose proof (Z.div_mod a 4096 ltac:(done)). pose proof (Z.div_mod va 4096 ltac:(done)).
  pose proof (Z.mod_pos_bound va 4096 ltac:(done)). zbool; lia || done.
Qed.

(** The physical page that backs [va] when a run of pages from [a] is mapped to
    a run from [pa]. *)
Definition map_page (a pa va : Z) : Z := pa + (va / PGSIZE * PGSIZE - a).

(** The translation after [k] pages from [a] were mapped to [pa]. *)
Definition mapped_to (ram ram' : gmap Z Z) (root a pa perm : Z) (k : nat) : Prop :=
  forall va, 0 <= va < 2 ^ 39 ->
    pt_get ram' root va =
    if (a <=? va) && (va <? a + Z.of_nat k * PGSIZE)
    then leaf_pte (map_page a pa va) perm else pt_get ram root va.

Lemma map_page_first a pa va :
  a mod PGSIZE = 0 -> a <= va < a + PGSIZE -> map_page a pa va = pa.
Proof.
  intros Ha Hv. unfold map_page, PGSIZE in *.
  pose proof (Z.div_mod a 4096 ltac:(done)).
  replace (va / 4096) with (a / 4096); [lia|]. apply (Z.div_unique _ _ _ (va - a)); lia.
Qed.

Lemma mappages_step s root own free a pa perm last :
  pt_state s root own free ->
  a mod PGSIZE = 0 -> 0 <= a < MAXVA -> 0 <= pa < 2 ^ 56 -> 0 <= perm < 2 ^ 10 ->
  has (pt_get (ms_ram s) root a) PTE_V = false ->
  exists s' own' free', pt_state s' root own' free' /\ pt_grow s own free s' own' free' /\
    (mappages_body root last perm (a, pa) s = Ret (inr (-1)) s' /\
       mapped_to (ms_ram s) (ms_ram s') root a pa perm 0 /\ free' = [] \/
     mappages_body root last perm (a, pa) s =
       Ret (if a =? last then inr 0 else inl (u64 (a + PGSIZE), u64 (pa + PGSIZE))) s' /\
       mapped_to (ms_ram s) (ms_ram s') root a pa perm 1).
Proof.
  intros Hs Ha Hva Hpa Hperm Hun. unfold mappages_body.
  destruct (walk_alloc s root own free a Hs Hva) as
    (slot & s1 & own1 & free1 & E1 & Hs1 & Hg1 & Hget1 & [[-> Hf]|(Hne & p0 & -> & Ho & Hslot)]).
  - exists s1, own1, free1. split; [done|]. split; [done|]. left.
    rewrite (bind_Ret _ _ _ _ _ E1). split; [done|]. split; [|done].
    intros va _. rewrite Hget1. unfold PGSIZE. zbool; done.
  - assert (0 <= a < 2 ^ 39) as Ha39 by (change MAXVA with (2 ^ 38) in Hva; lia).
    pose proof (leaf_pte_range pa perm Hpa Hperm) as Hv.
    exists (with_ram (wr64 (ms_ram s1) (p0 + 8 * PX 0 a) (leaf_pte pa perm)) s1), own1, free1.
    split; [by apply leaf_state|]. split.
    { eapply pt_grow_trans; [exact Hg1|]. by apply (leaf_grow s1 root p0 a _ _ _ Hs1 Ha39 Hv Ho Hslot). }
    right. rewrite (bind_Ret _ _ _ _ _ E1). apply Z.eqb_neq in Hne. rewrite Hne.
    assert (rd64 (ms_ram s1) (p0 + 8 * PX 0 a) = pt_get (ms_ram s) root a) as Ev.
    { rewrite <- Hget1. unfold pt_get. by rewrite Hslot. }
    erewrite bind_Ret; [|reflexivity]. rewrite Ev, Hun. erewrite bind_Ret; [|reflexivity].
    split; [by destruct (a =? last)|].
    intros va Hva'. rewrite (leaf_get s1 root p0 a _ _ _ Hs1 Ha39 Hv Ho Hslot va Hva').
    rewrite same_page_aligned, Hget1 by done.
    replace (a + Z.of_nat 1 * PGSIZE) with (a + PGSIZE) by lia.
    destruct ((a <=? va) && (va <? a + PGSIZE)) eqn:E; [|done].
    rewrite map_page_first; [done..|]. lia.
Qed.

Lemma mapped_to_cons r r1 r2 root a pa perm k :
  mapped_to r r1 root a pa perm 1 ->
  mapped_to r1 r2 root (a + PGSIZE) (pa + PGSIZE) perm k ->
  mapped_to r r2 root a pa perm (S k).
Proof.
  intros H1 H2 va Hva. rewrite H2, H1 by done.
  replace (map_page (a + PGSIZE) (pa + PGSIZE) va) with (map_page a pa va)
    by (unfold map_page; lia).
  unfold PGSIZE. zbool; done.
Qed.

Lemma u64_small z : 0 <= z < 2 ^ 64 -> u64 z = z.
Proof. apply Z.mod_small. Qed.

Lemma mappages_loop n s root own free a pa perm last :
  (0 < n)%nat -> pt_state s root own free ->
  a mod PGSIZE = 0 -> 0 <= a -> a + Z.of_nat n * PGSIZE <= MAXVA ->
  0 <= pa -> pa + Z.of_nat n * PGSIZE <= 2 ^ 56 -> 0 <= perm < 2 ^ 10 ->
  (forall i : nat, (i < n)%nat ->
     has (pt_get (ms_ram s) root (a + Z.of_nat i * PGSIZE)) PTE_V = false) ->
  last = a + (Z.of_nat n - 1) * PGSIZE ->
  exists r k s' own' free',
    loop n (mappages_body root last perm) (a, pa) s = Ret r s' /\
    pt_state s' root own' free' /\ pt_grow s own free s' own' free' /\
    mapped_to (ms_ram s) (ms_ram s') root a pa perm k /\
    (r = 0 /\ k = n \/ r = -1 /\ (k < n)%nat /\ free' = []).
Proof.
  revert s own free a pa. induction n as [|n IH]; [lia|].
  intros s own free a pa _ Hs Ha Ha0 Hend Hpa Hpend Hperm Hun Hlast.
  change MAXVA with (2 ^ 38) in *. unfold PGSIZE in Hend, Hpend.
  destruct (mappages_step s root own free a pa perm last) as
    (s1 & own1 & free1 & Hs1 & Hg1 & [(E & Hm & Hf)|(E & Hm)]); try done.
  { change MAXVA with (2 ^ 38). lia. }
  { lia. }
  { specialize (Hun O ltac:(lia)). by rewrite Z.add_0_r in Hun. }
  - exists (-1), O, s1, own1, free1. cbn [loop]. rewrite (bind_Ret _ _ _ _ _ E).
    split; [done|]. split; [done|]. split; [done|]. split; [done|]. right. split; [done|].
    split; [lia|done].
  - cbn [loop]. rewrite (bind_Ret _ _ _ _ _ E). destruct (Z.eqb_spec a last) as [El|El].
    + exists 0, 1%nat, s1, own1, free1. split; [done|]. split; [done|]. split; [done|].
      split; [done|]. left. split; [done|]. unfold PGSIZE in *. lia.
    + assert (0 < n)%nat as Hn by (destruct n; [|lia]; unfold PGSIZE in *; lia).
      rewrite !u64_small by (unfold PGSIZE in *; lia).
      destruct (IH s1 own1 free1 (a + PGSIZE) (pa + PGSIZE) Hn Hs1) as
        (r & k & s2 & own2 & free2 & E2 & Hs2 & Hg2 & Hm2 & Hr); try done.
      * unfold PGSIZE in *. rewrite <- Zplus_mod_idemp_l, Ha. done.
      * unfold PGSIZE. lia.
      * change MAXVA with (2 ^ 38). unfold PGSIZE. lia.
      * unfold PGSIZE. lia.
      * unfold PGSIZE. lia.
      * intros i Hi. rewrite Hm by (unfold PGSIZE; lia).
        replace (a + PGSIZE + Z.of_nat i * PGSIZE) with (a + Z.of_nat (S i) * PGSIZE)
          by (unfold PGSIZE; lia).
        rewrite (proj2 (Z.ltb_ge (a + Z.of_nat (S i) * PGSIZE) (a + Z.of_nat 1 * PGSIZE)))
          by (unfold PGSIZE; lia).
        rewrite andb_false_r. apply Hun. lia.
      * unfold PGSIZE in *. lia.
      * exists r, (S k), s2, own2, free2. split; [done|]. split; [done|].
        split; [by eapply pt_grow_trans|]. split; [by eapply mapped_to_cons|].
        destruct Hr as [[-> ->]|(-> & ? & ?)]; [left; lia|right; split; [done|split; [lia|done]]].
Qed.

(** C31. [mappages] on a range of unmapped pages returns 0 with exactly that range
    mapped, page by page, to the physical range with the given permissions, or
    returns -1 because memory ran out, with a proper prefix mapped; in both cases
    every other translation is unchanged, the page table stays well formed, and
    only table pages and free pages were written. *)
Theorem mappages_correct s root own free va size pa perm :
  pt_state s root own free ->
  va mod PGSIZE = 0 -> size mod PGSIZE = 0 -> 0 < size -> 0 <= va -> va + size <= MAXVA ->
  0 <= pa -> pa + size <= 2 ^ 56 -> 0 <= perm < 2 ^ 10 ->
  (forall a, va <= a < va + size -> has (pt_get (ms_ram s) root a) PTE_V = false) ->
  exists r k s' own' free',
    mappages root va size pa perm s = Ret r s' /\
    pt_state s' root own' free' /\ pt_grow s own free s' own' free' /\
    mapped_to (ms_ram s) (ms_ram s') root va pa perm k /\
    (r = 0 /\ Z.of_nat k * PGSIZE = size \/
     r = -1 /\ Z.of_nat k * PGSIZE < size /\ free' = []).
Proof.
  intros Hs Hva Hsz Hpos Hva0 Hend Hpa Hpend Hperm Hun. unfold mappages.
  rewrite Hva, Hsz. replace (size =? 0) with false by lia. cbn [Z.eqb negb].
  apply Z_div_exact_full_2 in Hsz as Esz; [|done].
  assert (0 < size / PGSIZE) by (unfold PGSIZE in *; lia).
  change MAXVA with (2 ^ 38) in Hend. rewrite u64_small by (unfold PGSIZE in *; lia).
  destruct (mappages_loop (Z.to_nat (size / PGSIZE)) s root own free va pa perm
    (va + size - PGSIZE)) as (r & k & s' & own' & free' & E & Hs' & Hg & Hm & Hr); try done.
  - lia.
  - change MAXVA with (2 ^ 38). rewrite Z2Nat.id by lia. lia.
  - rewrite Z2Nat.id by lia. lia.
  - intros i Hi. apply Hun. unfold PGSIZE in *. lia.
  - rewrite Z2Nat.id by lia. lia.
  - exists r, k, s', own', free'. split; [done|]. split; [done|]. split; [done|]. split; [done|].
    unfold PGSIZE in *. destruct Hr as [[-> ->]|(-> & ? & ?)]; [left; lia|right; split; [done|lia || split; [lia|done]]].
Qed.

(** * Examples *)

(** An empty page table at 0x80030000, with two free pages. *)
Definition demo_root : Z := 0x80030000.
Definition demo_own : gmap Z node := {[ demo_root := NRoot ]}.

Lemma demo_ent i : 0 <= i < 512 -> ent (ms_ram demo_mem) demo_root i = 0.
Proof.
  intros Hi. unfold ent, demo_root. cbn [ms_ram demo_mem].
  rewrite !rd64_wr64_ne by lia. apply rd64_zero. intros x _. reflexivity.
Qed.

Lemma demo_pt_state : pt_state demo_mem demo_root demo_own [0x80025000; 0x80026000].
Proof.
  split; [apply demo_kmem_ready|apply demo_kmem_ok|]. unfold demo_own. split.
  - apply lookup_singleton_eq.
  - intros p Hp. by apply lookup_singleton_Some in Hp as [<- _].
  - intros i q Hi. unfold pt_step. by rewrite demo_ent.
  - intros p i j q Hp. by apply lookup_singleton_Some in Hp as [_ ?].
  - intros p n Hp. apply lookup_singleton_Some in Hp as [<- _].
    split_and!; [reflexivity|done|done|]. unfold demo_root. set_solver.
  - intros p n Hp. by apply lookup_singleton_Some in Hp as [<- <-].
  - intros p n i q Hp _ Hi. apply lookup_singleton_Some in Hp as [<- _]. unfold pt_step. by rewrite demo_ent.
Qed.

Lemma walkaddr_correct_witness :
  walkaddr demo_root 0x1000 demo_mem =
  Ret (if (0x1000 <? MAXVA) && has (pt_get (ms_ram demo_mem) demo_root 0x1000) PTE_V &&
          has (pt_get (ms_ram demo_mem) demo_root 0x1000) PTE_U
       then PTE2PA (pt_get (ms_ram demo_mem) demo_root 0x1000) else 0) demo_mem.
Proof.
  apply (walkaddr_correct demo_root 0x1000 demo_mem demo_own [0x80025000; 0x80026000]); [|lia].
  apply demo_pt_state.
Defined.

Lemma mappages_correct_witness :
  exists r k s' own' free',
    mappages demo_root 0x1000 PGSIZE 0x80040000 PTE_R demo_mem = Ret r s' /\
    pt_state s' demo_root own' free' /\
    pt_grow demo_mem demo_own [0x80025000; 0x80026000] s' own' free' /\
    mapped_to (ms_ram demo_mem) (ms_ram s') demo_root 0x1000 0x80040000 PTE_R k /\
    (r = 0 /\ Z.of_nat k * PGSIZE = PGSIZE \/
     r = -1 /\ Z.of_nat k * PGSIZE < PGSIZE /\ free' = []).
Proof.
  apply (mappages_correct demo_mem demo_root demo_own [0x80025000; 0x80026000]
    0x1000 PGSIZE 0x80040000 PTE_R).
  - apply demo_pt_state.
  - reflexivity.
  - reflexivity.
  - reflexivity.
  - lia.
  - vm_compute. done.
  - lia.
  - vm_compute. done.
  - vm_compute. done.
  - intros a Ha. rewrite pt_get_eq. unfold pt_step. rewrite demo_ent; [reflexivity|].
    by apply PX_bounds.
Defined.
