(* ===== verification/Proc.v ===== *)
(** kernel/proc.h and the part of kernel/proc.c that works on the process table
    alone: the table, locking and looking up processes, sleeping and waking,
    killing, giving up the CPU, and page tables and memory of a process.

    [pstate] is the kernel state up to this layer.  A [struct proc *] is an
    index of the table; [myproc] is [None] for the null pointer and a
    dereference of it is an error outcome.  [swtch] hands the state to the rest
    of the system and resumes with the state it hands back. *)
From S2P Require Import Prelude Riscv Spinlock Memory Kstring Kalloc Vm.

(** * proc.h *)

Definition NOFILE : nat := 16.

Inductive sched_policy := RR | FIFO | SJF | STCF | MLFQ.

Inductive procstate := UNUSED | USED | SLEEPING | RUNNABLE | RUNNING | ZOMBIE.
#[export] Instance procstate_eq_dec : EqDecision procstate.
Proof. solve_decision. Defined.

(** Addresses processes sleep on. *)
Inductive chan :=
| ChNull | ChTicks | ChProc (i : nat) | ChSleep (id : sleepid) | ChLog
| ChPipeRead (pi : Z) | ChPipeWrite (pi : Z) | ChCons | ChTx | ChDiskFree | ChBuf (i : nat).
#[export] Instance chan_eq_dec : EqDecision chan.
Proof. solve_decision. Defined.

Definition chan_of (p : option nat) : chan :=
  match p with Some i => ChProc i | None => ChNull end.

(** Saved registers for kernel context switches; [ctx_s] holds s0 to s11. *)
Record context := Context { ctx_ra : Z; ctx_sp : Z; ctx_s : list Z }.
Definition zero_context : context := Context 0 0 (replicate 12 0).

(** The fields of [struct trapframe], 8 bytes each in this order, and their
    byte offsets in the trapframe page. *)
Inductive trapframe :=
| TF_kernel_satp | TF_kernel_sp | TF_kernel_trap | TF_epc | TF_kernel_hartid | TF_ra |
TF_sp | TF_gp | TF_tp | TF_t0 | TF_t1 | TF_t2 | TF_s0 | TF_s1 | TF_a0 | TF_a1 | TF_a2 |
TF_a3 | TF_a4 | TF_a5 | TF_a6 | TF_a7 | TF_s2 | TF_s3 | TF_s4 | TF_s5 | TF_s6 | TF_s7 |
TF_s8 | TF_s9 | TF_s10 | TF_s11 | TF_t3 | TF_t4 | TF_t5 | TF_t6.
Definition tf_index (f : trapframe) : Z :=
  match f with
  | TF_kernel_satp => 0 | TF_kernel_sp => 1 | TF_kernel_trap => 2 | TF_epc => 3 |
  TF_kernel_hartid => 4 | TF_ra => 5 | TF_sp => 6 | TF_gp => 7 | TF_tp => 8 | TF_t0 => 9 |
  TF_t1 => 10 | TF_t2 => 11 | TF_s0 => 12 | TF_s1 => 13 | TF_a0 => 14 | TF_a1 => 15 |
  TF_a2 => 16 | TF_a3 => 17 | TF_a4 => 18 | TF_a5 => 19 | TF_a6 => 20 | TF_a7 => 21 |
  TF_s2 => 22 | TF_s3 => 23 | TF_s4 => 24 | TF_s5 => 25 | TF_s6 => 26 | TF_s7 => 27 |
  TF_s8 => 28 | TF_s9 => 29 | TF_s10 => 30 | TF_s11 => 31 | TF_t3 => 32 | TF_t4 => 33 |
  TF_t5 => 34 | TF_t6 => 35
  end.
Definition tf_off (f : trapframe) : Z := 8 * tf_index f.
Definition TF_size : Z := 288.

(** [struct proc]; its lock is [ProcLock] of its index. *)
Record proc := Proc {
  p_state : procstate;
  p_chan : chan;
  p_killed : Z;
  p_xstate : Z;
  p_pid : Z;
  p_parent : option nat;
  p_kstack : Z;
  p_sz : Z;
  p_pagetable : Z;
  p_trapframe : Z;
  p_context : context;
  p_ofile : list (option nat);
  p_cwd : option nat;
  p_name : list Z;
  p_ctime : Z;
  p_etime : Z;
  p_rtime : Z;
  p_stime : Z;
  p_ltime : Z;
  p_time_left : Z;
  p_expected_runtime : Z;
  p_priority : Z;
  p_queue_level : Z;
  p_time_slice : Z;
  p_demote : Z }.

Definition set_state (v : procstate) (p : proc) : proc :=
  Proc v (p_chan p) (p_killed p) (p_xstate p) (p_pid p) (p_parent p) (p_kstack p) (p_sz p)
    (p_pagetable p) (p_trapframe p) (p_context p) (p_ofile p) (p_cwd p) (p_name p)
    (p_ctime p) (p_etime p) (p_rtime p) (p_stime p) (p_ltime p) (p_time_left p)
    (p_expected_runtime p) (p_priority p) (p_queue_level p) (p_time_slice p) (p_demote p).
Definition set_chan (v : chan) (p : proc) : proc :=
  Proc (p_state p) v (p_killed p) (p_xstate p) (p_pid p) (p_parent p) (p_kstack p) (p_sz
    p) (p_pagetable p) (p_trapframe p) (p_context p) (p_ofile p) (p_cwd p) (p_name p)
    (p_ctime p) (p_etime p) (p_rtime p) (p_stime p) (p_ltime p) (p_time_left p)
    (p_expected_runtime p) (p_priority p) (p_queue_level p) (p_time_slice p) (p_demote p).
Definition set_killed (v : Z) (p : proc) : proc :=
  Proc (p_state p) (p_chan p) v (p_xstate p) (p_pid p) (p_parent p) (p_kstack p) (p_sz p)
    (p_pagetable p) (p_trapframe p) (p_context p) (p_ofile p) (p_cwd p) (p_name p)
    (p_ctime p) (p_etime p) (p_rtime p) (p_stime p) (p_ltime p) (p_time_left p)
    (p_expected_runtime p) (p_priority p) (p_queue_level p) (p_time_slice p) (p_demote p).
Definition set_xstate (v : Z) (p : proc) : proc :=
  Proc (p_state p) (p_chan p) (p_killed p) v (p_pid p) (p_parent p) (p_kstack p) (p_sz p)
    (p_pagetable p) (p_trapframe p) (p_context p) (p_ofile p) (p_cwd p) (p_name p)
    (p_ctime p) (p_etime p) (p_rtime p) (p_stime p) (p_ltime p) (p_time_left p)
    (p_expected_runtime p) (p_priority p) (p_queue_level p) (p_time_slice p) (p_demote p).
Definition set_pid (v : Z) (p : proc) : proc :=
  Proc (p_state p) (p_chan p) (p_killed p) (p_xstate p) v (p_parent p) (p_kstack p) (p_sz
    p) (p_pagetable p) (p_trapframe p) (p_context p) (p_ofile p) (p_cwd p) (p_name p)
    (p_ctime p) (p_etime p) (p_rtime p) (p_stime p) (p_ltime p) (p_time_left p)
    (p_expected_runtime p) (p_priority p) (p_queue_level p) (p_time_slice p) (p_demote p).
Definition set_parent (v : option nat) (p : proc) : proc :=
  Proc (p_state p) (p_chan p) (p_killed p) (p_xstate p) (p_pid p) v (p_kstack p) (p_sz p)
    (p_pagetable p) (p_trapframe p) (p_context p) (p_ofile p) (p_cwd p) (p_name p)
    (p_ctime p) (p_etime p) (p_rtime p) (p_stime p) (p_ltime p) (p_time_left p)
    (p_expected_runtime p) (p_priority p) (p_queue_level p) (p_time_slice p) (p_demote p).
Definition set_kstack (v : Z) (p : proc) : proc :=
  Proc (p_state p) (p_chan p) (p_killed p) (p_xstate p) (p_pid p) (p_parent p) v (p_sz p)
    (p_pagetable p) (p_trapframe p) (p_context p) (p_ofile p) (p_cwd p) (p_name p)
    (p_ctime p) (p_etime p) (p_rtime p) (p_stime p) (p_ltime p) (p_time_left p)
    (p_expected_runtime p) (p_priority p) (p_queue_level p) (p_time_slice p) (p_demote p).
Definition set_sz (v : Z) (p : proc) : proc :=
  Proc (p_state p) (p_chan p) (p_killed p) (p_xstate p) (p_pid p) (p_parent p) (p_kstack
    p) v (p_pagetable p) (p_trapframe p) (p_context p) (p_ofile p) (p_cwd p) (p_name p)
    (p_ctime p) (p_etime p) (p_rtime p) (p_stime p) (p_ltime p) (p_time_left p)
    (p_expected_runtime p) (p_priority p) (p_queue_level p) (p_time_slice p) (p_demote p).
Definition set_pagetable (v : Z) (p : proc) : proc :=
  Proc (p_state p) (p_chan p) (p_killed p) (p_xstate p) (p_pid p) (p_parent p) (p_kstack
    p) (p_sz p) v (p_trapframe p) (p_context p) (p_ofile p) (p_cwd p) (p_name p) (p_ctime
    p) (p_etime p) (p_rtime p) (p_stime p) (p_ltime p) (p_time_left p) (p_expected_runtime
    p) (p_priority p) (p_queue_level p) (p_time_slice p) (p_demote p).
Definition set_trapframe (v : Z) (p : proc) : proc :=
  Proc (p_state p) (p_chan p) (p_killed p) (p_xstate p) (p_pid p) (p_parent p) (p_kstack
    p) (p_sz p) (p_pagetable p) v (p_context p) (p_ofile p) (p_cwd p) (p_name p) (p_ctime
    p) (p_etime p) (p_rtime p) (p_stime p) (p_ltime p) (p_time_left p) (p_expected_runtime
    p) (p_priority p) (p_queue_level p) (p_time_slice p) (p_demote p).
Definition set_context (v : context) (p : proc) : proc :=
  Proc (p_state p) (p_chan p) (p_killed p) (p_xstate p) (p_pid p) (p_parent p) (p_kstack
    p) (p_sz p) (p_pagetable p) (p_trapframe p) v (p_ofile p) (p_cwd p) (p_name p)
    (p_ctime p) (p_etime p) (p_rtime p) (p_stime p) (p_ltime p) (p_time_left p)
    (p_expected_runtime p) (p_priority p) (p_queue_level p) (p_time_slice p) (p_demote p).
Definition set_ofile (v : list (option nat)) (p : proc) : proc :=
  Proc (p_state p) (p_chan p) (p_killed p) (p_xstate p) (p_pid p) (p_parent p) (p_kstack
    p) (p_sz p) (p_pagetable p) (p_trapframe p) (p_context p) v (p_cwd p) (p_name p)
    (p_ctime p) (p_etime p) (p_rtime p) (p_stime p) (p_ltime p) (p_time_left p)
    (p_expected_runtime p) (p_priority p) (p_queue_level p) (p_time_slice p) (p_demote p).
Definition set_cwd (v : option nat) (p : proc) : proc :=
  Proc (p_state p) (p_chan p) (p_killed p) (p_xstate p) (p_pid p) (p_parent p) (p_kstack
    p) (p_sz p) (p_pagetable p) (p_trapframe p) (p_context p) (p_ofile p) v (p_name p)
    (p_ctime p) (p_etime p) (p_rtime p) (p_stime p) (p_ltime p) (p_time_left p)
    (p_expected_runtime p) (p_priority p) (p_queue_level p) (p_time_slice p) (p_demote p).
Definition set_name (v : list Z) (p : proc) : proc :=
  Proc (p_state p) (p_chan p) (p_killed p) (p_xstate p) (p_pid p) (p_parent p) (p_kstack
    p) (p_sz p) (p_pagetable p) (p_trapframe p) (p_context p) (p_ofile p) (p_cwd p) v
    (p_ctime p) (p_etime p) (p_rtime p) (p_stime p) (p_ltime p) (p_time_left p)
    (p_expected_runtime p) (p_priority p) (p_queue_level p) (p_time_slice p) (p_demote p).
Definition set_ctime (v : Z) (p : proc) : proc :=
  Proc (p_state p) (p_chan p) (p_killed p) (p_xstate p) (p_pid p) (p_parent p) (p_kstack
    p) (p_sz p) (p_pagetable p) (p_trapframe p) (p_context p) (p_ofile p) (p_cwd p)
    (p_name p) v (p_etime p) (p_rtime p) (p_stime p) (p_ltime p) (p_time_left p)
    (p_expected_runtime p) (p_priority p) (p_queue_level p) (p_time_slice p) (p_demote p).
Definition set_etime (v : Z) (p : proc) : proc :=
  Proc (p_state p) (p_chan p) (p_killed p) (p_xstate p) (p_pid p) (p_parent p) (p_kstack
    p) (p_sz p) (p_pagetable p) (p_trapframe p) (p_context p) (p_ofile p) (p_cwd p)
    (p_name p) (p_ctime p) v (p_rtime p) (p_stime p) (p_ltime p) (p_time_left p)
    (p_expected_runtime p) (p_priority p) (p_queue_level p) (p_time_slice p) (p_demote p).
Definition set_rtime (v : Z) (p : proc) : proc :=
  Proc (p_state p) (p_chan p) (p_killed p) (p_xstate p) (p_pid p) (p_parent p) (p_kstack
    p) (p_sz p) (p_pagetable p) (p_trapframe p) (p_context p) (p_ofile p) (p_cwd p)
    (p_name p) (p_ctime p) (p_etime p) v (p_stime p) (p_ltime p) (p_time_left p)
    (p_expected_runtime p) (p_priority p) (p_queue_level p) (p_time_slice p) (p_demote p).
Definition set_stime (v : Z) (p : proc) : proc :=
  Proc (p_state p) (p_chan p) (p_killed p) (p_xstate p) (p_pid p) (p_parent p) (p_kstack
    p) (p_sz p) (p_pagetable p) (p_trapframe p) (p_context p) (p_ofile p) (p_cwd p)
    (p_name p) (p_ctime p) (p_etime p) (p_rtime p) v (p_ltime p) (p_time_left p)
    (p_expected_runtime p) (p_priority p) (p_queue_level p) (p_time_slice p) (p_demote p).
Definition set_ltime (v : Z) (p : proc) : proc :=
  Proc (p_state p) (p_chan p) (p_killed p) (p_xstate p) (p_pid p) (p_parent p) (p_kstack
    p) (p_sz p) (p_pagetable p) (p_trapframe p) (p_context p) (p_ofile p) (p_cwd p)
    (p_name p) (p_ctime p) (p_etime p) (p_rtime p) (p_stime p) v (p_time_left p)
    (p_expected_runtime p) (p_priority p) (p_queue_level p) (p_time_slice p) (p_demote p).
Definition set_time_left (v : Z) (p : proc) : proc :=
  Proc (p_state p) (p_chan p) (p_killed p) (p_xstate p) (p_pid p) (p_parent p) (p_kstack
    p) (p_sz p) (p_pagetable p) (p_trapframe p) (p_context p) (p_ofile p) (p_cwd p)
    (p_name p) (p_ctime p) (p_etime p) (p_rtime p) (p_stime p) (p_ltime p) v
    (p_expected_runtime p) (p_priority p) (p_queue_level p) (p_time_slice p) (p_demote p).
Definition set_expected_runtime (v : Z) (p : proc) : proc :=
  Proc (p_state p) (p_chan p) (p_killed p) (p_xstate p) (p_pid p) (p_parent p) (p_kstack
    p) (p_sz p) (p_pagetable p) (p_trapframe p) (p_context p) (p_ofile p) (p_cwd p)
    (p_name p) (p_ctime p) (p_etime p) (p_rtime p) (p_stime p) (p_ltime p) (p_time_left p)
    v (p_priority p) (p_queue_level p) (p_time_slice p) (p_demote p).
Definition set_priority (v : Z) (p : proc) : proc :=
  Proc (p_state p) (p_chan p) (p_killed p) (p_xstate p) (p_pid p) (p_parent p) (p_kstack
    p) (p_sz p) (p_pagetable p) (p_trapframe p) (p_context p) (p_ofile p) (p_cwd p)
    (p_name p) (p_ctime p) (p_etime p) (p_rtime p) (p_stime p) (p_ltime p) (p_time_left p)
    (p_expected_runtime p) v (p_queue_level p) (p_time_slice p) (p_demote p).
Definition set_queue_level (v : Z) (p : proc) : proc :=
  Proc (p_state p) (p_chan p) (p_killed p) (p_xstate p) (p_pid p) (p_parent p) (p_kstack
    p) (p_sz p) (p_pagetable p) (p_trapframe p) (p_context p) (p_ofile p) (p_cwd p)
    (p_name p) (p_ctime p) (p_etime p) (p_rtime p) (p_stime p) (p_ltime p) (p_time_left p)
    (p_expected_runtime p) (p_priority p) v (p_time_slice p) (p_demote p).
Definition set_time_slice (v : Z) (p : proc) : proc :=
  Proc (p_state p) (p_chan p) (p_killed p) (p_xstate p) (p_pid p) (p_parent p) (p_kstack
    p) (p_sz p) (p_pagetable p) (p_trapframe p) (p_context p) (p_ofile p) (p_cwd p)
    (p_name p) (p_ctime p) (p_etime p) (p_rtime p) (p_stime p) (p_ltime p) (p_time_left p)
    (p_expected_runtime p) (p_priority p) (p_queue_level p) v (p_demote p).
Definition set_demote (v : Z) (p : proc) : proc :=
  Proc (p_state p) (p_chan p) (p_killed p) (p_xstate p) (p_pid p) (p_parent p) (p_kstack
    p) (p_sz p) (p_pagetable p) (p_trapframe p) (p_context p) (p_ofile p) (p_cwd p)
    (p_name p) (p_ctime p) (p_etime p) (p_rtime p) (p_stime p) (p_ltime p) (p_time_left p)
    (p_expected_runtime p) (p_priority p) (p_queue_level p) (p_time_slice p) v.


(** The zeroes of static storage. *)
Definition zero_proc : proc :=
  Proc UNUSED ChNull 0 0 0 None 0 0 0 0 zero_context (replicate NOFILE None) None
    (replicate 16 0) 0 0 0 0 0 0 0 0 0 0 0.
#[export] Instance proc_inhabited : Inhabited proc := populate zero_proc.

#[export] Instance sleepid_countable : Countable sleepid.
Proof.
  refine (inj_countable' (fun x => match x with SlBuf i => (true, i) | SlInode i => (false, i) end)
    (fun '(b, i) => if (b : bool) then SlBuf i else SlInode i) _).
  by intros [].
Defined.

Record sleeplock := Sleeplock { sl_locked : Z; sl_name : string; sl_pid : Z }.
#[export] Instance sleeplock_inhabited : Inhabited sleeplock :=
  populate (Sleeplock 0 "" 0).

Record pstate := PState {
  ps_mem : mem;
  ps_proc : list proc;
  ps_initproc : option nat;
  ps_nextpid : Z;
  ps_ticks : Z;
  ps_sleep : gmap sleepid sleeplock }.

Definition with_mem m s :=
  PState m (ps_proc s) (ps_initproc s) (ps_nextpid s) (ps_ticks s) (ps_sleep s).
Definition with_proc ps s :=
  PState (ps_mem s) ps (ps_initproc s) (ps_nextpid s) (ps_ticks s) (ps_sleep s).
Definition with_initproc i s :=
  PState (ps_mem s) (ps_proc s) i (ps_nextpid s) (ps_ticks s) (ps_sleep s).
Definition with_nextpid n s :=
  PState (ps_mem s) (ps_proc s) (ps_initproc s) n (ps_ticks s) (ps_sleep s).
Definition with_ticks t s :=
  PState (ps_mem s) (ps_proc s) (ps_initproc s) (ps_nextpid s) t (ps_sleep s).
Definition with_sleep l s :=
  PState (ps_mem s) (ps_proc s) (ps_initproc s) (ps_nextpid s) (ps_ticks s) l.

#[export] Program Instance pstate_mem : Lens pstate mem := {|
  lget := ps_mem;
  lset := with_mem |}.
Next Obligation. done. Qed.
Next Obligation. by intros []. Qed.
Next Obligation. done. Qed.
#[export] Instance pstate_machine : Lens pstate machine := lens_compose.

(** The machine under a process-layer state. *)
Definition hw (s : pstate) : machine := ms_hw (ps_mem s).
Definition with_machine (m : machine) (s : pstate) : pstate :=
  with_mem (with_hw m (ps_mem s)) s.

Definition acq (lk : lockid) : M pstate unit := lift (acquire lk).
Definition rel (lk : lockid) : M pstate unit := lift (release lk).
Definition gettime : M pstate Z := lift getTime.
Definition getp (i : nat) : M pstate proc := gets (fun s => ps_proc s !!! i).
Definition modp (i : nat) (f : proc -> proc) : M pstate unit :=
  modify (fun s => with_proc (alter f i (ps_proc s)) s).

Definition is_state (st : procstate) (p : proc) : bool := bool_decide (p_state p = st).

(** Access to the trapframe of slot [i]. *)
Definition get_tf (i : nat) (f : trapframe) : M pstate Z :=
  p <- getp i ;;
  gets (fun s => rd64 (ms_ram (ps_mem s)) (p_trapframe p + tf_off f)).
Definition set_tf (i : nat) (f : trapframe) (v : Z) : M pstate unit :=
  p <- getp i ;;
  lift (ram_set (fun ram => wr64 ram (p_trapframe p + tf_off f) v)).

(** * proc.c: the table and the current process *)

Definition procinit : M pstate unit :=
  lift (initlock PidLock "nextpid") ;;
  lift (initlock WaitLock "wait_lock") ;;
  iterl (seq 0 NPROC) (fun i =>
    lift (initlock (ProcLock i) "proc") ;;
    modp i (set_state UNUSED) ;;
    modp i (set_kstack (KSTACK (Z.of_nat i)))).

Definition myproc : M pstate (option nat) :=
  lift push_off ;;
  m <- gets hw ;;
  let p := c_proc (curcpu m) in
  lift pop_off ;;
  ret p.

(** [myproc()->...]: the current process, which must exist. *)
Definition curproc : M pstate nat :=
  p <- myproc ;;
  match p with Some i => ret i | None => panic "null dereference" end.

Definition allocpid : M pstate Z :=
  acq PidLock ;;
  pid <- gets ps_nextpid ;;
  modify (with_nextpid (s32 (pid + 1))) ;;
  rel PidLock ;;
  ret pid.

(** * Page table of a process *)

Definition proc_pagetable (p : nat) : M pstate Z :=
  pagetable <- lift uvmcreate ;;
  if pagetable =? 0 then ret 0 else
  ld <- gets (fun s => m_ld (hw s)) ;;
  r <- lift (mappages pagetable TRAMPOLINE PGSIZE (ld_trampoline ld) (Z.lor PTE_R PTE_X)) ;;
  if r <? 0 then lift (uvmfree pagetable 0) ;; ret 0 else
  q <- getp p ;;
  r <- lift (mappages pagetable TRAPFRAME PGSIZE (p_trapframe q) (Z.lor PTE_R PTE_W)) ;;
  if r <? 0 then
    lift (uvmunmap pagetable TRAMPOLINE 1 false) ;;
    lift (uvmfree pagetable 0) ;; ret 0
  else ret pagetable.

Definition proc_freepagetable (pagetable sz : Z) : M mem unit :=
  uvmunmap pagetable TRAMPOLINE 1 false ;;
  uvmunmap pagetable TRAPFRAME 1 false ;;
  uvmfree pagetable sz.

Definition quantum (level : Z) : Z := nth (Z.to_nat level) [5000; 10000; 20000] 0.
Arguments quantum : simpl never.

Definition freeproc (p : nat) : M pstate unit :=
  q <- getp p ;;
  when (negb (p_trapframe q =? 0)) (lift (kfree (p_trapframe q))) ;;
  modp p (set_trapframe 0) ;;
  when (negb (p_pagetable q =? 0)) (lift (proc_freepagetable (p_pagetable q) (p_sz q))) ;;
  modp p (set_pagetable 0) ;;
  modp p (set_sz 0) ;;
  modp p (set_pid 0) ;;
  modp p (set_parent None) ;;
  modp p (fun q => set_name (<[0%nat := 0]> (p_name q)) q) ;;
  modp p (set_chan ChNull) ;;
  modp p (set_killed 0) ;;
  modp p (set_xstate 0) ;;
  modp p (set_ctime 0) ;;
  modp p (set_etime 0) ;;
  modp p (set_rtime 0) ;;
  modp p (set_stime 0) ;;
  modp p (set_ltime 0) ;;
  modp p (set_expected_runtime 0) ;;
  modp p (set_priority 0) ;;
  modp p (set_queue_level 0) ;;
  modp p (set_time_slice 0) ;;
  modp p (set_demote 0) ;;
  modp p (set_state UNUSED).

(** The search of [allocproc]: the first UNUSED slot, with its lock held. *)
Definition find_unused : M pstate (option nat) :=
  r <- forl (seq 0 NPROC) (fun i (_ : unit) =>
    acq (ProcLock i) ;;
    p <- getp i ;;
    if is_state UNUSED p then ret (inr i)
    else rel (ProcLock i) ;; ret (inl tt)) tt ;;
  ret (match r with inl _ => None | inr i => Some i end).

Definition allocproc : M pstate (option nat) :=
  r <- find_unused ;;
  match r with
  | None => ret None
  | Some p =>
      pid <- allocpid ;;
      modp p (set_pid pid) ;;
      modp p (set_state USED) ;;
      tf <- lift kalloc ;;
      modp p (set_trapframe tf) ;;
      if tf =? 0 then freeproc p ;; rel (ProcLock p) ;; ret None else
      pt <- proc_pagetable p ;;
      modp p (set_pagetable pt) ;;
      if pt =? 0 then freeproc p ;; rel (ProcLock p) ;; ret None else
      ld <- gets (fun s => m_ld (hw s)) ;;
      modp p (fun q => set_context
        (Context (ld_forkret ld) (p_kstack q + PGSIZE) (ctx_s zero_context)) q) ;;
      t <- gettime ;;
      modp p (set_ctime t) ;;
      modp p (set_etime 0) ;;
      modp p (set_rtime 0) ;;
      modp p (set_stime 0) ;;
      modp p (set_ltime 0) ;;
      modp p (set_expected_runtime 0) ;;
      modp p (set_time_left 0) ;;
      modp p (set_priority 0) ;;
      modp p (set_queue_level 0) ;;
      modp p (set_time_slice (quantum 0)) ;;
      modp p (set_demote 0) ;;
      ret (Some p)
  end.

(** [sz + n] wraps as [uint64]; [n] is an [int]. *)
Definition growproc (n : Z) : M pstate Z :=
  p <- curproc ;;
  q <- getp p ;;
  let sz := p_sz q in
  if 0 <? n then
    if TRAPFRAME <? u64 (sz + n) then ret (-1) else
    sz' <- lift (uvmalloc (p_pagetable q) sz (u64 (sz + n)) PTE_W) ;;
    if sz' =? 0 then ret (-1) else
    modp p (set_sz sz') ;; ret 0
  else if n <? 0 then
    sz' <- lift (uvmdealloc (p_pagetable q) sz (u64 (sz + n))) ;;
    modp p (set_sz sz') ;; ret 0
  else modp p (set_sz sz) ;; ret 0.

(** * Giving up the CPU *)

Definition sched : M pstate unit :=
  p <- curproc ;;
  h <- lift (holding (ProcLock p)) ;;
  if negb h then panic "sched p->lock" else
  m <- gets hw ;;
  if negb (c_noff (curcpu m) =? 1) then panic "sched locks" else
  q <- getp p ;;
  if is_state RUNNING q then panic "sched RUNNING" else
  i <- lift intr_get ;;
  if negb (i =? 0) then panic "sched interruptible" else
  m <- gets hw ;;
  let intena := c_intena (curcpu m) in
  swtch ToScheduler ;;
  lift (modify (modcpu (set_intena intena))).

Definition yield : M pstate unit :=
  p <- curproc ;;
  acq (ProcLock p) ;;
  modp p (set_state RUNNABLE) ;;
  sched ;;
  rel (ProcLock p).

Definition sleep (c : chan) (lk : lockid) : M pstate unit :=
  p <- curproc ;;
  acq (ProcLock p) ;;
  rel lk ;;
  modp p (set_chan c) ;;
  modp p (set_state SLEEPING) ;;
  sched ;;
  modp p (set_chan ChNull) ;;
  rel (ProcLock p) ;;
  acq lk.

Definition wakeup (c : chan) : M pstate unit :=
  iterl (seq 0 NPROC) (fun i =>
    me <- myproc ;;
    if bool_decide (me = Some i) then ret tt else
    acq (ProcLock i) ;;
    p <- getp i ;;
    when (is_state SLEEPING p && bool_decide (p_chan p = c)) (modp i (set_state RUNNABLE)) ;;
    rel (ProcLock i)).

Definition kkill (pid : Z) : M pstate Z :=
  r <- forl (seq 0 NPROC) (fun i (_ : unit) =>
    acq (ProcLock i) ;;
    p <- getp i ;;
    if p_pid p =? pid then
      modp i (set_killed 1) ;;
      when (is_state SLEEPING p) (modp i (set_state RUNNABLE)) ;;
      rel (ProcLock i) ;;
      ret (inr 0)
    else rel (ProcLock i) ;; ret (inl tt)) tt ;;
  ret (match r with inl _ => -1 | inr v => v end).

Definition setkilled (p : nat) : M pstate unit :=
  acq (ProcLock p) ;;
  modp p (set_killed 1) ;;
  rel (ProcLock p).

Definition killed (p : nat) : M pstate Z :=
  acq (ProcLock p) ;;
  q <- getp p ;;
  rel (ProcLock p) ;;
  ret (p_killed q).

Definition getproc (pid : Z) : M pstate (option nat) :=
  r <- forl (seq 0 NPROC) (fun i (_ : unit) =>
    acq (ProcLock i) ;;
    p <- getp i ;;
    if p_pid p =? pid then rel (ProcLock i) ;; ret (inr i)
    else rel (ProcLock i) ;; ret (inl tt)) tt ;;
  ret (match r with inl _ => None | inr i => Some i end).

(** Pass the children of [p] to init; the caller holds wait_lock. *)
Definition reparent (p : nat) : M pstate unit :=
  iterl (seq 0 NPROC) (fun i =>
    q <- getp i ;;
    when (bool_decide (p_parent q = Some p))
      (init <- gets ps_initproc ;;
       modp i (set_parent init) ;;
       wakeup (chan_of init))).

(** * Locks and the clock at this layer *)

Lemma acq_free lk s :
  hart_ok (hw s) -> lock_free lk (hw s) ->
  acq lk s = Ret tt (with_machine (acquired lk (hw s)) s).
Proof. intros H1 H2. exact (lift_Ret _ s _ _ (acquire_free _ _ H1 H2)). Qed.

Lemma rel_held lk s :
  (m_tp (hw s) < length (m_cpus (hw s)))%nat -> lock_held lk (m_tp (hw s)) (hw s) ->
  sie (curcpu (hw s)) = false -> 1 <= c_noff (curcpu (hw s)) ->
  rel lk s = Ret tt (with_machine (released lk (hw s)) s).
Proof. intros H1 H2 H3 H4. exact (lift_Ret _ s _ _ (release_held _ _ H1 H2 H3 H4)). Qed.

(** The value the next read of the timer returns, and the state after it. *)
Definition now (s : pstate) : Z := u64 (m_rdtime (hw s) (m_now (hw s))).
Definition tick (s : pstate) : pstate := with_machine (with_now (S (m_now (hw s))) (hw s)) s.

Lemma gettime_eq s : gettime s = Ret (now s) (tick s).
Proof. done. Qed.

(** The table after a critical section that changes slot [i] by [f]. *)
Definition upd (i : nat) (f : proc -> proc) (s : pstate) : pstate :=
  with_proc (alter f i (ps_proc s)) s.

Lemma modp_eq i f s : modp i f s = Ret tt (upd i f s).
Proof. done. Qed.

(** The trace a critical section leaves. *)
Definition touched (s : pstate) : pstate := with_machine (touch (hw s)) s.

Lemma touched_touched s : hart_ok (hw s) -> touched (touched s) = touched s.
Proof. intros H. unfold touched, with_machine. cbn. by rewrite touch_touch. Qed.

Lemma with_machine_id s : with_machine (hw s) s = s.
Proof. by destruct s as [[]]. Qed.

Lemma with_machine_with_machine m m' s : with_machine m (with_machine m' s) = with_machine m s.
Proof. done. Qed.

(** A critical section of one lock around a change of the table. *)
Lemma critical lk s :
  hart_ok (hw s) -> lock_free lk (hw s) ->
  rel lk (with_machine (acquired lk (hw s)) s) = Ret tt (touched s).
Proof.
  intros H1 H2. exact (lift_Ret _ (with_machine _ s) _ _ (release_acquired _ _ H1 H2)).
Qed.

Lemma upd_upd i f g s : upd i g (upd i f s) = upd i (fun p => g (f p)) s.
Proof. unfold upd, with_proc. cbn. by rewrite list_alter_alter. Qed.

Lemma upd_ext i f g s : f (ps_proc s !!! i) = g (ps_proc s !!! i) -> upd i f s = upd i g s.
Proof. intros H. unfold upd. by rewrite (list_alter_same f g). Qed.

Lemma upd_id i s : upd i (fun p => p) s = s.
Proof.
  unfold upd, with_proc. destruct s as [a l b c d e]; cbn. f_equal.
  revert i. induction l as [|p l IH]; intros [|i]; cbn; f_equal; auto.
Qed.

Lemma upd_at i f s :
  (i < length (ps_proc s))%nat -> ps_proc (upd i f s) !!! i = f (ps_proc s !!! i).
Proof.
  unfold upd. cbn. generalize (ps_proc s) as l. intros l. revert i.
  induction l as [|p l IH]; intros [|i] H; cbn in *; [lia..|done|]. apply IH. lia.
Qed.

Lemma upd_other i j f s : i <> j -> ps_proc (upd i f s) !!! j = ps_proc s !!! j.
Proof.
  unfold upd. cbn. generalize (ps_proc s) as l. intros l. revert i j.
  induction l as [|p l IH]; intros [|i] [|j] H; cbn in *; try done. apply IH. lia.
Qed.

Lemma upd_length i f s : length (ps_proc (upd i f s)) = length (ps_proc s).
Proof. apply length_alter. Qed.

(** * The current process and the switch *)

(** What [sched] hands back to the scheduler of CPU [c]: the process's lock,
    held by this CPU, at depth one with interrupts off. *)
Record handed_back (c i : nat) (s : pstate) : Prop := {
  hb_tp : m_tp (hw s) = c;
  hb_bound : (c < length (m_cpus (hw s)))%nat;
  hb_noff : c_noff (curcpu (hw s)) = 1;
  hb_sie : sie (curcpu (hw s)) = false;
  hb_lock : lock_held (ProcLock i) c (hw s) }.

Lemma myproc_eq s :
  hart_ok (hw s) -> myproc s = Ret (c_proc (curcpu (hw s))) (touched s).
Proof.
  intros H. unfold myproc.
  kstep (lift_Ret _ s _ _ (push_off_eq _ H)). kstep eq_refl.
  assert (pop_off (modcpu push_cpu (hw s)) = Ret tt (touch (hw s))) as E.
  { rewrite pop_off_eq.
    - rewrite modcpu_modcpu by apply H. f_equal. apply modcpu_ext, pop_push_cpu, H.
    - apply modcpu_bound, H.
    - rewrite curcpu_modcpu by apply H. apply push_cpu_sie.
    - rewrite curcpu_modcpu, push_cpu_noff by apply H. destruct H as [_ [? _]]. lia. }
  kstep (lift_Ret _ (with_machine (modcpu push_cpu (hw s)) s) _ _ E).
  change (hw (lset ?m s)) with m. rewrite curcpu_modcpu by apply H.
  unfold ret. f_equal. unfold push_cpu. by destruct (_ =? 0).
Qed.

Lemma curproc_eq i s :
  hart_ok (hw s) -> c_proc (curcpu (hw s)) = Some i -> curproc s = Ret i (touched s).
Proof. intros H E. unfold curproc. kstep myproc_eq by done. by rewrite E. Qed.

(** Inside a critical section [touched] is the identity. *)
Lemma touch_nested m :
  (m_tp m < length (m_cpus m))%nat -> c_noff (curcpu m) <> 0 -> touch m = m.
Proof.
  intros Hb Hn. unfold touch. rewrite (modcpu_ext _ (fun c => c)); [by apply modcpu_id|].
  unfold touch_cpu. by rewrite (proj2 (Z.eqb_neq _ _) Hn).
Qed.

Lemma handed_back_hart c i s : handed_back c i s -> hart_ok (hw s).
Proof. intros [H1 H2 H3 H4 H5]. split; [by rewrite H1|]. split; [lia|done]. Qed.

Lemma sched_eq c i s :
  handed_back c i s -> c_proc (curcpu (hw s)) = Some i ->
  p_state (ps_proc s !!! i) <> RUNNING ->
  sched s = Swtch ToScheduler s (fun s2 =>
    Ret tt (with_machine (modcpu (set_intena (c_intena (curcpu (hw s)))) (hw s2)) s2)).
Proof.
  intros Hb Hp Hst. unfold sched.
  assert (touched s = s) as Et.
  { unfold touched. rewrite touch_nested; [apply with_machine_id|..].
    - rewrite (hb_tp _ _ _ Hb). apply Hb.
    - rewrite (hb_noff _ _ _ Hb). lia. }
  kstep curproc_eq by (done || by eapply handed_back_hart). rewrite Et.
  destruct Hb as [H1 H2 H3 H4 [nm H5]].
  kstep (lift_Ret _ s _ _ (holding_eq _ _)). rewrite lset_lget.
  change (lget s) with (hw s). rewrite (lookup_total_correct _ _ _ H5), H1. cbn [lk_locked lk_cpu].
  rewrite bool_decide_eq_true_2 by done. cbn [Z.eqb negb andb].
  kstep eq_refl. rewrite H3. change (negb (1 =? 1)) with false. cbv iota. kstep eq_refl.
  unfold is_state. rewrite bool_decide_eq_false_2 by done.
  kstep (lift_Ret _ s _ _ (intr_get_eq _)). change (lget s) with (hw s).
  rewrite H4. cbn [Z.b2z Z.eqb negb]. change (lset (hw s) s) with (with_machine (hw s) s).
  rewrite with_machine_id. kstep eq_refl. done.
Qed.

(** * Loops over the table *)

Lemma alter_each (f : nat -> proc -> proc) (l1 l2 : list proc) :
  foldl (fun l i => alter (f i) i l) (l1 ++ l2) (seq (length l1) (length l2)) =
  l1 ++ imap (fun i => f (length l1 + i)%nat) l2.
Proof.
  revert l1. induction l2 as [|p l2 IH]; intros l1; cbn [length seq foldl imap]; [done|].
  rewrite alter_app_r_alt by done. rewrite Nat.sub_diag. cbn [alter list_alter].
  rewrite (cons_middle (f _ p) l1 l2), (app_assoc l1).
  replace (S (length l1)) with (length (l1 ++ [f (length l1) p])) by (rewrite length_app; cbn; lia).
  rewrite IH, <- app_assoc. cbn. rewrite Nat.add_0_r. do 2 f_equal.
  apply imap_ext. intros i x _. cbn. f_equal. rewrite length_app. cbn. lia.
Qed.

(** A loop whose body changes each slot in turn, in a critical section. *)
Lemma iterl_table (f : nat -> proc -> proc) (I : pstate -> Prop) (body : nat -> M pstate unit) s :
  length (ps_proc s) = NPROC ->
  (forall i s, (i < NPROC)%nat -> I s -> body i s = Ret tt (touched (upd i (f i) s))) ->
  (forall i s, I s -> hart_ok (hw s) /\ I (touched (upd i (f i) s))) ->
  I s ->
  iterl (seq 0 NPROC) body s = Ret tt (with_proc (imap f (ps_proc s)) (touched s)).
Proof.
  intros Hlen Hb HI Hs.
  pose proof (alter_each f [] (ps_proc s)) as E. rewrite Hlen in E. cbn [length app Nat.add] in E.
  change (fun i => f i) with f in E. rewrite <- E. clear E.
  assert (forall i, i ∈ seq 0 NPROC -> (i < NPROC)%nat) as Hl.
  { intros i Hi. apply elem_of_seq in Hi. lia. }
  assert (forall l s, l <> [] -> (forall i, i ∈ l -> (i < NPROC)%nat) -> I s ->
    iterl l body s = Ret tt (with_proc (foldl (fun l i => alter (f i) i l) (ps_proc s) l) (touched s)))
    as H.
  { clear s Hs Hlen Hl. induction l as [|i l IH]; intros s Hne Hl Hs; [done|]. cbn [iterl foldl].
    kstep Hb by (done || (apply Hl; set_solver)).
    destruct (HI i s Hs) as [Hh HI']. destruct l as [|j l]; [done|].
    rewrite IH; [|done|set_solver|done]. by rewrite touched_touched. }
  by apply H.
Qed.

Lemma imap_const (f : proc -> proc) (l : list proc) : imap (fun _ => f) l = f <$> l.
Proof. induction l as [|p l IH]; cbn; [done|]. f_equal. exact IH. Qed.

(** * Example: a table with a sleeping and two runnable processes *)

Definition demo_procs : list proc :=
  [set_chan ChTicks (set_pid 1 (set_state SLEEPING zero_proc));
   set_expected_runtime 900 (set_ctime 300 (set_pid 2 (set_state RUNNABLE zero_proc)));
   set_time_left 700 (set_expected_runtime 800 (set_ctime 200 (set_pid 3 (set_state RUNNABLE zero_proc))))]
  ++ replicate 61 zero_proc.
Definition demo_pstate : pstate := PState demo_mem demo_procs (Some 0%nat) 4 0 ∅.
