(* ===== verification/Sched.v ===== *)
(** The scheduling policies and the per-CPU scheduler of kernel/proc.c, and
    what each policy chooses.

    The loop over the table that chooses a process is a definition of its own
    where the policy has one ([fifo_scan], [sjf_scan], [stcf_scan],
    [mlfq_scan]); the policy composes it with the dispatch.  [c] is the CPU
    that runs the scheduler.  The theorems start in a state [sched_ready]:
    this CPU holds no lock and the locks of the table are free.
    The parts before and after [swtch] are specified separately: the switch
    itself hands the state to the chosen process. *)
From S2P Require Import Prelude Riscv Spinlock Memory Kalloc Vm Proc.

(** * Definitions *)

(** [c->f = ...] for the structure of CPU [c]. *)
Definition setcpu (c : nat) (f : cpu -> cpu) : M pstate unit :=
  lift (modify (fun m => with_cpus (alter f c (m_cpus m)) m)).

Definition MAX64 : Z := 2 ^ 64 - 1.

Definition schedule_rr (c : nat) : M pstate Z :=
  accl (seq 0 NPROC) (fun i found =>
    acq (ProcLock i) ;;
    p <- getp i ;;
    found <- (if is_state RUNNABLE p then
      modp i (set_state RUNNING) ;;
      t <- gettime ;;
      modp i (set_ltime t) ;;
      when (p_rtime p =? 0) (t <- gettime ;; modp i (set_stime t)) ;;
      setcpu c (set_cproc (Some i)) ;;
      swtch (ToProc i) ;;
      t <- gettime ;;
      modp i (fun p => set_rtime (u64 (p_rtime p + u64 (t - p_ltime p))) p) ;;
      setcpu c (set_cproc None) ;;
      ret 1
    else ret found) ;;
    rel (ProcLock i) ;;
    ret found) 0.

(** FIFO: the first pass reads the table without locks. *)
Definition fifo_scan : M pstate (option nat) :=
  accl (seq 0 NPROC) (fun i selected =>
    p <- getp i ;;
    if is_state RUNNABLE p then
      match selected with
      | None => ret (Some i)
      | Some j => q <- getp j ;;
          ret (if p_ctime p <? p_ctime q then Some i else Some j)
      end
    else ret selected) None.

Definition schedule_fifo (c : nat) : M pstate Z :=
  selected <- fifo_scan ;;
  match selected with
  | None => ret 0
  | Some i =>
      acq (ProcLock i) ;;
      p <- getp i ;;
      found <- (if is_state RUNNABLE p then
        modp i (set_state RUNNING) ;;
        t <- gettime ;;
        modp i (set_ltime t) ;;
        when (p_rtime p =? 0) (t <- gettime ;; modp i (set_stime t)) ;;
        setcpu c (set_cproc (Some i)) ;;
        swtch (ToProc i) ;;
        t <- gettime ;;
        modp i (fun p => set_rtime (u64 (p_rtime p + u64 (t - p_ltime p))) p) ;;
        setcpu c (set_cproc None) ;;
        ret 1
      else ret 0) ;;
      rel (ProcLock i) ;;
      ret found
  end.

(** The local variables of the SJF and STCF loops. *)
Record best := Best { b_proc : option nat; b_key : Z; b_ctime : Z; b_pid : Z }.
Definition no_best : best := Best None MAX64 MAX64 0.

(** 0 hint means "no info": treated as very large. *)
Definition sjf_key (p : proc) : Z :=
  if p_expected_runtime p =? 0 then MAX64 else p_expected_runtime p.

Definition sjf_scan : M pstate best :=
  accl (seq 0 NPROC) (fun i b =>
    acq (ProcLock i) ;;
    p <- getp i ;;
    let key := sjf_key p in
    let b' :=
      if is_state RUNNABLE p
         && (bool_decide (b_proc b = None)
             || (key <? b_key b)
             || ((key =? b_key b) && ((p_ctime p <? b_ctime b)
                 || ((p_ctime p =? b_ctime b) && (p_pid p <? b_pid b)))))
      then Best (Some i) key (p_ctime p) (p_pid p)
      else b in
    rel (ProcLock i) ;;
    ret b') no_best.

Definition schedule_sjf (c : nat) : M pstate Z :=
  b <- sjf_scan ;;
  match b_proc b with
  | None => ret 0
  | Some i =>
      if b_key b =? MAX64 then schedule_rr c else
      acq (ProcLock i) ;;
      p <- getp i ;;
      if negb (is_state RUNNABLE p) then rel (ProcLock i) ;; ret 0 else
      modp i (set_state RUNNING) ;;
      when (p_rtime p =? 0) (t <- gettime ;; modp i (set_stime t)) ;;
      setcpu c (set_cproc (Some i)) ;;
      t <- gettime ;;
      modp i (set_ltime t) ;;
      swtch (ToProc i) ;;
      t <- gettime ;;
      modp i (fun p => set_rtime (u64 (p_rtime p + u64 (t - p_ltime p))) p) ;;
      setcpu c (set_cproc None) ;;
      rel (ProcLock i) ;;
      ret 1
  end.

Definition stcf_key (p : proc) : Z :=
  if p_expected_runtime p =? 0 then MAX64 else p_time_left p.

Definition stcf_scan : M pstate best :=
  accl (seq 0 NPROC) (fun i b =>
    acq (ProcLock i) ;;
    p <- getp i ;;
    let key := stcf_key p in
    let b' :=
      if is_state RUNNABLE p
         && (bool_decide (b_proc b = None)
             || (key <? b_key b)
             || ((key =? b_key b) && ((p_ctime p <? b_ctime b)
                 || ((p_ctime p =? b_ctime b) && (p_pid p <? b_pid b)))))
      then Best (Some i) key (p_ctime p) (p_pid p)
      else b in
    rel (ProcLock i) ;;
    ret b') no_best.

Definition schedule_stcf (c : nat) : M pstate Z :=
  b <- stcf_scan ;;
  match b_proc b with
  | None => ret 0
  | Some i =>
      if b_key b =? MAX64 then schedule_rr c else
      acq (ProcLock i) ;;
      p <- getp i ;;
      if negb (is_state RUNNABLE p) then rel (ProcLock i) ;; ret 1 else
      modp i (set_state RUNNING) ;;
      when (p_rtime p =? 0) (t <- gettime ;; modp i (set_stime t)) ;;
      setcpu c (set_cproc (Some i)) ;;
      t <- gettime ;;
      modp i (set_ltime t) ;;
      swtch (ToProc i) ;;
      t <- gettime ;;
      modp i (fun p => set_rtime (u64 (p_rtime p + u64 (t - p_ltime p))) p) ;;
      p <- getp i ;;
      when (0 <? p_time_left p)
        (t <- gettime ;;
         modp i (fun p => set_time_left (u64 (p_time_left p - u64 (t - p_ltime p))) p)) ;;
      p <- getp i ;;
      when (p_time_left p <? 0) (modp i (set_time_left 0)) ;;
      setcpu c (set_cproc None) ;;
      rel (ProcLock i) ;;
      ret 1
  end.

Definition starv_cut : Z := 1000 * 10000.

(** One slot's aging at time [time]. *)
Definition age (time : Z) (p : proc) : proc :=
  if is_state RUNNABLE p && (starv_cut <? u64 (time - p_etime p)) && (0 <? p_queue_level p)
  then let l := p_queue_level p - 1 in set_time_slice (quantum l) (set_queue_level l p)
  else p.

Definition starvation_clean : M pstate unit :=
  time <- gettime ;;
  iterl (seq 0 NPROC) (fun i =>
    acq (ProcLock i) ;;
    modp i (age time) ;;
    rel (ProcLock i)).

(** One slot of the loop over the table at level [prty]: the slot becomes the
    best so far, whose lock is given up, or its own lock is. *)
Definition mlfq_slot (c : nat) (prty : Z) (i : nat) (min_p : option nat) :
    M pstate (option nat) :=
  acq (ProcLock i) ;;
  p <- getp i ;;
  take <- (if (p_queue_level p =? prty) && is_state RUNNABLE p then
    match min_p with
    | None => ret true
    | Some j => q <- getp j ;; ret (p_ltime p <? p_ltime q)
    end else ret false) ;;
  if (take : bool) then
    match min_p with
    | Some j => setcpu c (set_intena 0) ;; rel (ProcLock j)
    | None => ret tt
    end ;;
    ret (Some i)
  else
    setcpu c (set_intena 0) ;;
    rel (ProcLock i) ;;
    ret min_p.

(** The loop: the least recently scheduled RUNNABLE process of the level, with
    its lock held. *)
Definition mlfq_scan (c : nat) (prty : Z) : M pstate (option nat) :=
  accl (seq 0 NPROC) (mlfq_slot c prty) None.

(** The accounting after the switch back, at times [t1] and [t2]. *)
Definition mlfq_account (t1 t2 : Z) (p : proc) : proc :=
  let p := set_rtime (u64 (p_rtime p + u64 (t1 - p_ltime p))) p in
  let elapsed := u64 (t2 - p_ltime p) in
  let p := set_etime t2 p in
  let p := if elapsed <? p_time_slice p
           then set_time_slice (p_time_slice p - elapsed) p
           else set_demote 1 (set_time_slice 0 p) in
  let p := set_rtime (u64 (p_rtime p + elapsed)) p in
  if (p_time_slice p =? 0) && (p_queue_level p <? 2) then
    let p := if p_priority p <? 2 then set_priority (p_priority p + 1) p else p in
    let p := set_queue_level (p_queue_level p + 1) p in
    set_demote 0 (set_time_slice (quantum (p_priority p)) p)
  else p.

(** One search of the three levels: [inl] after running a process (the [goto
    start_search]), [inr] when the search ends. *)
Definition mlfq_search (c : nat) (found : Z) : M pstate (Z + Z) :=
  starvation_clean ;;
  r <- forl [0; 1; 2] (fun prty (_ : unit) =>
    min_p <- mlfq_scan c prty ;;
    match min_p with
    | Some i =>
        p <- getp i ;;
        if negb (is_state RUNNABLE p) then ret (inr (inr found)) else
        modp i (set_state RUNNING) ;;
        setcpu c (set_cproc (Some i)) ;;
        t <- gettime ;;
        modp i (set_ltime t) ;;
        when (p_stime p =? 0) (modp i (fun p => set_stime (p_ltime p) p)) ;;
        swtch (ToProc i) ;;
        t1 <- gettime ;;
        t2 <- gettime ;;
        modp i (mlfq_account t1 t2) ;;
        setcpu c (set_cproc None) ;;
        setcpu c (set_intena 0) ;;
        rel (ProcLock i) ;;
        ret (inr (inl 1))
    | None => setcpu c (set_intena 0) ;; ret (inl tt)
    end) tt ;;
  ret (match r with inl _ => inr found | inr v => v end).

(** [fuel] bounds the number of [goto start_search]. *)
Definition schedule_mlfq (fuel : nat) (c : nat) : M pstate Z :=
  loop fuel (mlfq_search c) 0.

(** One round of the scheduler's loop, up to [wfi]. *)
Definition scheduler_round (policy : sched_policy) (fuel : nat) (c : nat) : M pstate Z :=
  lift intr_on ;;
  lift intr_off ;;
  match policy with
  | FIFO => schedule_fifo c
  | SJF => schedule_sjf c
  | STCF => schedule_stcf c
  | MLFQ => schedule_mlfq fuel c
  | RR => schedule_rr c
  end.

Definition scheduler (policy : sched_policy) (fuel rounds : nat) : M pstate Empty_set :=
  c <- lift mycpu ;;
  setcpu c (set_cproc None) ;;
  loop rounds (fun _ => scheduler_round policy fuel c ;; ret (inl tt)) tt.

(** * Choosing a process *)

(** An order in which a policy compares processes: a strict weak order, so
    that a minimum exists and processes may tie. *)
Class PolicyOrder (lt : proc -> proc -> bool) := {
  po_irrefl : forall p, lt p p = false;
  po_trans : forall p q r, lt p q = true -> lt q r = true -> lt p r = true;
  po_cotrans : forall p q r, lt p r = true -> lt p q = true \/ lt q r = true }.

Definition by_ctime (p q : proc) : bool := p_ctime p <? p_ctime q.
Definition by_ltime (p q : proc) : bool := p_ltime p <? p_ltime q.
(** Smallest key, then earliest creation, then smallest pid. *)
Definition by_key (key : proc -> Z) (p q : proc) : bool :=
  (key p <? key q)
  || ((key p =? key q) && ((p_ctime p <? p_ctime q)
      || ((p_ctime p =? p_ctime q) && (p_pid p <? p_pid q)))).

(** What SJF and STCF promise, without the code's sentinel key: a process with a
    hint comes before one without; of two with a hint, the one with the smaller
    [v]; then the earlier creation, then the smaller pid. *)
Definition hinted (p : proc) : bool := negb (p_expected_runtime p =? 0).
Definition by_hint (v : proc -> Z) (p q : proc) : bool :=
  let older := (p_ctime p <? p_ctime q)
    || ((p_ctime p =? p_ctime q) && (p_pid p <? p_pid q)) in
  match hinted p, hinted q with
  | true, true => (v p <? v q) || ((v p =? v q) && older)
  | true, false => true
  | false, true => false
  | false, false => older
  end.
(** No RUNNABLE process with a hint has the sentinel as its value. *)
Definition below_max (v : proc -> Z) (ps : list proc) : bool :=
  forallb (fun p => negb (is_state RUNNABLE p && hinted p) || (v p <? MAX64)) ps.

#[export] Instance by_ctime_order : PolicyOrder by_ctime.
Proof. unfold by_ctime. split; lia. Qed.
#[export] Instance by_ltime_order : PolicyOrder by_ltime.
Proof. unfold by_ltime. split; lia. Qed.
#[export] Instance by_key_order key : PolicyOrder (by_key key).
Proof. unfold by_key. split; lia. Qed.

Definition runnable (p : proc) : bool := is_state RUNNABLE p.
Definition runnable_at (prty : Z) (p : proc) : bool :=
  (p_queue_level p =? prty) && is_state RUNNABLE p.

(** What a policy promises of the slot it chooses: it is a candidate, no
    candidate comes strictly before it, and among those that tie with it, it
    is the first of the table. *)
Definition chosen (lt : proc -> proc -> bool) (cand : proc -> bool) (ps : list proc)
  (i : nat) : Prop :=
  (i < length ps)%nat /\ cand (ps !!! i) = true /\
  forall j, (j < length ps)%nat -> cand (ps !!! j) = true ->
    lt (ps !!! j) (ps !!! i) = false /\
    (lt (ps !!! i) (ps !!! j) = true \/ (i <= j)%nat).

(** The loop all four searches share. *)
Definition select_step (lt : proc -> proc -> bool) (cand : proc -> bool) (ps : list proc)
  (o : option nat) (i : nat) : option nat :=
  if cand (ps !!! i) &&
     match o with None => true | Some j => lt (ps !!! i) (ps !!! j) end
  then Some i else o.

Lemma chosen_unique lt cand ps i j :
  chosen lt cand ps i -> chosen lt cand ps j -> i = j.
Proof.
  intros (Hi & Ci & Mi) (Hj & Cj & Mj).
  destruct (Mi j Hj Cj) as [A1 [A2|A2]], (Mj i Hi Ci) as [B1 [B2|B2]];
    congruence || lia.
Qed.

Section Select.
Context (lt : proc -> proc -> bool) `{!PolicyOrder lt} (cand : proc -> bool).
Context (ps : list proc).

(** The best of the slots below [n]. *)
Definition best_below (n : nat) (o : option nat) : Prop :=
  match o with
  | None => forall j, (j < n)%nat -> cand (ps !!! j) = false
  | Some i => (i < n)%nat /\ cand (ps !!! i) = true /\
      forall j, (j < n)%nat -> cand (ps !!! j) = true ->
        lt (ps !!! j) (ps !!! i) = false /\
        (lt (ps !!! i) (ps !!! j) = true \/ (i <= j)%nat)
  end.

Lemma best_below_step n o :
  best_below n o -> best_below (S n) (select_step lt cand ps o n).
Proof using All.
  unfold select_step. destruct (cand (ps !!! n)) eqn:Cn; cbn [andb].
  2: { destruct o as [i|]; cbn.
    - intros (Hi & Ci & M). split_and!; [lia|done|]. intros j Hj Cj.
      apply M; [|done]. assert (j <> n) by congruence. lia.
    - intros H j Hj. destruct (decide (j = n)) as [->|]; [done|]. apply H. lia. }
  destruct o as [i|]; cbn.
  - intros (Hi & Ci & M). destruct (lt (ps !!! n) (ps !!! i)) eqn:E; cbn.
    + split_and!; [lia|done|]. intros j Hj Cj.
      destruct (decide (j = n)) as [->|Hne]; [rewrite po_irrefl; auto|].
      destruct (M j) as [M1 M2]; [lia|done|]. split.
      * destruct (lt (ps !!! j) (ps !!! n)) eqn:E'; [|done].
        by rewrite (po_trans _ _ _ E' E) in M1.
      * left. destruct (po_cotrans _ (ps !!! j) _ E) as [?|?]; [done|congruence].
    + split_and!; [lia|done|]. intros j Hj Cj.
      destruct (decide (j = n)) as [->|Hne]; [split; [done|right; lia]|].
      apply M; [lia|done].
  - intros H. split_and!; [lia|done|]. intros j Hj Cj.
    destruct (decide (j = n)) as [->|Hne]; [rewrite po_irrefl; auto|].
    rewrite (H j) in Cj; [done|lia].
Qed.

Lemma select_best n : best_below n (foldl (select_step lt cand ps) None (seq 0 n)).
Proof using All.
  induction n as [|n IH]; [intros j; lia|].
  rewrite seq_S, foldl_app. by apply best_below_step.
Qed.
End Select.

(** * The state a scheduler round works in *)

Record sched_ready (c : nat) (s : pstate) : Prop := {
  sr_tp : m_tp (hw s) = c;
  sr_bound : (c < length (m_cpus (hw s)))%nat;
  sr_noff : c_noff (curcpu (hw s)) = 0;
  sr_free : forall i, (i < NPROC)%nat -> lock_free (ProcLock i) (hw s);
  sr_len : length (ps_proc s) = NPROC }.

Lemma sched_ready_hart c s : sched_ready c s -> hart_ok (hw s).
Proof.
  intros H. split; [rewrite (sr_tp _ _ H); apply H|].
  split; [rewrite (sr_noff _ _ H); done|rewrite (sr_noff _ _ H); lia].
Qed.
#[export] Hint Resolve sched_ready_hart : kernel.

Lemma sched_ready_touched c s : sched_ready c s -> sched_ready c (touched s).
Proof.
  intros H. assert (curcpu (touch (hw s)) = touch_cpu (curcpu (hw s))) as E.
  { apply curcpu_modcpu. apply (sched_ready_hart _ _ H). }
  assert (c_noff (touch_cpu (curcpu (hw s))) = 0) as E1.
  { unfold touch_cpu. rewrite (sr_noff _ _ H). apply (sr_noff _ _ H). }
  split; try apply H.
  - cbn. rewrite length_insert. apply H.
  - change (c_noff (curcpu (touch (hw s))) = 0). by rewrite E.
Qed.
#[export] Hint Resolve sched_ready_touched : kernel.

(** A loop over the table whose body is a critical section that only looks. *)
Lemma accl_look {X} c (body : nat -> X -> M pstate X) (f : list proc -> X -> nat -> X)
  (l : list nat) x s :
  (forall i x s, i ∈ l -> sched_ready c s ->
     body i x s = Ret (f (ps_proc s) x i) (touched s)) ->
  sched_ready c s ->
  accl l body x s =
    Ret (foldl (f (ps_proc s)) x l) (match l with [] => s | _ => touched s end).
Proof.
  intros Hb. revert x s. induction l as [|i l IH]; intros x s Hs; [done|].
  cbn [accl foldl]. kstep Hb by (done || set_solver).
  rewrite IH; [|intros; apply Hb; [set_solver|done]|auto with kernel].
  f_equal. destruct l; [done|]. apply touched_touched. eauto with kernel.
Qed.

Definition nobody (cand : proc -> bool) (ps : list proc) : Prop :=
  forall j, (j < length ps)%nat -> cand (ps !!! j) = false.

Lemma select_chosen lt `{!PolicyOrder lt} cand ps n :
  length ps = n ->
  match foldl (select_step lt cand ps) None (seq 0 n) with
  | None => nobody cand ps
  | Some i => chosen lt cand ps i
  end.
Proof.
  intros <-. pose proof (select_best lt cand ps (length ps)) as H.
  by destruct (foldl _ _ _).
Qed.

Lemma fifo_scan_eq s :
  fifo_scan s =
    Ret (foldl (select_step by_ctime runnable (ps_proc s)) None (seq 0 NPROC)) s.
Proof.
  unfold fifo_scan. generalize (@None nat) as o. generalize (seq 0 NPROC) as l.
  induction l as [|i l IH]; intros o; [done|]. cbn [accl foldl].
  erewrite bind_Ret; [apply IH|]. kstep eq_refl.
  unfold select_step, runnable. destruct (is_state RUNNABLE (ps_proc s !!! i)); [|done].
  destruct o as [j|]; [|done]. kstep eq_refl. unfold ret, by_ctime, andb.
  by destruct (_ <? _).
Qed.

(** Look at slot [i] in a critical section. *)
Lemma look_eq {X} c i (g : proc -> X) s :
  (i < NPROC)%nat -> sched_ready c s ->
  (acq (ProcLock i) ;; p <- getp i ;; let x := g p in rel (ProcLock i) ;; ret x) s =
    Ret (g (ps_proc s !!! i)) (touched s).
Proof.
  intros Hi Hs. kstep acq_free by (eauto using sr_free with kernel). kstep eq_refl. cbv zeta.
  kstep critical by (eauto using sr_free with kernel). done.
Qed.

(** The locals of the SJF and STCF loops, for a best slot [o]. *)
Definition best_of (key : proc -> Z) (ps : list proc) (o : option nat) : best :=
  match o with
  | None => no_best
  | Some i => Best (Some i) (key (ps !!! i)) (p_ctime (ps !!! i)) (p_pid (ps !!! i))
  end.

(** The body of those loops. *)
Definition best_step (key : proc -> Z) (ps : list proc) (b : best) (i : nat) : best :=
  let p := ps !!! i in
  if is_state RUNNABLE p
     && (bool_decide (b_proc b = None)
         || (key p <? b_key b)
         || ((key p =? b_key b) && ((p_ctime p <? b_ctime b)
             || ((p_ctime p =? b_ctime b) && (p_pid p <? b_pid b)))))
  then Best (Some i) (key p) (p_ctime p) (p_pid p)
  else b.

Lemma foldl_best_of key ps l o :
  foldl (best_step key ps) (best_of key ps o) l =
  best_of key ps (foldl (select_step (by_key key) runnable ps) o l).
Proof.
  revert o. induction l as [|i l IH]; intros o; [done|]. cbn [foldl].
  rewrite <- IH. f_equal. unfold best_step, select_step, runnable, by_key.
  destruct o as [j|]; cbn.
  - by destruct (_ && _).
  - by destruct (is_state RUNNABLE (ps !!! i)).
Qed.

Lemma sjf_scan_eq c s :
  sched_ready c s ->
  sjf_scan s =
    Ret (best_of sjf_key (ps_proc s)
           (foldl (select_step (by_key sjf_key) runnable (ps_proc s)) None (seq 0 NPROC)))
        (touched s).
Proof.
  intros Hs. unfold sjf_scan. rewrite <- foldl_best_of.
  erewrite (accl_look c _ (best_step sjf_key)); [reflexivity| |done].
  intros i b s' Hi Hs'. apply elem_of_seq in Hi. eapply look_eq; [lia|done].
Qed.

Lemma stcf_scan_eq c s :
  sched_ready c s ->
  stcf_scan s =
    Ret (best_of stcf_key (ps_proc s)
           (foldl (select_step (by_key stcf_key) runnable (ps_proc s)) None (seq 0 NPROC)))
        (touched s).
Proof.
  intros Hs. unfold stcf_scan. rewrite <- foldl_best_of.
  erewrite (accl_look c _ (best_step stcf_key)); [reflexivity| |done].
  intros i b s' Hi Hs'. apply elem_of_seq in Hi. eapply look_eq; [lia|done].
Qed.

(** * Giving the CPU to a process and taking it back *)

Definition time_at (n : nat) (s : pstate) : Z := u64 (m_rdtime (hw s) (n + m_now (hw s))).

(** The machine when the scheduler of CPU [c] switches to slot [i], after [n]
    reads of the timer: it holds the slot's lock. *)
Definition take_cpu (c i n : nat) (m : machine) : machine :=
  let m := acquired (ProcLock i) m in
  with_now (n + m_now m) (with_cpus (alter (set_cproc (Some i)) c (m_cpus m)) m).

(** ... and when it has released the lock again, [n] reads after the switch
    back. *)
Definition drop_cpu (c i n : nat) (m : machine) : machine :=
  released (ProcLock i)
    (with_now (n + m_now m) (with_cpus (alter (set_cproc None) c (m_cpus m)) m)).

(** The fields a policy writes before the switch: [t] when it is scheduled,
    [t0] its first start when it has not run yet. *)
Definition run_fields (t t0 : Z) (p : proc) : proc :=
  let p' := set_ltime t (set_state RUNNING p) in
  if p_rtime p =? 0 then set_stime t0 p' else p'.
Definition charge (t : Z) (p : proc) : proc :=
  set_rtime (u64 (p_rtime p + u64 (t - p_ltime p))) p.

Lemma swtch_at {A} i (rest : M pstate A) x y :
  x = y -> bind (swtch (ToProc i)) (fun _ => rest) x = Swtch (ToProc i) y rest.
Proof. by intros ->. Qed.

(** The switch of RR and FIFO. *)
Lemma fifo_dispatch {A} c i s (rest : M pstate A) :
  (i < length (ps_proc s))%nat ->
  (modp i (set_state RUNNING) ;;
   t <- gettime ;;
   modp i (set_ltime t) ;;
   when (p_rtime (ps_proc s !!! i) =? 0) (t <- gettime ;; modp i (set_stime t)) ;;
   setcpu c (set_cproc (Some i)) ;;
   swtch (ToProc i) ;;
   rest) (with_machine (acquired (ProcLock i) (hw s)) s) =
  Swtch (ToProc i)
    (with_machine (take_cpu c i (if p_rtime (ps_proc s !!! i) =? 0 then 2 else 1) (hw s))
       (upd i (run_fields (time_at 0 s) (time_at 1 s)) s)) rest.
Proof.
  intros Hi. kstep modp_eq. kstep gettime_eq. kstep modp_eq. unfold when, run_fields.
  destruct (p_rtime (ps_proc s !!! i) =? 0) eqn:E.
  - erewrite bind_Ret by (kstep gettime_eq; apply modp_eq). kstep eq_refl.
    apply swtch_at.
    transitivity (with_machine (take_cpu c i 2 (hw s))
      (upd i (set_stime (time_at 1 s)) (upd i (set_ltime (time_at 0 s)) (upd i (set_state RUNNING) s)))); [reflexivity|].
    rewrite !upd_upd. f_equal. apply upd_ext. by rewrite E.
  - kstep eq_refl. kstep eq_refl.
    apply swtch_at.
    transitivity (with_machine (take_cpu c i 1 (hw s))
      (upd i (set_ltime (time_at 0 s)) (upd i (set_state RUNNING) s))); [reflexivity|].
    rewrite !upd_upd. f_equal. apply upd_ext. by rewrite E.
Qed.

(** The switch of SJF and STCF, which read the start time first. *)
Lemma sjf_dispatch {A} c i s (rest : M pstate A) :
  (i < length (ps_proc s))%nat ->
  let fresh := p_rtime (ps_proc s !!! i) =? 0 in
  (modp i (set_state RUNNING) ;;
   when (p_rtime (ps_proc s !!! i) =? 0) (t <- gettime ;; modp i (set_stime t)) ;;
   setcpu c (set_cproc (Some i)) ;;
   t <- gettime ;;
   modp i (set_ltime t) ;;
   swtch (ToProc i) ;;
   rest) (with_machine (acquired (ProcLock i) (hw s)) s) =
  Swtch (ToProc i)
    (with_machine (take_cpu c i (if fresh then 2 else 1) (hw s))
       (upd i (run_fields (time_at (if fresh then 1 else 0) s) (time_at 0 s)) s)) rest.
Proof.
  intros Hi. cbv zeta. kstep modp_eq. unfold when, run_fields.
  destruct (p_rtime (ps_proc s !!! i) =? 0) eqn:E.
  - erewrite bind_Ret by (kstep gettime_eq; apply modp_eq). kstep eq_refl.
    kstep gettime_eq. kstep modp_eq.
    apply swtch_at.
    transitivity (with_machine (take_cpu c i 2 (hw s))
      (upd i (set_ltime (time_at 1 s)) (upd i (set_stime (time_at 0 s)) (upd i (set_state RUNNING) s)))); [reflexivity|].
    rewrite !upd_upd. f_equal. apply upd_ext. by rewrite E.
  - kstep eq_refl. kstep eq_refl. kstep gettime_eq. kstep modp_eq.
    apply swtch_at.
    transitivity (with_machine (take_cpu c i 1 (hw s))
      (upd i (set_ltime (time_at 0 s)) (upd i (set_state RUNNING) s))); [reflexivity|].
    rewrite !upd_upd. f_equal. apply upd_ext. by rewrite E.
Qed.

Lemma curcpu_alter f c n m :
  m_tp m = c -> (c < length (m_cpus m))%nat ->
  curcpu (with_now n (with_cpus (alter f c (m_cpus m)) m)) = f (curcpu m).
Proof.
  intros E1 E2. unfold curcpu. cbn. rewrite E1.
  apply list_lookup_total_correct. rewrite list_lookup_alter, decide_True by done.
  by rewrite (list_lookup_lookup_total_lt _ _ E2).
Qed.

Lemma drop_eq c i n s :
  handed_back c i s ->
  rel (ProcLock i) (with_machine
    (with_now (n + m_now (hw s)) (with_cpus (alter (set_cproc None) c (m_cpus (hw s))) (hw s))) s) =
  Ret tt (with_machine (drop_cpu c i n (hw s)) s).
Proof.
  intros [Ht Hb Hn Hs Hl].
  rewrite rel_held; [done|..].
  - cbn. rewrite length_alter. by rewrite Ht.
  - cbn. by rewrite Ht.
  - change (hw (with_machine ?m s)) with m. by rewrite curcpu_alter.
  - change (hw (with_machine ?m s)) with m. rewrite curcpu_alter by done. cbn. lia.
Qed.

(** The state handed to slot [i] by RR and FIFO, and by SJF and STCF. *)
Definition started (c i : nat) (s : pstate) : pstate :=
  with_machine (take_cpu c i (if p_rtime (ps_proc s !!! i) =? 0 then 2 else 1) (hw s))
    (upd i (run_fields (time_at 0 s) (time_at 1 s)) s).
Definition started' (c i : nat) (s : pstate) : pstate :=
  let fresh := p_rtime (ps_proc s !!! i) =? 0 in
  with_machine (take_cpu c i (if fresh then 2 else 1) (hw s))
    (upd i (run_fields (time_at (if fresh then 1 else 0) s) (time_at 0 s)) s).
(** The state after RR, FIFO and SJF took the CPU back from slot [i]. *)
Definition charged (c i : nat) (s : pstate) : pstate :=
  with_machine (drop_cpu c i 1 (hw s)) (upd i (charge (now s)) s).

(** What STCF charges after the switch, with the clock read at [t1], [t2]. *)
Definition stcf_charge (t1 t2 : Z) (p : proc) : proc :=
  let p := charge t1 p in
  if 0 <? p_time_left p then set_time_left (u64 (p_time_left p - u64 (t2 - p_ltime p))) p
  else p.
Definition stcf_charged (c i : nat) (s : pstate) : pstate :=
  with_machine (drop_cpu c i (if 0 <? p_time_left (ps_proc s !!! i) then 2 else 1) (hw s))
    (upd i (stcf_charge (now s) (time_at 1 s)) s).

Section Policies.
Context (c : nat) (s : pstate).
Hypothesis Hs : sched_ready c s.

Lemma chosen_lt lt cand i : chosen lt cand (ps_proc s) i -> (i < NPROC)%nat.
Proof using Hs. intros [H _]. by rewrite (sr_len _ _ Hs) in H. Qed.

Lemma acq_proc i :
  (i < NPROC)%nat ->
  acq (ProcLock i) s = Ret tt (with_machine (acquired (ProcLock i) (hw s)) s).
Proof using Hs. intros Hi. apply acq_free; eauto using sr_free with kernel. Qed.

Lemma acq_proc_touched i :
  (i < NPROC)%nat ->
  acq (ProcLock i) (touched s) = Ret tt (with_machine (acquired (ProcLock i) (hw s)) s).
Proof using Hs.
  intros Hi. rewrite acq_free by (eauto using sr_free with kernel).
  f_equal. unfold touched. rewrite with_machine_with_machine. f_equal.
  apply acquired_touch. eauto with kernel.
Qed.
End Policies.

Lemma charged_eq c i s :
  handed_back c i s ->
  (t <- gettime ;;
   modp i (fun p => set_rtime (u64 (p_rtime p + u64 (t - p_ltime p))) p) ;;
   setcpu c (set_cproc None) ;;
   rel (ProcLock i)) s = Ret tt (charged c i s).
Proof.
  intros Hb. kstep gettime_eq. kstep modp_eq. kstep eq_refl.
  exact (drop_eq c i 1 (upd i (charge (now s)) s)
    (Build_handed_back _ _ (upd _ _ _) (hb_tp _ _ _ Hb) (hb_bound _ _ _ Hb)
       (hb_noff _ _ _ Hb) (hb_sie _ _ _ Hb) (hb_lock _ _ _ Hb))).
Qed.

(** C1. FIFO runs the RUNNABLE process that was created first (the first of the
    table on a tie): when there is one, the round takes its lock, marks it
    RUNNING, records when it was scheduled and, the first time, when it
    started, and switches to it; when the process gives the CPU back, the
    round charges it the time since and releases its lock.  With nothing
    RUNNABLE the round returns 0 and changes nothing. *)
Theorem schedule_fifo_correct c s (Hs : sched_ready c s) :
  (nobody runnable (ps_proc s) /\ schedule_fifo c s = Ret 0 s) \/
  (exists i k, chosen by_ctime runnable (ps_proc s) i /\
     schedule_fifo c s = Swtch (ToProc i) (started c i s) k /\
     forall s2, handed_back c i s2 -> k s2 = Ret 1 (charged c i s2)).
Proof.
  unfold schedule_fifo. kstep fifo_scan_eq.
  pose proof (select_chosen by_ctime runnable (ps_proc s) NPROC (sr_len _ _ Hs)) as H.
  destruct (foldl _ _ _) as [i|]; [right|by left].
  pose proof (chosen_lt _ _ Hs _ _ _ H) as Hi. exists i.
  kstep acq_proc by done. kstep eq_refl.
  change (ps_proc (with_machine (acquired (ProcLock i) (hw s)) s)) with (ps_proc s).
  pose proof (proj1 (proj2 H)) as Hr. unfold runnable in Hr. rewrite Hr.
  eexists. split; [done|]. split.
  - erewrite bind_Swtch; [reflexivity|]. rewrite fifo_dispatch; [reflexivity|].
    by rewrite (sr_len _ _ Hs).
  - intros s2 Hb. cbv beta.
    pose proof (charged_eq c i s2 Hb) as E.
    unfold bind in E |- *. cbn in E |- *. rewrite E. done.
Qed.

(** [chosen] only looks at the candidates of the table. *)
Lemma chosen_ext lt lt' cand ps i :
  (forall p q, p ∈ ps -> q ∈ ps -> cand p = true -> cand q = true -> lt p q = lt' p q) ->
  chosen lt cand ps i -> chosen lt' cand ps i.
Proof.
  intros E (Hi & Ci & H). split_and!; [done..|]. intros j Hj Cj.
  assert (forall n, (n < length ps)%nat -> ps !!! n ∈ ps) as L
    by (intros n Hn; apply list_elem_of_lookup_total; eauto).
  rewrite <- !E by auto. by apply H.
Qed.

Section Hints.
Context (v : proc -> Z) (ps : list proc) (Hv : below_max v ps = true).

Let key (p : proc) : Z := if p_expected_runtime p =? 0 then MAX64 else v p.

Lemma below_max_in p : p ∈ ps -> runnable p = true -> hinted p = true -> v p < MAX64.
Proof using Hv.
  intros Hp Hr Hh. unfold below_max in Hv. rewrite forallb_forall in Hv.
  apply list_elem_of_In in Hp. specialize (Hv p Hp). unfold runnable in Hr.
  rewrite Hr, Hh in Hv. cbn in Hv. lia.
Qed.

(** On the candidates, the sentinel key orders as the hints do. *)
Lemma by_key_hint p q :
  p ∈ ps -> q ∈ ps -> runnable p = true -> runnable q = true ->
  by_key key p q = by_hint v p q.
Proof using Hv.
  intros Hp Hq Rp Rq. pose proof (below_max_in p Hp Rp). pose proof (below_max_in q Hq Rq).
  unfold by_key, key, by_hint, hinted in *.
  destruct (Z.eqb_spec (p_expected_runtime p) 0), (Z.eqb_spec (p_expected_runtime q) 0);
    cbn [negb] in *; lia.
Qed.

Lemma chosen_hint i : chosen (by_key key) runnable ps i -> chosen (by_hint v) runnable ps i.
Proof using Hv. apply chosen_ext, by_key_hint. Qed.

(** The key of the chosen process says whether it has a hint. *)
Lemma chosen_key_max i :
  chosen (by_key key) runnable ps i ->
  (key (ps !!! i) =? MAX64) = negb (hinted (ps !!! i)).
Proof using Hv.
  intros (Hi & Ci & _). pose proof (below_max_in (ps !!! i)) as L. unfold key, hinted in *.
  destruct (Z.eqb_spec (p_expected_runtime (ps !!! i)) 0); cbn [negb] in *; [lia|].
  specialize (L (proj2 (list_elem_of_lookup_total _ _) (ex_intro _ i (conj Hi eq_refl))) Ci eq_refl).
  lia.
Qed.

(** When the chosen process has no hint, no candidate has one. *)
Lemma chosen_no_hint i :
  chosen (by_hint v) runnable ps i -> hinted (ps !!! i) = false ->
  forall j, (j < length ps)%nat -> runnable (ps !!! j) = true -> hinted (ps !!! j) = false.
Proof.
  intros (_ & _ & H) E j Hj Cj. destruct (H j Hj Cj) as [Hlt _].
  unfold by_hint in Hlt. rewrite E in Hlt. by destruct (hinted (ps !!! j)).
Qed.
End Hints.

(** C2. SJF runs the RUNNABLE process with the smallest hint, ties broken by
    creation time, then pid, then table order; a process without a hint comes
    after all others.  When no RUNNABLE process has a hint the round is a round
    of RR; with nothing RUNNABLE it returns 0.  The hints are assumed below the
    maximum, the key the code uses for a missing one ([sys_setexpected] stores
    a non-negative [int]). *)
Theorem schedule_sjf_correct c s (Hs : sched_ready c s)
  (Hv : below_max p_expected_runtime (ps_proc s) = true) :
  (nobody runnable (ps_proc s) /\ schedule_sjf c s = Ret 0 (touched s)) \/
  (exists i, chosen (by_hint p_expected_runtime) runnable (ps_proc s) i /\
     ((hinted (ps_proc s !!! i) = false /\
       (forall j, (j < NPROC)%nat -> runnable (ps_proc s !!! j) = true ->
          hinted (ps_proc s !!! j) = false) /\
       schedule_sjf c s = schedule_rr c (touched s)) \/
      (hinted (ps_proc s !!! i) = true /\
       exists k, schedule_sjf c s = Swtch (ToProc i) (started' c i s) k /\
         forall s2, handed_back c i s2 -> k s2 = Ret 1 (charged c i s2)))).
Proof.
  unfold schedule_sjf. kstep sjf_scan_eq by done.
  pose proof (select_chosen (by_key sjf_key) runnable (ps_proc s) NPROC (sr_len _ _ Hs)) as H.
  destruct (foldl _ _ _) as [i|]; [right|by left].
  pose proof (chosen_lt _ _ Hs _ _ _ H) as Hi. exists i.
  pose proof (chosen_hint _ _ Hv _ H) as Hc. split; [done|]. cbn [best_of b_proc b_key].
  assert ((sjf_key (ps_proc s !!! i) =? MAX64) = negb (hinted (ps_proc s !!! i))) as ->
    by exact (chosen_key_max _ _ Hv _ H).
  destruct (hinted (ps_proc s !!! i)) eqn:E; cbn [negb]; [right|left].
  2: { split_and!; [done| |done]. rewrite <- (sr_len _ _ Hs). by eapply chosen_no_hint. }
  split; [done|]. kstep (acq_proc_touched c s Hs) by done. kstep eq_refl.
  change (ps_proc (with_machine (acquired (ProcLock i) (hw s)) s)) with (ps_proc s).
  pose proof (proj1 (proj2 H)) as Hr. unfold runnable in Hr. rewrite Hr. cbn [negb].
  eexists. split.
  - rewrite sjf_dispatch; [reflexivity|]. by rewrite (sr_len _ _ Hs).
  - intros s2 Hb. cbv beta. pose proof (charged_eq c i s2 Hb) as E'.
    unfold bind in E' |- *. cbn in E' |- *. rewrite E'. done.
Qed.

Lemma stcf_charged_eq c i s :
  handed_back c i s -> (i < length (ps_proc s))%nat -> 0 <= p_time_left (ps_proc s !!! i) ->
  (t <- gettime ;;
   modp i (fun p => set_rtime (u64 (p_rtime p + u64 (t - p_ltime p))) p) ;;
   p <- getp i ;;
   when (0 <? p_time_left p)
     (t <- gettime ;;
      modp i (fun p => set_time_left (u64 (p_time_left p - u64 (t - p_ltime p))) p)) ;;
   p <- getp i ;;
   when (p_time_left p <? 0) (modp i (set_time_left 0)) ;;
   setcpu c (set_cproc None) ;;
   rel (ProcLock i) ;;
   ret 1) s = Ret 1 (stcf_charged c i s).
Proof.
  intros Hb Hi Htl. kstep gettime_eq. kstep modp_eq.
  kstep eq_refl. rewrite upd_at by done. unfold when, stcf_charged.
  match goal with |- context [0 <? p_time_left (set_rtime ?v ?x)] =>
    change (p_time_left (set_rtime v x)) with (p_time_left (ps_proc s !!! i)) end.
  destruct (0 <? p_time_left (ps_proc s !!! i)) eqn:E.
  - erewrite bind_Ret by (kstep gettime_eq; apply modp_eq). kstep eq_refl.
    rewrite upd_at by (cbn; by rewrite length_alter).
    cbn [p_time_left set_time_left].
    rewrite (proj2 (Z.ltb_ge _ 0)) by (apply Z.mod_pos_bound; lia).
    kstep eq_refl. kstep eq_refl.
    pose proof (drop_eq c i 2 (upd i (stcf_charge (now s) (time_at 1 s)) s)
      (Build_handed_back _ _ (upd _ _ _) (hb_tp _ _ _ Hb) (hb_bound _ _ _ Hb)
       (hb_noff _ _ _ Hb) (hb_sie _ _ _ Hb) (hb_lock _ _ _ Hb))) as D.
    transitivity ((rel (ProcLock i) ;; ret 1) (with_machine (with_now (2 + m_now (hw s))
      (with_cpus (alter (set_cproc None) c (m_cpus (hw s))) (hw s)))
      (upd i (fun p => set_time_left (u64 (p_time_left p - u64 (time_at 1 s - p_ltime p))) p)
        (upd i (charge (now s)) s)))); [reflexivity|].
    rewrite upd_upd, (upd_ext i _ (stcf_charge (now s) (time_at 1 s)));
      [by kstep D|unfold stcf_charge; cbn; by rewrite E].
  - kstep eq_refl. kstep eq_refl. rewrite upd_at by done.
    match goal with |- context [p_time_left (set_rtime ?v ?x) <? 0] =>
      change (p_time_left (set_rtime v x)) with (p_time_left (ps_proc s !!! i)) end.
    rewrite (proj2 (Z.ltb_ge _ 0)) by done. kstep eq_refl. kstep eq_refl.
    rewrite (upd_ext i (stcf_charge (now s) (time_at 1 s)) (charge (now s))) by (unfold stcf_charge; cbn; by rewrite E).
    by kstep (drop_eq c i 1 (upd i (charge (now s)) s)
      (Build_handed_back _ _ (upd _ _ _) (hb_tp _ _ _ Hb) (hb_bound _ _ _ Hb)
       (hb_noff _ _ _ Hb) (hb_sie _ _ _ Hb) (hb_lock _ _ _ Hb))).
Qed.

(** C3. STCF runs the RUNNABLE process with the smallest remaining time, ties
    broken by creation time, then pid, then table order; a process without a
    hint comes after all others, and when no RUNNABLE process has a hint the
    round is a round of RR.  After the switch back, the process is charged the
    time that passed, on its run time and, while it has time left, on its
    remaining time.  The remaining times are assumed below the maximum, the key
    the code uses for a missing hint. *)
Theorem schedule_stcf_correct c s (Hs : sched_ready c s)
  (Hv : below_max p_time_left (ps_proc s) = true) :
  (nobody runnable (ps_proc s) /\ schedule_stcf c s = Ret 0 (touched s)) \/
  (exists i, chosen (by_hint p_time_left) runnable (ps_proc s) i /\
     ((hinted (ps_proc s !!! i) = false /\
       (forall j, (j < NPROC)%nat -> runnable (ps_proc s !!! j) = true ->
          hinted (ps_proc s !!! j) = false) /\
       schedule_stcf c s = schedule_rr c (touched s)) \/
      (hinted (ps_proc s !!! i) = true /\
       exists k, schedule_stcf c s = Swtch (ToProc i) (started' c i s) k /\
         forall s2, handed_back c i s2 -> length (ps_proc s2) = NPROC ->
           0 <= p_time_left (ps_proc s2 !!! i) ->
           k s2 = Ret 1 (stcf_charged c i s2)))).
Proof.
  unfold schedule_stcf. kstep stcf_scan_eq by done.
  pose proof (select_chosen (by_key stcf_key) runnable (ps_proc s) NPROC (sr_len _ _ Hs)) as H.
  destruct (foldl _ _ _) as [i|]; [right|by left].
  pose proof (chosen_lt _ _ Hs _ _ _ H) as Hi. exists i.
  pose proof (chosen_hint _ _ Hv _ H) as Hc. split; [done|]. cbn [best_of b_proc b_key].
  assert ((stcf_key (ps_proc s !!! i) =? MAX64) = negb (hinted (ps_proc s !!! i))) as ->
    by exact (chosen_key_max _ _ Hv _ H).
  destruct (hinted (ps_proc s !!! i)) eqn:E; cbn [negb]; [right|left].
  2: { split_and!; [done| |done]. rewrite <- (sr_len _ _ Hs). by eapply chosen_no_hint. }
  split; [done|]. kstep (acq_proc_touched c s Hs) by done. kstep eq_refl.
  change (ps_proc (with_machine (acquired (ProcLock i) (hw s)) s)) with (ps_proc s).
  pose proof (proj1 (proj2 H)) as Hr. unfold runnable in Hr. rewrite Hr. cbn [negb].
  eexists. split.
  - rewrite sjf_dispatch; [reflexivity|]. by rewrite (sr_len _ _ Hs).
  - intros s2 Hb Hl Htl. cbv beta. rewrite <- Hl in Hi.
    exact (stcf_charged_eq c i s2 Hb Hi Htl).
Qed.

(** A process that runs past its remaining time under STCF is not left with
    0: the remaining time is unsigned, so it wraps to a value above 2^63 and the
    test for a negative remainder never holds.  Its key then comes after that
    of every process whose remaining time has not wrapped. *)
Theorem stcf_overrun_wraps t1 t2 p q :
  0 < p_time_left p < 2 ^ 63 ->
  p_time_left p < u64 (t2 - p_ltime p) <= 2 ^ 63 ->
  p_expected_runtime p <> 0 ->
  p_expected_runtime q <> 0 -> p_time_left q < 2 ^ 63 ->
  let p' := stcf_charge t1 t2 p in
  p_time_left p' = 2 ^ 64 + p_time_left p - u64 (t2 - p_ltime p) /\
  2 ^ 63 <= p_time_left p' < 2 ^ 64 /\
  by_key stcf_key q p' = true.
Proof.
  intros H1 H2 Hp Hq H3. cbv zeta. unfold stcf_charge.
  change (p_time_left (charge t1 p)) with (p_time_left p).
  change (p_ltime (charge t1 p)) with (p_ltime p).
  rewrite (proj2 (Z.ltb_lt _ _)) by lia. cbn [p_time_left set_time_left].
  assert (u64 (p_time_left p - u64 (t2 - p_ltime p)) =
          2 ^ 64 + p_time_left p - u64 (t2 - p_ltime p)) as E.
  { generalize dependent (u64 (t2 - p_ltime p)). intros e He. unfold u64.
    symmetry. apply (Z.mod_unique_pos _ _ (-1)); lia. }
  rewrite E. split_and!; [done|lia..|].
  unfold by_key, stcf_key. cbn [p_expected_runtime p_time_left set_time_left charge set_rtime].
  rewrite (proj2 (Z.eqb_neq _ _) Hp), (proj2 (Z.eqb_neq _ _) Hq).
  rewrite (proj2 (Z.ltb_lt _ _)) by lia. done.
Qed.

(** * MLFQ *)

Lemma sched_ready_upd c i f s : sched_ready c s -> sched_ready c (upd i f s).
Proof. intros []. split; try done. by rewrite upd_length. Qed.

Lemma sched_ready_tick c s : sched_ready c s -> sched_ready c (tick s).
Proof. by intros []. Qed.

(** The table after aging at the time of the call. *)
Definition aged (s : pstate) : pstate :=
  with_proc (age (now s) <$> ps_proc s) (touched (tick s)).

Lemma starvation_clean_eq c s :
  sched_ready c s -> starvation_clean s = Ret tt (aged s).
Proof.
  intros Hs. unfold starvation_clean. kstep gettime_eq.
  rewrite (iterl_table (fun _ => age (now s)) (sched_ready c)).
  - rewrite imap_const. done.
  - apply Hs.
  - intros i s' Hi Hs'. kstep acq_proc by done. kstep modp_eq.
    exact (critical _ (upd i _ s') (sched_ready_hart _ _ Hs') (sr_free _ _ Hs' _ Hi)).
  - intros i s' Hs'. split; [eauto with kernel|].
    by apply sched_ready_touched, sched_ready_upd.
  - by apply sched_ready_tick.
Qed.

Lemma aged_ready c s : sched_ready c s -> sched_ready c (aged s).
Proof.
  intros Hs. destruct (sched_ready_touched _ _ (sched_ready_tick _ _ Hs)) as [H1 H2 H3 H4 H5].
  split; try done. cbn. rewrite length_fmap. apply Hs.
Qed.

(** Interrupts are recorded as off: the state after any critical section. *)
Definition quiet (s : pstate) : Prop :=
  touched s = s /\ sie (curcpu (hw s)) = false.

Lemma sie_touch m : hart_ok m -> sie (curcpu (touch m)) = sie (curcpu m).
Proof.
  intros [Hb _]. unfold touch. rewrite curcpu_modcpu by done. unfold touch_cpu.
  by destruct (_ =? 0).
Qed.

Lemma aged_quiet c s :
  sched_ready c s -> sie (curcpu (hw s)) = false -> quiet (aged s).
Proof.
  intros Hs Hi. split.
  2: { change (hw (aged s)) with (touch (hw (tick s))). rewrite sie_touch; [done|].
       apply (sched_ready_hart _ _ Hs). }
  transitivity (with_proc (age (now s) <$> ps_proc s) (touched (touched (tick s)))); [done|].
  by rewrite touched_touched by (apply (sched_ready_hart _ _ Hs)).
Qed.

Section Scan.
Context (c : nat) (s : pstate).
Hypothesis Hs : sched_ready c s.
Hypothesis Hq : quiet s.

(** The state with the candidate's lock held. *)
Definition holding_best (o : option nat) : pstate :=
  match o with
  | None => s
  | Some j => with_machine (acquired (ProcLock j) (hw s)) s
  end.

Lemma quiet_touch : touch (hw s) = hw s.
Proof using Hq. pose proof (f_equal hw (proj1 Hq)) as E. exact E. Qed.

Lemma quiet_intena : c_intena (curcpu (hw s)) = 0.
Proof using Hs Hq.
  rewrite <- quiet_touch. unfold touch. rewrite curcpu_modcpu by apply (sched_ready_hart _ _ Hs).
  unfold touch_cpu. rewrite (sr_noff _ _ Hs). cbn. by rewrite (proj2 Hq).
Qed.

Lemma setcpu_same m f :
  m_tp m = c -> (c < length (m_cpus m))%nat -> f (curcpu m) = curcpu m ->
  setcpu c f (with_machine m s) = Ret tt (with_machine m s).
Proof.
  intros E1 E2 E3.
  assert (with_cpus (alter f c (m_cpus m)) m = m) as E.
  { unfold with_cpus. destruct m as [tp cs ls rd nw co ld]. cbn in *. f_equal. subst tp.
    apply list_eq. intros j. rewrite list_lookup_alter. case_decide; [subst j|done].
    rewrite (list_lookup_lookup_total_lt _ _ E2). cbn. f_equal. exact E3. }
  unfold setcpu. erewrite lift_Ret; [|reflexivity].
  change (lget (with_machine m s)) with m. by rewrite E.
Qed.

Lemma acquired_cpu i : curcpu (acquired (ProcLock i) (hw s)) = push_cpu (curcpu (hw s)).
Proof using Hs. apply curcpu_acquired, (sched_ready_hart _ _ Hs). Qed.

Lemma push_intena x : c_noff x = 0 -> sie x = false -> c_intena (push_cpu x) = 0.
Proof. intros E1 E2. unfold push_cpu. rewrite E1, E2. done. Qed.

Lemma set_intena_same x : c_intena x = 0 -> set_intena 0 x = x.
Proof. destruct x; cbn. by intros ->. Qed.

Lemma lock_free_acquired i j :
  i <> j -> (i < NPROC)%nat -> lock_free (ProcLock i) (acquired (ProcLock j) (hw s)).
Proof using Hs.
  intros Hne Hi. destruct (sr_free _ _ Hs i Hi) as [nm E]. exists nm.
  rewrite acquired_other by congruence. done.
Qed.

Lemma setcpu_best o :
  setcpu c (set_intena 0) (holding_best o) = Ret tt (holding_best o).
Proof using Hs Hq.
  destruct o as [j|]; cbn [holding_best].
  - apply setcpu_same; [apply Hs|cbn; rewrite length_insert; apply Hs|].
    apply set_intena_same. rewrite acquired_cpu. apply push_intena; [apply Hs|apply Hq].
  - pose proof (setcpu_same (hw s) (set_intena 0)) as E. rewrite with_machine_id in E.
    apply E; [apply Hs..|]. apply set_intena_same, quiet_intena.
Qed.

Lemma best_hart_ok o : hart_ok (hw (holding_best o)).
Proof using Hs.
  pose proof (sched_ready_hart _ _ Hs). destruct o; [by apply acquired_hart_ok|done].
Qed.

(** Slot [i]'s lock taken too. *)
Definition both (o : option nat) (i : nat) : machine := acquired (ProcLock i) (hw (holding_best o)).

Lemma acq_slot o i :
  (i < NPROC)%nat -> (forall j, o = Some j -> (j < i)%nat) ->
  acq (ProcLock i) (holding_best o) = Ret tt (with_machine (both o i) (holding_best o)).
Proof using Hs.
  intros Hi Ho. apply acq_free; [apply best_hart_ok|]. destruct o as [j|]; [|by apply (sr_free _ _ Hs)].
  apply lock_free_acquired; [|done]. specialize (Ho j eq_refl). lia.
Qed.

Lemma setcpu_both o i :
  setcpu c (set_intena 0) (with_machine (both o i) (holding_best o)) =
    Ret tt (with_machine (both o i) (holding_best o)).
Proof using Hs Hq.
  assert (with_machine (both o i) (holding_best o) = with_machine (both o i) s) as -> by by destruct o.
  apply setcpu_same.
  - destruct o; apply Hs.
  - unfold both. destruct o; cbn; rewrite !length_insert; apply Hs.
  - apply set_intena_same. unfold both. rewrite curcpu_acquired by apply best_hart_ok.
    destruct o as [j|]; cbn [holding_best].
    + change (hw (with_machine ?m s)) with m. rewrite acquired_cpu.
      unfold push_cpu at 1. rewrite push_cpu_noff.
      rewrite (sr_noff _ _ Hs). change (0 + 1 =? 0) with false. cbn [c_intena set_noff].
      change (c_intena (sie_off ?x)) with (c_intena x).
      apply push_intena; [apply Hs|apply Hq].
    + apply push_intena; [apply Hs|apply Hq].
Qed.

(** The slot is passed over. *)
Lemma rel_slot o i :
  (i < NPROC)%nat -> (forall j, o = Some j -> (j < i)%nat) ->
  rel (ProcLock i) (with_machine (both o i) (holding_best o)) = Ret tt (holding_best o).
Proof using Hs Hq.
  intros Hi Ho. unfold both. rewrite critical; [|apply best_hart_ok|].
  - f_equal. unfold touched. destruct o as [j|]; cbn [holding_best].
    + change (hw (with_machine ?m s)) with m. rewrite touch_acquired by apply (sched_ready_hart _ _ Hs).
      done.
    + apply (proj1 Hq).
  - destruct o as [j|]; [|by apply (sr_free _ _ Hs)].
    apply lock_free_acquired; [|done]. specialize (Ho j eq_refl). lia.
Qed.

(** The slot replaces the best so far. *)
Lemma rel_best o i j :
  (i < NPROC)%nat -> (forall j, o = Some j -> (j < i)%nat) ->
  o = Some j ->
  rel (ProcLock j) (with_machine (both o i) (holding_best o)) = Ret tt (holding_best (Some i)).
Proof using Hs.
  intros Hi Ho E. specialize (Ho j E). unfold both. rewrite E. cbn [holding_best].
  change (hw (with_machine ?m s)) with m.
  assert (release (ProcLock j) (acquired (ProcLock i) (acquired (ProcLock j) (hw s))) =
    Ret tt (acquired (ProcLock i) (hw s))) as R.
  { apply release_first; [congruence || (intros [= ?]; lia)|apply (sched_ready_hart _ _ Hs)|..];
      apply (sr_free _ _ Hs); lia. }
  exact (lift_Ret _ (with_machine _ (with_machine _ s)) _ _ R).
Qed.

Lemma mlfq_scan_prefix prty n o k :
  (k + n = NPROC)%nat -> (forall j, o = Some j -> (j < k)%nat) ->
  let sel := foldl (select_step by_ltime (runnable_at prty) (ps_proc s)) o (seq k n) in
  accl (seq k n) (mlfq_slot c prty) o (holding_best o) = Ret sel (holding_best sel).
Proof using Hs Hq.
  revert o k. induction n as [|n IH]; intros o k Hk Ho; [done|].
  cbn [seq accl foldl]. cbv zeta.
  assert (ps_proc (holding_best o) = ps_proc s) as Ep by by destruct o.
  erewrite bind_Ret; [apply IH; [lia|]|].
  - intros j. unfold select_step. case_match; [intros [= <-]; lia|].
    intros E. specialize (Ho j E). lia.
  - unfold mlfq_slot. kstep acq_slot by (lia || done). kstep eq_refl.
    change (ps_proc (with_machine ?m (holding_best o))) with (ps_proc (holding_best o)).
    rewrite Ep. unfold select_step, runnable_at.
    assert (forall b : bool, (if b then
      match o with
      | Some j => setcpu c (set_intena 0) ;; rel (ProcLock j)
      | None => ret tt
      end ;;
      ret (Some k)
    else
      setcpu c (set_intena 0) ;;
      rel (ProcLock k) ;;
      ret o) (with_machine (both o k) (holding_best o)) =
      Ret (if b then Some k else o) (holding_best (if b then Some k else o))) as Hb.
    { intros [|].
      - destruct o as [j|] eqn:Eo; [|done].
        erewrite bind_Ret; [reflexivity|].
        kstep (setcpu_both (Some j) k). by apply (rel_best (Some j) k j); [lia|..].
      - kstep (setcpu_both o k). kstep (rel_slot o k) by (lia || done). done. }
    destruct ((p_queue_level (ps_proc s !!! k) =? prty) && is_state RUNNABLE (ps_proc s !!! k));
      cbn [andb].
    + destruct o as [j|].
      * erewrite bind_Ret; [|by kstep eq_refl]. rewrite Hb. done.
      * kstep eq_refl. rewrite Hb. done.
    + kstep eq_refl. rewrite Hb. done.
Qed.

Lemma mlfq_scan_eq prty :
  let sel := foldl (select_step by_ltime (runnable_at prty) (ps_proc s)) None (seq 0 NPROC) in
  mlfq_scan c prty s = Ret sel (holding_best sel).
Proof using Hs Hq. exact (mlfq_scan_prefix prty NPROC None 0 eq_refl ltac:(done)). Qed.
End Scan.

(** The fields MLFQ writes before the switch at time [t]. *)
Definition mlfq_fields (t : Z) (p : proc) : proc :=
  let p' := set_ltime t (set_state RUNNING p) in
  if p_stime p =? 0 then set_stime t p' else p'.
Definition mlfq_started (c i : nat) (s : pstate) : pstate :=
  with_machine (take_cpu c i 1 (hw s)) (upd i (mlfq_fields (time_at 0 s)) s).
Definition mlfq_charged (c i : nat) (s : pstate) : pstate :=
  with_machine
    (released (ProcLock i) (with_now (2 + m_now (hw s))
      (with_cpus (alter (fun x => set_intena 0 (set_cproc None x)) c (m_cpus (hw s))) (hw s))))
    (upd i (mlfq_account (now s) (time_at 1 s)) s).

Lemma cpus_alter_alter (f g : cpu -> cpu) (l : list cpu) i :
  alter g i (alter f i l) = alter (fun x => g (f x)) i l.
Proof. revert i. induction l as [|p l IH]; intros [|i]; cbn; f_equal; auto. Qed.

Lemma mlfq_charged_eq {A} c i s (v : A) :
  handed_back c i s ->
  (t1 <- gettime ;;
   t2 <- gettime ;;
   modp i (mlfq_account t1 t2) ;;
   setcpu c (set_cproc None) ;;
   setcpu c (set_intena 0) ;;
   rel (ProcLock i) ;;
   ret v) s = Ret v (mlfq_charged c i s).
Proof.
  intros [Ht Hb Hn Hsi Hl]. kstep gettime_eq. kstep gettime_eq. kstep modp_eq.
  kstep eq_refl. kstep eq_refl.
  set (m := with_now (2 + m_now (hw s))
      (with_cpus (alter (fun x => set_intena 0 (set_cproc None x)) c (m_cpus (hw s))) (hw s))).
  transitivity ((rel (ProcLock i) ;; ret v)
    (with_machine m (upd i (mlfq_account (now s) (time_at 1 s)) s))).
  { unfold m. rewrite <- (cpus_alter_alter (set_cproc None) (set_intena 0)). reflexivity. }
  assert (curcpu m = set_intena 0 (set_cproc None (curcpu (hw s)))) as Ec
    by by apply curcpu_alter.
  erewrite bind_Ret; [reflexivity|]. apply rel_held; change (hw (with_machine ?m _)) with m.
  - cbn. rewrite length_alter. by rewrite Ht.
  - cbn. by rewrite Ht.
  - by rewrite Ec.
  - rewrite Ec. cbn. lia.
Qed.

(** The process at the lowest level that has one. *)
Definition mlfq_choice (ps : list proc) (l : Z) (i : nat) : Prop :=
  0 <= l < 3 /\ (forall l', 0 <= l' < l -> nobody (runnable_at l') ps) /\
  chosen by_ltime (runnable_at l) ps i.

Lemma mlfq_dispatch {A} c i s (rest : M pstate A) :
  (i < length (ps_proc s))%nat ->
  (modp i (set_state RUNNING) ;;
   setcpu c (set_cproc (Some i)) ;;
   t <- gettime ;;
   modp i (set_ltime t) ;;
   when (p_stime (ps_proc s !!! i) =? 0) (modp i (fun p => set_stime (p_ltime p) p)) ;;
   swtch (ToProc i) ;;
   rest) (with_machine (acquired (ProcLock i) (hw s)) s) =
  Swtch (ToProc i) (mlfq_started c i s) rest.
Proof.
  intros Hi. kstep modp_eq. kstep eq_refl. kstep gettime_eq. kstep modp_eq. unfold when.
  unfold mlfq_started. destruct (p_stime (ps_proc s !!! i) =? 0) eqn:E.
  - kstep modp_eq. apply swtch_at.
    transitivity (with_machine (take_cpu c i 1 (hw s))
      (upd i (fun p => set_stime (p_ltime p) p)
        (upd i (set_ltime (time_at 0 s)) (upd i (set_state RUNNING) s)))); [reflexivity|].
    rewrite !upd_upd. f_equal. apply upd_ext. unfold mlfq_fields. by rewrite E.
  - kstep eq_refl. apply swtch_at.
    transitivity (with_machine (take_cpu c i 1 (hw s))
        (upd i (set_ltime (time_at 0 s)) (upd i (set_state RUNNING) s))); [reflexivity|].
    rewrite !upd_upd. f_equal. apply upd_ext. unfold mlfq_fields. by rewrite E.
Qed.

Section Search.
Context (c : nat) (found : Z) (s : pstate).
Hypothesis Hs : sched_ready c s.
Hypothesis Hq : quiet s.

Definition mlfq_level (prty : Z) (_ : unit) : M pstate (unit + (Z + Z)) :=
  min_p <- mlfq_scan c prty ;;
  match min_p with
  | Some i =>
      p <- getp i ;;
      if negb (is_state RUNNABLE p) then ret (inr (inr found)) else
      modp i (set_state RUNNING) ;;
      setcpu c (set_cproc (Some i)) ;;
      t <- gettime ;;
      modp i (set_ltime t) ;;
      when (p_stime p =? 0) (modp i (fun p => set_stime (p_ltime p) p)) ;;
      swtch (ToProc i) ;;
      t1 <- gettime ;;
      t2 <- gettime ;;
      modp i (mlfq_account t1 t2) ;;
      setcpu c (set_cproc None) ;;
      setcpu c (set_intena 0) ;;
      rel (ProcLock i) ;;
      ret (inr (inl 1))
  | None => setcpu c (set_intena 0) ;; ret (inl tt)
  end.

Lemma mlfq_level_eq prty :
  (nobody (runnable_at prty) (ps_proc s) /\ mlfq_level prty tt s = Ret (inl tt) s) \/
  (exists i k, chosen by_ltime (runnable_at prty) (ps_proc s) i /\
     mlfq_level prty tt s = Swtch (ToProc i) (mlfq_started c i s) k /\
     forall s2, handed_back c i s2 -> k s2 = Ret (inr (inl 1)) (mlfq_charged c i s2)).
Proof using Hs Hq.
  unfold mlfq_level. kstep mlfq_scan_eq by done.
  pose proof (select_chosen by_ltime (runnable_at prty) (ps_proc s) NPROC (sr_len _ _ Hs)) as H.
  destruct (foldl _ _ _) as [i|]; [right|left].
  - kstep eq_refl. cbn [holding_best].
    change (ps_proc (with_machine ?m s)) with (ps_proc s).
    pose proof (proj1 (proj2 H)) as Hr. apply andb_true_iff in Hr as [_ Hr]. rewrite Hr.
    cbn [negb]. exists i. eexists. split; [done|]. split.
    + rewrite mlfq_dispatch by apply H. reflexivity.
    + intros s2 Hb. exact (mlfq_charged_eq c i s2 _ Hb).
  - split; [done|]. kstep (setcpu_best c s Hs Hq None). done.
Qed.

Lemma mlfq_levels_eq ls :
  (Forall (fun l => nobody (runnable_at l) (ps_proc s)) ls /\
     forl ls mlfq_level tt s = Ret (inl tt) s) \/
  (exists l1 l l2 i k, ls = l1 ++ l :: l2 /\
     Forall (fun l => nobody (runnable_at l) (ps_proc s)) l1 /\
     chosen by_ltime (runnable_at l) (ps_proc s) i /\
     forl ls mlfq_level tt s = Swtch (ToProc i) (mlfq_started c i s) k /\
     forall s2, handed_back c i s2 -> k s2 = Ret (inr (inl 1)) (mlfq_charged c i s2)).
Proof using Hs Hq.
  induction ls as [|l ls IH]; [by left|]. cbn [forl].
  destruct (mlfq_level_eq l) as [[Hn E]|(i & k & Hc & E & Hk)].
  - kstep E. destruct IH as [[Hf IH]|(l1 & l' & l2 & i & k & -> & Hf & Hc & E' & Hk)].
    + left. split; [by constructor|done].
    + right. exists (l :: l1), l', l2, i, k. split_and!; [done|by constructor|done..].
  - right. exists [], l, ls, i. eexists. split_and!; [done|by constructor|done| |].
    + erewrite bind_Swtch by exact E. reflexivity.
    + intros s2 Hb. cbv beta. rewrite Hk by done. done.
Qed.
End Search.

(** C4. MLFQ first ages the table, then runs the RUNNABLE process of the lowest
    non-empty level that was scheduled least recently (the first of the table
    on a tie), with its lock held over the switch; when the process gives the
    CPU back, it is charged and possibly demoted, its lock is released and the
    search starts again.  With no RUNNABLE process at levels 0 to 2 the round
    returns 0, all locks free. *)
Theorem schedule_mlfq_correct fuel c s
  (Hs : sched_ready c s) (Hi : sie (curcpu (hw s)) = false) :
  let ps := age (now s) <$> ps_proc s in
  ((forall l, 0 <= l < 3 -> nobody (runnable_at l) ps) /\
   schedule_mlfq (S fuel) c s = Ret 0 (aged s)) \/
  (exists l i k, mlfq_choice ps l i /\
     schedule_mlfq (S fuel) c s = Swtch (ToProc i) (mlfq_started c i (aged s)) k /\
     forall s2, handed_back c i s2 ->
       k s2 = loop fuel (mlfq_search c) 1 (mlfq_charged c i s2)).
Proof.
  cbv zeta. change (age (now s) <$> ps_proc s) with (ps_proc (aged s)).
  unfold schedule_mlfq. cbn [loop].
  assert (mlfq_search c 0 s = pbind (forl [0; 1; 2] (mlfq_level c 0) tt (aged s))
    (fun r => ret (match r with inl _ => inr 0 | inr v => v end))) as E.
  { unfold mlfq_search. kstep starvation_clean_eq by done. reflexivity. }
  destruct (mlfq_levels_eq c 0 (aged s) (aged_ready _ _ Hs) (aged_quiet _ _ Hs Hi) [0; 1; 2])
    as [[Hn E']|(l1 & l & l2 & i & k & El & Hn & Hc & E' & Hk)]; rewrite E' in E; cbn in E.
  - left. split; [|by kstep E]. rewrite !Forall_cons in Hn. intros l Hl.
    assert (l = 0 \/ l = 1 \/ l = 2) as [-> | [-> | ->]] by lia; apply Hn.
  - right. exists l, i. eexists. split_and!.
    + destruct l1 as [|? [|? [|? [|]]]]; simplify_eq/=;
        rewrite ?Forall_cons in Hn; (split; [lia|split; [|done]]); intros l' Hl'.
      * lia.
      * replace l' with 0 by lia. apply Hn.
      * assert (l' = 0 \/ l' = 1) as [-> | ->] by lia; apply Hn.
    + erewrite bind_Swtch by exact E. reflexivity.
    + intros s2 Hb. cbv beta. rewrite Hk by done. reflexivity.
Qed.

(** * RR *)

(** The body of RR's loop. *)
Definition rr_slot (c i : nat) (found : Z) : M pstate Z :=
  acq (ProcLock i) ;;
  p <- getp i ;;
  found <- (if is_state RUNNABLE p then
    modp i (set_state RUNNING) ;;
    t <- gettime ;;
    modp i (set_ltime t) ;;
    when (p_rtime p =? 0) (t <- gettime ;; modp i (set_stime t)) ;;
    setcpu c (set_cproc (Some i)) ;;
    swtch (ToProc i) ;;
    t <- gettime ;;
    modp i (fun p => set_rtime (u64 (p_rtime p + u64 (t - p_ltime p))) p) ;;
    setcpu c (set_cproc None) ;;
    ret 1
  else ret found) ;;
  rel (ProcLock i) ;;
  ret found.

Lemma rr_slot_eq c i found s :
  sched_ready c s -> (i < NPROC)%nat ->
  if runnable (ps_proc s !!! i) then
    exists k, rr_slot c i found s = Swtch (ToProc i) (started c i s) k /\
      forall s2, handed_back c i s2 -> k s2 = Ret 1 (charged c i s2)
  else rr_slot c i found s = Ret found (touched s).
Proof.
  intros Hs Hi. unfold rr_slot, runnable.
  erewrite (bind_Ret (acq (ProcLock i))) by by apply (acq_proc c).
  erewrite (bind_Ret (getp i)) by reflexivity.
  change (ps_proc (with_machine (acquired (ProcLock i) (hw s)) s)) with (ps_proc s).
  destruct (is_state RUNNABLE (ps_proc s !!! i)).
  - eexists. split.
    + erewrite bind_Swtch; [reflexivity|]. rewrite fifo_dispatch; [reflexivity|].
      by rewrite (sr_len _ _ Hs).
    + intros s2 Hb. cbv beta. pose proof (charged_eq c i s2 Hb) as E.
      unfold bind in E |- *. cbn in E |- *. rewrite E. done.
  - kstep eq_refl. kstep critical by (eauto using sr_free with kernel). done.
Qed.

(** What RR assumes of the rest of the system while slot [i] runs: it comes
    back on this CPU with the slot's lock held and no other, no other slot has
    changed between RUNNABLE and not, and the other slots' locks are free. *)
Record rr_env (c : nat) (env : target -> pstate -> pstate) : Prop := {
  re_back : forall i s, (i < NPROC)%nat -> sched_ready c s ->
    handed_back c i (env (ToProc i) (started c i s));
  re_len : forall i s, sched_ready c s ->
    length (ps_proc (env (ToProc i) (started c i s))) = NPROC;
  re_state : forall i j s, sched_ready c s -> j <> i ->
    runnable (ps_proc (env (ToProc i) (started c i s)) !!! j) = runnable (ps_proc s !!! j);
  re_free : forall i j s, sched_ready c s -> (j < NPROC)%nat -> j <> i ->
    lock_free (ProcLock j) (hw (env (ToProc i) (started c i s))) }.

(** After the process is charged, the scheduler is ready again. *)
Lemma charged_ready c i s :
  handed_back c i s -> length (ps_proc s) = NPROC ->
  (forall j, (j < NPROC)%nat -> j <> i -> lock_free (ProcLock j) (hw s)) ->
  sched_ready c (charged c i s).
Proof.
  intros [Ht Hb Hn Hsi [nm Hl]] Hlen Hf.
  split.
  - done.
  - cbn. rewrite length_insert, length_alter. done.
  - change (hw (charged c i s)) with (drop_cpu c i 1 (hw s)). unfold drop_cpu, released.
    change (curcpu (with_locks ?l ?m)) with (curcpu m).
    rewrite curcpu_modcpu by (cbn; by rewrite length_alter, Ht).
    rewrite pop_cpu_noff. unfold curcpu. cbn. rewrite Ht.
    erewrite list_lookup_total_correct.
    2: { rewrite list_lookup_alter, decide_True by done.
         by rewrite (list_lookup_lookup_total_lt _ _ Hb). }
    cbn. unfold curcpu in Hn. rewrite Ht in Hn. lia.
  - intros j Hj. change (hw (charged c i s)) with (drop_cpu c i 1 (hw s)).
    unfold lock_free, drop_cpu, released. cbn. destruct (decide (j = i)) as [->|Hne].
    + eexists. by rewrite lookup_insert_eq.
    + rewrite lookup_insert_ne by congruence. by apply Hf.
  - cbn. by rewrite length_alter.
Qed.

(** The RUNNABLE slots of [l], in table order. *)
Definition runnable_of (ps : list proc) (l : list nat) : list nat :=
  filter (fun i => runnable (ps !!! i) = true) l.

Lemma runnable_of_ext ps ps' l :
  (forall j, j ∈ l -> runnable (ps !!! j) = runnable (ps' !!! j)) ->
  runnable_of ps l = runnable_of ps' l.
Proof.
  unfold runnable_of. induction l as [|i l IH]; intros H; [done|]. rewrite !filter_cons.
  rewrite (H i) by set_solver. rewrite IH by set_solver. done.
Qed.

Lemma rr_round_eq c env l found s :
  rr_env c env -> sched_ready c s -> NoDup l -> (forall i, i ∈ l -> (i < NPROC)%nat) ->
  exists s', sched_ready c s' /\
    prun env (accl l (rr_slot c) found s) =
    (ToProc <$> runnable_of (ps_proc s) l,
     Some (match runnable_of (ps_proc s) l with [] => found | _ => 1 end, s')).
Proof.
  intros He. revert found s. induction l as [|i l IH]; intros found s Hs Hnd Hl.
  { exists s. done. }
  apply NoDup_cons in Hnd as [Hni Hnd].
  assert ((i < NPROC)%nat) as Hi by (apply Hl; set_solver).
  pose proof (rr_slot_eq c i found s Hs Hi) as E. unfold runnable_of. cbn [accl].
  rewrite filter_cons. destruct (runnable (ps_proc s !!! i)) eqn:Er.
  - rewrite decide_True by done. destruct E as (k & E & Hk).
    pose proof (re_back _ _ He i s Hi Hs) as Hb. set (s2 := env (ToProc i) (started c i s)) in *.
    assert (sched_ready c (charged c i s2)) as Hs2.
    { apply charged_ready; [done|by apply (re_len _ _ He)|]. intros j Hj Hne.
      by apply (re_free _ _ He). }
    destruct (IH 1 (charged c i s2) Hs2 Hnd) as (s' & Hs' & IH'); [set_solver|].
    exists s'. split; [done|]. erewrite bind_Swtch by exact E. cbn [prun].
    fold s2. rewrite Hk by done. cbn [pbind]. rewrite IH'.
    assert (runnable_of (ps_proc (charged c i s2)) l = runnable_of (ps_proc s) l) as ->.
    { apply runnable_of_ext. intros j Hj.
      assert (j <> i) by (intros ->; done).
      change (ps_proc (charged c i s2)) with (ps_proc (upd i (charge (now s2)) s2)).
      rewrite upd_other by done. unfold s2. by rewrite (re_state _ _ He). }
    cbn. unfold runnable_of. by destruct (filter _ l).
  - rewrite decide_False by congruence. kstep E.
    destruct (IH found (touched s)) as (s' & Hs' & IH'); [auto with kernel|done|set_solver|].
    exists s'. done.
Qed.

(** A round of RR gives the CPU once to every slot that is RUNNABLE, in the
    order of the table, and to no other; it returns 1 when there is one and 0
    otherwise, ready for the next round. *)
Theorem schedule_rr_round c env s (He : rr_env c env) (Hs : sched_ready c s) :
  exists s', sched_ready c s' /\
    prun env (schedule_rr c s) =
    (ToProc <$> runnable_of (ps_proc s) (seq 0 NPROC),
     Some (match runnable_of (ps_proc s) (seq 0 NPROC) with [] => 0 | _ => 1 end, s')).
Proof.
  apply rr_round_eq; [done..|apply NoDup_seq|]. intros i Hi. apply elem_of_seq in Hi. lia.
Qed.

(** * The feedback of MLFQ *)

(** The fields MLFQ keeps in range. *)
Definition mlfq_ok (p : proc) : Prop :=
  0 <= p_queue_level p <= 2 /\ 0 <= p_priority p <= 2 /\ 0 <= p_time_slice p <= 20000.

Lemma quantum_bounds l : 0 <= l <= 2 -> 5000 <= quantum l <= 20000.
Proof.
  intros H. assert (l = 0 \/ l = 1 \/ l = 2) as [-> | [-> | ->]] by lia; vm_compute; split; congruence.
Qed.

Lemma quantum_inj a b : 0 <= a <= 2 -> 0 <= b <= 2 -> quantum a = quantum b -> a = b.
Proof.
  intros Ha Hb. assert (a = 0 \/ a = 1 \/ a = 2) as [-> | [-> | ->]] by lia;
    assert (b = 0 \/ b = 1 \/ b = 2) as [-> | [-> | ->]] by lia; vm_compute; congruence.
Qed.

Lemma age_ok t p : mlfq_ok p -> mlfq_ok (age t p).
Proof.
  intros (H1 & H2 & H3). unfold age.
  destruct (_ && _) eqn:E; [|done]. apply andb_true_iff in E as [_ E]. apply Z.ltb_lt in E.
  unfold mlfq_ok. cbn. pose proof (quantum_bounds (p_queue_level p - 1)). lia.
Qed.

(** The three outcomes of a run under MLFQ, for a process whose fields are in
    range: part of the slice is left, the slice is used up and the process goes
    down a level, or it is used up at the last level. *)
Lemma mlfq_account_cases t1 t2 p :
  mlfq_ok p ->
  let e := u64 (t2 - p_ltime p) in
  let p' := mlfq_account t1 t2 p in
  if e <? p_time_slice p then
    p_queue_level p' = p_queue_level p /\ p_priority p' = p_priority p /\
    p_time_slice p' = p_time_slice p - e /\ p_demote p' = p_demote p
  else if p_queue_level p <? 2 then
    p_queue_level p' = p_queue_level p + 1 /\
    p_priority p' = Z.min 2 (p_priority p + 1) /\
    p_time_slice p' = quantum (p_priority p') /\ p_demote p' = 0
  else
    p_queue_level p' = 2 /\ p_priority p' = p_priority p /\
    p_time_slice p' = 0 /\ p_demote p' = 1.
Proof.
  intros (H1 & H2 & H3). cbv zeta. unfold mlfq_account. cbv zeta.
  change (p_time_slice (set_etime t2 (set_rtime ?a p))) with (p_time_slice p).
  change (p_ltime (set_rtime ?a p)) with (p_ltime p).
  assert (0 <= u64 (t2 - p_ltime p)) as He by (apply Z.mod_pos_bound; lia).
  destruct (Z.ltb_spec (u64 (t2 - p_ltime p)) (p_time_slice p)) as [Hl|Hl].
  - set (e := u64 (t2 - p_ltime p)) in *. cbn.
    rewrite (proj2 (Z.eqb_neq (p_time_slice p - e) 0)) by lia. done.
  - cbn. destruct (Z.ltb_spec (p_queue_level p) 2) as [Hq|Hq]; cbn.
    + destruct (Z.ltb_spec (p_priority p) 2); cbn; repeat split; done || lia.
    + repeat split; done || lia.
Qed.

Lemma mlfq_account_ok t1 t2 p : mlfq_ok p -> mlfq_ok (mlfq_account t1 t2 p).
Proof.
  intros Hok. pose proof (mlfq_account_cases t1 t2 p Hok) as H. cbv zeta in H.
  destruct Hok as (H1 & H2 & H3). unfold mlfq_ok.
  assert (0 <= u64 (t2 - p_ltime p)) as He by (apply Z.mod_pos_bound; lia).
  destruct (_ <? _) eqn:E1; [apply Z.ltb_lt in E1; lia|].
  destruct (_ <? 2) eqn:E2; [apply Z.ltb_lt in E2|apply Z.ltb_ge in E2; lia].
  destruct H as (-> & Hp & Ht & _). rewrite Ht, Hp.
  pose proof (quantum_bounds (Z.min 2 (p_priority p + 1))). lia.
Qed.

(** C33. A run under MLFQ has three outcomes.  A process that leaves part of its
    slice keeps its level and its priority, and the rest of the slice.  One that
    uses it up above the last level goes down one level, its priority number
    goes up by one to at most 2, and its slice is the quantum of the new
    priority; that is the quantum of the new level, as proc.h describes the
    field, exactly when priority and level agree again, which aging can undo.
    At the last level level and priority stay and the slice stays used up.  The
    flag [demote] is set only in the last case.  In each the level, the priority
    and the slice stay in range. *)
Theorem mlfq_feedback t1 t2 p (Hok : mlfq_ok p) :
  let e := u64 (t2 - p_ltime p) in
  let p' := mlfq_account t1 t2 p in
  mlfq_ok p' /\
  (e < p_time_slice p ->
     p_queue_level p' = p_queue_level p /\ p_priority p' = p_priority p /\
     p_time_slice p' = p_time_slice p - e /\ p_demote p' = p_demote p) /\
  (p_time_slice p <= e -> p_queue_level p < 2 ->
     p_queue_level p' = p_queue_level p + 1 /\ p_priority p' = Z.min 2 (p_priority p + 1) /\
     p_time_slice p' = quantum (p_priority p') /\ p_demote p' = 0 /\
     (p_time_slice p' = quantum (p_queue_level p') <-> p_priority p' = p_queue_level p')) /\
  (p_time_slice p <= e -> p_queue_level p = 2 ->
     p_queue_level p' = 2 /\ p_priority p' = p_priority p /\ p_time_slice p' = 0 /\ p_demote p' = 1).
Proof.
  cbv zeta. pose proof (mlfq_account_cases t1 t2 p Hok) as H. cbv zeta in H.
  split; [by apply mlfq_account_ok|].
  split; [|split]; intros He; [|intros Hq..].
  - by rewrite (proj2 (Z.ltb_lt _ _) He) in H.
  - rewrite (proj2 (Z.ltb_ge _ _) He), (proj2 (Z.ltb_lt _ _) Hq) in H.
    destruct H as (Hl & Hp & Ht & Hd). split_and!; try done. rewrite Ht. split; [|by intros ->].
    destruct Hok as (? & ? & _). apply quantum_inj; lia.
  - by rewrite (proj2 (Z.ltb_ge _ _) He), (proj2 (Z.ltb_ge (p_queue_level p) 2)) in H by lia.
Qed.

(** MLFQ charges the time of a run twice: once when the process comes back
    and once with the elapsed time it computes for the slice. *)
Theorem mlfq_charges_twice t1 t2 p :
  p_rtime (mlfq_account t1 t2 p) =
  u64 (p_rtime p + u64 (t1 - p_ltime p) + u64 (t2 - p_ltime p)).
Proof.
  unfold mlfq_account. cbv zeta.
  change (p_ltime (set_rtime ?a p)) with (p_ltime p).
  transitivity (u64 (u64 (p_rtime p + u64 (t1 - p_ltime p)) + u64 (t2 - p_ltime p))).
  - repeat match goal with |- context [if ?b then _ else _] => destruct b end; reflexivity.
  - unfold u64 at 1 2 5. by rewrite Z.add_mod_idemp_l.
Qed.

(** Aging: a RUNNABLE process that last gave up the CPU more than
    [starv_cut] ago goes up one level, with the slice of the new level, each
    time MLFQ searches; after two searches it is at level 0.  Nobody else's
    level changes. *)
Theorem aging_promotes t t' p (Hok : mlfq_ok p) :
  let old := is_state RUNNABLE p && (starv_cut <? u64 (t - p_etime p)) in
  mlfq_ok (age t p) /\
  p_queue_level (age t p) = (if old then Z.max 0 (p_queue_level p - 1) else p_queue_level p) /\
  (old = true -> starv_cut < u64 (t' - p_etime p) ->
     p_queue_level (age t' (age t p)) = 0).
Proof.
  cbv zeta. split; [by apply age_ok|]. destruct Hok as (H1 & _).
  assert (forall t p, 0 <= p_queue_level p <= 2 -> p_queue_level (age t p) =
    if is_state RUNNABLE p && (starv_cut <? u64 (t - p_etime p))
    then Z.max 0 (p_queue_level p - 1) else p_queue_level p) as H.
  { intros t0 p0 H0. unfold age. destruct (is_state RUNNABLE p0 && _); cbn [andb]; [|done].
    destruct (Z.ltb_spec 0 (p_queue_level p0)); cbn; lia. }
  split; [by apply H|]. intros E Ht'.
  assert (p_etime (age t p) = p_etime p /\ is_state RUNNABLE (age t p) = is_state RUNNABLE p)
    as [E1 E2].
  { unfold age. match goal with |- context [if ?b then _ else _] => destruct b end; done. }
  pose proof (H t p H1) as El. rewrite E in El. rewrite H by lia.
  rewrite E1, E2. apply andb_true_iff in E as [-> _].
  rewrite (proj2 (Z.ltb_lt _ _) Ht'). cbn [andb]. lia.
Qed.

(** * Examples *)

Lemma demo_ready : sched_ready 0 demo_pstate.
Proof.
  split; [done|vm_compute; lia|done| |done]. intros i Hi. by apply demo_proc_free.
Qed.

(** What the scheduler hands to the process it chose. *)
Lemma started_back c i s :
  sched_ready c s -> (i < NPROC)%nat ->
  handed_back c i (started c i s) /\ c_proc (curcpu (hw (started c i s))) = Some i.
Proof.
  intros Hs Hi. set (n := if p_rtime (ps_proc s !!! i) =? 0 then 2%nat else 1%nat).
  assert (curcpu (take_cpu c i n (hw s)) =
    set_cproc (Some i) (push_cpu (curcpu (hw s)))) as E.
  { rewrite <- (curcpu_acquired (ProcLock i)) by eauto with kernel.
    apply curcpu_alter; [apply Hs|]. cbn. rewrite length_insert. apply Hs. }
  unfold started. change (hw (with_machine ?m ?x)) with m. fold n. split; [split|].
  - apply Hs.
  - unfold take_cpu. cbn. rewrite length_alter, length_insert. apply Hs.
  - change (hw (with_machine ?m ?x)) with m. rewrite E. cbn [c_noff set_cproc].
    rewrite push_cpu_noff, (sr_noff _ _ Hs). lia.
  - change (hw (with_machine ?m ?x)) with m. rewrite E. apply push_cpu_sie.
  - pose proof (acquired_held (ProcLock i) (hw s)) as H. rewrite (sr_tp _ _ Hs) in H. exact H.
  - by rewrite E.
Qed.

(** A system whose processes give the CPU straight back. *)
Lemma demo_env : rr_env 0 (fun _ s => s).
Proof.
  split.
  - intros i s Hi Hs. by apply started_back.
  - intros i s Hs. cbn. rewrite length_alter. apply Hs.
  - intros i j s Hs Hne. unfold started. cbn [ps_proc with_machine with_mem].
    by rewrite (upd_other i j) by done.
  - intros i j s Hs Hj Hne. destruct (sr_free _ _ Hs j Hj) as [nm E]. exists nm.
    unfold started, take_cpu. cbn. rewrite lookup_insert_ne by congruence. exact E.
Qed.

Lemma schedule_fifo_correct_witness :
  (nobody runnable demo_procs /\ schedule_fifo 0 demo_pstate = Ret 0 demo_pstate) \/
  (exists i k, chosen by_ctime runnable demo_procs i /\
     schedule_fifo 0 demo_pstate = Swtch (ToProc i) (started 0 i demo_pstate) k /\
     forall s2, handed_back 0 i s2 -> k s2 = Ret 1 (charged 0 i s2)).
Proof. apply (schedule_fifo_correct 0 demo_pstate). apply demo_ready. Defined.

Lemma schedule_sjf_correct_witness :
  (nobody runnable demo_procs /\ schedule_sjf 0 demo_pstate = Ret 0 (touched demo_pstate)) \/
  (exists i, chosen (by_hint p_expected_runtime) runnable demo_procs i /\
     ((hinted (demo_procs !!! i) = false /\
       (forall j, (j < NPROC)%nat -> runnable (demo_procs !!! j) = true ->
          hinted (demo_procs !!! j) = false) /\
       schedule_sjf 0 demo_pstate = schedule_rr 0 (touched demo_pstate)) \/
      (hinted (demo_procs !!! i) = true /\
       exists k, schedule_sjf 0 demo_pstate = Swtch (ToProc i) (started' 0 i demo_pstate) k /\
         forall s2, handed_back 0 i s2 -> k s2 = Ret 1 (charged 0 i s2)))).
Proof. apply (schedule_sjf_correct 0 demo_pstate demo_ready). vm_compute. reflexivity. Defined.

Lemma schedule_stcf_correct_witness :
  (nobody runnable demo_procs /\ schedule_stcf 0 demo_pstate = Ret 0 (touched demo_pstate)) \/
  (exists i, chosen (by_hint p_time_left) runnable demo_procs i /\
     ((hinted (demo_procs !!! i) = false /\
       (forall j, (j < NPROC)%nat -> runnable (demo_procs !!! j) = true ->
          hinted (demo_procs !!! j) = false) /\
       schedule_stcf 0 demo_pstate = schedule_rr 0 (touched demo_pstate)) \/
      (hinted (demo_procs !!! i) = true /\
       exists k, schedule_stcf 0 demo_pstate = Swtch (ToProc i) (started' 0 i demo_pstate) k /\
         forall s2, handed_back 0 i s2 -> length (ps_proc s2) = NPROC ->
           0 <= p_time_left (ps_proc s2 !!! i) ->
           k s2 = Ret 1 (stcf_charged 0 i s2)))).
Proof. apply (schedule_stcf_correct 0 demo_pstate demo_ready). vm_compute. reflexivity. Defined.

Lemma schedule_mlfq_correct_witness :
  let ps := age (now demo_pstate) <$> demo_procs in
  ((forall l, 0 <= l < 3 -> nobody (runnable_at l) ps) /\
   schedule_mlfq 5 0 demo_pstate = Ret 0 (aged demo_pstate)) \/
  (exists l i k, mlfq_choice ps l i /\
     schedule_mlfq 5 0 demo_pstate = Swtch (ToProc i) (mlfq_started 0 i (aged demo_pstate)) k /\
     forall s2, handed_back 0 i s2 ->
       k s2 = loop 4 (mlfq_search 0) 1 (mlfq_charged 0 i s2)).
Proof. apply (schedule_mlfq_correct 4 0 demo_pstate); [apply demo_ready|reflexivity]. Defined.

Lemma schedule_rr_round_witness :
  exists s', sched_ready 0 s' /\
    prun (fun _ s => s) (schedule_rr 0 demo_pstate) = ([ToProc 1; ToProc 2], Some (1, s')).
Proof. apply (schedule_rr_round 0 (fun _ s => s) demo_pstate demo_env demo_ready). Defined.

Lemma stcf_overrun_wraps_witness :
  p_time_left (stcf_charge 1000 1000 (demo_procs !!! 2%nat)) = 2 ^ 64 - 300 /\
  by_key stcf_key (set_time_left 5000 (demo_procs !!! 1%nat))
    (stcf_charge 1000 1000 (demo_procs !!! 2%nat)) = true.
Proof.
  destruct (stcf_overrun_wraps 1000 1000 (demo_procs !!! 2%nat)
    (set_time_left 5000 (demo_procs !!! 1%nat))) as (H1 & _ & H2);
    [vm_compute; done..|]. split; [rewrite H1; reflexivity|exact H2].
Defined.

Lemma demo_mlfq_ok : mlfq_ok (set_queue_level 2 (demo_procs !!! 1%nat)).
Proof. vm_compute. repeat split; congruence. Qed.

(** A process that aging moved up from level 1 to level 0 and that then uses its
    slice up is at level 1 with the quantum of level 2. *)
Lemma mlfq_feedback_witness :
  let p := age 20000000 (set_queue_level 1 (set_priority 1 (demo_procs !!! 1%nat))) in
  let p' := mlfq_account 7000 7000 p in
  p_queue_level p = 0 /\ p_priority p = 1 /\
  p_queue_level p' = 1 /\ p_priority p' = 2 /\ p_time_slice p' = 20000 /\
  p_time_slice p' <> quantum (p_queue_level p').
Proof.
  cbv zeta.
  destruct (mlfq_feedback 7000 7000 (age 20000000 (set_queue_level 1 (set_priority 1 (demo_procs !!! 1%nat)))))
    as (_ & _ & H & _).
  - vm_compute. repeat split; congruence.
  - destruct H as (H1 & H2 & H3 & _ & H4); [vm_compute; congruence|reflexivity|].
    split_and!; [reflexivity|reflexivity|by rewrite H1|by rewrite H2|by rewrite H3, H2|].
    intros E%H4. rewrite H1, H2 in E. discriminate E.
Defined.

Lemma aging_promotes_witness :
  p_queue_level (age 20000000 (age 20000000 (set_queue_level 2 (demo_procs !!! 1%nat)))) = 0.
Proof.
  destruct (aging_promotes 20000000 20000000 (set_queue_level 2 (demo_procs !!! 1%nat)) demo_mlfq_ok)
    as (_ & _ & H). apply H; reflexivity.
Defined.
