(* ===== verification/Switch.v ===== *)
(** The protocol between kernel threads and the scheduler: what [yield],
    [sleep] and [wakeup] of kernel/proc.c do, and that the two halves of a
    context switch, [sched] on one side and the scheduling policies on the
    other, hand each other exactly the state the other side relies on
    ([handed_back]). *)
From S2P Require Import Prelude Riscv Spinlock Memory Kalloc Vm Proc Sched.

(** Slot [i] is the current process of hart [h], at lock depth [n], and its
    lock is free. *)
Record running (h i : nat) (n : Z) (s : pstate) : Prop := {
  rn_tp : m_tp (hw s) = h;
  rn_hart : hart_ok (hw s);
  rn_proc : c_proc (curcpu (hw s)) = Some i;
  rn_noff : c_noff (curcpu (hw s)) = n;
  rn_slot : (i < length (ps_proc s))%nat;
  rn_free : lock_free (ProcLock i) (hw s) }.

Lemma push_cpu_proc c : c_proc (push_cpu c) = c_proc c.
Proof. unfold push_cpu. by destruct (_ =? 0). Qed.

Lemma push_cpu_intena c : c_noff c = 0 -> c_intena (push_cpu c) = Z.b2z (sie c).
Proof. intros E. unfold push_cpu. by rewrite E. Qed.

Section Thread.
Context (h i : nat) (n : Z) (s : pstate).
Hypothesis Hr : running h i n s.

Definition locked : pstate := with_machine (acquired (ProcLock i) (hw s)) s.

(** [p = myproc(); acquire(&p->lock)]. *)
Lemma lock_self {A} (rest : nat -> M pstate A) :
  (p <- curproc ;; acq (ProcLock p) ;; rest p) s = rest i locked.
Proof using Hr.
  destruct Hr as [H1 H2 H3 H4 H5 H6]. kstep curproc_eq by done.
  kstep acq_free by (try done; by apply touch_hart_ok).
  unfold touched. rewrite with_machine_with_machine. unfold locked.
  change (hw (with_machine (touch (hw s)) s)) with (touch (hw s)).
  by rewrite acquired_touch.
Qed.

Lemma locked_cpu : curcpu (hw locked) = push_cpu (curcpu (hw s)).
Proof using Hr. apply curcpu_acquired, Hr. Qed.
End Thread.

(** What is left of a thread that gave up the CPU, when it is resumed on hart
    [h2]: restore the interrupt flag it had and release the lock. *)
Lemma resume_release h2 i v s2 :
  handed_back h2 i s2 ->
  exists s3, rel (ProcLock i) (with_machine (modcpu (set_intena v) (hw s2)) s2) = Ret tt s3 /\
    s3 = with_machine (hw s3) s2 /\ m_tp (hw s3) = h2 /\
    hart_ok (hw s3) /\ lock_free (ProcLock i) (hw s3) /\
    (forall lk, lk <> ProcLock i -> m_locks (hw s3) !! lk = m_locks (hw s2) !! lk) /\
    c_noff (curcpu (hw s3)) = 0 /\ sie (curcpu (hw s3)) = negb (v =? 0).
Proof.
  intros [H1 H2 H3 H4 [nm H5]]. set (m := modcpu (set_intena v) (hw s2)).
  assert ((m_tp (hw s2) < length (m_cpus (hw s2)))%nat) as Hb by by rewrite H1.
  assert (curcpu m = set_intena v (curcpu (hw s2))) as Ec by by apply curcpu_modcpu.
  assert (curcpu (released (ProcLock i) m) = pop_cpu (set_intena v (curcpu (hw s2)))) as Ep.
  { rewrite <- Ec. apply (curcpu_modcpu pop_cpu m). by apply modcpu_bound. }
  exists (with_machine (released (ProcLock i) m) s2).
  change (hw (with_machine ?m s2)) with m. split_and!.
  - rewrite rel_held; [done|..]; change (hw (with_machine ?m s2)) with m.
    + by apply modcpu_bound.
    + exists nm. unfold m. cbn. by rewrite H1.
    + by rewrite Ec.
    + rewrite Ec. cbn. lia.
  - done.
  - done.
  - split; [cbn; rewrite !length_insert; by rewrite H1|]. rewrite Ep.
    apply pop_cpu_ok; [done|cbn; lia].
  - eexists. unfold released. cbn. by rewrite lookup_insert_eq.
  - intros lk Hne. unfold released. cbn. by rewrite lookup_insert_ne.
  - rewrite Ep, pop_cpu_noff. cbn. lia.
  - rewrite Ep. unfold pop_cpu. cbn [c_noff set_intena c_intena]. rewrite H3. cbn [andb].
    change (1 =? 1) with true. cbn [andb].
    destruct (v =? 0); cbn [negb]; [done|apply sie_sie_on].
Qed.

(** C12. [yield] marks the process RUNNABLE and switches to the scheduler with
    exactly the process's lock held, at depth one and with interrupts off, as
    the scheduler relies on; resumed on any hart in the same situation, it
    returns with that lock free, no lock held and interrupts as they were. *)
Theorem yield_protocol h i s (Hr : running h i 0 s) :
  exists s1 k, yield s = Swtch ToScheduler s1 k /\
    handed_back h i s1 /\ ps_proc s1 = alter (set_state RUNNABLE) i (ps_proc s) /\
    forall h2 s2, handed_back h2 i s2 ->
      exists s3, k s2 = Ret tt s3 /\ ps_proc s3 = ps_proc s2 /\ m_tp (hw s3) = h2 /\
        lock_free (ProcLock i) (hw s3) /\ c_noff (curcpu (hw s3)) = 0 /\
        sie (curcpu (hw s3)) = sie (curcpu (hw s)).
Proof.
  set (s1 := upd i (set_state RUNNABLE) (locked i s)).
  pose proof (locked_cpu h i 0 s Hr) as Ec.
  assert (handed_back h i s1) as Hb.
  { split.
    - apply Hr.
    - cbn. rewrite length_insert. rewrite <- (rn_tp _ _ _ _ Hr). apply (rn_hart _ _ _ _ Hr).
    - change (hw s1) with (hw (locked i s)). rewrite Ec, push_cpu_noff, (rn_noff _ _ _ _ Hr). lia.
    - change (hw s1) with (hw (locked i s)). rewrite Ec. apply push_cpu_sie.
    - rewrite <- (rn_tp _ _ _ _ Hr). apply acquired_held. }
  exists s1. eexists. split_and!; [|done|done|].
  - unfold yield. rewrite (lock_self h i 0 s Hr). kstep modp_eq. fold s1.
    erewrite bind_Swtch; [reflexivity|]. apply (sched_eq h i); [done|..].
    + change (hw s1) with (hw (locked i s)). rewrite Ec, push_cpu_proc. apply Hr.
    + unfold s1. rewrite upd_at by apply Hr. done.
  - intros h2 s2 Hb2. cbv beta. cbn [pbind].
    edestruct (resume_release h2 i) as (s3 & E & E3 & T3 & _ & F3 & _ & N3 & S3); [done|].
    exists s3. split_and!; [exact E|by rewrite E3|done..|].
    rewrite S3. change (hw s1) with (hw (locked i s)). rewrite Ec, push_cpu_intena by apply Hr.
    destruct (sie (curcpu (hw s))); reflexivity.
Qed.

(** A lock held outside a critical section of another one. *)
Lemma release_outer lk lk' m :
  lk <> lk' -> hart_ok m -> lock_held lk (m_tp m) m -> 1 <= c_noff (curcpu m) ->
  exists m', release lk (acquired lk' m) = Ret tt m' /\
    m_tp m' = m_tp m /\ (m_tp m < length (m_cpus m'))%nat /\
    c_noff (curcpu m') = c_noff (curcpu m) /\ sie (curcpu m') = false /\
    c_proc (curcpu m') = c_proc (curcpu m) /\
    lock_held lk' (m_tp m) m' /\ lock_free lk m' /\
    c_intena (curcpu m') = c_intena (curcpu m).
Proof.
  intros Hne Hm [nm Hl] Hn. pose proof (acquired_hart_ok lk' m Hm) as Ha.
  pose proof (curcpu_acquired lk' m Hm) as Ec.
  exists (released lk (acquired lk' m)).
  assert (curcpu (released lk (acquired lk' m)) = pop_cpu (push_cpu (curcpu m))) as Ep.
  { rewrite <- Ec. apply (curcpu_modcpu pop_cpu). apply Ha. }
  assert (c_noff (curcpu m) <> 0) as H0 by lia.
  assert (pop_cpu (push_cpu (curcpu m)) = curcpu m) as Epp.
  { rewrite pop_push_cpu by apply Hm. unfold touch_cpu. by rewrite (proj2 (Z.eqb_neq _ _) H0). }
  rewrite Ep, Epp. split_and!.
  - apply release_held; [apply Ha| | |].
    + exists nm. change (m_tp (acquired lk' m)) with (m_tp m).
      by rewrite acquired_other.
    + rewrite Ec. apply push_cpu_sie.
    + rewrite Ec, push_cpu_noff. lia.
  - done.
  - cbn. rewrite !length_insert. apply Hm.
  - done.
  - apply Hm. lia.
  - done.
  - destruct (acquired_held lk' m) as [nm' E]. exists nm'. unfold released. cbn [m_locks with_locks].
    by rewrite lookup_insert_ne.
  - eexists. unfold released. cbn [m_locks with_locks]. by rewrite lookup_insert_eq.
  - done.
Qed.

(** Hart [g] holds the lock of slot [i]. *)
Definition contended (g i : nat) (s : pstate) : pstate :=
  with_machine (with_locks (<[ProcLock i := Spinlock 1 "proc" (Some g)]> (m_locks (hw s))) (hw s)) s.

(** [p = myproc(); acquire(&p->lock)] while another hart holds the lock. *)
Lemma lock_self_contended h i n g s :
  running h i n s -> g <> h ->
  exists s4, (forall A (rest : nat -> M pstate A),
      (p <- curproc ;; acq (ProcLock p) ;; rest p) (contended g i s) = Spin s4) /\
    ps_proc s4 = ps_proc s /\
    m_locks (hw s4) = <[ProcLock i := Spinlock 1 "proc" (Some g)]> (m_locks (hw s)).
Proof.
  intros [H1 H2 H3 H4 H5 H6] Hg.
  set (s0 := contended g i s). assert (hart_ok (hw s0)) as H2' by exact H2.
  eexists. split; [|split].
  - intros A rest. kstep (curproc_eq i s0) by done. apply bind_Spin.
    eapply lift_Spin. rewrite acquire_cases by by apply touch_hart_ok.
    change (m_locks (lget (touched s0))) with (<[ProcLock i := Spinlock 1 "proc" (Some g)]> (m_locks (hw s))).
    rewrite lookup_total_insert_eq. cbn [lk_locked lk_cpu].
    rewrite bool_decide_eq_false_2; [reflexivity|].
    change (m_tp (lget (touched s0))) with (m_tp (hw s)). congruence.
  - done.
  - done.
Qed.

(** C11. [sleep(c, lk)] switches to the scheduler with the process SLEEPING on
    [c], its own lock held and [lk] free.  The condition lock is released only
    after the process's lock is taken: while another hart holds that one, as
    [wakeup] does, [sleep] waits for it with [lk] held and the table as it was,
    so that no [wakeup] comes between the test of the condition and the sleep.
    Resumed, it has forgotten the channel, released its own lock and holds [lk]
    again. *)
Theorem sleep_protocol h i c lk s
  (Hr : running h i 1 s) (Hlk : lock_held lk h (hw s)) (Hne : lk <> ProcLock i) :
  (forall g, g <> h -> exists s4, sleep c lk (contended g i s) = Spin s4 /\
     lock_held lk h (hw s4) /\ lock_held (ProcLock i) g (hw s4) /\ ps_proc s4 = ps_proc s) /\
  exists s1 k, sleep c lk s = Swtch ToScheduler s1 k /\
    handed_back h i s1 /\ lock_free lk (hw s1) /\
    ps_proc s1 = alter (fun p => set_state SLEEPING (set_chan c p)) i (ps_proc s) /\
    forall h2 s2, handed_back h2 i s2 -> lock_free lk (hw s2) ->
      exists s3, k s2 = Ret tt s3 /\
        ps_proc s3 = alter (set_chan ChNull) i (ps_proc s2) /\
        lock_held lk h2 (hw s3) /\ lock_free (ProcLock i) (hw s3) /\
        c_noff (curcpu (hw s3)) = 1 /\ sie (curcpu (hw s3)) = false.
Proof.
  split.
  { intros g Hg. destruct (lock_self_contended h i 1 g s Hr Hg) as (s4 & E & P & L).
    exists s4. split; [exact (E unit _)|]. destruct Hlk as [nm Hlk]. split_and!; [exists nm|exists "proc"|done]; rewrite L.
    - by rewrite lookup_insert_ne.
    - by rewrite lookup_insert_eq. }
  destruct (release_outer lk (ProcLock i) (hw s) Hne) as
    (m' & E & T & B & N & S & P & L & F & I); [apply Hr|by rewrite (rn_tp _ _ _ _ Hr)| |].
  { rewrite (rn_noff _ _ _ _ Hr). lia. }
  rewrite (rn_tp _ _ _ _ Hr) in *. rewrite (rn_noff _ _ _ _ Hr) in N.
  set (s1 := upd i (set_state SLEEPING) (upd i (set_chan c) (with_machine m' s))).
  assert (handed_back h i s1) as Hb by by split.
  exists s1. eexists. split_and!; [|done|done| |].
  - unfold sleep. rewrite (lock_self h i 1 s Hr).
    kstep (lift_Ret _ (locked i s) _ _ E). kstep modp_eq. kstep modp_eq.
    change (lset m' (locked i s)) with (with_machine m' s). fold s1.
    erewrite bind_Swtch; [reflexivity|]. apply (sched_eq h i); [done|..].
    + change (hw s1) with m'. rewrite P. apply Hr.
    + unfold s1. rewrite upd_at by (rewrite upd_length; apply Hr). done.
  - unfold s1. rewrite upd_upd. done.
  - intros h2 s2 Hb2 Hf2. cbv beta. cbn [pbind]. kstep modp_eq.
    edestruct (resume_release h2 i (c_intena (curcpu (hw s1))) (upd i (set_chan ChNull) s2))
      as (s3 & E3 & Es3 & T3 & K3 & F3 & O3 & N3 & S3).
    { destruct Hb2. by split. }
    erewrite (bind_Ret (rel (ProcLock i))) by exact E3.
    assert (lock_free lk (hw s3)) as Fl.
    { destruct Hf2 as [nm ?]. exists nm. by rewrite O3. }
    exists (with_machine (acquired lk (hw s3)) s3). split_and!.
    + by apply acq_free.
    + by rewrite Es3.
    + rewrite <- T3. apply acquired_held.
    + destruct F3 as [nm ?]. exists nm. change (hw (with_machine ?m s3)) with m.
      by rewrite acquired_other.
    + change (hw (with_machine ?m s3)) with m. rewrite curcpu_acquired by done.
      rewrite push_cpu_noff. lia.
    + change (hw (with_machine ?m s3)) with m. rewrite curcpu_acquired by done.
      apply push_cpu_sie.
Qed.

(** What [wakeup] does to slot [i]. *)
Definition wake (c : chan) (me : option nat) (i : nat) (p : proc) : proc :=
  if negb (bool_decide (me = Some i)) && is_state SLEEPING p && bool_decide (p_chan p = c)
  then set_state RUNNABLE p else p.

(** The caller may hold locks, but no process's. *)
Record table_free (me : option nat) (s : pstate) : Prop := {
  tf_hart : hart_ok (hw s);
  tf_proc : c_proc (curcpu (hw s)) = me;
  tf_free : forall i, (i < NPROC)%nat -> lock_free (ProcLock i) (hw s) }.

Lemma touch_cpu_proc c : c_proc (touch_cpu c) = c_proc c.
Proof. unfold touch_cpu. by destruct (_ =? 0). Qed.

Lemma table_free_touched me i f s : table_free me s -> table_free me (touched (upd i f s)).
Proof.
  intros [H1 H2 H3]. split.
  - by apply (touch_hart_ok (hw s)).
  - change (hw (touched (upd i f s))) with (touch (hw s)). unfold touch.
    rewrite curcpu_modcpu by apply H1. by rewrite touch_cpu_proc.
  - done.
Qed.

(** A slot's critical section inside a loop that asks for [myproc] first. *)
Lemma wakeup_slot c me i s :
  table_free me s -> (i < NPROC)%nat ->
  (me <- myproc ;;
   if bool_decide (me = Some i) then ret tt else
   acq (ProcLock i) ;;
   p <- getp i ;;
   when (is_state SLEEPING p && bool_decide (p_chan p = c)) (modp i (set_state RUNNABLE)) ;;
   rel (ProcLock i)) s = Ret tt (touched (upd i (wake c me i) s)).
Proof.
  intros Hs Hi. pose proof (tf_hart _ _ Hs) as Hh. kstep myproc_eq by done.
  rewrite (tf_proc _ _ Hs). destruct (decide (me = Some i)) as [E|E].
  - rewrite bool_decide_eq_true_2 by done. unfold ret. f_equal. f_equal.
    rewrite (upd_ext i _ (fun p => p)); [by rewrite upd_id|].
    unfold wake. by rewrite bool_decide_eq_true_2.
  - rewrite bool_decide_eq_false_2 by done.
    pose proof (tf_free _ _ Hs i Hi) as Hf.
    kstep acq_free by (try done; by apply touch_hart_ok). kstep eq_refl.
    change (ps_proc (with_machine ?m (touched s))) with (ps_proc s).
    set (b := is_state SLEEPING (ps_proc s !!! i) && bool_decide (p_chan (ps_proc s !!! i) = c)).
    assert (upd i (wake c me i) s = if b then upd i (set_state RUNNABLE) s else s) as Ew.
    { subst b. destruct (_ && _) eqn:Eb.
      - apply upd_ext. unfold wake. rewrite bool_decide_eq_false_2 by done. cbn [negb andb]. by rewrite Eb.
      - rewrite (upd_ext i _ (fun p => p)); [apply upd_id|].
        unfold wake. rewrite bool_decide_eq_false_2 by done. cbn [negb andb]. by rewrite Eb. }
    rewrite Ew. destruct b; cbn [when].
    + kstep modp_eq.
      pose proof (critical (ProcLock i) (touched (upd i (set_state RUNNABLE) s))
        (touch_hart_ok _ Hh) Hf) as C. rewrite touched_touched in C by done. exact C.
    + kstep eq_refl.
      pose proof (critical (ProcLock i) (touched s) (touch_hart_ok _ Hh) Hf) as C.
      rewrite touched_touched in C by done. exact C.
Qed.

Lemma wakeup_eq c me s :
  table_free me s -> length (ps_proc s) = NPROC ->
  wakeup c s = Ret tt (with_proc (imap (wake c me) (ps_proc s)) (touched s)).
Proof.
  intros Hs Hlen. unfold wakeup. apply (iterl_table (wake c me) (table_free me)); [done| | |done].
  - intros i s' Hi Hs'. by apply wakeup_slot.
  - intros i s' Hs'. split; [apply Hs'|by apply table_free_touched].
Qed.

(** [wakeup(c)] makes every process that is SLEEPING on [c] RUNNABLE, except
    the caller, and changes nothing else. *)
Theorem wakeup_wakes c me s (Hs : table_free me s) (Hlen : length (ps_proc s) = NPROC) :
  wakeup c s = Ret tt (with_proc (imap (wake c me) (ps_proc s)) (touched s)).
Proof. by apply wakeup_eq. Qed.

(** * Examples *)

(** Slot 1 runs on hart 0, at depth [n], with the timer lock held when [n] is
    positive. *)
Definition demo_running (n : Z) : pstate :=
  with_machine
    (with_cpus (<[0%nat := Cpu (Some 1%nat) n 0 (Csrs 0 0 0 0 0 0 0)]> (m_cpus demo_machine))
      (with_locks (if n =? 0 then demo_locks else <[TicksLock := Spinlock 1 "" (Some 0%nat)]> demo_locks)
        demo_machine)) demo_pstate.

Lemma demo_is_running n : 0 <= n -> running 0 1 n (demo_running n).
Proof.
  intros Hn. split.
  - done.
  - split; [vm_compute; lia|]. split; [exact Hn|done].
  - done.
  - done.
  - vm_compute. lia.
  - destruct (demo_proc_free 1) as [nm E]; [lia|]. exists nm.
    cbn [hw demo_running with_machine with_mem ps_mem ms_hw with_hw m_locks with_cpus with_locks].
    destruct (n =? 0); [exact E|]. by rewrite lookup_insert_ne.
Qed.

Lemma yield_protocol_witness :
  exists s1 k, yield (demo_running 0) = Swtch ToScheduler s1 k /\
    handed_back 0 1 s1 /\ ps_proc s1 = alter (set_state RUNNABLE) 1%nat demo_procs /\
    forall h2 s2, handed_back h2 1 s2 ->
      exists s3, k s2 = Ret tt s3 /\ ps_proc s3 = ps_proc s2 /\ m_tp (hw s3) = h2 /\
        lock_free (ProcLock 1) (hw s3) /\ c_noff (curcpu (hw s3)) = 0 /\
        sie (curcpu (hw s3)) = sie (curcpu (hw (demo_running 0))).
Proof. apply (yield_protocol 0 1 (demo_running 0)). by apply demo_is_running. Defined.

Lemma sleep_protocol_witness :
  (forall g, g <> 0%nat -> exists s4,
     sleep ChTicks TicksLock (contended g 1 (demo_running 1)) = Spin s4 /\
     lock_held TicksLock 0 (hw s4) /\ lock_held (ProcLock 1) g (hw s4) /\
     ps_proc s4 = demo_procs) /\
  exists s1 k, sleep ChTicks TicksLock (demo_running 1) = Swtch ToScheduler s1 k /\
    handed_back 0 1 s1 /\ lock_free TicksLock (hw s1) /\
    ps_proc s1 = alter (fun p => set_state SLEEPING (set_chan ChTicks p)) 1%nat demo_procs /\
    forall h2 s2, handed_back h2 1 s2 -> lock_free TicksLock (hw s2) ->
      exists s3, k s2 = Ret tt s3 /\
        ps_proc s3 = alter (set_chan ChNull) 1%nat (ps_proc s2) /\
        lock_held TicksLock h2 (hw s3) /\ lock_free (ProcLock 1) (hw s3) /\
        c_noff (curcpu (hw s3)) = 1 /\ sie (curcpu (hw s3)) = false.
Proof.
  apply (sleep_protocol 0 1 ChTicks TicksLock (demo_running 1)); [by apply demo_is_running| |done].
  exists "". vm_compute. reflexivity.
Defined.

Lemma wakeup_wakes_witness :
  exists s', wakeup ChTicks demo_pstate = Ret tt s' /\
    p_state (ps_proc s' !!! 0%nat) = RUNNABLE.
Proof.
  eexists. split.
  - apply (wakeup_wakes ChTicks None demo_pstate); [|reflexivity].
    split; [apply demo_hart_ok|reflexivity|apply demo_proc_free].
  - reflexivity.
Defined.
