(* ===== verification/Sleeplock.v ===== *)
(** kernel/sleeplock.c: locks that are held across context switches. *)
From S2P Require Import Prelude Riscv Spinlock Memory Kalloc Vm Proc Switch.

(** How often a process may be woken before the condition it waits for holds;
    the bound of every loop around [sleep]. *)
Class WaitBound := wait_bound : nat.

Definition getsl (id : sleepid) : M pstate sleeplock :=
  gets (fun s => ps_sleep s !!! id).
Definition setsl (id : sleepid) (l : sleeplock) : M pstate unit :=
  modify (fun s => with_sleep (<[id := l]> (ps_sleep s)) s).

Definition initsleeplock (id : sleepid) (name : string) : M pstate unit :=
  lift (initlock (SleepLk id) "sleep lock") ;;
  l <- getsl id ;;
  setsl id (Sleeplock 0 name 0).

Definition acquiresleep `{WaitBound} (id : sleepid) : M pstate unit :=
  acq (SleepLk id) ;;
  loop (S wait_bound) (fun (_ : unit) =>
    l <- getsl id ;;
    if sl_locked l =? 0 then ret (inr tt)
    else sleep (ChSleep id) (SleepLk id) ;; ret (inl tt)) tt ;;
  p <- curproc ;;
  q <- getp p ;;
  l <- getsl id ;;
  setsl id (Sleeplock 1 (sl_name l) (p_pid q)) ;;
  rel (SleepLk id).

Definition releasesleep (id : sleepid) : M pstate unit :=
  acq (SleepLk id) ;;
  l <- getsl id ;;
  setsl id (Sleeplock 0 (sl_name l) 0) ;;
  wakeup (ChSleep id) ;;
  rel (SleepLk id).

Definition holdingsleep (id : sleepid) : M pstate bool :=
  acq (SleepLk id) ;;
  l <- getsl id ;;
  r <- (if sl_locked l =? 0 then ret false else
        p <- curproc ;; q <- getp p ;; ret (sl_pid l =? p_pid q)) ;;
  rel (SleepLk id) ;;
  ret r.

(** * Running undisturbed

    A process that runs with no process lock held by anyone and with the trace
    of a critical section already left on its hart: another critical section
    changes nothing but what its body changes. *)
Record calm (me : nat) (s : pstate) : Prop := {
  cm_hart : hart_ok (hw s);
  cm_touch : touch (hw s) = hw s;
  cm_proc : c_proc (curcpu (hw s)) = Some me;
  cm_free : forall i, (i < NPROC)%nat -> lock_free (ProcLock i) (hw s);
  cm_len : length (ps_proc s) = NPROC }.

(** The state inside a critical section of [lk]. *)
Definition inside (lk : lockid) (s : pstate) : pstate := with_machine (acquired lk (hw s)) s.
(** The table after a [wakeup] by [me]. *)
Definition woken (c : chan) (me : nat) (s : pstate) : pstate :=
  with_proc (imap (wake c (Some me)) (ps_proc s)) s.

Section Calm.
Context (me : nat).
Implicit Types (s : pstate) (lk : lockid).

Lemma calm_touched s : calm me s -> touched s = s.
Proof. intros H. unfold touched. rewrite (cm_touch _ _ H). apply with_machine_id. Qed.

Lemma calm_inside lk s :
  (forall i, lk <> ProcLock i) -> calm me s -> calm me (inside lk s).
Proof.
  intros Hlk [H1 H2 H3 H4 H5]. split; cbn [inside hw with_machine].
  - by apply acquired_hart_ok.
  - by apply touch_acquired.
  - change (c_proc (curcpu (acquired lk (hw s))) = Some me).
    rewrite curcpu_acquired by done. rewrite <- H3. unfold push_cpu. by destruct (_ =? 0).
  - intros i Hi. destruct (H4 i Hi) as [nm E]. exists nm.
    change (m_locks (acquired lk (hw s)) !! ProcLock i = Some (Spinlock 0 nm None)).
    by rewrite acquired_other by apply Hlk.
  - done.
Qed.

Lemma calm_acq lk s :
  calm me s -> lock_free lk (hw s) -> acq lk s = Ret tt (inside lk s).
Proof. intros H1 H2. by apply acq_free; [apply H1|]. Qed.

Lemma calm_rel lk s :
  calm me s -> lock_free lk (hw s) -> rel lk (inside lk s) = Ret tt s.
Proof.
  intros H1 H2. rewrite <- (calm_touched s H1) at 2. by apply critical; [apply H1|].
Qed.

Lemma calm_curproc s : calm me s -> curproc s = Ret me s.
Proof.
  intros H. rewrite (curproc_eq me) by apply H. by rewrite calm_touched.
Qed.

Lemma calm_wakeup c s : calm me s -> wakeup c s = Ret tt (woken c me s).
Proof.
  intros H. rewrite (wakeup_eq c (Some me)) by (try apply H; split; apply H).
  by rewrite calm_touched.
Qed.

Lemma calm_woken c s : calm me s -> calm me (woken c me s).
Proof. intros [H1 H2 H3 H4 H5]. split; try done. cbn. by rewrite length_imap. Qed.

Lemma calm_with_sleep v s : calm me s -> calm me (with_sleep v s).
Proof. intros [H1 H2 H3 H4 H5]. by split. Qed.

Lemma woken_pid c s i : p_pid (ps_proc (woken c me s) !!! i) = p_pid (ps_proc s !!! i).
Proof.
  cbn. rewrite !list_lookup_total_alt, list_lookup_imap. destruct (ps_proc s !! i); [|done].
  cbn. unfold wake. by destruct (_ && _).
Qed.

(** ** Sleep locks *)

Context (id : sleepid).
Let lk := SleepLk id.


Definition set_sleep (l : sleeplock) (s : pstate) : pstate :=
  with_sleep (<[id := l]> (ps_sleep s)) s.

Lemma acquiresleep_free `{WaitBound} s :
  calm me s -> lock_free lk (hw s) -> sl_locked (ps_sleep s !!! id) = 0 ->
  acquiresleep id s =
    Ret tt (set_sleep (Sleeplock 1 (sl_name (ps_sleep s !!! id)) (p_pid (ps_proc s !!! me))) s).
Proof.
  intros Hs Hf H0. unfold acquiresleep. kstep calm_acq by done.
  kstep loop_exit by (kstep eq_refl; cbn [ps_sleep inside with_machine with_mem]; by rewrite H0).
  kstep calm_curproc by by apply calm_inside. kstep eq_refl. kstep eq_refl. kstep eq_refl.
  exact (calm_rel lk (set_sleep _ s) (calm_with_sleep _ _ Hs) Hf).
Qed.

Lemma releasesleep_eq s :
  calm me s -> lock_free lk (hw s) ->
  releasesleep id s =
    Ret tt (woken (ChSleep id) me (set_sleep (Sleeplock 0 (sl_name (ps_sleep s !!! id)) 0) s)).
Proof.
  intros Hs Hf. unfold releasesleep. kstep calm_acq by done. kstep eq_refl. kstep eq_refl.
  kstep calm_wakeup by by apply (calm_inside lk (set_sleep _ s)), calm_with_sleep.
  exact (calm_rel lk (woken _ me (set_sleep _ s)) (calm_woken _ _ (calm_with_sleep _ _ Hs)) Hf).
Qed.

Lemma holdingsleep_eq s :
  calm me s -> lock_free lk (hw s) ->
  holdingsleep id s =
    Ret (negb (sl_locked (ps_sleep s !!! id) =? 0) &&
         (sl_pid (ps_sleep s !!! id) =? p_pid (ps_proc s !!! me))) s.
Proof.
  intros Hs Hf. unfold holdingsleep. kstep calm_acq by done. kstep eq_refl.
  cbn [ps_sleep inside with_machine with_mem].
  destruct (sl_locked _ =? 0); cbn [negb andb].
  - kstep eq_refl. by kstep calm_rel by done.
  - erewrite bind_Ret; last first.
    { kstep calm_curproc by by apply calm_inside. by kstep eq_refl. }
    by kstep calm_rel by done.
Qed.
End Calm.

(** Slot 1 of the example table runs undisturbed. *)
Lemma demo_calm : calm 1 (demo_running 0).
Proof.
  split.
  - apply (demo_is_running 0). done.
  - reflexivity.
  - reflexivity.
  - intros i Hi. by apply demo_proc_free.
  - reflexivity.
Qed.
