(* ===== verification/Kill.v ===== *)
(** kernel/proc.c: [kkill], and the process that gets a killed slot. *)
From S2P Require Import Prelude Riscv Spinlock Memory Kalloc Vm Proc Switch Sleeplock.

(** The first slot of [l] whose process satisfies [q]. *)
Definition find_slot (q : proc -> bool) (l : list nat) (s : pstate) : option nat :=
  List.find (fun i => q (ps_proc s !!! i)) l.

(** What [kkill] does to its victim. *)
Definition victim (p : proc) : proc :=
  let p' := set_killed 1 p in if is_state SLEEPING p then set_state RUNNABLE p' else p'.

Lemma victim_killed p : p_killed (victim p) = 1.
Proof. unfold victim. by destruct (is_state SLEEPING p). Qed.

Lemma victim_unused p : is_state UNUSED p = true -> is_state UNUSED (victim p) = true.
Proof.
  unfold victim, is_state. rewrite bool_decide_eq_true. intros E.
  rewrite E, (bool_decide_eq_false_2 (UNUSED = SLEEPING)) by done. by apply bool_decide_eq_true_2.
Qed.

Lemma find_slot_first q n s i :
  find_slot q (seq 0 n) s = Some i ->
  (i < n)%nat /\ q (ps_proc s !!! i) = true /\ forall j, (j < i)%nat -> q (ps_proc s !!! j) = false.
Proof.
  intros E. pose proof (List.find_some _ _ E) as [H1 H2]. apply List.in_seq in H1. split; [lia|]. split; [done|].
  intros j Hj. revert E. unfold find_slot.
  replace n with (j + (n - j))%nat by lia. rewrite seq_app.
  assert (forall l, (forall k, k ∈ l -> (k < i)%nat) -> forall r, List.find (fun i => q (ps_proc s !!! i)) (l ++ r) = Some i ->
    List.Forall (fun k => q (ps_proc s !!! k) = false) l /\ List.find (fun i => q (ps_proc s !!! i)) r = Some i) as Hl.
  { induction l as [|k l IH]; intros Hk r; cbn; [done|]. destruct (q (ps_proc s !!! k)) eqn:Ek.
    - intros [= ->]. specialize (Hk i (list_elem_of_here _ _)). lia.
    - intros E. destruct (IH) with r as [I1 I2]; [intros; apply Hk; by apply list_elem_of_further|done|]. by split; [constructor|]. }
  intros E. apply Hl in E as [_ E]; [|intros k Hk; apply elem_of_seq in Hk; lia].
  replace (n - j)%nat with (S (n - j - 1)) in E by lia. cbn in E.
  destruct (q (ps_proc s !!! j)) eqn:Ej; [injection E; lia|done].
Qed.

Section Kkill.
Context (me : nat).

Lemma calm_upd i f s : calm me s -> calm me (upd i f s).
Proof. intros [H1 H2 H3 H4 H5]. split; try done. cbn. by rewrite length_alter. Qed.

Lemma kkill_loop pid l s :
  calm me s -> (forall i, i ∈ l -> (i < NPROC)%nat) ->
  forl l (fun i (_ : unit) =>
    acq (ProcLock i) ;;
    p <- getp i ;;
    if p_pid p =? pid then
      modp i (set_killed 1) ;;
      when (is_state SLEEPING p) (modp i (set_state RUNNABLE)) ;;
      rel (ProcLock i) ;;
      ret (inr 0)
    else rel (ProcLock i) ;; ret (inl tt)) tt s =
  match find_slot (fun p => p_pid p =? pid) l s with
  | Some i => Ret (inr 0) (upd i victim s)
  | None => Ret (inl tt) s
  end.
Proof.
  intros Hc. induction l as [|i l IH]; intros Hl; [done|]. unfold find_slot. cbn [List.find].
  assert (lock_free (ProcLock i) (hw s)) as Hf by apply (cm_free _ _ Hc), Hl, list_elem_of_here.
  destruct (p_pid (ps_proc s !!! i) =? pid) eqn:E.
  - apply forl_exit. kstep (calm_acq me) by done. kstep eq_refl.
    change (ps_proc (inside (ProcLock i) s)) with (ps_proc s). rewrite E. kstep eq_refl.
    assert (when (is_state SLEEPING (ps_proc s !!! i)) (modp i (set_state RUNNABLE))
      (upd i (set_killed 1) (inside (ProcLock i) s)) = Ret tt (inside (ProcLock i) (upd i victim s))) as E2.
    { unfold victim. destruct (is_state SLEEPING (ps_proc s !!! i)) eqn:Es; cbn [when].
      - rewrite modp_eq, upd_upd. f_equal. apply (upd_ext i _ _ (inside (ProcLock i) s)).
        change (ps_proc (inside (ProcLock i) s)) with (ps_proc s). by rewrite Es.
      - f_equal. apply (upd_ext i _ _ (inside (ProcLock i) s)).
        change (ps_proc (inside (ProcLock i) s)) with (ps_proc s). by rewrite Es. }
    kstep E2. by kstep (calm_rel me (ProcLock i) (upd i victim s)) by (done || by apply calm_upd).
  - erewrite forl_next; [apply IH; intros k Hk; by apply Hl, list_elem_of_further|].
    kstep (calm_acq me) by done. kstep eq_refl.
    change (ps_proc (inside (ProcLock i) s)) with (ps_proc s). rewrite E. by kstep (calm_rel me) by done.
Qed.

Lemma kkill_eq pid s :
  calm me s ->
  kkill pid s =
    match find_slot (fun p => p_pid p =? pid) (seq 0 NPROC) s with
    | Some i => Ret 0 (upd i victim s)
    | None => Ret (-1) s
    end.
Proof.
  intros Hc. unfold kkill. pose proof (kkill_loop pid (seq 0 NPROC) s Hc) as E.
  destruct (find_slot _ _ _) as [i|]; rewrite (bind_Ret _ _ _ _ _ (E ltac:(intros k Hk; apply elem_of_seq in Hk; lia))); done.
Qed.

(** The slot that [allocproc] takes. *)
Lemma find_unused_eq s :
  calm me s ->
  find_unused s =
    match find_slot (is_state UNUSED) (seq 0 NPROC) s with
    | Some i => Ret (Some i) (inside (ProcLock i) s)
    | None => Ret None s
    end.
Proof.
  intros Hc. unfold find_unused.
  assert (forall l, (forall i, i ∈ l -> (i < NPROC)%nat) ->
    forl l (fun i (_ : unit) =>
      acq (ProcLock i) ;;
      p <- getp i ;;
      if is_state UNUSED p then ret (inr i)
      else rel (ProcLock i) ;; ret (inl tt)) tt s =
    match find_slot (is_state UNUSED) l s with
    | Some i => Ret (inr i) (inside (ProcLock i) s)
    | None => Ret (inl tt) s
    end) as E.
  { induction l as [|i l IH]; intros Hl; [done|]. unfold find_slot. cbn [List.find].
    assert (lock_free (ProcLock i) (hw s)) as Hf by apply (cm_free _ _ Hc), Hl, list_elem_of_here.
    destruct (is_state UNUSED (ps_proc s !!! i)) eqn:Es.
    - apply forl_exit. kstep (calm_acq me) by done. kstep eq_refl.
      change (ps_proc (inside (ProcLock i) s)) with (ps_proc s). by rewrite Es.
    - erewrite forl_next; [apply IH; intros k Hk; by apply Hl, list_elem_of_further|].
      kstep (calm_acq me) by done. kstep eq_refl.
      change (ps_proc (inside (ProcLock i) s)) with (ps_proc s). rewrite Es. by kstep (calm_rel me) by done. }
  specialize (E (seq 0 NPROC) ltac:(intros k Hk; apply elem_of_seq in Hk; lia)).
  destruct (find_slot _ _ _) as [i|]; by rewrite (bind_Ret _ _ _ _ _ E).
Qed.
End Kkill.

(** * Who resets the killed flag *)

Section Keeps.
Context (i : nat).
Let flag (s : pstate) : Z := p_killed (ps_proc s !!! i).

(** [m] leaves the flag of slot [i] alone whenever it returns a result in [R]. *)
Definition keeps {A} (R : A -> Prop) (m : M pstate A) : Prop :=
  forall s a s', m s = Ret a s' -> R a -> flag s' = flag s.

Lemma bind_inv {A B} (m : M pstate A) (f : A -> M pstate B) s b s' :
  bind m f s = Ret b s' -> exists a s1, m s = Ret a s1 /\ f a s1 = Ret b s'.
Proof. unfold bind. destruct (m s) as [a s1| | | |]; try done. by exists a, s1. Qed.

Lemma keeps_bind {A B} (R : B -> Prop) (m : M pstate A) (f : A -> M pstate B) :
  keeps (fun _ => True) m -> (forall a, keeps R (f a)) -> keeps R (bind m f).
Proof.
  intros Hm Hf s b s' E HR. apply bind_inv in E as (a & s1 & E1 & E2).
  rewrite (Hf _ _ _ _ E2 HR). by apply (Hm _ _ _ E1).
Qed.

(** A computation whose results are never in [R]. *)
Definition never {A} (R : A -> Prop) (m : M pstate A) : Prop := forall s a s', m s = Ret a s' -> ~ R a.

Lemma never_bind {A B} (R : B -> Prop) (m : M pstate A) (f : A -> M pstate B) :
  (forall a, never R (f a)) -> never R (bind m f).
Proof. intros Hf s b s' E. apply bind_inv in E as (a & s1 & _ & E2). by eapply Hf. Qed.

Lemma never_keeps {A} (R : A -> Prop) (m : M pstate A) : never R m -> keeps R m.
Proof. intros H s a s' E HR. by destruct (H _ _ _ E). Qed.

Lemma keeps_ret {A} (R : A -> Prop) (a : A) : keeps R (ret a).
Proof. by intros s b s' [= _ <-] _. Qed.

Lemma keeps_gets {A} (R : A -> Prop) (g : pstate -> A) : keeps R (gets g).
Proof. by intros s b s' [= _ <-] _. Qed.

Lemma keeps_modp R j (g : proc -> proc) : (forall p, p_killed (g p) = p_killed p) -> keeps R (modp j g).
Proof.
  intros Hg s [] s' E _. rewrite modp_eq in E. injection E as <-. unfold flag, upd. cbn.
  rewrite !list_lookup_total_alt, list_lookup_alter. case_decide as Hj; [|done]. subst j.
  destruct (ps_proc s !! i); [|done]. by cbn.
Qed.

Lemma keeps_lift_mem {A} R (m : M mem A) : keeps R (lift m).
Proof. intros s a s' E _. unfold lift in E. destruct (m (lget s)); cbn in E; try done. by injection E as _ <-. Qed.

Lemma keeps_lift_machine {A} R (m : M machine A) : keeps R (lift m).
Proof. intros s a s' E _. unfold lift in E. destruct (m (lget s)); cbn in E; try done. by injection E as _ <-. Qed.

Lemma keeps_modify R (g : pstate -> pstate) : (forall s, ps_proc (g s) = ps_proc s) -> keeps R (modify g).
Proof. intros Hg s [] s' [= <-] _. unfold flag. by rewrite Hg. Qed.

Lemma keeps_forl {I X Y} R (l : list I) (body : I -> X -> M pstate (X + Y)) x :
  (forall i x, keeps (fun _ => True) (body i x)) -> keeps R (forl l body x).
Proof.
  intros Hb. revert x. induction l as [|k l IH]; intros x; cbn [forl]; [apply keeps_ret|].
  apply keeps_bind; [apply Hb|]. intros [x'|y]; [apply IH|apply keeps_ret].
Qed.
End Keeps.

(** [keeps]: one statement after the other. *)
Ltac keeps :=
  repeat match goal with
  | H : never _ ?m |- keeps _ _ ?m => exact (never_keeps _ _ _ H)
  | |- keeps _ _ (bind _ _) => apply keeps_bind; [|intros]
  | |- keeps _ _ (modp _ _) => apply keeps_modp; reflexivity
  | |- keeps _ _ (modify _) => apply keeps_modify; reflexivity
  | |- keeps _ _ (ret _) => apply keeps_ret
  | |- keeps _ _ (gets _) => apply keeps_gets
  | |- keeps _ _ (getp _) => apply keeps_gets
  | |- keeps _ _ (lift _) => first [apply keeps_lift_mem | apply keeps_lift_machine]
  | |- keeps _ _ (acq _) => apply keeps_lift_machine
  | |- keeps _ _ (rel _) => apply keeps_lift_machine
  | |- keeps _ _ (if ?b then _ else _) => destruct b
  end.

Lemma allocproc_keeps_killed i s j s' :
  allocproc s = Ret (Some j) s' -> p_killed (ps_proc s' !!! i) = p_killed (ps_proc s !!! i).
Proof.
  intros E. revert E. cut (keeps i (fun r => r <> None) allocproc); [intros H E; by apply (H _ _ _ E)|].
  unfold allocproc. apply keeps_bind.
  - unfold find_unused. apply keeps_bind; [|intros; apply keeps_ret]. apply keeps_forl. intros k x. keeps.
  - intros [p|]; [|apply keeps_ret]. unfold allocpid, proc_pagetable, gettime.
    assert (never (fun r : option nat => r <> None) (freeproc p ;; rel (ProcLock p) ;; ret None)) as Hn.
    { do 2 (apply never_bind; intros ?). intros s1 r s2 [= <- _] H. by apply H. }
    keeps.
Qed.

Lemma allocproc_slot me s j s' :
  calm me s -> allocproc s = Ret (Some j) s' -> find_slot (is_state UNUSED) (seq 0 NPROC) s = Some j.
Proof.
  intros Hc E. unfold allocproc in E. apply bind_inv in E as (r & s1 & E1 & E2).
  rewrite (find_unused_eq me s Hc) in E1. destruct (find_slot _ _ _) as [i|]; injection E1 as <- <-; [|done].
  match type of E2 with ?m _ = _ => cut (never (fun r : option nat => r <> None /\ r <> Some i) m) end.
  { intros H. destruct (decide (j = i)) as [->|Hj]; [done|]. destruct (H _ _ _ E2). split; congruence. }
  repeat match goal with
  | |- never _ (bind _ _) => apply never_bind; intros
  | |- never _ (if ?b then _ else _) => destruct b
  | |- never _ (ret _) => intros s2 r s3 [= <- _] [H1 H2]; by (apply H1 || apply H2)
  end.
Qed.

(** [kkill] reaches the process it names and no other: the first slot
    with that pid has its killed flag set and, if it was sleeping, is made
    runnable so that it notices; every other slot is as before.  It returns 0,
    and -1 with nothing changed when no slot has the pid. *)
Theorem kkill_correct me pid s (Hc : calm me s) :
  (exists i s', kkill pid s = Ret 0 s' /\ (i < NPROC)%nat /\
     p_pid (ps_proc s !!! i) = pid /\ (forall j, (j < i)%nat -> p_pid (ps_proc s !!! j) <> pid) /\
     p_killed (ps_proc s' !!! i) = 1 /\ p_pid (ps_proc s' !!! i) = pid /\
     p_state (ps_proc s' !!! i) =
       (if is_state SLEEPING (ps_proc s !!! i) then RUNNABLE else p_state (ps_proc s !!! i)) /\
     (forall j, j <> i -> ps_proc s' !!! j = ps_proc s !!! j) /\ calm me s') \/
  ((forall i, (i < NPROC)%nat -> p_pid (ps_proc s !!! i) <> pid) /\ kkill pid s = Ret (-1) s).
Proof.
  rewrite (kkill_eq me pid s Hc). destruct (find_slot _ _ _) as [i|] eqn:E.
  - left. destruct (find_slot_first _ _ _ _ E) as (Hi & Ei & Hfirst). apply Z.eqb_eq in Ei.
    exists i, (upd i victim s). split; [done|]. split; [done|]. split; [done|].
    split; [intros j Hj; by apply Z.eqb_neq, Hfirst|].
    rewrite upd_at by (rewrite (cm_len _ _ Hc); done). unfold victim.
    split; [by destruct (is_state _ _)|]. split; [by destruct (is_state _ _)|].
    split; [by destruct (is_state _ _)|]. split; [|by apply calm_upd].
    intros j Hj. by apply list_lookup_total_alter_ne.
  - right. split; [|done]. intros i Hi. apply Z.eqb_neq. apply (List.find_none _ _ E i). apply List.in_seq. lia.
Qed.

(** Killing pid 0 kills a process that does not exist yet.  The free slots
    have pid 0, so [kkill 0] finds one, reports success and sets its flag;
    [allocproc] takes that same slot next and does not reset the flag, so the
    process it makes is born killed. *)
Theorem kill_zero_dooms_next me s i
  (Hc : calm me s) (Hi : find_slot (is_state UNUSED) (seq 0 NPROC) s = Some i)
  (Hfree : forall j, (j < NPROC)%nat -> p_pid (ps_proc s !!! j) = 0 <-> p_state (ps_proc s !!! j) = UNUSED) :
  exists s1, kkill 0 s = Ret 0 s1 /\
    forall j s2, allocproc s1 = Ret (Some j) s2 -> j = i /\ p_killed (ps_proc s2 !!! j) = 1.
Proof.
  rewrite (kkill_eq me 0 s Hc).
  assert (forall l t, (forall k, k ∈ l -> (k < NPROC)%nat) -> (forall k, (k < NPROC)%nat ->
    (p_pid (ps_proc s !!! k) =? 0) = is_state UNUSED (ps_proc t !!! k)) ->
    find_slot (fun p => p_pid p =? 0) l s = find_slot (is_state UNUSED) l t) as Hsame.
  { intros l t Hl Hk. induction l as [|k l IH]; [done|]. unfold find_slot. cbn [List.find].
    rewrite Hk by apply Hl, list_elem_of_here. destruct (is_state _ _); [done|].
    apply IH. intros x Hx. by apply Hl, list_elem_of_further. }
  assert (forall k, (k < NPROC)%nat -> (p_pid (ps_proc s !!! k) =? 0) = is_state UNUSED (ps_proc s !!! k)) as Hk.
  { intros k Hk. unfold is_state. apply eq_true_iff_eq. by rewrite Z.eqb_eq, bool_decide_eq_true, Hfree. }
  assert (forall k, k ∈ seq 0 NPROC -> (k < NPROC)%nat) as Hl by (intros k H; apply elem_of_seq in H; lia).
  rewrite (Hsame _ s Hl Hk), Hi. eexists. split; [done|]. intros j s2 E.
  pose proof (find_slot_first _ _ _ _ Hi) as (Hlt & Hun & _).
  assert (ps_proc (upd i victim s) !!! i = victim (ps_proc s !!! i)) as Hv by (apply upd_at; by rewrite (cm_len _ _ Hc)).
  pose proof (allocproc_slot me _ _ _ (calm_upd me i victim s Hc) E) as Ej.
  rewrite <- (Hsame _ (upd i victim s) Hl), (Hsame _ s Hl Hk), Hi in Ej.
  - injection Ej as <-. split; [done|]. rewrite (allocproc_keeps_killed _ _ _ _ E), Hv. apply victim_killed.
  - intros k Hk'. rewrite Hk by done. destruct (decide (i = k)) as [<-|Hne].
    + rewrite Hv, Hun. symmetry. by apply victim_unused.
    + unfold upd. cbn. by rewrite list_lookup_total_alter_ne.
Qed.

(** * Examples *)

Lemma kkill_correct_witness : exists s', kkill 1 (demo_running 0) = Ret 0 s' /\ p_state (ps_proc s' !!! 0%nat) = RUNNABLE.
Proof.
  destruct (kkill_correct 1 1 (demo_running 0) demo_calm) as [(i & s' & E & _ & Ei & Hf & _ & _ & Hs & _)|[H _]].
  - assert (i = 0%nat) as -> by (destruct i as [|i]; [done|destruct (Hf 0%nat ltac:(lia)); reflexivity]).
    exists s'. split; [exact E|]. rewrite Hs. reflexivity.
  - destruct (H 0%nat); [vm_compute; lia|reflexivity].
Defined.

(** Slot 3 is the first free one, and there is memory for a process. *)
Definition demo_dying : pstate :=
  with_mem (with_ram (wr64 (wr64 (wr64 (ms_ram demo_mem) 0x80026000 0x80027000) 0x80027000 0x80028000) 0x80028000 0)
    (ps_mem (demo_running 0))) (demo_running 0).

Lemma demo_born : match allocproc (upd 3 victim demo_dying) with Ret (Some 3%nat) _ => true | _ => false end = true.
Proof. vm_compute. reflexivity. Qed.

Lemma kill_zero_dooms_next_witness :
  exists s1 s2, kkill 0 demo_dying = Ret 0 s1 /\ allocproc s1 = Ret (Some 3%nat) s2 /\
    p_killed (ps_proc s2 !!! 3%nat) = 1.
Proof.
  assert (calm 1 demo_dying) as Hc by by destruct demo_calm; split.
  destruct (kill_zero_dooms_next 1 demo_dying 3 Hc) as (s1 & E & H).
  - reflexivity.
  - intros j Hj. change (ps_proc demo_dying) with demo_procs.
    do 3 (destruct j as [|j]; [split; intros H; discriminate H|]).
    assert (demo_procs !!! S (S (S j)) = zero_proc) as -> by (apply lookup_total_replicate_2; change NPROC with 64%nat in Hj; lia).
    done.
  - assert (s1 = upd 3 victim demo_dying) as ->.
    { pose proof (kkill_eq 1 0 demo_dying Hc) as E'. rewrite E in E'.
      change (find_slot _ _ _) with (Some 3%nat) in E'. by injection E'. }
    pose proof demo_born as B. destruct (allocproc (upd 3 victim demo_dying)) as [[j|] s2| | | |] eqn:Ea; try discriminate B.
    destruct (H j s2 eq_refl) as [-> Hk]. eexists _, s2. split; [exact E|]. split; [exact Ea|exact Hk].
Defined.
