(* ===== verification/UserMem.v ===== *)
(** kernel/vm.c where it works for the current process: lazily allocated pages
    ([vmfault]) and the copies between kernel and user memory; the [either_]
    copies of kernel/proc.c and the system-call argument fetches of
    kernel/syscall.c.

    Kernel-side buffers of these copies (a local variable, the data of a disk
    buffer) are byte lists: a copy out takes the bytes, a copy in returns what
    arrived.  Loops run once per page; their fuel is the number of pages a copy
    of that length can touch, plus one for the exit test. *)
From S2P Require Import Prelude Riscv Spinlock Memory Bytes Kstring Kalloc Vm Proc.

Definition ram_of (s : pstate) : gmap Z Z := ms_ram (ps_mem s).

(** [bs] stored at physical address [a]. *)
Definition poke (a : Z) (bs : list Z) : M pstate unit :=
  lift (ram_set (arr_mem a bs)).

Definition vmfault (pagetable va read : Z) : M pstate Z :=
  p <- curproc ;;
  q <- getp p ;;
  if p_sz q <=? va then ret 0 else
  let va := PGROUNDDOWN va in
  m <- lift (ismapped pagetable va) ;;
  if negb (m =? 0) then ret 0 else
  mem <- lift kalloc ;;
  if mem =? 0 then ret 0 else
  lift (ram_set (fun r => memset r mem 0 PGSIZE)) ;;
  r <- lift (mappages (p_pagetable q) va PGSIZE mem (Z.lor (Z.lor PTE_W PTE_U) PTE_R)) ;;
  if negb (r =? 0) then lift (kfree mem) ;; ret 0 else ret mem.

(** The physical page of user page [va0], faulted in if need be. *)
Definition user_page (pagetable va0 : Z) : M pstate Z :=
  pa0 <- lift (walkaddr pagetable va0) ;;
  if pa0 =? 0 then vmfault pagetable va0 0 else ret pa0.

Definition copy_fuel (len : Z) : nat := Z.to_nat (len / PGSIZE + 3).

Definition copyout_body (pagetable : Z) : Z * list Z -> M pstate (Z * list Z + Z) :=
  fun '(dstva, src) =>
    if bool_decide (src = []) then ret (inr 0) else
    let va0 := PGROUNDDOWN dstva in
    if MAXVA <=? va0 then ret (inr (-1)) else
    pa0 <- user_page pagetable va0 ;;
    if pa0 =? 0 then ret (inr (-1)) else
    pte <- lift (walk pagetable va0 false) ;;
    if pte =? 0 then panic "null dereference" else
    v <- lift (pte_at pte) ;;
    if negb (has v PTE_W) then ret (inr (-1)) else
    let n := Z.min (PGSIZE - (dstva - va0)) (Z.of_nat (length src)) in
    poke (pa0 + (dstva - va0)) (take (Z.to_nat n) src) ;;
    ret (inl (va0 + PGSIZE, drop (Z.to_nat n) src)).

Definition copyout (pagetable dstva : Z) (src : list Z) : M pstate Z :=
  loop (copy_fuel (Z.of_nat (length src))) (copyout_body pagetable) (dstva, src).

(** The bodies of the loops carry what the C variables hold: the address, what is
    left to copy, and the bytes copied so far. *)
Definition copyin_body (pagetable : Z) : Z * Z * list Z -> M pstate (Z * Z * list Z + Z * list Z) :=
  fun '(srcva, len, dst) =>
    if negb (0 <? len) then ret (inr (0, dst)) else
    let va0 := PGROUNDDOWN srcva in
    pa0 <- user_page pagetable va0 ;;
    if pa0 =? 0 then ret (inr (-1, dst)) else
    let n := Z.min (PGSIZE - (srcva - va0)) len in
    bs <- gets (fun s => bytes_at (ram_of s) (pa0 + (srcva - va0)) (Z.to_nat n)) ;;
    ret (inl (u64 (va0 + PGSIZE), len - n, dst ++ bs)).

(** The result code and the bytes copied before it. *)
Definition copyin (pagetable srcva len : Z) : M pstate (Z * list Z) :=
  loop (copy_fuel len) (copyin_body pagetable) (srcva, len, []).

(** The inner loop of [copyinstr] over [n] bytes at [p]: the characters before
    a NUL, and whether there was one. *)
Fixpoint str_chunk (n : nat) (ram : gmap Z Z) (p : Z) : list Z * bool :=
  match n with
  | O => ([], false)
  | S n' =>
      if rd8 ram p =? 0 then ([], true)
      else let (bs, got) := str_chunk n' ram (p + 1) in (rd8 ram p :: bs, got)
  end.

Definition copyinstr_body (pagetable : Z)
  : Z * Z * list Z -> M pstate (Z * Z * list Z + option (list Z)) :=
  fun '(srcva, max, dst) =>
    if negb (0 <? max) then ret (inr None) else
    let va0 := PGROUNDDOWN srcva in
    pa0 <- lift (walkaddr pagetable va0) ;;
    if pa0 =? 0 then ret (inr None) else
    let n := Z.min (PGSIZE - (srcva - va0)) max in
    r <- gets (fun s => str_chunk (Z.to_nat n) (ram_of s) (pa0 + (srcva - va0))) ;;
    let (bs, got) := (r : list Z * bool) in
    if (got : bool) then ret (inr (Some (dst ++ bs))) else
    ret (inl (u64 (va0 + PGSIZE), max - n, dst ++ bs)).

(** [Some bs]: success, with the string [bs] and its NUL in the buffer. *)
Definition copyinstr (pagetable srcva max : Z) : M pstate (option (list Z)) :=
  loop (copy_fuel max) (copyinstr_body pagetable) (srcva, max, []).

(** * proc.c: either user or kernel memory *)

(** Where a copy out goes: a user address, physical memory, or a variable of
    the caller. *)
Inductive dest := DUser (va : Z) | DPhys (pa : Z) | DLocal.
Definition dest_at (d : dest) (off : Z) : dest :=
  match d with
  | DUser va => DUser (u64 (va + off)) | DPhys pa => DPhys (pa + off) | DLocal => DLocal
  end.

Definition either_copyout (dst : dest) (src : list Z) : M pstate Z :=
  match dst with
  | DUser va => p <- curproc ;; q <- getp p ;; copyout (p_pagetable q) va src
  | DPhys pa => myproc ;; poke pa src ;; ret 0
  | DLocal => myproc ;; ret 0
  end.

(** Where a copy in comes from: a user address or a variable of the caller. *)
Inductive source := SUser (va : Z) | SLocal (bs : list Z).
Definition source_at (s : source) (off : Z) : source :=
  match s with
  | SUser va => SUser (u64 (va + off)) | SLocal bs => SLocal (drop (Z.to_nat off) bs)
  end.

Definition either_copyin (src : source) (len : Z) : M pstate (Z * list Z) :=
  match src with
  | SUser va => p <- curproc ;; q <- getp p ;; copyin (p_pagetable q) va len
  | SLocal bs => myproc ;; ret (0, take (Z.to_nat len) bs)
  end.

(** * syscall.c: arguments *)

(** [Some v]: success with [*ip = v]. *)
Definition fetchaddr (addr : Z) : M pstate (option Z) :=
  p <- curproc ;;
  q <- getp p ;;
  if (p_sz q <=? addr) || (p_sz q <? u64 (addr + 8)) then ret None else
  r <- copyin (p_pagetable q) addr 8 ;;
  if negb (fst r =? 0) then ret None else ret (Some (le_val (snd r))).

(** [Some bs]: success with the string [bs]; the C function returns its
    length. *)
Definition fetchstr (addr max : Z) : M pstate (option (list Z)) :=
  p <- curproc ;;
  q <- getp p ;;
  copyinstr (p_pagetable q) addr max.

Definition argraw (n : Z) : M pstate Z :=
  p <- curproc ;;
  match n with
  | 0 => get_tf p TF_a0
  | 1 => get_tf p TF_a1
  | 2 => get_tf p TF_a2
  | 3 => get_tf p TF_a3
  | 4 => get_tf p TF_a4
  | 5 => get_tf p TF_a5
  | _ => panic "argraw"
  end.

Definition argint (n : Z) : M pstate Z := v <- argraw n ;; ret (s32 v).
Definition argaddr (n : Z) : M pstate Z := argraw n.
Definition argstr (n max : Z) : M pstate (option (list Z)) :=
  addr <- argaddr n ;; fetchstr addr max.
