(* ===== verification/UserCopy.v ===== *)
(** User memory as the kernel sees it: the bytes behind a page table, lazily
    allocated pages included, and the theorems that [vmfault], [copyout] and
    [copyin] implement reads and writes of it.

    A user page that was never touched has no page-table entry; it reads as
    zeros, and [vmfault] gives it a page of zeros, so that [ubyte], the byte a
    process has at a virtual address, does not change.  [uspace] is the
    invariant of an address space: no two of its pages share a physical page,
    and none of them is a page of the table or a free page. *)
From S2P Require Import Prelude Riscv Spinlock Memory Bytes Kstring Kalloc Vm PageTable Proc Switch Sleeplock UserMem.

(** * Page tables under other writes *)

(** The entries of a table depend on its pages only. *)
Section Tables.
Context {ram ram' : gmap Z Z} {root : Z} {own : gmap Z node} {free : list Z}.
Context (Hwf : pt_wf ram root own free).
Context (Hsp : forall p, is_Some (own !! p) -> same_bytes PGSIZE p ram ram').

Lemma step_spared p n i : own !! p = Some n -> 0 <= i < 512 -> pt_step ram' p i = pt_step ram p i.
Proof using Hsp. intros Hp Hi. unfold pt_step. rewrite (ent_ext ram); [done..|]. apply Hsp. eauto. Qed.

Lemma get_spared va : pt_get ram' root va = pt_get ram root va.
Proof using All.
  pose proof (PX_bounds 2 va ltac:(done)) as B2. pose proof (PX_bounds 1 va ltac:(done)) as B1.
  pose proof (PX_bounds 0 va ltac:(done)) as B0.
  rewrite !pt_get_eq, (step_spared root NRoot) by (done || apply Hwf).
  destruct (pt_step _ root _) as [q|] eqn:E2; [|done].
  apply (pw_l2 _ _ _ _ Hwf) in E2; [|done]. rewrite (step_spared q _ _ E2) by done.
  destruct (pt_step _ q _) as [r|] eqn:E1; [|done].
  apply (pw_l1 _ _ _ _ Hwf _ _ _ _ E2) in E1; [|done].
  apply ent_ext; [done|]. apply Hsp. eauto.
Qed.

Lemma wf_spared free' : (forall p, is_Some (own !! p) -> p ∉ free') -> pt_wf ram' root own free'.
Proof using All.
  intros Hf. split; try apply Hwf.
  - intros i q Hi. rewrite (step_spared root NRoot) by (done || apply Hwf). by apply Hwf.
  - intros p i j q Hp Hj. rewrite (step_spared p (NL1 i)) by done. by apply Hwf.
  - intros p n Hp. destruct (pw_page _ _ _ _ Hwf p n Hp) as (H1 & H2 & _). eauto.
  - intros p n Hp. pose proof (pw_up _ _ _ _ Hwf p n Hp) as Hu. destruct n as [|i|i j]; [done| |].
    + cbn. by rewrite (step_spared root NRoot) by (done || apply Hwf || (destruct Hu; lia)).
    + destruct Hu as (Hj & q & Hq & Hst). split; [done|]. exists q. by rewrite (step_spared q (NL1 i)) by done.
  - intros p n i q Hp Hn Hi. rewrite (step_spared p n), (ent_ext ram) by (done || apply Hsp; eauto). by apply (pw_dir _ _ _ _ Hwf p n).
Qed.
End Tables.

(** The addresses that lie in no table and in no free page, and the memory
    changes that leave them alone. *)
Definition outside (own : gmap Z node) (free : list Z) (x : Z) : Prop :=
  forall p, is_Some (own !! p) \/ p ∈ free -> x < p \/ p + PGSIZE <= x.
Definition inner (own : gmap Z node) (free : list Z) (ram ram' : gmap Z Z) : Prop :=
  forall x, outside own free x -> rd8 ram' x = rd8 ram x.

Lemma page_or pa x : (x < pa \/ pa + PGSIZE <= x) \/ pa <= x < pa + PGSIZE.
Proof. lia. Qed.

Lemma page_outside {m root own free} pa x :
  pt_state m root own free -> pa mod PGSIZE = 0 -> own !! pa = None -> pa ∉ free ->
  pa <= x < pa + PGSIZE -> outside own free x.
Proof.
  intros [_ Hk Hwf] Hpa Ho Hf Hx p Hp. destruct (page_or p x) as [|Hx']; [done|].
  exfalso. apply (pages_disjoint pa p x); try done.
  - destruct Hp as [[n Hn]|Hp]; [by apply (pw_page _ _ _ _ Hwf) in Hn as (? & _ & _)|].
    pose proof (ko_pages _ _ Hk) as Hpg. rewrite Forall_forall in Hpg. by destruct (Hpg p Hp).
  - intros <-. destruct Hp as [[n Hn]|Hp]; [|done]. congruence.
Qed.

Lemma pt_get_same_page ram root va va' :
  same_page va va' = true -> pt_get ram root va = pt_get ram root va'.
Proof.
  unfold same_page. intros E%Z.eqb_eq. change PGSIZE with (2 ^ 12) in E.
  assert (forall l, 0 <= l -> PX l va = PX l va') as HP.
  { intros l Hl. rewrite !PX_eq, !Z.pow_add_r, <- !Z.div_div by lia. by rewrite E. }
  rewrite !pt_get_eq, !HP by done. done.
Qed.

(** * User memory *)

(** The physical page behind a user address. *)
Definition upage (ram : gmap Z Z) (root va : Z) : option Z :=
  let v := pt_get ram root va in
  if has v PTE_V && has v PTE_U then Some (PTE2PA v) else None.

(** The byte a process has at [va]. *)
Definition ubyte (ram : gmap Z Z) (root va : Z) : Z :=
  match upage ram root va with Some pa => rd8 ram (pa + va mod PGSIZE) | None => 0 end.

Lemma ubyte_ext ram ram' root va :
  pt_get ram' root va = pt_get ram root va ->
  (forall pa, upage ram root va = Some pa -> same_bytes PGSIZE pa ram ram') ->
  ubyte ram' root va = ubyte ram root va.
Proof.
  intros E H. unfold ubyte, upage in *. rewrite E. destruct (_ && _); [|done].
  apply (H _ eq_refl). pose proof (Z.mod_pos_bound va PGSIZE ltac:(done)). lia.
Qed.

Record uspace (me : nat) (root : Z) (own : gmap Z node) (free : list Z) (s : pstate) : Prop := {
  us_calm : calm me s;
  us_root : p_pagetable (ps_proc s !!! me) = root;
  us_sz : 0 <= p_sz (ps_proc s !!! me) <= MAXVA;
  us_pt : pt_state (ps_mem s) root own free;
  us_page : forall va, 0 <= va < MAXVA -> has (pt_get (ram_of s) root va) PTE_V = true ->
    let pa := PTE2PA (pt_get (ram_of s) root va) in 0 < pa /\ own !! pa = None /\ pa ∉ free;
  us_inj : forall va va', 0 <= va < MAXVA -> 0 <= va' < MAXVA ->
    has (pt_get (ram_of s) root va) PTE_V = true -> has (pt_get (ram_of s) root va') PTE_V = true ->
    PTE2PA (pt_get (ram_of s) root va) = PTE2PA (pt_get (ram_of s) root va') ->
    same_page va va' = true }.

Lemma page_below_max va : va mod PGSIZE = 0 -> 0 <= va < MAXVA -> va + PGSIZE <= MAXVA.
Proof.
  intros Hal Hva. change MAXVA with (2 ^ 38) in *. change PGSIZE with (2 ^ 12) in *.
  pose proof (Z.div_mod va (2 ^ 12) ltac:(done)).
  assert (va / 2 ^ 12 < 2 ^ 26) by (apply Z.div_lt_upper_bound; lia). lia.
Qed.

Lemma mappages_page m root own free va pa perm :
  pt_state m root own free -> va mod PGSIZE = 0 -> 0 <= va < MAXVA ->
  0 <= pa -> pa + PGSIZE <= 2 ^ 56 -> 0 <= perm < 2 ^ 10 ->
  has (pt_get (ms_ram m) root va) PTE_V = false ->
  exists r k m' own' free',
    mappages root va PGSIZE pa perm m = Ret r m' /\
    pt_state m' root own' free' /\ pt_grow m own free m' own' free' /\
    mapped_to (ms_ram m) (ms_ram m') root va pa perm k /\
    (r = 0 /\ k = 1%nat \/ r = -1 /\ k = O /\ free' = []).
Proof.
  intros Hs Hva Hr Hpa Hpe Hperm Hun. pose proof (page_below_max va Hva Hr) as Hend.
  change MAXVA with (2 ^ 38) in *.
  unfold mappages. rewrite Hva. cbn [Z.eqb negb].
  rewrite u64_small by (unfold PGSIZE in *; lia).
  destruct (mappages_loop 1 m root own free va pa perm (va + PGSIZE - PGSIZE)) as
    (r & k & m' & own' & free' & E & Hs' & Hg & Hm & Hk); try done;
    try (change MAXVA with (2 ^ 38); unfold PGSIZE in *; lia).
  - intros i Hi. replace i with O by lia. by rewrite Z.add_0_r.
  - exists r, k, m', own', free'. split; [exact E|]. split; [done|]. split; [done|]. split; [done|].
    destruct Hk as [[-> ->]|(-> & ? & ->)]; [by left|right]. split; [done|]. split; [lia|done].
Qed.

(** Writes to a page that is neither in the tree nor free. *)
Lemma same_other_page ram ram' a p :
  a mod PGSIZE = 0 -> p mod PGSIZE = 0 -> p <> a ->
  (forall x, x < a \/ a + PGSIZE <= x -> rd8 ram' x = rd8 ram x) -> same_bytes PGSIZE p ram ram'.
Proof.
  intros Ha Hp Hne Hx x Hxp. apply Hx. destruct (page_or a x) as [|Hin]; [done|].
  exfalso. by apply (pages_disjoint a p x).
Qed.

Lemma pt_state_write m root own free a ram' :
  pt_state m root own free -> a mod PGSIZE = 0 -> own !! a = None -> a ∉ free -> bytes_ok ram' ->
  (forall x, x < a \/ a + PGSIZE <= x -> rd8 ram' x = rd8 (ms_ram m) x) ->
  pt_state (with_ram ram' m) root own free /\ forall va, pt_get ram' root va = pt_get (ms_ram m) root va.
Proof.
  intros [Hr Hk Hwf] Ha Ho Hf Hb Hx.
  assert (forall p, is_Some (own !! p) -> same_bytes PGSIZE p (ms_ram m) ram') as Hsp.
  { intros p [n Hn]. apply (same_other_page _ _ a); [done| |congruence|done].
    by apply (pw_page _ _ _ _ Hwf) in Hn as (? & _ & _). }
  split; [|apply (get_spared Hwf Hsp)]. split; [done| |].
  - apply (kmem_ok_ext m); [done..|]. intros b Hb'.
    pose proof (ko_pages _ _ Hk) as Hpg. rewrite Forall_forall in Hpg. destruct (Hpg b Hb') as (Hbm & _).
    apply (rd64_other_page _ _ a); [done..|by intros ->|done].
  - apply (wf_spared Hwf Hsp). intros p [n Hn]. by apply (pw_page _ _ _ _ Hwf) in Hn as (_ & _ & ?).
Qed.

(** A page taken off the free list: the table is as it was. *)
Lemma kalloc_page m root own free :
  pt_state m root own free ->
  match free with
  | [] => kalloc m = Ret 0 (touch_mem m)
  | a :: free1 => exists m1, kalloc m = Ret a m1 /\ ms_hw m1 = touch (ms_hw m) /\
      page_ok (m_ld (ms_hw m)) a /\ 0 < a < PHYSTOP /\ own !! a = None /\ (a ∉ free1) /\
      pt_state m1 root own free1 /\
      (forall va, pt_get (ms_ram m1) root va = pt_get (ms_ram m) root va) /\
      (forall x, x < a \/ a + PGSIZE <= x -> rd8 (ms_ram m1) x = rd8 (ms_ram m) x)
  end.
Proof.
  intros [Hr Hk Hwf]. destruct (kalloc_spec m free Hr Hk) as (pa & m1 & E & Hr1 & Hld & H).
  destruct free as [|a free1]; [by destruct H as [-> ->]|].
  destruct H as (-> & Hne & Hp & Hk1 & Hni & _ & Hfr). pose proof Hp as (Ha & Hlo & Hhi).
  exists m1. split; [done|]. split; [by apply (kalloc_hw m a)|]. split; [done|].
  pose proof (ko_end _ _ Hk) as Hend. split; [lia|].
  assert (own !! a = None) as Ho.
  { destruct (own !! a) as [n|] eqn:En; [|done]. apply (pw_page _ _ _ _ Hwf) in En as (_ & _ & En). set_solver. }
  assert (forall p, is_Some (own !! p) -> same_bytes PGSIZE p (ms_ram m) (ms_ram m1)) as Hsp.
  { intros p [n Hn]. apply (same_other_page _ _ a); [done| |congruence|done].
    by apply (pw_page _ _ _ _ Hwf) in Hn as (? & _ & _). }
  split; [done|]. split; [done|]. split; [|split; [apply (get_spared Hwf Hsp)|done]].
  split; [done..|]. apply (wf_spared Hwf Hsp). intros p [n Hn].
  apply (pw_page _ _ _ _ Hwf) in Hn as (_ & _ & Hn). set_solver.
Qed.

(** ... and cleared. *)
Lemma zeroed_page m root own free a :
  pt_state m root own free -> a mod PGSIZE = 0 -> own !! a = None -> a ∉ free ->
  let ram' := memset (ms_ram m) a 0 PGSIZE in
  pt_state (with_ram ram' m) root own free /\
  (forall va, pt_get ram' root va = pt_get (ms_ram m) root va) /\
  (forall x, a <= x < a + PGSIZE -> rd8 ram' x = 0) /\
  (forall x, x < a \/ a + PGSIZE <= x -> rd8 ram' x = rd8 (ms_ram m) x).
Proof.
  intros Hpt Ha Ho Hf ram'.
  assert (forall x, x < a \/ a + PGSIZE <= x -> rd8 ram' x = rd8 (ms_ram m) x) as Hx.
  { intros x Hx. unfold ram'. rewrite rd8_memset by done. zbool; done. }
  destruct (pt_state_write m root own free a ram' Hpt Ha Ho Hf) as [H1 H2]; [|done|].
  - apply bytes_ok_memset; [apply (pt_kmem _ _ _ _ Hpt)|done].
  - split; [done|]. split; [done|]. split; [|done].
    intros x Hin. unfold ram'. rewrite rd8_memset by done. zbool; done.
Qed.

Lemma calm_with_mem me m s : calm me s -> ms_hw m = hw s -> calm me (with_mem m s).
Proof.
  intros [H1 H2 H3 H4 H5] E. unfold hw in *.
  split; cbn [hw with_mem ps_mem ps_proc]; unfold hw; cbn [with_mem ps_mem]; by rewrite ?E.
Qed.

(** The entry [vmfault] makes for the page [pa]. *)
Definition fault_pte (pa : Z) : Z := leaf_pte pa (Z.lor (Z.lor PTE_W PTE_U) PTE_R).

Lemma fault_pte_page pa : 0 < pa < PHYSTOP -> pa mod PGSIZE = 0 -> PTE2PA (fault_pte pa) = pa.
Proof. intros H. apply leaf_pte_page; [unfold PHYSTOP, KERNBASE in *; lia|done]. Qed.

Lemma has_lor_l x y f : f <> 0 -> has x f = true -> has (Z.lor x y) f = true.
Proof.
  unfold has. intros Hf. rewrite !negb_true_iff, !Z.eqb_neq. rewrite Z.land_lor_distr_l.
  intros Hx E. apply Z.lor_eq_0_iff in E. tauto.
Qed.

Lemma fault_pte_user pa : has (fault_pte pa) PTE_U = true.
Proof.
  unfold fault_pte, leaf_pte. apply has_lor_l; [done|]. rewrite Z.lor_assoc. apply has_lor_l; [done|].
  rewrite Z.lor_assoc. by apply has_lor.
Qed.

Lemma fault_pte_write pa : has (fault_pte pa) PTE_W = true.
Proof.
  unfold fault_pte, leaf_pte. apply has_lor_l; [done|]. rewrite Z.lor_assoc. apply has_lor_l; [done|].
  rewrite Z.lor_assoc. apply has_lor_l; [done|]. by apply has_lor.
Qed.

Lemma same_page_down va a : same_page (PGROUNDDOWN va) a = same_page va a.
Proof.
  rewrite pgrounddown_eq. unfold same_page, PGSIZE. f_equal.
  symmetry. apply (Z.div_unique _ _ _ 0); [lia|]. pose proof (Z.div_mod va 4096 ltac:(done)). lia.
Qed.

(** What a page fault does: nothing but return 0 where the process has no
    memory or the page is mapped already, or when memory runs out; otherwise it
    maps a page of zeros.  In every case the process has the same bytes. *)
Definition faulted (me : nat) (root : Z) (s : pstate) (va pa : Z) (m' : mem) (free' : list Z) : Prop :=
  pa = 0 /\ (forall a, 0 <= a < MAXVA -> pt_get (ms_ram m') root a = pt_get (ram_of s) root a) /\
    (p_sz (ps_proc s !!! me) <= va \/ has (pt_get (ram_of s) root va) PTE_V = true \/ (length free' <= 1)%nat) \/
  0 < pa /\ PTE2PA (fault_pte pa) = pa /\ va < p_sz (ps_proc s !!! me) /\
    has (pt_get (ram_of s) root va) PTE_V = false /\
    (forall a, 0 <= a < MAXVA ->
       pt_get (ms_ram m') root a = if same_page va a then fault_pte pa else pt_get (ram_of s) root a).

Lemma with_mem_id s : with_mem (ps_mem s) s = s.
Proof. by destruct s. Qed.

Lemma unfaulted me root s free va :
  p_sz (ps_proc s !!! me) <= va \/ has (pt_get (ram_of s) root va) PTE_V = true ->
  faulted me root s va 0 (ps_mem s) free.
Proof. intros H. left. split; [done|]. split; [done|]. tauto. Qed.

Section Fault.
Context {me : nat} {root : Z} {own : gmap Z node} {free : list Z} {s : pstate}.
Context (U : uspace me root own free s).

(** The address space when its entries stay and table and free pages trade
    places, and when the page of [va] is mapped to a page that was free. *)
Lemma uspace_same m' own' free' :
  ms_hw m' = hw s -> pt_state m' root own' free' ->
  (forall a, 0 <= a < MAXVA -> pt_get (ms_ram m') root a = pt_get (ram_of s) root a) ->
  (forall p, is_Some (own' !! p) \/ p ∈ free' -> is_Some (own !! p) \/ p ∈ free) ->
  uspace me root own' free' (with_mem m' s).
Proof using U.
  intros Eh Hpt Hg Hp. destruct U as [Hc Hr Hz _ Hpg Hi].
  assert (forall p, own !! p = None -> p ∉ free -> own' !! p = None /\ p ∉ free') as Hout.
  { intros p H1 H2. assert (~ (is_Some (own' !! p) \/ p ∈ free')) as Hn.
    { intros Hin. destruct (Hp p Hin) as [[n Hn]|?]; [congruence|done]. }
    split; [destruct (own' !! p); [exfalso; apply Hn; eauto|done]|tauto]. }
  split; try done.
  - by apply calm_with_mem.
  - intros va Hva. unfold ram_of. cbn. rewrite Hg by done. intros Hv.
    destruct (Hpg va Hva Hv) as (H1 & H2 & H3). split; [done|]. by apply Hout.
  - intros va va' Hva Hva'. unfold ram_of. cbn. rewrite !Hg by done. by apply Hi.
Qed.

Lemma uspace_new m' own' free' va v :
  ms_hw m' = hw s -> pt_state m' root own' free' -> 0 <= va < MAXVA ->
  (forall a, 0 <= a < MAXVA -> pt_get (ms_ram m') root a = if same_page va a then v else pt_get (ram_of s) root a) ->
  (forall p, is_Some (own' !! p) \/ p ∈ free' -> (is_Some (own !! p) \/ p ∈ free) /\ p <> PTE2PA v) ->
  0 < PTE2PA v -> PTE2PA v ∈ free ->
  uspace me root own' free' (with_mem m' s).
Proof using U.
  intros Eh Hpt Hva Hg Hp Hv0 Hvf. destruct U as [Hc Hr Hz _ Hpg Hi].
  split; try done.
  - by apply calm_with_mem.
  - intros a Ha. unfold ram_of. cbn. rewrite Hg by done. destruct (same_page va a) eqn:Esp.
    + intros _. split; [done|]. split; [|intros Hin; by apply (Hp (PTE2PA v)); auto].
      destruct (own' !! PTE2PA v) as [n|] eqn:En; [|done]. destruct (Hp (PTE2PA v)); [eauto|done].
    + intros Hv. destruct (Hpg a Ha Hv) as (H1 & H2 & H3). split; [done|].
      assert (~ (is_Some (own' !! PTE2PA (pt_get (ram_of s) root a)) \/
                 PTE2PA (pt_get (ram_of s) root a) ∈ free')) as Hn.
      { intros Hin. destruct (Hp _ Hin) as [[[n Hn]|?] _]; [congruence|done]. }
      split; [|tauto]. destruct (own' !! _); [exfalso; apply Hn; eauto|done].
  - intros a a' Ha Ha'. unfold ram_of. cbn. rewrite !Hg by done.
    destruct (same_page va a) eqn:E1, (same_page va a') eqn:E2; unfold same_page in *.
    + lia.
    + intros _ Hv E. exfalso. destruct (Hpg a' Ha' Hv) as (_ & _ & H3). by rewrite <- E in H3.
    + intros Hv _ E. exfalso. destruct (Hpg a Ha Hv) as (_ & _ & H3). by rewrite E in H3.
    + by apply Hi.
Qed.

(** Memory changes within the tables and the free pages are invisible where
    the entries stay. *)
Lemma ubyte_inner m' a :
  inner own free (ram_of s) (ms_ram m') -> 0 <= a < MAXVA ->
  pt_get (ms_ram m') root a = pt_get (ram_of s) root a ->
  ubyte (ms_ram m') root a = ubyte (ram_of s) root a.
Proof using U.
  intros Hin Ha Hg. apply ubyte_ext; [done|]. intros pa Hpa x Hx. apply Hin.
  unfold upage in Hpa. destruct (has _ PTE_V) eqn:Ev; [|done]. cbn [andb] in Hpa.
  destruct (has _ PTE_U); [|done]. injection Hpa as <-.
  destruct (us_page _ _ _ _ _ U a Ha Ev) as (_ & Ho & Hf).
  by apply (page_outside _ x (us_pt _ _ _ _ _ U) (PTE2PA_aligned _) Ho Hf).
Qed.

Lemma ismapped_eq va :
  0 <= va < MAXVA ->
  ismapped root va (ps_mem s) = Ret (Z.b2z (has (pt_get (ram_of s) root va) PTE_V)) (ps_mem s).
Proof using U.
  intros Hva. unfold ismapped. kstep walk_read by lia. unfold ram_of, pt_get.
  destruct (pt_slot (ms_ram (ps_mem s)) root va) as [a|] eqn:E; [|done].
  change (default 0 (Some a)) with a.
  rewrite (proj2 (Z.eqb_neq a 0)).
  - kstep eq_refl. by destruct (has _ PTE_V).
  - eapply slot_nonzero; [apply (pt_tree _ _ _ _ (us_pt _ _ _ _ _ U))|exact E].
Qed.

Lemma map_zero_page va a free1 m1 :
  let m2 := with_ram (memset (ms_ram m1) a 0 PGSIZE) m1 in
  0 <= va < MAXVA -> va < p_sz (ps_proc s !!! me) -> has (pt_get (ram_of s) root va) PTE_V = false ->
  free = a :: free1 -> page_ok (m_ld (hw s)) a -> 0 < a < PHYSTOP -> own !! a = None -> a ∉ free1 ->
  ms_hw m1 = hw s -> pt_state m2 root own free1 ->
  (forall x, a <= x < a + PGSIZE -> rd8 (ms_ram m2) x = 0) ->
  (forall x, x < a \/ a + PGSIZE <= x -> rd8 (ms_ram m2) x = rd8 (ram_of s) x) ->
  exists pa m' own' free',
    (r <- mappages root (PGROUNDDOWN va) PGSIZE a (Z.lor (Z.lor PTE_W PTE_U) PTE_R) ;;
     if negb (r =? 0) then kfree a ;; ret 0 else ret a) m2 = Ret pa m' /\
    uspace me root own' free' (with_mem m' s) /\
    (forall x, 0 <= x < MAXVA -> ubyte (ms_ram m') root x = ubyte (ram_of s) root x) /\
    faulted me root s va pa m' free'.
Proof using U.
  intros m2 Hva Hsz Hun Hfree Hpok Ha Ho Hni Hhw Hpt Hz Hfr.
  assert (forall x, pt_get (ms_ram m2) root x = pt_get (ram_of s) root x) as Hg2.
  { apply (get_spared (pt_tree _ _ _ _ (us_pt _ _ _ _ _ U))). intros p [n Hn] x Hx. apply Hfr.
    destruct (page_or a x) as [|Hin]; [done|]. exfalso. apply (pages_disjoint a p x); try done; [apply Hpok| |congruence].
    by apply (pw_page _ _ _ _ (pt_tree _ _ _ _ (us_pt _ _ _ _ _ U))) in Hn as (? & _ & _). }
  assert (PGROUNDDOWN va mod PGSIZE = 0 /\ 0 <= PGROUNDDOWN va <= va) as [Hal Hle].
  { rewrite pgrounddown_eq. unfold PGSIZE. pose proof (Z.mod_pos_bound va 4096 ltac:(done)).
    pose proof (Z.div_mod va 4096 ltac:(done)). split; [|lia].
    replace (va - va mod 4096) with (va / 4096 * 4096) by lia. apply Z_mod_mult. }
  destruct (mappages_page m2 root own free1 (PGROUNDDOWN va) a (Z.lor (Z.lor PTE_W PTE_U) PTE_R) Hpt)
    as (r & k & m3 & own' & free' & E & Hpt' & Hgr & Hm & Hr); [done|lia|lia|unfold PHYSTOP, KERNBASE, PGSIZE in *; lia|done| |].
  { rewrite Hg2. rewrite <- Hun. f_equal. apply pt_get_same_page. rewrite same_page_down. apply Z.eqb_refl. }
  rewrite (bind_Ret _ _ _ _ _ E).
  assert (ms_hw m3 = hw s) as Hhw3.
  { rewrite <- Hhw. apply (pg_hw _ _ _ _ _ _ Hgr). cbn. rewrite Hhw. apply (cm_touch _ _ (us_calm _ _ _ _ _ U)). }
  assert (a ∈ free /\ free1 ⊆ free) as [Hfa Hf1] by (rewrite Hfree; set_solver).
  assert (inner own free (ram_of s) (ms_ram m3)) as Hin.
  { intros x Hx. rewrite (pg_frame _ _ _ _ _ _ Hgr); [apply Hfr, Hx; set_solver|].
    intros p Hp. apply Hx. set_solver. }
  assert (forall p, is_Some (own' !! p) \/ p ∈ free' -> p <> a /\ (is_Some (own !! p) \/ p ∈ free)) as Hpg.
  { intros p Hp%(pg_pages _ _ _ _ _ _ Hgr). split; [|set_solver]. intros ->.
    destruct Hp as [[n Hn]|Hp]; [congruence|done]. }
  destruct Hr as [[-> ->]|(-> & -> & ->)]; cbn [Z.eqb negb].
  - exists a, m3, own', free'. split; [done|].
    pose proof (fault_pte_page a Ha (proj1 Hpok)) as Hfp.
    assert (forall x, 0 <= x < MAXVA ->
      pt_get (ms_ram m3) root x = if same_page va x then fault_pte a else pt_get (ram_of s) root x) as Hg3.
    { intros x Hx. change MAXVA with (2 ^ 38) in Hx. rewrite Hm, Hg2 by lia. rewrite <- same_page_down.
      rewrite same_page_aligned by done. replace (PGROUNDDOWN va + Z.of_nat 1 * PGSIZE) with (PGROUNDDOWN va + PGSIZE) by lia.
      destruct (_ && _) eqn:Ex; [|done]. by rewrite map_page_first by (done || lia). }
    split; [|split].
    + apply (uspace_new _ own' free' va (fault_pte a)); rewrite ?Hfp; try done; [|lia].
      intros p Hp. destruct (Hpg p Hp). by split.
    + intros x Hx. destruct (same_page va x) eqn:Ex.
      * unfold ubyte, upage. rewrite Hg3, Ex, <- (pt_get_same_page _ _ _ _ Ex), Hun, Hfp by done.
        cbn [andb]. change (has (fault_pte a) PTE_V) with (has (leaf_pte a (Z.lor (Z.lor PTE_W PTE_U) PTE_R)) PTE_V).
        rewrite leaf_pte_valid, fault_pte_user. cbn [andb].
        pose proof (Z.mod_pos_bound x PGSIZE ltac:(done)).
        rewrite (pg_frame _ _ _ _ _ _ Hgr); [apply Hz; lia|].
        apply (page_outside a _ Hpt (proj1 Hpok) Ho Hni). lia.
      * apply ubyte_inner; [done..|]. by rewrite Hg3, Ex.
    + right. split; [lia|]. split; [done|]. split; [done|]. split; [done|]. exact Hg3.
  - pose proof Hpt' as [Hr3 Hk3 Hwf3].
    destruct (kfree_spec a m3 [] Hr3 Hk3) as (m4 & E4 & Hr4 & Hk4 & _ & Hfr4);
      [by rewrite Hhw3|set_solver|].
    exists 0, m4, own', [a]. rewrite (bind_Ret _ _ _ _ _ E4). split; [done|].
    assert (forall p, is_Some (own' !! p) -> same_bytes PGSIZE p (ms_ram m3) (ms_ram m4)) as Hsp.
    { intros p Hp x Hx. apply Hfr4. destruct (page_or a x) as [|Hax]; [done|]. exfalso.
      apply (pages_disjoint a p x); try done; [apply Hpok| |].
      - destruct Hp as [n Hn]. by apply (pw_page _ _ _ _ Hwf3) in Hn as (? & _ & _).
      - intros <-. by destruct (Hpg a); auto. }
    assert (forall x, 0 <= x < MAXVA -> pt_get (ms_ram m4) root x = pt_get (ram_of s) root x) as Hg4.
    { intros x Hx. rewrite (get_spared Hwf3 Hsp). change MAXVA with (2 ^ 38) in Hx.
      rewrite Hm, Hg2 by lia. unfold PGSIZE. zbool; done. }
    split; [|split].
    + apply uspace_same; [|split; [done..|]|done|].
      * rewrite (kfree_hw a m3 m4), Hhw3; [apply (cm_touch _ _ (us_calm _ _ _ _ _ U))|done|by rewrite Hhw3|done].
      * apply (wf_spared Hwf3 Hsp). intros p Hp. destruct (Hpg p); [auto|]. set_solver.
      * intros p [Hp|Hp]; [apply Hpg; auto|]. set_solver.
    + intros x Hx. apply ubyte_inner; [|done|by apply Hg4]. intros y Hy. rewrite Hfr4; [by apply Hin|].
      apply Hy. set_solver.
    + left. split; [done|]. split; [done|]. right. right. cbn. lia.
Qed.
End Fault.

(** The outcome of a page fault, as what a computation [p] ends with. *)
Definition fault_result (me : nat) (root : Z) (s : pstate) (va : Z) (p : prog pstate Z) : Prop :=
  exists pa m' own' free', p = Ret pa (with_mem m' s) /\
    uspace me root own' free' (with_mem m' s) /\
    (forall x, 0 <= x < MAXVA -> ubyte (ms_ram m') root x = ubyte (ram_of s) root x) /\
    faulted me root s va pa m' free'.

Lemma no_fault me root own free s va :
  uspace me root own free s ->
  p_sz (ps_proc s !!! me) <= va \/ has (pt_get (ram_of s) root va) PTE_V = true ->
  fault_result me root s va (Ret 0 s).
Proof.
  intros U H. exists 0, (ps_mem s), own, free. rewrite with_mem_id. split; [done|]. split; [done|].
  split; [done|]. by apply unfaulted.
Qed.

Lemma vmfault_spec me root own free s va read :
  uspace me root own free s -> 0 <= va < MAXVA -> fault_result me root s va (vmfault root va read s).
Proof.
  intros U Hva. pose proof (us_calm _ _ _ _ _ U) as Hc. pose proof (us_pt _ _ _ _ _ U) as Hpt.
  unfold vmfault. kstep (calm_curproc me s Hc). kstep eq_refl. rewrite (us_root _ _ _ _ _ U).
  destruct (Z.leb_spec (p_sz (ps_proc s !!! me)) va); [eapply no_fault; eauto|].
  assert (pt_get (ram_of s) root (PGROUNDDOWN va) = pt_get (ram_of s) root va) as Hd.
  { apply pt_get_same_page. rewrite same_page_down. apply Z.eqb_refl. }
  pose proof (pgrounddown_eq va) as Ed. pose proof (Z.mod_pos_bound va PGSIZE ltac:(done)).
  assert (0 <= PGROUNDDOWN va < MAXVA) as Hdr by (pose proof (Z.mod_le va PGSIZE ltac:(lia) ltac:(done)); lia).
  kstep (lift_Ret _ s _ _ (ismapped_eq U _ Hdr)). rewrite Hd.
  change (lset (ps_mem s) s) with (with_mem (ps_mem s) s). rewrite with_mem_id.
  destruct (has (pt_get (ram_of s) root va) PTE_V) eqn:Ev; cbn [Z.b2z Z.eqb negb]; [eapply no_fault; eauto|].
  pose proof (cm_touch _ _ Hc : touch (ms_hw (ps_mem s)) = ms_hw (ps_mem s)) as Ht.
  pose proof (kalloc_page _ _ _ _ Hpt) as Hf. destruct free as [|b free1].
  - kstep (lift_Ret _ s _ _ Hf). cbn [Z.eqb]. exists 0, (ps_mem s), own, [].
    assert (touch_mem (ps_mem s) = ps_mem s) as -> by (unfold touch_mem; rewrite Ht; by destruct (ps_mem s)).
    change (lset (ps_mem s) s) with (with_mem (ps_mem s) s). rewrite with_mem_id.
    split; [done|]. split; [done|]. split; [done|]. left. split; [done|]. split; [done|]. right. right. cbn. lia.
  - destruct Hf as (m1 & E & Hhw & Hpok & Hb & Ho & Hni & Hpt1 & _ & Hfr1). kstep (lift_Ret _ s _ _ E).
    rewrite Ht in Hhw. replace (b =? 0) with false by lia.
    destruct (zeroed_page m1 root own free1 b Hpt1 (proj1 Hpok) Ho Hni) as (Hpt2 & _ & Hz & Hfr).
    destruct (map_zero_page U va b free1 m1) as (pa & m' & own' & free' & E' & H'); try done.
    { intros x Hx. cbn. rewrite Hfr by done. by apply Hfr1. }
    exists pa, m', own', free'. split; [|done]. kstep eq_refl.
    set (m2 := with_ram (memset (ms_ram m1) b 0 PGSIZE) m1) in *.
    change (lset (with_ram _ _) _) with (with_mem m2 s).
    unfold bind at 1 in E'. destruct (mappages _ _ _ _ _ m2) as [r m3| | | |] eqn:Em; try done.
    cbn [pbind] in E'. kstep (lift_Ret _ (with_mem m2 s) _ _ Em).
    destruct (negb (r =? 0)); [|by injection E' as <- <-].
    unfold bind in E'. destruct (kfree b m3) as [? m4| | | |] eqn:Ek; try done.
    cbn [pbind] in E'. injection E' as <- <-.
    by kstep (lift_Ret _ (with_mem m3 s) _ _ Ek).
Qed.

(** * Pages on demand *)

(** A process may read, or write, at [va]: its page is mapped with the right
    permissions, or lies below the size of the process. *)
Definition may_access (write : bool) (me : nat) (root : Z) (s : pstate) (va : Z) : bool :=
  let v := pt_get (ram_of s) root va in
  (va <? MAXVA) &&
  if has v PTE_V then has v PTE_U && (negb write || has v PTE_W)
  else PGROUNDDOWN va <? p_sz (ps_proc s !!! me).

(** The page of [va] is in the table. *)
Definition present (ram : gmap Z Z) (root va : Z) : bool := has (pt_get ram root va) PTE_V.

(** The process cannot tell [m'] from the memory of [s]; no page is lost. *)
Definition same_user (me : nat) (root : Z) (s : pstate) (m' : mem) : Prop :=
  forall a, 0 <= a < MAXVA ->
    ubyte (ms_ram m') root a = ubyte (ram_of s) root a /\
    (forall write, may_access write me root (with_mem m' s) a = may_access write me root s a) /\
    (present (ram_of s) root a = true -> present (ms_ram m') root a = true).

Lemma fault_pte_valid pa : has (fault_pte pa) PTE_V = true.
Proof. apply leaf_pte_valid. Qed.

Lemma same_page_sym a b : same_page a b = same_page b a.
Proof. apply Z.eqb_sym. Qed.

Lemma same_page_eq a b : same_page a b = true -> PGROUNDDOWN a = PGROUNDDOWN b.
Proof.
  unfold same_page. intros E%Z.eqb_eq. rewrite !pgrounddown_eq, !Z.mod_eq by done. rewrite E. lia.
Qed.

(** A page fault is invisible to the process. *)
Lemma faulted_same me root s va pa m' free' :
  0 <= va < MAXVA -> va mod PGSIZE = 0 -> faulted me root s va pa m' free' ->
  (forall x, 0 <= x < MAXVA -> ubyte (ms_ram m') root x = ubyte (ram_of s) root x) ->
  same_user me root s m'.
Proof.
  intros Hva Hal Hf Hb a Ha. split; [by apply Hb|]. split.
  2: { unfold present. destruct Hf as [(_ & Hg & _)|(_ & _ & _ & _ & Hg)]; rewrite Hg by done; [done|].
    destruct (same_page va a); [|done]. by rewrite fault_pte_valid. }
  intros write. unfold may_access.
  change (ram_of (with_mem m' s)) with (ms_ram m'). cbn [with_mem ps_proc].
  destruct Hf as [(_ & Hg & _)|(_ & _ & Hsz & Hun & Hg)]; rewrite Hg by done; [done|].
  destruct (same_page va a) eqn:E; [|done].
  rewrite fault_pte_valid, fault_pte_user, fault_pte_write, <- (pt_get_same_page _ _ _ _ E), Hun.
  rewrite <- (same_page_eq _ _ E), pgrounddown_eq, Hal, orb_true_r. cbn [andb].
  replace (va - 0 <? _) with true by lia. done.
Qed.

Lemma user_page_spec me root own free s va :
  uspace me root own free s -> 0 <= va < MAXVA -> va mod PGSIZE = 0 ->
  exists pa m' own' free', user_page root va s = Ret pa (with_mem m' s) /\
    uspace me root own' free' (with_mem m' s) /\ same_user me root s m' /\
    (pa = 0 /\ (may_access false me root s va = false \/
                present (ram_of s) root va = false /\ (length free' <= 1)%nat) \/
     0 < pa /\ pa = PTE2PA (pt_get (ms_ram m') root va) /\
     has (pt_get (ms_ram m') root va) PTE_V = true /\ has (pt_get (ms_ram m') root va) PTE_U = true).
Proof.
  intros U Hva Hal. unfold user_page.
  kstep (lift_Ret _ s _ _ (walkaddr_eq _ _ _ _ _ (pt_tree _ _ _ _ (us_pt _ _ _ _ _ U)) (proj1 Hva))).
  change (lset (ps_mem s) s) with (with_mem (ps_mem s) s). rewrite with_mem_id.
  fold (ram_of s). replace (va <? MAXVA) with true by lia. cbn [andb].

  destruct (has (pt_get (ram_of s) root va) PTE_V) eqn:Ev; cbn [andb];
    [destruct (has (pt_get (ram_of s) root va) PTE_U) eqn:Eu|].
  { destruct (us_page _ _ _ _ _ U va Hva Ev) as (Hpos & _ & _).
    rewrite (proj2 (Z.eqb_neq (PTE2PA (pt_get (ram_of s) root va)) 0)) by lia. exists (PTE2PA (pt_get (ram_of s) root va)), (ps_mem s), own, free.
    rewrite with_mem_id. split; [done|]. split; [done|]. split.
    - intros a Ha. split; [done|]. split; [|done]. intros w. by rewrite with_mem_id.
    - right. done. }
  all: destruct (vmfault_spec me root own free s va 0 U Hva) as (pa & m' & own' & free' & E & U' & Hb & Hf);
    exists pa, m', own', free'; split; [exact E|]; split; [exact U'|]; split; [by eapply faulted_same|].
  all: destruct Hf as [(-> & Hg & Hc)|(Hp & Hfp & Hsz & Hun & Hg)].
  - left. split; [done|]. left. unfold may_access. rewrite Ev, Eu. by rewrite andb_false_r.
  - congruence.
  - left. split; [done|]. destruct Hc as [Hc|[Hc|Hc]]; [|congruence|by right].
    left. unfold may_access. rewrite Ev, pgrounddown_eq, Hal.
    replace (va - 0 <? _) with false by lia. by rewrite andb_false_r.
  - right. rewrite Hg by done. assert (same_page va va = true) as -> by apply Z.eqb_refl.
    split; [done|]. split; [done|]. split; [apply fault_pte_valid|apply fault_pte_user].
Qed.

(** * Writing to a user page *)

Lemma page_split va0 a :
  va0 mod PGSIZE = 0 -> same_page va0 a = true -> a = va0 + a mod PGSIZE.
Proof.
  unfold same_page, PGSIZE. intros Hal E%Z.eqb_eq.
  pose proof (Z.div_mod a 4096 ltac:(done)). pose proof (Z.div_mod va0 4096 ltac:(done)). lia.
Qed.

Section Poke.
Context {me : nat} {root : Z} {own : gmap Z node} {free : list Z} {s : pstate}.
Context (U : uspace me root own free s).
Context (va0 off : Z) (bs : list Z).
Context (Hva : 0 <= va0 < MAXVA) (Hal : va0 mod PGSIZE = 0) (Hoff : 0 <= off).
Context (Hend : off + Z.of_nat (length bs) <= PGSIZE) (Hbs : all_bytes bs).
Context (Hv : has (pt_get (ram_of s) root va0) PTE_V = true).
Context (Hu : has (pt_get (ram_of s) root va0) PTE_U = true).
Abbreviation pa0 := (PTE2PA (pt_get (ram_of s) root va0)).
Abbreviation m' := (with_ram (arr_mem (pa0 + off) bs (ram_of s)) (ps_mem s)).

Lemma poke_other p : p mod PGSIZE = 0 -> p <> pa0 -> same_bytes PGSIZE p (ram_of s) (ms_ram m').
Proof using Hend Hoff.
  intros Hp Hne x Hx. cbn. rewrite rd8_arr_mem. destruct (_ && _) eqn:E; [|done].
  exfalso. apply (pages_disjoint p pa0 x); try done; [apply PTE2PA_aligned|]. lia.
Qed.

Lemma poke_spares p : is_Some (own !! p) \/ p ∈ free -> same_bytes PGSIZE p (ram_of s) (ms_ram m').
Proof using All.
  intros Hp. destruct (us_page _ _ _ _ _ U va0 Hva Hv) as (_ & Ho & Hf). apply poke_other.
  - destruct (us_pt _ _ _ _ _ U) as [_ Hk Hwf]. destruct Hp as [[n Hn]|Hp].
    + by apply (pw_page _ _ _ _ Hwf) in Hn as (? & _ & _).
    + pose proof (ko_pages _ _ Hk) as Hpg. rewrite Forall_forall in Hpg. by destruct (Hpg p Hp).
  - intros ->. destruct Hp as [[n Hn]|Hp]; [congruence|done].
Qed.

Lemma poke_get a : pt_get (ms_ram m') root a = pt_get (ram_of s) root a.
Proof using All.
  apply (get_spared (pt_tree _ _ _ _ (us_pt _ _ _ _ _ U))). intros p Hp. apply poke_spares. by left.
Qed.

Lemma poke_uspace : uspace me root own free (with_mem m' s).
Proof using All.
  apply (uspace_same U); [done| |intros; apply poke_get|done].
  pose proof (us_pt _ _ _ _ _ U) as [Hr Hk Hwf]. split; [done| |].
  - apply (kmem_ok_ext (ps_mem s)); [done..|apply bytes_ok_arr_mem, Hk|].
    intros a Ha. apply rd64_ext. intros x Hx. apply (poke_spares a); [by right|]. unfold PGSIZE. lia.
  - apply (wf_spared Hwf); [intros p Hp; apply poke_spares; by left|].
    intros p [n Hn]. by apply (pw_page _ _ _ _ Hwf) in Hn as (_ & _ & ?).
Qed.

Lemma poke_ubyte a :
  0 <= a < MAXVA ->
  ubyte (ms_ram m') root a =
  if (va0 + off <=? a) && (a <? va0 + off + Z.of_nat (length bs))
  then bs !!! Z.to_nat (a - (va0 + off)) else ubyte (ram_of s) root a.
Proof using All.
  intros Ha. pose proof (Z.mod_pos_bound a PGSIZE ltac:(done)).
  destruct (same_page va0 a) eqn:E.
  - pose proof (page_split va0 a Hal E) as Ea. unfold ubyte, upage. rewrite poke_get, <- (pt_get_same_page _ _ _ _ E), Hv, Hu.
    cbn [andb ms_ram with_ram]. rewrite rd8_arr_mem.
    replace (a - (va0 + off)) with (pa0 + a mod PGSIZE - (pa0 + off)) by lia.
    replace ((pa0 + off <=? _) && _) with ((va0 + off <=? a) && (a <? va0 + off + Z.of_nat (length bs)))
      by (rewrite Ea at 1 2; zbool; done).
    destruct (_ && _) eqn:Ein; [|done]. apply u8_id.
    unfold all_bytes in Hbs. rewrite Forall_lookup_total in Hbs. apply Hbs. lia.
  - replace ((va0 + off <=? a) && (a <? va0 + off + Z.of_nat (length bs))) with false.
    + apply ubyte_ext; [apply poke_get|]. intros pa Hpa. unfold upage in Hpa.
      destruct (has (pt_get (ram_of s) root a) PTE_V) eqn:Ev; [|done]. cbn [andb] in Hpa.
      destruct (has (pt_get (ram_of s) root a) PTE_U); [|done]. injection Hpa as <-. apply poke_other; [apply PTE2PA_aligned|].
      intros Eq. rewrite (us_inj _ _ _ _ _ U va0 a) in E; done.
    + symmetry. rewrite same_page_aligned in E by done. zbool; done.
Qed.
End Poke.

(** * copyout *)

(** What a copy of [len] bytes to or from [va] may do: [k] bytes were copied,
    all of them accessible; all [len] of them and the result is 0, or the result
    is -1 because the next byte is not accessible or because memory ran out. *)
Definition copied (write : bool) (me : nat) (root : Z) (s : pstate) (va len : Z)
  (free' : list Z) (r k : Z) : Prop :=
  0 <= k <= len /\
  (forall i, 0 <= i < k -> may_access write me root s (va + i) = true) /\
  (r = 0 /\ k = len \/
   r = -1 /\ k < len /\
     (may_access write me root s (va + k) = false \/
      present (ram_of s) root (va + k) = false /\ (length free' <= 1)%nat)).

(** User memory after the first [k] bytes of [src] were written at [va]. *)
Definition written (me : nat) (root : Z) (s : pstate) (m' : mem) (va k : Z) (src : list Z) : Prop :=
  forall a, 0 <= a < MAXVA ->
    ubyte (ms_ram m') root a =
      (if (va <=? a) && (a <? va + k) then src !!! Z.to_nat (a - va) else ubyte (ram_of s) root a) /\
    (forall write, may_access write me root (with_mem m' s) a = may_access write me root s a) /\
    (present (ram_of s) root a = true \/ va <= a < va + k -> present (ms_ram m') root a = true).

Lemma access_same_page write me root s a b :
  same_page a b = true -> a < MAXVA -> b < MAXVA ->
  may_access write me root s a = may_access write me root s b.
Proof.
  intros E Ha Hb. unfold may_access. rewrite (pt_get_same_page _ _ _ _ E), (same_page_eq _ _ E).
  by replace (a <? MAXVA) with true by lia; replace (b <? MAXVA) with true by lia.
Qed.

Lemma access_of_pte write me root s va :
  va < MAXVA -> has (pt_get (ram_of s) root va) PTE_V = true -> has (pt_get (ram_of s) root va) PTE_U = true ->
  may_access write me root s va = negb write || has (pt_get (ram_of s) root va) PTE_W.
Proof. intros Hva Hv Hu. unfold may_access. rewrite Hv, Hu. by replace (va <? MAXVA) with true by lia. Qed.

Lemma access_write_read me root s va :
  may_access false me root s va = false -> may_access true me root s va = false.
Proof.
  unfold may_access. set (v := pt_get (ram_of s) root va).
  destruct (va <? MAXVA), (has v PTE_V), (has v PTE_U); cbn; done.
Qed.

Lemma down_facts va :
  0 <= va -> PGROUNDDOWN va mod PGSIZE = 0 /\ 0 <= PGROUNDDOWN va <= va /\
  va - PGROUNDDOWN va = va mod PGSIZE /\ va < PGROUNDDOWN va + PGSIZE.
Proof.
  intros Hva. rewrite pgrounddown_eq. unfold PGSIZE. pose proof (Z.mod_pos_bound va 4096 ltac:(done)).
  pose proof (Z.div_mod va 4096 ltac:(done)). pose proof (Z.div_pos va 4096). split; [|lia].
  replace (va - va mod 4096) with (va / 4096 * 4096) by lia. apply Z_mod_mult.
Qed.

Lemma slot_of_pte ram root va :
  has (pt_get ram root va) PTE_V = true ->
  exists a, pt_slot ram root va = Some a /\ rd64 ram a = pt_get ram root va.
Proof. unfold pt_get. destruct (pt_slot ram root va) as [a|]; [by eauto|done]. Qed.

(** One iteration of [copyout] on a nonempty source. *)
Lemma copyout_step me root own free s dstva src :
  uspace me root own free s -> 0 <= dstva -> src <> [] -> all_bytes src ->
  let n := Z.min (PGSIZE - dstva mod PGSIZE) (Z.of_nat (length src)) in
  exists m' own' free', uspace me root own' free' (with_mem m' s) /\
    (copyout_body root (dstva, src) s =
       Ret (inl (PGROUNDDOWN dstva + PGSIZE, drop (Z.to_nat n) src)) (with_mem m' s) /\
     (forall i, 0 <= i < n -> may_access true me root s (dstva + i) = true) /\
     written me root s m' dstva n src \/
     copyout_body root (dstva, src) s = Ret (inr (-1)) (with_mem m' s) /\ same_user me root s m' /\
     (may_access true me root s dstva = false \/
      present (ram_of s) root dstva = false /\ (length free' <= 1)%nat)).
Proof.
  intros U Hd Hne Hb n. unfold copyout_body. rewrite bool_decide_eq_false_2 by done.
  destruct (down_facts dstva Hd) as (Hal & Hle & Ho & Hlt). cbn zeta.
  destruct (Z.leb_spec MAXVA (PGROUNDDOWN dstva)).
  { exists (ps_mem s), own, free. rewrite with_mem_id. split; [done|]. right. split; [done|]. split.
    - intros a Ha. rewrite with_mem_id. done.
    - left. unfold may_access. by replace (dstva <? MAXVA) with false by lia. }
  destruct (user_page_spec me root own free s (PGROUNDDOWN dstva) U) as
    (pa & m1 & own1 & free1 & E1 & U1 & Hsame & Hcase); [lia|done|]. kstep E1.
  assert (same_page (PGROUNDDOWN dstva) dstva = true) as Hsp by (rewrite same_page_down; apply Z.eqb_refl).
  pose proof (page_below_max _ Hal ltac:(lia)) as Hmax.
  assert (forall w i, 0 <= i < PGSIZE - dstva mod PGSIZE ->
    may_access w me root (with_mem m1 s) (PGROUNDDOWN dstva) = may_access w me root s (dstva + i)) as Hacc.
  { intros w i Hi. rewrite (proj1 (proj2 (Hsame (PGROUNDDOWN dstva) ltac:(lia)))). apply access_same_page; [|lia..].
    rewrite same_page_aligned by done. lia. }
  assert (forall ram a, same_page (PGROUNDDOWN dstva) a = true ->
    present ram root (PGROUNDDOWN dstva) = present ram root a) as Hpr.
  { intros ram a Ea. unfold present. by rewrite (pt_get_same_page _ _ _ _ Ea). }
  destruct Hcase as [(-> & Hno)|(Hpos & -> & Hv & Hu)]; cbn [Z.eqb].
  { exists m1, own1, free1. split; [done|]. right. split; [done|]. split; [done|].
    destruct Hno as [Hno|[Hno ?]]; [left|right; by rewrite <- Hpr].
    rewrite <- (Z.add_0_r dstva), <- Hacc by lia.
    rewrite (proj1 (proj2 (Hsame (PGROUNDDOWN dstva) ltac:(lia)))). by apply access_write_read. }
  rewrite (proj2 (Z.eqb_neq (PTE2PA (pt_get (ms_ram m1) root (PGROUNDDOWN dstva))) 0)) by lia.
  destruct (slot_of_pte _ _ _ Hv) as (slot & Es & Er).
  kstep (lift_Ret _ (with_mem m1 s) _ _ (walk_read root (PGROUNDDOWN dstva) m1 ltac:(lia))). rewrite Es.
  change (default 0 (Some slot)) with slot.
  rewrite (proj2 (Z.eqb_neq slot 0)) by (eapply slot_nonzero; [apply (pt_tree _ _ _ _ (us_pt _ _ _ _ _ U1))|exact Es]).
  kstep eq_refl. change (ms_ram (lget _)) with (ms_ram m1). rewrite Er.
  pose proof (fun w => access_of_pte w me root (with_mem m1 s) (PGROUNDDOWN dstva) ltac:(lia) Hv Hu) as Hpte.
  destruct (has (pt_get (ms_ram m1) root (PGROUNDDOWN dstva)) PTE_W) eqn:Ew; cbn [negb].
  - assert (Z.of_nat (length (take (Z.to_nat n) src)) = n) as Hlen by (rewrite length_take; lia).
    pose proof (Z.mod_pos_bound dstva PGSIZE ltac:(done)) as Hmod.
    set (m2 := with_ram (arr_mem (PTE2PA (pt_get (ms_ram m1) root (PGROUNDDOWN dstva)) + dstva mod PGSIZE)
      (take (Z.to_nat n) src) (ms_ram m1)) m1).
    exists m2, own1, free1.
    assert (all_bytes (take (Z.to_nat n) src)) as Hb' by by apply Forall_take.
    split; [apply (poke_uspace U1 (PGROUNDDOWN dstva)); try done; lia|]. left. split.
    + rewrite Ho. kstep eq_refl. unfold ret. do 3 f_equal.
    + split; [intros i Hi; rewrite <- Hacc by lia; by rewrite Hpte|].
      assert (forall a, pt_get (ms_ram m2) root a = pt_get (ms_ram m1) root a) as Hg2.
      { intros a. apply (poke_get U1 (PGROUNDDOWN dstva) (dstva mod PGSIZE)); done || lia. }
      intros a Ha. split; [|split].
      * rewrite (poke_ubyte U1 (PGROUNDDOWN dstva) (dstva mod PGSIZE) (take (Z.to_nat n) src)) by (done || lia).
        replace (PGROUNDDOWN dstva + dstva mod PGSIZE) with dstva by lia. rewrite Hlen.
        destruct (_ && _) eqn:Ein; [|apply (Hsame a Ha)]. apply lookup_total_take_lt. lia.
      * intros w. rewrite <- (proj1 (proj2 (Hsame a Ha))). unfold may_access.
        change (ram_of (with_mem m2 s)) with (ms_ram m2). by rewrite Hg2.
      * unfold present at 2. rewrite Hg2. intros [Hp|Hp]; [by apply (Hsame a Ha)|].
        fold (present (ms_ram m1) root a). rewrite <- Hpr; [done|]. rewrite same_page_aligned by done. lia.
  - exists m1, own1, free1. split; [done|]. right. split; [done|]. split; [done|]. left.
    rewrite <- (Z.add_0_r dstva), <- Hacc by lia. by rewrite Hpte.
Qed.

Lemma written_trans me root s m1 m2 va n src k :
  0 <= n <= Z.of_nat (length src) -> 0 <= k ->
  written me root s m1 va n src -> written me root (with_mem m1 s) m2 (va + n) k (drop (Z.to_nat n) src) ->
  written me root s m2 va (n + k) src.
Proof.
  intros Hn Hk H1 H2 a Ha. destruct (H1 a Ha) as (B1 & A1 & P1). destruct (H2 a Ha) as (B2 & A2 & P2). split; [|split].
  - rewrite B2. change (ram_of (with_mem m1 s)) with (ms_ram m1). rewrite B1.
    destruct ((va + n <=? a) && (a <? va + n + k)) eqn:E.
    + rewrite lookup_total_drop. replace ((va <=? a) && (a <? va + (n + k))) with true by lia.
      f_equal. lia.
    + destruct ((va <=? a) && (a <? va + n)) eqn:E'.
      * by replace ((va <=? a) && (a <? va + (n + k))) with true by lia.
      * by replace ((va <=? a) && (a <? va + (n + k))) with false by lia.
  - intros w. by rewrite <- A1, <- A2.
  - intros Hp. apply P2. destruct (decide (va + n <= a < va + n + k)); [by right|left].
    apply P1. destruct Hp; [by left|right; lia].
Qed.

Lemma written_0 me root s m' va src : same_user me root s m' -> written me root s m' va 0 src.
Proof.
  intros H a Ha. destruct (H a Ha) as (-> & H2 & H3). split; [|split; [done|intros [?|?]; [auto|lia]]].
  by replace ((va <=? a) && (a <? va + 0)) with false by lia.
Qed.

Lemma access_written me root s m' va k src :
  written me root s m' va k src -> forall w a, 0 <= a ->
  may_access w me root (with_mem m' s) a = may_access w me root s a.
Proof.
  intros H w a Ha. destruct (decide (a < MAXVA)) as [Hlt|Hge]; [by apply H|].
  unfold may_access. by replace (a <? MAXVA) with false by lia.
Qed.

Lemma copyout_loop_spec n me root own free s dstva src :
  uspace me root own free s -> 0 <= dstva -> all_bytes src -> (0 < n)%nat ->
  dstva mod PGSIZE + Z.of_nat (length src) <= (Z.of_nat n - 1) * PGSIZE ->
  exists r k m' own' free',
    loop n (copyout_body root) (dstva, src) s = Ret r (with_mem m' s) /\
    uspace me root own' free' (with_mem m' s) /\ written me root s m' dstva k src /\
    copied true me root s dstva (Z.of_nat (length src)) free' r k.
Proof.
  revert own free s dstva src. induction n as [|n IH]; [lia|]. intros own free s dstva src U Hd Hb _ Hn.
  destruct (decide (src = [])) as [->|Hne].
  { exists 0, 0, (ps_mem s), own, free. rewrite with_mem_id. split; [done|]. split; [done|]. split.
    - apply written_0. intros a _. by rewrite with_mem_id.
    - split; [cbn; lia|]. split; [lia|]. by left. }
  pose proof (copyout_step me root own free s dstva src U Hd Hne Hb) as (m1 & own1 & free1 & U1 & H).
  set (k := Z.min (PGSIZE - dstva mod PGSIZE) (Z.of_nat (length src))) in H.
  destruct (down_facts dstva Hd) as (Hal & Hle & Ho & Hlt).
  assert (0 < length src)%nat by (destruct src; cbn; [done|lia]).
  destruct H as [(E & Hacc & Hw)|(E & Hs & Hno)].
  - rewrite (loop_next _ _ _ _ _ _ E).
    assert (0 < n)%nat as Hpos by (destruct n; [unfold PGSIZE in *; lia|lia]).
    destruct (IH own1 free1 (with_mem m1 s) (PGROUNDDOWN dstva + PGSIZE) (drop (Z.to_nat k) src)) as
      (r & k' & m2 & own2 & free2 & E2 & U2 & Hw2 & Hc2); [done|unfold PGSIZE in *; lia|by apply Forall_drop|done| |].
    { rewrite length_drop, <- Zplus_mod_idemp_l, Hal, Z_mod_same_full. unfold PGSIZE in *. lia. }
    exists r, (k + k'), m2, own2, free2. split; [exact E2|]. split; [exact U2|].
    rewrite length_drop in Hc2. destruct Hc2 as (Hk' & Hacc2 & Hr).
    destruct (decide (k = Z.of_nat (length src))) as [Ek|Ek].
    + assert (k' = 0) as -> by lia. rewrite Z.add_0_r. split.
      * intros a Ha. destruct (Hw a Ha) as (B1 & A1 & P1). destruct (Hw2 a Ha) as (B2 & A2 & P2). split; [|split].
        -- rewrite B2. by replace (_ && _) with false by (symmetry; apply andb_false_iff; lia).
        -- intros w. by rewrite <- A1, <- A2.
        -- auto.
      * split; [lia|]. split; [done|]. left. lia.
    + assert (PGROUNDDOWN dstva + PGSIZE = dstva + k) as Ed by lia. rewrite Ed in *. split.
      * by apply written_trans with m1; [lia..| |].
      * split; [lia|]. split.
        -- intros i Hi. destruct (decide (i < k)) as [|Hge]; [apply Hacc; lia|].
           rewrite <- (access_written _ _ _ _ _ _ _ Hw) by lia. replace (dstva + i) with (dstva + k + (i - k)) by lia.
           apply Hacc2. lia.
        -- destruct Hr as [[-> ->]|(-> & Hlt' & Hno)]; [left; lia|right]. split; [done|]. split; [lia|].
           rewrite <- (access_written _ _ _ _ _ _ _ Hw), Z.add_assoc by lia.
           destruct Hno as [?|[Hno ?]]; [by left|].
           destruct (decide (dstva + k + k' < MAXVA)).
           2: { left. unfold may_access. by replace (dstva + k + k' <? MAXVA) with false by lia. }
           right. split; [|done]. destruct (present (ram_of s) root _) eqn:Ep; [|done].
           destruct (Hw (dstva + k + k')) as (_ & _ & P1); [lia|].
           change (ram_of (with_mem m1 s)) with (ms_ram m1) in Hno. rewrite P1 in Hno; auto.
  - rewrite (loop_exit _ _ _ _ _ _ E). exists (-1), 0, m1, own1, free1. split; [done|]. split; [done|].
    split; [by apply written_0|]. split; [lia|]. split; [lia|]. right. split; [done|]. split; [lia|]. by rewrite Z.add_0_r.
Qed.

(** * copyin *)

(** Above the highest address there is no page. *)
Lemma user_page_high me root own free s va :
  uspace me root own free s -> MAXVA <= va -> user_page root va s = Ret 0 s.
Proof.
  intros U Hva. pose proof (us_sz _ _ _ _ _ U) as Hsz. assert (0 <= MAXVA) by done. unfold user_page.
  kstep (lift_Ret _ s _ _ (walkaddr_eq root va _ _ _ (pt_tree _ _ _ _ (us_pt _ _ _ _ _ U)) ltac:(lia))).
  change (lset (ps_mem s) s) with (with_mem (ps_mem s) s). rewrite with_mem_id.
  replace (va <? MAXVA) with false by lia. cbn [andb Z.eqb]. unfold vmfault.
  kstep (calm_curproc me s (us_calm _ _ _ _ _ U)). kstep eq_refl. by replace (p_sz _ <=? va) with true by lia.
Qed.

(** The bytes the process has at [va]. *)
Definition ubytes (ram : gmap Z Z) (root va : Z) (n : nat) : list Z :=
  (fun i => ubyte ram root (va + Z.of_nat i)) <$> seq 0 n.

Lemma ubytes_page ram root va n :
  has (pt_get ram root va) PTE_V = true -> has (pt_get ram root va) PTE_U = true ->
  va mod PGSIZE + Z.of_nat n <= PGSIZE ->
  bytes_at ram (PTE2PA (pt_get ram root va) + va mod PGSIZE) n = ubytes ram root va n.
Proof.
  intros Hv Hu Hn. apply list_fmap_ext. intros k i [-> Hi]%lookup_seq. cbn [Nat.add].
  pose proof (Z.mod_pos_bound va PGSIZE ltac:(done)).
  assert ((va + Z.of_nat k) / PGSIZE = va / PGSIZE /\ (va + Z.of_nat k) mod PGSIZE = va mod PGSIZE + Z.of_nat k) as [Ed Em].
  { unfold PGSIZE in *. pose proof (Z.div_mod va 4096 ltac:(done)). split; symmetry.
    - apply (Z.div_unique _ _ _ (va mod 4096 + Z.of_nat k)); lia.
    - apply (Z.mod_unique _ _ (va / 4096)); lia. }
  assert (same_page va (va + Z.of_nat k) = true) as Esp by (unfold same_page; rewrite Ed; apply Z.eqb_refl).
  unfold ubyte, upage. rewrite <- (pt_get_same_page _ _ _ _ Esp), Hv, Hu, Em. cbn [andb]. f_equal. lia.
Qed.

Lemma ubytes_app ram root va n k :
  ubytes ram root va (n + k) = ubytes ram root va n ++ ubytes ram root (va + Z.of_nat n) k.
Proof.
  unfold ubytes. rewrite seq_app, fmap_app. f_equal. cbn [Nat.add].
  rewrite <- (Nat.add_0_r n) at 1. rewrite <- fmap_add_seq, <- list_fmap_compose.
  apply list_fmap_ext. intros i x _. cbn. f_equal. lia.
Qed.

Lemma ubytes_ext ram ram' root va n :
  (forall i, 0 <= i < Z.of_nat n -> ubyte ram' root (va + i) = ubyte ram root (va + i)) ->
  ubytes ram' root va n = ubytes ram root va n.
Proof. intros H. apply list_fmap_ext. intros i x [-> Hi]%lookup_seq. apply H. lia. Qed.

Lemma copyin_step me root own free s srcva len dst :
  uspace me root own free s -> 0 <= srcva -> 0 < len ->
  let n := Z.min (PGSIZE - srcva mod PGSIZE) len in
  exists m' own' free', uspace me root own' free' (with_mem m' s) /\ same_user me root s m' /\
    (copyin_body root (srcva, len, dst) s =
       Ret (inl (PGROUNDDOWN srcva + PGSIZE, len - n, dst ++ ubytes (ram_of s) root srcva (Z.to_nat n)))
         (with_mem m' s) /\ srcva + n <= MAXVA /\
     (forall i, 0 <= i < n -> may_access false me root s (srcva + i) = true) \/
     copyin_body root (srcva, len, dst) s = Ret (inr (-1, dst)) (with_mem m' s) /\
     (may_access false me root s srcva = false \/
      present (ram_of s) root srcva = false /\ (length free' <= 1)%nat)).
Proof.
  intros U Hd Hlen n. unfold copyin_body. replace (0 <? len) with true by lia. cbn [negb].
  destruct (down_facts srcva Hd) as (Hal & Hle & Ho & Hlt). cbn zeta.
  destruct (Z.leb_spec MAXVA (PGROUNDDOWN srcva)).
  { exists (ps_mem s), own, free. rewrite with_mem_id. kstep (user_page_high me root own free s _ U ltac:(done)).
    split; [done|]. split; [intros a Ha; by rewrite with_mem_id|]. right. split; [done|].
    left. unfold may_access. by replace (srcva <? MAXVA) with false by lia. }
  destruct (user_page_spec me root own free s (PGROUNDDOWN srcva) U) as
    (pa & m1 & own1 & free1 & E1 & U1 & Hsame & Hcase); [lia|done|]. kstep E1.
  pose proof (page_below_max _ Hal ltac:(lia)) as Hmax.
  assert (forall i, 0 <= i < PGSIZE - srcva mod PGSIZE -> same_page (PGROUNDDOWN srcva) (srcva + i) = true) as Hsp.
  { intros i Hi. rewrite same_page_aligned by done. lia. }
  exists m1, own1, free1. split; [done|]. split; [done|].
  pose proof (Hsp 0 ltac:(lia)) as Hsp0. rewrite Z.add_0_r in Hsp0.
  destruct Hcase as [(-> & Hno)|(Hpos & -> & Hv & Hu)]; cbn [Z.eqb].
  { right. split; [done|]. destruct Hno as [Hno|[Hno ?]].
    - left. rewrite <- (access_same_page _ _ _ _ _ _ Hsp0) by lia. done.
    - right. unfold present in *. by rewrite <- (pt_get_same_page _ _ _ _ Hsp0). }
  rewrite (proj2 (Z.eqb_neq (PTE2PA (pt_get (ms_ram m1) root (PGROUNDDOWN srcva))) 0)) by lia.
  left. split; [|split; [lia|]].
  - kstep eq_refl. rewrite Ho. fold n. change (ram_of (with_mem m1 s)) with (ms_ram m1).
    rewrite (pt_get_same_page _ _ _ _ Hsp0) in Hv, Hu |- *.
    rewrite ubytes_page by (done || lia). rewrite (ubytes_ext (ram_of s)); [|intros i Hi; apply (Hsame (srcva + i)); lia].
    rewrite u64_small; [done|]. change MAXVA with (2 ^ 38) in *. lia.
  - intros i Hi. rewrite <- (access_same_page _ _ _ _ _ _ (Hsp i ltac:(lia))) by lia.
    rewrite <- (proj1 (proj2 (Hsame (PGROUNDDOWN srcva) ltac:(lia)))). by rewrite access_of_pte by (done || lia).
Qed.

Lemma same_user_trans me root s m1 m2 :
  same_user me root s m1 -> same_user me root (with_mem m1 s) m2 -> same_user me root s m2.
Proof.
  intros H1 H2 a Ha. destruct (H1 a Ha) as (B1 & A1 & P1). destruct (H2 a Ha) as (B2 & A2 & P2).
  split; [by rewrite B2|]. split; [intros w; by rewrite <- A1, <- A2|auto].
Qed.

Lemma copyin_loop_spec n me root own free s srcva len dst :
  uspace me root own free s -> 0 <= srcva -> 0 <= len -> (0 < n)%nat ->
  srcva mod PGSIZE + len <= (Z.of_nat n - 1) * PGSIZE ->
  exists r k m' own' free',
    loop n (copyin_body root) (srcva, len, dst) s =
      Ret (r, dst ++ ubytes (ram_of s) root srcva (Z.to_nat k)) (with_mem m' s) /\
    uspace me root own' free' (with_mem m' s) /\ same_user me root s m' /\
    copied false me root s srcva len free' r k.
Proof.
  revert own free s srcva len dst. induction n as [|n IH]; [lia|]. intros own free s srcva len dst U Hd Hl _ Hn.
  destruct (decide (len = 0)) as [->|Hne].
  { exists 0, 0, (ps_mem s), own, free. rewrite with_mem_id. split.
    { cbn. by rewrite app_nil_r. }
    split; [done|]. split; [intros a Ha; by rewrite with_mem_id|].
    split; [lia|]. split; [lia|]. by left. }
  pose proof (copyin_step me root own free s srcva len dst U Hd ltac:(lia)) as (m1 & own1 & free1 & U1 & Hs1 & H).
  set (k := Z.min (PGSIZE - srcva mod PGSIZE) len) in H.
  destruct (down_facts srcva Hd) as (Hal & Hle & Ho & Hlt).
  destruct H as [(E & Hmax & Hacc)|(E & Hno)].
  - rewrite (loop_next _ _ _ _ _ _ E).
    assert (0 < n)%nat as Hpos by (destruct n; [unfold PGSIZE in *; lia|lia]).
    destruct (IH own1 free1 (with_mem m1 s) (PGROUNDDOWN srcva + PGSIZE) (len - k)
      (dst ++ ubytes (ram_of s) root srcva (Z.to_nat k))) as
      (r & k' & m2 & own2 & free2 & E2 & U2 & Hs2 & Hc2); [done|unfold PGSIZE in *; lia|lia|done| |].
    { rewrite <- Zplus_mod_idemp_l, Hal, Z_mod_same_full. unfold PGSIZE in *. lia. }
    destruct Hc2 as (Hk' & Hacc2 & Hr). rewrite <- app_assoc in E2.
    exists r, (k + k'), m2, own2, free2. split; [|split; [exact U2|split; [by eapply same_user_trans|]]].
    + rewrite E2. do 2 f_equal. rewrite Z2Nat.inj_add, ubytes_app, Z2Nat.id by lia. do 2 f_equal.
      destruct (decide (k' = 0)) as [->|]; [done|]. replace (PGROUNDDOWN srcva + PGSIZE) with (srcva + k) in * by lia.
      apply ubytes_ext. intros i Hi. apply (Hs1 (srcva + k + i)). split; [lia|].
      specialize (Hacc2 i ltac:(lia)). unfold may_access in Hacc2. lia.
    + destruct (decide (k = len)) as [Ek|Ek].
      { assert (k' = 0) as -> by lia. rewrite Z.add_0_r. split; [lia|]. split; [done|]. left. lia. }
      replace (PGROUNDDOWN srcva + PGSIZE) with (srcva + k) in * by lia. split; [lia|]. split.
      * intros i Hi. destruct (decide (i < k)) as [|Hge]; [apply Hacc; lia|].
        rewrite <- (access_written _ _ _ _ _ _ _ (written_0 _ _ _ _ 0 [] Hs1)) by lia.
        replace (srcva + i) with (srcva + k + (i - k)) by lia. apply Hacc2. lia.
      * destruct Hr as [[-> ->]|(-> & Hlt' & Hno)]; [left; lia|right]. split; [done|]. split; [lia|].
        rewrite <- (access_written _ _ _ _ _ _ _ (written_0 _ _ _ _ 0 [] Hs1)), Z.add_assoc by lia.
        destruct Hno as [?|[Hno ?]]; [by left|].
        destruct (decide (srcva + k + k' < MAXVA)).
        2: { left. unfold may_access. by replace (srcva + k + k' <? MAXVA) with false by lia. }
        right. split; [|done]. destruct (present (ram_of s) root _) eqn:Ep; [|done].
        destruct (Hs1 (srcva + k + k')) as (_ & _ & P1); [lia|].
        change (ram_of (with_mem m1 s)) with (ms_ram m1) in Hno. rewrite P1 in Hno; auto.
  - rewrite (loop_exit _ _ _ _ _ _ E). exists (-1), 0, m1, own1, free1. split; [by cbn; rewrite app_nil_r|].
    split; [done|]. split; [done|]. split; [lia|]. split; [lia|]. right. split; [done|]. split; [lia|]. by rewrite Z.add_0_r.
Qed.

(** * The copies *)

Lemma copy_fuel_enough va len :
  0 <= len -> (0 < copy_fuel len)%nat /\ va mod PGSIZE + len <= (Z.of_nat (copy_fuel len) - 1) * PGSIZE.
Proof.
  intros Hl. unfold copy_fuel, PGSIZE. pose proof (Z.mod_pos_bound va 4096 ltac:(done)).
  pose proof (Z.div_mod len 4096 ltac:(done)). pose proof (Z.mod_pos_bound len 4096 ltac:(done)).
  pose proof (Z.div_pos len 4096). lia.
Qed.

Lemma copyout_spec me root own free s dstva src :
  uspace me root own free s -> 0 <= dstva -> all_bytes src ->
  exists r k m' own' free',
    copyout root dstva src s = Ret r (with_mem m' s) /\
    uspace me root own' free' (with_mem m' s) /\ written me root s m' dstva k src /\
    copied true me root s dstva (Z.of_nat (length src)) free' r k.
Proof.
  intros U Hd Hb. unfold copyout. destruct (copy_fuel_enough dstva (Z.of_nat (length src))); [lia|].
  by eapply copyout_loop_spec.
Qed.

Lemma copyin_spec me root own free s srcva len :
  uspace me root own free s -> 0 <= srcva -> 0 <= len ->
  exists r k m' own' free',
    copyin root srcva len s = Ret (r, ubytes (ram_of s) root srcva (Z.to_nat k)) (with_mem m' s) /\
    uspace me root own' free' (with_mem m' s) /\ same_user me root s m' /\
    copied false me root s srcva len free' r k.
Proof.
  intros U Hd Hl. unfold copyin. destruct (copy_fuel_enough srcva len Hl).
  by apply (copyin_loop_spec _ me root own free s srcva len []).
Qed.

(** C17. [copyout] writes a prefix of the bytes at the user addresses and nothing
    else the process can see: every other byte of its memory, and what it may
    access, stay as they were, whether the pages were mapped or had to be
    allocated on the way.  It returns 0 with all bytes written, or -1 where the
    next address is above the address space, beyond the process's size or not
    writable, or when memory ran out. *)
Theorem copyout_correct me root own free s dstva src :
  uspace me root own free s -> 0 <= dstva -> all_bytes src ->
  exists r k m' own' free',
    copyout root dstva src s = Ret r (with_mem m' s) /\
    uspace me root own' free' (with_mem m' s) /\ written me root s m' dstva k src /\
    copied true me root s dstva (Z.of_nat (length src)) free' r k.
Proof. apply copyout_spec. Qed.

(** C26. [copyin] returns the bytes the process has at the addresses, zeros where
    it never touched its memory, and the process cannot tell that it ran; it
    returns 0 with all bytes, or -1 and those before the first address that the
    process may not read or that needs a page when there is none. *)
Theorem copyin_correct me root own free s srcva len :
  uspace me root own free s -> 0 <= srcva -> 0 <= len ->
  exists r k m' own' free',
    copyin root srcva len s = Ret (r, ubytes (ram_of s) root srcva (Z.to_nat k)) (with_mem m' s) /\
    uspace me root own' free' (with_mem m' s) /\ same_user me root s m' /\
    copied false me root s srcva len free' r k.
Proof. apply copyin_spec. Qed.

Lemma ubytes_written me root s m' va src :
  0 <= va -> va + Z.of_nat (length src) <= MAXVA ->
  written me root s m' va (Z.of_nat (length src)) src -> ubytes (ms_ram m') root va (length src) = src.
Proof.
  intros Hva Hend H. apply list_eq_same_length with (length src); [done|by unfold ubytes; rewrite length_fmap, length_seq|].
  intros i x y Hi. unfold ubytes. rewrite list_lookup_fmap, lookup_seq_lt by done. intros [= <-] Hy.
  destruct (H (va + Z.of_nat i)) as [-> _]; [lia|].
  replace (_ && _) with true by lia. replace (Z.to_nat _) with i by lia. by apply list_lookup_total_correct.
Qed.

(** What [copyout] stored, [copyin] reads back: after a copy out that
    succeeded, a copy in of the same range succeeds, even with no memory left, and
    returns the same bytes. *)
Theorem copy_roundtrip me root own free s va src s' :
  uspace me root own free s -> 0 <= va -> all_bytes src ->
  copyout root va src s = Ret 0 s' ->
  exists s'', copyin root va (Z.of_nat (length src)) s' = Ret (0, src) s''.
Proof.
  intros U Hva Hb E. destruct (copyout_spec me root own free s va src U Hva Hb) as
    (r & k & m1 & own1 & free1 & E1 & U1 & Hw & Hk & Hacc & Hr). rewrite E1 in E. injection E as -> <-.
  destruct Hr as [[_ ->]|[? _]]; [|done].
  assert (src = [] \/ va + Z.of_nat (length src) <= MAXVA) as Hend.
  { destruct (decide (src = [])) as [|Hne]; [by left|right].
    assert (0 < length src)%nat by (destruct src; cbn; [done|lia]).
    specialize (Hacc (Z.of_nat (length src) - 1) ltac:(lia)). unfold may_access in Hacc. lia. }
  destruct (copyin_spec me root own1 free1 (with_mem m1 s) va (Z.of_nat (length src)) U1 Hva) as
    (r & k & m2 & own2 & free2 & E2 & _ & _ & Hk2 & _ & Hr); [lia|].
  assert (r = 0 /\ k = Z.of_nat (length src)) as [-> ->].
  { destruct Hr as [?|(-> & Hlt & Hno)]; [done|]. exfalso.
    destruct Hend as [->|Hend]; [cbn in *; lia|].
    specialize (Hacc k ltac:(lia)). destruct (Hw (va + k)) as (_ & HA & HP); [lia|].
    destruct Hno as [Hno|[Hno _]].
    - apply access_write_read in Hno. rewrite HA, Hacc in Hno. done.
    - change (ram_of (with_mem m1 s)) with (ms_ram m1) in Hno. rewrite HP in Hno; [done|right; lia]. }
  exists (with_mem m2 (with_mem m1 s)). rewrite E2, Nat2Z.id. do 2 f_equal.
  destruct Hend as [->|Hend]; [done|]. by apply (ubytes_written me root s).
Qed.

(** * copyinstr *)

(** The string at [va], byte by byte: [None] if no NUL comes within [n] bytes
    or a byte is not in a mapped user page. *)
Fixpoint ustr (n : nat) (ram : gmap Z Z) (root va : Z) : option (list Z) :=
  match n with
  | O => None
  | S n' =>
      let v := pt_get ram root va in
      if (va <? MAXVA) && has v PTE_V && has v PTE_U then
        if ubyte ram root va =? 0 then Some []
        else cons (ubyte ram root va) <$> ustr n' ram root (va + 1)
      else None
  end.

(** A page of a string is read as its bytes one by one. *)
Lemma ustr_chunk n k ram root va0 off :
  va0 mod PGSIZE = 0 -> 0 <= va0 < MAXVA -> 0 <= off -> off + Z.of_nat n <= PGSIZE ->
  has (pt_get ram root va0) PTE_V = true -> has (pt_get ram root va0) PTE_U = true ->
  ustr (n + k) ram root (va0 + off) =
  let (bs, got) := str_chunk n ram (PTE2PA (pt_get ram root va0) + off) in
  if (got : bool) then Some bs else app bs <$> ustr k ram root (va0 + (off + Z.of_nat n)).
Proof.
  intros Hal Hva. pose proof (page_below_max _ Hal Hva) as Hmax.
  revert off. induction n as [|n IH]; intros off Ho Hend Hv Hu.
  - cbn [str_chunk Nat.add]. rewrite Z.add_0_r. by destruct (ustr k ram root (va0 + off)).
  - assert (same_page va0 (va0 + off) = true) as Hsp by (rewrite same_page_aligned by done; lia).
    assert (ubyte ram root (va0 + off) = rd8 ram (PTE2PA (pt_get ram root va0) + off)) as Eb.
    { unfold ubyte, upage. rewrite <- (pt_get_same_page _ _ _ _ Hsp), Hv, Hu. cbn [andb].
      by rewrite <- Zplus_mod_idemp_l, Hal, Z.mod_small by lia. }
    cbn [ustr str_chunk Nat.add]. rewrite <- (pt_get_same_page _ _ _ _ Hsp), Hv, Hu, Eb.
    replace (va0 + off <? MAXVA) with true by lia. cbn [andb].
    destruct (rd8 ram _ =? 0); [done|]. rewrite <- !Z.add_assoc, IH by (done || lia).
    replace (off + 1 + Z.of_nat n) with (off + Z.of_nat (S n)) by lia.
    destruct (str_chunk n ram _) as [bs []]; [done|]. by destruct (ustr k ram root _).
Qed.

Lemma ustr_no_page n ram root va0 va :
  same_page va0 va = true -> va0 < MAXVA -> va < MAXVA ->
  has (pt_get ram root va0) PTE_V && has (pt_get ram root va0) PTE_U = false -> ustr n ram root va = None.
Proof.
  intros Hsp H0 H1 Hn. destruct n as [|n]; [done|]. cbn [ustr].
  by rewrite <- (pt_get_same_page _ _ _ _ Hsp), <- andb_assoc, Hn, andb_false_r.
Qed.

Lemma copyinstr_step me root own free s srcva max dst :
  uspace me root own free s -> 0 <= srcva -> 0 < max ->
  let va0 := PGROUNDDOWN srcva in
  let v := pt_get (ram_of s) root va0 in
  let k := Z.min (PGSIZE - srcva mod PGSIZE) max in
  copyinstr_body root (srcva, max, dst) s =
  Ret (if (va0 <? MAXVA) && has v PTE_V && has v PTE_U then
         let (bs, got) := str_chunk (Z.to_nat k) (ram_of s) (PTE2PA v + srcva mod PGSIZE) in
         if (got : bool) then inr (Some (dst ++ bs)) else inl (va0 + PGSIZE, max - k, dst ++ bs)
       else inr None) s.
Proof.
  intros U Hd Hm va0 v k. destruct (down_facts srcva Hd) as (Hal & Hle & Ho & Hlt). fold va0 in Hal, Hle, Ho, Hlt.
  unfold copyinstr_body. replace (0 <? max) with true by lia. cbn [negb]. fold va0. cbn zeta. rewrite Ho. fold k.
  kstep (lift_Ret _ s _ _ (walkaddr_eq root va0 _ _ _ (pt_tree _ _ _ _ (us_pt _ _ _ _ _ U)) (proj1 Hle))).
  change (lset (ps_mem s) s) with (with_mem (ps_mem s) s). rewrite with_mem_id. fold (ram_of s). fold v.
  destruct (Z.ltb_spec va0 MAXVA) as [Hlt0|]; cbn [andb]; [|done].
  pose proof (page_below_max _ Hal ltac:(lia)) as Hmax.
  destruct (has v PTE_V && has v PTE_U) eqn:Evu; [|done]. apply andb_true_iff in Evu as [Hv Hu].
  destruct (us_page _ _ _ _ _ U va0 ltac:(lia) Hv) as (Hpa & _ & _). fold v in Hpa.
  rewrite (proj2 (Z.eqb_neq (PTE2PA v) 0)) by lia. kstep eq_refl.
  destruct (str_chunk _ _ _) as [bs []]; [done|].
  rewrite u64_small by (change MAXVA with (2 ^ 38) in *; unfold PGSIZE in *; lia). done.
Qed.

Lemma copyinstr_loop_spec n me root own free s srcva max dst :
  uspace me root own free s -> 0 <= srcva -> 0 <= max -> (0 < n)%nat ->
  srcva mod PGSIZE + max <= (Z.of_nat n - 1) * PGSIZE ->
  loop n (copyinstr_body root) (srcva, max, dst) s =
  Ret (app dst <$> ustr (Z.to_nat max) (ram_of s) root srcva) s.
Proof.
  intros U. revert srcva max dst. induction n as [|n IH]; [lia|]. intros srcva max dst Hd Hm _ Hn.
  destruct (decide (max = 0)) as [->|Hne]; [done|].
  destruct (down_facts srcva Hd) as (Hal & Hle & Ho & Hlt). pose proof (Z.mod_pos_bound srcva PGSIZE eq_refl).
  assert (0 < n)%nat as Hpos by (destruct n; [unfold PGSIZE in *; lia|lia]).
  pose proof (copyinstr_step me root own free s srcva max dst U Hd ltac:(lia)) as E. cbn zeta in E.
  set (k := Z.min (PGSIZE - srcva mod PGSIZE) max) in E. set (va0 := PGROUNDDOWN srcva) in *.
  assert (same_page va0 srcva = true) as Hsp by (unfold va0; rewrite same_page_down; apply Z.eqb_refl).
  destruct (Z.ltb_spec va0 MAXVA) as [Hlt0|Hge]; cbn [andb] in E.
  2: { rewrite (loop_exit _ _ _ _ _ _ E). destruct (Z.to_nat max) as [|j] eqn:Ej; [lia|]. cbn [ustr].
    by replace (srcva <? MAXVA) with false by lia. }
  pose proof (page_below_max _ Hal ltac:(lia)) as Hmax.
  destruct (has (pt_get (ram_of s) root va0) PTE_V && has (pt_get (ram_of s) root va0) PTE_U) eqn:Evu.
  2: { rewrite (loop_exit _ _ _ _ _ _ E). by rewrite (ustr_no_page _ _ _ _ _ Hsp) by (done || lia). }
  apply andb_true_iff in Evu as [Hv Hu].
  pose proof (ustr_chunk (Z.to_nat k) (Z.to_nat (max - k)) (ram_of s) root va0 (srcva mod PGSIZE)
    Hal ltac:(lia) ltac:(lia) ltac:(lia) Hv Hu) as Ec.
  replace (va0 + srcva mod PGSIZE) with srcva in Ec by lia.
  replace (Z.to_nat k + Z.to_nat (max - k))%nat with (Z.to_nat max) in Ec by lia. rewrite Ec.
  destruct (str_chunk _ _ _) as [bs []]; [by rewrite (loop_exit _ _ _ _ _ _ E)|].
  rewrite (loop_next _ _ _ _ _ _ E), IH; [|unfold PGSIZE in *; lia|lia|done|].
  2: { rewrite <- Zplus_mod_idemp_l, Hal, Z_mod_same_full. unfold PGSIZE in *. lia. }
  rewrite Z2Nat.id by lia. destruct (decide (k = max)) as [->|].
  - by rewrite Z.sub_diag.
  - replace (va0 + (srcva mod PGSIZE + k)) with (va0 + PGSIZE) by lia.
    rewrite <- option_fmap_compose. f_equal. apply option_fmap_ext. intros l. cbn. by rewrite app_assoc.
Qed.

(** C27. [copyinstr], which reads a page at a time, is the byte-by-byte reading of
    a NUL-terminated string: it returns the characters before the first NUL among
    the [max] bytes at the address if all the bytes up to it are in mapped user
    pages, fails otherwise, and changes nothing. *)
Theorem copyinstr_correct me root own free s srcva max :
  uspace me root own free s -> 0 <= srcva -> 0 <= max ->
  copyinstr root srcva max s = Ret (ustr (Z.to_nat max) (ram_of s) root srcva) s.
Proof.
  intros U Hd Hm. unfold copyinstr. destruct (copy_fuel_enough srcva max Hm).
  rewrite (copyinstr_loop_spec _ me root own free) by done. by destruct (ustr _ _ _ _).
Qed.

(** * Examples *)

(** A process of three pages none of which it has touched, and six free pages. *)
Definition demo_pages : list Z := [0x80025000; 0x80026000; 0x80027000; 0x80028000; 0x80029000; 0x8002a000].
Definition demo_user_mem : mem :=
  with_freelist 0x80025000
    (with_ram (foldr (fun a r => wr64 r a (a + PGSIZE)) (wr64 ∅ 0x8002a000 0)
      [0x80025000; 0x80026000; 0x80027000; 0x80028000; 0x80029000]) (ps_mem (demo_running 0))).
Definition demo_user : pstate :=
  upd 1 (fun p => set_sz 0x3000 (set_pagetable demo_root p)) (with_mem demo_user_mem (demo_running 0)).

Lemma demo_user_ent i : 0 <= i < 512 -> ent (ms_ram demo_user_mem) demo_root i = 0.
Proof.
  intros Hi. unfold ent, demo_root. cbn [ms_ram demo_user_mem with_freelist with_ram foldr].
  rewrite !rd64_wr64_ne by (unfold PGSIZE; lia). apply rd64_zero. intros x _. reflexivity.
Qed.

Lemma demo_user_get va : pt_get (ram_of demo_user) demo_root va = 0.
Proof.
  rewrite pt_get_eq. unfold pt_step. change (ram_of demo_user) with (ms_ram demo_user_mem).
  by rewrite demo_user_ent by by apply PX_bounds.
Qed.

Lemma demo_user_pt : pt_state (ps_mem demo_user) demo_root demo_own demo_pages.
Proof.
  split.
  - split; [apply demo_calm|]. by eapply demo_lock_free.
  - split.
    + vm_compute. done.
    + apply (bool_decide_unpack _). vm_compute. done.
    + repeat constructor; vm_compute; done.
    + done.
    + cbn. repeat apply bytes_ok_wr64. apply bytes_ok_empty.
  - unfold demo_own. split.
    + apply lookup_singleton_eq.
    + intros p Hp. by apply lookup_singleton_Some in Hp as [<- _].
    + intros i q Hi. change (ms_ram (ps_mem demo_user)) with (ms_ram demo_user_mem). unfold pt_step. by rewrite demo_user_ent.
    + intros p i j q Hp. by apply lookup_singleton_Some in Hp as [_ ?].
    + intros p n Hp. apply lookup_singleton_Some in Hp as [<- _].
      split_and!; [reflexivity|done|done|]. unfold demo_root, demo_pages. set_solver.
    + intros p n Hp. by apply lookup_singleton_Some in Hp as [<- <-].
    + intros p n i q Hp _ Hi. apply lookup_singleton_Some in Hp as [<- _].
      change (ms_ram (ps_mem demo_user)) with (ms_ram demo_user_mem). unfold pt_step. by rewrite demo_user_ent.
Qed.

Lemma demo_uspace : uspace 1 demo_root demo_own demo_pages demo_user.
Proof.
  split.
  - destruct demo_calm as [H1 H2 H3 H4 H5]. by split.
  - reflexivity.
  - vm_compute. done.
  - apply demo_user_pt.
  - intros va _. by rewrite demo_user_get.
  - intros va va' _ _. by rewrite demo_user_get.
Qed.

Lemma copyout_correct_witness :
  exists r k m' own' free',
    copyout demo_root 0xffe [1; 2; 3] demo_user = Ret r (with_mem m' demo_user) /\
    uspace 1 demo_root own' free' (with_mem m' demo_user) /\
    written 1 demo_root demo_user m' 0xffe k [1; 2; 3] /\
    copied true 1 demo_root demo_user 0xffe 3 free' r k.
Proof.
  apply (copyout_correct 1 demo_root demo_own demo_pages demo_user 0xffe [1; 2; 3]);
    [apply demo_uspace|done|repeat constructor; done].
Defined.

Lemma copyin_correct_witness :
  exists r k m' own' free',
    copyin demo_root 0xffe 3 demo_user = Ret (r, ubytes (ram_of demo_user) demo_root 0xffe (Z.to_nat k)) (with_mem m' demo_user) /\
    uspace 1 demo_root own' free' (with_mem m' demo_user) /\ same_user 1 demo_root demo_user m' /\
    copied false 1 demo_root demo_user 0xffe 3 free' r k.
Proof.
  apply (copyin_correct 1 demo_root demo_own demo_pages demo_user 0xffe 3); [apply demo_uspace|done..].
Defined.

(** The value a computation returns, if it does. *)
Definition returned {A} (p : prog pstate A) : option (A * pstate) :=
  match p with Ret a s => Some (a, s) | _ => None end.

Lemma returned_Ret {A} (p : prog pstate A) a : fst <$> returned p = Some a -> exists s', p = Ret a s'.
Proof. destruct p as [b s'| | | |]; try done. cbn. intros [= ->]. by exists s'. Qed.

Lemma demo_copyout : fst <$> returned (copyout demo_root 0xffe [1; 2; 3] demo_user) = Some 0.
Proof. vm_compute. reflexivity. Qed.

Lemma copy_roundtrip_witness :
  exists s' s'', copyout demo_root 0xffe [1; 2; 3] demo_user = Ret 0 s' /\
    copyin demo_root 0xffe 3 s' = Ret (0, [1; 2; 3]) s''.
Proof.
  destruct (returned_Ret _ _ demo_copyout) as [s' E]. exists s'.
  destruct (copy_roundtrip 1 demo_root demo_own demo_pages demo_user 0xffe [1; 2; 3] s' demo_uspace) as [s'' E'].
  - lia.
  - repeat constructor; done.
  - exact E.
  - exists s''. split; [exact E|exact E'].
Defined.

Lemma copyinstr_correct_witness :
  copyinstr demo_root 0xffe 8 demo_user = Ret (ustr 8 (ram_of demo_user) demo_root 0xffe) demo_user.
Proof.
  apply (copyinstr_correct 1 demo_root demo_own demo_pages demo_user 0xffe 8); [apply demo_uspace|lia|lia].
Defined.
