(* ===== verification/UserSpace.v ===== *)
(** Address spaces as a whole: removing, copying and growing the user part of
    a page table ([uvmunmap], [uvmcopy], [uvmalloc], [uvmdealloc] of kernel/vm.c).

    [aspace] is the invariant of the tree of one address space and of the pages
    behind it.  The theorems say which pages move between the free list, the tree
    and the address space, and that an operation that fails takes back what it
    did: no page is lost. *)
From S2P Require Import Prelude Riscv Spinlock Memory Bytes Kstring Kalloc Vm PageTable Proc Switch Sleeplock UserMem UserCopy.

(** The page behind [va]. *)
Definition frame (ram : gmap Z Z) (root va : Z) : Z := PTE2PA (pt_get ram root va).

Record aspace (m : mem) (root : Z) (own : gmap Z node) (free : list Z) : Prop := {
  as_pt : pt_state m root own free;
  as_page : forall va, 0 <= va < MAXVA -> present (ms_ram m) root va = true ->
    0 < frame (ms_ram m) root va /\ own !! frame (ms_ram m) root va = None /\ frame (ms_ram m) root va ∉ free;
  as_inj : forall va va', 0 <= va < MAXVA -> 0 <= va' < MAXVA ->
    present (ms_ram m) root va = true -> present (ms_ram m) root va' = true ->
    frame (ms_ram m) root va = frame (ms_ram m) root va' -> same_page va va' = true }.

Lemma uspace_aspace me root own free s : uspace me root own free s -> aspace (ps_mem s) root own free.
Proof. intros [_ _ _ H1 H2 H3]. by split. Qed.

(** * Entries of the last level *)

Lemma slot_owner ram root own free va a :
  pt_wf ram root own free -> pt_slot ram root va = Some a ->
  exists p0, a = p0 + 8 * PX 0 va /\ own !! p0 = Some (NL0 (PX 2 va) (PX 1 va)).
Proof.
  intros Hwf Ea. unfold pt_slot in Ea. destruct (pt_step _ root _) as [p1|] eqn:E1; [|done].
  cbn in Ea. destruct (pt_step _ p1 _) as [p0|] eqn:E0; [|done]. injection Ea as <-.
  apply (pw_l2 _ _ _ _ Hwf) in E1; [|by apply PX_bounds].
  apply (pw_l1 _ _ _ _ Hwf _ _ _ _ E1) in E0; [|by apply PX_bounds]. by exists p0.
Qed.

Lemma slot_spared {ram ram' root own free} (Hwf : pt_wf ram root own free)
  (Hsp : forall p, is_Some (own !! p) -> same_bytes PGSIZE p ram ram') va :
  pt_slot ram' root va = pt_slot ram root va.
Proof.
  unfold pt_slot. rewrite (step_spared Hsp root NRoot) by (apply Hwf || by apply PX_bounds).
  destruct (pt_step ram root _) as [q|] eqn:E2; [|done]. cbn [mbind option_bind].
  apply (pw_l2 _ _ _ _ Hwf) in E2; [|by apply PX_bounds].
  by rewrite (step_spared Hsp q _ _ E2) by by apply PX_bounds.
Qed.

Lemma present_same_page ram root va va' :
  same_page va va' = true -> present ram root va = present ram root va'.
Proof. intros E. unfold present. by rewrite (pt_get_same_page _ _ _ _ E). Qed.

(** * uvmunmap *)

(** One present page: it goes to the free list and its entry is cleared. *)
Section Unmap.
Context (m : mem) (root : Z) (own : gmap Z node) (free : list Z) (va : Z).
Context (A : aspace m root own free) (Hva : 0 <= va < MAXVA) (Hal : va mod PGSIZE = 0).
Context (Hp : present (ms_ram m) root va = true).
Context (Hok : page_ok (m_ld (ms_hw m)) (frame (ms_ram m) root va)).
Abbreviation pa := (frame (ms_ram m) root va).

Lemma unmap_page :
  exists slot m1, pt_slot (ms_ram m) root va = Some slot /\ slot <> 0 /\
    rd64 (ms_ram m) slot = pt_get (ms_ram m) root va /\ kfree pa m = Ret tt m1 /\
    let m' := with_ram (wr64 (ms_ram m1) slot 0) m1 in
    aspace m' root own (pa :: free) /\ ms_hw m' = touch (ms_hw m) /\
    (forall a, 0 <= a < MAXVA ->
       pt_get (ms_ram m') root a = if same_page va a then 0 else pt_get (ms_ram m) root a) /\
    (forall x, outside own (pa :: free) x -> rd8 (ms_ram m') x = rd8 (ms_ram m) x).
Proof using A Hva Hal Hp Hok.
  pose proof A as [Hpt Hpg Hinj]. pose proof Hpt as [Hr Hk Hwf].
  destruct (slot_of_pte _ _ _ Hp) as (slot & Es & Er).
  destruct (slot_owner _ _ _ _ _ _ Hwf Es) as (p0 & -> & Ho).
  destruct (Hpg va Hva Hp) as (Hpos & Hno & Hnf).
  destruct (kfree_spec pa m free Hr Hk Hok Hnf) as (m1 & E1 & Hr1 & Hk1 & Hld1 & Hfr1).
  exists (p0 + 8 * PX 0 va), m1. split; [done|]. split; [by eapply slot_nonzero|]. split; [done|]. split; [done|].
  assert (forall p, is_Some (own !! p) -> same_bytes PGSIZE p (ms_ram m) (ms_ram m1)) as Hsp.
  { intros p Hin x Hx. apply Hfr1. destruct (page_or pa x) as [|Hin']; [done|]. exfalso.
    apply (pages_disjoint pa p x); try done; [apply Hok| |].
    - destruct Hin as [n Hn]. by apply (pw_page _ _ _ _ Hwf) in Hn as (? & _ & _).
    - intros E. rewrite <- E, Hno in Hin. by destruct Hin. }
  assert (pt_state m1 root own (pa :: free)) as Hpt1.
  { split; [done..|]. apply (wf_spared Hwf Hsp). intros p Hin. apply not_elem_of_cons. split.
    - intros ->. rewrite Hno in Hin. by destruct Hin.
    - destruct Hin as [n Hn]. by apply (pw_page _ _ _ _ Hwf) in Hn as (_ & _ & ?). }
  assert (pt_slot (ms_ram m1) root va = Some (p0 + 8 * PX 0 va)) as Es1 by by rewrite (slot_spared Hwf Hsp).
  assert (0 <= va < 2 ^ 39) as Hva39 by (change MAXVA with (2 ^ 38) in Hva; lia).
  set (m' := with_ram _ m1). cbn zeta.
  assert (forall a, 0 <= a < MAXVA ->
    pt_get (ms_ram m') root a = if same_page va a then 0 else pt_get (ms_ram m) root a) as Hg.
  { intros a Ha. change MAXVA with (2 ^ 38) in Ha. unfold m'.
    rewrite (leaf_get m1 root p0 va 0 own (pa :: free) Hpt1 Hva39 ltac:(done) Ho Es1 a) by lia.
    by rewrite (get_spared Hwf Hsp). }
  split; [|split; [exact (kfree_hw pa m m1 Hr Hok E1)|split; [exact Hg|]]].
  - split; [by apply leaf_state| |].
    + intros a Ha. unfold present, frame. rewrite Hg by done. destruct (same_page va a) eqn:Esp; [done|].
      intros Hpa. destruct (Hpg a Ha Hpa) as (H1 & H2 & H3). split; [done|]. split; [done|].
      apply not_elem_of_cons. split; [|done]. intros E.
      rewrite (Hinj va a) in Esp; [done..|]. by symmetry.
    + intros a a' Ha Ha'. unfold present, frame. rewrite !Hg by done.
      destruct (same_page va a), (same_page va a'); try done. by apply Hinj.
  - intros x Hx. cbn. rewrite rd8_wr64_ne, Hfr1; [done| |].
    + apply Hx. right. by left.
    + pose proof (PX_bounds 0 va ltac:(done)). destruct (Hx p0) as [?|?]; [by eauto| |]; unfold PGSIZE in *; lia.
Qed.
End Unmap.

(** The range [lo, hi) is gone from the address space, the rest is as it was. *)
Definition cleared (m m' : mem) (root lo hi : Z) : Prop :=
  forall a, 0 <= a < MAXVA ->
    if (lo <=? a) && (a <? hi) then present (ms_ram m') root a = false
    else pt_get (ms_ram m') root a = pt_get (ms_ram m) root a.

(** [freed] are the pages that were behind the range. *)
Definition frames_of (m : mem) (root lo hi : Z) (freed : list Z) : Prop :=
  forall p, p ∈ freed <-> exists a, lo <= a < hi /\ present (ms_ram m) root a = true /\ frame (ms_ram m) root a = p.

Definition freeable (m : mem) (root lo hi : Z) : Prop :=
  forall a, lo <= a < hi -> present (ms_ram m) root a = true -> page_ok (m_ld (ms_hw m)) (frame (ms_ram m) root a).

Lemma same_page_range a x : a mod PGSIZE = 0 -> a <= x < a + PGSIZE -> same_page a x = true.
Proof. intros Ha Hx. rewrite same_page_aligned by done. lia. Qed.

Lemma unmap_step m root own free a last :
  aspace m root own free -> touch (ms_hw m) = ms_hw m ->
  0 <= a < MAXVA -> a mod PGSIZE = 0 -> a < last -> freeable m root a (a + PGSIZE) ->
  exists m' freed, uvmunmap_body root true last a m = Ret (inl (a + PGSIZE)) m' /\
    aspace m' root own (freed ++ free) /\ ms_hw m' = ms_hw m /\
    cleared m m' root a (a + PGSIZE) /\ frames_of m root a (a + PGSIZE) freed /\ (length freed <= 1)%nat /\
    inner own (freed ++ free) (ms_ram m) (ms_ram m').
Proof.
  intros A Ht Ha Hal Hlast Hok. unfold uvmunmap_body. replace (a <? last) with true by lia. cbn [negb].
  kstep walk_read by lia. pose proof (page_below_max a Hal Ha) as Hmax.
  assert (u64 (a + PGSIZE) = a + PGSIZE) as -> by (apply u64_small; change MAXVA with (2 ^ 38) in *; unfold PGSIZE in *; lia).
  assert (0 < PGSIZE) by done.
  destruct (present (ms_ram m) root a) eqn:Ep.
  - destruct (unmap_page m root own free a A Ha Hal Ep (Hok a ltac:(lia) Ep)) as
      (slot & m1 & Es & Hne & Er & E1 & A' & Hh & Hg & Hin).
    rewrite Es. change (default 0 (Some slot)) with slot. rewrite (proj2 (Z.eqb_neq slot 0)) by done.
    kstep eq_refl. rewrite Er. unfold present in Ep. rewrite Ep. cbn [negb when]. kstep E1. kstep eq_refl.
    eexists _, [frame (ms_ram m) root a]. split; [reflexivity|]. split; [exact A'|]. split; [by rewrite Hh|].
    split; [|split; [|split; [done|exact Hin]]].
    + intros x Hx. unfold present. rewrite Hg by done. rewrite same_page_aligned by done. by destruct (_ && _).
    + intros p. rewrite list_elem_of_singleton. split.
      * intros ->. exists a. split; [lia|done].
      * intros (b & Hb & Hpb & <-). unfold frame.
        by rewrite (pt_get_same_page _ _ a b) by by apply same_page_range.
  - exists m, []. split; [|split; [done|split; [done|split; [|split; [|split; [cbn; lia|done]]]]]].
    + destruct (pt_slot (ms_ram m) root a) as [slot|] eqn:Es; [|done]. change (default 0 (Some slot)) with slot.
      destruct (slot =? 0); [done|]. kstep eq_refl. unfold present, pt_get in Ep. rewrite Es in Ep. by rewrite Ep.
    + intros x Hx. destruct ((a <=? x) && (x <? a + PGSIZE)) eqn:E; [|done].
      rewrite <- (present_same_page _ _ a x); [done|]. apply same_page_range; [done|lia].
    + intros p. split; [by intros ?%not_elem_of_nil|]. intros (b & Hb & Hpb & _).
      rewrite <- (present_same_page _ _ a b) in Hpb by by apply same_page_range. congruence.
Qed.

Lemma cleared_join m m1 m2 root lo mid hi :
  lo <= mid <= hi -> cleared m m1 root lo mid -> cleared m1 m2 root mid hi -> cleared m m2 root lo hi.
Proof.
  intros Hle H1 H2 a Ha. specialize (H1 a Ha). specialize (H2 a Ha). unfold present in *.
  destruct ((mid <=? a) && (a <? hi)) eqn:E2; [by replace ((lo <=? a) && (a <? hi)) with true by lia|].
  destruct ((lo <=? a) && (a <? mid)) eqn:E1.
  - replace ((lo <=? a) && (a <? hi)) with true by lia. by rewrite H2.
  - replace ((lo <=? a) && (a <? hi)) with false by lia. by rewrite H2.
Qed.

(** What is left in the range after a part below it is gone. *)
Lemma cleared_above m m1 root lo mid :
  cleared m m1 root lo mid -> forall a, 0 <= a < MAXVA -> mid <= a -> pt_get (ms_ram m1) root a = pt_get (ms_ram m) root a.
Proof. intros H a Ha Hm. specialize (H a Ha). by replace ((lo <=? a) && (a <? mid)) with false in H by lia. Qed.

Lemma unmap_loop n m root own free va last :
  aspace m root own free -> touch (ms_hw m) = ms_hw m ->
  0 <= va -> va mod PGSIZE = 0 -> last = va + Z.of_nat n * PGSIZE -> last <= MAXVA -> freeable m root va last ->
  exists m' freed, loop (S n) (uvmunmap_body root true last) va m = Ret tt m' /\
    aspace m' root own (freed ++ free) /\ ms_hw m' = ms_hw m /\
    cleared m m' root va last /\ frames_of m root va last freed /\ (length freed <= n)%nat /\
    inner own (freed ++ free) (ms_ram m) (ms_ram m').
Proof.
  revert m free va. induction n as [|n IH]; intros m free va A Ht Hva Hal -> Hmax Hok.
  { exists m, []. rewrite Z.mul_0_l, Z.add_0_r. split; [apply loop_exit; unfold uvmunmap_body; by rewrite Z.ltb_irrefl|].
    split; [done|]. split; [done|].
    split; [|split; [|split; [cbn; lia|done]]].
    - intros a Ha. by replace ((va <=? a) && (a <? va)) with false by lia.
    - intros p. split; [by intros ?%not_elem_of_nil|]. intros (a & ? & _). lia. }
  set (last := va + Z.of_nat (S n) * PGSIZE) in *. assert (0 < PGSIZE) by done.
  destruct (unmap_step m root own free va last A Ht) as (m1 & f1 & E1 & A1 & Hh1 & Hc1 & Hf1 & Hl1 & Hi1);
    [lia|done|lia|intros a Ha; apply Hok; lia|].
  rewrite (loop_next _ _ _ _ _ _ E1).
  pose proof (cleared_above _ _ _ _ _ Hc1) as Hab.
  assert (forall a, va + PGSIZE <= a < last -> pt_get (ms_ram m1) root a = pt_get (ms_ram m) root a) as Hab'.
  { intros a Ha. apply Hab; lia. }
  destruct (IH m1 (f1 ++ free) (va + PGSIZE)) as (m2 & f2 & E2 & A2 & Hh2 & Hc2 & Hf2 & Hl2 & Hi2).
  - done.
  - by rewrite Hh1.
  - lia.
  - by rewrite <- Zplus_mod_idemp_l, Hal, Z_mod_same_full.
  - lia.
  - lia.
  - intros a Ha. unfold present, frame. rewrite Hab', Hh1 by lia. apply Hok. lia.
  - exists m2, (f2 ++ f1). replace (va + PGSIZE + Z.of_nat n * PGSIZE) with last in * by lia.
    rewrite <- app_assoc. split; [done|]. split; [done|]. split; [congruence|].
    split; [by apply cleared_join with m1 (va + PGSIZE); [lia|..]|]. split; [|split; [rewrite length_app; lia|]].
    + intros p. rewrite elem_of_app, (Hf1 p), (Hf2 p). split.
      * intros [(a & Ha & Hp & Hfr)|(a & Ha & Hp & Hfr)]; exists a; (split; [lia|]); [|done].
        unfold present, frame in *. by rewrite Hab' in Hp, Hfr by lia.
      * intros (a & Ha & Hp & Hfr). destruct (decide (a < va + PGSIZE)) as [|Hge]; [right|left]; exists a; (split; [lia|]); [done|].
        unfold present, frame in *. by rewrite Hab' by lia.
    + intros x Hx. rewrite Hi2, Hi1; [done| |done]. intros p Hp. apply Hx. set_solver.
Qed.

(** [uvmunmap] with [do_free]: every present page of the range goes to the
    free list and its entry is cleared; holes are skipped; every other translation
    and every byte outside the tables and the freed pages stay as they were. *)
Lemma uvmunmap_spec m root own free va npages :
  aspace m root own free -> touch (ms_hw m) = ms_hw m ->
  0 <= va -> va mod PGSIZE = 0 -> 0 <= npages -> va + npages * PGSIZE <= MAXVA ->
  freeable m root va (va + npages * PGSIZE) ->
  exists m' freed, uvmunmap root va npages true m = Ret tt m' /\
    aspace m' root own (freed ++ free) /\ ms_hw m' = ms_hw m /\
    cleared m m' root va (va + npages * PGSIZE) /\ frames_of m root va (va + npages * PGSIZE) freed /\
    (length freed <= Z.to_nat npages)%nat /\ inner own (freed ++ free) (ms_ram m) (ms_ram m').
Proof.
  intros A Ht Hva Hal Hn Hmax Hok. unfold uvmunmap. rewrite Hal. cbn [Z.eqb negb].
  rewrite u64_small by (change MAXVA with (2 ^ 38) in *; unfold PGSIZE in *; lia).
  apply unmap_loop; try done. by rewrite Z2Nat.id.
Qed.

(** * Mapping a fresh page *)

Section Map.
Context (m m2 : mem) (root : Z) (own : gmap Z node) (free1 : list Z) (a va perm : Z).
Context (A : aspace m root own (a :: free1)) (Ht : touch (ms_hw m) = ms_hw m).
Context (Hpok : page_ok (m_ld (ms_hw m)) a) (Ha : 0 < a < PHYSTOP) (Ho : own !! a = None) (Hni : a ∉ free1).
Context (Hhw : ms_hw m2 = ms_hw m) (Hpt : pt_state m2 root own free1).
Context (Hg2 : forall x, pt_get (ms_ram m2) root x = pt_get (ms_ram m) root x).
Context (Hva : 0 <= va < MAXVA) (Hal : va mod PGSIZE = 0) (Hun : present (ms_ram m) root va = false).
Context (Hperm : 0 <= perm < 2 ^ 10).

(** [a], just taken off the free list, becomes the page of [va]; the tables
    this needs come off the free list too.  When they cannot, [a] goes back. *)
Lemma map_fresh :
  exists r m3 own' free', mappages root va PGSIZE a perm m2 = Ret r m3 /\
    ms_hw m3 = ms_hw m /\ own ⊆ own' /\
    (forall p, is_Some (own' !! p) \/ p ∈ free' <-> is_Some (own !! p) \/ p ∈ free1) /\
    inner own free1 (ms_ram m2) (ms_ram m3) /\
    (r = 0 /\ aspace m3 root own' free' /\
       (forall x, 0 <= x < MAXVA ->
          pt_get (ms_ram m3) root x = if same_page va x then leaf_pte a perm else pt_get (ms_ram m) root x) \/
     r = -1 /\ free' = [] /\ exists m4, kfree a m3 = Ret tt m4 /\ aspace m4 root own' [a] /\
       ms_hw m4 = ms_hw m /\
       (forall x, 0 <= x < MAXVA -> pt_get (ms_ram m4) root x = pt_get (ms_ram m) root x) /\
       (forall x, x < a \/ a + PGSIZE <= x -> rd8 (ms_ram m4) x = rd8 (ms_ram m3) x)).
Proof using All.
  pose proof A as [_ Hpg Hinj].
  destruct (mappages_page m2 root own free1 va a perm Hpt) as (r & k & m3 & own' & free' & E & Hpt' & Hgr & Hm & Hr);
    [done|done|lia|unfold PHYSTOP, KERNBASE, PGSIZE in *; lia|done|by rewrite Hg2|].
  exists r, m3, own', free'. split; [done|].
  assert (ms_hw m3 = ms_hw m) as Hhw3.
  { rewrite <- Hhw. apply (pg_hw _ _ _ _ _ _ Hgr). by rewrite Hhw. }
  split; [done|]. split; [exact (pg_own _ _ _ _ _ _ Hgr)|].
  pose proof (pg_pages _ _ _ _ _ _ Hgr) as Hpages. split; [done|].
  split; [exact (pg_frame _ _ _ _ _ _ Hgr)|].
  assert (forall p, p = a \/ ~ (is_Some (own !! p) \/ p ∈ a :: free1) -> own' !! p = None /\ p ∉ free') as Hout.
  { intros p Hp. assert (~ (is_Some (own' !! p) \/ p ∈ free')) as Hn.
    { rewrite Hpages. destruct Hp as [->|Hp]; [|set_solver]. intros [[n Hn]|Hn]; [congruence|done]. }
    split; [destruct (own' !! p); [exfalso; apply Hn; eauto|done]|tauto]. }
  assert (forall x, 0 <= x < MAXVA -> present (ms_ram m) root x = true ->
    ~ (is_Some (own !! frame (ms_ram m) root x) \/ frame (ms_ram m) root x ∈ a :: free1)) as Hold.
  { intros x Hx Hp. destruct (Hpg x Hx Hp) as (_ & H1 & H2). rewrite H1. intros [[? ?]|?]; done. }
  destruct Hr as [[-> ->]|(-> & -> & ->)]; [left|right]; (split; [done|]).
  - assert (PTE2PA (leaf_pte a perm) = a) as Hla.
    { apply leaf_pte_page; [unfold PHYSTOP, KERNBASE in *; lia|done|apply Hpok]. }
    assert (forall x, 0 <= x < MAXVA -> pt_get (ms_ram m3) root x =
      if same_page va x then leaf_pte a perm else pt_get (ms_ram m) root x) as Hg3.
    { intros x Hx. change MAXVA with (2 ^ 38) in Hx. rewrite Hm, Hg2 by lia.
      rewrite same_page_aligned by done. replace (va + Z.of_nat 1 * PGSIZE) with (va + PGSIZE) by lia.
      destruct (_ && _) eqn:Ex; [|done]. by rewrite map_page_first by (done || lia). }
    split; [|exact Hg3]. split; [done| |].
    + intros x Hx. unfold present, frame. rewrite Hg3 by done. destruct (same_page va x).
      * intros _. rewrite Hla. split; [lia|]. apply Hout. by left.
      * intros Hp. split; [by apply (Hpg x)|]. apply Hout. right. by apply Hold.
    + intros x y Hx Hy. unfold present, frame. rewrite !Hg3 by done.
      destruct (same_page va x) eqn:E1, (same_page va y) eqn:E2; rewrite ?Hla.
      * unfold same_page in *. lia.
      * intros _ Hp Eq. exfalso. apply (Hold y Hy Hp). unfold frame. rewrite <- Eq. right. by left.
      * intros Hp _ Eq. exfalso. apply (Hold x Hx Hp). unfold frame. rewrite Eq. right. by left.
      * by apply Hinj.
  - split; [done|]. pose proof Hpt' as [Hr3 Hk3 Hwf3].
    destruct (kfree_spec a m3 [] Hr3 Hk3) as (m4 & E4 & Hr4 & Hk4 & _ & Hfr4); [by rewrite Hhw3|set_solver|].
    exists m4. split; [done|].
    assert (forall p, is_Some (own' !! p) -> same_bytes PGSIZE p (ms_ram m3) (ms_ram m4)) as Hsp.
    { intros p Hp. apply (same_other_page _ _ a); [apply Hpok| | |done].
      - destruct Hp as [n Hn]. by apply (pw_page _ _ _ _ Hwf3) in Hn as (? & _ & _).
      - intros ->. rewrite (proj1 (Hout a (or_introl eq_refl))) in Hp. by destruct Hp. }
    assert (forall x, 0 <= x < MAXVA -> pt_get (ms_ram m4) root x = pt_get (ms_ram m) root x) as Hg4.
    { intros x Hx. rewrite (get_spared Hwf3 Hsp). change MAXVA with (2 ^ 38) in Hx.
      rewrite Hm, Hg2 by lia. unfold PGSIZE. zbool; done. }
    split; [|split; [|done]].
    + split; [split; [done..|]| |].
      * apply (wf_spared Hwf3 Hsp). intros p Hp ->%list_elem_of_singleton.
        rewrite (proj1 (Hout a (or_introl eq_refl))) in Hp. by destruct Hp.
      * intros x Hx. unfold present, frame. rewrite Hg4 by done. intros Hp.
        split; [by apply (Hpg x)|]. split; [apply Hout; right; by apply Hold|].
        intros Hin%list_elem_of_singleton. apply (Hold x Hx Hp). unfold frame. rewrite Hin. right. by left.
      * intros x y Hx Hy. unfold present, frame. rewrite !Hg4 by done. by apply Hinj.
    + rewrite (kfree_hw a m3 m4), Hhw3; [done|done|by rewrite Hhw3|done].
Qed.
End Map.

(** * Growing an address space *)

(** [m'] has the address space of [m]; tables may have been added to the tree,
    and every other page is back on the free list. *)
Definition restored (m : mem) (own : gmap Z node) (free : list Z) (root : Z)
  (m' : mem) (own' : gmap Z node) (free' : list Z) : Prop :=
  aspace m' root own' free' /\ ms_hw m' = ms_hw m /\
  (forall p, is_Some (own' !! p) \/ p ∈ free' <-> is_Some (own !! p) \/ p ∈ free) /\
  (forall x, 0 <= x < MAXVA -> present (ms_ram m') root x = present (ms_ram m) root x /\
     (present (ms_ram m) root x = true -> pt_get (ms_ram m') root x = pt_get (ms_ram m) root x)) /\
  inner own free (ms_ram m) (ms_ram m').

(** [m'] is [m] after the pages of [lo, hi) were filled in: a page where
    [want] gives permissions, with the bytes [content], and nothing where it gives
    none.  Every page involved came off the free list. *)
Record grew (m : mem) (own : gmap Z node) (free : list Z) (root lo : Z)
  (want : Z -> option Z) (content : Z -> Z)
  (m' : mem) (own' : gmap Z node) (free' : list Z) (hi : Z) : Prop := {
  gw_as : aspace m' root own' free';
  gw_hw : ms_hw m' = ms_hw m;
  gw_own : own ⊆ own';
  gw_pages : forall p,
    (is_Some (own' !! p) \/ p ∈ free' \/
     exists x, lo <= x < hi /\ present (ms_ram m') root x = true /\ frame (ms_ram m') root x = p) <->
    is_Some (own !! p) \/ p ∈ free;
  gw_out : forall x, 0 <= x < MAXVA -> ~ lo <= x < hi -> pt_get (ms_ram m') root x = pt_get (ms_ram m) root x;
  gw_in : forall x, lo <= x < hi ->
    match want x with
    | Some perm => pt_get (ms_ram m') root x = leaf_pte (frame (ms_ram m') root x) perm /\
        rd8 (ms_ram m') (frame (ms_ram m') root x + x mod PGSIZE) = content x
    | None => present (ms_ram m') root x = false
    end;
  gw_inner : inner own free (ms_ram m) (ms_ram m') }.

Section Grew.
Context (m : mem) (root : Z) (own : gmap Z node) (free : list Z) (lo top : Z).
Context (want : Z -> option Z) (content : Z -> Z).
Context (A : aspace m root own free) (Ht : touch (ms_hw m) = ms_hw m).
Context (Hlo : 0 <= lo) (Htop : top <= MAXVA) (Hloal : lo mod PGSIZE = 0).
Context (Hun : forall x, lo <= x < top -> present (ms_ram m) root x = false).
Context (Hwant : forall x y, same_page x y = true -> want x = want y).
Context (Hperm : forall x perm, want x = Some perm -> 0 <= perm < 2 ^ 10).
Abbreviation Grew := (grew m own free root lo want content).

Lemma grew_refl : Grew m own free lo.
Proof using A.
  split; try done.
  - intros p. split; [|tauto]. intros [?|[?|(x & ? & _)]]; [tauto..|lia].
  - intros x Hx. lia.
Qed.

(** A page of the address space lies outside the tree and the free list, and
    keeps its bytes when only those change. *)
Lemma frame_inner m0 own0 free0 m1 x i :
  aspace m0 root own0 free0 -> 0 <= x < MAXVA -> present (ms_ram m0) root x = true -> 0 <= i < PGSIZE ->
  inner own0 free0 (ms_ram m0) (ms_ram m1) ->
  rd8 (ms_ram m1) (frame (ms_ram m0) root x + i) = rd8 (ms_ram m0) (frame (ms_ram m0) root x + i).
Proof using Type.
  intros A0 Hx Hp Hi Hin. apply Hin. destruct (as_page _ _ _ _ A0 x Hx Hp) as (_ & Ho & Hf).
  apply (page_outside (frame (ms_ram m0) root x) _ (as_pt _ _ _ _ A0) (PTE2PA_aligned _) Ho Hf). lia.
Qed.

Lemma grew_hole m0 own0 free0 va :
  Grew m0 own0 free0 va -> va mod PGSIZE = 0 -> lo <= va -> va < top -> want va = None ->
  Grew m0 own0 free0 (va + PGSIZE).
Proof using Hwant Hlo Htop Hun.
  intros [G1 G2 G3 G4 G5 G6 G7] Hal Hle Hlt Hw. pose proof (page_below_max va Hal ltac:(lia)) as Hmax.
  assert (forall x, va <= x < va + PGSIZE -> present (ms_ram m0) root x = false) as Hno.
  { intros x Hx. rewrite <- (present_same_page _ _ va x) by by apply same_page_range.
    unfold present. rewrite G5 by lia. apply Hun. lia. }
  split; try done.
  - intros p. rewrite <- G4. split; intros [?|[?|(x & Hx & Hp & Hf)]]; try tauto; right; right; exists x.
    + split; [|done]. destruct (decide (x < va)); [lia|]. rewrite Hno in Hp by lia. done.
    + split; [unfold PGSIZE; lia|done].
  - intros x Hx Hn. apply G5; [done|unfold PGSIZE in *; lia].
  - intros x Hx. destruct (decide (x < va)); [apply G6; lia|].
    rewrite <- (Hwant va x), Hw by (apply same_page_range; [done|lia]). apply Hno. lia.
Qed.

(** The tables and the free list trade pages, the address space stays. *)
Lemma grew_same m0 own0 free0 va m' own' free' :
  Grew m0 own0 free0 va -> va <= MAXVA -> aspace m' root own' free' -> ms_hw m' = ms_hw m0 -> own0 ⊆ own' ->
  (forall p, is_Some (own' !! p) \/ p ∈ free' <-> is_Some (own0 !! p) \/ p ∈ free0) ->
  (forall x, 0 <= x < MAXVA -> pt_get (ms_ram m') root x = pt_get (ms_ram m0) root x) ->
  inner own0 free0 (ms_ram m0) (ms_ram m') ->
  Grew m' own' free' va.
Proof using Hlo Hperm.
  intros [G1 G2 G3 G4 G5 G6 G7] Hmax A' Hh Ho Hp Hg Hin. split.
  - done.
  - congruence.
  - by etransitivity.
  - intros p. rewrite <- G4. specialize (Hp p).
    assert ((exists x, lo <= x < va /\ present (ms_ram m') root x = true /\ frame (ms_ram m') root x = p) <->
            (exists x, lo <= x < va /\ present (ms_ram m0) root x = true /\ frame (ms_ram m0) root x = p)); [|tauto].
    split; intros (x & Hx & H); exists x; (split; [done|]); unfold present, frame in *;
      [rewrite Hg in H by lia|rewrite Hg by lia]; done.
  - intros x Hx Hn. by rewrite Hg, G5.
  - intros x Hx. specialize (G6 x Hx). unfold present, frame in *. rewrite Hg by lia.
    destruct (want x) as [perm|] eqn:Ew; [|done]. destruct G6 as [E6 C6]. split; [done|]. rewrite <- C6.
    apply (frame_inner m0 own0 free0 m' x); [done|lia| |by apply Z.mod_pos_bound|done].
    unfold present. rewrite E6. by apply leaf_pte_valid.
  - intros x Hx. rewrite Hin; [by apply G7|]. intros p H. apply Hx. apply G4. tauto.
Qed.

(** A page just taken off the free list of [m0]. *)
Record popped (m0 : mem) (own0 : gmap Z node) (a : Z) (free1 : list Z) (m1 : mem) : Prop := {
  po_hw : ms_hw m1 = touch (ms_hw m0);
  po_ok : page_ok (m_ld (ms_hw m0)) a;
  po_range : 0 < a < PHYSTOP;
  po_own : own0 !! a = None;
  po_free : a ∉ free1;
  po_pt : pt_state m1 root own0 free1;
  po_get : forall x, pt_get (ms_ram m1) root x = pt_get (ms_ram m0) root x;
  po_out : forall x, x < a \/ a + PGSIZE <= x -> rd8 (ms_ram m1) x = rd8 (ms_ram m0) x }.

Section Page.
Context (m0 : mem) (own0 : gmap Z node) (a : Z) (free1 : list Z) (va perm : Z) (m1 : mem) (ram' : gmap Z Z).
Context (G : Grew m0 own0 (a :: free1) va) (P : popped m0 own0 a free1 m1).
Context (Hal : va mod PGSIZE = 0) (Hle : lo <= va < top) (Hw : want va = Some perm).
Context (Hb : bytes_ok ram').
Context (Hout : forall x, x < a \/ a + PGSIZE <= x -> rd8 ram' x = rd8 (ms_ram m1) x).
Context (Hin : forall i, 0 <= i < PGSIZE -> rd8 ram' (a + i) = content (va + i)).

Lemma grew_mapped m3 own' free' :
  ms_hw m3 = ms_hw m0 -> own0 ⊆ own' ->
  (forall p, is_Some (own' !! p) \/ p ∈ free' <-> is_Some (own0 !! p) \/ p ∈ free1) ->
  inner own0 free1 ram' (ms_ram m3) -> aspace m3 root own' free' ->
  (forall x, 0 <= x < MAXVA ->
     pt_get (ms_ram m3) root x = if same_page va x then leaf_pte a perm else pt_get (ms_ram m0) root x) ->
  Grew m3 own' free' (va + PGSIZE).
Proof using All.
  intros Hh Hoo Hp Hi A3 Hg. pose proof G as [G1 G2 G3 G4 G5 G6 G7].
  destruct P as [P1 P2 P3 P4 P5 P6 P7 P8]. pose proof (page_below_max va Hal ltac:(lia)) as Hmax.
  assert (PTE2PA (leaf_pte a perm) = a) as Hla.
  { apply leaf_pte_page; [unfold PHYSTOP, KERNBASE in *; lia|by eapply Hperm|apply P2]. }
  assert (inner own0 (a :: free1) (ms_ram m0) (ms_ram m3)) as Hi0.
  { intros x Hx. assert (x < a \/ a + PGSIZE <= x) as Hxa by (apply Hx; right; by left).
    rewrite Hi, Hout, P8; [done..|]. intros p H. apply Hx. set_solver. }
  assert (forall x, lo <= x < va -> pt_get (ms_ram m3) root x = pt_get (ms_ram m0) root x) as Hlow.
  { intros x Hx. rewrite Hg by lia. rewrite same_page_aligned by done.
    by replace ((va <=? x) && (x <? va + PGSIZE)) with false by lia. }
  assert (forall x, va <= x < va + PGSIZE -> pt_get (ms_ram m3) root x = leaf_pte a perm) as Hnew.
  { intros x Hx. rewrite Hg by lia. by rewrite (same_page_range va x). }
  split.
  - done.
  - congruence.
  - by etransitivity.
  - intros p. rewrite <- G4. specialize (Hp p). rewrite elem_of_cons. unfold present, frame. split.
    + intros [?|[?|(x & Hx & H1 & H2)]]; [tauto..|].
      destruct (decide (x < va)).
      * right. right. exists x. rewrite Hlow in H1, H2 by lia. split; [lia|done].
      * rewrite Hnew, Hla in H2 by lia. subst p. tauto.
    + intros [?|[[->|?]|(x & Hx & H1 & H2)]]; [tauto| |tauto|].
      * right. right. exists va. assert (0 < PGSIZE) by done. rewrite Hnew by lia.
        split; [lia|]. split; [by apply leaf_pte_valid|done].
      * right. right. exists x. rewrite Hlow by lia. split; [unfold PGSIZE; lia|done].
  - intros x Hx Hn. assert (0 < PGSIZE) by done. rewrite Hg by done. rewrite same_page_aligned by done.
    replace ((va <=? x) && (x <? va + PGSIZE)) with false by lia. apply G5; [done|lia].
  - intros x Hx. unfold frame, present in *. destruct (decide (x < va)).
    + specialize (G6 x ltac:(lia)). rewrite Hlow by lia.
      destruct (want x) as [q|] eqn:Ew; [|done]. destruct G6 as [E6 C6]. split; [done|]. rewrite <- C6.
      apply (frame_inner m0 own0 (a :: free1) m3 x); [done|lia| |by apply Z.mod_pos_bound|done].
      unfold present. rewrite E6. by apply leaf_pte_valid.
    + assert (same_page va x = true) as Esp by (apply same_page_range; [done|lia]).
      rewrite <- (Hwant va x Esp), Hw, Hnew, Hla by lia. split; [done|].
      pose proof (page_split va x Hal Esp) as Ex. pose proof (Z.mod_pos_bound x PGSIZE eq_refl).
      rewrite Hi, Hin by (done || apply (page_outside a _ P6 (proj1 P2) P4 P5); lia). by rewrite <- Ex.
  - intros x Hx. rewrite Hi0; [by apply G7|]. intros p H. apply Hx, G4. tauto.
Qed.

Lemma grew_page :
  exists r m3 own' free', mappages root va PGSIZE a perm (with_ram ram' m1) = Ret r m3 /\
    (r = 0 /\ Grew m3 own' free' (va + PGSIZE) \/
     r = -1 /\ exists m4, kfree a m3 = Ret tt m4 /\ Grew m4 own' [a] va).
Proof using All.
  pose proof G as [G1 G2 G3 G4 G5 G6 G7]. destruct P as [P1 P2 P3 P4 P5 P6 P7 P8].
  assert (touch (ms_hw m0) = ms_hw m0) as Ht0 by by rewrite G2.
  destruct (pt_state_write m1 root own0 free1 a ram' P6 (proj1 P2) P4 P5 Hb Hout) as [Hpt2 Hg2].
  destruct (map_fresh m0 (with_ram ram' m1) root own0 free1 a va perm) as
    (r & m3 & own' & free' & E & Hh & Ho & Hp & Hi & Hr); try done.
  - cbn. by rewrite P1.
  - intros x. cbn. by rewrite Hg2.
  - lia.
  - unfold present. rewrite G5 by lia. apply Hun. lia.
  - by eapply Hperm.
  - exists r, m3, own', free'. split; [done|].
    destruct Hr as [(-> & A3 & Hg3)|(-> & -> & m4 & E4 & A4 & Hh4 & Hg4 & Hf4)]; [left|right]; (split; [done|]).
    + by apply grew_mapped.
    + exists m4. split; [done|]. apply (grew_same m0 own0 (a :: free1)); try done; [lia| |].
      * intros p. rewrite list_elem_of_singleton, elem_of_cons. specialize (Hp p). rewrite elem_of_nil in Hp. tauto.
      * intros x Hx. assert (x < a \/ a + PGSIZE <= x) as Hxa by (apply Hx; right; by left).
        rewrite Hf4, Hi by (done || intros p H; apply Hx; set_solver). cbn. by rewrite Hout, P8.
Qed.
End Page.

(** Taking it back. *)
Lemma grew_undo m0 own0 free0 va :
  Grew m0 own0 free0 va -> va mod PGSIZE = 0 -> lo <= va <= MAXVA ->
  (forall x, lo <= x < va -> present (ms_ram m) root x = false) ->
  exists m' freed, uvmunmap root lo ((va - lo) / PGSIZE) true m0 = Ret tt m' /\
    restored m own free root m' own0 (freed ++ free0) /\ (length freed <= Z.to_nat ((va - lo) / PGSIZE))%nat.
Proof using A Ht Hlo Hloal.
  intros G Hal Hle Hempty. pose proof G as [G1 G2 G3 G4 G5 G6 G7].
  assert (lo + (va - lo) / PGSIZE * PGSIZE = va) as Eva.
  { unfold PGSIZE in *. pose proof (Z.div_mod lo 4096 ltac:(done)). pose proof (Z.div_mod va 4096 ltac:(done)).
    replace (va - lo) with ((va / 4096 - lo / 4096) * 4096) by lia. rewrite Z.div_mul by done. lia. }
  assert (0 <= (va - lo) / PGSIZE) by (apply Z.div_pos; [lia|done]).
  destruct (uvmunmap_spec m0 root own0 free0 lo ((va - lo) / PGSIZE)) as
    (m' & freed & E & A' & Hh & Hc & Hf & Hl & Hi); rewrite ?Eva in *; try done.
  - by rewrite G2.
  - lia.
  - intros x Hx Hp. rewrite G2. destruct (as_page _ _ _ _ G1 x ltac:(lia) Hp) as (_ & H1 & H2).
    pose proof (as_pt _ _ _ _ A) as [_ Hk _]. pose proof (ko_pages _ _ Hk) as Hpg. rewrite Forall_forall in Hpg.
    apply Hpg. destruct (proj1 (G4 (frame (ms_ram m0) root x))) as [[n Hn]|?]; [by eauto 10| |done].
    pose proof (lookup_weaken _ _ _ _ Hn G3). congruence.
  - exists m', freed. split; [done|]. split; [|done]. split; [done|]. split; [by rewrite Hh|]. split; [|split].
    + intros p. rewrite <- G4, elem_of_app. specialize (Hf p). tauto.
    + intros x Hx. specialize (Hc x Hx). destruct ((lo <=? x) && (x <? va)) eqn:Ex.
      * rewrite (Hempty x) by lia. done.
      * unfold present. rewrite Hc, G5 by lia. done.
    + intros x Hx. rewrite Hi; [apply G7, Hx|]. intros p Hp. apply Hx. apply G4.
      destruct Hp as [Hp|[Hp|Hp]%elem_of_app]; [by left| |tauto]. right. right. by apply Hf.
Qed.

Lemma grew_dealloc m0 own0 free0 va :
  Grew m0 own0 free0 va -> va mod PGSIZE = 0 -> lo <= va <= MAXVA ->
  (forall x, lo <= x < va -> present (ms_ram m) root x = false) ->
  exists m' freed, uvmdealloc root va lo m0 = Ret lo m' /\
    restored m own free root m' own0 (freed ++ free0) /\ (length freed <= Z.to_nat ((va - lo) / PGSIZE))%nat.
Proof using A Ht Hlo Hloal.
  intros G Hal Hle Hempty. destruct (grew_undo m0 own0 free0 va) as (m' & freed & E & Hr & Hl); try done.
  unfold uvmdealloc. change MAXVA with (2 ^ 38) in *.
  rewrite !pgroundup_id by (done || unfold PGSIZE; lia).
  assert (0 <= (va - lo) / PGSIZE < 2 ^ 31) as Hn.
  { unfold PGSIZE. split; [apply Z.div_pos; lia|]. apply Z.div_lt_upper_bound; lia. }
  destruct (Z.leb_spec va lo) as [Hz|Hz].
  - exists m0, []. assert (va = lo) as -> by lia. split; [done|]. split; [|cbn; lia].
    pose proof G as [G1 G2 G3 G4 G5 G6 G7]. split; [done|]. split; [done|]. split; [|split; [|done]].
    + intros p. rewrite <- G4. cbn. split; [tauto|]. intros [?|[?|(x & ? & _)]]; [tauto..|lia].
    + intros x Hx. unfold present. by rewrite G5 by (done || lia).
  - replace (lo <? va) with true by lia. cbn [when].
    assert (u64 (s32 ((va - lo) / PGSIZE)) = (va - lo) / PGSIZE) as ->.
    { unfold s32. rewrite Z.mod_small by lia. rewrite u64_small by lia. lia. }
    exists m', freed. split; [by kstep E|done].
Qed.
End Grew.

(** * uvmalloc *)

Lemma pop_page m root own a free1 :
  pt_state m root own (a :: free1) -> exists m1, kalloc m = Ret a m1 /\ popped root m own a free1 m1.
Proof.
  intros Hpt. pose proof (kalloc_page _ _ _ _ Hpt) as (m1 & E & H1 & H2 & H3 & H4 & H5 & H6 & H7 & H8).
  by exists m1.
Qed.

Section Uvmalloc.
Context (m : mem) (root : Z) (own : gmap Z node) (free : list Z) (lo newsz xperm : Z).
Context (A : aspace m root own free) (Ht : touch (ms_hw m) = ms_hw m).
Context (Hlo : 0 <= lo) (Hloal : lo mod PGSIZE = 0) (Hnew : 0 <= newsz <= MAXVA) (Hxperm : 0 <= xperm < 2 ^ 10).
Abbreviation top := (PGROUNDUP newsz).
Context (Hle : lo <= top).
Context (Hun : forall x, lo <= x < top -> present (ms_ram m) root x = false).
Definition user_perm : Z := Z.lor (Z.lor PTE_R PTE_U) xperm.
Abbreviation Grew := (grew m own free root lo (fun _ => Some user_perm) (fun _ => 0)).

Lemma top_facts : top mod PGSIZE = 0 /\ newsz <= top < newsz + PGSIZE /\ top <= MAXVA.
Proof using Hnew.
  pose proof (pgroundup_aligned newsz) as Hal. change MAXVA with (2 ^ 38) in *.
  pose proof (pgroundup_bounds newsz ltac:(unfold PGSIZE; lia)) as Hb. split; [done|]. split; [lia|].
  destruct (decide (top <= 2 ^ 38)) as [|Hgt]; [done|]. unfold PGSIZE in *.
  pose proof (Z.div_mod top 4096 ltac:(done)). lia.
Qed.

Lemma user_perm_range (x perm : Z) : Some user_perm = Some perm -> 0 <= perm < 2 ^ 10.
Proof using Hxperm. intros [= <-]. unfold user_perm. by apply lor_bound. Qed.

(** What [uvmalloc] returns: the new size, with the pages, or 0 and the
    address space as it was, after memory ran out. *)
Definition alloc_result (r : Z) (m' : mem) : Prop :=
  exists own' free',
    r = newsz /\ Grew m' own' free' top \/
    r = 0 /\ restored m own free root m' own' free' /\ (length free' <= Z.to_nat ((top - lo) / PGSIZE))%nat.

Lemma uvmalloc_fail m0 own0 free0 a :
  Grew m0 own0 free0 a -> a mod PGSIZE = 0 -> lo <= a < newsz -> (length free0 <= 1)%nat ->
  exists m', (uvmdealloc root a lo ;; ret (inr 0 : Z + Z)) m0 = Ret (inr 0) m' /\ alloc_result 0 m'.
Proof using All.
  intros G Hal Ha Hl. destruct top_facts as (Htal & Htb & Htm).
  destruct (grew_dealloc m root own free lo (fun _ => Some user_perm) (fun _ => 0) A Ht Hlo Hloal m0 own0 free0 a G Hal)
    as (m' & freed & E & Hr & Hf); [lia|intros x Hx; apply Hun; lia|].
  exists m'. split; [by kstep E|]. exists own0, (freed ++ free0). right. split; [done|]. split; [done|].
  rewrite length_app. assert ((a - lo) / PGSIZE < (top - lo) / PGSIZE);
    [|assert (0 <= (a - lo) / PGSIZE) by (apply Z.div_pos; [lia|done]); lia].
  unfold PGSIZE in *. pose proof (Z.div_mod lo 4096 ltac:(done)). pose proof (Z.div_mod a 4096 ltac:(done)).
  pose proof (Z.div_mod top 4096 ltac:(done)).
  replace (a - lo) with ((a / 4096 - lo / 4096) * 4096) by lia.
  replace (top - lo) with ((top / 4096 - lo / 4096) * 4096) by lia. rewrite !Z.div_mul by done. lia.
Qed.

Lemma uvmalloc_step m0 own0 free0 a :
  Grew m0 own0 free0 a -> a mod PGSIZE = 0 -> lo <= a < newsz ->
  exists m' own' free', uvmalloc_body root newsz xperm lo a m0 = Ret (inl (a + PGSIZE)) m' /\
      Grew m' own' free' (a + PGSIZE) \/
    uvmalloc_body root newsz xperm lo a m0 = Ret (inr 0) m' /\ alloc_result 0 m'.
Proof using All.
  intros G Hal Ha. destruct top_facts as (Htal & Htb & Htm). unfold uvmalloc_body.
  replace (a <? newsz) with true by lia. cbn [negb].
  pose proof (as_pt _ _ _ _ (gw_as _ _ _ _ _ _ _ _ _ _ _ G)) as Hpt.
  destruct free0 as [|b free1].
  - pose proof (kalloc_page _ _ _ _ Hpt) as E. kstep E. cbn [Z.eqb].
    assert (touch_mem m0 = m0) as ->.
    { unfold touch_mem. rewrite (gw_hw _ _ _ _ _ _ _ _ _ _ _ G), Ht, <- (gw_hw _ _ _ _ _ _ _ _ _ _ _ G). by destruct m0. }
    destruct (uvmalloc_fail m0 own0 [] a G Hal Ha) as (m' & E' & Hr); [cbn; lia|].
    exists m', own0, []. by right.
  - destruct (pop_page _ _ _ _ _ Hpt) as (m1 & E & P). kstep E. pose proof P as [P1 P2 P3 P4 P5 P6 P7 P8].
    replace (b =? 0) with false by lia. kstep eq_refl.
    destruct (zeroed_page m1 root own0 free1 b P6 (proj1 P2) P4 P5) as (Hpt2 & _ & Hz & Hfr).
    destruct (grew_page m root own free lo top (fun _ => Some user_perm) (fun _ => 0) A Ht Hlo ltac:(lia) Hloal Hun
      ltac:(done) user_perm_range m0 own0 b free1 a user_perm m1 (memset (ms_ram m1) b 0 PGSIZE) G P Hal ltac:(lia) eq_refl)
      as (r & m3 & own' & free' & Em & Hr).
    { apply bytes_ok_memset; [apply (pt_kmem _ _ _ _ P6)|done]. }
    { done. }
    { intros i Hi. apply Hz. lia. }
    fold user_perm. kstep Em. destruct Hr as [(-> & G3)|(-> & m4 & E4 & G4)]; cbn [Z.eqb negb].
    + exists m3, own', free'. left. split; [|done].
      rewrite u64_small; [done|]. change MAXVA with (2 ^ 38) in *. unfold PGSIZE in *. lia.
    + kstep E4. destruct (uvmalloc_fail m4 own' [b] a G4 Hal Ha) as (m' & E' & Hr); [done|].
      exists m', own', []. by right.
Qed.

Lemma uvmalloc_loop n m0 own0 free0 a :
  Grew m0 own0 free0 a -> a mod PGSIZE = 0 -> lo <= a <= top -> newsz - a <= Z.of_nat n * PGSIZE ->
  exists r m', loop (S n) (uvmalloc_body root newsz xperm lo) a m0 = Ret r m' /\ alloc_result r m'.
Proof using All.
  revert m0 own0 free0 a. induction n as [|n IH]; intros m0 own0 free0 a G Hal Ha Hn;
    destruct top_facts as (Htal & Htb & Htm); destruct (decide (newsz <= a)) as [Hge|Hlt].
  1, 3: exists newsz, m0; split;
    [apply loop_exit; unfold uvmalloc_body; by replace (a <? newsz) with false by lia|];
    exists own0, free0; left; split; [done|]; replace top with a; [done|];
    unfold PGSIZE in *; pose proof (Z.div_mod top 4096 ltac:(done)); pose proof (Z.div_mod a 4096 ltac:(done)); lia.
  { lia. }
  destruct (uvmalloc_step m0 own0 free0 a G Hal ltac:(lia)) as (m' & own' & free' & [(E & G')|(E & Hr)]).
  - rewrite (loop_next _ _ _ _ _ _ E). apply (IH m' own' free'); [done| |..].
    + by rewrite <- Zplus_mod_idemp_l, Hal, Z_mod_same_full.
    + unfold PGSIZE in *. pose proof (Z.div_mod top 4096 ltac:(done)). pose proof (Z.div_mod a 4096 ltac:(done)). lia.
    + lia.
  - exists 0, m'. by rewrite (loop_exit _ _ _ _ _ _ E).
Qed.
End Uvmalloc.

(** C24. [uvmalloc] gives every page between the two sizes a zeroed page with the
    given permissions, taken off the free list, and changes no other translation
    and no byte outside the tables and the free pages; or it returns 0 when memory
    runs out, with the address space as it was and every page it had taken for
    data back on the free list. *)
Theorem uvmalloc_correct m root own free oldsz newsz xperm :
  aspace m root own free -> touch (ms_hw m) = ms_hw m ->
  0 <= oldsz <= newsz -> newsz <= MAXVA -> 0 <= xperm < 2 ^ 10 ->
  (forall x, PGROUNDUP oldsz <= x < PGROUNDUP newsz -> present (ms_ram m) root x = false) ->
  exists r m' own' free', uvmalloc root oldsz newsz xperm m = Ret r m' /\
    (r = newsz /\ grew m own free root (PGROUNDUP oldsz) (fun _ => Some (user_perm xperm)) (fun _ => 0)
                    m' own' free' (PGROUNDUP newsz) \/
     r = 0 /\ restored m own free root m' own' free' /\
       (length free' <= Z.to_nat ((PGROUNDUP newsz - PGROUNDUP oldsz) / PGSIZE))%nat).
Proof.
  intros A Ht Hold Hnew Hx Hun. unfold uvmalloc. replace (newsz <? oldsz) with false by lia. cbn zeta.
  destruct (top_facts oldsz ltac:(lia)) as (Hal & Hb & _). destruct (top_facts newsz ltac:(lia)) as (Htal & Htb & Htm).
  assert (PGROUNDUP oldsz <= PGROUNDUP newsz) as Hle.
  { unfold PGSIZE in *. pose proof (Z.div_mod (PGROUNDUP oldsz) 4096 ltac:(done)).
    pose proof (Z.div_mod (PGROUNDUP newsz) 4096 ltac:(done)). lia. }
  destruct (uvmalloc_loop m root own free (PGROUNDUP oldsz) newsz xperm A Ht ltac:(lia) Hal ltac:(lia) Hx Hle Hun
    (Z.to_nat ((newsz - PGROUNDUP oldsz + PGSIZE - 1) / PGSIZE)) m own free (PGROUNDUP oldsz)) as (r & m' & E & own' & free' & Hr);
    [by apply grew_refl|done|lia| |by exists r, m', own', free'].
  unfold PGSIZE in *. pose proof (Z.div_mod (newsz - PGROUNDUP oldsz + 4096 - 1) 4096 ltac:(done)).
  pose proof (Z.mod_pos_bound (newsz - PGROUNDUP oldsz + 4096 - 1) 4096 ltac:(done)). lia.
Qed.

(** * uvmcopy *)

Section Uvmcopy.
Context (m : mem) (old new sz : Z) (ownO own : gmap Z node) (free : list Z).
Context (A : aspace m new own free) (AO : aspace m old ownO free) (Ht : touch (ms_hw m) = ms_hw m).
Context (Htrees : forall p, is_Some (ownO !! p) -> own !! p = None).
Context (Hframes : forall x, 0 <= x < MAXVA -> present (ms_ram m) old x = true -> own !! frame (ms_ram m) old x = None).
Context (Hsz : 0 <= sz <= MAXVA).
Abbreviation top := (PGROUNDUP sz).
Context (Hun : forall x, 0 <= x < top -> present (ms_ram m) new x = false).

(** The child's page at [x]: the flags of the parent's, and its bytes. *)
Definition child_want (x : Z) : option Z :=
  if present (ms_ram m) old x then Some (PTE_FLAGS (pt_get (ms_ram m) old x)) else None.
Definition child_content (x : Z) : Z := rd8 (ms_ram m) (frame (ms_ram m) old x + x mod PGSIZE).
Abbreviation Grew := (grew m own free new 0 child_want child_content).

Lemma child_want_page x y : same_page x y = true -> child_want x = child_want y.
Proof using Type.
  intros E. unfold child_want, present. by rewrite (pt_get_same_page _ _ _ _ E).
Qed.

Lemma child_want_range x perm : child_want x = Some perm -> 0 <= perm < 2 ^ 10.
Proof using Type.
  unfold child_want. destruct (present _ _ _); [|done]. intros [= <-]. rewrite PTE_FLAGS_eq. by apply Z.mod_pos_bound.
Qed.

(** The parent's tree and pages are out of reach. *)
Lemma parent_spared m0 :
  inner own free (ms_ram m) (ms_ram m0) ->
  forall p, is_Some (ownO !! p) -> same_bytes PGSIZE p (ms_ram m) (ms_ram m0).
Proof using A AO Htrees.
  intros Hin p Hp x Hx. apply Hin. destruct (as_pt _ _ _ _ AO) as [_ _ Hwf]. pose proof Hp as [n Hn].
  apply (pw_page _ _ _ _ Hwf) in Hn as (Hm & _ & Hf).
  apply (page_outside p x (as_pt _ _ _ _ A)); auto.
Qed.

Lemma parent_get m0 x :
  inner own free (ms_ram m) (ms_ram m0) -> pt_get (ms_ram m0) old x = pt_get (ms_ram m) old x.
Proof using A AO Htrees.
  intros Hin. apply (get_spared (pt_tree _ _ _ _ (as_pt _ _ _ _ AO)) (parent_spared m0 Hin)).
Qed.

Lemma parent_byte m0 x i :
  inner own free (ms_ram m) (ms_ram m0) -> 0 <= x < MAXVA -> present (ms_ram m) old x = true -> 0 <= i < PGSIZE ->
  rd8 (ms_ram m0) (frame (ms_ram m) old x + i) = rd8 (ms_ram m) (frame (ms_ram m) old x + i).
Proof using A AO Hframes.
  intros Hin Hx Hp Hi. apply Hin. destruct (as_page _ _ _ _ AO x Hx Hp) as (_ & _ & Hf).
  apply (page_outside (frame (ms_ram m) old x) _ (as_pt _ _ _ _ A) (PTE2PA_aligned _) (Hframes x Hx Hp) Hf). lia.
Qed.

Lemma uvmcopy_step m0 own0 free0 i :
  Grew m0 own0 free0 i -> i mod PGSIZE = 0 -> 0 <= i < sz ->
  exists m' own' free', uvmcopy_body old new sz i m0 = Ret (inl (i + PGSIZE)) m' /\
      Grew m' own' free' (i + PGSIZE) \/
    uvmcopy_body old new sz i m0 = Ret (inr (Some i)) m' /\ Grew m' own' free' i /\ (length free' <= 1)%nat.
Proof using All.
  intros G Hal Hi. destruct (top_facts sz Hsz) as (Htal & Htb & Htm). unfold uvmcopy_body.
  replace (i <? sz) with true by lia. cbn [negb]. kstep walk_read by lia.
  pose proof (gw_inner _ _ _ _ _ _ _ _ _ _ _ G) as Hin. pose proof (as_pt _ _ _ _ (gw_as _ _ _ _ _ _ _ _ _ _ _ G)) as Hpt.
  pose proof (page_below_max i Hal ltac:(lia)) as Hmax.
  assert (u64 (i + PGSIZE) = i + PGSIZE) as Eu by (apply u64_small; change MAXVA with (2 ^ 38) in *; unfold PGSIZE in *; lia).
  rewrite Eu. destruct (as_pt _ _ _ _ AO) as [_ _ HwfO].
  rewrite (slot_spared HwfO (parent_spared m0 Hin)).
  destruct (present (ms_ram m) old i) eqn:Ep.
  2: { exists m0, own0, free0. left. split.
    - destruct (pt_slot (ms_ram m) old i) as [slot|] eqn:Es; [|done]. change (default 0 (Some slot)) with slot.
      destruct (slot =? 0); [done|]. kstep eq_refl.
      assert (rd64 (ms_ram m0) slot = pt_get (ms_ram m) old i) as ->.
      { rewrite <- (parent_get m0 i Hin). unfold pt_get. by rewrite (slot_spared HwfO (parent_spared m0 Hin)), Es. }
      unfold present in Ep. by rewrite Ep.
    - apply (grew_hole m new own free 0 top); try done; [apply child_want_page|lia|lia|].
      unfold child_want. by rewrite Ep. }
  destruct (slot_of_pte _ _ _ Ep) as (slot & Es & Er). rewrite Es. change (default 0 (Some slot)) with slot.
  rewrite (proj2 (Z.eqb_neq slot 0)) by by eapply slot_nonzero.
  kstep eq_refl.
  assert (rd64 (ms_ram m0) slot = pt_get (ms_ram m) old i) as ->.
  { rewrite <- (parent_get m0 i Hin). unfold pt_get. by rewrite (slot_spared HwfO (parent_spared m0 Hin)), Es. }
  assert (child_want i = Some (PTE_FLAGS (pt_get (ms_ram m) old i))) as Hw by (unfold child_want; by rewrite Ep).
  unfold present in Ep. rewrite Ep. cbn [negb]. fold (present (ms_ram m) old i) in Ep. cbn zeta.
  destruct free0 as [|b free1].
  - pose proof (kalloc_page _ _ _ _ Hpt) as E. kstep E. cbn [Z.eqb]. exists m0, own0, []. right.
    assert (touch_mem m0 = m0) as ->; [|split; [done|]; split; [done|cbn; lia]].
    unfold touch_mem. rewrite (gw_hw _ _ _ _ _ _ _ _ _ _ _ G), Ht, <- (gw_hw _ _ _ _ _ _ _ _ _ _ _ G). by destruct m0.
  - destruct (pop_page _ _ _ _ _ Hpt) as (m1 & E & P). kstep E. pose proof P as [P1 P2 P3 P4 P5 P6 P7 P8].
    replace (b =? 0) with false by lia. kstep eq_refl. fold (frame (ms_ram m) old i).
    assert (b ∈ free \/ is_Some (own !! b)) as Hb.
    { destruct (proj1 (gw_pages _ _ _ _ _ _ _ _ _ _ _ G b)); [right; left; by left|by right|by left]. }
    assert (frame (ms_ram m) old i <> b) as Hne.
    { intros E'. destruct (as_page _ _ _ _ AO i ltac:(lia) Ep) as (_ & _ & Hf). rewrite E' in Hf.
      destruct Hb as [?|[n Hn]]; [done|]. rewrite <- E', (Hframes i ltac:(lia) Ep) in Hn. done. }
    pose proof (ko_bytes _ _ (pt_kmem _ _ _ _ P6)) as Hby.
    destruct (grew_page m new own free 0 top child_want child_content A Ht ltac:(lia) ltac:(lia) eq_refl Hun
      child_want_page child_want_range m0 own0 b free1 i (PTE_FLAGS (pt_get (ms_ram m) old i)) m1
      (memmove (ms_ram m1) b (frame (ms_ram m) old i) PGSIZE) G P Hal ltac:(lia) Hw)
      as (r & m3 & own' & free' & Em & Hr).
    { by apply bytes_ok_memmove. }
    { intros x Hx. rewrite rd8_memmove by done. by replace (_ && _) with false by (symmetry; apply andb_false_iff; lia). }
    { intros j Hj. rewrite rd8_memmove by done. replace (_ && _) with true by lia.
      replace (frame (ms_ram m) old i + (b + j - b)) with (frame (ms_ram m) old i + j) by lia.
      assert (same_page i (i + j) = true) as Esp by (apply same_page_range; [done|lia]).
      assert (frame (ms_ram m) old i + j < b \/ b + PGSIZE <= frame (ms_ram m) old i + j) as Hfar.
      { destruct (page_or b (frame (ms_ram m) old i + j)) as [|H']; [done|]. exfalso.
        apply (pages_disjoint b (frame (ms_ram m) old i) (frame (ms_ram m) old i + j));
          [apply P2|apply PTE2PA_aligned|done|done|lia]. }
      rewrite P8, (parent_byte m0) by (done || lia).
      unfold child_content, frame. rewrite <- (pt_get_same_page _ _ _ _ Esp).
      by rewrite <- (Zplus_mod_idemp_l i), Hal, Z.mod_small by lia. }
    kstep Em. destruct Hr as [(-> & G3)|(-> & m4 & E4 & G4)]; cbn [Z.eqb negb].
    + exists m3, own', free'. by left.
    + kstep E4. exists m4, own', [b]. right. done.
Qed.

Lemma uvmcopy_loop n m0 own0 free0 i :
  Grew m0 own0 free0 i -> i mod PGSIZE = 0 -> 0 <= i <= top -> sz - i <= Z.of_nat n * PGSIZE ->
  exists r m' own' free' hi, loop (S n) (uvmcopy_body old new sz) i m0 = Ret r m' /\ Grew m' own' free' hi /\
    (r = None /\ hi = top \/
     r = Some hi /\ hi mod PGSIZE = 0 /\ 0 <= hi < sz /\ (length free' <= 1)%nat).
Proof using All.
  revert m0 own0 free0 i. induction n as [|n IH]; intros m0 own0 free0 i G Hal Hi Hn;
    destruct (top_facts sz Hsz) as (Htal & Htb & Htm); destruct (decide (sz <= i)) as [Hge|Hlt].
  1, 3: exists None, m0, own0, free0, i; split;
    [apply loop_exit; unfold uvmcopy_body; by replace (i <? sz) with false by lia|]; split; [done|]; left; split; [done|];
    unfold PGSIZE in *; pose proof (Z.div_mod top 4096 ltac:(done)); pose proof (Z.div_mod i 4096 ltac:(done)); lia.
  { lia. }
  destruct (uvmcopy_step m0 own0 free0 i G Hal ltac:(lia)) as (m' & own' & free' & [(E & G')|(E & G' & Hl)]).
  - rewrite (loop_next _ _ _ _ _ _ E). apply (IH m' own' free'); [done| |..].
    + by rewrite <- Zplus_mod_idemp_l, Hal, Z_mod_same_full.
    + unfold PGSIZE in *. pose proof (Z.div_mod top 4096 ltac:(done)). pose proof (Z.div_mod i 4096 ltac:(done)). lia.
    + lia.
  - exists (Some i), m', own', free', i. rewrite (loop_exit _ _ _ _ _ _ E).
    split; [done|]. split; [done|]. right. split; [done|]. split; [done|]. split; [lia|done].
Qed.

Lemma uvmcopy_spec :
  exists r m' own' free', uvmcopy old new sz m = Ret r m' /\ inner own free (ms_ram m) (ms_ram m') /\
    (r = 0 /\ Grew m' own' free' top \/
     r = -1 /\ restored m own free new m' own' free' /\ (length free' <= Z.to_nat (top / PGSIZE))%nat).
Proof using All.
  destruct (top_facts sz Hsz) as (Htal & Htb & Htm). unfold uvmcopy.
  destruct (uvmcopy_loop (Z.to_nat ((sz + PGSIZE - 1) / PGSIZE)) m own free 0) as
    (r & m1 & own1 & free1 & hi & E & G & Hr); [by apply grew_refl|done|lia| |].
  { unfold PGSIZE in *. pose proof (Z.div_mod (sz + 4096 - 1) 4096 ltac:(done)).
    pose proof (Z.mod_pos_bound (sz + 4096 - 1) 4096 ltac:(done)). lia. }
  kstep E. destruct Hr as [[-> ->]|(-> & Hal & Hhi & Hl)].
  - exists 0, m1, own1, free1. split; [done|]. split; [apply (gw_inner _ _ _ _ _ _ _ _ _ _ _ G)|]. by left.
  - destruct (grew_undo m new own free 0 child_want child_content A Ht ltac:(lia) eq_refl m1 own1 free1 hi G Hal)
      as (m' & freed & E' & Hr & Hf); [lia|intros x Hx; apply Hun; lia|]. rewrite Z.sub_0_r in E', Hf.
    exists (-1), m', own1, (freed ++ free1). split; [by kstep E'|]. split; [apply Hr|]. right. split; [done|]. split; [done|].
    rewrite length_app. assert (hi / PGSIZE < top / PGSIZE);
      [|assert (0 <= hi / PGSIZE) by (apply Z.div_pos; [lia|done]); lia].
    unfold PGSIZE in *. pose proof (Z.div_mod hi 4096 ltac:(done)). pose proof (Z.div_mod top 4096 ltac:(done)). lia.
Qed.
End Uvmcopy.

Lemma leaf_pte_same_flags pa v :
  0 <= pa < 2 ^ 56 -> has v PTE_V = true -> PTE_FLAGS (leaf_pte pa (PTE_FLAGS v)) = PTE_FLAGS v.
Proof.
  intros Hpa Hv. assert (0 <= PTE_FLAGS v < 2 ^ 10) as Hr by (rewrite PTE_FLAGS_eq; by apply Z.mod_pos_bound).
  destruct (leaf_pte_flags pa (PTE_FLAGS v) Hr) as [-> Hf]. rewrite PTE_FLAGS_compose by done.
  rewrite has_flags in Hv by done. unfold has in Hv. apply negb_true_iff, Z.eqb_neq in Hv.
  apply Z.bits_inj'. intros i Hi. rewrite Z.lor_spec. change PTE_V with (2 ^ 0) in *.
  rewrite Z.pow2_bits_eqb by done. destruct (Z.eqb_spec 0 i) as [<-|]; [|by rewrite orb_false_r].
  rewrite orb_true_r. destruct (Z.testbit (PTE_FLAGS v) 0) eqn:E; [done|]. exfalso. apply Hv.
  apply Z.bits_inj'. intros j Hj. rewrite Z.land_spec, Z.pow2_bits_eqb, Z.bits_0 by done.
  destruct (Z.eqb_spec 0 j) as [<-|]; [by rewrite E|by rewrite andb_false_r].
Qed.

(** What a child that was filled in has at an address. *)
Definition copied (m : mem) (old : Z) (free : list Z) (m' : mem) (new x : Z) : Prop :=
  ubyte (ms_ram m') new x = ubyte (ms_ram m) old x /\
  present (ms_ram m') new x = present (ms_ram m) old x /\
  (present (ms_ram m) old x = true ->
     PTE_FLAGS (pt_get (ms_ram m') new x) = PTE_FLAGS (pt_get (ms_ram m) old x) /\
     frame (ms_ram m') new x ∈ free).

Lemma grew_copied m old new own free m' own' free' top x :
  aspace m new own free -> top <= MAXVA ->
  grew m own free new 0 (child_want m old) (child_content m old) m' own' free' top -> 0 <= x < top -> copied m old free m' new x.
Proof.
  intros A Htm [G1 G2 G3 G4 G5 G6 G7] Hx. specialize (G6 x Hx). unfold child_want in G6. unfold copied.
  destruct (present (ms_ram m) old x) eqn:Ep.
  - destruct G6 as [Eg Ec]. assert (present (ms_ram m') new x = true) as Ep'.
    { unfold present. rewrite Eg. by apply leaf_pte_valid. }
    destruct (as_page _ _ _ _ G1 x ltac:(lia) Ep') as (_ & Hno & _).
    assert (frame (ms_ram m') new x ∈ free) as Hfree.
    { destruct (proj1 (G4 (frame (ms_ram m') new x))) as [[n Hn]|?]; [by eauto 10| |done].
      pose proof (lookup_weaken _ _ _ _ Hn G3). congruence. }
    pose proof (ko_pages _ _ (pt_kmem _ _ _ _ (as_pt _ _ _ _ A))) as Hpg. rewrite Forall_forall in Hpg.
    destruct (Hpg _ Hfree) as (_ & Hlo & Hhi). pose proof (ko_end _ _ (pt_kmem _ _ _ _ (as_pt _ _ _ _ A))) as Hend.
    assert (PTE_FLAGS (pt_get (ms_ram m') new x) = PTE_FLAGS (pt_get (ms_ram m) old x)) as Hflags.
    { rewrite Eg. apply leaf_pte_same_flags; [unfold PHYSTOP, KERNBASE in *; lia|exact Ep]. }
    split; [|done]. unfold ubyte, upage, present in *.
    rewrite (has_flags (pt_get (ms_ram m') new x) PTE_U), Hflags, <- has_flags, Ep, Ep' by done. cbn [andb].
    destruct (has (pt_get (ms_ram m) old x) PTE_U); [exact Ec|done].
  - split; [|done]. unfold ubyte, upage. unfold present in Ep, G6. by rewrite Ep, G6.
Qed.

(** C13. [uvmcopy], the copy of the parent's memory in [fork]: the parent's address
    space is untouched; on success the child has, at every user address, the
    parent's permissions and bytes, in pages of its own that were free before;
    memory that runs out is reported with -1, with the child's address space empty
    again and every page taken for data back on the free list. *)
Theorem uvmcopy_correct m old new sz ownO own free :
  aspace m new own free -> aspace m old ownO free -> touch (ms_hw m) = ms_hw m ->
  (forall p, is_Some (ownO !! p) -> own !! p = None) ->
  (forall x, 0 <= x < MAXVA -> present (ms_ram m) old x = true -> own !! frame (ms_ram m) old x = None) ->
  0 <= sz <= MAXVA -> (forall x, 0 <= x < PGROUNDUP sz -> present (ms_ram m) new x = false) ->
  exists r m' own' free', uvmcopy old new sz m = Ret r m' /\
    (forall x, 0 <= x < MAXVA -> pt_get (ms_ram m') old x = pt_get (ms_ram m) old x /\
       ubyte (ms_ram m') old x = ubyte (ms_ram m) old x) /\
    (r = 0 /\ aspace m' new own' free' /\
       (forall x, 0 <= x < PGROUNDUP sz -> copied m old free m' new x) \/
     r = -1 /\ restored m own free new m' own' free' /\
       (length free' <= Z.to_nat (PGROUNDUP sz / PGSIZE))%nat).
Proof.
  intros A AO Ht Htr Hfr Hsz Hun. destruct (top_facts sz Hsz) as (_ & _ & Htm).
  destruct (uvmcopy_spec m old new sz ownO own free A AO Ht Htr Hfr Hsz Hun) as (r & m' & own' & free' & E & Hin & Hr).
  exists r, m', own', free'. split; [done|]. split.
  { intros x Hx. pose proof (parent_get m old new ownO own free A AO Htr m' x Hin) as Hg. split; [done|].
    apply ubyte_ext; [done|]. intros pa Hpa y Hy. unfold upage in Hpa.
    destruct (has (pt_get (ms_ram m) old x) PTE_V) eqn:Ev; [|done]. cbn [andb] in Hpa.
    destruct (has (pt_get (ms_ram m) old x) PTE_U); [|done]. injection Hpa as <-.
    replace y with (frame (ms_ram m) old x + (y - frame (ms_ram m) old x)) by lia.
    apply (parent_byte m old new ownO own free A AO Hfr m' x); [done..|unfold frame; lia]. }
  destruct Hr as [(-> & G)|?]; [left|by right]. split; [done|]. split; [apply G|].
  intros x Hx. by apply (grew_copied m old new own free m' own' free' (PGROUNDUP sz)).
Qed.

(** * Examples *)

Lemma uvmalloc_correct_witness :
  exists r m' own' free', uvmalloc demo_root 0x800 0x2800 PTE_W (ps_mem demo_user) = Ret r m' /\
    (r = 0x2800 /\ grew (ps_mem demo_user) demo_own demo_pages demo_root (PGROUNDUP 0x800)
                     (fun _ => Some (user_perm PTE_W)) (fun _ => 0) m' own' free' (PGROUNDUP 0x2800) \/
     r = 0 /\ restored (ps_mem demo_user) demo_own demo_pages demo_root m' own' free' /\
       (length free' <= Z.to_nat ((PGROUNDUP 0x2800 - PGROUNDUP 0x800) / PGSIZE))%nat).
Proof.
  apply (uvmalloc_correct (ps_mem demo_user) demo_root demo_own demo_pages 0x800 0x2800 PTE_W).
  - exact (uspace_aspace _ _ _ _ _ demo_uspace).
  - reflexivity.
  - lia.
  - vm_compute. done.
  - vm_compute. done.
  - intros x _. unfold present. by rewrite demo_user_get.
Defined.

(** A parent with one page, through the tables 0x80032000 and 0x80033000, and
    the empty table of a child at 0x80031000. *)
Definition demo_leaf : Z := leaf_pte 0x80034000 (Z.lor (Z.lor PTE_W PTE_U) PTE_R).
Definition demo_fork : mem :=
  with_ram (wr64 (wr64 (wr64 (ms_ram demo_user_mem) demo_root (table_pte 0x80032000))
    0x80032000 (table_pte 0x80033000)) 0x80033000 demo_leaf) demo_user_mem.
Definition demo_parent_own : gmap Z node :=
  <[demo_root := NRoot]> (<[0x80032000 := NL1 0]> {[ 0x80033000 := NL0 0 0 ]}).
Definition demo_child : Z := 0x80031000.
Definition demo_child_own : gmap Z node := {[ demo_child := NRoot ]}.

Lemma demo_base_ent p i :
  demo_root <= p <= 0x80033000 -> 0 <= i < 512 -> rd64 (ms_ram demo_user_mem) (p + 8 * i) = 0.
Proof.
  unfold demo_root. intros Hp Hi. cbn [ms_ram demo_user_mem with_freelist with_ram foldr].
  rewrite !rd64_wr64_ne by (unfold PGSIZE; lia). apply rd64_zero. intros x _. reflexivity.
Qed.

Lemma rd64_wr64_word ram a v b :
  a mod 8 = 0 -> b mod 8 = 0 -> 0 <= v < 2 ^ 64 ->
  rd64 (wr64 ram a v) b = if a =? b then v else rd64 ram b.
Proof.
  intros Ha Hb Hv. destruct (Z.eqb_spec a b) as [->|]; [by apply rd64_wr64_eq|]. apply rd64_wr64_ne.
  pose proof (Z.div_mod a 8 ltac:(done)). pose proof (Z.div_mod b 8 ltac:(done)). lia.
Qed.

Lemma demo_fork_ent p i :
  p ∈ [demo_root; demo_child; 0x80032000; 0x80033000] -> 0 <= i < 512 ->
  ent (ms_ram demo_fork) p i =
  if i =? 0 then
    if p =? demo_root then table_pte 0x80032000
    else if p =? 0x80032000 then table_pte 0x80033000
    else if p =? 0x80033000 then demo_leaf else 0
  else 0.
Proof.
  intros Hp Hi. unfold demo_fork, ent. cbn [ms_ram with_ram].
  assert (0 <= table_pte 0x80032000 < 2 ^ 64 /\ 0 <= table_pte 0x80033000 < 2 ^ 64 /\ 0 <= demo_leaf < 2 ^ 64) as (H1 & H2 & H3).
  { vm_compute. done. }
  assert (demo_root <= p <= 0x80033000 /\ p mod 8 = 0 /\ (p - demo_root) mod 4096 = 0) as (Hr & Hm & Hq).
  { unfold demo_root, demo_child in *. set_unfold. destruct Hp as [->|[->|[->|[->|[]]]]]; split_and!; done || lia. }
  assert ((p + 8 * i) mod 8 = 0) as Hw by (rewrite Z.mul_comm, Z_mod_plus_full; done).
  rewrite !rd64_wr64_word by done. rewrite demo_base_ent by done.
  unfold demo_root in *. pose proof (Z.div_mod (p - 0x80030000) 4096 ltac:(done)).
  zbool; done || lia.
Qed.

Lemma demo_fork_step p i :
  p ∈ [demo_root; demo_child; 0x80032000; 0x80033000] -> 0 <= i < 512 ->
  pt_step (ms_ram demo_fork) p i =
  if i =? 0 then
    if p =? demo_root then Some 0x80032000
    else if p =? 0x80032000 then Some 0x80033000
    else if p =? 0x80033000 then Some 0x80034000 else None
  else None.
Proof.
  intros Hp Hi. unfold pt_step. rewrite demo_fork_ent by done.
  destruct (i =? 0); [|done]. destruct (p =? demo_root); [done|].
  destruct (p =? 0x80032000); [done|]. by destruct (p =? 0x80033000).
Qed.

Lemma demo_fork_get va :
  0 <= va < MAXVA -> pt_get (ms_ram demo_fork) demo_root va = if va / PGSIZE =? 0 then demo_leaf else 0.
Proof.
  intros Hva. change MAXVA with (2 ^ 38) in Hva. rewrite px_page by lia.
  pose proof (PX_bounds 2 va ltac:(done)). pose proof (PX_bounds 1 va ltac:(done)). pose proof (PX_bounds 0 va ltac:(done)).
  assert (forall i, 0 <= i < 512 -> pt_step (ms_ram demo_fork) demo_root i = if i =? 0 then Some 0x80032000 else None) as S2
    by (intros i Hi; apply (demo_fork_step demo_root); [set_solver|done]).
  assert (forall i, 0 <= i < 512 -> pt_step (ms_ram demo_fork) 0x80032000 i = if i =? 0 then Some 0x80033000 else None) as S1
    by (intros i Hi; apply (demo_fork_step 0x80032000); [set_solver|done]).
  assert (forall i, 0 <= i < 512 -> ent (ms_ram demo_fork) 0x80033000 i = if i =? 0 then demo_leaf else 0) as S0
    by (intros i Hi; apply (demo_fork_ent 0x80033000); [set_solver|done]).
  rewrite pt_get_eq, S2 by done.
  destruct (Z.eqb_spec (PX 2 va) 0) as [E2|]; [|by replace (_ =? 0) with false by lia]. rewrite S1 by done.
  destruct (Z.eqb_spec (PX 1 va) 0) as [E1|]; [|by replace (_ =? 0) with false by lia]. rewrite S0, E2, E1 by done.
  done.
Qed.

Lemma demo_child_get va : pt_get (ms_ram demo_fork) demo_child va = 0.
Proof.
  assert (forall i, 0 <= i < 512 -> pt_step (ms_ram demo_fork) demo_child i = if i =? 0 then None else None) as S2
    by (intros i Hi; apply (demo_fork_step demo_child); [set_solver|done]).
  rewrite pt_get_eq, S2 by by apply PX_bounds. by destruct (_ =? 0).
Qed.

Lemma demo_fork_kmem : kmem_ready demo_fork /\ kmem_ok demo_fork demo_pages.
Proof.
  split; [split; [apply demo_calm|by eapply demo_lock_free]|]. split.
  - vm_compute. done.
  - apply (bool_decide_unpack _). vm_compute. done.
  - repeat constructor; vm_compute; done.
  - done.
  - cbn. repeat apply bytes_ok_wr64. apply bytes_ok_empty.
Qed.

Lemma demo_child_space : aspace demo_fork demo_child demo_child_own demo_pages.
Proof.
  destruct demo_fork_kmem as [Hr Hk]. split.
  - split; [done..|]. unfold demo_child_own. split.
    + apply lookup_singleton_eq.
    + intros p Hp. by apply lookup_singleton_Some in Hp as [<- _].
    + intros i q Hi. rewrite demo_fork_step by (done || set_solver). by destruct (i =? 0).
    + intros p i j q Hp. by apply lookup_singleton_Some in Hp as [_ ?].
    + intros p n Hp. apply lookup_singleton_Some in Hp as [<- _].
      split_and!; [reflexivity|done|done|]. unfold demo_child, demo_pages. set_solver.
    + intros p n Hp. by apply lookup_singleton_Some in Hp as [<- <-].
    + intros p n i q Hp _ Hi. apply lookup_singleton_Some in Hp as [<- _].
      rewrite demo_fork_step by (done || set_solver). by destruct (i =? 0).
  - intros va _. unfold present. by rewrite demo_child_get.
  - intros va va' _ _. unfold present. by rewrite demo_child_get.
Qed.

Lemma demo_parent_own_Some p n :
  demo_parent_own !! p = Some n ->
  p = demo_root /\ n = NRoot \/ p = 0x80032000 /\ n = NL1 0 \/ p = 0x80033000 /\ n = NL0 0 0.
Proof.
  unfold demo_parent_own. intros [[<- <-]|[_ H]]%lookup_insert_Some; [by left|].
  apply lookup_insert_Some in H as [[<- <-]|[_ H]]; [by right; left|].
  apply lookup_singleton_Some in H as [<- <-]. by right; right.
Qed.

Lemma demo_leaf_frame : PTE2PA demo_leaf = 0x80034000.
Proof. vm_compute. reflexivity. Qed.

Lemma demo_parent_space : aspace demo_fork demo_root demo_parent_own demo_pages.
Proof.
  destruct demo_fork_kmem as [Hr Hk].
  assert (forall va, 0 <= va < MAXVA -> present (ms_ram demo_fork) demo_root va = true ->
    va / PGSIZE = 0 /\ frame (ms_ram demo_fork) demo_root va = 0x80034000) as Hp.
  { intros va Hva. unfold present, frame. rewrite demo_fork_get by done.
    destruct (Z.eqb_spec (va / PGSIZE) 0); [|done]. by rewrite demo_leaf_frame. }
  split.
  - split; [done..|]. split.
    + reflexivity.
    + intros p [[-> _]|[[_ ?]|[_ ?]]]%demo_parent_own_Some; done.
    + intros i q Hi. rewrite demo_fork_step by (done || set_solver). destruct (Z.eqb_spec i 0) as [->|]; [|done].
      intros [= <-]. reflexivity.
    + intros p i j q [[_ ?]|[[-> Hn]|[_ ?]]]%demo_parent_own_Some; [done| |done]. injection Hn as ->. intros Hj.
      rewrite demo_fork_step by (done || set_solver). destruct (Z.eqb_spec j 0) as [->|]; [|done].
      intros [= <-]. reflexivity.
    + intros p n [[-> _]|[[-> _]|[-> _]]]%demo_parent_own_Some;
        (split; [reflexivity|]; split; [done|]; unfold demo_root, demo_pages; set_solver).
    + intros p n [[-> ->]|[[-> ->]|[-> ->]]]%demo_parent_own_Some; [done|split; [done|]..].
      * rewrite demo_fork_step by (done || set_solver). done.
      * exists 0x80032000. split; [reflexivity|]. rewrite demo_fork_step by (done || set_solver). done.
    + intros p n i q [[-> ->]|[[-> ->]|[-> ->]]]%demo_parent_own_Some; [intros _ Hi _..|done];
        (rewrite demo_fork_ent by (done || set_solver); by destruct (i =? 0)).
  - intros va Hva Hpr. destruct (Hp va Hva Hpr) as [_ ->]. split; [done|]. split; [reflexivity|].
    unfold demo_pages. set_solver.
  - intros va va' Hva Hva' H1 H2 _. destruct (Hp va Hva H1) as [E1 _]. destruct (Hp va' Hva' H2) as [E2 _].
    unfold same_page. by rewrite E1, E2.
Qed.

Lemma uvmcopy_correct_witness :
  exists r m' own' free', uvmcopy demo_root demo_child 0x1800 demo_fork = Ret r m' /\
    (forall x, 0 <= x < MAXVA -> pt_get (ms_ram m') demo_root x = pt_get (ms_ram demo_fork) demo_root x /\
       ubyte (ms_ram m') demo_root x = ubyte (ms_ram demo_fork) demo_root x) /\
    (r = 0 /\ aspace m' demo_child own' free' /\
       (forall x, 0 <= x < PGROUNDUP 0x1800 -> copied demo_fork demo_root demo_pages m' demo_child x) \/
     r = -1 /\ restored demo_fork demo_child_own demo_pages demo_child m' own' free' /\
       (length free' <= Z.to_nat (PGROUNDUP 0x1800 / PGSIZE))%nat).
Proof.
  apply (uvmcopy_correct demo_fork demo_root demo_child 0x1800 demo_parent_own demo_child_own demo_pages).
  - exact demo_child_space.
  - exact demo_parent_space.
  - reflexivity.
  - intros p [n Hn]. by apply demo_parent_own_Some in Hn as [[-> _]|[[-> _]|[-> _]]].
  - intros x Hx. unfold present, frame. rewrite demo_fork_get by done. destruct (_ =? 0); [|done].
    intros _. rewrite demo_leaf_frame. reflexivity.
  - split; [lia|]. vm_compute. done.
  - intros x _. unfold present. by rewrite demo_child_get.
Defined.
