(* ===== verification/Freewalk.v ===== *)
(** Giving an address space back: [freewalk] and [uvmfree] of kernel/vm.c and
    [proc_freepagetable] of kernel/proc.c.

    [table_pages] lists the pages of a page table in the order in which
    [freewalk] frees them.  For the table of a process these are exactly the
    pages the tree owns, so that [uvmfree] returns every page of the address
    space to the allocator, the pages of the table included. *)
From S2P Require Import Prelude Riscv Spinlock Memory Bytes Kstring Kalloc Vm PageTable Proc Switch Sleeplock UserMem UserCopy UserSpace.

(** * The pages of a table *)

(** The subtree of [p] with [l] levels. *)
Fixpoint table_pages (l : nat) (ram : gmap Z Z) (p : Z) : list Z :=
  match l with
  | O => []
  | S f =>
      concat ((fun i => match pt_step ram p (Z.of_nat i) with Some q => table_pages f ram q | None => [] end) <$> seq 0 512)
        ++ [p]
  end.
Definition entry_pages (l : nat) (ram : gmap Z Z) (p : Z) (i : nat) : list Z :=
  match pt_step ram p (Z.of_nat i) with Some q => table_pages l ram q | None => [] end.

(** Every valid entry points to a table, and none in the last level is valid. *)
Fixpoint walkable (l : nat) (ram : gmap Z Z) (p : Z) : Prop :=
  match l with
  | O => False
  | S f => forall i q, (i < 512)%nat -> pt_step ram p (Z.of_nat i) = Some q ->
      has (ent ram p (Z.of_nat i)) PTE_RWX = false /\ walkable f ram q
  end.

Lemma table_pages_S l ram p : table_pages (S l) ram p = concat (entry_pages l ram p <$> seq 0 512) ++ [p].
Proof. reflexivity. Qed.

Lemma concat_ext {A B} (f g : A -> list B) l : (forall x, x ∈ l -> f x = g x) -> concat (f <$> l) = concat (g <$> l).
Proof.
  induction l as [|x l IH]; intros H; [done|]. cbn. rewrite H by (by left). f_equal. apply IH. intros y Hy. apply H. by right.
Qed.

Lemma elem_of_concat_fmap {A B} (f : A -> list B) l x : x ∈ concat (f <$> l) <-> exists i, i ∈ l /\ x ∈ f i.
Proof.
  induction l as [|i l IH]; cbn.
  - split; [by intros ?%not_elem_of_nil|]. intros (i & Hi & _). by apply not_elem_of_nil in Hi.
  - rewrite elem_of_app, IH. split.
    + intros [H|(j & Hj & H)]; [exists i; split; [by left|done]|exists j; split; [by right|done]].
    + intros (j & [->|Hj]%elem_of_cons & H); [by left|right; by exists j].
Qed.

Lemma elem_of_rev {A} (l : list A) x : x ∈ rev l <-> x ∈ l.
Proof. rewrite !list_elem_of_In. symmetry. apply List.in_rev. Qed.

Lemma table_ext l ram ram' p :
  (forall q, q ∈ table_pages l ram p -> same_bytes PGSIZE q ram ram') ->
  table_pages l ram' p = table_pages l ram p /\ (walkable l ram p -> walkable l ram' p).
Proof.
  revert p. induction l as [|l IH]; intros p H; [done|].
  assert (forall i, 0 <= i < 512 -> ent ram' p i = ent ram p i) as He.
  { intros i Hi. apply ent_ext; [done|]. apply H. rewrite table_pages_S. apply elem_of_app. right. by left. }
  assert (forall i, (i < 512)%nat -> pt_step ram' p (Z.of_nat i) = pt_step ram p (Z.of_nat i)) as Hs.
  { intros i Hi. unfold pt_step. by rewrite He by lia. }
  assert (forall i q, (i < 512)%nat -> pt_step ram p (Z.of_nat i) = Some q ->
    table_pages l ram' q = table_pages l ram q /\ (walkable l ram q -> walkable l ram' q)) as Hsub.
  { intros i q Hi Hq. apply IH. intros r Hr. apply H. rewrite table_pages_S. apply elem_of_app. left.
    apply elem_of_concat_fmap. exists i. split; [apply elem_of_seq; lia|]. unfold entry_pages. by rewrite Hq. }
  split.
  - rewrite !table_pages_S. f_equal. apply concat_ext. intros i Hi%elem_of_seq. unfold entry_pages. rewrite Hs by lia.
    destruct (pt_step ram p (Z.of_nat i)) as [q|] eqn:E; [|done]. apply (Hsub i q); [lia|done].
  - intros Hw i q Hi. rewrite Hs, He by lia. intros Hq. destruct (Hw i q Hi Hq) as [H1 H2]. split; [done|]. by apply (Hsub i q).
Qed.

(** * freewalk *)

Definition off_pages (P : list Z) (x : Z) : Prop := forall q, q ∈ P -> x < q \/ q + PGSIZE <= x.

(** [m'] after the pages [P] were freed. *)
Record gave_pages (m m' : mem) (P free : list Z) : Prop := {
  gp_ready : kmem_ready m';
  gp_kmem : kmem_ok m' (rev P ++ free);
  gp_hw : ms_hw m' = ms_hw m;
  gp_bytes : forall x, off_pages P x -> rd8 (ms_ram m') x = rd8 (ms_ram m) x }.

(** The pages can be freed. *)
Record can_give (m : mem) (P free : list Z) : Prop := {
  cg_nodup : NoDup P;
  cg_ok : Forall (page_ok (m_ld (ms_hw m))) P;
  cg_free : forall q, q ∈ P -> q ∉ free }.

Lemma page_bytes_off P q m :
  Forall (page_ok (m_ld (ms_hw m))) P -> q mod PGSIZE = 0 -> q ∉ P -> forall x, q <= x < q + PGSIZE -> off_pages P x.
Proof.
  intros HP Hq Hn x Hx r Hr. destruct (page_or r x) as [|Hx']; [done|]. exfalso.
  rewrite Forall_forall in HP. destruct (HP r Hr) as [Hra _]. apply (pages_disjoint r q x); try done. by intros ->.
Qed.

(** What [freewalk] does to a subtree of [l] levels. *)
Definition frees (l : nat) : Prop := forall p m free,
  kmem_ready m -> kmem_ok m free -> touch (ms_hw m) = ms_hw m -> walkable l (ms_ram m) p ->
  can_give m (table_pages l (ms_ram m) p) free ->
  exists m', freewalk l p m = Ret tt m' /\ gave_pages m m' (table_pages l (ms_ram m) p) free.

Lemma kmem_ok_write m free p i v :
  kmem_ok m free -> p mod PGSIZE = 0 -> p ∉ free -> (i < 512)%nat ->
  kmem_ok (with_ram (wr64 (ms_ram m) (p + 8 * Z.of_nat i) v) m) free.
Proof.
  intros Hk Hp Hn Hi. apply (kmem_ok_ext m); [done..|by apply bytes_ok_wr64, Hk|]. intros a Ha. cbn.
  pose proof (ko_pages _ _ Hk) as HP. rewrite Forall_forall in HP. destruct (HP a Ha) as [Haa _].
  apply rd64_wr64_ne. destruct (decide (p + 8 * Z.of_nat i + 8 <= a \/ a + 8 <= p + 8 * Z.of_nat i)) as [|Hne]; [done|].
  exfalso. apply (pages_disjoint a p (Z.max a (p + 8 * Z.of_nat i))); try done; [by intros ->|unfold PGSIZE; lia..].
Qed.

Lemma free_entries l p k : frees l -> forall a m free,
  (a + k = 512)%nat -> kmem_ready m -> kmem_ok m free -> touch (ms_hw m) = ms_hw m ->
  p mod PGSIZE = 0 -> p ∉ free ->
  (forall i q, (a <= i < 512)%nat -> pt_step (ms_ram m) p (Z.of_nat i) = Some q ->
     has (ent (ms_ram m) p (Z.of_nat i)) PTE_RWX = false /\ walkable l (ms_ram m) q) ->
  let P := concat (entry_pages l (ms_ram m) p <$> seq a k) in
  p ∉ P -> can_give m P free ->
  exists m', iterl (seq a k) (free_entry (freewalk l) p) m = Ret tt m' /\
    kmem_ready m' /\ kmem_ok m' (rev P ++ free) /\ ms_hw m' = ms_hw m /\
    forall x, off_pages (p :: P) x -> rd8 (ms_ram m') x = rd8 (ms_ram m) x.
Proof.
  intros IH. induction k as [|k IHk]; intros a m free Ha Hr Hk Ht Hpa Hpf Hw P HpP [C1 C2 C3]; [by exists m|].
  unfold P in *. cbn [seq fmap list_fmap concat iterl] in *. set (Q := entry_pages l (ms_ram m) p a) in *.
  set (R := concat (entry_pages l (ms_ram m) p <$> seq (S a) k)) in *.
  apply not_elem_of_app in HpP as [HpQ HpR]. apply NoDup_app in C1 as (CQ & CQR & CR). apply Forall_app in C2 as [OQ OR].
  destruct (pt_step (ms_ram m) p (Z.of_nat a)) as [q|] eqn:Eq.
  2: { assert (Q = []) as EQ by (unfold Q, entry_pages; by rewrite Eq). rewrite EQ in *. cbn [app].
    destruct (IHk (S a) m free) as (m' & E & H);
      [lia|exact Hr|exact Hk|exact Ht|exact Hpa|exact Hpf|intros i q Hi; apply Hw; lia|exact HpR|by split|].
    exists m'. split; [|exact H]. erewrite bind_Ret; [exact E|]. unfold free_entry.
    kstep (eq_refl : pte_at (p + 8 * Z.of_nat a) m = Ret (ent (ms_ram m) p (Z.of_nat a)) m).
    unfold pt_step in Eq. by destruct (has _ _). }
  assert (Q = table_pages l (ms_ram m) q) as EQ by (unfold Q, entry_pages; by rewrite Eq).
  destruct (Hw a q ltac:(lia) Eq) as [Hdir Hwq].
  destruct (IH q m free Hr Hk Ht Hwq) as (m1 & E1 & [G1 G2 G3 G4]).
  { rewrite <- EQ. split; [done|done|]. intros x Hx. apply C3. apply elem_of_app. by left. }
  rewrite <- EQ in G2, G4.
  set (m2 := with_ram (wr64 (ms_ram m1) (p + 8 * Z.of_nat a) 0) m1).
  assert (free_entry (freewalk l) p a m = Ret tt m2) as Ea.
  { unfold free_entry. kstep (eq_refl : pte_at (p + 8 * Z.of_nat a) m = Ret (ent (ms_ram m) p (Z.of_nat a)) m).
    unfold pt_step in Eq. fold PTE_RWX. rewrite Hdir. destruct (has _ _); [|done]. injection Eq as Eq. rewrite Eq. cbn [negb andb].
    by kstep E1. }
  (* the bytes of the pages that are left *)
  assert (forall x, off_pages Q x -> x < p + 8 * Z.of_nat a \/ p + 8 * Z.of_nat a + 8 <= x ->
    rd8 (ms_ram m2) x = rd8 (ms_ram m) x) as Hb.
  { intros x Hx Hs. cbn. rewrite rd8_wr64_ne by lia. by apply G4. }
  assert (forall r, r ∈ R -> same_bytes PGSIZE r (ms_ram m) (ms_ram m2)) as HR.
  { intros r Hr' x Hx. rewrite Forall_forall in OR. destruct (OR r Hr') as [Hra _]. apply Hb.
    - apply (page_bytes_off Q r m OQ Hra); [|done]. intros HrQ. by apply (CQR r).
    - destruct (page_or p x) as [|Hxp]; [unfold PGSIZE in *; lia|]. exfalso.
      apply (pages_disjoint p r x); try done. by intros ->. }
  assert (forall i, (S a <= i < 512)%nat -> ent (ms_ram m2) p (Z.of_nat i) = ent (ms_ram m) p (Z.of_nat i)) as Hent.
  { intros i Hi. apply rd64_ext. intros x Hx. apply Hb; [|lia].
    apply (page_bytes_off Q p m OQ Hpa HpQ). unfold PGSIZE. lia. }
  assert (forall i, (S a <= i < 512)%nat -> pt_step (ms_ram m2) p (Z.of_nat i) = pt_step (ms_ram m) p (Z.of_nat i)) as Hst
    by (intros i Hi; unfold pt_step; by rewrite Hent).
  assert (forall i r, (S a <= i < 512)%nat -> pt_step (ms_ram m) p (Z.of_nat i) = Some r ->
    table_pages l (ms_ram m2) r = table_pages l (ms_ram m) r /\ (walkable l (ms_ram m) r -> walkable l (ms_ram m2) r)) as Hsub.
  { intros i r Hi Er. apply table_ext. intros y Hy. apply HR. apply elem_of_concat_fmap. exists i.
    split; [apply elem_of_seq; lia|]. unfold entry_pages. by rewrite Er. }
  assert (concat (entry_pages l (ms_ram m2) p <$> seq (S a) k) = R) as ER.
  { apply concat_ext. intros i Hi%elem_of_seq. unfold entry_pages. rewrite Hst by lia.
    destruct (pt_step (ms_ram m) p (Z.of_nat i)) as [r|] eqn:Er; [|done]. apply (Hsub i r); [lia|done]. }
  destruct (IHk (S a) m2 (rev Q ++ free)) as (m' & E & K1 & K2 & K3 & K4).
  - lia.
  - exact G1.
  - apply kmem_ok_write; [done|done| |lia]. rewrite elem_of_app, elem_of_rev. tauto.
  - cbn. by rewrite G3.
  - done.
  - rewrite elem_of_app, elem_of_rev. tauto.
  - intros i r Hi. rewrite Hst, Hent by lia. intros Er. destruct (Hw i r ltac:(lia) Er) as [W1 W2]. split; [done|]. by apply (Hsub i r).
  - by rewrite ER.
  - rewrite ER. split; [done|by cbn; rewrite G3|]. intros x Hx. rewrite elem_of_app, elem_of_rev. intros [Hx'|Hx'].
    + by apply (CQR x).
    + revert Hx'. apply C3. apply elem_of_app. by right.
  - rewrite ER in *. exists m'. split; [by kstep Ea|]. split; [done|]. split; [|split].
    + by rewrite rev_app_distr, <- app_assoc.
    + by rewrite K3.
    + intros x Hx. rewrite K4, Hb.
      * done.
      * intros y Hy. apply Hx. right. apply elem_of_app. by left.
      * destruct (Hx p ltac:(by left)); unfold PGSIZE in *; lia.
      * intros y Hy. apply Hx. apply elem_of_cons in Hy as [->|Hy]; [by left|right; apply elem_of_app; by right].
Qed.

Lemma freewalk_frees l : frees l.
Proof.
  induction l as [|l IH]; intros p m free Hr Hk Ht Hw [C1 C2 C3]; [done|].
  rewrite table_pages_S in *. set (P := concat _) in *. apply NoDup_app in C1 as (CP & CPp & _). apply Forall_app in C2 as [OP Op].
  pose proof (proj1 (Forall_singleton _ _) Op) as Op'. assert (p ∉ P) as HpP by (intros Hp; apply (CPp p Hp); by left).
  destruct (free_entries l p 512 IH 0 m free) as (m1 & E1 & K1 & K2 & K3 & K4);
    [done|done|done|done|apply Op'|apply C3, elem_of_app; right; by left|intros i q Hi; apply Hw; lia|done| |].
  { split; [done|done|]. intros q Hq. apply C3, elem_of_app. by left. }
  fold P in K2, K4.
  assert (p ∉ rev P ++ free) as Hpn.
  { rewrite elem_of_app, elem_of_rev. intros [?|Hp]; [done|]. revert Hp. apply C3, elem_of_app. right. by left. }
  assert (page_ok (m_ld (ms_hw m1)) p) as Opm by by rewrite K3.
  destruct (kfree_spec p m1 (rev P ++ free) K1 K2 Opm Hpn) as (m2 & E2 & F1 & F2 & F3 & F4).
  exists m2. split; [cbn [freewalk]; by kstep E1|]. split; [done| | |].
  - by rewrite rev_app_distr.
  - rewrite (kfree_hw p m1 m2 K1 Opm E2), K3. done.
  - intros x Hx. rewrite F4, K4; [done| |].
    + intros q Hq. apply Hx, elem_of_app. apply elem_of_cons in Hq as [->|Hq]; [right; by left|by left].
    + apply Hx, elem_of_app. right. by left.
Qed.

(** * The table of an address space *)

Lemma NoDup_concat_fmap {A B} (f : A -> list B) l :
  NoDup l -> (forall i, i ∈ l -> NoDup (f i)) ->
  (forall i j x, i ∈ l -> j ∈ l -> i <> j -> x ∈ f i -> x ∉ f j) -> NoDup (concat (f <$> l)).
Proof.
  induction 1 as [|i l Hi _ IH]; intros H1 H2; [apply NoDup_nil_2|]. cbn. apply NoDup_app. split; [apply H1; by left|]. split.
  - intros x Hx Hx'. apply elem_of_concat_fmap in Hx' as (j & Hj & Hx'). revert Hx'. apply (H2 i j x); [by left|by right| |done].
    by intros ->.
  - apply IH; [intros j Hj; apply H1; by right|]. intros j k x Hj Hk. apply H2; by right.
Qed.

Section Tree.
Context (ram : gmap Z Z) (root : Z) (own : gmap Z node) (free : list Z) (Hwf : pt_wf ram root own free).

(** The page lies below the entry [i] of the root. *)
Definition below (i : Z) (x : Z) : Prop := own !! x = Some (NL1 i) \/ exists j, own !! x = Some (NL0 i j).

Lemma pages_1 r : table_pages 1 ram r = [r].
Proof using Type.
  rewrite table_pages_S. assert (concat (entry_pages 0 ram r <$> seq 0 512) = []) as ->; [|done].
  generalize (seq 0 512). induction l as [|i l IH]; [done|]. cbn. rewrite IH. unfold entry_pages. by destruct (pt_step _ _ _).
Qed.

Lemma entry_1 i q j x : own !! q = Some (NL1 i) -> (j < 512)%nat -> x ∈ entry_pages 1 ram q j ->
  own !! x = Some (NL0 i (Z.of_nat j)).
Proof using Hwf.
  intros Hq Hj. unfold entry_pages. destruct (pt_step ram q (Z.of_nat j)) as [r|] eqn:E; [|by intros ?%not_elem_of_nil].
  rewrite pages_1. intros ->%list_elem_of_singleton. by apply (pw_l1 _ _ _ _ Hwf q); [|lia|].
Qed.

Lemma pages_2 i q : own !! q = Some (NL1 i) -> NoDup (table_pages 2 ram q) /\
  forall x, x ∈ table_pages 2 ram q <-> below i x.
Proof using Hwf.
  intros Hq. rewrite table_pages_S. split.
  - apply NoDup_app. split; [|split].
    + apply NoDup_concat_fmap; [apply NoDup_seq|..].
      * intros j Hj. unfold entry_pages. destruct (pt_step _ _ _); [rewrite pages_1; apply NoDup_singleton|apply NoDup_nil_2].
      * intros j k x Hj%elem_of_seq Hk%elem_of_seq Hne Hx Hx'. apply (entry_1 i q) in Hx; [|done|lia].
        apply (entry_1 i q) in Hx'; [|done|lia]. rewrite Hx in Hx'. injection Hx'. lia.
    + intros x (j & Hj%elem_of_seq & Hx)%elem_of_concat_fmap ->%list_elem_of_singleton.
      apply (entry_1 i q) in Hx; [|done|lia]. congruence.
    + apply NoDup_singleton.
  - intros x. rewrite elem_of_app, list_elem_of_singleton. split.
    + intros [(j & Hj%elem_of_seq & Hx)%elem_of_concat_fmap| ->]; [right; exists (Z.of_nat j); apply (entry_1 i q); [done|lia|done]|by left].
    + intros [Hx|[j Hx]].
      * right. destruct (pw_up _ _ _ _ Hwf x _ Hx) as [_ E1]. destruct (pw_up _ _ _ _ Hwf q _ Hq) as [_ E2]. congruence.
      * left. destruct (pw_up _ _ _ _ Hwf x _ Hx) as (Hj & r & Hr & E).
        assert (r = q) as ->.
        { destruct (pw_up _ _ _ _ Hwf r _ Hr) as [_ E1]. destruct (pw_up _ _ _ _ Hwf q _ Hq) as [_ E2]. congruence. }
        apply elem_of_concat_fmap. exists (Z.to_nat j). split; [apply elem_of_seq; lia|]. unfold entry_pages.
        rewrite Z2Nat.id, E, pages_1 by lia. by left.
Qed.

Lemma entry_2 i x : (i < 512)%nat -> x ∈ entry_pages 2 ram root i -> below (Z.of_nat i) x.
Proof using Hwf.
  intros Hi. unfold entry_pages. destruct (pt_step ram root (Z.of_nat i)) as [q|] eqn:E; [|by intros ?%not_elem_of_nil].
  intros Hx. apply (pages_2 (Z.of_nat i) q); [|done]. apply (pw_l2 _ _ _ _ Hwf); [lia|done].
Qed.

Lemma below_inj i k x : below i x -> below k x -> i = k.
Proof using Type. intros [H|[j H]] [H'|[j' H']]; rewrite H in H'; by injection H'. Qed.

(** The pages [freewalk] visits are the pages of the tree, each once. *)
Lemma tree_pages : NoDup (table_pages 3 ram root) /\ forall x, x ∈ table_pages 3 ram root <-> is_Some (own !! x).
Proof using Hwf.
  pose proof (pw_root _ _ _ _ Hwf) as Hroot. rewrite table_pages_S. split.
  - apply NoDup_app. split; [|split].
    + apply NoDup_concat_fmap; [apply NoDup_seq|..].
      * intros i Hi%elem_of_seq. unfold entry_pages. destruct (pt_step ram root (Z.of_nat i)) as [q|] eqn:E; [|apply NoDup_nil_2].
        apply (pages_2 (Z.of_nat i)), (pw_l2 _ _ _ _ Hwf); [lia|done].
      * intros i k x Hi%elem_of_seq Hk%elem_of_seq Hne Hx%entry_2 Hx'%entry_2; [|lia..]. apply Hne.
        pose proof (below_inj _ _ _ Hx Hx'). lia.
    + intros x (i & Hi%elem_of_seq & Hx)%elem_of_concat_fmap ->%list_elem_of_singleton.
      apply entry_2 in Hx; [|lia]. destruct Hx as [Hx|[j Hx]]; congruence.
    + apply NoDup_singleton.
  - intros x. rewrite elem_of_app, list_elem_of_singleton. split.
    + intros [(i & Hi%elem_of_seq & Hx)%elem_of_concat_fmap| ->]; [|by eauto].
      apply entry_2 in Hx; [|lia]. destruct Hx as [Hx|[j Hx]]; eauto.
    + intros [n Hx].
      assert (forall i q, own !! q = Some (NL1 i) -> below i x -> x ∈ concat (entry_pages 2 ram root <$> seq 0 512)) as Hin.
      { intros i q Hq Hb. destruct (pw_up _ _ _ _ Hwf q _ Hq) as [Hi E]. apply elem_of_concat_fmap. exists (Z.to_nat i).
        split; [apply elem_of_seq; lia|]. unfold entry_pages. rewrite Z2Nat.id, E by lia. by apply (pages_2 i q). }
      destruct n as [|i|i j].
      * right. by apply (pw_uniq _ _ _ _ Hwf).
      * left. apply (Hin i x Hx). by left.
      * left. destruct (pw_up _ _ _ _ Hwf x _ Hx) as (_ & q & Hq & _). apply (Hin i q Hq). right. by exists j.
Qed.

(** A table that maps nothing. *)
Lemma tree_walkable : (forall va, 0 <= va < MAXVA -> present ram root va = false) -> walkable 3 ram root.
Proof using Hwf.
  intros He i q Hi Eq. pose proof (pw_root _ _ _ _ Hwf) as Hroot.
  split; [apply (pw_dir _ _ _ _ Hwf root NRoot _ q); [done|done|lia|done]|].
  pose proof (pw_l2 _ _ _ _ Hwf (Z.of_nat i) q ltac:(lia) Eq) as Hq. intros j r Hj Er.
  split; [apply (pw_dir _ _ _ _ Hwf q (NL1 (Z.of_nat i)) _ r); [done|done|lia|done]|].
  intros k t Hk Et. exfalso. destruct (pw_up _ _ _ _ Hwf q _ Hq) as [Hlow _].
  set (va := Z.of_nat i * 2 ^ 30 + Z.of_nat j * 2 ^ 21 + Z.of_nat k * 2 ^ 12).
  assert (PX 2 va = Z.of_nat i /\ PX 1 va = Z.of_nat j /\ PX 0 va = Z.of_nat k) as (E2 & E1 & E0).
  { rewrite !PX_eq by done. change (2 ^ (12 + 9 * 2)) with (2 ^ 30). change (2 ^ (12 + 9 * 1)) with (2 ^ 21).
    change (2 ^ (12 + 9 * 0)) with (2 ^ 12). change (2 ^ 9) with 512. unfold va. Z.to_euclidean_division_equations. lia. }
  assert (0 <= va < MAXVA) as Hva by (change MAXVA with (2 ^ 38); unfold va; lia).
  pose proof (He va Hva) as Hp. unfold present in Hp. rewrite pt_get_eq, E2, Eq, E1, Er, E0 in Hp.
  unfold pt_step in Et. by rewrite Hp in Et.
Qed.
End Tree.

Definition owned_ok (m : mem) (own : gmap Z node) : Prop := forall p, is_Some (own !! p) -> page_ok (m_ld (ms_hw m)) p.

(** [free'] has the pages of [free] and those of [P], and only their bytes changed. *)
Record returned_pages (m m' : mem) (free free' : list Z) (P : Z -> Prop) : Prop := {
  rp_ready : kmem_ready m';
  rp_kmem : kmem_ok m' free';
  rp_hw : ms_hw m' = ms_hw m;
  rp_free : forall p, p ∈ free' <-> p ∈ free \/ P p;
  rp_bytes : forall x, (forall p, p ∈ free \/ P p -> x < p \/ p + PGSIZE <= x) -> rd8 (ms_ram m') x = rd8 (ms_ram m) x }.

(** The tables of an address space that maps nothing. *)
Lemma freewalk_empty m root own free :
  pt_state m root own free -> touch (ms_hw m) = ms_hw m -> owned_ok m own ->
  (forall va, 0 <= va < MAXVA -> present (ms_ram m) root va = false) ->
  exists m' free', freewalk 3 root m = Ret tt m' /\ returned_pages m m' free free' (fun p => is_Some (own !! p)).
Proof.
  intros [Hr Hk Hwf] Ht Hok He. destruct (tree_pages _ _ _ _ Hwf) as [Hnd Hin].
  destruct (freewalk_frees 3 root m free Hr Hk Ht (tree_walkable _ _ _ _ Hwf He)) as (m' & E & [G1 G2 G3 G4]).
  { split; [done| |].
    - apply Forall_forall. intros p Hp. by apply Hok, Hin.
    - intros p Hp. apply Hin in Hp as [n Hn]. by apply (pw_page _ _ _ _ Hwf) in Hn as (_ & _ & ?). }
  exists m', (rev (table_pages 3 (ms_ram m) root) ++ free). split; [done|]. split; try done.
  - intros p. rewrite elem_of_app, elem_of_rev, Hin. tauto.
  - intros x Hx. apply G4. intros p Hp. apply Hx. right. by apply Hin.
Qed.

(** [uvmunmap] of one page that stays allocated. *)
Lemma uvmunmap_keep m root own free va :
  pt_state m root own free -> 0 <= va < MAXVA -> va mod PGSIZE = 0 ->
  exists m', uvmunmap root va 1 false m = Ret tt m' /\ pt_state m' root own free /\ ms_hw m' = ms_hw m /\
    (forall a, 0 <= a < MAXVA ->
       (if same_page va a then present (ms_ram m') root a = false else pt_get (ms_ram m') root a = pt_get (ms_ram m) root a)) /\
    (forall x, (forall p, is_Some (own !! p) -> x < p \/ p + PGSIZE <= x) -> rd8 (ms_ram m') x = rd8 (ms_ram m) x).
Proof.
  intros Hpt Hva Hal. pose proof Hpt as [Hr Hk Hwf]. pose proof (page_below_max va Hal Hva) as Hmax.
  assert (u64 (va + PGSIZE) = va + PGSIZE) as Eu by (apply u64_small; change MAXVA with (2 ^ 38) in *; unfold PGSIZE in *; lia).
  assert (0 < PGSIZE) as HPG by done.
  assert (forall m2, uvmunmap_body root false (va + PGSIZE) (va + PGSIZE) m2 = Ret (inr tt) m2) as Estop
    by (intros m2; unfold uvmunmap_body; by rewrite Z.ltb_irrefl).
  assert (forall m1, uvmunmap_body root false (va + PGSIZE) va m = Ret (inl (va + PGSIZE)) m1 ->
    uvmunmap root va 1 false m = Ret tt m1) as Hrun.
  { intros m1 E. unfold uvmunmap. rewrite Hal, Z.mul_1_l, Eu. cbn [Z.eqb negb]. change (S (Z.to_nat 1)) with 2%nat.
    rewrite (loop_next _ _ _ _ _ _ E). by apply loop_exit. }
  destruct (present (ms_ram m) root va) eqn:Ep.
  - destruct (slot_of_pte _ _ _ Ep) as (slot & Es & Er). destruct (slot_owner _ _ _ _ _ _ Hwf Es) as (p0 & -> & Ho).
    assert (0 <= va < 2 ^ 39) as Hva39 by (change MAXVA with (2 ^ 38) in Hva; lia).
    exists (with_ram (wr64 (ms_ram m) (p0 + 8 * PX 0 va) 0) m). split; [|split; [by apply leaf_state|split; [done|split]]].
    + apply Hrun. unfold uvmunmap_body. rewrite (proj2 (Z.ltb_lt va _)) by lia. cbn [negb]. kstep walk_read by lia. rewrite Es.
      change (default 0 (Some (p0 + 8 * PX 0 va))) with (p0 + 8 * PX 0 va).
      rewrite (proj2 (Z.eqb_neq _ 0)) by (by eapply slot_nonzero). kstep eq_refl. rewrite Er. unfold present in Ep. rewrite Ep.
      cbn [negb]. kstep eq_refl. kstep eq_refl. by rewrite Eu.
    + intros a Ha. unfold present. change MAXVA with (2 ^ 38) in Ha.
      rewrite (leaf_get m root p0 va 0 own free Hpt Hva39 ltac:(done) Ho Es a) by lia. by destruct (same_page va a).
    + intros x Hx. cbn. apply rd8_wr64_ne. pose proof (PX_bounds 0 va ltac:(done)).
      destruct (Hx p0) as [?|?]; [by eauto| |]; unfold PGSIZE in *; lia.
  - exists m. split; [|split; [done|split; [done|split; [|done]]]].
    + apply Hrun. unfold uvmunmap_body. rewrite (proj2 (Z.ltb_lt va _)) by lia. cbn [negb]. kstep walk_read by lia.
      unfold present, pt_get in Ep. destruct (pt_slot (ms_ram m) root va) as [a|] eqn:Es.
      * change (default 0 (Some a)) with a. rewrite (proj2 (Z.eqb_neq _ 0)) by (by eapply slot_nonzero). kstep eq_refl. by rewrite Ep, Eu.
      * cbn. by rewrite Eu.
    + intros a Ha. destruct (same_page va a) eqn:E; [|done]. by rewrite <- (present_same_page _ _ _ _ E).
Qed.

(** [uvmfree]: the pages of the address space and of its tables are free again. *)
Lemma uvmfree_spec m root own free sz :
  aspace m root own free -> touch (ms_hw m) = ms_hw m -> owned_ok m own -> 0 <= sz <= MAXVA ->
  freeable m root 0 (PGROUNDUP sz) ->
  (forall va, 0 <= va < MAXVA -> present (ms_ram m) root va = true -> va < PGROUNDUP sz) ->
  exists m' free', uvmfree root sz m = Ret tt m' /\
    returned_pages m m' free free' (fun p => is_Some (own !! p) \/
      exists va, 0 <= va < MAXVA /\ present (ms_ram m) root va = true /\ frame (ms_ram m) root va = p).
Proof.
  intros A Ht Hok Hsz Hfr Hin. destruct (top_facts sz Hsz) as (Htal & Htb & Htm). unfold uvmfree.
  destruct (Z.ltb_spec 0 sz) as [Hpos|Hz]; cbn [when].
  - assert (PGROUNDUP sz / PGSIZE * PGSIZE = PGROUNDUP sz) as En.
    { unfold PGSIZE in *. pose proof (Z.div_mod (PGROUNDUP sz) 4096 ltac:(done)). lia. }
    destruct (uvmunmap_spec m root own free 0 (PGROUNDUP sz / PGSIZE) A Ht) as (m1 & freed & E1 & A1 & Hh1 & Hc1 & Hf1 & _ & Hi1);
      rewrite ?Z.add_0_l, ?En; [done|done|apply Z.div_pos; [lia|done]|lia|done|].
    rewrite Z.add_0_l, En in Hc1, Hf1.
    assert (forall va, 0 <= va < MAXVA -> present (ms_ram m1) root va = false) as He.
    { intros va Hva. specialize (Hc1 va Hva). destruct ((0 <=? va) && (va <? PGROUNDUP sz)) eqn:E; [done|].
      unfold present. rewrite Hc1. destruct (has (pt_get (ms_ram m) root va) PTE_V) eqn:Ep; [|done].
      specialize (Hin va Hva Ep). apply andb_false_iff in E. rewrite Z.leb_gt, Z.ltb_ge in E. lia. }
    destruct (freewalk_empty m1 root own (freed ++ free) (as_pt _ _ _ _ A1)) as (m2 & free' & E2 & [R1 R2 R3 R4 R5]);
      [by rewrite Hh1|unfold owned_ok; by rewrite Hh1|done|].
    assert (forall p, p ∈ freed <-> exists va, 0 <= va < MAXVA /\ present (ms_ram m) root va = true /\ frame (ms_ram m) root va = p) as Hfr'.
    { intros p. rewrite (Hf1 p). split; intros (va & Hva & Hp & Ef); exists va; (split; [|done]); [lia|].
      specialize (Hin va Hva Hp). lia. }
    exists m2, free'. split; [by kstep E1|]. split; [done|done|by rewrite R3| |].
    + intros p. rewrite R4, elem_of_app, Hfr'. tauto.
    + intros x Hx. rewrite R5, Hi1; [done| |].
      * intros p Hp. apply Hx. rewrite elem_of_app, Hfr' in Hp. tauto.
      * intros p Hp. apply Hx. rewrite elem_of_app, Hfr' in Hp. tauto.
  - assert (sz = 0) as -> by lia. change (PGROUNDUP 0) with 0 in Hin.
    assert (forall va, 0 <= va < MAXVA -> present (ms_ram m) root va = false) as He.
    { intros va Hva. destruct (present (ms_ram m) root va) eqn:E; [|done]. specialize (Hin va Hva E). lia. }
    destruct (freewalk_empty m root own free (as_pt _ _ _ _ A) Ht Hok He) as (m' & free' & E & [R1 R2 R3 R4 R5]).
    assert (forall p, ~ exists va, 0 <= va < MAXVA /\ present (ms_ram m) root va = true /\ frame (ms_ram m) root va = p) as Hno.
    { intros p (va & Hva & Hp & _). by rewrite He in Hp. }
    exists m', free'. split; [by kstep eq_refl|]. split; [done|done|done| |].
    + intros p. rewrite R4. specialize (Hno p). tauto.
    + intros x Hx. apply R5. intros p Hp. apply Hx. tauto.
Qed.

(** C25. [uvmfree] gives a whole address space back: it returns, and afterwards
    the allocator has exactly the pages it had, the pages of the table and the
    pages the table mapped.  No other byte of memory changes.  This is for a table
    that maps nothing above the size. *)
Theorem uvmfree_correct m root own free sz
  (A : aspace m root own free) (Ht : touch (ms_hw m) = ms_hw m) (Hown : owned_ok m own) (Hsz : 0 <= sz <= MAXVA)
  (Hfr : freeable m root 0 (PGROUNDUP sz))
  (Hin : forall va, 0 <= va < MAXVA -> present (ms_ram m) root va = true -> va < PGROUNDUP sz) :
  exists m' free', uvmfree root sz m = Ret tt m' /\
    returned_pages m m' free free' (fun p => is_Some (own !! p) \/
      exists va, 0 <= va < MAXVA /\ present (ms_ram m) root va = true /\ frame (ms_ram m) root va = p).
Proof. by apply uvmfree_spec. Qed.

Lemma uvmfree_correct_witness :
  exists m' free', uvmfree demo_root 0x1800 demo_fork = Ret tt m' /\
    returned_pages demo_fork m' demo_pages free' (fun p => is_Some (demo_parent_own !! p) \/
      exists va, 0 <= va < MAXVA /\ present (ms_ram demo_fork) demo_root va = true /\ frame (ms_ram demo_fork) demo_root va = p).
Proof.
  apply (uvmfree_correct demo_fork demo_root demo_parent_own demo_pages 0x1800).
  - exact demo_parent_space.
  - reflexivity.
  - intros p [n Hn]. by apply demo_parent_own_Some in Hn as [[-> _]|[[-> _]|[-> _]]].
  - split; [lia|]. vm_compute. done.
  - intros va [H1 H2]. change (PGROUNDUP 0x1800) with 0x2000 in H2. assert (0x2000 < MAXVA) by done.
    unfold present, frame. rewrite demo_fork_get by lia. destruct (_ =? 0); [|done].
    intros _. rewrite demo_leaf_frame. done.
  - intros va Hva. change (PGROUNDUP 0x1800) with 0x2000. unfold present. rewrite demo_fork_get by done.
    destruct (Z.eqb_spec (va / PGSIZE) 0) as [E|]; [|done]. intros _. unfold PGSIZE in E. pose proof (Z.div_mod va 4096 ltac:(done)).
    pose proof (Z.mod_pos_bound va 4096 ltac:(done)). lia.
Defined.

(** * The address space of a process *)

(** [sz] bytes of user memory, the trapframe in page [tf], and the trampoline. *)
Record pspace (m : mem) (root : Z) (own : gmap Z node) (free : list Z) (sz tf : Z) : Prop := {
  sp_as : aspace m root own free;
  sp_own : owned_ok m own;
  sp_sz : 0 <= sz <= TRAPFRAME;
  sp_user : freeable m root 0 (PGROUNDUP sz);
  sp_in : forall va, 0 <= va < MAXVA -> present (ms_ram m) root va = true ->
    va < PGROUNDUP sz \/ same_page TRAPFRAME va = true \/ same_page TRAMPOLINE va = true;
  sp_tf : present (ms_ram m) root TRAPFRAME = true /\ frame (ms_ram m) root TRAPFRAME = tf;
  sp_tfok : page_ok (m_ld (ms_hw m)) tf }.

Lemma trap_pages : 0 <= TRAPFRAME < MAXVA /\ TRAPFRAME mod PGSIZE = 0 /\ 0 <= TRAMPOLINE < MAXVA /\ TRAMPOLINE mod PGSIZE = 0 /\
  TRAMPOLINE = TRAPFRAME + PGSIZE.
Proof. split_and!; vm_compute; congruence. Qed.

Lemma user_top sz : 0 <= sz <= TRAPFRAME -> sz <= PGROUNDUP sz <= TRAPFRAME /\ PGROUNDUP sz mod PGSIZE = 0.
Proof.
  intros Hsz. destruct trap_pages as (Ht & Hta & _). destruct (top_facts sz) as (Hal & Hb & _); [lia|]. split; [|done].
  split; [lia|]. destruct (decide (PGROUNDUP sz <= TRAPFRAME)) as [|Hgt]; [done|]. unfold PGSIZE in *.
  pose proof (Z.div_mod (PGROUNDUP sz) 4096 ltac:(done)). pose proof (Z.div_mod TRAPFRAME 4096 ltac:(done)). lia.
Qed.

Lemma user_not_trap sz va : 0 <= sz <= TRAPFRAME -> va < PGROUNDUP sz -> same_page TRAPFRAME va = false /\ same_page TRAMPOLINE va = false.
Proof.
  intros Hsz Hva. destruct (user_top sz Hsz) as [Ht _]. destruct trap_pages as (_ & Ha & _ & Hb & E).
  rewrite !same_page_aligned by done. assert (0 < PGSIZE) by done. split; zbool; done.
Qed.

(** [freeproc] of a process with memory: the trapframe, the tables and the user
    pages are free again. *)
Lemma free_space m root own free sz tf :
  pspace m root own free sz tf -> touch (ms_hw m) = ms_hw m ->
  exists m1 m' free', kfree tf m = Ret tt m1 /\ proc_freepagetable root sz m1 = Ret tt m' /\
    returned_pages m m' free free' (fun p => p = tf \/ is_Some (own !! p) \/
      exists va, 0 <= va < PGROUNDUP sz /\ present (ms_ram m) root va = true /\ frame (ms_ram m) root va = p).
Proof.
  intros [A Hown Hsz Huser Hin [Htp Htf] Htok] Ht. destruct trap_pages as (T1 & T2 & T3 & T4 & T5).
  destruct (user_top sz Hsz) as [Htop _]. pose proof A as [Hpt Hpg Hinj]. pose proof Hpt as [Hr Hk Hwf].
  destruct (Hpg TRAPFRAME T1 Htp) as (_ & Hno & Hnf). rewrite Htf in Hno, Hnf.
  destruct (kfree_spec tf m free Hr Hk Htok Hnf) as (m1 & E1 & Hr1 & Hk1 & Hld1 & Hb1).
  assert (ms_hw m1 = ms_hw m) as Hh1 by (rewrite (kfree_hw tf m m1 Hr Htok E1); done).
  assert (forall p, is_Some (own !! p) -> same_bytes PGSIZE p (ms_ram m) (ms_ram m1)) as Hsp.
  { intros p Hp x Hx. apply Hb1. destruct (page_or tf x) as [|Hx']; [done|]. exfalso. apply (pages_disjoint tf p x); try done.
    - apply Htok.
    - destruct Hp as [n Hn]. by apply (pw_page _ _ _ _ Hwf) in Hn as (? & _ & _).
    - intros <-. rewrite Hno in Hp. by destruct Hp. }
  assert (pt_state m1 root own (tf :: free)) as Hpt1.
  { split; [done..|]. apply (wf_spared Hwf Hsp). intros p Hp. apply not_elem_of_cons. split.
    - intros ->. rewrite Hno in Hp. by destruct Hp.
    - destruct Hp as [n Hn]. by apply (pw_page _ _ _ _ Hwf) in Hn as (_ & _ & ?). }
  destruct (uvmunmap_keep m1 root own (tf :: free) TRAMPOLINE Hpt1 T3 T4) as (m2 & E2 & Hpt2 & Hh2 & Hg2 & Hb2).
  destruct (uvmunmap_keep m2 root own (tf :: free) TRAPFRAME Hpt2 T1 T2) as (m3 & E3 & Hpt3 & Hh3 & Hg3 & Hb3).
  assert (forall va, 0 <= va < MAXVA -> present (ms_ram m3) root va = true ->
    same_page TRAPFRAME va = false /\ same_page TRAMPOLINE va = false /\ pt_get (ms_ram m3) root va = pt_get (ms_ram m) root va) as Hp3.
  { intros va Hva Hp. specialize (Hg3 va Hva). specialize (Hg2 va Hva). destruct (same_page TRAPFRAME va); [congruence|].
    destruct (same_page TRAMPOLINE va); [unfold present in *; congruence|]. by rewrite Hg3, Hg2, (get_spared Hwf Hsp). }
  assert (forall va, 0 <= va < PGROUNDUP sz -> pt_get (ms_ram m3) root va = pt_get (ms_ram m) root va) as Hu3.
  { intros va Hva. destruct (user_not_trap sz va Hsz ltac:(lia)) as [N1 N2]. specialize (Hg3 va ltac:(lia)). specialize (Hg2 va ltac:(lia)).
    rewrite N1 in Hg3. rewrite N2 in Hg2. by rewrite Hg3, Hg2, (get_spared Hwf Hsp). }
  assert (aspace m3 root own (tf :: free)) as A3.
  { split; [done| |].
    - intros va Hva Hp. destruct (Hp3 va Hva Hp) as (N1 & _ & E). unfold present, frame in *. rewrite E in *.
      destruct (Hpg va Hva Hp) as (P1 & P2 & P3). split; [done|]. split; [done|]. apply not_elem_of_cons. split; [|done].
      intros Ef. rewrite (Hinj TRAPFRAME va) in N1; [done..|]. unfold frame. congruence.
    - intros va va' Hva Hva' Hp Hp'. destruct (Hp3 va Hva Hp) as (_ & _ & E), (Hp3 va' Hva' Hp') as (_ & _ & E').
      unfold present, frame in *. rewrite E, E' in *. by apply Hinj. }
  assert (ms_hw m3 = ms_hw m) as Hh by congruence.
  destruct (uvmfree_spec m3 root own (tf :: free) sz A3) as (m' & free' & E4 & [R1 R2 R3 R4 R5]).
  - by rewrite Hh.
  - intros p Hp. rewrite Hh. by apply Hown.
  - lia.
  - intros va Hva Hp. unfold present, frame in *. rewrite Hu3, Hh in * by done. by apply Huser.
  - intros va Hva Hp. destruct (Hp3 va Hva Hp) as (N1 & N2 & E). unfold present in Hp. rewrite E in Hp.
    destruct (Hin va Hva Hp) as [|[|]]; [done|congruence..].
  - assert (forall p, (exists va, 0 <= va < MAXVA /\ present (ms_ram m3) root va = true /\ frame (ms_ram m3) root va = p) <->
      exists va, 0 <= va < PGROUNDUP sz /\ present (ms_ram m) root va = true /\ frame (ms_ram m) root va = p) as Heq.
    { intros p. split; intros (va & Hva & Hp & Ef); exists va.
      - destruct (Hp3 va Hva Hp) as (N1 & N2 & E). unfold present, frame in *. rewrite E in Hp, Ef.
        destruct (Hin va Hva Hp) as [|[|]]; [|congruence..]. split; [lia|done].
      - unfold present, frame in *. rewrite Hu3 by done. split; [lia|done]. }
    exists m1, m', free'. split; [done|]. split; [unfold proc_freepagetable; kstep E2; by kstep E3|].
    split; [done|done|congruence| |].
    + intros p. rewrite R4, elem_of_cons, Heq. tauto.
    + intros x Hx. rewrite R5, Hb3, Hb2, Hb1; [done|..].
      * apply Hx. tauto.
      * intros p Hp. apply Hx. tauto.
      * intros p Hp. apply Hx. tauto.
      * intros p Hp. apply Hx. rewrite elem_of_cons, Heq in Hp. tauto.
Qed.
