(* ===== verification/Procmem.v ===== *)
(** The memory of a process: [proc_pagetable], [allocproc] and [freeproc] of
    kernel/proc.c.

    A process owns its page table, its trapframe and its user pages
    ([pspace]).  [allocproc] takes them off the free list, or takes nothing;
    [freeproc] puts all of them back. *)
From S2P Require Import Prelude Riscv Spinlock Memory Bytes Kstring Kalloc Vm PageTable Proc Switch Sleeplock Kill UserMem UserCopy UserSpace Freewalk.

(** * Changes elsewhere in memory *)

(** Only the pages of [Q] differ. *)
Definition kept (Q : Z -> Prop) (m m' : mem) : Prop :=
  forall x, (forall p, Q p -> x < p \/ p + PGSIZE <= x) -> rd8 (ms_ram m') x = rd8 (ms_ram m) x.

Lemma kept_trans Q m m1 m2 : kept Q m m1 -> kept Q m1 m2 -> kept Q m m2.
Proof. intros H1 H2 x Hx. by rewrite H2, H1. Qed.

Lemma kept_sub (Q Q' : Z -> Prop) m m' : (forall p, Q p -> Q' p) -> kept Q m m' -> kept Q' m m'.
Proof. intros Hs H x Hx. apply H. intros p Hp. by apply Hx, Hs. Qed.

(** A page that the address space does not use. *)
Definition spare (m : mem) (root : Z) (own : gmap Z node) (p : Z) : Prop :=
  p mod PGSIZE = 0 /\ own !! p = None /\
  forall va, 0 <= va < MAXVA -> present (ms_ram m) root va = true -> frame (ms_ram m) root va <> p.

Lemma frame_aligned ram root va : frame ram root va mod PGSIZE = 0.
Proof. apply PTE2PA_aligned. Qed.

Lemma kept_page Q m m' p :
  kept Q m m' -> p mod PGSIZE = 0 -> (forall q, Q q -> q mod PGSIZE = 0 /\ q <> p) -> same_bytes PGSIZE p (ms_ram m) (ms_ram m').
Proof.
  intros K Hp Hq x Hx. apply K. intros q HQ. destruct (Hq q HQ) as [Hal Hne].
  destruct (page_or q x) as [|Hx']; [done|]. exfalso. by apply (pages_disjoint q p x).
Qed.

Section Kept.
Context {m m' : mem} {root : Z} {own : gmap Z node} {free : list Z} {Q : Z -> Prop}.
Context (A : aspace m root own free) (K : kept Q m m').
Context (HQ : forall p, Q p -> p mod PGSIZE = 0 /\ own !! p = None).

Lemma spared_table p : is_Some (own !! p) -> same_bytes PGSIZE p (ms_ram m) (ms_ram m').
Proof using All.
  intros Hp. apply (kept_page Q); [done| |].
  - destruct Hp as [n Hn]. by apply (pw_page _ _ _ _ (pt_tree _ _ _ _ (as_pt _ _ _ _ A))) in Hn as (? & _).
  - intros q H. destruct (HQ q H) as (H1 & H2). split; [done|]. intros ->. rewrite H2 in Hp. by destruct Hp.
Qed.

Lemma kept_get va : pt_get (ms_ram m') root va = pt_get (ms_ram m) root va.
Proof using All. apply (get_spared (pt_tree _ _ _ _ (as_pt _ _ _ _ A)) spared_table). Qed.

Lemma kept_frame va : (forall p, Q p -> frame (ms_ram m) root va <> p) ->
  same_bytes PGSIZE (frame (ms_ram m) root va) (ms_ram m) (ms_ram m').
Proof using K HQ.
  intros Hf. apply (kept_page Q); [done|apply frame_aligned|]. intros q H. destruct (HQ q H) as (H1 & _).
  split; [done|]. intros ->. by apply (Hf _ H).
Qed.

Lemma kept_ubyte va : (forall p, Q p -> present (ms_ram m) root va = true -> frame (ms_ram m) root va <> p) ->
  ubyte (ms_ram m') root va = ubyte (ms_ram m) root va.
Proof using All.
  intros Hf. apply ubyte_ext; [apply kept_get|]. intros pa. unfold upage.
  destruct (has (pt_get (ms_ram m) root va) PTE_V) eqn:Ev; [|done]. destruct (has _ PTE_U); [|done].
  intros [= <-]. apply kept_frame. intros p Hp. by apply Hf.
Qed.

Lemma kept_aspace free' : kmem_ready m' -> kmem_ok m' free' -> (forall p, p ∈ free' -> spare m root own p) ->
  aspace m' root own free'.
Proof using All.
  intros Hr Hk Hf. pose proof A as [[_ _ Hwf] Hpg Hinj]. split.
  - split; [done..|]. apply (wf_spared Hwf spared_table). intros p Hp Hin. destruct (Hf p Hin) as (_ & E & _).
    rewrite E in Hp. by destruct Hp.
  - intros va Hva. unfold present, frame. rewrite kept_get. intros Hp. destruct (Hpg va Hva Hp) as (H1 & H2 & _).
    split; [done|]. split; [done|]. intros Hin. by destruct (Hf _ Hin) as (_ & _ & H); destruct (H va Hva Hp).
  - intros va va' Hva Hva'. unfold present, frame. rewrite !kept_get. by apply Hinj.
Qed.
End Kept.

Lemma kept_pspace {m m' root own free free' sz tf} {Q : Z -> Prop} :
  pspace m root own free sz tf -> kept Q m m' -> (forall p, Q p -> p mod PGSIZE = 0 /\ own !! p = None) ->
  kmem_ready m' -> kmem_ok m' free' -> m_ld (ms_hw m') = m_ld (ms_hw m) -> (forall p, p ∈ free' -> spare m root own p) ->
  pspace m' root own free' sz tf.
Proof.
  intros [A Hown Hsz Huser Hin Htf Htok] K HQ Hr Hk Hld Hf. pose proof (kept_get A K HQ) as Hg.
  split.
  - by apply (kept_aspace A K HQ).
  - intros p Hp. rewrite Hld. by apply Hown.
  - done.
  - intros va Hva. unfold present, frame. rewrite Hg, Hld. by apply Huser.
  - intros va Hva. unfold present. rewrite Hg. by apply Hin.
  - unfold present, frame. by rewrite Hg.
  - by rewrite Hld.
Qed.

(** Free pages are spare. *)
Lemma free_spare m root own free p : aspace m root own free -> p ∈ free -> spare m root own p.
Proof.
  intros [[_ Hk Hwf] Hpg _] Hp. pose proof (ko_pages _ _ Hk) as Hf. rewrite Forall_forall in Hf.
  split; [by apply Hf|]. split.
  - destruct (own !! p) as [n|] eqn:E; [|done]. by apply (pw_page _ _ _ _ Hwf) in E as (_ & _ & ?).
  - intros va Hva Hpr <-. by apply (Hpg va Hva Hpr).
Qed.

(** * Building a page table *)

Lemma map_one m root own free va pa perm :
  pt_state m root own free -> touch (ms_hw m) = ms_hw m -> va mod PGSIZE = 0 -> 0 <= va < MAXVA ->
  0 <= pa -> pa + PGSIZE <= 2 ^ 56 -> 0 <= perm < 2 ^ 10 -> present (ms_ram m) root va = false ->
  exists r m' own' free', mappages root va PGSIZE pa perm m = Ret r m' /\ pt_state m' root own' free' /\ ms_hw m' = ms_hw m /\
    (forall p, is_Some (own' !! p) \/ p ∈ free' <-> is_Some (own !! p) \/ p ∈ free) /\
    kept (fun p => is_Some (own !! p) \/ p ∈ free) m m' /\
    (r = 0 /\ (forall x, 0 <= x < MAXVA ->
       pt_get (ms_ram m') root x = if same_page va x then leaf_pte pa perm else pt_get (ms_ram m) root x) \/
     r = -1 /\ (forall x, 0 <= x < MAXVA -> pt_get (ms_ram m') root x = pt_get (ms_ram m) root x)).
Proof.
  intros Hpt Ht Hal Hva Hpa Hpe Hperm Hun.
  destruct (mappages_page m root own free va pa perm Hpt Hal Hva Hpa Hpe Hperm Hun) as (r & k & m' & own' & free' & E & Hpt' & Hg & Hm & Hr).
  exists r, m', own', free'. split; [done|]. split; [done|]. split; [by apply (pg_hw _ _ _ _ _ _ Hg)|].
  split; [apply (pg_pages _ _ _ _ _ _ Hg)|]. split; [exact (pg_frame _ _ _ _ _ _ Hg)|].
  destruct Hr as [[-> ->]|(-> & -> & _)]; [left|right]; (split; [done|]); intros x Hx; change MAXVA with (2 ^ 38) in Hx; rewrite Hm by lia.
  - rewrite same_page_aligned by done. replace (va + Z.of_nat 1 * PGSIZE) with (va + PGSIZE) by lia.
    destruct (_ && _) eqn:Ex; [|done]. by rewrite map_page_first by (done || lia).
  - unfold PGSIZE. zbool; done.
Qed.

(** A page of zeros is an empty table. *)
Lemma empty_table m a free :
  kmem_ready m -> kmem_ok m free -> a mod PGSIZE = 0 -> 0 < a < PHYSTOP -> a ∉ free ->
  (forall x, a <= x < a + PGSIZE -> rd8 (ms_ram m) x = 0) ->
  pt_state m a {[ a := NRoot ]} free /\ forall va, pt_get (ms_ram m) a va = 0.
Proof.
  intros Hr Hk Hal Ha Hni Hz.
  assert (forall i, 0 <= i < 512 -> ent (ms_ram m) a i = 0) as He.
  { intros i Hi. apply rd64_zero. intros x Hx. apply Hz. unfold PGSIZE. lia. }
  assert (forall i, 0 <= i < 512 -> pt_step (ms_ram m) a i = None) as Hs.
  { intros i Hi. unfold pt_step. by rewrite He, has_0 by done. }
  split.
  - split; [done..|]. split.
    + by apply lookup_singleton_eq.
    + by intros p [<- _]%lookup_singleton_Some.
    + intros i q Hi. by rewrite Hs.
    + by intros p i j q [_ ?]%lookup_singleton_Some.
    + by intros p n [<- _]%lookup_singleton_Some.
    + by intros p n [_ <-]%lookup_singleton_Some.
    + intros p n i q [<- _]%lookup_singleton_Some _ Hi. by rewrite Hs.
  - intros va. rewrite pt_get_eq, Hs; [done|]. by apply PX_bounds.
Qed.

Lemma uvmcreate_spec m free :
  kmem_ready m -> kmem_ok m free -> touch (ms_hw m) = ms_hw m ->
  match free with
  | [] => uvmcreate m = Ret 0 m
  | a :: free1 => exists m', uvmcreate m = Ret a m' /\ a <> 0 /\ pt_state m' a {[ a := NRoot ]} free1 /\ ms_hw m' = ms_hw m /\
      (forall va, pt_get (ms_ram m') a va = 0) /\ kept (fun p => p ∈ free) m m'
  end.
Proof.
  intros Hr Hk Ht. destruct (kalloc_spec m free Hr Hk) as (a & m1 & E & Hr1 & Hld & H). unfold uvmcreate.
  pose proof (kalloc_hw m a m1 Hr E) as Hh. rewrite Ht in Hh. destruct free as [|b free1].
  - destruct H as [-> ->]. kstep E. cbn. f_equal. unfold touch_mem. rewrite Ht. by destruct m.
  - destruct H as (-> & Hne & Hok & Hk1 & Hni & _ & Hx). pose proof Hok as (Hal & Hlo & Hhi).
    pose proof (ko_end _ _ Hk) as Hend. set (m2 := with_ram (memset (ms_ram m1) b 0 PGSIZE) m1).
    assert (forall x, rd8 (ms_ram m2) x = if (b <=? x) && (x <? b + PGSIZE) then 0 else rd8 (ms_ram m1) x) as Hm2
      by (intros x; apply (rd8_memset (ms_ram m1)); done).
    assert (kmem_ok m2 free1) as Hk2.
    { apply (kmem_ok_ext m1); [done..|apply bytes_ok_memset; [apply Hk1|done]|]. intros c Hc.
      pose proof (ko_pages _ _ Hk1) as Hpg. rewrite Forall_forall in Hpg. destruct (Hpg c Hc) as (Hcm & _).
      apply (rd64_other_page _ _ b); [done|done|by intros ->|]. intros x Hxo. rewrite Hm2. zbool; done. }
    destruct (empty_table m2 b free1 Hr1 Hk2 Hal ltac:(lia) Hni) as [Hpt Hg].
    { intros x Hxi. rewrite Hm2. zbool; done. }
    exists m2. split; [kstep E; rewrite (proj2 (Z.eqb_neq _ _)) by done; by kstep eq_refl|].
    split; [done|]. split; [done|]. split; [done|]. split; [done|]. intros x Hxo. rewrite Hm2.
    pose proof (Hxo b (list_elem_of_here _ _)) as Hb. rewrite <- Hx by done. zbool; done.
Qed.

Lemma uvmfree_empty m root own free :
  pt_state m root own free -> touch (ms_hw m) = ms_hw m -> owned_ok m own ->
  (forall va, 0 <= va < MAXVA -> present (ms_ram m) root va = false) ->
  exists m' free', uvmfree root 0 m = Ret tt m' /\ returned_pages m m' free free' (fun p => is_Some (own !! p)).
Proof.
  intros Hpt Ht Hok He. destruct (freewalk_empty m root own free Hpt Ht Hok He) as (m' & free' & E & R).
  exists m', free'. split; [|done]. unfold uvmfree. by kstep eq_refl.
Qed.

(** * The page table of a new process *)

Lemma lift_mem {A} (c : M mem A) s a m' : c (ps_mem s) = Ret a m' -> lift c s = Ret a (with_mem m' s).
Proof. intros E. exact (lift_Ret c s a m' E). Qed.

(** The page of trampoline.S in the kernel's text. *)
Definition tramp_ok (ld : layout) : Prop :=
  ld_trampoline ld mod PGSIZE = 0 /\ 0 < ld_trampoline ld < ld_end ld.

(** The entries of a table without user memory. *)
Definition trap_entries (ram : gmap Z Z) (root tramp tf : Z) : Prop :=
  forall x, 0 <= x < MAXVA -> pt_get ram root x =
    if same_page TRAPFRAME x then leaf_pte tf (Z.lor PTE_R PTE_W)
    else if same_page TRAMPOLINE x then leaf_pte tramp (Z.lor PTE_R PTE_X) else 0.

Lemma trap_space m root own free tramp tf :
  pt_state m root own free -> owned_ok m own -> tramp_ok (m_ld (ms_hw m)) -> tramp = ld_trampoline (m_ld (ms_hw m)) ->
  page_ok (m_ld (ms_hw m)) tf -> own !! tf = None -> tf ∉ free ->
  trap_entries (ms_ram m) root tramp tf -> pspace m root own free 0 tf.
Proof.
  intros Hpt Hown [Ht1 Ht2] -> Htf Ho Hf He. set (tramp := ld_trampoline _) in *. pose proof Htf as (Htf1 & Htf2).
  destruct trap_pages as (T1 & T2 & T3 & T4 & T5).
  assert (PHYSTOP < 2 ^ 56) by done.
  assert (PTE2PA (leaf_pte tf (Z.lor PTE_R PTE_W)) = tf) as Ef by (by apply leaf_pte_page; [lia| |]).
  assert (PTE2PA (leaf_pte tramp (Z.lor PTE_R PTE_X)) = tramp) as Er by (by apply leaf_pte_page; [lia| |]).
  assert (forall p, is_Some (own !! p) \/ p ∈ free -> page_ok (m_ld (ms_hw m)) p) as Hpok.
  { intros p [Hp|Hp]; [by apply Hown|]. pose proof (ko_pages _ _ (pt_kmem _ _ _ _ Hpt)) as Hpg. rewrite Forall_forall in Hpg. by apply Hpg. }
  assert (own !! tramp = None /\ tramp ∉ free) as [Hto Htn].
  { assert (~ (is_Some (own !! tramp) \/ tramp ∈ free)) as Hn by (intros Hp; destruct (Hpok _ Hp) as (_ & ? & _); lia).
    split; [destruct (own !! tramp); [exfalso; apply Hn; eauto|done]|tauto]. }
  assert (forall x, 0 <= x < MAXVA -> present (ms_ram m) root x = true ->
    same_page TRAPFRAME x = true /\ frame (ms_ram m) root x = tf \/ same_page TRAMPOLINE x = true /\ frame (ms_ram m) root x = tramp) as Hp.
  { intros x Hx. unfold present, frame. rewrite He by done. destruct (same_page TRAPFRAME x); [rewrite Ef; by left|].
    destruct (same_page TRAMPOLINE x); [rewrite Er; by right|]. by rewrite has_0. }
  pose proof (ko_end _ _ (pt_kmem _ _ _ _ Hpt)) as Hend.
  split; [|done|split; [done|vm_compute; congruence]|intros x Hx; change (PGROUNDUP 0) with 0 in Hx; lia| | |done].
  - split; [done| |].
    + intros x Hx Hpr. destruct (Hp x Hx Hpr) as [[_ ->]|[_ ->]]; (split; [lia|done]).
    + intros x y Hx Hy Hpx Hpy. destruct (Hp x Hx Hpx) as [[S1 ->]|[S1 ->]], (Hp y Hy Hpy) as [[S2 ->]|[S2 ->]]; intros E;
        [unfold same_page in *; lia|lia|lia|unfold same_page in *; lia].
  - intros x Hx Hpr. destruct (Hp x Hx Hpr) as [[S _]|[S _]]; tauto.
  - unfold present, frame. rewrite He by done. assert (same_page TRAPFRAME TRAPFRAME = true) as -> by done.
    split; [|done]. by apply leaf_pte_valid.
Qed.

(** [free'] has the pages of [free]; only their bytes changed. *)
Definition same_heap (m m' : mem) (free free' : list Z) : Prop :=
  kmem_ready m' /\ kmem_ok m' free' /\ ms_hw m' = ms_hw m /\ (forall p, p ∈ free' <-> p ∈ free) /\ kept (fun p => p ∈ free) m m'.

Lemma give_up_table m m1 root own free free1 :
  kept (fun p => p ∈ free) m m1 -> ms_hw m1 = ms_hw m -> touch (ms_hw m) = ms_hw m -> kmem_ok m free ->
  pt_state m1 root own free1 -> (forall p, is_Some (own !! p) \/ p ∈ free1 <-> p ∈ free) ->
  (forall va, 0 <= va < MAXVA -> present (ms_ram m1) root va = false) ->
  exists m' free', uvmfree root 0 m1 = Ret tt m' /\ same_heap m m' free free'.
Proof.
  intros K Hh Ht Hk Hpt Hpages He.
  destruct (uvmfree_empty m1 root own free1 Hpt) as (m' & free' & E & [R1 R2 R3 R4 R5]); [by rewrite Hh| |done|].
  { intros p Hp. rewrite Hh. pose proof (ko_pages _ _ Hk) as Hpg. rewrite Forall_forall in Hpg. apply Hpg, Hpages. by left. }
  exists m', free'. split; [done|]. split; [done|]. split; [done|]. split; [congruence|]. split.
  - intros p. rewrite R4, <- Hpages. tauto.
  - apply (kept_trans _ m m1); [done|]. intros x Hx. apply R5. intros p Hp. apply Hx, Hpages. tauto.
Qed.

Lemma proc_pagetable_spec p s free tf :
  kmem_ready (ps_mem s) -> kmem_ok (ps_mem s) free -> touch (hw s) = hw s -> tramp_ok (m_ld (hw s)) ->
  p_trapframe (ps_proc s !!! p) = tf -> page_ok (m_ld (hw s)) tf -> tf ∉ free ->
  exists r m' own free', proc_pagetable p s = Ret r (with_mem m' s) /\
    (r <> 0 /\ ms_hw m' = hw s /\ kept (fun p => p ∈ free) (ps_mem s) m' /\ pspace m' r own free' 0 tf /\
       (forall p, is_Some (own !! p) \/ p ∈ free' <-> p ∈ free) \/
     r = 0 /\ same_heap (ps_mem s) m' free free').
Proof.
  intros Hr Hk Ht Htr Htf Hok Hni. pose proof Htr as [Htr1 Htr2]. pose proof Hok as (Hok1 & Hok2 & Hok3).
  destruct trap_pages as (T1 & T2 & T3 & T4 & T5). assert (PHYSTOP + PGSIZE <= 2 ^ 56) as Hphys by done.
  pose proof (uvmcreate_spec (ps_mem s) free Hr Hk Ht) as H1. destruct free as [|a free0]; unfold proc_pagetable.
  { exists 0, (ps_mem s), ∅, []. kstep (lift_mem _ _ _ _ H1). split; [done|]. right. by split. }
  set (free := a :: free0) in *. destruct H1 as (m1 & E1 & Ha & Hpt1 & Hh1 & Hg1 & K1). kstep (lift_mem _ _ _ _ E1).
  rewrite (proj2 (Z.eqb_neq _ _) Ha). kstep eq_refl.
  assert (m_ld (hw (with_mem m1 s)) = m_ld (hw s)) as -> by (unfold hw; cbn; by rewrite Hh1).
  assert (forall p, is_Some (({[a := NRoot]} : gmap Z node) !! p) \/ p ∈ free0 <-> p ∈ free) as Hp1.
  { intros q. rewrite lookup_singleton_is_Some. unfold free. rewrite elem_of_cons. naive_solver. }
  assert (forall (own1 : gmap Z node) (free1 : list Z) m', (forall q, is_Some (own1 !! q) \/ q ∈ free1 <-> q ∈ free) -> ms_hw m' = hw s -> owned_ok m' own1) as Hown.
  { intros own1 free1 m' Hq Hh q Hs. rewrite Hh. pose proof (ko_pages _ _ Hk) as Hpg. rewrite Forall_forall in Hpg. apply Hpg, Hq. by left. }
  destruct (map_one m1 a {[a := NRoot]} free0 TRAMPOLINE (ld_trampoline (m_ld (hw s))) (Z.lor PTE_R PTE_X) Hpt1) as
    (r2 & m2 & own2 & free2 & E2 & Hpt2 & Hh2 & Hp2 & K2 & Hr2);
    [by rewrite Hh1|done|done|lia|lia|done|unfold present; by rewrite Hg1, has_0|].
  kstep (lift_mem _ (with_mem m1 s) _ _ E2).
  assert (forall q, is_Some (own2 !! q) \/ q ∈ free2 <-> q ∈ free) as Hq2 by (intros q; by rewrite Hp2, Hp1).
  assert (kept (fun q => q ∈ free) (ps_mem s) m2) as K02.
  { apply (kept_trans _ _ m1); [done|]. apply (kept_sub _ _ _ _ (fun q => proj1 (Hp1 q)) K2). }
  destruct Hr2 as [[-> Hg2]|[-> Hg2]]; cbn [Z.ltb Z.compare].
  2: { destruct (give_up_table (ps_mem s) m2 a own2 free free2) as (m' & free' & E & Hs); [done|congruence|done|done|done|done|..].
       { intros va Hva. unfold present. by rewrite Hg2, Hg1, has_0 by done. }
       exists 0, m', own2, free'. split; [by kstep (lift_mem _ (with_mem m2 (with_mem m1 s)) _ _ E)|]. by right. }
  assert (same_page TRAMPOLINE TRAPFRAME = false) as Hsp by done.
  kstep eq_refl. change (ps_proc (with_mem m2 (with_mem m1 s))) with (ps_proc s). rewrite Htf.
  destruct (map_one m2 a own2 free2 TRAPFRAME tf (Z.lor PTE_R PTE_W) Hpt2) as (r3 & m3 & own3 & free3 & E3 & Hpt3 & Hh3 & Hp3 & K3 & Hr3);
    [by rewrite Hh2, Hh1|done|done|lia|lia|done|unfold present; by rewrite Hg2, Hsp, Hg1, has_0 by done|].
  kstep (lift_mem _ (with_mem m2 (with_mem m1 s)) _ _ E3).
  assert (forall q, is_Some (own3 !! q) \/ q ∈ free3 <-> q ∈ free) as Hq3 by (intros q; by rewrite Hp3, Hq2).
  assert (kept (fun q => q ∈ free) (ps_mem s) m3) as K03.
  { apply (kept_trans _ _ m2); [done|]. apply (kept_sub _ _ _ _ (fun q => proj1 (Hq2 q)) K3). }
  assert (ms_hw m3 = hw s) as Hh by (unfold hw; congruence).
  destruct Hr3 as [[-> Hg3]|[-> Hg3]]; cbn [Z.ltb Z.compare].
  - exists a, m3, own3, free3. split; [done|]. left. split; [done|]. split; [done|]. split; [done|]. split; [|done].
    assert (~ (is_Some (own3 !! tf) \/ tf ∈ free3)) as Hnt by (by rewrite Hq3).
    apply (trap_space m3 a own3 free3 (ld_trampoline (m_ld (hw s))) tf); rewrite ?Hh; try done.
    + by apply (Hown own3 free3).
    + destruct (own3 !! tf); [exfalso; apply Hnt; eauto|done].
    + tauto.
    + intros x Hx. by rewrite Hg3, Hg2, Hg1 by done.
  - destruct (uvmunmap_keep m3 a own3 free3 TRAMPOLINE Hpt3 T3 T4) as (m4 & E4 & Hpt4 & Hh4 & Hg4 & K4).
    kstep (lift_mem _ (with_mem m3 (with_mem m2 (with_mem m1 s))) _ _ E4).
    destruct (give_up_table (ps_mem s) m4 a own3 free free3) as (m' & free' & E & Hs); [|unfold hw in Hh; congruence|done|done|done|done|..].
    { apply (kept_trans _ _ m3); [done|]. intros x Hx. apply K4. intros q Hq. apply Hx, Hq3. by left. }
    { intros va Hva. specialize (Hg4 va Hva). specialize (Hg3 va Hva). specialize (Hg2 va Hva). destruct (same_page TRAMPOLINE va); [done|].
      unfold present. by rewrite Hg4, Hg3, Hg2, Hg1, has_0. }
    exists 0, m', own3, free'. split; [by kstep (lift_mem _ (with_mem m4 s) _ _ E)|]. by right.
Qed.

(** * Freeing a slot *)

(** What [freeproc] leaves of a slot. *)
Definition freed (q : proc) : proc :=
  Proc UNUSED ChNull 0 0 0 None (p_kstack q) 0 0 0 (p_context q) (p_ofile q) (p_cwd q) (<[0%nat := 0]> (p_name q))
    0 0 0 0 0 (p_time_left q) 0 0 0 0 0.

Lemma freeproc_run p s m1 m2 :
  let q := ps_proc s !!! p in
  (if p_trapframe q =? 0 then m1 = ps_mem s else kfree (p_trapframe q) (ps_mem s) = Ret tt m1) ->
  (if p_pagetable q =? 0 then m2 = m1 else proc_freepagetable (p_pagetable q) (p_sz q) m1 = Ret tt m2) ->
  freeproc p s = Ret tt (with_mem m2 (upd p freed s)).
Proof.
  intros q H1 H2. unfold freeproc. kstep eq_refl. fold q.
  assert (when (negb (p_trapframe q =? 0)) (lift (kfree (p_trapframe q))) s = Ret tt (with_mem m1 s)) as E1.
  { revert H1. destruct (p_trapframe q =? 0); cbn [negb when]; intros H1; [subst m1; by destruct s|]. exact (lift_mem _ _ _ _ H1). }
  kstep E1. kstep (modp_eq p (set_trapframe 0) _).
  assert (forall s1, ps_mem s1 = m1 -> when (negb (p_pagetable q =? 0)) (lift (proc_freepagetable (p_pagetable q) (p_sz q))) s1 =
    Ret tt (with_mem m2 s1)) as E2.
  { intros s1 Hs. revert H2. destruct (p_pagetable q =? 0); cbn [negb when]; intros H2; [rewrite H2, <- Hs; by destruct s1|]. apply lift_mem. by rewrite Hs. }
  kstep (E2 (upd p (set_trapframe 0) (with_mem m1 s)) eq_refl). do 18 (kstep modp_eq). rewrite modp_eq. f_equal.
  change (upd p (set_trapframe 0) (with_mem m1 s)) with (with_mem m1 (upd p (set_trapframe 0) s)).
  change (with_mem m2 (with_mem m1 ?s)) with (with_mem m2 s).
  assert (forall f s1, upd p f (with_mem m2 s1) = with_mem m2 (upd p f s1)) as Hc by done.
  rewrite !Hc, !upd_upd. done.
Qed.

Lemma root_pos m root own free sz tf : pspace m root own free sz tf -> 0 < root /\ 0 < tf.
Proof.
  intros [A _ _ _ _ [Hp Hf] _]. split.
  - pose proof (pt_tree _ _ _ _ (as_pt _ _ _ _ A)) as Hwf. by destruct (pw_page _ _ _ _ Hwf root NRoot (pw_root _ _ _ _ Hwf)) as (_ & [? _] & _).
  - subst tf. apply (as_page _ _ _ _ A TRAPFRAME); [apply trap_pages|done].
Qed.

(** The pages of a process. *)
Definition proc_pages (m : mem) (root : Z) (own : gmap Z node) (sz tf p : Z) : Prop :=
  p = tf \/ is_Some (own !! p) \/
  exists va, 0 <= va < PGROUNDUP sz /\ present (ms_ram m) root va = true /\ frame (ms_ram m) root va = p.

Lemma freeproc_spec p s own free :
  let q := ps_proc s !!! p in
  pspace (ps_mem s) (p_pagetable q) own free (p_sz q) (p_trapframe q) -> touch (hw s) = hw s ->
  exists m' free', freeproc p s = Ret tt (with_mem m' (upd p freed s)) /\
    returned_pages (ps_mem s) m' free free' (proc_pages (ps_mem s) (p_pagetable q) own (p_sz q) (p_trapframe q)).
Proof.
  intros q P Ht. destruct (root_pos _ _ _ _ _ _ P) as [H1 H2].
  destruct (free_space _ _ _ _ _ _ P Ht) as (m1 & m' & free' & E1 & E2 & R).
  exists m', free'. split; [|done]. apply (freeproc_run p s m1 m'); fold q; by rewrite (proj2 (Z.eqb_neq _ _)) by lia.
Qed.

(** * Inside the critical section of a slot *)

Lemma hart_acq lk s : hart_ok (hw s) -> lock_free lk (hw s) -> acq lk s = Ret tt (inside lk s).
Proof. intros. by apply acq_free. Qed.

Lemma hart_rel lk s : hart_ok (hw s) -> touch (hw s) = hw s -> lock_free lk (hw s) -> rel lk (inside lk s) = Ret tt s.
Proof.
  intros Hh Ht Hf. replace s with (touched s) at 2 by (unfold touched; rewrite Ht; apply with_machine_id). by apply critical.
Qed.

Lemma allocpid_eq s : hart_ok (hw s) -> touch (hw s) = hw s -> lock_free PidLock (hw s) ->
  allocpid s = Ret (ps_nextpid s) (with_nextpid (s32 (ps_nextpid s + 1)) s).
Proof.
  intros Hh Ht Hf. unfold allocpid. kstep (hart_acq PidLock s Hh Hf). kstep eq_refl. kstep eq_refl.
  by kstep (hart_rel PidLock (with_nextpid (s32 (ps_nextpid s + 1)) s) Hh Ht Hf).
Qed.

(** The memory inside and outside of the critical section. *)
Lemma inside_mem lk s m : ms_hw m = acquired lk (hw s) -> with_mem m (inside lk s) = inside lk (with_mem (with_hw (hw s) m) s).
Proof. intros E. destruct m as [h r f k], s as [m0 ps i n t sl]. cbn in E. by subst h. Qed.

(** * Taking a slot *)

(** A read of the timer. *)
Definition tick (m : machine) : machine := with_now (S (m_now m)) m.
Definition clock (m : machine) : Z := u64 (m_rdtime m (m_now m)).

(** What [allocproc] makes of a slot. *)
Definition born (pid tf root t : Z) (ld : layout) (q : proc) : proc :=
  Proc USED (p_chan q) (p_killed q) (p_xstate q) pid (p_parent q) (p_kstack q) (p_sz q) root tf
    (Context (ld_forkret ld) (p_kstack q + PGSIZE) (ctx_s zero_context)) (p_ofile q) (p_cwd q) (p_name q)
    t 0 0 0 0 0 0 0 0 (quantum 0) 0.

(** The hart does not matter to the pages. *)
Lemma kmem_ok_hw h m free : m_ld h = m_ld (ms_hw m) -> kmem_ok m free -> kmem_ok (with_hw h m) free.
Proof. intros Hl Hk. by apply (kmem_ok_ext m); [..|apply Hk|]. Qed.

Lemma pspace_hw h m root own free sz tf :
  m_ld h = m_ld (ms_hw m) -> hart_ok h -> lock_free KmemLock h -> pspace m root own free sz tf -> pspace (with_hw h m) root own free sz tf.
Proof.
  intros Hl H1 H2 P. apply (kept_pspace (Q := fun _ => False) P); [done|done|by split| |done|].
  - apply kmem_ok_hw; [done|]. apply P.
  - intros p Hp. apply (free_spare _ _ _ free); [apply P|done].
Qed.

Lemma same_heap_hw h m m' free free' :
  m_ld h = m_ld (ms_hw m) -> kmem_ready m -> same_heap (with_hw h m) m' free free' ->
  same_heap m (with_hw (ms_hw m) m') free free'.
Proof.
  intros Hl Hr (_ & Hk & Hh & Hp & K). split; [done|]. split; [|done].
  apply kmem_ok_hw; [|done]. rewrite Hh. done.
Qed.

(** The slot is given up again. *)
Lemma allocproc_undo i s m free free1 :
  hart_ok (hw s) -> touch (hw s) = hw s -> lock_free (ProcLock i) (hw s) -> lock_free KmemLock (hw s) ->
  (i < length (ps_proc s))%nat -> p_pagetable (ps_proc s !!! i) = 0 -> kmem_ok (ps_mem s) free ->
  let tf := p_trapframe (ps_proc s !!! i) in
  kept (fun p => p ∈ free) (ps_mem s) m -> ms_hw m = acquired (ProcLock i) (hw s) -> kmem_ok m free1 ->
  (if tf =? 0 then forall p, p ∈ free1 <-> p ∈ free
   else page_ok (m_ld (hw s)) tf /\ (tf ∉ free1) /\ forall p, p ∈ free <-> p = tf \/ p ∈ free1) ->
  exists m' free', (freeproc i ;; rel (ProcLock i) ;; ret None) (with_mem m (inside (ProcLock i) s)) =
      Ret (None : option nat) (with_mem m' (upd i freed s)) /\ same_heap (ps_mem s) m' free free'.
Proof.
  intros Hh Ht Hl Hlk Hi Hpt Hk tf K Hm Hk1 Htf. set (h := acquired (ProcLock i) (hw s)) in *.
  assert (kmem_ready (with_hw h (ps_mem s))) as Hr.
  { split; [by apply acquired_hart_ok|]. destruct Hlk as [nm E]. exists nm. etransitivity; [|exact E]. by apply acquired_other. }
  assert (forall m2 free2, freeproc i (with_mem m (inside (ProcLock i) s)) = Ret tt (with_mem m2 (upd i freed (inside (ProcLock i) s))) ->
    same_heap (with_hw h (ps_mem s)) m2 free free2 ->
    exists m' free', (freeproc i ;; rel (ProcLock i) ;; ret None) (with_mem m (inside (ProcLock i) s)) =
      Ret (None : option nat) (with_mem m' (upd i freed s)) /\ same_heap (ps_mem s) m' free free') as Hend.
  { intros m2 free2 E S. pose proof S as (_ & _ & Hh2 & _). exists (with_hw (hw s) m2), free2. split.
    - kstep E. change (upd i freed (inside (ProcLock i) s)) with (inside (ProcLock i) (upd i freed s)). rewrite inside_mem by exact Hh2.
      by kstep (hart_rel (ProcLock i) (with_mem (with_hw (hw s) m2) (upd i freed s))) by done.
    - by apply (same_heap_hw h). }
  destruct (Z.eqb_spec tf 0) as [E0|E0].
  - apply (Hend m free1); [|split; [|done]].
    + apply (freeproc_run i (with_mem m (inside (ProcLock i) s)) m m); cbn [with_mem inside with_machine ps_proc].
      * fold tf. by rewrite E0.
      * by rewrite Hpt.
    + by unfold kmem_ready; rewrite Hm.
  - destruct Htf as (Hok & Hni & Hp). assert (kmem_ready m) as Hrm by (unfold kmem_ready; by rewrite Hm).
    destruct (kfree_spec tf m free1 Hrm Hk1) as (m2 & E & Hr2 & Hk2 & _ & Hx); [by rewrite Hm|done|].
    apply (Hend m2 (tf :: free1)); [|split; [done|]; split; [done|]; split; [|split]].
    + apply (freeproc_run i (with_mem m (inside (ProcLock i) s)) m2 m2); cbn [with_mem inside with_machine ps_proc].
      * fold tf. by rewrite (proj2 (Z.eqb_neq _ _) E0).
      * by rewrite Hpt.
    + rewrite (kfree_hw tf m m2) by (done || by rewrite Hm). rewrite Hm. by apply touch_acquired.
    + intros p. rewrite elem_of_cons, Hp. done.
    + apply (kept_trans _ _ m); [done|]. intros x Hxo. apply Hx, Hxo, Hp. by left.
Qed.

(** The first free slot gets a pid, a trapframe and a page table, and is
    returned with its lock held; when there is no slot, or no memory for these,
    nothing is taken. *)
Lemma allocproc_spec me s free :
  calm me s -> kmem_ok (ps_mem s) free -> lock_free KmemLock (hw s) -> lock_free PidLock (hw s) -> tramp_ok (m_ld (hw s)) ->
  (forall i, (i < NPROC)%nat -> p_state (ps_proc s !!! i) = UNUSED -> p_pagetable (ps_proc s !!! i) = 0) ->
  match find_slot (is_state UNUSED) (seq 0 NPROC) s with
  | None => allocproc s = Ret None s
  | Some i =>
      let s1 := with_nextpid (s32 (ps_nextpid s + 1)) s in
      (exists tf root own m' free',
         allocproc s = Ret (Some i) (inside (ProcLock i) (with_mem m'
           (upd i (born (ps_nextpid s) tf root (clock (hw s)) (m_ld (hw s))) s1))) /\
         ms_hw m' = tick (hw s) /\ kept (fun p => p ∈ free) (ps_mem s) m' /\ pspace m' root own free' 0 tf /\
         (forall p, p = tf \/ is_Some (own !! p) \/ p ∈ free' <-> p ∈ free)) \/
      (exists m' free', allocproc s = Ret None (with_mem m' (upd i freed s1)) /\ same_heap (ps_mem s) m' free free')
  end.
Proof.
  intros Hc Hk Hlk Hlp Htr Hb. pose proof Hc as [C1 C2 C3 C4 C5]. pose proof (find_unused_eq me s Hc) as E.
  destruct (find_slot _ _ s) as [i|] eqn:Ef; unfold allocproc; [|by kstep E].
  destruct (find_slot_first _ _ _ _ Ef) as (Hi & Hst & _). apply bool_decide_eq_true_1 in Hst.
  cbn zeta. set (s1 := with_nextpid (s32 (ps_nextpid s + 1)) s). set (lk := ProcLock i) in *. set (h := acquired lk (hw s)).
  specialize (Hb i Hi Hst). assert (lock_free lk (hw s)) as Hl by by apply C4.
  assert (hart_ok h /\ touch h = h) as [Hhi Hti] by (split; [by apply acquired_hart_ok|by apply touch_acquired]).
  assert (forall lk', lk <> lk' -> lock_free lk' (hw s) -> lock_free lk' h) as Hlf.
  { intros lk' Hne [nm En]. exists nm. etransitivity; [|exact En]. by apply acquired_other. }
  kstep E. cbv beta iota. kstep (allocpid_eq (inside lk s) Hhi Hti (Hlf PidLock ltac:(done) Hlp)).
  do 2 kstep modp_eq. change (ps_nextpid (inside lk s)) with (ps_nextpid s).
  set (f0 := fun q => set_state USED (set_pid (ps_nextpid s) q)).
  set (mi := with_hw h (ps_mem s)).
  assert (kmem_ready mi) as Hrm by (split; [done|]; apply Hlf; done).
  assert (kmem_ok mi free) as Hki by by apply kmem_ok_hw.
  change (upd i (set_state USED) (upd i (set_pid (ps_nextpid s)) ?t)) with (upd i (set_state USED) (upd i (set_pid (ps_nextpid s)) t)).
  rewrite upd_upd. fold f0. change (with_nextpid _ (inside lk s)) with (inside lk s1).
  destruct (kalloc_spec mi free Hrm Hki) as (tf & m1 & E1 & Hr1 & _ & Hcase).
  assert (ms_hw m1 = h) as Hh1 by (rewrite (kalloc_hw mi tf m1 Hrm E1); exact Hti).
  kstep (lift_mem kalloc (upd i f0 (inside lk s1)) tf m1 E1). kstep modp_eq.
  set (f1 := fun q => set_trapframe tf (f0 q)).
  change (upd i (set_trapframe tf) (with_mem m1 (upd i f0 (inside lk s1)))) with (with_mem m1 (upd i (set_trapframe tf) (upd i f0 (inside lk s1)))).
  rewrite upd_upd. fold f1. change (with_mem m1 (upd i f1 (inside lk s1))) with (with_mem m1 (inside lk (upd i f1 s1))).
  assert (forall f, ps_proc (upd i f s1) !!! i = f (ps_proc s !!! i)) as Hat.
  { intros f. rewrite upd_at; [done|]. cbn. by rewrite C5. }
  assert (length (ps_proc (upd i f1 s1)) = NPROC) as Hlen by (by rewrite upd_length).
  assert (p_trapframe (ps_proc (upd i f1 s1) !!! i) = tf /\ p_pagetable (ps_proc (upd i f1 s1) !!! i) = 0) as [Htf1 Hpt1]
    by (rewrite Hat; by split).
  destruct free as [|a free1].
  { destruct Hcase as [-> ->]. cbn [Z.eqb]. right.
    destruct (allocproc_undo i (upd i f1 s1) (touch_mem mi) [] []) as (m' & free' & E2 & S); try done; rewrite ?Hlen, ?Htf1; try done; [by apply kmem_ok_touch|].
    exists m', free'. split; [|done]. etransitivity; [exact E2|]. do 2 f_equal. by rewrite upd_upd. }
  destruct Hcase as (-> & Hne & Hok & Hk1 & Hni & _ & Hx). rewrite (proj2 (Z.eqb_neq _ _) Hne).
  assert (kept (fun p => p ∈ a :: free1) mi m1) as K1 by (intros x Hxo; apply Hx, Hxo, list_elem_of_here).
  destruct (proc_pagetable_spec i (with_mem m1 (inside lk (upd i f1 s1))) free1 a) as (pt & m2 & own & free2 & E2 & Hr2);
    [done|done|unfold hw; cbn; by rewrite Hh1|unfold hw; cbn; by rewrite Hh1|done|unfold hw; cbn; by rewrite Hh1|done|].
  kstep E2. kstep modp_eq.
  set (f2 := fun q => set_pagetable pt (f1 q)).
  change (upd i (set_pagetable pt) (with_mem m2 (with_mem m1 (inside lk (upd i f1 s1))))) with (with_mem m2 (inside lk (upd i (set_pagetable pt) (upd i f1 s1)))).
  rewrite upd_upd. fold f2. unfold hw in Hr2. cbn [ps_mem with_mem] in Hr2. rewrite Hh1 in Hr2.
  destruct Hr2 as [(Hpt & Hh2 & K2 & P & Hp)|[-> (Hr2 & Hk2 & Hh2 & Hp & K2)]].
  - left. rewrite (proj2 (Z.eqb_neq _ _) Hpt). rewrite inside_mem by exact Hh2.
    set (h' := tick (hw s)). exists a, pt, own, (with_hw h' m2), free2. split; [|split; [done|]; split; [|split]].
    + kstep eq_refl. kstep modp_eq. set (fc := fun q => set_context _ q).
      assert (gettime (upd i fc (inside lk (with_mem (with_hw (hw (upd i f2 s1)) m2) (upd i f2 s1)))) =
        Ret (clock (hw s)) (upd i fc (upd i f2 (inside lk (with_mem (with_hw h' m2) s1))))) as Eg by done.
      kstep Eg. do 10 kstep modp_eq. kstep modp_eq. by rewrite !upd_upd.
    + apply (kept_trans _ _ m1); [done|]. apply (kept_sub (fun p => p ∈ free1)); [|done]. intros p ?. by apply list_elem_of_further.
    + apply pspace_hw; [by rewrite Hh2|done| |done]. done.
    + intros p. rewrite elem_of_cons, <- Hp. tauto.
  - right. cbn [Z.eqb].
    destruct (allocproc_undo i (upd i f2 s1) m2 (a :: free1) free2) as (m' & free' & E3 & S); rewrite ?Hat; try done.
    + cbn. by rewrite length_alter, C5.
    + apply (kept_trans _ _ m1); [done|]. apply (kept_sub (fun p => p ∈ free1)); [|done]. intros p ?. by apply list_elem_of_further.
    + by rewrite Hh2.
    + cbn [f2 f1 p_trapframe set_pagetable set_trapframe]. rewrite (proj2 (Z.eqb_neq _ _) Hne). split; [done|].
      split; [by rewrite Hp|]. intros p. by rewrite elem_of_cons, Hp.
    + exists m', free'. split; [|done]. etransitivity; [exact E3|]. do 2 f_equal. by rewrite upd_upd.
Qed.

(** * Copying the memory of a process *)

Lemma user_free m root own free sz tf : pspace m root own free 0 tf -> 0 <= sz <= TRAPFRAME ->
  forall x, 0 <= x < PGROUNDUP sz -> present (ms_ram m) root x = false.
Proof.
  intros P Hsz x Hx. destruct (user_not_trap sz x Hsz ltac:(lia)) as [N1 N2]. destruct (user_top sz Hsz) as [Ht _].
  destruct (present (ms_ram m) root x) eqn:E; [|done]. pose proof trap_pages.
  destruct (sp_in _ _ _ _ _ _ P x ltac:(lia) E) as [H0|[H0|H0]]; [change (PGROUNDUP 0) with 0 in H0; lia|congruence..].
Qed.

(** Memory that was promised but not touched yet. *)
Lemma pspace_lazy m root own free sz tf : pspace m root own free 0 tf -> 0 <= sz <= TRAPFRAME -> pspace m root own free sz tf.
Proof.
  intros P Hsz. pose proof (user_free _ _ _ _ sz _ P Hsz) as Hn. destruct P as [P1 P2 P3 P4 P5 P6 P7]. split; try done.
  - intros x Hx. by rewrite Hn.
  - intros x Hx Hp. right. destruct (P5 x Hx Hp) as [H0|?]; [change (PGROUNDUP 0) with 0 in H0; lia|done].
Qed.

Section Copy.
Context (m : mem) (root rootC sz tf tfC : Z) (own ownC : gmap Z node) (free : list Z).
Context (P : pspace m root own free sz tf) (PC : pspace m rootC ownC free 0 tfC) (Ht : touch (ms_hw m) = ms_hw m).
Context (Hdis : forall p, is_Some (ownC !! p) -> spare m root own p).

(** The child with the parent's memory. *)
Lemma grew_pspace m' own' free' :
  grew m ownC free rootC 0 (child_want m root) (child_content m root) m' own' free' (PGROUNDUP sz) ->
  pspace m' rootC own' free' sz tfC /\
  forall p, proc_pages m' rootC own' sz tfC p \/ p ∈ free' <-> p = tfC \/ is_Some (ownC !! p) \/ p ∈ free.
Proof using P PC.
  intros G. pose proof (sp_sz _ _ _ _ _ _ P) as Hsz. destruct (user_top sz Hsz) as [Htop _].
  destruct trap_pages as (T1 & T2 & T3 & T4 & T5). pose proof G as [G1 G2 G3 G4 G5 G6 G7].
  pose proof (sp_as _ _ _ _ _ _ PC) as A.
  assert (forall p, is_Some (ownC !! p) \/ p ∈ free -> page_ok (m_ld (ms_hw m)) p) as Hok.
  { intros p [Hp|Hp]; [by apply (sp_own _ _ _ _ _ _ PC)|].
    pose proof (ko_pages _ _ (pt_kmem _ _ _ _ (as_pt _ _ _ _ A))) as Hpg. rewrite Forall_forall in Hpg. by apply Hpg. }
  assert (forall x, PGROUNDUP sz <= x < MAXVA -> pt_get (ms_ram m') rootC x = pt_get (ms_ram m) rootC x) as Hout
    by (intros x Hx; apply G5; lia).
  split; [split|].
  - done.
  - intros p Hp. rewrite G2. apply Hok, G4. by left.
  - done.
  - intros x Hx Hp. rewrite G2. apply Hok, G4. eauto 10.
  - intros x Hx Hp. destruct (decide (x < PGROUNDUP sz)) as [|Hge]; [by left|]. right. unfold present in Hp. rewrite Hout in Hp by lia.
    destruct (sp_in _ _ _ _ _ _ PC x Hx Hp) as [H0|[|]]; [change (PGROUNDUP 0) with 0 in H0; lia|tauto..].
  - unfold present, frame. rewrite Hout by lia. apply (sp_tf _ _ _ _ _ _ PC).
  - rewrite G2. apply (sp_tfok _ _ _ _ _ _ PC).
  - intros p. unfold proc_pages. rewrite <- (G4 p). tauto.
Qed.

Lemma fork_copy :
  exists r m' own' free', uvmcopy root rootC sz m = Ret r m' /\ ms_hw m' = ms_hw m /\
    kept (fun p => is_Some (ownC !! p) \/ p ∈ free) m m' /\
    (r = 0 /\ pspace m' rootC own' free' sz tfC /\
       (forall p, proc_pages m' rootC own' sz tfC p \/ p ∈ free' <-> p = tfC \/ is_Some (ownC !! p) \/ p ∈ free) /\
       (forall x, 0 <= x < PGROUNDUP sz -> copied m root free m' rootC x) \/
     r = -1 /\ pspace m' rootC own' free' 0 tfC /\
       (forall p, is_Some (own' !! p) \/ p ∈ free' <-> is_Some (ownC !! p) \/ p ∈ free)).
Proof using All.
  pose proof (sp_sz _ _ _ _ _ _ P) as Hsz. destruct (user_top sz Hsz) as [Htop _]. destruct trap_pages as (T1 & T2 & T3 & T4 & T5).
  destruct (uvmcopy_spec m root rootC sz own ownC free) as (r & m' & own' & free' & E & Hin & Hr); try done.
  - apply PC.
  - apply P.
  - intros p Hp. destruct (ownC !! p) eqn:Eo; [|done]. destruct (Hdis p) as (_ & H & _); [eauto|]. rewrite H in Hp. by destruct Hp.
  - intros x Hx Hp. destruct (ownC !! frame (ms_ram m) root x) eqn:Eo; [|done].
    destruct (Hdis (frame (ms_ram m) root x)) as (_ & _ & H); [eauto|]. by destruct (H x Hx Hp).
  - lia.
  - exact (user_free _ _ _ _ _ _ PC Hsz).
  - exists r, m', own', free'. split; [done|]. destruct Hr as [[-> G]|(-> & (R1 & R2 & R3 & R4 & _) & _)].
    + split; [apply (gw_hw _ _ _ _ _ _ _ _ _ _ _ G)|]. split; [exact Hin|]. left. destruct (grew_pspace m' own' free' G).
      split; [done|]. split; [done|]. split; [done|]. intros x Hx.
      apply (grew_copied m root rootC ownC free m' own' free' (PGROUNDUP sz)); [apply PC|lia|done|done].
    + split; [done|]. split; [exact Hin|]. right. split; [done|]. split; [|done].
      pose proof (sp_as _ _ _ _ _ _ PC) as A.
      pose proof (ko_pages _ _ (pt_kmem _ _ _ _ (as_pt _ _ _ _ A))) as Hpg. rewrite Forall_forall in Hpg.
      destruct (sp_tf _ _ _ _ _ _ PC) as [Htp Htf]. split.
      * done.
      * intros p Hp. rewrite R2. destruct (proj1 (R3 p) (or_introl Hp)) as [?|?]; [by apply (sp_own _ _ _ _ _ _ PC)|by apply Hpg].
      * split; [done|]. vm_compute. congruence.
      * intros x Hx. change (PGROUNDUP 0) with 0 in Hx. lia.
      * intros x Hx Hp. apply (sp_in _ _ _ _ _ _ PC x Hx). destruct (R4 x Hx) as [<- _]. done.
      * destruct (R4 TRAPFRAME T1) as [R5 R6]. unfold frame. rewrite R6 by done. by rewrite R5.
      * rewrite R2. apply (sp_tfok _ _ _ _ _ _ PC).
Qed.
End Copy.

(** * The trapframe of a child *)

Lemma rd64_move r r' a b : (forall k, 0 <= k < 8 -> rd8 r' (b + k) = rd8 r (a + k)) -> rd64 r' b = rd64 r a.
Proof.
  intros H. Local Transparent rd64 load. unfold rd64.
  assert (forall n k, Z.of_nat n + k <= 8 -> 0 <= k -> load n r' (b + k) = load n r (a + k)) as Hn.
  { induction n as [|n IH]; intros k Hk H0; [done|].
    change (load (S n) ?r ?x) with (rd8 r x + 256 * load n r (x + 1)). rewrite H by lia.
    rewrite <- !Z.add_assoc, IH by lia. done. }
  rewrite <- (Z.add_0_r b), <- (Z.add_0_r a). by apply Hn.
Qed.
#[global] Opaque rd64 load.

Lemma tf_off_bound f : 0 <= tf_off f /\ tf_off f + 8 <= TF_size.
Proof. by destruct f. Qed.

Lemma tf_off_a0 f : f = TF_a0 \/ tf_off f + 8 <= tf_off TF_a0 \/ tf_off TF_a0 + 8 <= tf_off f.
Proof. destruct f; (by left) || (right; left; done) || (right; right; done). Qed.

(** The child's registers are the parent's, but for the 0 it gets from [fork]. *)
Definition child_reg (ram : gmap Z Z) (tf : Z) (f : trapframe) : Z :=
  match f with TF_a0 => 0 | _ => rd64 ram (tf + tf_off f) end.
Definition child_frame (tfC tf : Z) (ram : gmap Z Z) : gmap Z Z := wr64 (memmove ram tfC tf TF_size) (tfC + tf_off TF_a0) 0.

Lemma child_frame_regs ram tfC tf f : bytes_ok ram -> rd64 (child_frame tfC tf ram) (tfC + tf_off f) = child_reg ram tf f.
Proof.
  intros Hb. pose proof (tf_off_bound f) as Hf. unfold child_frame. destruct (tf_off_a0 f) as [->|Hne]; [by apply rd64_wr64_eq|].
  rewrite rd64_wr64_ne by lia. replace (child_reg ram tf f) with (rd64 ram (tf + tf_off f)) by (destruct f; try done; lia).
  apply rd64_move. intros k Hk. rewrite rd8_memmove by done. zbool. f_equal. lia.
Qed.

Lemma child_frame_kept m tfC tf : bytes_ok (ms_ram m) -> kept (fun p => p = tfC) m (with_ram (child_frame tfC tf (ms_ram m)) m).
Proof.
  intros Hb x Hx. specialize (Hx tfC eq_refl). cbn [ms_ram with_ram]. unfold child_frame.
  pose proof (tf_off_bound TF_a0). assert (TF_size <= PGSIZE) by done. rewrite rd8_wr64_ne by lia.
  rewrite rd8_memmove by done. zbool; done.
Qed.

Lemma child_frame_space m root own free sz tfC tf :
  pspace m root own free sz tfC ->
  let m' := with_ram (child_frame tfC tf (ms_ram m)) m in
  pspace m' root own free sz tfC /\ (forall va, pt_get (ms_ram m') root va = pt_get (ms_ram m) root va) /\
  forall x, 0 <= x < PGROUNDUP sz -> ubyte (ms_ram m') root x = ubyte (ms_ram m) root x.
Proof.
  intros P m'. pose proof P as [A _ Hsz _ _ [Hp Hf] Hok]. destruct trap_pages as (T1 & _). destruct (user_top sz Hsz) as [Htop _].
  pose proof (ko_bytes _ _ (pt_kmem _ _ _ _ (as_pt _ _ _ _ A))) as Hb. pose proof (child_frame_kept m tfC tf Hb) as K. fold m' in K.
  destruct (as_page _ _ _ _ A TRAPFRAME T1 Hp) as (_ & Ho & Hn). rewrite Hf in Ho, Hn.
  assert (forall p, p = tfC -> p mod PGSIZE = 0 /\ own !! p = None) as HQ by (intros p ->; split; [apply Hok|done]).
  assert (kmem_ok m' free) as Hk.
  { apply (kmem_ok_ext m); [apply A|done|done|by apply bytes_ok_wr64, bytes_ok_memmove|]. intros b Hbf.
    apply (rd64_other_page _ _ tfC); [apply Hok|by apply (free_spare _ _ _ _ _ A)|by intros ->|].
    intros x Hx. apply K. by intros p ->. }
  split; [|split].
  - apply (kept_pspace P K HQ); [apply A|done|done|]. intros p. by apply free_spare.
  - apply (kept_get A K HQ).
  - intros x Hx. apply (kept_ubyte A K HQ). intros p -> Hpx Heq. destruct (user_not_trap sz x Hsz ltac:(lia)) as [N _].
    rewrite (as_inj _ _ _ _ A TRAPFRAME x) in N; [done|done|lia|done|done|congruence].
Qed.
