(* ===== verification/Kstate.v ===== *)
(** The kernel above the process layer: the structures of kernel/buf.h, fs.h,
    file.h, log.c, pipe.c and console.c, and the state [kstate] that holds the
    tables of the file system, the console and the disk.

    Pointers into a table are indices.  The bytes of the disk are a map from
    block numbers to blocks; [k_hist] lists the block writes the device has
    done, oldest first, so that every disk content a crash can leave is the
    effect of a prefix of it. *)
From S2P Require Import Prelude Riscv Spinlock Memory Bytes Kalloc Vm Proc Switch Sleeplock.

(** * param.h, fs.h *)

Definition NFILE : nat := 100.
Definition NINODE : nat := 50.
Definition NDEV : Z := 10.
Definition ROOTDEV : Z := 1.
Definition MAXARG : nat := 32.
Definition MAXOPBLOCKS : Z := 10.
Definition LOGBLOCKS : nat := 30.
Definition NBUF : nat := 30.
Definition MAXPATH : Z := 128.
Definition USERSTACK : Z := 1.

Definition ROOTINO : Z := 1.
Definition BSIZE : Z := 1024.
Definition FSMAGIC : Z := 0x10203040.
Definition NDIRECT : Z := 12.
Definition NINDIRECT : Z := BSIZE / 4.
Definition MAXFILE : Z := NDIRECT + NINDIRECT.
Definition IPB : Z := BSIZE / 64.
Definition BPB : Z := BSIZE * 8.
Definition DIRSIZ : Z := 14.

Definition T_DIR : Z := 1.
Definition T_FILE : Z := 2.
Definition T_DEVICE : Z := 3.
Definition CONSOLE : Z := 1.

(** [struct superblock]. *)
Record superblock := Superblock {
  sb_magic : Z;
  sb_size : Z;
  sb_nblocks : Z;
  sb_ninodes : Z;
  sb_nlog : Z;
  sb_logstart : Z;
  sb_inodestart : Z;
  sb_bmapstart : Z }.

Definition IBLOCK (i : Z) (sb : superblock) : Z := i / IPB + sb_inodestart sb.
Definition BBLOCK (b : Z) (sb : superblock) : Z := b / BPB + sb_bmapstart sb.

(** The superblock as the first fields of block 1. *)
Definition sb_of (data : list Z) : superblock :=
  let f k := get_le 4 (4 * k) data in
  Superblock (f 0%nat) (f 1%nat) (f 2%nat) (f 3%nat) (f 4%nat) (f 5%nat) (f 6%nat) (f 7%nat).

(** * buf.h *)

Record buf := Buf {
  b_valid : Z;
  b_disk : Z;
  b_dev : Z;
  b_blockno : Z;
  b_refcnt : Z;
  b_prev : nat;
  b_next : nat;
  b_data : list Z }.
Definition set_b_valid (v : Z) (x : buf) : buf :=
  Buf v (b_disk x) (b_dev x) (b_blockno x) (b_refcnt x) (b_prev x) (b_next x) (b_data
    x).
Definition set_b_disk (v : Z) (x : buf) : buf :=
  Buf (b_valid x) v (b_dev x) (b_blockno x) (b_refcnt x) (b_prev x) (b_next x) (b_data
    x).
Definition set_b_dev (v : Z) (x : buf) : buf :=
  Buf (b_valid x) (b_disk x) v (b_blockno x) (b_refcnt x) (b_prev x) (b_next x) (b_data
    x).
Definition set_b_blockno (v : Z) (x : buf) : buf :=
  Buf (b_valid x) (b_disk x) (b_dev x) v (b_refcnt x) (b_prev x) (b_next x) (b_data x).
Definition set_b_refcnt (v : Z) (x : buf) : buf :=
  Buf (b_valid x) (b_disk x) (b_dev x) (b_blockno x) v (b_prev x) (b_next x) (b_data x).
Definition set_b_prev (v : nat) (x : buf) : buf :=
  Buf (b_valid x) (b_disk x) (b_dev x) (b_blockno x) (b_refcnt x) v (b_next x) (b_data
    x).
Definition set_b_next (v : nat) (x : buf) : buf :=
  Buf (b_valid x) (b_disk x) (b_dev x) (b_blockno x) (b_refcnt x) (b_prev x) v (b_data
    x).
Definition set_b_data (v : list Z) (x : buf) : buf :=
  Buf (b_valid x) (b_disk x) (b_dev x) (b_blockno x) (b_refcnt x) (b_prev x) (b_next x)
    v.
Definition zero_block : list Z := replicate (Z.to_nat BSIZE) 0.
#[export] Instance buf_inhabited : Inhabited buf := populate (Buf 0 0 0 0 0 0 0 zero_block).

(** * log.c: [struct log]; [lg_n] and [lg_block] are the in-memory header. *)

Record logstate := Log {
  lg_start : Z;
  lg_outstanding : Z;
  lg_committing : Z;
  lg_dev : Z;
  lg_n : Z;
  lg_block : list Z }.
Definition set_lg_start (v : Z) (x : logstate) : logstate :=
  Log v (lg_outstanding x) (lg_committing x) (lg_dev x) (lg_n x) (lg_block x).
Definition set_lg_outstanding (v : Z) (x : logstate) : logstate :=
  Log (lg_start x) v (lg_committing x) (lg_dev x) (lg_n x) (lg_block x).
Definition set_lg_committing (v : Z) (x : logstate) : logstate :=
  Log (lg_start x) (lg_outstanding x) v (lg_dev x) (lg_n x) (lg_block x).
Definition set_lg_dev (v : Z) (x : logstate) : logstate :=
  Log (lg_start x) (lg_outstanding x) (lg_committing x) v (lg_n x) (lg_block x).
Definition set_lg_n (v : Z) (x : logstate) : logstate :=
  Log (lg_start x) (lg_outstanding x) (lg_committing x) (lg_dev x) v (lg_block x).
Definition set_lg_block (v : list Z) (x : logstate) : logstate :=
  Log (lg_start x) (lg_outstanding x) (lg_committing x) (lg_dev x) (lg_n x) v.

(** * file.h *)

Record inode := Inode {
  i_dev : Z;
  i_inum : Z;
  i_ref : Z;
  i_valid : Z;
  i_type : Z;
  i_major : Z;
  i_minor : Z;
  i_nlink : Z;
  i_size : Z;
  i_addrs : list Z }.
Definition set_i_dev (v : Z) (x : inode) : inode :=
  Inode v (i_inum x) (i_ref x) (i_valid x) (i_type x) (i_major x) (i_minor x) (i_nlink
    x) (i_size x) (i_addrs x).
Definition set_i_inum (v : Z) (x : inode) : inode :=
  Inode (i_dev x) v (i_ref x) (i_valid x) (i_type x) (i_major x) (i_minor x) (i_nlink x)
    (i_size x) (i_addrs x).
Definition set_i_ref (v : Z) (x : inode) : inode :=
  Inode (i_dev x) (i_inum x) v (i_valid x) (i_type x) (i_major x) (i_minor x) (i_nlink
    x) (i_size x) (i_addrs x).
Definition set_i_valid (v : Z) (x : inode) : inode :=
  Inode (i_dev x) (i_inum x) (i_ref x) v (i_type x) (i_major x) (i_minor x) (i_nlink x)
    (i_size x) (i_addrs x).
Definition set_i_type (v : Z) (x : inode) : inode :=
  Inode (i_dev x) (i_inum x) (i_ref x) (i_valid x) v (i_major x) (i_minor x) (i_nlink x)
    (i_size x) (i_addrs x).
Definition set_i_major (v : Z) (x : inode) : inode :=
  Inode (i_dev x) (i_inum x) (i_ref x) (i_valid x) (i_type x) v (i_minor x) (i_nlink x)
    (i_size x) (i_addrs x).
Definition set_i_minor (v : Z) (x : inode) : inode :=
  Inode (i_dev x) (i_inum x) (i_ref x) (i_valid x) (i_type x) (i_major x) v (i_nlink x)
    (i_size x) (i_addrs x).
Definition set_i_nlink (v : Z) (x : inode) : inode :=
  Inode (i_dev x) (i_inum x) (i_ref x) (i_valid x) (i_type x) (i_major x) (i_minor x) v
    (i_size x) (i_addrs x).
Definition set_i_size (v : Z) (x : inode) : inode :=
  Inode (i_dev x) (i_inum x) (i_ref x) (i_valid x) (i_type x) (i_major x) (i_minor x)
    (i_nlink x) v (i_addrs x).
Definition set_i_addrs (v : list Z) (x : inode) : inode :=
  Inode (i_dev x) (i_inum x) (i_ref x) (i_valid x) (i_type x) (i_major x) (i_minor x)
    (i_nlink x) (i_size x) v.
#[export] Instance inode_inhabited : Inhabited inode :=
  populate (Inode 0 0 0 0 0 0 0 0 0 (replicate 13 0)).

Inductive filetype := FD_NONE | FD_PIPE | FD_INODE | FD_DEVICE.
#[export] Instance filetype_eq_dec : EqDecision filetype.
Proof. solve_decision. Defined.

Record file := File {
  f_type : filetype;
  f_ref : Z;
  f_readable : Z;
  f_writable : Z;
  f_pipe : Z;
  f_ip : option nat;
  f_off : Z;
  f_major : Z }.
Definition set_f_type (v : filetype) (x : file) : file :=
  File v (f_ref x) (f_readable x) (f_writable x) (f_pipe x) (f_ip x) (f_off x) (f_major
    x).
Definition set_f_ref (v : Z) (x : file) : file :=
  File (f_type x) v (f_readable x) (f_writable x) (f_pipe x) (f_ip x) (f_off x) (f_major
    x).
Definition set_f_readable (v : Z) (x : file) : file :=
  File (f_type x) (f_ref x) v (f_writable x) (f_pipe x) (f_ip x) (f_off x) (f_major x).
Definition set_f_writable (v : Z) (x : file) : file :=
  File (f_type x) (f_ref x) (f_readable x) v (f_pipe x) (f_ip x) (f_off x) (f_major x).
Definition set_f_pipe (v : Z) (x : file) : file :=
  File (f_type x) (f_ref x) (f_readable x) (f_writable x) v (f_ip x) (f_off x) (f_major
    x).
Definition set_f_ip (v : option nat) (x : file) : file :=
  File (f_type x) (f_ref x) (f_readable x) (f_writable x) (f_pipe x) v (f_off x)
    (f_major x).
Definition set_f_off (v : Z) (x : file) : file :=
  File (f_type x) (f_ref x) (f_readable x) (f_writable x) (f_pipe x) (f_ip x) v (f_major
    x).
Definition set_f_major (v : Z) (x : file) : file :=
  File (f_type x) (f_ref x) (f_readable x) (f_writable x) (f_pipe x) (f_ip x) (f_off x)
    v.
#[export] Instance file_inhabited : Inhabited file := populate (File FD_NONE 0 0 0 0 None 0 0).

(** * pipe.c; a pipe is named by the page that holds it. *)

Definition PIPESIZE : Z := 512.
Record pipe := Pipe {
  pi_data : list Z;
  pi_nread : Z;
  pi_nwrite : Z;
  pi_readopen : Z;
  pi_writeopen : Z }.
Definition set_pi_data (v : list Z) (x : pipe) : pipe :=
  Pipe v (pi_nread x) (pi_nwrite x) (pi_readopen x) (pi_writeopen x).
Definition set_pi_nread (v : Z) (x : pipe) : pipe :=
  Pipe (pi_data x) v (pi_nwrite x) (pi_readopen x) (pi_writeopen x).
Definition set_pi_nwrite (v : Z) (x : pipe) : pipe :=
  Pipe (pi_data x) (pi_nread x) v (pi_readopen x) (pi_writeopen x).
Definition set_pi_readopen (v : Z) (x : pipe) : pipe :=
  Pipe (pi_data x) (pi_nread x) (pi_nwrite x) v (pi_writeopen x).
Definition set_pi_writeopen (v : Z) (x : pipe) : pipe :=
  Pipe (pi_data x) (pi_nread x) (pi_nwrite x) (pi_readopen x) v.
#[export] Instance pipe_inhabited : Inhabited pipe :=
  populate (Pipe (replicate (Z.to_nat PIPESIZE) 0) 0 0 0 0).

(** * console.c and uart.c *)

Definition INPUT_BUF_SIZE : Z := 128.
Record consbuf := Consbuf {
  co_buf : list Z;
  co_r : Z;
  co_w : Z;
  co_e : Z }.
Definition set_co_buf (v : list Z) (x : consbuf) : consbuf :=
  Consbuf v (co_r x) (co_w x) (co_e x).
Definition set_co_r (v : Z) (x : consbuf) : consbuf :=
  Consbuf (co_buf x) v (co_w x) (co_e x).
Definition set_co_w (v : Z) (x : consbuf) : consbuf :=
  Consbuf (co_buf x) (co_r x) v (co_e x).
Definition set_co_e (v : Z) (x : consbuf) : consbuf :=
  Consbuf (co_buf x) (co_r x) (co_w x) v.

(** The UART: the driver's flag [tx_busy], the characters sent so far, whether
    the device can take another one, and the characters it has received. *)
Record uartstate := Uart {
  u_tx_busy : Z; u_sent : list Z; u_idle : bool; u_rx : list Z }.
Definition set_u_tx_busy v (x : uartstate) := Uart v (u_sent x) (u_idle x) (u_rx x).
Definition set_u_sent v (x : uartstate) := Uart (u_tx_busy x) v (u_idle x) (u_rx x).
Definition set_u_rx v (x : uartstate) := Uart (u_tx_busy x) (u_sent x) (u_idle x) v.

(** * virtio_disk.c and virtio.h *)

Definition NUM : nat := 8.
(** What a descriptor of a request points to: a command header, the data of a
    buffer, or the status byte of a request. *)
Inductive dma := DmaNull | DmaOp (i : nat) | DmaData (b : nat) | DmaStatus (i : nat).
Record virtq_desc := Desc { d_addr : dma; d_len : Z; d_flags : Z; d_next : Z }.
Record blk_req := Req { rq_type : Z; rq_reserved : Z; rq_sector : Z }.
Record diskinfo := Info { in_b : option nat; in_status : Z }.
#[export] Instance virtq_desc_inhabited : Inhabited virtq_desc := populate (Desc DmaNull 0 0 0).
#[export] Instance blk_req_inhabited : Inhabited blk_req := populate (Req 0 0 0).
#[export] Instance diskinfo_inhabited : Inhabited diskinfo := populate (Info None 0).

(** [struct disk], with the contents of the three pages of the queue: the
    descriptors, the avail ring and the used ring (its [id] fields). *)
Record vdisk := VDisk {
  vd_pages : Z * Z * Z;
  vd_desc : list virtq_desc;
  vd_avail_idx : Z;
  vd_avail_ring : list Z;
  vd_dev_idx : Z;
  vd_used_ring : list Z;
  vd_free : list Z;
  vd_used_idx : Z;
  vd_info : list diskinfo;
  vd_ops : list blk_req }.
Definition set_vd_pages (v : Z * Z * Z) (x : vdisk) : vdisk :=
  VDisk v (vd_desc x) (vd_avail_idx x) (vd_avail_ring x) (vd_dev_idx x) (vd_used_ring x)
    (vd_free x) (vd_used_idx x) (vd_info x) (vd_ops x).
Definition set_vd_desc (v : list virtq_desc) (x : vdisk) : vdisk :=
  VDisk (vd_pages x) v (vd_avail_idx x) (vd_avail_ring x) (vd_dev_idx x) (vd_used_ring x)
    (vd_free x) (vd_used_idx x) (vd_info x) (vd_ops x).
Definition set_vd_avail_idx (v : Z) (x : vdisk) : vdisk :=
  VDisk (vd_pages x) (vd_desc x) v (vd_avail_ring x) (vd_dev_idx x) (vd_used_ring x)
    (vd_free x) (vd_used_idx x) (vd_info x) (vd_ops x).
Definition set_vd_avail_ring (v : list Z) (x : vdisk) : vdisk :=
  VDisk (vd_pages x) (vd_desc x) (vd_avail_idx x) v (vd_dev_idx x) (vd_used_ring x) (vd_free
    x) (vd_used_idx x) (vd_info x) (vd_ops x).
Definition set_vd_dev_idx (v : Z) (x : vdisk) : vdisk :=
  VDisk (vd_pages x) (vd_desc x) (vd_avail_idx x) (vd_avail_ring x) v (vd_used_ring x)
    (vd_free x) (vd_used_idx x) (vd_info x) (vd_ops x).
Definition set_vd_used_ring (v : list Z) (x : vdisk) : vdisk :=
  VDisk (vd_pages x) (vd_desc x) (vd_avail_idx x) (vd_avail_ring x) (vd_dev_idx x) v
    (vd_free x) (vd_used_idx x) (vd_info x) (vd_ops x).
Definition set_vd_free (v : list Z) (x : vdisk) : vdisk :=
  VDisk (vd_pages x) (vd_desc x) (vd_avail_idx x) (vd_avail_ring x) (vd_dev_idx x)
    (vd_used_ring x) v (vd_used_idx x) (vd_info x) (vd_ops x).
Definition set_vd_used_idx (v : Z) (x : vdisk) : vdisk :=
  VDisk (vd_pages x) (vd_desc x) (vd_avail_idx x) (vd_avail_ring x) (vd_dev_idx x)
    (vd_used_ring x) (vd_free x) v (vd_info x) (vd_ops x).
Definition set_vd_info (v : list diskinfo) (x : vdisk) : vdisk :=
  VDisk (vd_pages x) (vd_desc x) (vd_avail_idx x) (vd_avail_ring x) (vd_dev_idx x)
    (vd_used_ring x) (vd_free x) (vd_used_idx x) v (vd_ops x).
Definition set_vd_ops (v : list blk_req) (x : vdisk) : vdisk :=
  VDisk (vd_pages x) (vd_desc x) (vd_avail_idx x) (vd_avail_ring x) (vd_dev_idx x)
    (vd_used_ring x) (vd_free x) (vd_used_idx x) (vd_info x) v.

(** Device registers: the value of the [k]-th register read, the number of
    reads so far, and the writes so far, oldest first. *)
Record mmio := Mmio { mm_in : nat -> Z -> Z; mm_reads : nat; mm_out : list (Z * Z) }.

(** * The state *)

Record kstate := KState {
  k_ps : pstate;
  k_bufs : list buf;
  k_disk : gmap Z (list Z);
  k_hist : list (Z * list Z);
  k_log : logstate;
  k_sb : superblock;
  k_itable : list inode;
  k_ftable : list file;
  k_pipes : gmap Z pipe;
  k_cons : consbuf;
  k_uart : uartstate;
  k_first : bool;
  k_vd : vdisk;
  k_mmio : mmio }.
Definition with_k_ps (v : pstate) (x : kstate) : kstate :=
  KState v (k_bufs x) (k_disk x) (k_hist x) (k_log x) (k_sb x) (k_itable x) (k_ftable x)
    (k_pipes x) (k_cons x) (k_uart x) (k_first x) (k_vd x) (k_mmio x).
Definition with_k_bufs (v : list buf) (x : kstate) : kstate :=
  KState (k_ps x) v (k_disk x) (k_hist x) (k_log x) (k_sb x) (k_itable x) (k_ftable x)
    (k_pipes x) (k_cons x) (k_uart x) (k_first x) (k_vd x) (k_mmio x).
Definition with_k_disk (v : gmap Z (list Z)) (x : kstate) : kstate :=
  KState (k_ps x) (k_bufs x) v (k_hist x) (k_log x) (k_sb x) (k_itable x) (k_ftable x)
    (k_pipes x) (k_cons x) (k_uart x) (k_first x) (k_vd x) (k_mmio x).
Definition with_k_hist (v : list (Z * list Z)) (x : kstate) : kstate :=
  KState (k_ps x) (k_bufs x) (k_disk x) v (k_log x) (k_sb x) (k_itable x) (k_ftable x)
    (k_pipes x) (k_cons x) (k_uart x) (k_first x) (k_vd x) (k_mmio x).
Definition with_k_log (v : logstate) (x : kstate) : kstate :=
  KState (k_ps x) (k_bufs x) (k_disk x) (k_hist x) v (k_sb x) (k_itable x) (k_ftable x)
    (k_pipes x) (k_cons x) (k_uart x) (k_first x) (k_vd x) (k_mmio x).
Definition with_k_sb (v : superblock) (x : kstate) : kstate :=
  KState (k_ps x) (k_bufs x) (k_disk x) (k_hist x) (k_log x) v (k_itable x) (k_ftable x)
    (k_pipes x) (k_cons x) (k_uart x) (k_first x) (k_vd x) (k_mmio x).
Definition with_k_itable (v : list inode) (x : kstate) : kstate :=
  KState (k_ps x) (k_bufs x) (k_disk x) (k_hist x) (k_log x) (k_sb x) v (k_ftable x)
    (k_pipes x) (k_cons x) (k_uart x) (k_first x) (k_vd x) (k_mmio x).
Definition with_k_ftable (v : list file) (x : kstate) : kstate :=
  KState (k_ps x) (k_bufs x) (k_disk x) (k_hist x) (k_log x) (k_sb x) (k_itable x) v
    (k_pipes x) (k_cons x) (k_uart x) (k_first x) (k_vd x) (k_mmio x).
Definition with_k_pipes (v : gmap Z pipe) (x : kstate) : kstate :=
  KState (k_ps x) (k_bufs x) (k_disk x) (k_hist x) (k_log x) (k_sb x) (k_itable x) (k_ftable
    x) v (k_cons x) (k_uart x) (k_first x) (k_vd x) (k_mmio x).
Definition with_k_cons (v : consbuf) (x : kstate) : kstate :=
  KState (k_ps x) (k_bufs x) (k_disk x) (k_hist x) (k_log x) (k_sb x) (k_itable x) (k_ftable
    x) (k_pipes x) v (k_uart x) (k_first x) (k_vd x) (k_mmio x).
Definition with_k_uart (v : uartstate) (x : kstate) : kstate :=
  KState (k_ps x) (k_bufs x) (k_disk x) (k_hist x) (k_log x) (k_sb x) (k_itable x) (k_ftable
    x) (k_pipes x) (k_cons x) v (k_first x) (k_vd x) (k_mmio x).
Definition with_k_first (v : bool) (x : kstate) : kstate :=
  KState (k_ps x) (k_bufs x) (k_disk x) (k_hist x) (k_log x) (k_sb x) (k_itable x) (k_ftable
    x) (k_pipes x) (k_cons x) (k_uart x) v (k_vd x) (k_mmio x).
Definition with_k_vd (v : vdisk) (x : kstate) : kstate :=
  KState (k_ps x) (k_bufs x) (k_disk x) (k_hist x) (k_log x) (k_sb x) (k_itable x) (k_ftable
    x) (k_pipes x) (k_cons x) (k_uart x) (k_first x) v (k_mmio x).
Definition with_k_mmio (v : mmio) (x : kstate) : kstate :=
  KState (k_ps x) (k_bufs x) (k_disk x) (k_hist x) (k_log x) (k_sb x) (k_itable x) (k_ftable
    x) (k_pipes x) (k_cons x) (k_uart x) (k_first x) (k_vd x) v.

#[export] Program Instance kstate_pstate : Lens kstate pstate := {|
  lget := k_ps;
  lset := with_k_ps |}.
Next Obligation. done. Qed.
Next Obligation. by intros []. Qed.
Next Obligation. done. Qed.
#[export] Instance kstate_mem : Lens kstate mem := lens_compose.
#[export] Instance kstate_machine : Lens kstate machine := lens_compose.

Definition khw (s : kstate) : machine := hw (k_ps s).

Definition kacq (lk : lockid) : M kstate unit := lift (acq lk).
Definition krel (lk : lockid) : M kstate unit := lift (rel lk).

Definition getb (i : nat) : M kstate buf := gets (fun s => k_bufs s !!! i).
Definition modb (i : nat) (f : buf -> buf) : M kstate unit :=
  modify (fun s => with_k_bufs (alter f i (k_bufs s)) s).
Definition getlog : M kstate logstate := gets k_log.
Definition modlog (f : logstate -> logstate) : M kstate unit :=
  modify (fun s => with_k_log (f (k_log s)) s).
Definition geti (i : nat) : M kstate inode := gets (fun s => k_itable s !!! i).
Definition modi (i : nat) (f : inode -> inode) : M kstate unit :=
  modify (fun s => with_k_itable (alter f i (k_itable s)) s).
Definition getf (i : nat) : M kstate file := gets (fun s => k_ftable s !!! i).
Definition modf (i : nat) (f : file -> file) : M kstate unit :=
  modify (fun s => with_k_ftable (alter f i (k_ftable s)) s).
Definition getco : M kstate consbuf := gets k_cons.
Definition modco (f : consbuf -> consbuf) : M kstate unit :=
  modify (fun s => with_k_cons (f (k_cons s)) s).
Definition getu : M kstate uartstate := gets k_uart.
Definition modu (f : uartstate -> uartstate) : M kstate unit :=
  modify (fun s => with_k_uart (f (k_uart s)) s).
Definition getpi (pi : Z) : M kstate pipe := gets (fun s => k_pipes s !!! pi).
Definition modpi (pi : Z) (f : pipe -> pipe) : M kstate unit :=
  modify (fun s => with_k_pipes (<[pi := f (k_pipes s !!! pi)]> (k_pipes s)) s).

Definition getvd : M kstate vdisk := gets k_vd.
Definition modvd (f : vdisk -> vdisk) : M kstate unit :=
  modify (fun s => with_k_vd (f (k_vd s)) s).

(** Read and write a device register. *)
Definition mmio_read (a : Z) : M kstate Z :=
  d <- gets k_mmio ;;
  modify (with_k_mmio (Mmio (mm_in d) (S (mm_reads d)) (mm_out d))) ;;
  ret (mm_in d (mm_reads d) a).
Definition mmio_write (a v : Z) : M kstate unit :=
  modify (fun s => let d := k_mmio s in
    with_k_mmio (Mmio (mm_in d) (mm_reads d) (mm_out d ++ [(a, v)])) s).

(** The disk driver, as the buffer cache uses it: [disk_rw b true] writes the
    data of buffer [b] to its block, [disk_rw b false] reads it. *)
Class DiskDriver := disk_rw : nat -> bool -> M kstate unit.

Definition disk_block (s : kstate) (b : Z) : list Z := default zero_block (k_disk s !! b).

(** The effect of a request on the buffer and on the disk. *)
Definition transfer (i : nat) (write : bool) (s : kstate) : kstate :=
  let b := k_bufs s !!! i in
  if write then
    with_k_hist (k_hist s ++ [(b_blockno b, b_data b)])
      (with_k_disk (<[b_blockno b := b_data b]> (k_disk s)) s)
  else with_k_bufs (alter (set_b_data (disk_block s (b_blockno b))) i (k_bufs s)) s.

(** What the cache relies on: the request is carried out before [disk_rw]
    returns, and nothing else has changed by then. *)
Class DiskOk `{DiskDriver} := disk_rw_ok : forall i write s,
  disk_rw i write s = Ret tt (transfer i write s).

(** A disk that answers at once. *)
Definition ram_disk : DiskDriver := fun i write s => Ret tt (transfer i write s).
Lemma ram_disk_ok : @DiskOk ram_disk.
Proof. done. Qed.

(** * Critical sections at this layer *)

Definition kinside (lk : lockid) (s : kstate) : kstate := with_k_ps (inside lk (k_ps s)) s.

Section Critical.
Context (me : nat) (lk : lockid).

Lemma kacq_calm s :
  calm me (k_ps s) -> lock_free lk (khw s) -> kacq lk s = Ret tt (kinside lk s).
Proof. intros H1 H2. exact (lift_Ret _ s _ _ (calm_acq me lk _ H1 H2)). Qed.

Lemma krel_calm s :
  calm me (k_ps s) -> lock_free lk (khw s) -> krel lk (kinside lk s) = Ret tt s.
Proof.
  intros H1 H2. transitivity (Ret tt (with_k_ps (k_ps s) (kinside lk s))); [|by destruct s].
  exact (lift_Ret _ (kinside lk s) _ _ (calm_rel me lk _ H1 H2)).
Qed.
End Critical.

Lemma kwakeup_calm me c s :
  calm me (k_ps s) -> lift (wakeup c) s = Ret tt (with_k_ps (woken c me (k_ps s)) s).
Proof.
  intros H. exact (@lift_Ret kstate pstate unit kstate_pstate (wakeup c) s tt (woken c me (k_ps s))
    (calm_wakeup me c (k_ps s) H)).
Qed.
