(* ===== verification/Bio.v ===== *)
(** kernel/bio.c: the buffer cache.  Buffers [0 .. NBUF-1] and the list head,
    at index [HEAD], are linked through [prev] and [next] in order of use.

    The loops along the list have [S NBUF] iterations of fuel: one per buffer
    and one to meet the head. *)
From S2P Require Import Prelude Riscv Spinlock Memory Bytes Kalloc Vm Proc Switch Sleeplock Kstate.

Definition HEAD : nat := NBUF.

Definition binit : M kstate unit :=
  lift (initlock BcacheLock "bcache") ;;
  modb HEAD (set_b_prev HEAD) ;;
  modb HEAD (set_b_next HEAD) ;;
  iterl (seq 0 NBUF) (fun b =>
    h <- getb HEAD ;;
    modb b (set_b_next (b_next h)) ;;
    modb b (set_b_prev HEAD) ;;
    lift (initsleeplock (SlBuf b) "buffer") ;;
    modb (b_next h) (set_b_prev b) ;;
    modb HEAD (set_b_next b)).

Section Bio.
Context `{WaitBound} `{DiskDriver}.

(** Is the block already cached? *)
Definition bget_cached (dev blockno : Z) : M kstate (option nat) :=
  h <- getb HEAD ;;
  loop (S NBUF) (fun b =>
    if bool_decide (b = HEAD) then ret (inr None) else
    x <- getb b ;;
    if (b_dev x =? dev) && (b_blockno x =? blockno) then
      modb b (fun x => set_b_refcnt (u32 (b_refcnt x + 1)) x) ;;
      ret (inr (Some b))
    else ret (inl (b_next x))) (b_next h).

(** Recycle the least recently used unused buffer. *)
Definition bget_recycle (dev blockno : Z) : M kstate (option nat) :=
  h <- getb HEAD ;;
  loop (S NBUF) (fun b =>
    if bool_decide (b = HEAD) then ret (inr None) else
    x <- getb b ;;
    if b_refcnt x =? 0 then
      modb b (set_b_dev dev) ;;
      modb b (set_b_blockno blockno) ;;
      modb b (set_b_valid 0) ;;
      modb b (set_b_refcnt 1) ;;
      ret (inr (Some b))
    else ret (inl (b_prev x))) (b_prev h).

Definition bget (dev blockno : Z) : M kstate nat :=
  kacq BcacheLock ;;
  r <- bget_cached dev blockno ;;
  match r with
  | Some b =>
      krel BcacheLock ;;
      lift (acquiresleep (SlBuf b)) ;;
      ret b
  | None =>
      r <- bget_recycle dev blockno ;;
      match r with
      | Some b =>
          krel BcacheLock ;;
          lift (acquiresleep (SlBuf b)) ;;
          ret b
      | None => panic "bget: no buffers"
      end
  end.

Definition bread (dev blockno : Z) : M kstate nat :=
  b <- bget dev blockno ;;
  x <- getb b ;;
  when (b_valid x =? 0) (disk_rw b false ;; modb b (set_b_valid 1)) ;;
  ret b.

Definition bwrite (b : nat) : M kstate unit :=
  h <- lift (holdingsleep (SlBuf b)) ;;
  if negb h then panic "bwrite" else
  disk_rw b true.

Definition brelse (b : nat) : M kstate unit :=
  h <- lift (holdingsleep (SlBuf b)) ;;
  if negb h then panic "brelse" else
  lift (releasesleep (SlBuf b)) ;;
  kacq BcacheLock ;;
  modb b (fun x => set_b_refcnt (u32 (b_refcnt x - 1)) x) ;;
  x <- getb b ;;
  when (b_refcnt x =? 0)
    (modb (b_next x) (set_b_prev (b_prev x)) ;;
     modb (b_prev x) (set_b_next (b_next x)) ;;
     h <- getb HEAD ;;
     modb b (set_b_next (b_next h)) ;;
     modb b (set_b_prev HEAD) ;;
     h <- getb HEAD ;;
     modb (b_next h) (set_b_prev b) ;;
     modb HEAD (set_b_next b)) ;;
  krel BcacheLock.

Definition bpin (b : nat) : M kstate unit :=
  kacq BcacheLock ;;
  modb b (fun x => set_b_refcnt (u32 (b_refcnt x + 1)) x) ;;
  krel BcacheLock.

Definition bunpin (b : nat) : M kstate unit :=
  kacq BcacheLock ;;
  modb b (fun x => set_b_refcnt (u32 (b_refcnt x - 1)) x) ;;
  krel BcacheLock.
End Bio.
