(* ===== verification/Cache.v ===== *)
(** The buffer cache of kernel/bio.c: its list is a ring in order of use, and
    what [bread] returns is the current content of the block.

    [cache] describes the cache while one process uses it: the buffers it
    holds ([held]), how often each block is pinned ([pins]), and that a buffer
    nobody holds or pins agrees with the disk. *)
From S2P Require Import Prelude Riscv Spinlock Memory Bytes Kalloc Vm Proc Switch Sleeplock Kstate Bio.

(** * The list through [prev] and [next] *)

Fixpoint linked (bs : list buf) (x : nat) (l : list nat) : Prop :=
  match l with
  | [] => True
  | y :: l' => b_next (bs !!! x) = y /\ b_prev (bs !!! y) = x /\ linked bs y l'
  end.

(** The buffers after the head, most recently used first. *)
Definition ring (bs : list buf) (l : list nat) : Prop := linked bs HEAD (l ++ [HEAD]).

Definition unlink (b : nat) (bs : list buf) : list buf :=
  let p := b_prev (bs !!! b) in let n := b_next (bs !!! b) in
  alter (set_b_next n) p (alter (set_b_prev p) n bs).
Definition push_front (b : nat) (bs : list buf) : list buf :=
  let n := b_next (bs !!! HEAD) in
  alter (set_b_next b) HEAD
    (alter (set_b_prev b) n (alter (set_b_prev HEAD) b (alter (set_b_next n) b bs))).

Section Ring.
Implicit Types (bs : list buf) (l : list nat).

(** A change of a buffer that keeps a field keeps it everywhere. *)
Lemma buf_keeps {A} (p : buf -> A) (f : buf -> buf) i j bs :
  (forall x, p (f x) = p x) -> p (alter f i bs !!! j) = p (bs !!! j).
Proof.
  intros H. destruct (decide (i = j)) as [->|Hne]; [|by rewrite list_lookup_total_alter_ne].
  destruct (decide (j < length bs)%nat) as [Hl|Hl]; [by rewrite list_lookup_total_alter_eq|].
  rewrite !list_lookup_total_alt, !(lookup_ge_None_2) by (rewrite ?length_alter; lia). done.
Qed.

Lemma next_of_prev v i j bs : b_next (alter (set_b_prev v) i bs !!! j) = b_next (bs !!! j).
Proof. by apply buf_keeps. Qed.
Lemma prev_of_next v i j bs : b_prev (alter (set_b_next v) i bs !!! j) = b_prev (bs !!! j).
Proof. by apply buf_keeps. Qed.
Lemma next_set v i bs : (i < length bs)%nat -> b_next (alter (set_b_next v) i bs !!! i) = v.
Proof. intros H. by rewrite list_lookup_total_alter_eq. Qed.
Lemma prev_set v i bs : (i < length bs)%nat -> b_prev (alter (set_b_prev v) i bs !!! i) = v.
Proof. intros H. by rewrite list_lookup_total_alter_eq. Qed.

Lemma linked_app bs x l1 y l2 :
  linked bs x (l1 ++ y :: l2) <-> linked bs x (l1 ++ [y]) /\ linked bs y l2.
Proof.
  revert x. induction l1 as [|z l1 IH]; intros x; cbn; [tauto|]. rewrite IH. tauto.
Qed.

Lemma linked_frame bs bs' x l y :
  linked bs x (l ++ [y]) ->
  (forall z, z ∈ x :: l -> b_next (bs' !!! z) = b_next (bs !!! z)) ->
  (forall z, z ∈ l ++ [y] -> b_prev (bs' !!! z) = b_prev (bs !!! z)) ->
  linked bs' x (l ++ [y]).
Proof.
  revert x. induction l as [|z l IH]; intros x; cbn; intros (H1 & H2 & H3) Hn Hp.
  - rewrite Hn, Hp by set_solver. done.
  - rewrite Hn, Hp by set_solver. split; [done|]. split; [done|].
    apply IH; [done|set_solver..].
Qed.

Lemma ring_split bs l1 b l2 :
  ring bs (l1 ++ b :: l2) <-> linked bs HEAD (l1 ++ [b]) /\ linked bs b (l2 ++ [HEAD]).
Proof. unfold ring. rewrite <- app_assoc. cbn. apply linked_app. Qed.

(** The neighbours of [b]. *)
Lemma linked_prev bs x l b : linked bs x (l ++ [b]) -> b_prev (bs !!! b) = List.last l x.
Proof.
  revert x. induction l as [|z l IH]; intros x; cbn [app linked].
  - by intros (_ & ? & _).
  - intros (_ & _ & H). rewrite (IH _ H). destruct l; [done|]. cbn. 
    by induction l as [|w l' IHl] using rev_ind; [|rewrite ?app_comm_cons, !List.last_last].
Qed.

Lemma linked_next bs b l y : linked bs b (l ++ [y]) -> b_next (bs !!! b) = List.hd y l.
Proof. destruct l; cbn; by intros (? & _). Qed.

Lemma last_elem_of {A} (l : list A) d : List.last l d ∈ d :: l.
Proof.
  induction l as [|x l IH] using rev_ind; [set_solver|]. rewrite List.last_last. set_solver.
Qed.

Lemma ring_unlink bs l1 b l2 :
  ring bs (l1 ++ b :: l2) -> NoDup (HEAD :: l1 ++ b :: l2) ->
  (forall x, x ∈ HEAD :: l1 ++ b :: l2 -> (x < length bs)%nat) ->
  ring (unlink b bs) (l1 ++ l2).
Proof.
  intros Hr Hd Hlt. apply ring_split in Hr as [H1 H2].
  unfold unlink. rewrite (linked_prev _ _ _ _ H1), (linked_next _ _ _ _ H2).
  pose proof (last_elem_of l1 HEAD) as Hp. set (p := List.last l1 HEAD) in *.
  assert (List.hd HEAD l2 ∈ HEAD :: l2) as Hn by (destruct l2; set_solver).
  set (n := List.hd HEAD l2) in *. set (bs' := alter _ p _).
  apply NoDup_cons in Hd as [Hh Hd]. apply NoDup_app in Hd as (Hd1 & H12 & Hd2).
  apply NoDup_cons in Hd2 as [Hb Hd2].
  assert (forall z, z ∈ l1 -> z <> n) as Hln.
  { clear -Hn Hh H12. intros z Hz ->. apply elem_of_cons in Hn as [Hn|Hn].
    - apply Hh. rewrite <- Hn. set_solver.
    - apply (H12 n); set_solver. }
  assert (forall z, z ∈ l2 -> z <> p /\ z <> HEAD) as Hlp.
  { clear -Hp Hh H12. intros z Hz. split; intros ->; [|set_solver].
    apply elem_of_cons in Hp as [Hp|Hp]; [apply Hh; rewrite <- Hp; set_solver|].
    apply (H12 p); set_solver. }
  assert (forall z, z <> p -> b_next (bs' !!! z) = b_next (bs !!! z)) as Fn.
  { intros z Hz. subst bs'. by rewrite list_lookup_total_alter_ne, next_of_prev. }
  assert (forall z, z <> n -> b_prev (bs' !!! z) = b_prev (bs !!! z)) as Fp.
  { intros z Hz. subst bs'. by rewrite prev_of_next, list_lookup_total_alter_ne. }
  assert (b_next (bs' !!! p) = n /\ b_prev (bs' !!! n) = p) as [Ep En].
  { subst bs'. rewrite next_set, prev_of_next, prev_set; [done|apply Hlt; set_solver|].
    rewrite length_alter. apply Hlt. set_solver. }
  assert (linked bs' HEAD (l1 ++ [n])) as HA.
  { destruct l1 as [|y l1 _] using rev_ind; [by cbn|]. subst p. rewrite List.last_last in *.
    rewrite <- app_assoc. cbn [app]. rewrite <- app_assoc in H1. cbn [app] in H1.
    apply linked_app. apply linked_app in H1 as [H1 _]. split; [|by cbn].
    apply (linked_frame bs); [done|intros z Hz; apply Fn|intros z Hz; apply Fp].
    - apply NoDup_app in Hd1 as (_ & Hd1 & _). clear -Hz Hd1 Hh. intros ->.
      apply elem_of_cons in Hz as [->|Hz]; [set_solver|]. apply (Hd1 y); set_solver.
    - by apply Hln. }
  unfold ring. rewrite <- app_assoc. destruct l2 as [|y l2]; [by apply linked_app|].
  cbn [app] in *. apply linked_app. split; [done|].
  apply NoDup_cons in Hd2 as [Hy _].
  apply (linked_frame bs); [by apply H2|intros z Hz; apply Fn|intros z Hz; apply Fp].
  - by apply Hlp.
  - destruct (Hlp y) as [_ Hyh]; [set_solver|]. clear -Hz Hy Hyh. set_solver.
Qed.

Lemma ring_push bs b l :
  ring bs l -> NoDup (HEAD :: b :: l) ->
  (forall x, x ∈ HEAD :: b :: l -> (x < length bs)%nat) ->
  ring (push_front b bs) (b :: l).
Proof.
  intros Hr Hd Hlt. unfold ring, push_front in *. rewrite (linked_next _ _ _ _ Hr).
  assert (List.hd HEAD l ∈ HEAD :: l) as Hn by (destruct l; set_solver).
  set (n := List.hd HEAD l) in *. set (bs' := alter _ HEAD _).
  apply NoDup_cons in Hd as [Hh Hd]. apply NoDup_cons in Hd as [Hb Hd].
  assert (forall z, z <> HEAD -> z <> b -> b_next (bs' !!! z) = b_next (bs !!! z)) as Fn.
  { intros z H1 H2. subst bs'. rewrite list_lookup_total_alter_ne, !next_of_prev by done.
    by rewrite list_lookup_total_alter_ne. }
  assert (forall z, z <> n -> z <> b -> b_prev (bs' !!! z) = b_prev (bs !!! z)) as Fp.
  { intros z H1 H2. subst bs'. rewrite prev_of_next, list_lookup_total_alter_ne by done.
    by rewrite list_lookup_total_alter_ne, prev_of_next by done. }
  assert (b_next (bs' !!! HEAD) = b /\ b_next (bs' !!! b) = n /\
          b_prev (bs' !!! n) = b /\ b_prev (bs' !!! b) = HEAD) as (E1 & E2 & E3 & E4).
  { subst bs'. rewrite !prev_of_next, next_set by (rewrite !length_alter; apply Hlt; set_solver).
    rewrite prev_set by (rewrite !length_alter; apply Hlt; set_solver).
    rewrite list_lookup_total_alter_ne, !next_of_prev, next_set by (apply Hlt || idtac; set_solver).
    rewrite list_lookup_total_alter_ne by set_solver.
    by rewrite prev_set by (rewrite !length_alter; apply Hlt; set_solver). }
  cbn [app linked]. split; [done|]. split; [done|].
  destruct l as [|y l]; [by cbn|]. cbn [app linked] in *.
  split; [done|]. split; [done|].
  apply NoDup_cons in Hd as [Hy _].
  apply (linked_frame bs); [by apply Hr|intros z Hz; apply Fn|intros z Hz; apply Fp];
    clear -Hz Hy Hb Hh; set_solver.
Qed.
End Ring.

(** * Searching the list *)

Definition updb (i : nat) (f : buf -> buf) (s : kstate) : kstate :=
  with_k_bufs (alter f i (k_bufs s)) s.

Definition is_block (dev bno : Z) (x : buf) : bool := (b_dev x =? dev) && (b_blockno x =? bno).
Definition incref (x : buf) : buf := set_b_refcnt (u32 (b_refcnt x + 1)) x.
Definition recycled (dev bno : Z) (x : buf) : buf :=
  set_b_refcnt 1 (set_b_valid 0 (set_b_blockno bno (set_b_dev dev x))).

(** The buffer for a block: the one that has it, else the least recently used
    of those nobody uses. *)
Definition lru_pick (dev bno : Z) (l : list nat) (bs : list buf) : option nat :=
  match List.find (fun b => is_block dev bno (bs !!! b)) l with
  | Some b => Some b
  | None => List.find (fun b => b_refcnt (bs !!! b) =? 0) (rev l)
  end.
(** The order after a buffer is given back, for the last time or not. *)
Definition lru_move (b : nat) (last : bool) (l : list nat) : list nat :=
  if last then b :: filter (fun x => x <> b) l else l.

Section Search.
Context (dev bno : Z).

Lemma bget_cached_eq l s :
  ring (k_bufs s) l -> HEAD ∉ l -> (length l <= NBUF)%nat ->
  bget_cached dev bno s =
    match List.find (fun b => is_block dev bno (k_bufs s !!! b)) l with
    | Some b => Ret (Some b) (updb b incref s)
    | None => Ret None s
    end.
Proof.
  intros Hr Hh Hl. unfold bget_cached. kstep eq_refl. unfold ring in Hr.
  match goal with |- loop _ ?body _ _ = _ => set (B := body) end.
  enough (forall k x, (length l <= k)%nat -> linked (k_bufs s) x (l ++ [HEAD]) ->
    loop (S k) B (b_next (k_bufs s !!! x)) s =
    match List.find (fun b => is_block dev bno (k_bufs s !!! b)) l with
    | Some b => Ret (Some b) (updb b incref s)
    | None => Ret None s
    end) as H by by apply H.
  clear Hr Hl.
  induction l as [|y l IH]; intros k x Hl Hr; cbn [app linked] in Hr.
  - destruct Hr as [-> _]. apply loop_exit. unfold B. by rewrite bool_decide_eq_true_2.
  - destruct Hr as (-> & Hp & Hr). destruct k as [|k]; [cbn in Hl; lia|]. cbn [List.find].
    destruct (is_block dev bno (k_bufs s !!! y)) eqn:E; unfold is_block in E.
    + apply loop_exit. unfold B. rewrite bool_decide_eq_false_2 by set_solver. kstep eq_refl.
      rewrite E. by kstep eq_refl.
    + rewrite <- (IH ltac:(set_solver) k y); [|cbn in Hl; lia|done]. apply loop_next.
      unfold B. rewrite bool_decide_eq_false_2 by set_solver. kstep eq_refl. by rewrite E.
Qed.

Lemma bget_recycle_eq l s :
  ring (k_bufs s) l -> HEAD ∉ l -> (length l <= NBUF)%nat ->
  bget_recycle dev bno s =
    match List.find (fun b => b_refcnt (k_bufs s !!! b) =? 0) (rev l) with
    | Some b => Ret (Some b) (updb b (recycled dev bno) s)
    | None => Ret None s
    end.
Proof.
  intros Hr Hh Hl. unfold bget_recycle. kstep eq_refl. unfold ring in Hr.
  match goal with |- loop _ ?body _ _ = _ => set (B := body) end.
  enough (forall k x, (length l <= k)%nat -> linked (k_bufs s) HEAD (l ++ [x]) ->
    loop (S k) B (b_prev (k_bufs s !!! x)) s =
    match List.find (fun b => b_refcnt (k_bufs s !!! b) =? 0) (rev l) with
    | Some b => Ret (Some b) (updb b (recycled dev bno) s)
    | None => Ret None s
    end) as H by by apply H.
  clear Hr Hl.
  induction l as [|y l IH] using rev_ind; intros k x Hl Hr.
  - destruct Hr as (_ & -> & _). apply loop_exit. unfold B. by rewrite bool_decide_eq_true_2.
  - rewrite <- app_assoc in Hr. cbn [app] in Hr. apply linked_app in Hr as [Hr (_ & -> & _)].
    rewrite length_app in Hl. cbn in Hl. destruct k as [|k]; [lia|].
    rewrite rev_app_distr. cbn [rev app List.find].
    destruct (b_refcnt (k_bufs s !!! y) =? 0) eqn:E.
    + apply loop_exit. unfold B. rewrite bool_decide_eq_false_2 by set_solver. kstep eq_refl.
      rewrite E. do 4 kstep eq_refl. unfold ret, updb. cbn [k_bufs with_k_bufs].
      by rewrite !list_alter_alter.
    + rewrite <- (IH ltac:(set_solver) k y); [|lia|done]. apply loop_next.
      unfold B. rewrite bool_decide_eq_false_2 by set_solver. kstep eq_refl. by rewrite E.
Qed.
End Search.

(** * The cache as one process uses it *)

(** The current content of a block: the cached copy, or the disk's. *)
Definition view (dev : Z) (s : kstate) (bno : Z) : list Z :=
  match List.find (fun b => is_block dev bno (k_bufs s !!! b) &&
                            negb (b_valid (k_bufs s !!! b) =? 0)) (seq 0 NBUF) with
  | Some b => b_data (k_bufs s !!! b)
  | None => disk_block s bno
  end.

Definition mypid (me : nat) (s : kstate) : Z := p_pid (ps_proc (k_ps s) !!! me).
Definition slock (b : nat) (s : kstate) : sleeplock := ps_sleep (k_ps s) !!! SlBuf b.

Record buf_ok (me : nat) (dev : Z) (pins : Z -> Z) (held : list nat) (s : kstate) (b : nat) : Prop := {
  bo_ref : b_refcnt (k_bufs s !!! b) =
    (if b_dev (k_bufs s !!! b) =? dev then pins (b_blockno (k_bufs s !!! b)) else 0) +
    (if bool_decide (b ∈ held) then 1 else 0);
  bo_clean : b_dev (k_bufs s !!! b) = dev -> b_valid (k_bufs s !!! b) <> 0 ->
    b_refcnt (k_bufs s !!! b) = 0 -> b_data (k_bufs s !!! b) = disk_block s (b_blockno (k_bufs s !!! b));
  bo_free : b ∉ held -> sl_locked (slock b s) = 0;
  bo_held : b ∈ held -> sl_locked (slock b s) <> 0 /\ sl_pid (slock b s) = mypid me s /\
    b_dev (k_bufs s !!! b) = dev /\ b_valid (k_bufs s !!! b) <> 0 }.

Record cache (me : nat) (dev : Z) (pins : Z -> Z) (held l : list nat) (s : kstate) : Prop := {
  ca_calm : calm me (k_ps s);
  ca_bcache : lock_free BcacheLock (khw s);
  ca_sl : forall b, (b < NBUF)%nat -> lock_free (SleepLk (SlBuf b)) (khw s);
  ca_len : length (k_bufs s) = S NBUF;
  ca_perm : l ≡ₚ seq 0 NBUF;
  ca_ring : ring (k_bufs s) l;
  ca_uniq : forall i j bno, (i < NBUF)%nat -> (j < NBUF)%nat ->
    is_block dev bno (k_bufs s !!! i) = true -> is_block dev bno (k_bufs s !!! j) = true -> i = j;
  ca_held : NoDup held /\ forall b, b ∈ held -> (b < NBUF)%nat;
  ca_pins : forall bno, 0 <= pins bno < 2 ^ 31 /\
    (0 < pins bno -> exists b, (b < NBUF)%nat /\ is_block dev bno (k_bufs s !!! b) = true /\
      b_valid (k_bufs s !!! b) <> 0);
  ca_buf : forall b, (b < NBUF)%nat -> buf_ok me dev pins held s b }.

Lemma is_block_true dev bno x : is_block dev bno x = true <-> b_dev x = dev /\ b_blockno x = bno.
Proof. unfold is_block. rewrite andb_true_iff, !Z.eqb_eq. done. Qed.

Section View.
Context {me : nat} {dev : Z} {pins : Z -> Z} {held l : list nat} {s : kstate}
  (Hc : cache me dev pins held l s).

Lemma cache_in b : b ∈ l <-> (b < NBUF)%nat.
Proof. rewrite (ca_perm _ _ _ _ _ _ Hc), elem_of_seq. lia. Qed.

Lemma cache_head : HEAD ∉ l.
Proof. rewrite cache_in. unfold HEAD. lia. Qed.

Lemma cache_length : length l = NBUF.
Proof. rewrite (Permutation_length (ca_perm _ _ _ _ _ _ Hc)). apply length_seq. Qed.

Lemma view_hit b bno :
  (b < NBUF)%nat -> is_block dev bno (k_bufs s !!! b) = true -> b_valid (k_bufs s !!! b) <> 0 ->
  view dev s bno = b_data (k_bufs s !!! b).
Proof.
  intros Hb H1 H2. unfold view. destruct (List.find _ _) as [c|] eqn:E.
  - apply List.find_some in E as [Hi E]. apply andb_true_iff in E as [E _].
    apply List.in_seq in Hi. f_equal. f_equal.
    apply (ca_uniq _ _ _ _ _ _ Hc c b bno); [lia|done..].
  - exfalso. apply List.find_none with (x := b) in E; [|apply List.in_seq; lia].
    rewrite H1 in E. cbn in E. apply negb_false_iff, Z.eqb_eq in E. done.
Qed.
End View.

Lemma view_miss dev s bno :
  (forall b, (b < NBUF)%nat -> is_block dev bno (k_bufs s !!! b) = true ->
     b_valid (k_bufs s !!! b) = 0) ->
  view dev s bno = disk_block s bno.
Proof.
  intros H. unfold view. destruct (List.find _ _) as [c|] eqn:E; [|done].
  apply List.find_some in E as [Hi E]. apply andb_true_iff in E as [E1 E2].
  apply List.in_seq in Hi. rewrite H in E2 by (done || lia). done.
Qed.

Lemma view_cases dev s bno :
  (exists b, (b < NBUF)%nat /\ is_block dev bno (k_bufs s !!! b) = true /\
     b_valid (k_bufs s !!! b) <> 0 /\ view dev s bno = b_data (k_bufs s !!! b)) \/
  (forall b, (b < NBUF)%nat -> is_block dev bno (k_bufs s !!! b) = true ->
     b_valid (k_bufs s !!! b) = 0).
Proof.
  unfold view. destruct (List.find _ _) as [c|] eqn:E.
  - left. apply List.find_some in E as [Hi E]. apply andb_true_iff in E as [E1 E2].
    apply List.in_seq in Hi. apply negb_true_iff, Z.eqb_neq in E2. exists c. by split; [lia|].
  - right. intros b Hb Hk. apply List.find_none with (x := b) in E; [|apply List.in_seq; lia].
    rewrite Hk in E. cbn in E. by apply negb_false_iff, Z.eqb_eq in E.
Qed.

(** ** Taking a buffer *)

(** Buffer [b], changed by [g], with its sleep lock taken. *)
Definition got (me b : nat) (g : buf -> buf) (s : kstate) : kstate :=
  with_k_ps (set_sleep (SlBuf b) (Sleeplock 1 (sl_name (slock b s)) (mypid me s)) (k_ps s))
    (updb b g s).

(** What [bread] does to the buffer [b] it picks for block [bno]. *)
Record picks (dev : Z) (pins : Z -> Z) (held : list nat) (s : kstate) (bno : Z) (b : nat)
  (g : buf -> buf) : Prop := {
  pk_lt : (b < NBUF)%nat;
  pk_new : b ∉ held;
  pk_next : b_next (g (k_bufs s !!! b)) = b_next (k_bufs s !!! b);
  pk_prev : b_prev (g (k_bufs s !!! b)) = b_prev (k_bufs s !!! b);
  pk_key : is_block dev bno (g (k_bufs s !!! b)) = true;
  pk_valid : b_valid (g (k_bufs s !!! b)) <> 0;
  pk_ref : b_refcnt (g (k_bufs s !!! b)) = pins bno + 1;
  pk_data : b_data (g (k_bufs s !!! b)) = view dev s bno;
  pk_old : is_block dev bno (k_bufs s !!! b) = true \/
    b_refcnt (k_bufs s !!! b) = 0 /\
    forall c, (c < NBUF)%nat -> is_block dev bno (k_bufs s !!! c) = false }.

Section Bread.
Context `{W : WaitBound} `{D : DiskDriver} `{Dok : !DiskOk}.
Context {me : nat} {dev : Z} {pins : Z -> Z} {held l : list nat} {s : kstate}
  (Hc : cache me dev pins held l s).

(** The sleep lock of a buffer that is not held is free. *)
Lemma take_lock b g :
  (b < NBUF)%nat -> b ∉ held ->
  lift (acquiresleep (SlBuf b)) (updb b g s) = Ret tt (got me b g s).
Proof using Hc.
  intros Hb Hn. destruct (ca_buf _ _ _ _ _ _ Hc b Hb) as [_ _ Hl _].
  exact (lift_Ret _ (updb b g s) _ _ (acquiresleep_free me (SlBuf b) _
    (ca_calm _ _ _ _ _ _ Hc) (ca_sl _ _ _ _ _ _ Hc b Hb) (Hl Hn))).
Qed.

Definition loaded (bno : Z) (x : buf) : buf := set_b_valid 1 (set_b_data (disk_block s bno) x).

(** The rest of [bread] once the buffer is taken. *)
Lemma fill_eq b g bno :
  (b < NBUF)%nat -> is_block dev bno (g (k_bufs s !!! b)) = true ->
  (x <- getb b ;;
   when (b_valid x =? 0) (disk_rw b false ;; modb b (set_b_valid 1)) ;;
   ret b) (got me b g s) =
  Ret b (got me b (if b_valid (g (k_bufs s !!! b)) =? 0 then fun x => loaded bno (g x) else g) s).
Proof using Hc Dok.
  intros Hb Hk. kstep eq_refl. cbn [k_bufs got updb with_k_bufs with_k_ps].
  rewrite list_lookup_total_alter_eq by (rewrite (ca_len _ _ _ _ _ _ Hc); lia).
  destruct (b_valid (g _) =? 0) eqn:E; cbn [when]; [|done].
  assert ((disk_rw b false ;; modb b (set_b_valid 1)) (got me b g s) =
    Ret tt (got me b (fun x => loaded bno (g x)) s)) as E'; [|by kstep E'].
  kstep disk_rw_ok. unfold transfer, modb, modify. f_equal.
  cbn [k_bufs got updb with_k_bufs with_k_ps k_disk disk_block].
  rewrite list_lookup_total_alter_eq by (rewrite (ca_len _ _ _ _ _ _ Hc); lia).
  apply is_block_true in Hk as [_ ->]. unfold got, updb. cbn [k_bufs with_k_bufs with_k_ps].
  by rewrite !list_alter_alter.
Qed.

Lemma bget_eq bno b g :
  (b < NBUF)%nat -> b ∉ held ->
  (r <- bget_cached dev bno ;;
   match r with Some b => ret (Some b) | None => bget_recycle dev bno end) s =
    Ret (Some b) (updb b g s) ->
  bget dev bno s = Ret b (got me b g s).
Proof using Hc.
  intros Hb Hn E. pose proof (ca_calm _ _ _ _ _ _ Hc) as H1.
  pose proof (ca_bcache _ _ _ _ _ _ Hc) as H2.
  unfold bget. kstep kacq_calm by done.
  pose proof (bget_cached_eq dev bno l s (ca_ring _ _ _ _ _ _ Hc) (cache_head Hc)) as C.
  pose proof (bget_cached_eq dev bno l (kinside BcacheLock s) (ca_ring _ _ _ _ _ _ Hc) (cache_head Hc)) as C'.
  pose proof (bget_recycle_eq dev bno l s (ca_ring _ _ _ _ _ _ Hc) (cache_head Hc)) as R.
  pose proof (bget_recycle_eq dev bno l (kinside BcacheLock s) (ca_ring _ _ _ _ _ _ Hc) (cache_head Hc)) as R'.
  rewrite (cache_length Hc) in C, C', R, R'. specialize (C (le_n _)). specialize (C' (le_n _)).
  specialize (R (le_n _)). specialize (R' (le_n _)).
  cbn [k_bufs kinside with_k_ps] in C', R'.
  destruct (List.find _ l) as [c|].
  - rewrite (bind_Ret _ _ _ _ _ C) in E. cbn in E. injection E as -> Eu.
    kstep C'. cbv iota. change (updb b incref (kinside BcacheLock s)) with (kinside BcacheLock (updb b incref s)).
    kstep krel_calm by done. rewrite (f_equal (fun v => with_k_bufs v s) Eu : updb _ _ _ = updb _ _ _).
    by kstep take_lock by done.
  - rewrite (bind_Ret _ _ _ _ _ C), R in E. kstep C'. cbv iota.
    destruct (List.find _ (rev l)) as [c|]; [|done]. injection E as -> Eu. kstep R'. cbv iota.
    change (updb b ?f (kinside BcacheLock s)) with (kinside BcacheLock (updb b f s)).
    kstep krel_calm by done. rewrite (f_equal (fun v => with_k_bufs v s) Eu : updb _ _ _ = updb _ _ _).
    by kstep take_lock by done.
Qed.

Lemma lru_pick_room bno :
  (exists b, (b < NBUF)%nat /\
     (is_block dev bno (k_bufs s !!! b) = true \/ b_refcnt (k_bufs s !!! b) = 0)) ->
  exists b, lru_pick dev bno l (k_bufs s) = Some b.
Proof using Hc.
  intros (b & Hb & Hr). unfold lru_pick. apply (cache_in Hc), list_elem_of_In in Hb.
  destruct (List.find _ l) as [c|] eqn:F; [by exists c|].
  destruct (List.find _ (rev l)) as [c|] eqn:G; [by exists c|]. exfalso.
  apply List.find_none with (x := b) in F; [|done].
  apply List.find_none with (x := b) in G; [|by apply -> List.in_rev].
  destruct Hr; [congruence|lia].
Qed.

Lemma bget_none bno :
  lru_pick dev bno l (k_bufs s) = None ->
  bget dev bno s = Panic "bget: no buffers" (kinside BcacheLock s).
Proof using Hc.
  intros E. pose proof (ca_calm _ _ _ _ _ _ Hc) as H1. pose proof (ca_bcache _ _ _ _ _ _ Hc) as H2.
  unfold bget. kstep kacq_calm by done.
  pose proof (bget_cached_eq dev bno l (kinside BcacheLock s) (ca_ring _ _ _ _ _ _ Hc) (cache_head Hc)) as C.
  pose proof (bget_recycle_eq dev bno l (kinside BcacheLock s) (ca_ring _ _ _ _ _ _ Hc) (cache_head Hc)) as R.
  rewrite (cache_length Hc) in C, R. specialize (C (le_n _)). specialize (R (le_n _)).
  cbn [k_bufs kinside with_k_ps] in C, R. unfold lru_pick in E.
  destruct (List.find _ l); [done|]. kstep C. cbv iota. rewrite E in R. by kstep R.
Qed.

Lemma bread_eq bno b :
  (forall b, b ∈ held -> b_blockno (k_bufs s !!! b) <> bno) ->
  lru_pick dev bno l (k_bufs s) = Some b ->
  exists g, bread dev bno s = Ret b (got me b g s) /\ picks dev pins held s bno b g.
Proof using Hc Dok.
  intros Hh Hpick. unfold lru_pick in Hpick.
  pose proof (bget_cached_eq dev bno l s (ca_ring _ _ _ _ _ _ Hc) (cache_head Hc)) as C.
  pose proof (bget_recycle_eq dev bno l s (ca_ring _ _ _ _ _ _ Hc) (cache_head Hc)) as R.
  rewrite (cache_length Hc) in C, R. specialize (C (le_n _)). specialize (R (le_n _)).
  destruct (List.find _ l) as [b'|] eqn:F.
  - injection Hpick as ->. apply List.find_some in F as [Hb F]. apply list_elem_of_In, (cache_in Hc) in Hb.
    apply is_block_true in F as Fk. destruct Fk as [Fd Fb].
    assert (b ∉ held) as Hn by (intros Hb'; by apply (Hh b Hb')).
    destruct (ca_buf _ _ _ _ _ _ Hc b Hb) as [Hr _ _ _].
    rewrite Fd, Z.eqb_refl, Fb, bool_decide_eq_false_2, Z.add_0_r in Hr by done.
    destruct (ca_pins _ _ _ _ _ _ Hc bno) as [Hp _].
    eexists. split.
    { unfold bread. kstep (bget_eq bno b incref Hb Hn) by (kstep C; done).
      by apply fill_eq. }
    assert (u32 (b_refcnt (k_bufs s !!! b) + 1) = pins bno + 1) as Eu
      by (rewrite Hr; unfold u32; rewrite Z.mod_small; lia).
    cbn [incref b_valid set_b_refcnt]. destruct (Z.eqb_spec (b_valid (k_bufs s !!! b)) 0) as [V|V].
    + split; try done; [|by left]. symmetry. apply view_miss. intros c Hc' E.
      by rewrite (ca_uniq _ _ _ _ _ _ Hc c b bno) by done.
    + split; try done; [|by left]. symmetry. by apply (view_hit Hc).
  - assert (forall c, (c < NBUF)%nat -> is_block dev bno (k_bufs s !!! c) = false) as Hmiss.
    { intros c Hc'. apply List.find_none with (x := c) in F; [done|].
      by apply list_elem_of_In, (cache_in Hc). }
    rewrite Hpick in R. apply List.find_some in Hpick as [Hb G].
    apply List.in_rev, list_elem_of_In, (cache_in Hc) in Hb. apply Z.eqb_eq in G.
    destruct (ca_pins _ _ _ _ _ _ Hc bno) as [Hp Hp'].
    assert (pins bno = 0) as P0.
    { destruct (decide (0 < pins bno)) as [Q|Q]; [|lia].
      destruct (Hp' Q) as (c & Hc' & E & _). by rewrite Hmiss in E. }
    assert (b ∉ held) as Hn.
    { intros Hb'. destruct (ca_buf _ _ _ _ _ _ Hc b Hb) as [Hr _ _ _].
      rewrite bool_decide_eq_true_2, G in Hr by done.
      destruct (ca_pins _ _ _ _ _ _ Hc (b_blockno (k_bufs s !!! b))) as [Hp1 _].
      destruct (_ =? dev); lia. }
    assert (is_block dev bno (recycled dev bno (k_bufs s !!! b)) = true) as Ek
      by by apply is_block_true.
    eexists. split.
    { unfold bread. kstep (bget_eq bno b (recycled dev bno) Hb Hn) by (kstep C; exact R).
      by apply fill_eq. }
    cbn [recycled b_valid set_b_refcnt set_b_valid]. rewrite Z.eqb_refl.
    split; try done; [cbn; lia| |by right].
    symmetry. apply view_miss. intros c Hc' E. by rewrite Hmiss in E.
Qed.
End Bread.

Lemma ring_ext bs bs' l :
  ring bs l ->
  (forall z, b_next (bs' !!! z) = b_next (bs !!! z) /\ b_prev (bs' !!! z) = b_prev (bs !!! z)) ->
  ring bs' l.
Proof. intros H E. apply (linked_frame bs); [done|intros z _; apply E..]. Qed.

Section Got.
Context {me : nat} {dev : Z} {pins : Z -> Z} {held l : list nat} {s : kstate}
  (Hc : cache me dev pins held l s).
Context {bno : Z} {b : nat} {g : buf -> buf} (Hp : picks dev pins held s bno b g).
Let s' := got me b g s.

Lemma got_at : k_bufs s' !!! b = g (k_bufs s !!! b).
Proof using Hc Hp.
  apply list_lookup_total_alter_eq. rewrite (ca_len _ _ _ _ _ _ Hc).
  pose proof (pk_lt _ _ _ _ _ _ _ Hp). lia.
Qed.
Lemma got_other c : b <> c -> k_bufs s' !!! c = k_bufs s !!! c.
Proof. intros H. by apply list_lookup_total_alter_ne. Qed.
Lemma slock_at : slock b s' = Sleeplock 1 (sl_name (slock b s)) (mypid me s).
Proof. apply lookup_total_insert_eq. Qed.
Lemma slock_other c : b <> c -> slock c s' = slock c s.
Proof. intros H. apply lookup_total_insert_ne. congruence. Qed.

(** A buffer that had another block had no other user. *)
Lemma picked_unused :
  is_block dev bno (k_bufs s !!! b) = false -> b_refcnt (k_bufs s !!! b) = 0.
Proof using Hp. intros H. destruct (pk_old _ _ _ _ _ _ _ Hp) as [E|[E _]]; [congruence|done]. Qed.

Lemma got_uniq i bno' :
  (i < NBUF)%nat -> b <> i -> is_block dev bno' (k_bufs s !!! i) = true -> bno' <> bno.
Proof using Hc Hp.
  intros Hi Hne E ->. destruct (pk_old _ _ _ _ _ _ _ Hp) as [E'|[_ E']]; [|by rewrite E' in E].
  apply Hne, (ca_uniq _ _ _ _ _ _ Hc b i bno); [by eapply pk_lt|done..].
Qed.

Lemma cache_got : cache me dev pins (b :: held) l s'.
Proof using Hc Hp.
  pose proof (pk_lt _ _ _ _ _ _ _ Hp) as Hb. pose proof (pk_key _ _ _ _ _ _ _ Hp) as Hk.
  pose proof Hk as Hk'. apply is_block_true in Hk' as [Hkd Hkb].
  pose proof got_at as Ea. pose proof got_other as Eo.
  destruct Hc as [H1 H2 H3 H4 H5 H6 H7 [H8 H9] H10 H11]. split; try done.
  - by apply calm_with_sleep.
  - by rewrite <- H4; apply length_alter.
  - apply (ring_ext (k_bufs s)); [done|]. intros z. destruct (decide (b = z)) as [<-|Hz].
    + rewrite Ea. split; [eapply pk_next|eapply pk_prev]; done.
    + by rewrite Eo.
  - intros i j bno' Hi Hj. destruct (decide (b = i)) as [<-|Hbi], (decide (b = j)) as [<-|Hbj];
      rewrite ?Ea, ?Eo by done; try done.
    + intros E1 E2. apply is_block_true in E1 as [_ E1]. by apply (got_uniq j bno') in E2; [congruence|..].
    + intros E1 E2. apply is_block_true in E2 as [_ E2]. by apply (got_uniq i bno') in E1; [congruence|..].
    + intros E1 E2. by apply (H7 i j bno').
  - split; [apply NoDup_cons; split; [by eapply pk_new|done]|].
    intros c Hc'. apply elem_of_cons in Hc' as [->|?]; auto.
  - intros bno'. destruct (H10 bno') as [Hp1 Hp2]. split; [done|]. intros Hp3.
    destruct (Hp2 Hp3) as (c & Hc1 & Hc2 & Hc3). destruct (decide (b = c)) as [<-|Hbc].
    + destruct (is_block dev bno (k_bufs s !!! b)) eqn:Eb.
      * exists b. rewrite Ea. split; [done|]. apply is_block_true in Eb as [_ Eb].
        apply is_block_true in Hc2 as [_ Hc2]. split; [by rewrite <- Hc2, Eb|by eapply pk_valid].
      * exfalso. pose proof (picked_unused Eb) as E0. destruct (H11 b Hb) as [Hr _ _ _].
        apply is_block_true in Hc2 as [Hc2 Hc4]. rewrite Hc2, Hc4, Z.eqb_refl in Hr.
        destruct (bool_decide _); lia.
    + exists c. by rewrite Eo.
  - intros c Hc'. destruct (decide (b = c)) as [<-|Hbc].
    + assert (b ∈ b :: held) as Hin by apply list_elem_of_here.
      split; rewrite ?Ea, ?Hkd, ?Hkb, ?slock_at.
      * rewrite Z.eqb_refl, bool_decide_eq_true_2 by done. by eapply pk_ref.
      * intros _ _ E0. exfalso. destruct (H10 bno). pose proof (pk_ref _ _ _ _ _ _ _ Hp). lia.
      * done.
      * intros _. split; [done|]. split; [done|]. split; [done|]. by eapply pk_valid.
    + assert (c ∈ b :: held <-> c ∈ held) as Hin by (clear -Hbc; set_solver).
      destruct (H11 c Hc') as [Hr Hcl Hf Hh]. split; rewrite ?Eo, ?slock_other by done; try done.
      * by rewrite Hr, (bool_decide_ext _ _ Hin).
      * by rewrite Hin.
      * by rewrite Hin.
Qed.

Lemma view_got bno' : view dev s' bno' = view dev s bno'.
Proof using Hc Hp.
  pose proof (pk_lt _ _ _ _ _ _ _ Hp) as Hb. pose proof (pk_key _ _ _ _ _ _ _ Hp) as Hk.
  destruct (decide (bno' = bno)) as [->|Hne].
  { rewrite (view_hit cache_got b bno); rewrite ?got_at; try done; by eapply pk_data || by eapply pk_valid. }
  assert (is_block dev bno' (k_bufs s' !!! b) = false) as Hb'.
  { rewrite got_at. apply not_true_iff_false. intros E. apply is_block_true in E as [_ E].
    apply is_block_true in Hk as [_ Hk]. congruence. }
  destruct (view_cases dev s bno') as [(c & Hc1 & Hc2 & Hc3 & ->)|Hmiss].
  - destruct (decide (b = c)) as [<-|Hbc]; last first.
    { rewrite (view_hit cache_got c bno'); by rewrite ?got_other. }
    apply is_block_true in Hc2 as Hc4. destruct Hc4 as [Hd <-].
    rewrite (bo_clean _ _ _ _ _ _ (ca_buf _ _ _ _ _ _ Hc b Hb)); [|done..|].
    + apply (view_miss dev s'). intros c Hc' E. destruct (decide (b = c)) as [<-|Hbc]; [congruence|].
      exfalso. rewrite got_other in E by done.
      by apply Hbc, (ca_uniq _ _ _ _ _ _ Hc b c (b_blockno (k_bufs s !!! b))).
    + apply picked_unused. apply not_true_iff_false. intros E.
      apply is_block_true in E as [_ E]. done.
  - rewrite (view_miss dev s bno') by done. apply (view_miss dev s'). intros c Hc' E.
    destruct (decide (b = c)) as [<-|Hbc]; [congruence|]. rewrite got_other in E |- * by done.
    by apply Hmiss.
Qed.
End Got.

(** Fewer pinned and held buffers than buffers: one is unused. *)
Lemma cache_room me dev pins held l s (P : list Z) :
  cache me dev pins held l s ->
  (forall bno, 0 < pins bno -> bno ∈ P) -> (length P + length held < NBUF)%nat ->
  exists b, (b < NBUF)%nat /\ b_refcnt (k_bufs s !!! b) = 0.
Proof.
  intros Hc HP Hlen.
  destruct (List.find (fun b => b_refcnt (k_bufs s !!! b) =? 0) (seq 0 NBUF)) as [b|] eqn:F.
  { apply List.find_some in F as [Hi F]. apply List.in_seq in Hi. apply Z.eqb_eq in F.
    exists b. split; [lia|done]. }
  exfalso.
  set (f b := if bool_decide (b ∈ held) then inr b else inl (b_blockno (k_bufs s !!! b)) : Z + nat).
  assert (forall b, b ∈ seq 0 NBUF -> b ∉ held ->
    b_dev (k_bufs s !!! b) = dev /\ b_blockno (k_bufs s !!! b) ∈ P) as Hb.
  { intros b Hb Hn. apply List.find_none with (x := b) in F; [|by apply list_elem_of_In].
    apply Z.eqb_neq in F. apply elem_of_seq in Hb.
    destruct (ca_buf _ _ _ _ _ _ Hc b) as [Hr _ _ _]; [lia|].
    rewrite bool_decide_eq_false_2 in Hr by done.
    destruct (Z.eqb_spec (b_dev (k_bufs s !!! b)) dev) as [Ed|Ed]; [|lia].
    split; [done|]. apply HP. destruct (ca_pins _ _ _ _ _ _ Hc (b_blockno (k_bufs s !!! b))). lia. }
  assert (NoDup (f <$> seq 0 NBUF)) as Hd.
  { apply NoDup_fmap_2_strong; [|apply NoDup_seq]. intros x y Hx Hy E. subst f. cbn in E.
    destruct (decide (x ∈ held)) as [Dx|Dx], (decide (y ∈ held)) as [Dy|Dy];
      rewrite ?(bool_decide_eq_true_2 _ Dx), ?(bool_decide_eq_true_2 _ Dy),
        ?(bool_decide_eq_false_2 _ Dx), ?(bool_decide_eq_false_2 _ Dy) in E; try congruence.
    injection E as E. destruct (Hb x Hx Dx) as [E1 _], (Hb y Hy Dy) as [E2 _].
    apply elem_of_seq in Hx, Hy.
    apply (ca_uniq _ _ _ _ _ _ Hc x y (b_blockno (k_bufs s !!! x))); [lia..|by apply is_block_true|].
    by apply is_block_true. }
  apply (NoDup_submseteq _ ((inl <$> P) ++ (inr <$> held))) in Hd.
  - apply submseteq_length in Hd. rewrite length_app, !length_fmap, length_seq in Hd. lia.
  - intros x Hx. apply list_elem_of_fmap in Hx as (b & -> & Hx). apply elem_of_app. subst f. cbn.
    destruct (decide (b ∈ held)) as [Db|Db].
    + rewrite bool_decide_eq_true_2 by done. right. apply list_elem_of_fmap. eauto.
    + rewrite bool_decide_eq_false_2 by done. left. apply list_elem_of_fmap.
      exists (b_blockno (k_bufs s !!! b)). split; [done|]. by apply Hb.
Qed.

(** ** Using a buffer that is held *)

Lemma view_ext dev s s' bno :
  k_disk s' = k_disk s ->
  (forall b, (b < NBUF)%nat -> is_block dev bno (k_bufs s' !!! b) = is_block dev bno (k_bufs s !!! b) /\
     b_valid (k_bufs s' !!! b) = b_valid (k_bufs s !!! b) /\
     (is_block dev bno (k_bufs s !!! b) = true ->
      b_data (k_bufs s' !!! b) = b_data (k_bufs s !!! b))) ->
  view dev s' bno = view dev s bno.
Proof.
  intros Hd H. unfold view, disk_block. rewrite Hd.
  assert (forall l, (forall x, x ∈ l -> (x < NBUF)%nat) ->
    List.find (fun b => is_block dev bno (k_bufs s' !!! b) && negb (b_valid (k_bufs s' !!! b) =? 0)) l =
    List.find (fun b => is_block dev bno (k_bufs s !!! b) && negb (b_valid (k_bufs s !!! b) =? 0)) l) as ->.
  { induction l as [|x l IH]; intros Hl; [done|]. cbn. destruct (H x) as (-> & -> & _); [apply Hl; set_solver|].
    rewrite IH by set_solver. done. }
  - destruct (List.find _ _) as [b|] eqn:E; [|done]. apply List.find_some in E as [E Ek].
    apply List.in_seq in E. apply andb_true_iff in Ek as [Ek _]. apply H; [lia|done].
  - intros x Hx. apply elem_of_seq in Hx. lia.
Qed.

(** Equal but for the data. *)
Definition same_meta (x y : buf) : Prop :=
  b_next x = b_next y /\ b_prev x = b_prev y /\ b_dev x = b_dev y /\ b_blockno x = b_blockno y /\
  b_valid x = b_valid y /\ b_refcnt x = b_refcnt y.

Lemma is_block_meta dev bno x y : same_meta x y -> is_block dev bno x = is_block dev bno y.
Proof. intros (_ & _ & E1 & E2 & _). unfold is_block. by rewrite E1, E2. Qed.

Lemma cache_frame me dev pins held l s s' :
  cache me dev pins held l s -> k_ps s' = k_ps s -> length (k_bufs s') = length (k_bufs s) ->
  (forall z, same_meta (k_bufs s' !!! z) (k_bufs s !!! z)) ->
  (forall b, (b < NBUF)%nat -> b_dev (k_bufs s !!! b) = dev -> b_refcnt (k_bufs s !!! b) = 0 ->
     b_data (k_bufs s' !!! b) = b_data (k_bufs s !!! b) /\
     disk_block s' (b_blockno (k_bufs s !!! b)) = disk_block s (b_blockno (k_bufs s !!! b))) ->
  cache me dev pins held l s'.
Proof.
  intros [H1 H2 H3 H4 H5 H6 H7 H8 H10 H11] Eps El Em Ed.
  assert (khw s' = khw s) as Eh by (unfold khw; by rewrite Eps).
  split; rewrite ?Eps, ?Eh, ?El; try done.
  - apply (ring_ext (k_bufs s)); [done|]. intros z. by destruct (Em z) as (? & ? & _).
  - intros i j bno Hi Hj. rewrite !(is_block_meta _ _ _ _ (Em _)). by apply H7.
  - intros bno. destruct (H10 bno) as [Hp Hq]. split; [done|]. intros Hr.
    destruct (Hq Hr) as (c & Hc1 & Hc2 & Hc3). exists c.
    rewrite (is_block_meta _ _ _ _ (Em c)). by destruct (Em c) as (_ & _ & _ & _ & -> & _).
  - intros b Hb. destruct (H11 b Hb) as [Hr Hcl Hf Hh]. pose proof (Ed b Hb) as Edb.
    destruct (Em b) as (_ & _ & E1 & E2 & E3 & E4).
    split; unfold slock, mypid; rewrite ?Eps, ?E1, ?E2, ?E3, ?E4; try done.
    intros A1 A2 A3. destruct (Edb A1 A3) as [-> ->]. by apply Hcl.
Qed.

Section Held.
Context `{W : WaitBound} `{D : DiskDriver} `{Dok : !DiskOk}.
Context {me : nat} {dev : Z} {pins : Z -> Z} {held l : list nat} {s : kstate}
  (Hc : cache me dev pins held l s).
Context {b : nat} (Hb : b ∈ held).

Lemma held_lt : (b < NBUF)%nat.
Proof. by apply (ca_held _ _ _ _ _ _ Hc). Qed.

Lemma held_ref : b_refcnt (k_bufs s !!! b) = pins (b_blockno (k_bufs s !!! b)) + 1 /\ 0 <= pins (b_blockno (k_bufs s !!! b)) < 2 ^ 31.
Proof using Hc Hb.
  destruct (ca_buf _ _ _ _ _ _ Hc b held_lt) as [Hr _ _ Hh]. destruct (Hh Hb) as (_ & _ & Ed & _).
  rewrite Ed, Z.eqb_refl, bool_decide_eq_true_2 in Hr by done.
  split; [done|]. apply (ca_pins _ _ _ _ _ _ Hc).
Qed.

Lemma held_key : is_block dev (b_blockno (k_bufs s !!! b)) (k_bufs s !!! b) = true.
Proof using Hc Hb.
  destruct (ca_buf _ _ _ _ _ _ Hc b held_lt) as [_ _ _ Hh]. destruct (Hh Hb) as (_ & _ & Ed & _).
  by apply is_block_true.
Qed.

Lemma held_valid : b_valid (k_bufs s !!! b) <> 0.
Proof using Hc Hb. by apply (ca_buf _ _ _ _ _ _ Hc b held_lt). Qed.

Lemma held_view : view dev s (b_blockno (k_bufs s !!! b)) = b_data (k_bufs s !!! b).
Proof using Hc Hb. apply (view_hit Hc); [apply held_lt|apply held_key|apply held_valid]. Qed.

(** No other buffer has the block. *)
Lemma held_only c : (c < NBUF)%nat -> b_dev (k_bufs s !!! c) = dev -> c <> b ->
  b_blockno (k_bufs s !!! c) <> b_blockno (k_bufs s !!! b).
Proof using Hc Hb.
  intros Hlt Hd Hne E. apply Hne, (ca_uniq _ _ _ _ _ _ Hc c b (b_blockno (k_bufs s !!! b))); [done|apply held_lt| |apply held_key].
  by apply is_block_true.
Qed.

(** *** Writing to the data *)
Let s1 d := updb b (set_b_data d) s.

Lemma data_meta d z : same_meta (k_bufs (s1 d) !!! z) (k_bufs s !!! z).
Proof. unfold same_meta. subst s1. cbn. by rewrite !buf_keeps. Qed.

Lemma cache_data d : cache me dev pins held l (s1 d).
Proof using Hc Hb.
  apply (cache_frame _ _ _ _ _ _ _ Hc); [done|apply length_alter|apply data_meta|].
  intros c Hlt _ Hr. split; [|done]. cbn. rewrite list_lookup_total_alter_ne; [done|].
  intros E. rewrite <- E in Hr. pose proof held_ref. lia.
Qed.

Lemma data_at d : k_bufs (s1 d) !!! b = set_b_data d (k_bufs s !!! b).
Proof using Hc Hb.
  apply list_lookup_total_alter_eq. rewrite (ca_len _ _ _ _ _ _ Hc). pose proof held_lt. lia.
Qed.

Lemma view_data d bno :
  view dev (s1 d) bno = if bno =? b_blockno (k_bufs s !!! b) then d else view dev s bno.
Proof using Hc Hb.
  destruct (Z.eqb_spec bno (b_blockno (k_bufs s !!! b))) as [->|Hne].
  - rewrite (view_hit (cache_data d) b); rewrite ?data_at; try done;
      [apply held_lt|apply held_key|apply held_valid].
  - apply view_ext; [done|]. intros c Hlt. rewrite (is_block_meta _ _ _ _ (data_meta d c)).
    split; [done|]. destruct (data_meta d c) as (_ & _ & _ & _ & -> & _). split; [done|].
    intros E. cbn. rewrite list_lookup_total_alter_ne; [done|]. intros Eb. rewrite <- Eb in E.
    apply is_block_true in E as [_ E]. by apply Hne.
Qed.

(** *** Writing it to the disk *)

Lemma held_holding : lift (holdingsleep (SlBuf b)) s = Ret true s.
Proof using Hc Hb.
  destruct (ca_buf _ _ _ _ _ _ Hc b held_lt) as [_ _ _ Hh]. destruct (Hh Hb) as (H1 & H2 & _).
  pose proof (holdingsleep_eq me (SlBuf b) (k_ps s) (ca_calm _ _ _ _ _ _ Hc)
    (ca_sl _ _ _ _ _ _ Hc b held_lt)) as E.
  unfold slock, mypid in H1, H2. rewrite (proj2 (Z.eqb_neq _ _) H1), H2, Z.eqb_refl in E.
  rewrite (lift_Ret _ s _ _ E). by destruct s.
Qed.

Lemma bwrite_eq : bwrite b s = Ret tt (transfer b true s).
Proof using Hc Hb Dok. unfold bwrite. kstep held_holding. apply disk_rw_ok. Qed.

Lemma cache_bwrite : cache me dev pins held l (transfer b true s).
Proof using Hc Hb.
  apply (cache_frame _ _ _ _ _ _ _ Hc); [done..|by unfold same_meta|].
  intros c Hlt Hd Hr. split; [done|]. unfold disk_block, transfer. cbn.
  rewrite lookup_insert_ne; [done|]. intros E. symmetry in E. revert E. apply held_only; [done..|].
  intros E. rewrite E in Hr. pose proof held_ref. lia.
Qed.

Lemma view_bwrite bno : view dev (transfer b true s) bno = view dev s bno.
Proof using Hc Hb.
  destruct (view_cases dev s bno) as [(c & H1 & H2 & H3 & ->)|Hm].
  - by apply (view_hit cache_bwrite).
  - rewrite (view_miss dev s bno) by done. rewrite view_miss by done.
    unfold disk_block, transfer. cbn. rewrite lookup_insert_ne; [done|]. intros E.
    apply held_valid, (Hm b); [apply held_lt|]. rewrite <- E. apply held_key.
Qed.
End Held.

(** ** Giving a buffer back *)

Definition decref (x : buf) : buf := set_b_refcnt (u32 (b_refcnt x - 1)) x.
Definition put_back (b : nat) (bs : list buf) : list buf :=
  let bs1 := alter decref b bs in
  if b_refcnt (bs1 !!! b) =? 0 then push_front b (unlink b bs1) else bs1.
Definition gave (me b : nat) (s : kstate) : kstate :=
  with_k_ps (woken (ChSleep (SlBuf b)) me
    (set_sleep (SlBuf b) (Sleeplock 0 (sl_name (slock b s)) 0) (k_ps s)))
    (with_k_bufs (put_back b (k_bufs s)) s).

(** The fields that the list operations leave alone. *)
Lemma unlink_keeps {A} (p : buf -> A) b z bs :
  (forall v x, p (set_b_next v x) = p x) -> (forall v x, p (set_b_prev v x) = p x) ->
  p (unlink b bs !!! z) = p (bs !!! z).
Proof. intros H1 H2. unfold unlink. by rewrite !buf_keeps. Qed.

Lemma push_front_keeps {A} (p : buf -> A) b z bs :
  (forall v x, p (set_b_next v x) = p x) -> (forall v x, p (set_b_prev v x) = p x) ->
  p (push_front b bs !!! z) = p (bs !!! z).
Proof. intros H1 H2. unfold push_front. by rewrite !buf_keeps. Qed.

Lemma put_back_keeps {A} (p : buf -> A) b z bs :
  (forall v x, p (set_b_next v x) = p x) -> (forall v x, p (set_b_prev v x) = p x) ->
  p (put_back b bs !!! z) = p (alter decref b bs !!! z).
Proof.
  intros H1 H2. unfold put_back. destruct (_ =? 0); [|done].
  by rewrite push_front_keeps, unlink_keeps.
Qed.

Lemma length_put_back b bs : length (put_back b bs) = length bs.
Proof.
  unfold put_back, push_front, unlink. destruct (_ =? 0); by rewrite !length_alter.
Qed.

Lemma filter_ne (b : nat) l1 l2 :
  NoDup (l1 ++ b :: l2) -> filter (fun x => x <> b) (l1 ++ b :: l2) = l1 ++ l2.
Proof.
  intros Hd. apply NoDup_app in Hd as (_ & H12 & Hd). apply NoDup_cons in Hd as [Hb _].
  assert (forall l : list nat, b ∉ l -> filter (fun x => x <> b) l = l) as H.
  { induction l as [|x l IH]; intros Hn; [done|]. rewrite filter_cons_True, IH by set_solver. done. }
  rewrite filter_app, filter_cons_False by naive_solver. rewrite !H; [done|done|].
  intros Hn. apply (H12 b); set_solver.
Qed.

Lemma lru_move_perm b last l : NoDup l -> b ∈ l -> lru_move b last l ≡ₚ l.
Proof.
  intros Hd Hb. unfold lru_move. destruct last; [|done].
  apply list_elem_of_split in Hb as (l1 & l2 & ->). rewrite filter_ne by done. apply Permutation_middle.
Qed.

Lemma ring_put_back b bs l :
  ring bs l -> NoDup (HEAD :: l) -> b ∈ l -> (forall x, x ∈ HEAD :: l -> (x < length bs)%nat) ->
  ring (put_back b bs) (lru_move b (b_refcnt (alter decref b bs !!! b) =? 0) l).
Proof.
  intros Hr Hd Hb Hlt. set (bs1 := alter decref b bs).
  assert (ring bs1 l) as Hr1.
  { apply (ring_ext bs); [done|]. intros z. subst bs1. by rewrite !buf_keeps. }
  unfold put_back, lru_move. fold bs1. destruct (_ =? 0); [|done].
  apply list_elem_of_split in Hb as (l1 & l2 & ->). rewrite filter_ne by by apply NoDup_cons in Hd as [_ Hd].
  assert (b :: l1 ++ l2 ≡ₚ l1 ++ b :: l2) as Hp by apply Permutation_middle.
  apply ring_push.
  - apply ring_unlink; [done|done|]. intros x Hx. subst bs1. rewrite length_alter. by apply Hlt.
  - by rewrite Hp.
  - intros x. rewrite Hp. unfold unlink. rewrite !length_alter. subst bs1. rewrite length_alter. apply Hlt.
Qed.

Lemma cache_perm me dev pins held held' l s :
  held ≡ₚ held' -> cache me dev pins held l s -> cache me dev pins held' l s.
Proof.
  intros Hp [H1 H2 H3 H4 H5 H6 H7 [H8 H9] H10 H11].
  assert (forall c, c ∈ held' <-> c ∈ held) as E by (intros c; by rewrite Hp).
  split; try done.
  - split; [by rewrite <- Hp|]. intros c Hc. by apply H9, E.
  - intros c Hc. destruct (H11 c Hc) as [Hr Hcl Hf Hh]. split; try done.
    + by rewrite (bool_decide_ext _ _ (E c)).
    + by rewrite E.
    + by rewrite E.
Qed.

Section Brelse.
Context {me : nat} {dev : Z} {pins : Z -> Z} {held l : list nat} {s : kstate} {b : nat}
  (Hc : cache me dev pins (b :: held) l s).
Let Hb : b ∈ b :: held := list_elem_of_here b held.

Lemma brelse_eq : brelse b s = Ret tt (gave me b s).
Proof using Hc.
  pose proof (held_lt Hc Hb) as Hlt. pose proof (ca_calm _ _ _ _ _ _ Hc) as H1.
  unfold brelse. kstep (held_holding Hc Hb). cbn [negb].
  set (s1 := with_k_ps (woken (ChSleep (SlBuf b)) me
    (set_sleep (SlBuf b) (Sleeplock 0 (sl_name (slock b s)) 0) (k_ps s))) s).
  assert (lift (releasesleep (SlBuf b)) s = Ret tt s1) as E1.
  { exact (lift_Ret _ s _ _ (releasesleep_eq me (SlBuf b) _ H1 (ca_sl _ _ _ _ _ _ Hc b Hlt))). }
  assert (calm me (k_ps s1)) as H2 by by apply calm_woken, calm_with_sleep.
  assert (lock_free BcacheLock (khw s1)) as H3 by apply (ca_bcache _ _ _ _ _ _ Hc).
  kstep E1. kstep (kacq_calm me BcacheLock s1 H2 H3). kstep eq_refl. kstep eq_refl.
  set (bs1 := alter decref b (k_bufs s)).
  change (with_k_bufs _ (kinside BcacheLock s1)) with (kinside BcacheLock (with_k_bufs bs1 s1)).
  cbn [k_bufs with_k_bufs kinside with_k_ps]. 
  unfold gave, put_back. fold bs1. destruct (b_refcnt (bs1 !!! b) =? 0) eqn:Er; cbn [when].
  - erewrite bind_Ret; last first.
    { do 3 kstep eq_refl. do 3 kstep eq_refl. kstep eq_refl. reflexivity. }
    match goal with |- krel _ ?st = _ =>
      assert (st = kinside BcacheLock (with_k_bufs (push_front b (unlink b bs1)) s1)) as -> end.
    { unfold kinside. cbn [k_bufs k_ps with_k_bufs with_k_ps]. unfold push_front. fold (unlink b bs1).
      assert (forall v w (bs : list buf), b_next (alter (set_b_prev v) b (alter (set_b_next w) b bs) !!! HEAD) =
        b_next (bs !!! HEAD)) as HH.
      { intros v w bs. rewrite next_of_prev, list_lookup_total_alter_ne by (unfold HEAD; lia). done. }
      by rewrite !HH. }
    exact (krel_calm me BcacheLock (with_k_bufs (push_front b (unlink b bs1)) s1) H2 H3).
  - kstep eq_refl. exact (krel_calm me BcacheLock (with_k_bufs bs1 s1) H2 H3).
Qed.

Lemma gave_refcnt z :
  b_refcnt (k_bufs (gave me b s) !!! z) =
    b_refcnt (k_bufs s !!! z) - if bool_decide (z = b) then 1 else 0.
Proof using Hc.
  pose proof (held_ref Hc Hb) as [Hr Hp]. cbn. rewrite put_back_keeps by done.
  destruct (decide (z = b)) as [->|Hz].
  - rewrite bool_decide_eq_true_2 by done.
    rewrite list_lookup_total_alter_eq by (rewrite (ca_len _ _ _ _ _ _ Hc); pose proof (held_lt Hc Hb); lia).
    cbn. unfold u32. rewrite Z.mod_small; lia.
  - rewrite bool_decide_eq_false_2 by done. rewrite list_lookup_total_alter_ne by done. lia.
Qed.

Lemma gave_keeps {A} (p : buf -> A) z :
  (forall v x, p (set_b_next v x) = p x) -> (forall v x, p (set_b_prev v x) = p x) ->
  (forall v x, p (set_b_refcnt v x) = p x) ->
  p (k_bufs (gave me b s) !!! z) = p (k_bufs s !!! z).
Proof. intros H1 H2 H3. cbn. rewrite put_back_keeps by done. by apply buf_keeps; intros; apply H3. Qed.

Lemma gave_block dev' bno z :
  is_block dev' bno (k_bufs (gave me b s) !!! z) = is_block dev' bno (k_bufs s !!! z).
Proof. by apply gave_keeps. Qed.

Lemma gave_slock c :
  slock c (gave me b s) = if bool_decide (c = b) then Sleeplock 0 (sl_name (slock b s)) 0 else slock c s.
Proof.
  unfold slock. cbn. destruct (decide (c = b)) as [->|Hz].
  - rewrite bool_decide_eq_true_2 by done. apply lookup_total_insert_eq.
  - rewrite bool_decide_eq_false_2 by done. apply lookup_total_insert_ne. congruence.
Qed.

Lemma view_gave bno : view dev (gave me b s) bno = view dev s bno.
Proof.
  apply view_ext; [done|]. intros c _. rewrite gave_block. split; [done|].
  split; [by apply gave_keeps|]. intros _. by apply gave_keeps.
Qed.

Lemma cache_gave :
  0 < pins (b_blockno (k_bufs s !!! b)) \/
    b_data (k_bufs s !!! b) = disk_block s (b_blockno (k_bufs s !!! b)) ->
  cache me dev pins held (lru_move b (pins (b_blockno (k_bufs s !!! b)) =? 0) l) (gave me b s).
Proof using Hc.
  intros Hclean. pose proof (held_ref Hc Hb) as [Hr _]. pose proof gave_refcnt as Hrc.
  assert (b_refcnt (alter decref b (k_bufs s) !!! b) = pins (b_blockno (k_bufs s !!! b))) as Hr0.
  { rewrite <- (put_back_keeps b_refcnt) by done. change (put_back b (k_bufs s)) with (k_bufs (gave me b s)).
    rewrite Hrc, bool_decide_eq_true_2 by done. lia. }
  pose proof (cache_in Hc) as Hin. pose proof (cache_head Hc) as Hh.
  destruct Hc as [H1 H2 H3 H4 H5 H6 H7 [H8 H9] H10 H11].
  apply NoDup_cons in H8 as [H8 H8'].
  assert (NoDup l) as Hdl by (rewrite H5; apply NoDup_seq).
  assert (b ∈ l) as Hbl by by apply Hin, H9.
  pose proof (ring_put_back b (k_bufs s) l H6) as Hr'. rewrite Hr0 in Hr'.
  pose proof (lru_move_perm b (pins (b_blockno (k_bufs s !!! b)) =? 0) l Hdl Hbl) as Hp.
  set (l' := lru_move _ _ l) in *.
  split; try done.
  - by apply calm_woken, calm_with_sleep.
  - cbn. by rewrite length_put_back.
  - by rewrite Hp.
  - apply Hr'; [by apply NoDup_cons|done|].
    intros x Hx. apply elem_of_cons in Hx as [->|Hx]; [unfold HEAD; lia|]. apply Hin in Hx. lia.
  - intros i j bno Hi Hj. rewrite !gave_block. by apply H7.
  - split; [done|]. intros c Hc'. apply H9. set_solver.
  - intros bno. destruct (H10 bno) as [Hp1 Hp2]. split; [done|]. intros Hp3.
    destruct (Hp2 Hp3) as (c & Hc1 & Hc2 & Hc3). exists c. rewrite gave_block.
    split; [done|]. split; [done|]. by rewrite (gave_keeps b_valid).
  - intros c Hc'. destruct (H11 c Hc') as [Qr Qc Qf Qh].
    split; rewrite ?Hrc, ?(gave_keeps b_dev), ?(gave_keeps b_blockno), ?(gave_keeps b_valid),
      ?(gave_keeps b_data), ?gave_slock by done.
    + rewrite Qr. destruct (decide (c = b)) as [->|Hz].
      * rewrite (bool_decide_eq_true_2 (b ∈ b :: held)), (bool_decide_eq_true_2 (b = b)),
          (bool_decide_eq_false_2 (b ∈ held)) by done. lia.
      * rewrite (bool_decide_eq_false_2 (c = b)) by done.
        rewrite (bool_decide_ext (c ∈ b :: held) (c ∈ held)) by (clear -Hz; set_solver). lia.
    + intros A1 A2. destruct (decide (c = b)) as [->|Hz].
      * rewrite bool_decide_eq_true_2 by done. intros A3. destruct Hclean; [lia|done].
      * rewrite (bool_decide_eq_false_2 (c = b)), Z.sub_0_r by done. auto.
    + intros A. destruct (decide (c = b)) as [->|Hz]; [by rewrite bool_decide_eq_true_2|].
      rewrite bool_decide_eq_false_2 by done. apply Qf. clear -A Hz. set_solver.
    + intros A. rewrite bool_decide_eq_false_2 by (intros ->; done).
      assert (mypid me (gave me b s) = mypid me s) as -> by apply woken_pid.
      apply Qh. clear -A. set_solver.
Qed.
End Brelse.

(** ** Dropping a pin *)

Definition unpin (bno : Z) (pins : Z -> Z) : Z -> Z :=
  fun x => if x =? bno then pins x - 1 else pins x.

Section Bunpin.
Context {me : nat} {dev : Z} {pins : Z -> Z} {held l : list nat} {s : kstate} {b : nat}
  (Hc : cache me dev pins held l s) (Hb : b ∈ held).

Lemma bunpin_eq : bunpin b s = Ret tt (updb b decref s).
Proof using Hc.
  pose proof (ca_calm _ _ _ _ _ _ Hc) as H1. pose proof (ca_bcache _ _ _ _ _ _ Hc) as H2.
  unfold bunpin. kstep (kacq_calm me BcacheLock s H1 H2). kstep eq_refl.
  exact (krel_calm me BcacheLock (updb b decref s) H1 H2).
Qed.

Lemma view_bunpin bno : view dev (updb b decref s) bno = view dev s bno.
Proof.
  apply view_ext; [done|]. intros c _. cbn.
  rewrite (buf_keeps (is_block dev bno) decref), (buf_keeps b_valid decref), (buf_keeps b_data decref) by done.
  done.
Qed.

Lemma cache_bunpin :
  0 < pins (b_blockno (k_bufs s !!! b)) ->
  cache me dev (unpin (b_blockno (k_bufs s !!! b)) pins) held l (updb b decref s).
Proof using Hc Hb.
  intros Hpos. pose proof (held_ref Hc Hb) as [Hr _]. pose proof (held_lt Hc Hb) as Hlt.
  pose proof (held_only Hc Hb) as Honly. pose proof (held_valid Hc Hb) as Hv.
  pose proof (held_key Hc Hb) as Hk.
  destruct Hc as [H1 H2 H3 H4 H5 H6 H7 H8 H10 H11].
  assert (forall {A} (p : buf -> A) z, (forall v x, p (set_b_refcnt v x) = p x) ->
    p (k_bufs (updb b decref s) !!! z) = p (k_bufs s !!! z)) as K.
  { intros A p z H. apply buf_keeps. intros x. apply H. }
  split; try done.
  - cbn. by rewrite length_alter.
  - apply (ring_ext (k_bufs s)); [done|]. intros z. by rewrite !K.
  - intros i j bno Hi Hj. rewrite !(K _ (is_block dev bno)) by done. by apply H7.
  - intros bno. destruct (H10 bno) as [Hp Hq]. unfold unpin. split.
    + destruct (Z.eqb_spec bno (b_blockno (k_bufs s !!! b))) as [->|]; lia.
    + intros Hp'. destruct Hq as (c & Hc1 & Hc2 & Hc3); [destruct (_ =? _); lia|]. exists c.
      by rewrite (K _ (is_block dev bno)), (K _ b_valid).
  - intros c Hlt'. destruct (H11 c Hlt') as [Qr Qc Qf Qh].
    split; rewrite ?(K _ b_dev), ?(K _ b_blockno), ?(K _ b_valid), ?(K _ b_data) by done; try done.
    + destruct (decide (b = c)) as [<-|Hz].
      * cbn. rewrite list_lookup_total_alter_eq by lia. cbn.
        apply is_block_true in Hk as [-> _]. rewrite Z.eqb_refl, bool_decide_eq_true_2 by done.
        unfold unpin. rewrite Z.eqb_refl, Hr. unfold u32.
        destruct (H10 (b_blockno (k_bufs s !!! b))) as [Hp _]. rewrite Z.mod_small; lia.
      * cbn. rewrite list_lookup_total_alter_ne by done. rewrite Qr. f_equal.
        destruct (Z.eqb_spec (b_dev (k_bufs s !!! c)) dev) as [Ed|]; [|done].
        unfold unpin. by rewrite (proj2 (Z.eqb_neq _ _) (Honly c Hlt' Ed (not_eq_sym Hz))).
    + intros A1 A2 A3. apply Qc; [done..|]. destruct (decide (b = c)) as [<-|Hz].
      * exfalso. cbn in A3. rewrite list_lookup_total_alter_eq in A3 by lia. cbn in A3.
        destruct (H10 (b_blockno (k_bufs s !!! b))) as [Hp _].
        unfold u32 in A3. rewrite Z.mod_small in A3; lia.
      * cbn in A3. by rewrite list_lookup_total_alter_ne in A3.
Qed.
End Bunpin.

(** ** Adding a pin *)

Definition pin (bno : Z) (pins : Z -> Z) : Z -> Z :=
  fun x => if x =? bno then pins x + 1 else pins x.

Lemma bpin_eq me b s :
  calm me (k_ps s) -> lock_free BcacheLock (khw s) -> bpin b s = Ret tt (updb b incref s).
Proof.
  intros H1 H2. unfold bpin. kstep (kacq_calm me BcacheLock s H1 H2). kstep eq_refl.
  exact (krel_calm me BcacheLock (updb b incref s) H1 H2).
Qed.

Lemma cache_bpin me dev pins held l s b :
  cache me dev pins held l s -> b ∈ held -> pins (b_blockno (k_bufs s !!! b)) < 2 ^ 31 - 1 ->
  cache me dev (pin (b_blockno (k_bufs s !!! b)) pins) held l (updb b incref s).
Proof.
  intros Hc Hb Hmax. pose proof (held_ref Hc Hb) as [Hr Hp0]. pose proof (held_lt Hc Hb) as Hlt.
  pose proof (held_only Hc Hb) as Honly. pose proof (held_valid Hc Hb) as Hv.
  pose proof (held_key Hc Hb) as Hk.
  destruct Hc as [H1 H2 H3 H4 H5 H6 H7 H8 H10 H11].
  assert (forall {A} (p : buf -> A) z, (forall v x, p (set_b_refcnt v x) = p x) ->
    p (k_bufs (updb b incref s) !!! z) = p (k_bufs s !!! z)) as K.
  { intros A p z H. apply buf_keeps. intros x. apply H. }
  split; try done.
  - cbn. by rewrite length_alter.
  - apply (ring_ext (k_bufs s)); [done|]. intros z. by rewrite !K.
  - intros i j bno Hi Hj. rewrite !(K _ (is_block dev bno)) by done. by apply H7.
  - intros bno. destruct (H10 bno) as [Hp Hq]. unfold pin.
    destruct (Z.eqb_spec bno (b_blockno (k_bufs s !!! b))) as [->|].
    + split; [lia|]. intros _. exists b. by rewrite (K _ (is_block dev _)), (K _ b_valid).
    + split; [done|]. intros Hp'. destruct (Hq Hp') as (c & Hc1 & Hc2 & Hc3). exists c.
      by rewrite (K _ (is_block dev bno)), (K _ b_valid).
  - intros c Hlt'. destruct (H11 c Hlt') as [Qr Qc Qf Qh].
    split; rewrite ?(K _ b_dev), ?(K _ b_blockno), ?(K _ b_valid), ?(K _ b_data) by done; try done.
    + destruct (decide (b = c)) as [<-|Hz].
      * cbn. rewrite list_lookup_total_alter_eq by lia. cbn.
        apply is_block_true in Hk as [-> _]. rewrite Z.eqb_refl, bool_decide_eq_true_2 by done.
        unfold pin. rewrite Z.eqb_refl, Hr. unfold u32. rewrite Z.mod_small; lia.
      * cbn. rewrite list_lookup_total_alter_ne by done. rewrite Qr. f_equal.
        destruct (Z.eqb_spec (b_dev (k_bufs s !!! c)) dev) as [Ed|]; [|done].
        unfold pin. by rewrite (proj2 (Z.eqb_neq _ _) (Honly c Hlt' Ed (not_eq_sym Hz))).
    + intros A1 A2 A3. apply Qc; [done..|]. destruct (decide (b = c)) as [<-|Hz].
      * exfalso. cbn in A3. rewrite list_lookup_total_alter_eq in A3 by lia. cbn in A3.
        unfold u32 in A3. rewrite Z.mod_small in A3; lia.
      * cbn in A3. by rewrite list_lookup_total_alter_ne in A3.
Qed.

Lemma view_bpin dev b s bno : view dev (updb b incref s) bno = view dev s bno.
Proof.
  apply view_ext; [done|]. intros c _. cbn.
  rewrite (buf_keeps (is_block dev bno) incref), (buf_keeps b_valid incref), (buf_keeps b_data incref) by done.
  done.
Qed.

Lemma cache_pins me dev pins pins' held l s :
  (forall x, pins x = pins' x) -> cache me dev pins held l s -> cache me dev pins' held l s.
Proof.
  intros E [C1 C2 C3 C4 C5 C6 C7 C8 C10 C11]. split; try done.
  - intros b. rewrite <- E. apply C10.
  - intros b Hb. destruct (C11 b Hb) as [Q1 Q2 Q3 Q4]. split; try done. by rewrite <- E.
Qed.

(** The log is not the cache's business. *)
Lemma cache_log me dev pins held l s lg :
  cache me dev pins held l s -> cache me dev pins held l (with_k_log lg s).
Proof.
  intros [C1 C2 C3 C4 C5 C6 C7 C8 C10 C11]. split; try done. intros b Hb. by destruct (C11 b Hb).
Qed.

Lemma view_clean me dev pins l s bno :
  cache me dev pins [] l s -> pins bno = 0 -> view dev s bno = disk_block s bno.
Proof.
  intros Hc Hp. destruct (view_cases dev s bno) as [(b & Hb & Hk & Hv & ->)|Hm]; [|by apply view_miss].
  apply is_block_true in Hk as [Hd <-]. destruct (ca_buf _ _ _ _ _ _ Hc b Hb) as [Qr Qc _ _].
  apply Qc; [done..|]. by rewrite Qr, Hd, Z.eqb_refl, bool_decide_eq_false_2, Hp by set_solver.
Qed.

(** * The interface for the layers above *)

(** The sleep locks of the inode table, and the process ids. *)
Definition inode_locks (s : kstate) : list sleeplock := (fun i => ps_sleep (k_ps s) !!! SlInode i) <$> seq 0 NINODE.
Definition pids (s : kstate) : list Z := p_pid <$> ps_proc (k_ps s).

(** Everything but the states of the processes, the buffers with their sleep
    locks, and the disk. *)
Definition rest (s : kstate) :=
  (k_log s, k_sb s, k_itable s, k_ftable s, k_pipes s,
   (k_cons s, k_uart s, k_first s, k_vd s, k_mmio s), khw s, inode_locks s, pids s).

Lemma got_rest me b g s : rest (got me b g s) = rest s.
Proof.
  unfold rest. f_equal. f_equal. apply list_fmap_ext. intros i x _. cbn. by rewrite lookup_total_insert_ne.
Qed.

Lemma gave_rest me b s : rest (gave me b s) = rest s.
Proof.
  unfold rest. f_equal; [f_equal|].
  - apply list_fmap_ext. intros i x _. cbn. by rewrite lookup_total_insert_ne.
  - apply list_eq. intros i. unfold pids. rewrite !list_lookup_fmap. cbn. rewrite list_lookup_imap.
    destruct (ps_proc (k_ps s) !! i) as [p|]; [|done]. cbn. unfold wake. by destruct (_ && _).
Qed.

Section Interface.
Context `{W : WaitBound} `{D : DiskDriver} `{Dok : !DiskOk}.
Context {me : nat} {dev : Z} {pins : Z -> Z} {held l : list nat} {s : kstate}.

Lemma bread_spec bno :
  cache me dev pins held l s ->
  (forall b, b ∈ held -> b_blockno (k_bufs s !!! b) <> bno) ->
  (exists b, (b < NBUF)%nat /\
     (is_block dev bno (k_bufs s !!! b) = true \/ b_refcnt (k_bufs s !!! b) = 0)) ->
  exists b s', bread dev bno s = Ret b s' /\ cache me dev pins (b :: held) l s' /\
    b_blockno (k_bufs s' !!! b) = bno /\ b_data (k_bufs s' !!! b) = view dev s bno /\
    (forall x, view dev s' x = view dev s x) /\
    (forall c, c ∈ held -> k_bufs s' !!! c = k_bufs s !!! c) /\
    k_disk s' = k_disk s /\ k_hist s' = k_hist s /\ rest s' = rest s.
Proof using Dok.
  intros Hc Hn Hroom. destruct (lru_pick_room Hc bno Hroom) as [b Hb].
  destruct (bread_eq Hc bno b Hn Hb) as (g & E & Hp).
  exists b, (got me b g s). split; [done|]. split; [by eapply cache_got|].
  pose proof (pk_key _ _ _ _ _ _ _ Hp) as Hk. apply is_block_true in Hk as [_ Hk].
  rewrite (got_at Hc Hp). split; [done|]. split; [by eapply pk_data|].
  split; [intros; by eapply view_got|]. split; [|split; [done|split; [done|apply got_rest]]].
  intros c Hc'. apply got_other. intros <-. by eapply pk_new.
Qed.

Lemma brelse_spec b held' :
  cache me dev pins held l s -> held ≡ₚ b :: held' ->
  0 < pins (b_blockno (k_bufs s !!! b)) \/
    b_data (k_bufs s !!! b) = disk_block s (b_blockno (k_bufs s !!! b)) ->
  exists l' s', brelse b s = Ret tt s' /\ cache me dev pins held' l' s' /\
    (forall x, view dev s' x = view dev s x) /\
    (forall c, b_blockno (k_bufs s' !!! c) = b_blockno (k_bufs s !!! c) /\
               b_data (k_bufs s' !!! c) = b_data (k_bufs s !!! c)) /\
    k_disk s' = k_disk s /\ k_hist s' = k_hist s /\ rest s' = rest s.
Proof.
  intros Hc Hp Hcl. apply (cache_perm _ _ _ _ _ _ _ Hp) in Hc.
  exists (lru_move b (pins (b_blockno (k_bufs s !!! b)) =? 0) l), (gave me b s).
  split; [by eapply brelse_eq|]. split; [by apply cache_gave|]. split; [intros; apply view_gave|].
  split; [|split; [done|split; [done|apply gave_rest]]]. intros c. split; by apply gave_keeps.
Qed.
End Interface.

(** * The cache refines an LRU cache of blocks *)

Section Refinement.
Context `{W : WaitBound} `{D : DiskDriver} `{Dok : !DiskOk}.

(** C9. The buffer cache is an LRU cache of the disk's blocks.  [bread] hands
    out, with its sleep lock held, the buffer that has the block, else the
    least recently used buffer that nobody uses, and panics when every buffer
    is in use; the buffer has the block's current content, and no block's
    content changes, whatever buffer is recycled.  [brelse] puts a buffer that
    is used no more at the front of the list, leaves the order alone
    otherwise, and lets the cache drop the block only if the disk has it. *)
Theorem cache_refines_lru me dev pins held l s bno
  (Hc : cache me dev pins held l s)
  (Hn : forall b, b ∈ held -> b_blockno (k_bufs s !!! b) <> bno) :
  match lru_pick dev bno l (k_bufs s) with
  | None => bread dev bno s = Panic "bget: no buffers" (kinside BcacheLock s)
  | Some b => exists s1, bread dev bno s = Ret b s1 /\ cache me dev pins (b :: held) l s1 /\
      b_blockno (k_bufs s1 !!! b) = bno /\ b_data (k_bufs s1 !!! b) = view dev s bno /\
      (forall x, view dev s1 x = view dev s x) /\ k_disk s1 = k_disk s /\
      (0 < pins bno \/ view dev s bno = disk_block s bno ->
       exists s2, brelse b s1 = Ret tt s2 /\
         cache me dev pins held (lru_move b (pins bno =? 0) l) s2 /\
         forall x, view dev s2 x = view dev s x)
  end.
Proof using Dok.
  destruct (lru_pick dev bno l (k_bufs s)) as [b|] eqn:E; last first.
  { unfold bread. by erewrite bind_Panic by by eapply bget_none. }
  destruct (bread_eq Hc bno b Hn E) as (g & Eb & Hp).
  pose proof (cache_got Hc Hp) as C1. pose proof (pk_key _ _ _ _ _ _ _ Hp) as Hk.
  apply is_block_true in Hk as [_ Hk].
  exists (got me b g s). rewrite (got_at Hc Hp). split; [done|]. split; [done|]. split; [done|].
  split; [by eapply pk_data|]. split; [intros x; by eapply view_got|]. split; [done|].
  intros Hcl. exists (gave me b (got me b g s)). split; [by apply (brelse_eq C1)|].
  pose proof (cache_gave C1) as C2. rewrite (got_at Hc Hp), Hk, (pk_data _ _ _ _ _ _ _ Hp) in C2.
  split; [by apply C2|]. intros x. rewrite view_gave. by eapply view_got.
Qed.
End Refinement.

(** * Example: the first [m] buffers hold the pinned blocks 100, 101, ... *)

Definition demo_buf (m i : nat) : buf :=
  if (i <? m)%nat then
    Buf 1 0 1 (100 + Z.of_nat i) 1 ((i + 30) mod 31) ((i + 1) mod 31) (replicate (Z.to_nat BSIZE) 7)
  else Buf 0 0 0 0 0 ((i + 30) mod 31) ((i + 1) mod 31) zero_block.
Definition demo_log (m : nat) : logstate :=
  Log 2 0 0 1 (Z.of_nat m) ((fun i => 100 + Z.of_nat i) <$> seq 0 LOGBLOCKS).
Definition demo_k (m : nat) : kstate :=
  KState (demo_running 0) (demo_buf m <$> seq 0 31) ∅ [] (demo_log m) (sb_of zero_block) [] [] ∅
    (Consbuf [] 0 0 0) (Uart 0 [] true []) false
    (VDisk (0, 0, 0) [] 0 [] 0 [] [] 0 [] []) (Mmio (fun _ _ => 0) 0 []).
Definition demo_pins (m : nat) (b : Z) : Z := if (100 <=? b) && (b <? 100 + Z.of_nat m) then 1 else 0.

Lemma demo_at m i : (i < 31)%nat -> k_bufs (demo_k m) !!! i = demo_buf m i.
Proof.
  intros H. apply list_lookup_total_correct. cbn [k_bufs demo_k].
  by rewrite list_lookup_fmap, lookup_seq_lt.
Qed.

Lemma demo_cache m : (m <= 30)%nat -> cache 1 1 (demo_pins m) [] (seq 0 NBUF) (demo_k m).
Proof.
  intros Hm. pose proof (eq_refl : NBUF = 30%nat) as EN. split.
  - apply demo_calm.
  - by eapply demo_lock_free.
  - intros b Hb. by apply demo_sleep_free.
  - reflexivity.
  - done.
  - unfold ring. change HEAD with 30%nat. change NBUF with 30%nat.
    assert (forall i, (i < 31)%nat -> b_next (k_bufs (demo_k m) !!! i) = ((i + 1) mod 31)%nat) as E1.
    { intros i Hi. rewrite demo_at by done. unfold demo_buf. by destruct (_ <? _)%nat. }
    assert (forall i, (i < 31)%nat -> b_prev (k_bufs (demo_k m) !!! i) = ((i + 30) mod 31)%nat) as E2.
    { intros i Hi. rewrite demo_at by done. unfold demo_buf. by destruct (_ <? _)%nat. }
    cbn [seq app linked]. rewrite !E1, !E2 by lia. repeat split.
  - intros i j bno Hi Hj. rewrite !demo_at by lia. rewrite !is_block_true.
    unfold demo_buf. destruct (_ <? m)%nat, (_ <? m)%nat; cbn; lia.
  - split; [constructor|set_solver].
  - intros bno. unfold demo_pins. split; [destruct (_ && _); lia|]. intros Hp.
    destruct ((100 <=? bno) && (bno <? 100 + Z.of_nat m)) eqn:E; [|lia].
    exists (Z.to_nat (bno - 100)). assert (Z.to_nat (bno - 100) < m)%nat by lia.
    split; [lia|]. rewrite demo_at by lia. unfold demo_buf. rewrite (proj2 (Nat.ltb_lt _ _)) by done.
    rewrite is_block_true. cbn. lia.
  - intros b Hb. assert (k_bufs (demo_k m) !!! b = demo_buf m b) as E by (apply demo_at; lia).
    split; rewrite ?E; unfold demo_buf.
    + rewrite bool_decide_eq_false_2 by apply not_elem_of_nil. unfold demo_pins.
      destruct (Nat.ltb_spec b m); cbn; [|done]. 
      rewrite (proj2 (Z.leb_le _ _)), (proj2 (Z.ltb_lt _ _)) by lia. done.
    + destruct (_ <? _)%nat; cbn; lia.
    + done.
    + intros H. by apply not_elem_of_nil in H.
Qed.

(** Block 7 is not cached: buffer 29, the last in the list, is recycled for it
    and moves to the front. *)
Lemma cache_refines_lru_witness :
  exists s1 s2, @bread 0%nat ram_disk 1 7 (demo_k 1) = Ret 29%nat s1 /\
    brelse 29 s1 = Ret tt s2 /\ ring (k_bufs s2) (29%nat :: seq 0 29).
Proof.
  pose proof (@cache_refines_lru 0%nat ram_disk ram_disk_ok 1 1 (demo_pins 1) [] (seq 0 NBUF) (demo_k 1) 7
    (demo_cache 1 ltac:(lia)) ltac:(set_solver)) as H.
  change (lru_pick 1 7 (seq 0 NBUF) (k_bufs (demo_k 1))) with (Some 29%nat) in H.
  destruct H as (s1 & H1 & _ & _ & _ & _ & _ & H2). destruct H2 as (s2 & H2 & H3 & _).
  - right. reflexivity.
  - exists s1, s2. split; [exact H1|]. split; [exact H2|]. exact (ca_ring _ _ _ _ _ _ H3).
Defined.
