(* ===== verification/Log.v ===== *)
(** kernel/log.c: the write-ahead log. *)
From S2P Require Import Prelude Riscv Spinlock Memory Bytes Kalloc Vm Proc Switch Sleeplock Kstate Bio.

Section Log.
Context `{WaitBound} `{DiskDriver}.

(** The number of transactions' blocks in the in-memory header, and block
    [i] of it. *)
Definition lh_block (lg : logstate) (i : nat) : Z := lg_block lg !!! i.
Definition tails (lg : logstate) : list nat := seq 0 (Z.to_nat (lg_n lg)).

Definition copy_data (src dst : nat) : M kstate unit :=
  x <- getb src ;; modb dst (set_b_data (b_data x)).

(** An iteration of the loop of [install_trans]. *)
Definition install_block (recovering : bool) (tail : nat) : M kstate unit :=
  lg <- getlog ;;
  when recovering
    (lift (printf "recovering tail %d dst %d\n" [Z.of_nat tail; lh_block lg tail])) ;;
  lbuf <- bread (lg_dev lg) (lg_start lg + Z.of_nat tail + 1) ;;
  dbuf <- bread (lg_dev lg) (lh_block lg tail) ;;
  copy_data lbuf dbuf ;;
  bwrite dbuf ;;
  when (negb recovering) (bunpin dbuf) ;;
  brelse lbuf ;;
  brelse dbuf.

Definition install_trans (recovering : bool) : M kstate unit :=
  lg <- getlog ;;
  iterl (tails lg) (install_block recovering).

(** The header block: [n], then the block numbers, as [int]s. *)
Definition head_n (data : list Z) : Z := s32 (get_le 4 0 data).
Definition head_block (data : list Z) (i : nat) : Z := s32 (get_le 4 (4 + 4 * i) data).

Definition read_head : M kstate unit :=
  lg <- getlog ;;
  b <- bread (lg_dev lg) (lg_start lg) ;;
  x <- getb b ;;
  modlog (set_lg_n (head_n (b_data x))) ;;
  lg <- getlog ;;
  iterl (tails lg) (fun i =>
    modlog (fun lg => set_lg_block (<[i := head_block (b_data x) i]> (lg_block lg)) lg)) ;;
  brelse b.

Definition write_head : M kstate unit :=
  lg <- getlog ;;
  b <- bread (lg_dev lg) (lg_start lg) ;;
  modb b (fun x => set_b_data (put_le 4 0 (lg_n lg) (b_data x)) x) ;;
  iterl (tails lg) (fun i =>
    modb b (fun x => set_b_data (put_le 4 (4 + 4 * i) (lh_block lg i) (b_data x)) x)) ;;
  bwrite b ;;
  brelse b.

Definition recover_from_log : M kstate unit :=
  read_head ;;
  install_trans true ;;
  modlog (set_lg_n 0) ;;
  write_head.

(** [sizeof(struct logheader)]. *)
Definition logheader_size : Z := 4 + 4 * Z.of_nat LOGBLOCKS.

Definition initlog (dev : Z) (sb : superblock) : M kstate unit :=
  if BSIZE <=? logheader_size then panic "initlog: too big logheader" else
  lift (initlock LogLock "log") ;;
  modlog (set_lg_start (s32 (sb_logstart sb))) ;;
  modlog (set_lg_dev dev) ;;
  recover_from_log.

Definition begin_op : M kstate unit :=
  kacq LogLock ;;
  loop (S wait_bound) (fun (_ : unit) =>
    lg <- getlog ;;
    if negb (lg_committing lg =? 0) then lift (sleep ChLog LogLock) ;; ret (inl tt)
    else if Z.of_nat LOGBLOCKS <? lg_n lg + (lg_outstanding lg + 1) * MAXOPBLOCKS
    then lift (sleep ChLog LogLock) ;; ret (inl tt)
    else
      modlog (fun lg => set_lg_outstanding (lg_outstanding lg + 1) lg) ;;
      krel LogLock ;;
      ret (inr tt)) tt.

(** An iteration of the loop of [write_log]. *)
Definition write_log_block (tail : nat) : M kstate unit :=
  lg <- getlog ;;
  to <- bread (lg_dev lg) (lg_start lg + Z.of_nat tail + 1) ;;
  from <- bread (lg_dev lg) (lh_block lg tail) ;;
  copy_data from to ;;
  bwrite to ;;
  brelse from ;;
  brelse to.

Definition write_log : M kstate unit :=
  lg <- getlog ;;
  iterl (tails lg) write_log_block.

Definition commit : M kstate unit :=
  lg <- getlog ;;
  when (0 <? lg_n lg)
    (write_log ;;
     write_head ;;
     install_trans false ;;
     modlog (set_lg_n 0) ;;
     write_head).

Definition end_op : M kstate unit :=
  kacq LogLock ;;
  modlog (fun lg => set_lg_outstanding (lg_outstanding lg - 1) lg) ;;
  lg <- getlog ;;
  if negb (lg_committing lg =? 0) then panic "log.committing" else
  do_commit <- (if lg_outstanding lg =? 0 then modlog (set_lg_committing 1) ;; ret true
                else lift (wakeup ChLog) ;; ret false) ;;
  krel LogLock ;;
  when do_commit
    (commit ;;
     kacq LogLock ;;
     modlog (set_lg_committing 0) ;;
     lift (wakeup ChLog) ;;
     krel LogLock).

(** The first slot of the header that holds [blockno], or the next free one. *)
Definition log_slot (lg : logstate) (blockno : Z) : nat :=
  match list_find (fun i => lh_block lg i = blockno) (tails lg) with
  | Some (i, _) => i
  | None => Z.to_nat (lg_n lg)
  end.

Definition log_write (b : nat) : M kstate unit :=
  kacq LogLock ;;
  lg <- getlog ;;
  if Z.of_nat LOGBLOCKS <=? lg_n lg then panic "too big a transaction" else
  if lg_outstanding lg <? 1 then panic "log_write outside of trans" else
  x <- getb b ;;
  let i := log_slot lg (b_blockno x) in
  modlog (fun lg => set_lg_block (<[i := b_blockno x]> (lg_block lg)) lg) ;;
  when (Z.of_nat i =? lg_n lg)
    (bpin b ;;
     modlog (fun lg => set_lg_n (lg_n lg + 1) lg)) ;;
  krel LogLock.
End Log.
