(* ===== verification/Crash.v ===== *)
(** Crash safety of kernel/log.c.

    [commit] writes the blocks of the transaction to the log, then the header,
    then the home locations, then an empty header.  The disk after any prefix
    of these writes, given to the recovery code of a fresh kernel, yields the
    file system either as before the transaction or as after it. *)
From S2P Require Import Prelude Riscv Spinlock Memory Bytes Kalloc Vm Proc Switch Sleeplock Kstate Bio Cache Log.

(** * The disk as the log uses it *)

Definition dblock (d : gmap Z (list Z)) (b : Z) : list Z := default zero_block (d !! b).
Definition apply_writes (ws : list (Z * list Z)) (d : gmap Z (list Z)) : gmap Z (list Z) :=
  foldl (fun d w => <[w.1 := w.2]> d) d ws.

(** Block [a] holds [x], the others are as in [v]. *)
Definition upd_view (a : Z) (x : list Z) (v : Z -> list Z) : Z -> list Z :=
  fun b => if b =? a then x else v b.

Lemma dblock_insert a x d b : dblock (<[a := x]> d) b = upd_view a x (dblock d) b.
Proof.
  unfold dblock, upd_view. destruct (Z.eqb_spec b a) as [->|H].
  - by rewrite lookup_insert_eq.
  - by rewrite lookup_insert_ne.
Qed.

(** * Copying a block through the cache *)

(** Between operations: nothing is held, the disk is [d] after the writes [h],
    the current content of the blocks is [v], and the log is [lg]. *)
Record idle (me : nat) (dev : Z) (pins : Z -> Z) (d : gmap Z (list Z)) (h : list (Z * list Z))
  (v : Z -> list Z) (lg : logstate) (s : kstate) : Prop := {
  id_cache : exists l, cache me dev pins [] l s;
  id_disk : k_disk s = d;
  id_hist : k_hist s = h;
  id_view : forall x, view dev s x = v x;
  id_log : k_log s = lg }.

Section Copy.
Context `{W : WaitBound} `{D : DiskDriver} `{Dok : !DiskOk}.
Context (me : nat) (dev : Z).

Lemma idle_clean pins d h v lg s b :
  idle me dev pins d h v lg s -> 0 < pins b \/ v b = dblock d b.
Proof.
  intros [[l Hc] <- _ Hv _]. destruct (ca_pins _ _ _ _ _ _ Hc b) as [Hp _].
  destruct (decide (pins b = 0)) as [E|E]; [|left; lia]. right. rewrite <- Hv.
  by apply (view_clean _ _ _ _ _ _ Hc).
Qed.

Lemma rest_log s s' : rest s' = rest s -> k_log s' = k_log s.
Proof. intros H. exact (f_equal (fun x => x.1.1.1.1.1.1.1.1) H). Qed.

(** A buffer for block [bno]: it is pinned, or there is room. *)
Lemma room_for pins held l s (P : list Z) bno :
  cache me dev pins held l s -> (forall b, 0 < pins b -> b ∈ P) ->
  0 < pins bno \/ (length P + length held < NBUF)%nat ->
  exists b, (b < NBUF)%nat /\
    (is_block dev bno (k_bufs s !!! b) = true \/ b_refcnt (k_bufs s !!! b) = 0).
Proof.
  intros Hc HP [H|H].
  - destruct (ca_pins _ _ _ _ _ _ Hc bno) as [_ Hq]. destruct (Hq H) as (b & H1 & H2 & _). eauto.
  - destruct (cache_room _ _ _ _ _ _ P Hc HP H) as (b & H1 & H2). eauto.
Qed.

(** Two buffers at once, for the blocks [a] and [b]. *)
Lemma bread_two pins d h v lg s (P : list Z) a b :
  idle me dev pins d h v lg s -> (forall x, 0 < pins x -> x ∈ P) -> a <> b ->
  0 < pins a \/ (length P < NBUF)%nat -> 0 < pins b \/ (S (length P) < NBUF)%nat ->
  exists i j l s1 s2, bread dev a s = Ret i s1 /\ bread dev b s1 = Ret j s2 /\
    cache me dev pins [j; i] l s2 /\
    b_blockno (k_bufs s2 !!! i) = a /\ b_data (k_bufs s2 !!! i) = v a /\
    b_blockno (k_bufs s2 !!! j) = b /\ b_data (k_bufs s2 !!! j) = v b /\
    (forall x, view dev s2 x = v x) /\ k_disk s2 = d /\ k_hist s2 = h /\ k_log s2 = lg.
Proof using Dok.
  intros [[l Hc] Hd Hh Hv Hl] HP Hab Ra Rb.
  destruct (bread_spec a Hc) as (i & s1 & E1 & C1 & K1 & X1 & V1 & _ & D1 & Y1 & L1); [set_solver| |].
  { apply (room_for _ _ _ _ P a Hc HP). destruct Ra; [by left|right; cbn; lia]. }
  destruct (bread_spec b C1) as (j & s2 & E2 & C2 & K2 & X2 & V2 & F2 & D2 & Y2 & L2).
  { intros c Hc'. apply list_elem_of_singleton in Hc' as ->. congruence. }
  { apply (room_for _ _ _ _ P b C1 HP). destruct Rb; [by left|right; cbn; lia]. }
  exists i, j, l, s1, s2. rewrite (F2 i) by apply list_elem_of_here.
  do 3 (split; [done|]). split; [done|]. split; [by rewrite X1|]. split; [done|].
  split; [by rewrite X2, V1|]. split; [intros x; by rewrite V2, V1|].
  split; [congruence|]. split; [congruence|].
  rewrite (rest_log _ _ L2), (rest_log _ _ L1). done.
Qed.

(** Overwriting a held buffer and writing it to the disk. *)
Lemma write_through pins held l s d h v lg i x :
  cache me dev pins held l s -> i ∈ held ->
  (forall y, view dev s y = v y) -> k_disk s = d -> k_hist s = h -> k_log s = lg ->
  exists s', (modb i (set_b_data x) ;; bwrite i) s = Ret tt s' /\ cache me dev pins held l s' /\
    let a := b_blockno (k_bufs s !!! i) in
    (forall y, view dev s' y = upd_view a x v y) /\
    k_disk s' = <[a := x]> d /\ k_hist s' = h ++ [(a, x)] /\ k_log s' = lg /\
    (forall c, b_blockno (k_bufs s' !!! c) = b_blockno (k_bufs s !!! c)) /\
    b_data (k_bufs s' !!! i) = x /\
    (forall c, c <> i -> b_data (k_bufs s' !!! c) = b_data (k_bufs s !!! c)).
Proof using Dok.
  intros Hc Hi Hv <- <- <-. set (s1 := updb i (set_b_data x) s).
  pose proof (cache_data Hc Hi x : cache me dev pins held l s1) as C1.
  pose proof (data_at Hc Hi x : k_bufs s1 !!! i = _) as A1.
  exists (transfer i true s1). split; [kstep eq_refl; exact (bwrite_eq C1 Hi)|].
  split; [exact (cache_bwrite C1 Hi)|]. cbv zeta.
  split.
  { intros y. rewrite (view_bwrite C1 Hi). unfold s1. rewrite (view_data Hc Hi). unfold upd_view.
    by destruct (_ =? _). }
  unfold transfer. rewrite A1. do 3 (split; [done|]).
  split; [|split].
  - intros c. apply (buf_keeps b_blockno). done.
  - exact (f_equal b_data A1).
  - intros c Hc'. cbn. by rewrite list_lookup_total_alter_ne.
Qed.

(** Releasing both buffers. *)
Lemma brelse_two pins held l s i j :
  cache me dev pins held l s -> held ≡ₚ [i; j] ->
  (forall c, c ∈ held -> 0 < pins (b_blockno (k_bufs s !!! c)) \/
     b_data (k_bufs s !!! c) = disk_block s (b_blockno (k_bufs s !!! c))) ->
  exists s', (brelse i ;; brelse j) s = Ret tt s' /\
    idle me dev pins (k_disk s) (k_hist s) (view dev s) (k_log s) s'.
Proof.
  intros Hc Hp Hcl.
  destruct (brelse_spec i [j] Hc Hp) as (l1 & s1 & E1 & C1 & V1 & F1 & D1 & H1 & L1).
  { apply Hcl. rewrite Hp. set_solver. }
  destruct (brelse_spec j [] C1) as (l2 & s2 & E2 & C2 & V2 & F2 & D2 & H2 & L2); [done| |].
  { destruct (F1 j) as [-> ->]. unfold disk_block. rewrite D1. apply Hcl. rewrite Hp. set_solver. }
  exists s2. split; [by kstep E1|]. split.
  - by exists l2.
  - congruence.
  - congruence.
  - intros x. by rewrite V2, V1.
  - by rewrite (rest_log _ _ L2), (rest_log _ _ L1).
Qed.

Lemma idle_ext pins d h v v' lg s :
  (forall x, v x = v' x) -> idle me dev pins d h v lg s -> idle me dev pins d h v' lg s.
Proof. intros E [H1 H2 H3 H4 H5]. split; try done. intros x. by rewrite H4. Qed.

(** The body of [write_log]: block [b] to the log block [a]. *)
Lemma write_log_step pins d h v lg s (P : list Z) a b :
  idle me dev pins d h v lg s -> (forall x, 0 < pins x -> x ∈ P) -> a <> b ->
  (length P < NBUF)%nat -> 0 < pins b ->
  exists s', (to <- bread dev a ;; from <- bread dev b ;; copy_data from to ;;
              bwrite to ;; brelse from ;; brelse to) s = Ret tt s' /\
    idle me dev pins (<[a := v b]> d) (h ++ [(a, v b)]) (upd_view a (v b) v) lg s'.
Proof using Dok.
  intros Hs HP Hab Hroom Hb. pose proof (idle_clean _ _ _ _ _ _ b Hs) as Hcl.
  destruct (bread_two _ _ _ _ _ _ P a b Hs HP Hab) as
    (i & j & l & s1 & s2 & E1 & E2 & C2 & Ka & Xa & Kb & Xb & V2 & D2 & H2 & L2); [by right|by left|].
  kstep E1. kstep E2. unfold copy_data. 
  destruct (write_through _ _ _ _ _ _ _ _ i (v b) C2 ltac:(set_solver) V2 D2 H2 L2)
    as (s3 & E3 & C3 & V3 & D3 & H3 & L3 & K3 & X3 & F3).
  rewrite Ka in V3, D3, H3. change (bwrite i (updb i (set_b_data (v b)) s2) = Ret tt s3) in E3.
  assert (copy_data j i s2 = Ret tt (updb i (set_b_data (v b)) s2)) as E4
    by (unfold copy_data; kstep eq_refl; by rewrite Xb).
  kstep E4. kstep E3. 
  assert (i <> j) as Hij by (intros ->; congruence).
  destruct (brelse_two _ _ _ _ j i C3) as (s5 & E5 & Hs5); [done| |].
  { intros c Hc. rewrite K3. unfold disk_block. rewrite D3. fold (dblock (<[a := v b]> d) (b_blockno (k_bufs s2 !!! c))).
    rewrite dblock_insert. unfold upd_view.
    apply elem_of_cons in Hc as [->|Hc]; [left; by rewrite Kb|].
    apply list_elem_of_singleton in Hc as ->. right. by rewrite Ka, Z.eqb_refl. }
  exists s5. split; [done|]. rewrite D3, H3, L3 in Hs5. by apply (idle_ext _ _ _ _ _ _ _ V3).
Qed.

(** The body of [install_trans]: the log block [a] to its home [b]; [bunpin]
    drops the pin the transaction holds. *)
Lemma install_step (recovering : bool) pins d h v lg s (P : list Z) a b :
  idle me dev pins d h v lg s -> (forall x, 0 < pins x -> x ∈ P) -> a <> b ->
  (length P < NBUF)%nat -> 0 < pins b \/ (S (length P) < NBUF)%nat ->
  (recovering = false -> 0 < pins b) ->
  exists s', (lbuf <- bread dev a ;; dbuf <- bread dev b ;; copy_data lbuf dbuf ;;
              bwrite dbuf ;; when (negb recovering) (bunpin dbuf) ;; brelse lbuf ;; brelse dbuf) s = Ret tt s' /\
    idle me dev (if recovering then pins else unpin b pins)
      (<[b := v a]> d) (h ++ [(b, v a)]) (upd_view b (v a) v) lg s'.
Proof using Dok.
  intros Hs HP Hab Hroom Hb Hpin. pose proof (idle_clean _ _ _ _ _ _ a Hs) as Hcl.
  destruct (bread_two _ _ _ _ _ _ P a b Hs HP Hab) as
    (i & j & l & s1 & s2 & E1 & E2 & C2 & Ka & Xa & Kb & Xb & V2 & D2 & H2 & L2); [by right|done|].
  kstep E1. kstep E2.
  destruct (write_through _ _ _ _ _ _ _ _ j (v a) C2 ltac:(set_solver) V2 D2 H2 L2)
    as (s3 & E3 & C3 & V3 & D3 & H3 & L3 & K3 & X3 & F3).
  rewrite Kb in V3, D3, H3. change (bwrite j (updb j (set_b_data (v a)) s2) = Ret tt s3) in E3.
  assert (copy_data i j s2 = Ret tt (updb j (set_b_data (v a)) s2)) as E4
    by (unfold copy_data; kstep eq_refl; by rewrite Xa).
  kstep E4. kstep E3.
  assert (i <> j) as Hij by (intros ->; congruence).
  set (pins' := if recovering then pins else unpin b pins).
  assert (exists s4, when (negb recovering) (bunpin j) s3 = Ret tt s4 /\
    cache me dev pins' [j; i] l s4 /\ (forall y, view dev s4 y = view dev s3 y) /\
    k_disk s4 = k_disk s3 /\ k_hist s4 = k_hist s3 /\ k_log s4 = k_log s3 /\
    forall c, b_blockno (k_bufs s4 !!! c) = b_blockno (k_bufs s3 !!! c) /\
              b_data (k_bufs s4 !!! c) = b_data (k_bufs s3 !!! c))
    as (s4 & E6 & C4 & V4 & D4 & H4 & L4 & F4).
  { subst pins'. destruct recovering; cbn [negb when]; [by exists s3|].
    assert (j ∈ [j; i]) as Hj by apply list_elem_of_here.
    exists (updb j decref s3). split; [exact (bunpin_eq C3)|].
    pose proof (cache_bunpin C3 Hj) as C4. rewrite K3, Kb in C4.
    split; [apply C4; by apply Hpin|]. split; [intros y; apply view_bunpin|]. do 3 (split; [done|]).
    intros c. split; by apply buf_keeps. }
  kstep E6.
  destruct (brelse_two _ _ _ _ i j C4) as (s5 & E5 & Hs5); [by constructor| |].
  { intros c Hc. destruct (F4 c) as [-> ->]. rewrite K3. unfold disk_block. rewrite D4, D3.
    fold (dblock (<[b := v a]> d) (b_blockno (k_bufs s2 !!! c))). rewrite dblock_insert. unfold upd_view.
    apply elem_of_cons in Hc as [->|Hc]; [right; by rewrite Kb, Z.eqb_refl|].
    apply list_elem_of_singleton in Hc as ->. rewrite Ka, F3, Xa by done.
    rewrite (proj2 (Z.eqb_neq a b)) by done. destruct Hcl as [Hcl|Hcl]; [left|by right].
    subst pins'. destruct recovering; [done|]. unfold unpin. by rewrite (proj2 (Z.eqb_neq a b)). }
  exists s5. split; [done|]. rewrite D4, D3, H4, H3, L4, L3 in Hs5.
  apply (idle_ext _ _ _ (view dev s4)); [|done]. intros y. by rewrite V4, V3.
Qed.
End Copy.

(** * The loops of the log *)

Definition in_log (lg : logstate) (b : Z) : Prop :=
  lg_start lg <= b <= lg_start lg + Z.of_nat LOGBLOCKS.
(** The log block of slot [i], and the blocks of the transaction. *)
Definition slot (lg : logstate) (i : nat) : Z := lg_start lg + Z.of_nat i + 1.
Definition home (lg : logstate) : list Z := lh_block lg <$> tails lg.

Record log_ok (dev : Z) (lg : logstate) : Prop := {
  lo_dev : lg_dev lg = dev;
  lo_n : 0 <= lg_n lg <= Z.of_nat LOGBLOCKS;
  lo_home : forall i, i ∈ tails lg -> ~ in_log lg (lh_block lg i) }.

(** The header [lg] written over [data]. *)
Definition fill_head (lg : logstate) (data : list Z) : list Z :=
  foldl (fun data i => put_le 4 (4 + 4 * i) (lh_block lg i) data)
    (put_le 4 0 (lg_n lg) data) (tails lg).

Definition upd_views (ws : list (Z * list Z)) (v : Z -> list Z) : Z -> list Z :=
  foldl (fun v w => upd_view w.1 w.2 v) v ws.
Definition unpins (bs : list Z) (pins : Z -> Z) : Z -> Z := foldl (fun p b => unpin b p) pins bs.

Lemma slot_in_log dev lg i : log_ok dev lg -> i ∈ tails lg -> in_log lg (slot lg i).
Proof.
  intros H Hi. pose proof (lo_n _ _ H). apply elem_of_seq in Hi. unfold in_log, slot. lia.
Qed.

Lemma slot_home dev lg i j : log_ok dev lg -> i ∈ tails lg -> j ∈ tails lg -> slot lg i <> lh_block lg j.
Proof.
  intros H Hi Hj E. apply (lo_home _ _ H j Hj). rewrite <- E. by apply (slot_in_log dev).
Qed.

Section Loops.
Context `{W : WaitBound} `{D : DiskDriver} `{Dok : !DiskOk}.
Context (me : nat) (dev : Z) (lg : logstate) (Hlg : log_ok dev lg).
Context (P : list Z).

Lemma write_log_loop t pins d h v (x : nat -> list Z) s :
  idle me dev pins d h v lg s -> (forall b, 0 < pins b -> b ∈ P) -> (length P < NBUF)%nat ->
  (forall i, i ∈ t -> i ∈ tails lg /\ 0 < pins (lh_block lg i) /\ v (lh_block lg i) = x i) ->
  let ws := (fun i => (slot lg i, x i)) <$> t in
  exists s', iterl t write_log_block s = Ret tt s' /\
    idle me dev pins (apply_writes ws d) (h ++ ws) (upd_views ws v) lg s'.
Proof using Dok Hlg.
  intros Hs HP Hroom Ht. revert d h v s Hs Ht.
  induction t as [|i t IH]; intros d h v s Hs Ht; cbn [fmap list_fmap iterl].
  { exists s. split; [done|]. by rewrite app_nil_r. }
  destruct (Ht i) as (Hi & Hp & Hx); [set_solver|].
  destruct (write_log_step me dev _ _ _ _ _ _ P (slot lg i) (lh_block lg i) Hs HP) as (s1 & E1 & Hs1);
    [by apply (slot_home dev)|done..|].
  rewrite Hx in Hs1.
  destruct (IH _ _ _ _ Hs1) as (s2 & E2 & Hs2).
  { intros j Hj. destruct (Ht j) as (Hj1 & Hj2 & Hj3); [set_solver|]. split; [done|]. split; [done|].
    unfold upd_view. rewrite (proj2 (Z.eqb_neq _ _)); [done|]. apply not_eq_sym. by apply (slot_home dev). }
  exists s2. split.
  - assert (write_log_block i s = Ret tt s1) as E3; [|by kstep E3].
    unfold write_log_block. kstep eq_refl. rewrite (id_log _ _ _ _ _ _ _ _ Hs), (lo_dev _ _ Hlg). exact E1.
  - by rewrite <- app_assoc in Hs2.
Qed.

Lemma install_loop t pins d h v (x : nat -> list Z) s :
  idle me dev pins d h v lg s -> (forall b, 0 < pins b -> b ∈ P) -> (length P < NBUF)%nat ->
  NoDup (lh_block lg <$> t) ->
  (forall i, i ∈ t -> i ∈ tails lg /\ 0 < pins (lh_block lg i) /\ v (slot lg i) = x i) ->
  let ws := (fun i => (lh_block lg i, x i)) <$> t in
  exists s', iterl t (install_block false) s = Ret tt s' /\
    idle me dev (unpins (lh_block lg <$> t) pins) (apply_writes ws d) (h ++ ws) (upd_views ws v) lg s'.
Proof using Dok Hlg.
  intros Hs HP Hroom Hd Ht. revert pins d h v s Hs HP Hd Ht.
  induction t as [|i t IH]; intros pins d h v s Hs HP Hd Ht; cbn [fmap list_fmap iterl].
  { exists s. split; [done|]. by rewrite app_nil_r. }
  cbn in Hd. apply NoDup_cons in Hd as [Hd1 Hd2].
  destruct (Ht i) as (Hi & Hp & Hx); [set_solver|].
  destruct (install_step me dev false _ _ _ _ _ _ P (slot lg i) (lh_block lg i) Hs HP) as (s1 & E1 & Hs1);
    [by apply (slot_home dev)|done|by left|done|].
  rewrite Hx in Hs1.
  destruct (IH _ _ _ _ _ Hs1) as (s2 & E2 & Hs2).
  { intros b Hb. apply HP. unfold unpin in Hb. destruct (_ =? _); lia. }
  { done. }
  { intros j Hj. destruct (Ht j) as (Hj1 & Hj2 & Hj3); [set_solver|]. split; [done|].
    assert (lh_block lg j <> lh_block lg i) as Hne.
    { intros E. apply Hd1. rewrite <- E. by apply list_elem_of_fmap_2. }
    unfold unpin, upd_view. rewrite !(proj2 (Z.eqb_neq _ _)); [done|by apply (slot_home dev)|done]. }
  exists s2. split.
  - assert (install_block false i s = Ret tt s1) as E3; [|by kstep E3].
    unfold install_block. kstep eq_refl. kstep eq_refl.
    rewrite (id_log _ _ _ _ _ _ _ _ Hs), (lo_dev _ _ Hlg). exact E1.
  - by rewrite <- app_assoc in Hs2.
Qed.
End Loops.

(** * The header *)

Lemma iterl_modb b (f : nat -> buf -> buf) t s :
  iterl t (fun i => modb b (f i)) s = Ret tt (updb b (fun x => foldl (fun x i => f i x) x t) s).
Proof.
  revert s. induction t as [|i t IH]; intros s; cbn [iterl foldl].
  - unfold ret, updb. f_equal. destruct s; cbn. f_equal.
    rewrite <- (list_alter_id (fun x => x) k_bufs b) at 1 by done. done.
  - kstep eq_refl. rewrite IH. unfold updb. cbn. by rewrite list_alter_alter.
Qed.

Section Head.
Context `{W : WaitBound} `{D : DiskDriver} `{Dok : !DiskOk}.
Context (me : nat) (dev : Z) (lg : logstate) (Hdev : lg_dev lg = dev).
Context (P : list Z) (Hroom : (length P < NBUF)%nat).

Lemma write_head_spec pins d h v s :
  idle me dev pins d h v lg s -> (forall b, 0 < pins b -> b ∈ P) ->
  let H := fill_head lg (v (lg_start lg)) in
  exists s', write_head s = Ret tt s' /\
    idle me dev pins (<[lg_start lg := H]> d) (h ++ [(lg_start lg, H)]) (upd_view (lg_start lg) H v) lg s'.
Proof using Dok Hdev Hroom.
  intros [[l Hc] Hd Hh Hv Hl] HP H. unfold write_head. kstep eq_refl. rewrite Hl, Hdev.
  destruct (bread_spec (lg_start lg) Hc) as (b & s1 & E1 & C1 & K1 & X1 & V1 & _ & D1 & Y1 & L1).
  { set_solver. }
  { apply (room_for me dev _ _ _ _ P _ Hc HP). right. cbn. lia. }
  assert (b ∈ [b]) as Hb by apply list_elem_of_here. kstep E1.
  destruct (write_through me dev _ _ _ _ d h v lg b H C1 Hb) as
    (s2 & E2 & C2 & V2 & D2 & H2 & L2 & K2 & X2 & _).
  { intros y. by rewrite V1. }
  { congruence. }
  { congruence. }
  { by rewrite (rest_log _ _ L1). }
  rewrite K1 in V2, D2, H2. change (bwrite b (updb b (set_b_data H) s1) = Ret tt s2) in E2.
  set (f0 := fun x => set_b_data (put_le 4 0 (lg_n lg) (b_data x)) x).
  set (f := fun i x => set_b_data (put_le 4 (4 + 4 * i) (lh_block lg i) (b_data x)) x).
  assert (forall t x, foldl (fun x i => f i x) x t =
    set_b_data (foldl (fun data i => put_le 4 (4 + 4 * i) (lh_block lg i) data) (b_data x) t) x) as Ef.
  { induction t as [|i t IH]; intros x; cbn; [by destruct x|]. by rewrite IH. }
  kstep (eq_refl : modb b f0 s1 = Ret tt (updb b f0 s1)). kstep (iterl_modb b f (tails lg)).
  assert (updb b (fun x => foldl (fun x i => f i x) x (tails lg)) (updb b f0 s1) =
    updb b (set_b_data H) s1) as ->.
  { unfold updb. cbn [k_bufs with_k_bufs]. rewrite list_alter_alter.
    change (with_k_bufs ?x (with_k_bufs ?y s1)) with (with_k_bufs x s1). f_equal.
    apply list_alter_same. rewrite Ef.
    unfold H, fill_head. rewrite <- Hv, <- X1. done. }
  kstep E2. destruct (brelse_spec b [] C2) as (l3 & s3 & E3 & C3 & V3 & F3 & D3 & H3 & L3); [done| |].
  { right. rewrite X2, K2, K1. unfold disk_block. rewrite D2. by rewrite lookup_insert_eq. }
  exists s3. split; [done|]. split.
  - by exists l3.
  - congruence.
  - congruence.
  - intros y. by rewrite V3, V2.
  - by rewrite (rest_log _ _ L3).
Qed.
End Head.

(** * Commit *)

Lemma upd_views_notin ws v b : b ∉ ws.*1 -> upd_views ws v b = v b.
Proof.
  revert v. induction ws as [|[a x] ws IH]; intros v Hb; [done|].
  cbn in Hb. change (upd_views ws (upd_view a x v) b = v b).
  rewrite IH by set_solver. unfold upd_view. rewrite (proj2 (Z.eqb_neq _ _)); [done|set_solver].
Qed.

Lemma upd_views_in ws v b x : NoDup ws.*1 -> (b, x) ∈ ws -> upd_views ws v b = x.
Proof.
  revert v. induction ws as [|[a y] ws IH]; intros v Hd Hin; cbn in Hd; [set_solver|].
  change (upd_views ws (upd_view a y v) b = x).
  apply NoDup_cons in Hd as [Ha Hd]. apply elem_of_cons in Hin as [[= -> ->]|Hin]; [|by apply IH].
  rewrite upd_views_notin by done. unfold upd_view. by rewrite Z.eqb_refl.
Qed.

Lemma dblock_apply ws d b : dblock (apply_writes ws d) b = upd_views ws (dblock d) b.
Proof.
  assert (forall v, (forall b, dblock d b = v b) ->
    forall b, dblock (apply_writes ws d) b = upd_views ws v b) as H; [|by apply H].
  clear b. revert d. induction ws as [|[a x] ws IH]; intros d v Hv b; [by apply Hv|].
  apply (IH (<[a := x]> d) (upd_view a x v)). intros c. rewrite dblock_insert. unfold upd_view. by rewrite Hv.
Qed.

Definition log_writes (lg : logstate) (v : Z -> list Z) : list (Z * list Z) :=
  (fun i => (slot lg i, v (lh_block lg i))) <$> tails lg.
Definition home_writes (lg : logstate) (v : Z -> list Z) : list (Z * list Z) :=
  (fun i => (lh_block lg i, v (lh_block lg i))) <$> tails lg.
(** The header with the transaction, and the empty one. *)
Definition full_head (lg : logstate) (v : Z -> list Z) : list Z := fill_head lg (v (lg_start lg)).
Definition empty_head (lg : logstate) (v : Z -> list Z) : list Z :=
  fill_head (set_lg_n 0 lg) (full_head lg v).
Definition commit_writes (lg : logstate) (v : Z -> list Z) : list (Z * list Z) :=
  log_writes lg v ++ [(lg_start lg, full_head lg v)] ++
  home_writes lg v ++ [(lg_start lg, empty_head lg v)].

(** Every block of the transaction is pinned once, and no other block. *)
Definition txn_pins (lg : logstate) : Z -> Z := fun b => if bool_decide (b ∈ home lg) then 1 else 0.

Lemma unpin_all bs pins b :
  NoDup bs -> (forall x, pins x = if bool_decide (x ∈ bs) then 1 else 0) ->
  unpins bs pins b = 0.
Proof.
  revert pins. induction bs as [|a bs IH]; intros pins Hd Hp; cbn; [by rewrite Hp|].
  apply NoDup_cons in Hd as [Ha Hd]. apply IH; [done|]. intros x. unfold unpin. rewrite Hp.
  destruct (Z.eqb_spec x a) as [->|Hx].
  - by rewrite bool_decide_eq_true_2, bool_decide_eq_false_2 by set_solver.
  - by rewrite (bool_decide_ext (x ∈ a :: bs) (x ∈ bs)) by set_solver.
Qed.

Lemma idle_pins me dev pins pins' d h v lg s :
  (forall x, pins x = pins' x) -> idle me dev pins d h v lg s -> idle me dev pins' d h v lg s.
Proof.
  intros E [[l Hc] H2 H3 H4 H5]. split; try done. exists l. by apply (cache_pins _ _ pins).
Qed.

Lemma idle_modlog me dev pins d h v lg f s :
  idle me dev pins d h v lg s -> idle me dev pins d h v (f lg) (with_k_log (f (k_log s)) s).
Proof.
  intros [[l Hc] H2 H3 H4 H5]. split; [|exact H2|exact H3|exact H4|by rewrite <- H5].
  exists l. by apply cache_log.
Qed.

Section Commit.
Context `{W : WaitBound} `{D : DiskDriver} `{Dok : !DiskOk}.
Context (me : nat) (dev : Z) (lg : logstate) (Hlg : log_ok dev lg) (Hhome : NoDup (home lg)).

Lemma slots_nodup : NoDup (slot lg <$> tails lg).
Proof. apply NoDup_fmap_2; [|apply NoDup_seq]. intros i j. unfold slot. lia. Qed.

Lemma start_not_slot : lg_start lg ∉ slot lg <$> tails lg.
Proof. intros H. apply list_elem_of_fmap in H as (i & H & _). unfold slot in H. lia. Qed.

Lemma log_writes_keys v : (log_writes lg v).*1 = slot lg <$> tails lg.
Proof. unfold log_writes. by rewrite <- list_fmap_compose. Qed.
Lemma home_writes_keys v : (home_writes lg v).*1 = home lg.
Proof. unfold home_writes, home. by rewrite <- list_fmap_compose. Qed.

Lemma commit_spec d h v s :
  idle me dev (txn_pins lg) d h v lg s -> 0 < lg_n lg < Z.of_nat NBUF ->
  exists s', commit s = Ret tt s' /\
    idle me dev (fun _ => 0) (apply_writes (commit_writes lg v) d) (h ++ commit_writes lg v)
      (upd_views (commit_writes lg v) v) (set_lg_n 0 lg) s'.
Proof using Dok Hlg Hhome.
  intros Hs Hn. unfold commit. kstep eq_refl. rewrite (id_log _ _ _ _ _ _ _ _ Hs).
  rewrite (proj2 (Z.ltb_lt _ _)) by apply Hn. cbn [when].
  assert (forall b, 0 < txn_pins lg b -> b ∈ home lg) as HP.
  { intros b. unfold txn_pins. destruct (bool_decide _) eqn:E; [|lia]. by apply bool_decide_eq_true in E. }
  assert (length (home lg) < NBUF)%nat as Hroom.
  { unfold home, tails. rewrite length_fmap, length_seq. lia. }
  assert (forall i, i ∈ tails lg -> 0 < txn_pins lg (lh_block lg i)) as Hpin.
  { intros i Hi. unfold txn_pins. rewrite bool_decide_eq_true_2; [lia|]. by apply list_elem_of_fmap_2. }
  pose proof start_not_slot as Hss.
  destruct (write_log_loop me dev lg Hlg (home lg) (tails lg) _ _ _ _ (fun i => v (lh_block lg i)) _ Hs HP Hroom)
    as (s1 & E1 & Hs1); [auto|].
  assert (write_log s = Ret tt s1) as E1'.
  { unfold write_log. kstep eq_refl. by rewrite (id_log _ _ _ _ _ _ _ _ Hs). }
  kstep E1'. fold (log_writes lg v) in Hs1. set (v1 := upd_views (log_writes lg v) v) in Hs1.
  destruct (write_head_spec me dev lg (lo_dev _ _ Hlg) (home lg) Hroom _ _ _ _ _ Hs1 HP) as (s2 & E2 & Hs2).
  assert (v1 (lg_start lg) = v (lg_start lg)) as Ev1.
  { apply upd_views_notin. by rewrite log_writes_keys. }
  rewrite Ev1 in Hs2. fold (full_head lg v) in Hs2. kstep E2.
  set (v2 := upd_view _ _ v1) in Hs2.
  destruct (install_loop me dev lg Hlg (home lg) (tails lg) _ _ _ _ (fun i => v (lh_block lg i)) _ Hs2 HP Hroom)
    as (s3 & E3 & Hs3); [done| |].
  { intros i Hi. split; [done|]. split; [auto|]. unfold v2, upd_view.
    rewrite (proj2 (Z.eqb_neq _ _)) by (unfold slot; lia).
    apply upd_views_in; [rewrite log_writes_keys; apply slots_nodup|].
    unfold log_writes. by apply (list_elem_of_fmap_2 (fun i => (slot lg i, v (lh_block lg i)))). }
  fold (home_writes lg v) (home lg) in Hs3.
  assert (install_trans false s2 = Ret tt s3) as E3'.
  { unfold install_trans. kstep eq_refl. by rewrite (id_log _ _ _ _ _ _ _ _ Hs2). }
  kstep E3'. set (v3 := upd_views (home_writes lg v) v2) in Hs3.
  kstep eq_refl.
  assert (forall x, unpins (home lg) (txn_pins lg) x = 0) as Hz by (intros x; by apply unpin_all).
  pose proof (idle_modlog _ _ _ _ _ _ _ (set_lg_n 0) _ (idle_pins _ _ _ (fun _ => 0) _ _ _ _ _ Hz Hs3)) as Hs4.
  destruct (write_head_spec me dev (set_lg_n 0 lg) (lo_dev _ _ Hlg) [] ltac:(cbv; lia) _ _ _ _ _ Hs4)
    as (s5 & E5 & Hs5); [lia|].
  exists s5. split; [exact E5|]. cbn [lg_start set_lg_n] in Hs5.
  assert (v3 (lg_start lg) = full_head lg v) as Ev3.
  { unfold v3. rewrite upd_views_notin.
    - unfold v2, upd_view. by rewrite Z.eqb_refl.
    - rewrite home_writes_keys. intros H. apply list_elem_of_fmap in H as (i & H & Hi).
      apply (lo_home _ _ Hlg i Hi). rewrite <- H. split; lia. }
  rewrite Ev3 in Hs5. fold (empty_head lg v) in Hs5.
  unfold commit_writes, apply_writes, upd_views. rewrite !foldl_app. cbn [foldl].
  rewrite <- !app_assoc in Hs5. exact Hs5.
Qed.
End Commit.

(** * Recovery *)

(** The console and the lock of the log are not the cache's business. *)
Lemma cache_machine me dev pins held l s m :
  cache me dev pins held l s -> m_tp m = m_tp (khw s) -> m_cpus m = m_cpus (khw s) ->
  (forall lk, lk <> LogLock -> m_locks m !! lk = m_locks (khw s) !! lk) ->
  cache me dev pins held l (with_k_ps (with_machine m (k_ps s)) s).
Proof.
  intros Hc Et Ec El.
  assert (forall lk, lk <> LogLock -> lock_free lk (khw s) -> lock_free lk m) as Hf.
  { intros lk Hlk [nm E]. exists nm. by rewrite El. }
  assert (curcpu m = curcpu (khw s)) as Ecur by (unfold curcpu; by rewrite Et, Ec).
  destruct Hc as [[A1 A2 A3 A4 A5] C2 C3 C4 C5 C6 C7 C8 C10 C11]. split; try done.
  - split; try done.
    + change (hart_ok m). change (hart_ok (khw s)) in A1. destruct A1 as [B1 B2].
      split; [by rewrite Et, Ec|by rewrite Ecur].
    + change (touch m = m). change (touch (khw s) = khw s) in A2. unfold touch, modcpu in *.
      rewrite Ecur, Et. apply (f_equal m_cpus) in A2. cbn in A2. rewrite Ec, A2, <- Ec. by destruct m.
    + change (c_proc (curcpu m) = Some me). rewrite Ecur. exact A3.
    + intros i Hi. apply Hf; [done|]. by apply A4.
  - by apply Hf.
  - intros b Hb. apply Hf; [done|]. by apply C3.
  - intros b Hb. by destruct (C11 b Hb).
Qed.

Lemma idle_machine me dev pins d h v lg s m :
  idle me dev pins d h v lg s -> m_tp m = m_tp (khw s) -> m_cpus m = m_cpus (khw s) ->
  (forall lk, lk <> LogLock -> m_locks m !! lk = m_locks (khw s) !! lk) ->
  idle me dev pins d h v lg (with_k_ps (with_machine m (k_ps s)) s).
Proof.
  intros [[l Hc] H2 H3 H4 H5] Et Ec El. split; [|exact H2|exact H3|exact H4|exact H5].
  exists l. by apply cache_machine.
Qed.

(** The in-memory header after [read_head]. *)
Definition read_lg (head : list Z) (lg : logstate) : logstate :=
  let lg := set_lg_n (head_n head) lg in
  foldl (fun lg i => set_lg_block (<[i := head_block head i]> (lg_block lg)) lg) lg (tails lg).
Definition recover_writes (lg : logstate) (d : gmap Z (list Z)) : list (Z * list Z) :=
  let head := dblock d (lg_start lg) in
  let lg := read_lg head lg in
  ((fun i => (lh_block lg i, dblock d (slot lg i))) <$> tails lg) ++
  [(lg_start lg, fill_head (set_lg_n 0 lg) (dblock d (lg_start lg)))].

Lemma fold_lg_fields head t lg :
  let lg' := foldl (fun lg i => set_lg_block (<[i := head_block head i]> (lg_block lg)) lg) lg t in
  lg_start lg' = lg_start lg /\ lg_dev lg' = lg_dev lg /\ lg_n lg' = lg_n lg /\
  length (lg_block lg') = length (lg_block lg) /\
  forall i, (i < length (lg_block lg))%nat ->
    lh_block lg' i = if bool_decide (i ∈ t) then head_block head i else lh_block lg i.
Proof.
  revert lg. induction t as [|j t IH]; intros lg; cbn [foldl].
  - do 4 (split; [done|]). intros i _. by rewrite bool_decide_eq_false_2 by set_solver.
  - destruct (IH (set_lg_block (<[j := head_block head j]> (lg_block lg)) lg)) as (-> & -> & -> & -> & E).
    cbn [lg_start lg_dev lg_n lg_block set_lg_block] in *. rewrite length_insert in *.
    do 4 (split; [done|]). intros i Hi. rewrite E by done. unfold lh_block at 1.
    destruct (decide (i ∈ t)) as [Ht|Ht].
    + by rewrite !bool_decide_eq_true_2 by set_solver.
    + rewrite (bool_decide_eq_false_2 (i ∈ t)) by done. cbn [lg_block set_lg_block].
      destruct (decide (i = j)) as [->|Hij].
      * rewrite bool_decide_eq_true_2 by set_solver. by rewrite list_lookup_total_insert_eq.
      * rewrite bool_decide_eq_false_2 by set_solver. by rewrite list_lookup_total_insert_ne.
Qed.

Lemma iterl_modlog (f : nat -> logstate -> logstate) t s :
  iterl t (fun i => modlog (f i)) s = Ret tt (with_k_log (foldl (fun lg i => f i lg) (k_log s) t) s).
Proof.
  revert s. induction t as [|i t IH]; intros s; cbn [iterl foldl]; [by destruct s|].
  kstep eq_refl. by rewrite IH.
Qed.

Section Recover.
Context `{W : WaitBound} `{D : DiskDriver} `{Dok : !DiskOk}.
Context (me : nat) (dev : Z).

Lemma read_head_spec d h v lg s :
  idle me dev (fun _ => 0) d h v lg s -> lg_dev lg = dev ->
  exists s', read_head s = Ret tt s' /\
    idle me dev (fun _ => 0) d h v (read_lg (v (lg_start lg)) lg) s'.
Proof using Dok.
  intros Hs Hdev. pose proof (idle_clean me dev _ _ _ _ _ _ (lg_start lg) Hs) as Hcl.
  destruct Hs as [[l Hc] Hd Hh Hv Hl]. unfold read_head. kstep eq_refl. rewrite Hl, Hdev.
  destruct (bread_spec (lg_start lg) Hc) as (b & s1 & E1 & C1 & K1 & X1 & V1 & _ & D1 & Y1 & L1).
  { set_solver. }
  { apply (room_for me dev _ _ _ _ [] _ Hc); [lia|]. right. cbv. lia. }
  kstep E1. kstep eq_refl. kstep eq_refl. kstep eq_refl.
  kstep (iterl_modlog (fun i lg => set_lg_block (<[i := head_block (b_data (k_bufs s1 !!! b)) i]> (lg_block lg)) lg)).
  cbn [k_log with_k_log]. rewrite (rest_log _ _ L1), Hl, X1, Hv.
  set (lg' := foldl _ _ _). set (s2 := with_k_log lg' _).
  assert (cache me dev (fun _ => 0) [b] l s2) as C2.
  { by apply cache_log, cache_log. }
  destruct (brelse_spec b [] C2) as (l3 & s3 & E3 & C3 & V3 & F3 & D3 & H3 & L3); [done| |].
  { right. cbn. rewrite X1, K1, Hv. unfold disk_block. cbn. rewrite D1, Hd. destruct Hcl as [Hcl|Hcl]; [lia|].
    done. }
  exists s3. split; [done|]. split.
  - by exists l3.
  - rewrite D3. cbn. congruence.
  - rewrite H3. cbn. congruence.
  - intros x. rewrite V3. change (view dev s2 x) with (view dev s1 x). by rewrite V1.
  - by rewrite (rest_log _ _ L3).
Qed.

Lemma recover_loop lg t d h v (x : nat -> list Z) s :
  log_ok dev lg -> idle me dev (fun _ => 0) d h v lg s ->
  (forall i, i ∈ t -> i ∈ tails lg /\ v (slot lg i) = x i) ->
  let ws := (fun i => (lh_block lg i, x i)) <$> t in
  exists s', iterl t (install_block true) s = Ret tt s' /\
    idle me dev (fun _ => 0) (apply_writes ws d) (h ++ ws) (upd_views ws v) lg s'.
Proof using Dok.
  intros Hlg Hs Ht. revert d h v s Hs Ht.
  induction t as [|i t IH]; intros d h v s Hs Ht; cbn [fmap list_fmap iterl].
  { exists s. split; [done|]. by rewrite app_nil_r. }
  destruct (Ht i) as (Hi & Hx); [set_solver|].
  set (m := with_console (m_console (khw s) ++
    [("recovering tail %d dst %d\n"%string, [Z.of_nat i; lh_block lg i])]) (khw s)).
  assert (idle me dev (fun _ => 0) d h v lg (with_k_ps (with_machine m (k_ps s)) s)) as Hs0 by by apply idle_machine.
  destruct (install_step me dev true _ _ _ _ _ _ [] (slot lg i) (lh_block lg i) Hs0) as (s1 & E1 & Hs1);
    [lia|by apply (slot_home dev)|cbv; lia|right; cbv; lia|done|].
  rewrite Hx in Hs1.
  destruct (IH _ _ _ _ Hs1) as (s2 & E2 & Hs2).
  { intros j Hj. destruct (Ht j) as (Hj1 & Hj3); [set_solver|]. split; [done|].
    unfold upd_view. rewrite (proj2 (Z.eqb_neq _ _)); [done|by apply (slot_home dev)]. }
  exists s2. split.
  - assert (install_block true i s = Ret tt s1) as E3; [|by kstep E3].
    unfold install_block. kstep eq_refl. rewrite (id_log _ _ _ _ _ _ _ _ Hs), (lo_dev _ _ Hlg).
    kstep (eq_refl : _ = Ret tt (with_k_ps (with_machine m (k_ps s)) s)). exact E1.
  - by rewrite <- app_assoc in Hs2.
Qed.

(** The log header a disk with content [d] describes. *)
Lemma read_lg_fields head lg :
  length (lg_block lg) = LOGBLOCKS -> 0 <= head_n head <= Z.of_nat LOGBLOCKS ->
  lg_start (read_lg head lg) = lg_start lg /\ lg_dev (read_lg head lg) = lg_dev lg /\
  lg_n (read_lg head lg) = head_n head /\
  forall i, i ∈ tails (read_lg head lg) -> lh_block (read_lg head lg) i = head_block head i.
Proof.
  intros Hlen Hn. unfold read_lg.
  destruct (fold_lg_fields head (tails (set_lg_n (head_n head) lg)) (set_lg_n (head_n head) lg))
    as (-> & -> & E & _ & H). rewrite E. do 3 (split; [done|]). intros i Hi.
  unfold tails at 1 in Hi. rewrite E in Hi. cbn [lg_n set_lg_n] in Hi.
  rewrite H; [by rewrite bool_decide_eq_true_2|]. cbn [lg_block set_lg_n].
  apply elem_of_seq in Hi. lia.
Qed.

Lemma recover_spec d h v lg s :
  idle me dev (fun _ => 0) d h v lg s -> lg_dev lg = dev ->
  let lg1 := read_lg (dblock d (lg_start lg)) lg in
  length (lg_block lg) = LOGBLOCKS -> log_ok dev lg1 ->
  exists s', recover_from_log s = Ret tt s' /\
    k_disk s' = apply_writes (recover_writes lg d) d /\ lg_n (k_log s') = 0.
Proof using Dok.
  intros Hs Hdev lg1 Hlen Hok.
  assert (forall b, v b = dblock d b) as Hv.
  { intros b. destruct (idle_clean me dev _ _ _ _ _ _ b Hs); [lia|done]. }
  apply (idle_ext _ _ _ _ _ _ _ _ _ Hv) in Hs. clear Hv v.
  destruct (read_head_spec _ _ _ _ _ Hs Hdev) as (s1 & E1 & Hs1). fold lg1 in Hs1.
  destruct (fold_lg_fields (dblock d (lg_start lg)) (tails (set_lg_n (head_n (dblock d (lg_start lg))) lg))
    (set_lg_n (head_n (dblock d (lg_start lg))) lg)) as (F1 & _). change (lg_start lg1 = lg_start lg) in F1.
  destruct (recover_loop lg1 (tails lg1) _ _ _ (fun i => dblock d (slot lg1 i)) _ Hok Hs1) as (s2 & E2 & Hs2); [auto|].
  assert (install_trans true s1 = Ret tt s2) as E2'.
  { unfold install_trans. kstep eq_refl. by rewrite (id_log _ _ _ _ _ _ _ _ Hs1). }
  set (ws := (fun i => (lh_block lg1 i, dblock d (slot lg1 i))) <$> tails lg1) in *.
  pose proof (idle_modlog _ _ _ _ _ _ _ (set_lg_n 0) _ Hs2) as Hs3.
  destruct (write_head_spec me dev (set_lg_n 0 lg1) (lo_dev _ _ Hok) [] ltac:(cbv; lia) _ _ _ _ _ Hs3)
    as (s4 & E4 & Hs4); [lia|].
  cbn [lg_start set_lg_n] in Hs4.
  assert (upd_views ws (dblock d) (lg_start lg1) = dblock d (lg_start lg1)) as Ev.
  { apply upd_views_notin. unfold ws. rewrite <- list_fmap_compose. intros H.
    apply list_elem_of_fmap in H as (i & H & Hi). apply (lo_home _ _ Hok i Hi).
    cbn in H. rewrite <- H. split; lia. }
  rewrite Ev in Hs4. exists s4. split.
  - unfold recover_from_log. kstep E1. kstep E2'. kstep eq_refl. exact E4.
  - split; [|by rewrite (id_log _ _ _ _ _ _ _ _ Hs4)].
    rewrite (id_disk _ _ _ _ _ _ _ _ Hs4). unfold recover_writes. fold lg1 ws.
    unfold apply_writes. rewrite foldl_app. done.
Qed.
End Recover.

(** * The header's encoding *)

Lemma s32_small v : 0 <= v < 2 ^ 31 -> s32 (v mod 2 ^ 32) = v.
Proof. intros H. unfold s32. rewrite (Z.mod_small v), Z.mod_small by lia. lia. Qed.

Lemma fill_words lg t data :
  let f := foldl (fun data i => put_le 4 (4 + 4 * i) (lh_block lg i) data) in
  (forall i, i ∈ t -> (8 + 4 * i <= length data)%nat) -> NoDup t ->
  length (f data t) = length data /\
  get_le 4 0 (f data t) = get_le 4 0 data /\
  forall i, get_le 4 (4 + 4 * i) (f data t) =
    if bool_decide (i ∈ t) then lh_block lg i mod 2 ^ 32 else get_le 4 (4 + 4 * i) data.
Proof.
  intros f. revert data. induction t as [|j t IH]; intros data Hl Hd; cbn [f foldl].
  { split; [done|]. split; [done|]. intros i. by rewrite bool_decide_eq_false_2 by set_solver. }
  apply NoDup_cons in Hd as [Hj Hd].
  assert (8 + 4 * j <= length data)%nat as Hj' by (apply Hl; set_solver).
  assert (length (put_le 4 (4 + 4 * j) (lh_block lg j) data) = length data) as El by (apply length_put_le; lia).
  destruct (IH (put_le 4 (4 + 4 * j) (lh_block lg j) data)) as (E1 & E2 & E3).
  { intros i Hi. rewrite El. apply Hl. set_solver. } { done. }
  change (foldl _ _ t) with (f (put_le 4 (4 + 4 * j) (lh_block lg j) data) t).
  rewrite E1, E2, El. split; [done|]. split; [apply get_put_other; lia|].
  intros i. rewrite E3. destruct (decide (i = j)) as [->|Hij].
  - rewrite bool_decide_eq_false_2, bool_decide_eq_true_2 by set_solver. apply get_put_same. lia.
  - rewrite (bool_decide_ext (i ∈ j :: t) (i ∈ t)) by set_solver.
    destruct (bool_decide _); [done|]. apply get_put_other; lia.
Qed.

Lemma head_roundtrip lg data :
  length data = Z.to_nat BSIZE -> 0 <= lg_n lg <= Z.of_nat LOGBLOCKS ->
  length (fill_head lg data) = length data /\ head_n (fill_head lg data) = lg_n lg /\
  forall i, i ∈ tails lg -> 0 <= lh_block lg i < 2 ^ 31 ->
    head_block (fill_head lg data) i = lh_block lg i.
Proof.
  intros Hlen Hn. unfold fill_head.
  assert (length data = 1024)%nat as El by done.
  assert (Z.of_nat LOGBLOCKS = 30) as E30 by done.
  assert (length (put_le 4 0 (lg_n lg) data) = length data) as E0 by (apply length_put_le; lia).
  destruct (fill_words lg (tails lg) (put_le 4 0 (lg_n lg) data)) as (E1 & E2 & E3).
  { intros i Hi. apply elem_of_seq in Hi. rewrite E0. lia. } { apply NoDup_seq. }
  rewrite E1, E0. split; [done|]. unfold head_n, head_block. rewrite E2. split.
  - rewrite get_put_same by lia. apply s32_small. lia.
  - intros i Hi Hb. rewrite E3, bool_decide_eq_true_2 by done. by apply s32_small.
Qed.

(** * Crash safety *)

(** The disk outside the log once the transaction is on it. *)
Definition after_commit (lg : logstate) (v : Z -> list Z) (d : gmap Z (list Z)) (b : Z) : list Z :=
  if bool_decide (b ∈ home lg) then v b else dblock d b.

(** A disk from which recovery restores [x] outside the log of [lg]: its
    header is well formed, and replaying it gives [x]. *)
Record recovers_to (dev : Z) (lg : logstate) (d : gmap Z (list Z)) (x : Z -> list Z) : Prop := {
  rt_len : length (dblock d (lg_start lg)) = Z.to_nat BSIZE;
  rt_n : 0 <= head_n (dblock d (lg_start lg)) <= Z.of_nat LOGBLOCKS;
  rt_home : forall i, (i < Z.to_nat (head_n (dblock d (lg_start lg))))%nat ->
    ~ in_log lg (head_block (dblock d (lg_start lg)) i);
  rt_replay : forall b, ~ in_log lg b ->
    upd_views ((fun i => (head_block (dblock d (lg_start lg)) i, dblock d (slot lg i))) <$>
      seq 0 (Z.to_nat (head_n (dblock d (lg_start lg))))) (dblock d) b = x b }.

Section Boot.
Context `{W : WaitBound} `{D : DiskDriver} `{Dok : !DiskOk}.

Lemma initlog_recovers me dev lg sb lg0 d h v r x :
  idle me dev (fun _ => 0) d h v lg0 r -> length (lg_block lg0) = LOGBLOCKS ->
  s32 (sb_logstart sb) = lg_start lg -> recovers_to dev lg d x ->
  exists r', initlog dev sb r = Ret tt r' /\
    head_n (dblock (k_disk r') (lg_start lg)) = 0 /\
    forall b, ~ in_log lg b -> dblock (k_disk r') b = x b.
Proof using Dok.
  intros Hr Hlen Hst [T1 T2 T3 T4]. unfold initlog. change (BSIZE <=? logheader_size) with false. cbv iota.
  set (m := with_locks (<[LogLock := Spinlock 0 "log" None]> (m_locks (khw r))) (khw r)).
  assert (idle me dev (fun _ => 0) d h v lg0 (with_k_ps (with_machine m (k_ps r)) r)) as H1.
  { apply idle_machine; [done..|]. intros lk Hlk. cbn. by rewrite lookup_insert_ne. }
  kstep (eq_refl : _ = Ret tt (with_k_ps (with_machine m (k_ps r)) r)). kstep eq_refl. kstep eq_refl.
  apply (idle_modlog _ _ _ _ _ _ _ (set_lg_start (s32 (sb_logstart sb)))) in H1.
  apply (idle_modlog _ _ _ _ _ _ _ (set_lg_dev dev)) in H1.
  set (lg1 := set_lg_dev dev (set_lg_start (s32 (sb_logstart sb)) lg0)) in H1.
  assert (lg_start lg1 = lg_start lg) as Est by exact Hst.
  set (head := dblock d (lg_start lg)) in *.
  destruct (read_lg_fields head lg1) as (F1 & F2 & F3 & F4); [done|done|].
  destruct (recover_spec me dev _ _ _ _ _ H1) as (r' & E & Ed & _); [done|done| |].
  { rewrite Est. fold head. split; [by rewrite F2|by rewrite F3|].
    intros i Hi. rewrite F4 by done. unfold in_log. rewrite F1, Est. apply T3.
    unfold tails in Hi. rewrite F3 in Hi. apply elem_of_seq in Hi. lia. }
  exists r'. split; [exact E|]. rewrite Ed. unfold recover_writes. rewrite Est. fold head.
  rewrite F1, Est. set (t := seq 0 (Z.to_nat (head_n head))).
  assert (tails (read_lg head lg1) = t) as Et by (unfold tails; by rewrite F3). rewrite Et.
  assert ((fun i => (lh_block (read_lg head lg1) i, dblock d (slot (read_lg head lg1) i))) <$> t =
    (fun i => (head_block head i, dblock d (slot lg i))) <$> t) as ->.
  { apply list_fmap_ext. intros k i Hk. apply list_elem_of_lookup_2 in Hk.
    rewrite F4 by (by rewrite Et). unfold slot. by rewrite F1, Est. }
  split.
  - rewrite dblock_apply. unfold upd_views. rewrite foldl_app. cbn. unfold upd_view at 1. rewrite Z.eqb_refl.
    by apply (head_roundtrip (set_lg_n 0 (read_lg head lg1)) head).
  - intros b Hb. rewrite dblock_apply. unfold upd_views. rewrite foldl_app. cbn. unfold upd_view at 1.
    rewrite (proj2 (Z.eqb_neq b (lg_start lg))); [by apply T4|]. intros ->. apply Hb. split; lia.
Qed.
End Boot.

Lemma upd_views_ext ws v v' b : (forall x, v x = v' x) -> upd_views ws v b = upd_views ws v' b.
Proof.
  revert v v'. induction ws as [|[a x] ws IH]; intros v v' E; [apply E|]. cbn.
  apply (IH (upd_view a x v) (upd_view a x v')). intros y. unfold upd_view. by rewrite E.
Qed.

Lemma start_in_log lg : in_log lg (lg_start lg).
Proof. split; lia. Qed.

Lemma upd_views_app a b v : upd_views (a ++ b) v = upd_views b (upd_views a v).
Proof. apply foldl_app. Qed.

Section Prefix.
Context (dev : Z) (lg : logstate) (Hlg : log_ok dev lg) (Hhome : NoDup (home lg)).
Context (d : gmap Z (list Z)) (v : Z -> list Z).
Context (Hrange : forall i, i ∈ tails lg -> 0 <= lh_block lg i < 2 ^ 31).
Context (Hlen : length (dblock d (lg_start lg)) = Z.to_nat BSIZE) (Hempty : head_n (dblock d (lg_start lg)) = 0).
Context (Hstart : v (lg_start lg) = dblock d (lg_start lg)).

Lemma start_not_home : lg_start lg ∉ home lg.
Proof using Hlg.
  intros H. apply list_elem_of_fmap in H as (i & H & Hi). apply (lo_home _ _ Hlg i Hi).
  rewrite <- H. apply start_in_log.
Qed.

Lemma slot_not_home i : i ∈ tails lg -> slot lg i ∉ home lg.
Proof using Hlg.
  intros Hi H. apply list_elem_of_fmap in H as (j & H & Hj). revert H. by apply (slot_home dev).
Qed.

Lemma slots_in_log b : b ∈ slot lg <$> tails lg -> in_log lg b.
Proof using Hlg. intros H. apply list_elem_of_fmap in H as (i & -> & Hi). by apply (slot_in_log dev). Qed.

(** A prefix of the home writes, done or not: replaying the whole
    transaction over it gives the state after the commit. *)
Lemma home_prefix ws b :
  (forall w, w ∈ ws -> w ∈ home_writes lg v) -> ~ in_log lg b ->
  let d1 := upd_view (lg_start lg) (full_head lg v) (upd_views (log_writes lg v) (dblock d)) in
  upd_views (home_writes lg v) (upd_views ws d1) b = after_commit lg v d b.
Proof using Hlg Hhome.
  intros Hws Hb d1. unfold after_commit. destruct (decide (b ∈ home lg)) as [Hin|Hin].
  - rewrite bool_decide_eq_true_2 by done. apply upd_views_in; [by rewrite home_writes_keys|].
    apply list_elem_of_fmap in Hin as (i & -> & Hi). unfold home_writes.
    by apply (list_elem_of_fmap_2 (fun i => (lh_block lg i, v (lh_block lg i)))).
  - rewrite bool_decide_eq_false_2 by done.
    rewrite upd_views_notin by by rewrite home_writes_keys. rewrite upd_views_notin.
    + unfold d1, upd_view. rewrite (proj2 (Z.eqb_neq _ _)) by (intros ->; apply Hb, start_in_log).
      apply upd_views_notin. rewrite log_writes_keys. intros H. by apply Hb, slots_in_log.
    + intros H. apply list_elem_of_fmap in H as (w & -> & Hw). apply Hin.
      rewrite <- (home_writes_keys lg v). by apply list_elem_of_fmap_2, Hws.
Qed.

Lemma full_head_fields :
  length (full_head lg v) = Z.to_nat BSIZE /\ head_n (full_head lg v) = lg_n lg /\
  forall i, i ∈ tails lg -> head_block (full_head lg v) i = lh_block lg i.
Proof using Hlg Hrange Hlen Hstart.
  destruct (head_roundtrip lg (v (lg_start lg))) as (E1 & E2 & E3); [by rewrite Hstart|apply Hlg|].
  unfold full_head. rewrite E1, Hstart. split; [done|]. rewrite <- Hstart. split; [done|].
  intros i Hi. apply E3; auto.
Qed.

Lemma empty_head_fields :
  length (empty_head lg v) = Z.to_nat BSIZE /\ head_n (empty_head lg v) = 0.
Proof using Hlg Hrange Hlen Hstart.
  destruct full_head_fields as (G1 & _).
  destruct (head_roundtrip (set_lg_n 0 lg) (full_head lg v) G1) as (Q1 & Q2 & _); [done|].
  unfold empty_head. by rewrite Q1, Q2.
Qed.

(** The keys of a prefix of the log or home writes. *)
Lemma keys_take (ws : list (Z * list Z)) b k : b ∈ (take k ws).*1 -> b ∈ ws.*1.
Proof.
  intros H. apply list_elem_of_fmap in H as (w & -> & Hw). apply list_elem_of_fmap_2.
  by eapply subseteq_take.
Qed.

Let d1 := upd_view (lg_start lg) (full_head lg v) (upd_views (log_writes lg v) (dblock d)).

(** Only log blocks are written: nothing to replay. *)
Lemma prefix_before k :
  recovers_to dev lg (apply_writes (take k (log_writes lg v)) d) (dblock d).
Proof using Hlg Hlen Hempty.
  set (d' := apply_writes _ d).
  assert (forall b, b ∉ slot lg <$> tails lg -> dblock d' b = dblock d b) as Es.
  { intros b Hb. unfold d'. rewrite dblock_apply. apply upd_views_notin.
    intros H. apply Hb. rewrite <- (log_writes_keys lg v). by eapply keys_take. }
  split; rewrite (Es _ (start_not_slot lg)), ?Hempty; [done|lia|cbn; lia|].
  intros b Hb. apply Es. intros H. by apply Hb, slots_in_log.
Qed.

(** The header is written: the replay completes the transaction. *)
Lemma prefix_during j d' :
  (forall b, dblock d' b = upd_views (take j (home_writes lg v)) d1 b) ->
  recovers_to dev lg d' (after_commit lg v d).
Proof using Hlg Hhome Hrange Hlen Hstart.
  intros Ed. destruct full_head_fields as (G1 & G2 & G3).
  assert (dblock d' (lg_start lg) = full_head lg v) as E0.
  { rewrite Ed, upd_views_notin; [unfold d1, upd_view; by rewrite Z.eqb_refl|].
    intros H. apply keys_take in H. rewrite home_writes_keys in H. by apply start_not_home. }
  assert (forall i, i ∈ tails lg -> dblock d' (slot lg i) = v (lh_block lg i)) as Es.
  { intros i Hi. rewrite Ed, upd_views_notin.
    - unfold d1, upd_view. rewrite (proj2 (Z.eqb_neq _ _)) by (unfold slot; lia).
      apply upd_views_in; [rewrite log_writes_keys; apply slots_nodup|].
      unfold log_writes. by apply (list_elem_of_fmap_2 (fun i => (slot lg i, v (lh_block lg i)))).
    - intros H. apply keys_take in H. rewrite home_writes_keys in H. by apply (slot_not_home i). }
  split; rewrite E0, ?G1, ?G2; [done|apply Hlg| |].
  - intros i Hi. assert (i ∈ tails lg) as Hi' by (apply elem_of_seq; lia).
    rewrite G3 by done. by apply (lo_home _ _ Hlg).
  - intros b Hb. fold (tails lg).
    assert ((fun i => (head_block (full_head lg v) i, dblock d' (slot lg i))) <$> tails lg = home_writes lg v) as ->.
    { apply list_fmap_ext. intros x i Hi. apply list_elem_of_lookup_2 in Hi. by rewrite G3, Es. }
    rewrite <- (home_prefix (take j (home_writes lg v)) b); [|intros w Hw; by eapply subseteq_take|done].
    by apply upd_views_ext.
Qed.

(** Everything is written. *)
Lemma prefix_all :
  let d' := apply_writes (commit_writes lg v) d in
  dblock d' (lg_start lg) = empty_head lg v /\
  forall b, ~ in_log lg b -> dblock d' b = after_commit lg v d b.
Proof using Hlg Hhome.
  intros d'. assert (forall b, dblock d' b =
    upd_view (lg_start lg) (empty_head lg v) (upd_views (home_writes lg v) d1) b) as Ed.
  { intros b. unfold d', commit_writes. rewrite dblock_apply, !upd_views_app. done. }
  rewrite Ed. unfold upd_view at 1. rewrite Z.eqb_refl. split; [done|]. intros b Hb.
  rewrite Ed. unfold upd_view at 1. rewrite (proj2 (Z.eqb_neq _ _)) by (intros ->; apply Hb, start_in_log).
  by apply (home_prefix [] b); [intros w Hw; by apply not_elem_of_nil in Hw|].
Qed.

Lemma prefix_recovers k :
  recovers_to dev lg (apply_writes (take k (commit_writes lg v)) d)
    (if (k <=? length (tails lg))%nat then dblock d else after_commit lg v d).
Proof using Hlg Hhome Hrange Hlen Hempty Hstart.
  assert (length (log_writes lg v) = length (tails lg)) as El by apply length_fmap.
  assert (length (home_writes lg v) = length (tails lg)) as Eh by apply length_fmap.
  unfold commit_writes. destruct (Nat.leb_spec k (length (tails lg))) as [Hk|Hk].
  { rewrite take_app_le by lia. apply prefix_before. }
  rewrite take_app_ge, El by lia. destruct (k - length (tails lg))%nat as [|j] eqn:Ej; [lia|].
  cbn [app take]. destruct (Nat.leb_spec j (length (tails lg))) as [Hj|Hj].
  - rewrite take_app_le by lia. apply (prefix_during j). intros b. by rewrite dblock_apply, upd_views_app.
  - rewrite take_ge by (rewrite length_app, Eh; cbn; lia).
    destruct prefix_all as [E0 Ea], empty_head_fields as [Q1 Q2]. unfold commit_writes in E0, Ea. cbn [app] in E0, Ea.
    split; rewrite E0, ?Q1, ?Q2; [done|done|cbn; lia|]. intros b Hb. by apply Ea.
Qed.
End Prefix.

(** * The theorems *)

(** A transaction ready to be committed: its blocks are distinct, outside the
    log, cached and pinned; the log on the disk is empty; nobody holds a
    buffer. *)
Record committing (me : nat) (dev : Z) (lg : logstate) (d : gmap Z (list Z)) (v : Z -> list Z)
  (s : kstate) : Prop := {
  cg_idle : idle me dev (txn_pins lg) d (k_hist s) v lg s;
  cg_log : log_ok dev lg;
  cg_home : NoDup (home lg);
  cg_range : forall i, i ∈ tails lg -> 0 <= lh_block lg i < 2 ^ 31;
  cg_len : length (dblock d (lg_start lg)) = Z.to_nat BSIZE;
  cg_empty : head_n (dblock d (lg_start lg)) = 0 }.

Section Theorems.
Context `{W : WaitBound} `{D : DiskDriver} `{Dok : !DiskOk}.

(** C5. Transactions are atomic across crashes.  [commit] writes the disk in a
    sequence [ws] of block writes; whatever prefix of them a crash leaves, the
    recovery of the next boot ([initlog]) runs to its end and the disk outside
    the log is as before the transaction if the crash came before the header
    was written, and as after the whole transaction otherwise. *)
Theorem commit_crash_safe me dev lg d v s
  (Hs : committing me dev lg d v s) (Hn : 0 < lg_n lg < Z.of_nat NBUF) :
  exists s' ws, commit s = Ret tt s' /\ k_hist s' = k_hist s ++ ws /\ k_disk s' = apply_writes ws d /\
  forall k me' sb h v0 lg0 r,
    idle me' dev (fun _ => 0) (apply_writes (take k ws) d) h v0 lg0 r ->
    length (lg_block lg0) = LOGBLOCKS -> s32 (sb_logstart sb) = lg_start lg ->
    exists r', initlog dev sb r = Ret tt r' /\
      head_n (dblock (k_disk r') (lg_start lg)) = 0 /\
      forall b, ~ in_log lg b ->
        dblock (k_disk r') b = if Z.of_nat k <=? lg_n lg then dblock d b else after_commit lg v d b.
Proof using Dok.
  destruct Hs as [H1 H2 H3 H4 H5 H6].
  destruct (commit_spec me dev lg H2 H3 _ _ _ _ H1 Hn) as (s' & E & Hs').
  exists s', (commit_writes lg v). split; [done|]. split; [apply Hs'|]. split; [apply Hs'|].
  intros k me' sb h v0 lg0 r Hr Hl Hst.
  assert (v (lg_start lg) = dblock d (lg_start lg)) as Hv.
  { destruct (idle_clean me dev _ _ _ _ _ _ (lg_start lg) H1) as [Hp|Hp]; [|done].
    unfold txn_pins in Hp. rewrite bool_decide_eq_false_2 in Hp; [lia|]. by apply (start_not_home dev). }
  pose proof (prefix_recovers dev lg H2 H3 d v H4 H5 H6 Hv k) as Hrec.
  destruct (initlog_recovers me' dev lg sb _ _ _ _ _ _ Hr Hl Hst Hrec) as (r' & E' & Eh & Hr').
  exists r'. split; [done|]. split; [done|]. intros b Hb. rewrite Hr' by done.
  unfold tails. rewrite length_seq. destruct (Nat.leb_spec k (Z.to_nat (lg_n lg))), (Z.leb_spec (Z.of_nat k) (lg_n lg)); done || lia.
Qed.

(** A commit that runs to its end has put every block of the transaction
    in its place on the disk, has changed no other block outside the log, and
    leaves an empty log on the disk and in memory and no block pinned. *)
Theorem commit_installs me dev lg d v s
  (Hs : committing me dev lg d v s) (Hn : 0 < lg_n lg < Z.of_nat NBUF) :
  exists s', commit s = Ret tt s' /\
    (forall b, ~ in_log lg b -> disk_block s' b = after_commit lg v d b) /\
    head_n (disk_block s' (lg_start lg)) = 0 /\ lg_n (k_log s') = 0 /\
    exists l, cache me dev (fun _ => 0) [] l s'.
Proof using Dok.
  destruct Hs as [H1 H2 H3 H4 H5 H6].
  destruct (commit_spec me dev lg H2 H3 _ _ _ _ H1 Hn) as (s' & E & Hs').
  assert (v (lg_start lg) = dblock d (lg_start lg)) as Hv.
  { destruct (idle_clean me dev _ _ _ _ _ _ (lg_start lg) H1) as [Hp|Hp]; [|done].
    unfold txn_pins in Hp. rewrite bool_decide_eq_false_2 in Hp; [lia|]. by apply (start_not_home dev). }
  destruct (prefix_all dev lg H2 H3 d v) as [E0 Ea].
  destruct (empty_head_fields dev lg H2 d v H4 H5 Hv) as [_ Q2].
  exists s'. split; [done|]. unfold disk_block.
  rewrite (id_log _ _ _ _ _ _ _ _ Hs'), (id_disk _ _ _ _ _ _ _ _ Hs').
  split; [exact Ea|]. split; [|split; [done|apply Hs']].
  rewrite <- Q2, <- E0. done.
Qed.

(** With as many blocks in the transaction as there are buffers, none is left
    for a block of the log. *)
Lemma no_buffer_left me dev lg d h v s l :
  idle me dev (txn_pins lg) d h v lg s -> cache me dev (txn_pins lg) [] l s ->
  log_ok dev lg -> NoDup (home lg) -> lg_n lg = Z.of_nat NBUF ->
  lru_pick dev (slot lg 0) l (k_bufs s) = None.
Proof.
  intros Hs Hc Hlg Hd Hn. destruct (lru_pick _ _ _ _) as [b|] eqn:E; [exfalso|done].
  assert (length (home lg) = NBUF) as Hlen by (unfold home, tails; rewrite length_fmap, length_seq; lia).
  assert ((b < NBUF)%nat /\ (b_dev (k_bufs s !!! b) = dev -> b_blockno (k_bufs s !!! b) ∉ home lg)) as [Hb Hnot].
  { unfold lru_pick in E. destruct (List.find _ l) as [c|] eqn:F.
    - injection E as ->. apply List.find_some in F as [Hb F]. apply list_elem_of_In, (cache_in Hc) in Hb.
      split; [done|]. apply is_block_true in F as [_ ->]. intros _. apply (slot_not_home dev lg Hlg).
      apply elem_of_seq. change NBUF with 30%nat in Hn. lia.
    - apply List.find_some in E as [Hb E]. apply List.in_rev, list_elem_of_In, (cache_in Hc) in Hb.
      apply Z.eqb_eq in E. split; [done|]. intros Ed Hin.
      destruct (ca_buf _ _ _ _ _ _ Hc b Hb) as [Hr _ _ _].
      unfold txn_pins in Hr. rewrite Ed, Z.eqb_refl, bool_decide_eq_true_2 in Hr by done.
      destruct (bool_decide _); lia. }
  assert (home lg ⊆+ (fun c => b_blockno (k_bufs s !!! c)) <$> filter (fun c => c <> b) (seq 0 NBUF)) as Hsub.
  { apply NoDup_submseteq; [done|]. intros x Hx.
    destruct (ca_pins _ _ _ _ _ _ Hc x) as [_ Hp]. destruct Hp as (c & Hc1 & Hc2 & _).
    { unfold txn_pins. rewrite bool_decide_eq_true_2 by done. lia. }
    apply is_block_true in Hc2 as [Hc2 <-]. apply (list_elem_of_fmap_2 (fun c => b_blockno (k_bufs s !!! c))).
    apply list_elem_of_filter. split; [|apply elem_of_seq; lia]. intros ->. by apply Hnot. }
  apply submseteq_length in Hsub. rewrite Hlen, length_fmap in Hsub.
  assert (length (filter (fun c => c <> b) (seq 0 NBUF)) < NBUF)%nat as Hlt; [|lia].
  rewrite <- (length_seq NBUF 0) at 2. apply (length_filter_lt _ _ b); [|naive_solver].
  apply elem_of_seq. lia.
Qed.

(** The log admits a transaction of [LOGBLOCKS] blocks, as many as there
    are buffers ([LOGBLOCKS = NBUF] in param.h).  Committing such a transaction
    stops the kernel: every buffer is pinned, and [write_log] finds none for
    the first log block. *)
Theorem commit_full_log_panics me dev lg d v s
  (Hs : committing me dev lg d v s) (Hn : lg_n lg = Z.of_nat LOGBLOCKS) :
  exists s', commit s = Panic "bget: no buffers" s'.
Proof.
  destruct Hs as [H1 H2 H3 _ _ _]. destruct (id_cache _ _ _ _ _ _ _ _ H1) as [l Hc].
  pose proof (no_buffer_left me dev lg _ _ _ _ l H1 Hc H2 H3 Hn) as E.
  exists (kinside BcacheLock s). unfold commit. kstep eq_refl. rewrite (id_log _ _ _ _ _ _ _ _ H1).
  rewrite Hn. cbn [when]. change (0 <? Z.of_nat LOGBLOCKS) with true. cbn [when].
  apply bind_Panic. unfold write_log. kstep eq_refl. rewrite (id_log _ _ _ _ _ _ _ _ H1).
  unfold tails. rewrite Hn. apply bind_Panic. unfold write_log_block. kstep eq_refl.
  rewrite (id_log _ _ _ _ _ _ _ _ H1), (lo_dev _ _ H2). apply bind_Panic.
  unfold bread. apply bind_Panic. by apply (bget_none Hc).
Qed.
End Theorems.

(** * Adding a block to the transaction *)

(** The header once [bno] is recorded in it. *)
Definition logged (bno : Z) (lg : logstate) : logstate :=
  if bool_decide (bno ∈ home lg) then lg
  else set_lg_n (lg_n lg + 1) (set_lg_block (<[Z.to_nat (lg_n lg) := bno]> (lg_block lg)) lg).

Lemma log_slot_found lg bno :
  bno ∈ home lg -> exists i, log_slot lg bno = i /\ i ∈ tails lg /\ lh_block lg i = bno.
Proof.
  intros Hin. apply list_elem_of_fmap in Hin as (j & -> & Hj). unfold log_slot.
  destruct (list_find _ _) as [[i x]|] eqn:F.
  - apply list_find_Some in F as (F1 & F2 & _). exists i. split; [done|].
    assert (x = i) as -> by (apply lookup_seq in F1; lia). split; [|done]. by eapply list_elem_of_lookup_2.
  - exfalso. apply list_find_None in F. rewrite Forall_forall in F. by apply (F j Hj).
Qed.

Lemma log_slot_fresh lg bno : bno ∉ home lg -> log_slot lg bno = Z.to_nat (lg_n lg).
Proof.
  intros Hin. unfold log_slot. destruct (list_find _ _) as [[i x]|] eqn:F; [|done].
  exfalso. apply list_find_Some in F as (F1 & <- & _). apply Hin, list_elem_of_fmap_2.
  by eapply list_elem_of_lookup_2.
Qed.

Lemma home_logged lg bno :
  0 <= lg_n lg < Z.of_nat LOGBLOCKS -> length (lg_block lg) = LOGBLOCKS -> bno ∉ home lg ->
  home (logged bno lg) = home lg ++ [bno].
Proof.
  intros Hn Hl Hin. unfold logged. rewrite bool_decide_eq_false_2 by done.
  unfold home, tails, lh_block. cbn [lg_n set_lg_n lg_block set_lg_block].
  replace (Z.to_nat (lg_n lg + 1)) with (S (Z.to_nat (lg_n lg))) by lia. rewrite seq_S, fmap_app. f_equal.
  - apply list_fmap_ext. intros k i Hi. apply lookup_seq in Hi. rewrite list_lookup_total_insert_ne; [done|lia].
  - cbn. f_equal. apply list_lookup_total_insert_eq. lia.
Qed.

Section Logged.
Context {me : nat} {dev : Z} {held l : list nat} {s : kstate} {b : nat}
  (Hc : cache me dev (txn_pins (k_log s)) held l s) (Hb : b ∈ held)
  (Hlk : lock_free LogLock (khw s)) (Hlen : length (lg_block (k_log s)) = LOGBLOCKS)
  (Hn : 0 <= lg_n (k_log s) < Z.of_nat LOGBLOCKS) (Ho : 1 <= lg_outstanding (k_log s)).
Let bno := b_blockno (k_bufs s !!! b).

Lemma log_write_old : bno ∈ home (k_log s) -> log_write b s = Ret tt s.
Proof using Hc Hlk Hlen Hn Ho.
  intros Hin. pose proof (ca_calm _ _ _ _ _ _ Hc) as Hcalm.
  unfold log_write. kstep (kacq_calm me LogLock s Hcalm Hlk). kstep eq_refl.
  change (k_log (kinside LogLock s)) with (k_log s).
  rewrite (proj2 (Z.leb_gt _ _)), (proj2 (Z.ltb_ge _ _)) by lia. kstep eq_refl.
  change (b_blockno (k_bufs (kinside LogLock s) !!! b)) with bno. kstep eq_refl.
  change (k_log (kinside LogLock s)) with (k_log s).
  destruct (log_slot_found (k_log s) bno Hin) as (i & -> & Hi & Ei). apply elem_of_seq in Hi.
  rewrite (proj2 (Z.eqb_neq _ _)) by lia. kstep eq_refl.
  assert (set_lg_block (<[i := bno]> (lg_block (k_log s))) (k_log s) = k_log s) as ->.
  { rewrite list_insert_id; [by destruct (k_log s)|]. rewrite <- Ei. apply list_lookup_lookup_total_lt. lia. }
  assert (with_k_log (k_log s) (kinside LogLock s) = kinside LogLock s) as -> by by destruct s.
  by apply (krel_calm me).
Qed.

Lemma log_write_new :
  bno ∉ home (k_log s) -> log_write b s = Ret tt (with_k_log (logged bno (k_log s)) (updb b incref s)).
Proof using Hc Hlk Hlen Hn Ho.
  intros Hin. pose proof (ca_calm _ _ _ _ _ _ Hc) as Hcalm.
  unfold log_write. kstep (kacq_calm me LogLock s Hcalm Hlk). kstep eq_refl.
  change (k_log (kinside LogLock s)) with (k_log s).
  rewrite (proj2 (Z.leb_gt _ _)), (proj2 (Z.ltb_ge _ _)) by lia. kstep eq_refl.
  change (b_blockno (k_bufs (kinside LogLock s) !!! b)) with bno. kstep eq_refl.
  rewrite log_slot_fresh, Z2Nat.id, Z.eqb_refl by (done || lia). cbn [when].
  set (s1 := with_k_log _ (kinside LogLock s)).
  assert (bpin b s1 = Ret tt (updb b incref s1)) as E1.
  { apply (bpin_eq me); [by apply calm_inside|]. destruct (ca_bcache _ _ _ _ _ _ Hc) as [nm E].
    exists nm. change (m_locks (acquired LogLock (khw s)) !! BcacheLock = Some (Spinlock 0 nm None)).
    by rewrite acquired_other. }
  unfold logged. rewrite bool_decide_eq_false_2 by done. set (s2 := with_k_log _ (updb b incref s)).
  erewrite bind_Ret; [|kstep E1; exact (eq_refl : _ = Ret tt (kinside LogLock s2))].
  by apply (krel_calm me).
Qed.

Lemma txn_pins_logged x :
  bno ∉ home (k_log s) -> pin bno (txn_pins (k_log s)) x = txn_pins (logged bno (k_log s)) x.
Proof using Hlen Hn.
  intros Hin. unfold pin, txn_pins. rewrite (home_logged _ _ Hn Hlen Hin).
  destruct (Z.eqb_spec x bno) as [->|Hx].
  - rewrite bool_decide_eq_false_2, bool_decide_eq_true_2 by (done || apply elem_of_app; right; apply list_elem_of_here).
    done.
  - by rewrite (bool_decide_ext (x ∈ home (k_log s) ++ [bno]) (x ∈ home (k_log s)))
      by (rewrite elem_of_app, list_elem_of_singleton; naive_solver).
Qed.
End Logged.

(** [log_write] records a buffer's block in the transaction: a block that
    is in it already is absorbed, another one is added at the end and its
    buffer pinned, so that every block of the transaction is pinned exactly
    once and stays cached until the commit.  A transaction that is full, or a
    call outside of [begin_op] and [end_op], stops the kernel. *)
Theorem log_write_absorbs me dev held l s b
  (Hc : cache me dev (txn_pins (k_log s)) held l s) (Hb : b ∈ held)
  (Hlk : lock_free LogLock (khw s)) (Hlen : length (lg_block (k_log s)) = LOGBLOCKS)
  (Hn : 0 <= lg_n (k_log s)) (Hd : NoDup (home (k_log s))) :
  let bno := b_blockno (k_bufs s !!! b) in
  if Z.of_nat LOGBLOCKS <=? lg_n (k_log s) then
    log_write b s = Panic "too big a transaction" (kinside LogLock s)
  else if lg_outstanding (k_log s) <? 1 then
    log_write b s = Panic "log_write outside of trans" (kinside LogLock s)
  else exists s', log_write b s = Ret tt s' /\
    home (k_log s') = (if bool_decide (bno ∈ home (k_log s)) then home (k_log s)
                       else home (k_log s) ++ [bno]) /\
    NoDup (home (k_log s')) /\ cache me dev (txn_pins (k_log s')) held l s' /\
    (forall x, view dev s' x = view dev s x) /\ k_disk s' = k_disk s.
Proof.
  intros bno. pose proof (ca_calm _ _ _ _ _ _ Hc) as Hcalm.
  destruct (Z.leb_spec (Z.of_nat LOGBLOCKS) (lg_n (k_log s))) as [Hf|Hf];
    [|destruct (Z.ltb_spec (lg_outstanding (k_log s)) 1) as [Ho|Ho]].
  1, 2: unfold log_write; kstep (kacq_calm me LogLock s Hcalm Hlk); kstep eq_refl.
  1, 2: change (k_log (kinside LogLock s)) with (k_log s).
  - by rewrite (proj2 (Z.leb_le _ _)) by lia.
  - by rewrite (proj2 (Z.leb_gt _ _)), (proj2 (Z.ltb_lt _ _)) by lia.
  - destruct (decide (bno ∈ home (k_log s))) as [Hin|Hin].
    { exists s. rewrite bool_decide_eq_true_2 by done. by rewrite (log_write_old Hc Hlk Hlen (conj Hn Hf) Ho). }
    rewrite (log_write_new Hc Hlk Hlen (conj Hn Hf) Ho Hin). eexists. split; [done|].
    rewrite bool_decide_eq_false_2 by done. cbn [k_log with_k_log]. fold bno.
    rewrite (home_logged _ _ (conj Hn Hf) Hlen Hin). split; [done|]. split.
    { apply NoDup_app. split; [done|]. split; [|apply NoDup_singleton]. intros x Hx Hx'.
      apply list_elem_of_singleton in Hx' as ->. done. }
    split; [|split; [intros x; exact (view_bpin dev b s x)|done]].
    apply cache_log. apply (cache_pins _ _ (pin bno (txn_pins (k_log s)))).
    { intros x. by apply txn_pins_logged. }
    apply cache_bpin; [done..|]. unfold txn_pins. destruct (bool_decide _); lia.
Qed.

(** * Examples *)

Lemma demo_home m : (m <= 30)%nat -> home (demo_log m) = (fun i => 100 + Z.of_nat i) <$> seq 0 m.
Proof.
  intros Hm. unfold home, tails. cbn [lg_n demo_log]. rewrite Nat2Z.id. apply list_fmap_ext.
  intros k i Hi. apply lookup_seq in Hi. unfold lh_block. cbn [lg_block demo_log].
  apply list_lookup_total_correct. rewrite list_lookup_fmap, lookup_seq_lt by (change LOGBLOCKS with 30%nat; lia).
  done.
Qed.

Lemma demo_txn_pins m x : (m <= 30)%nat -> demo_pins m x = txn_pins (demo_log m) x.
Proof.
  intros Hm. unfold demo_pins, txn_pins. rewrite demo_home by done.
  destruct (_ && _) eqn:E.
  - rewrite bool_decide_eq_true_2; [done|]. apply list_elem_of_fmap. exists (Z.to_nat (x - 100)).
    split; [lia|]. apply elem_of_seq. lia.
  - rewrite bool_decide_eq_false_2; [done|]. intros H. apply list_elem_of_fmap in H as (i & -> & Hi).
    apply elem_of_seq in Hi. lia.
Qed.

Lemma demo_committing m :
  (m <= 30)%nat -> committing 1 1 (demo_log m) ∅ (view 1 (demo_k m)) (demo_k m).
Proof.
  intros Hm. pose proof (demo_home m Hm) as Eh. split.
  - split; [|done..]. exists (seq 0 NBUF). apply (cache_pins _ _ (demo_pins m)); [|by apply demo_cache].
    intros x. by apply demo_txn_pins.
  - split; [done|cbn; change LOGBLOCKS with 30%nat; lia|]. intros i Hi.
    assert (lh_block (demo_log m) i ∈ home (demo_log m)) as H by by apply list_elem_of_fmap_2.
    rewrite Eh in H. apply list_elem_of_fmap in H as (j & -> & _). unfold in_log. cbn.
    change LOGBLOCKS with 30%nat. lia.
  - rewrite Eh. apply NoDup_fmap_2; [|apply NoDup_seq]. intros i j. lia.
  - intros i Hi. assert (lh_block (demo_log m) i ∈ home (demo_log m)) as H by by apply list_elem_of_fmap_2.
    rewrite Eh in H. apply list_elem_of_fmap in H as (j & -> & Hj). apply elem_of_seq in Hj. lia.
  - reflexivity.
  - reflexivity.
Qed.

(** A kernel that boots on disk [d]. *)
Lemma demo_fresh d :
  idle 1 1 (fun _ => 0) d [] (dblock d) (demo_log 0) (with_k_disk d (demo_k 0)).
Proof.
  assert (cache 1 1 (fun _ => 0) [] (seq 0 NBUF) (demo_k 0)) as Hc.
  { apply (cache_pins _ _ (demo_pins 0)); [|apply demo_cache; lia]. intros x. unfold demo_pins.
    destruct (Z.leb_spec 100 x), (Z.ltb_spec x (100 + Z.of_nat 0)); cbn; done || lia. }
  assert (cache 1 1 (fun _ => 0) [] (seq 0 NBUF) (with_k_disk d (demo_k 0))) as Hc'.
  { destruct Hc as [H1 H2 H3 H4 H5 H6 H7 H8 H9 H10]. split; try done. intros b Hb.
    destruct (H10 b Hb) as [Q1 Q2 Q3 Q4]. split; try done. intros _ Hv. exfalso. apply Hv.
    change (b_valid (k_bufs (demo_k 0) !!! b) = 0). rewrite demo_at; [done|]. change NBUF with 30%nat in Hb. lia. }
  split; [by eexists|done|done| |done]. intros x. by apply (view_clean _ _ _ _ _ _ Hc').
Qed.

Definition demo_sb : superblock := Superblock 0 0 0 0 0 2 0 0.

(** A crash after the third write, the header's: recovery completes the
    transaction. *)
Lemma commit_crash_safe_witness :
  exists s' ws r', @commit 0%nat ram_disk (demo_k 2) = Ret tt s' /\ k_hist s' = ws /\
    @initlog 0%nat ram_disk 1 demo_sb (with_k_disk (apply_writes (take 3 ws) ∅) (demo_k 0)) = Ret tt r' /\
    dblock (k_disk r') 100 = replicate (Z.to_nat BSIZE) 7.
Proof.
  destruct (@commit_crash_safe 0%nat ram_disk ram_disk_ok 1 1 (demo_log 2) ∅ (view 1 (demo_k 2)) (demo_k 2)
    (demo_committing 2 ltac:(lia)) ltac:(split; reflexivity)) as (s' & ws & H1 & H2 & _ & H3).
  destruct (H3 3%nat 1%nat demo_sb _ _ _ _ (demo_fresh (apply_writes (take 3 ws) ∅)) eq_refl eq_refl)
    as (r' & H4 & _ & H5).
  exists s', ws, r'. split; [exact H1|]. split; [exact H2|]. split; [exact H4|].
  rewrite H5 by (intros [_ H]; by apply H). reflexivity.
Defined.

Lemma commit_installs_witness :
  exists s', @commit 0%nat ram_disk (demo_k 2) = Ret tt s' /\
    disk_block s' 101 = replicate (Z.to_nat BSIZE) 7 /\ lg_n (k_log s') = 0.
Proof.
  destruct (@commit_installs 0%nat ram_disk ram_disk_ok 1 1 (demo_log 2) ∅ (view 1 (demo_k 2)) (demo_k 2)
    (demo_committing 2 ltac:(lia)) ltac:(split; reflexivity)) as (s' & H1 & H2 & _ & H3 & _).
  exists s'. split; [exact H1|]. split; [|exact H3].
  rewrite H2 by (intros [_ H]; by apply H). reflexivity.
Defined.

Lemma commit_full_log_panics_witness :
  exists s', @commit 0%nat ram_disk (demo_k 30) = Panic "bget: no buffers" s'.
Proof.
  apply (@commit_full_log_panics 0%nat ram_disk 1 1 (demo_log 30) ∅ (view 1 (demo_k 30)) (demo_k 30)).
  - apply demo_committing. lia.
  - reflexivity.
Defined.

(** The process holds buffer 0, of block 100, which the transaction has
    already. *)
Definition demo_held : kstate :=
  with_k_log (set_lg_outstanding 1 (demo_log 1))
    (got 1 0 (fun x => set_b_refcnt 2 x) (demo_k 1)).

Lemma log_write_absorbs_witness :
  exists s', log_write 0 demo_held = Ret tt s' /\ home (k_log s') = [100].
Proof.
  assert (cache 1 1 (txn_pins (k_log demo_held)) [0%nat] (seq 0 NBUF) demo_held) as Hc.
  { apply cache_log. apply (cache_pins _ _ (demo_pins 1)).
    { intros x. apply (demo_txn_pins 1 x). lia. }
    apply (cache_got (demo_cache 1 ltac:(lia)) (bno := 100)). split; try done; [cbv; lia|set_solver|by left]. }
  destruct (log_write_absorbs 1 1 [0%nat] (seq 0 NBUF) demo_held 0 Hc) as (s' & H1 & H2 & _).
  - apply list_elem_of_here.
  - by eapply demo_lock_free.
  - reflexivity.
  - done.
  - vm_compute. repeat constructor; set_solver.
  - exists s'. split; [exact H1|]. rewrite H2. reflexivity.
Defined.
