(* ===== verification/Fs.v ===== *)
(** kernel/fs.c: disk blocks, inodes and their content.

    On-disk structures are byte fields of the block they lie in.  A
    [struct inode *] is an index of the inode table, [None] the null
    pointer. *)
From S2P Require Import Prelude Riscv Spinlock Memory Bytes Kstring Kalloc Vm Proc Switch Sleeplock UserMem Kstate Bio Log.

(** * On-disk inodes *)

Record dinode := Dinode {
  d_type : Z; d_major : Z; d_minor : Z; d_nlink : Z; d_size : Z; d_addrs : list Z }.

(** [(struct dinode * )data + k]. *)
Definition dinode_at (k : nat) (data : list Z) : dinode :=
  let o := (64 * k)%nat in
  Dinode (s16 (get_le 2 o data)) (s16 (get_le 2 (o + 2) data))
    (s16 (get_le 2 (o + 4) data)) (s16 (get_le 2 (o + 6) data))
    (get_le 4 (o + 8) data)
    ((fun j => get_le 4 (o + 12 + 4 * j) data) <$> seq 0 13).

Definition put_dinode (k : nat) (d : dinode) (data : list Z) : list Z :=
  let o := (64 * k)%nat in
  put_bytes o
    (le_bytes 2 (d_type d) ++ le_bytes 2 (d_major d) ++ le_bytes 2 (d_minor d) ++
     le_bytes 2 (d_nlink d) ++ le_bytes 4 (d_size d) ++ (d_addrs d ≫= le_bytes 4)) data.

(** A word of an indirect block. *)
Definition word_at (j : nat) (data : list Z) : Z := get_le 4 (4 * j) data.

(** * The bitmap *)

Definition bit_mask (bi : Z) : Z := Z.shiftl 1 (bi mod 8).
Definition bit_set (bi : Z) (data : list Z) : bool :=
  negb (Z.land (data !!! Z.to_nat (bi / 8)) (bit_mask bi) =? 0).
Definition mark_bit (bi : Z) (data : list Z) : list Z :=
  let k := Z.to_nat (bi / 8) in <[k := Z.lor (data !!! k) (bit_mask bi)]> data.
Definition clear_bit (bi : Z) (data : list Z) : list Z :=
  let k := Z.to_nat (bi / 8) in <[k := Z.land (data !!! k) (Z.lnot (bit_mask bi))]> data.

(** The inner loop of [balloc]: the first free bit of the block's [n] bits. *)
Definition first_free (n : nat) (data : list Z) : option Z :=
  match list_find (fun bi => bit_set (Z.of_nat bi) data = false) (seq 0 n) with
  | Some (_, bi) => Some (Z.of_nat bi)
  | None => None
  end.

Section Fs.
Context `{WaitBound} `{DiskDriver}.

Definition getsb : M kstate superblock := gets k_sb.

Definition readsb (dev : Z) : M kstate unit :=
  bp <- bread dev 1 ;;
  x <- getb bp ;;
  modify (with_k_sb (sb_of (b_data x))) ;;
  brelse bp.

Definition bzero (dev bno : Z) : M kstate unit :=
  bp <- bread dev bno ;;
  modb bp (set_b_data zero_block) ;;
  log_write bp ;;
  brelse bp.

(** An iteration of the outer loop of [balloc]: bitmap block [i]. *)
Definition balloc_block (dev : Z) (sb : superblock) (i : nat) (_ : unit) : M kstate (unit + Z) :=
  let b := Z.of_nat i * BPB in
  bp <- bread dev (BBLOCK b sb) ;;
  x <- getb bp ;;
  match first_free (Z.to_nat (Z.min BPB (sb_size sb - b))) (b_data x) with
  | Some bi =>
      modb bp (fun x => set_b_data (mark_bit bi (b_data x)) x) ;;
      log_write bp ;;
      brelse bp ;;
      bzero dev (b + bi) ;;
      ret (inr (b + bi))
  | None => brelse bp ;; ret (inl tt)
  end.

Definition balloc (dev : Z) : M kstate Z :=
  sb <- getsb ;;
  r <- forl (seq 0 (Z.to_nat ((sb_size sb + BPB - 1) / BPB))) (balloc_block dev sb) tt ;;
  match r with
  | inr a => ret a
  | inl _ => lift (printf "balloc: out of blocks\n" []) ;; ret 0
  end.

Definition bfree (dev b : Z) : M kstate unit :=
  sb <- getsb ;;
  bp <- bread dev (BBLOCK b sb) ;;
  let bi := b mod BPB in
  x <- getb bp ;;
  if negb (bit_set bi (b_data x)) then panic "freeing free block" else
  modb bp (fun x => set_b_data (clear_bit bi (b_data x)) x) ;;
  log_write bp ;;
  brelse bp.

(** * The inode table *)

Definition iinit : M kstate unit :=
  lift (initlock ItableLock "itable") ;;
  iterl (seq 0 NINODE) (fun i => lift (initsleeplock (SlInode i) "inode")).

Definition iget (dev inum : Z) : M kstate nat :=
  kacq ItableLock ;;
  r <- forl (seq 0 NINODE) (fun i (empty : option nat) =>
    ip <- geti i ;;
    if (0 <? i_ref ip) && (i_dev ip =? dev) && (i_inum ip =? inum) then
      modi i (fun ip => set_i_ref (i_ref ip + 1) ip) ;;
      krel ItableLock ;;
      ret (inr i)
    else ret (inl (match empty with
                   | None => if i_ref ip =? 0 then Some i else None
                   | Some _ => empty
                   end))) None ;;
  match r with
  | inr i => ret i
  | inl None => panic "iget: no inodes"
  | inl (Some i) =>
      modi i (set_i_dev dev) ;;
      modi i (set_i_inum inum) ;;
      modi i (set_i_ref 1) ;;
      modi i (set_i_valid 0) ;;
      krel ItableLock ;;
      ret i
  end.

Definition ialloc (dev type : Z) : M kstate (option nat) :=
  sb <- getsb ;;
  r <- forl (seq 1 (Z.to_nat (sb_ninodes sb) - 1)) (fun n (_ : unit) =>
    let inum := Z.of_nat n in
    let k := Z.to_nat (inum mod IPB) in
    bp <- bread dev (IBLOCK inum sb) ;;
    x <- getb bp ;;
    if d_type (dinode_at k (b_data x)) =? 0 then
      modb bp (fun x => set_b_data
        (put_dinode k (Dinode type 0 0 0 0 (replicate 13 0)) (b_data x)) x) ;;
      log_write bp ;;
      brelse bp ;;
      ip <- iget dev inum ;;
      ret (inr ip)
    else brelse bp ;; ret (inl tt)) tt ;;
  match r with
  | inr ip => ret (Some ip)
  | inl _ => lift (printf "ialloc: no inodes\n" []) ;; ret None
  end.

Definition iupdate (i : nat) : M kstate unit :=
  sb <- getsb ;;
  ip <- geti i ;;
  bp <- bread (i_dev ip) (IBLOCK (i_inum ip) sb) ;;
  ip <- geti i ;;
  modb bp (fun x => set_b_data (put_dinode (Z.to_nat (i_inum ip mod IPB))
    (Dinode (i_type ip) (i_major ip) (i_minor ip) (i_nlink ip) (i_size ip) (i_addrs ip))
    (b_data x)) x) ;;
  log_write bp ;;
  brelse bp.

Definition idup (ip : option nat) : M kstate (option nat) :=
  kacq ItableLock ;;
  match ip with
  | None => panic "null dereference"
  | Some i =>
      modi i (fun ip => set_i_ref (i_ref ip + 1) ip) ;;
      krel ItableLock ;;
      ret ip
  end.

Definition ilock (ip : option nat) : M kstate unit :=
  match ip with
  | None => panic "ilock"
  | Some i =>
      ip <- geti i ;;
      if i_ref ip <? 1 then panic "ilock" else
      lift (acquiresleep (SlInode i)) ;;
      ip <- geti i ;;
      if i_valid ip =? 0 then
        sb <- getsb ;;
        bp <- bread (i_dev ip) (IBLOCK (i_inum ip) sb) ;;
        x <- getb bp ;;
        let d := dinode_at (Z.to_nat (i_inum ip mod IPB)) (b_data x) in
        modi i (fun ip => set_i_type (d_type d) (set_i_major (d_major d)
          (set_i_minor (d_minor d) (set_i_nlink (d_nlink d) (set_i_size (d_size d)
          (set_i_addrs (d_addrs d) ip)))))) ;;
        brelse bp ;;
        modi i (set_i_valid 1) ;;
        if d_type d =? 0 then panic "ilock: no type" else ret tt
      else ret tt
  end.

Definition iunlock (ip : option nat) : M kstate unit :=
  match ip with
  | None => panic "iunlock"
  | Some i =>
      h <- lift (holdingsleep (SlInode i)) ;;
      ip <- geti i ;;
      if negb h || (i_ref ip <? 1) then panic "iunlock" else
      lift (releasesleep (SlInode i))
  end.

(** * Inode content *)

(** [if((addr = ip->addrs[k]) == 0) ...]: entry [k], allocated if need be. *)
Definition inode_block (i k : nat) : M kstate Z :=
  ip <- geti i ;;
  let addr := i_addrs ip !!! k in
  if negb (addr =? 0) then ret addr else
  addr <- balloc (i_dev ip) ;;
  if addr =? 0 then ret 0 else
  modi i (fun ip => set_i_addrs (<[k := addr]> (i_addrs ip)) ip) ;;
  ret addr.

Definition bmap (i : nat) (bn : Z) : M kstate Z :=
  if bn <? NDIRECT then inode_block i (Z.to_nat bn) else
  let bn := bn - NDIRECT in
  if bn <? NINDIRECT then
    addr <- inode_block i (Z.to_nat NDIRECT) ;;
    if addr =? 0 then ret 0 else
    ip <- geti i ;;
    bp <- bread (i_dev ip) addr ;;
    x <- getb bp ;;
    let addr := word_at (Z.to_nat bn) (b_data x) in
    addr <- (if negb (addr =? 0) then ret addr else
      addr <- balloc (i_dev ip) ;;
      when (negb (addr =? 0))
        (modb bp (fun x => set_b_data (put_le 4 (4 * Z.to_nat bn) addr (b_data x)) x) ;;
         log_write bp) ;;
      ret addr) ;;
    brelse bp ;;
    ret addr
  else panic "bmap: out of range".

Definition itrunc (i : nat) : M kstate unit :=
  iterl (seq 0 (Z.to_nat NDIRECT)) (fun k =>
    ip <- geti i ;;
    when (negb (i_addrs ip !!! k =? 0))
      (bfree (i_dev ip) (i_addrs ip !!! k) ;;
       modi i (fun ip => set_i_addrs (<[k := 0]> (i_addrs ip)) ip))) ;;
  ip <- geti i ;;
  let k := Z.to_nat NDIRECT in
  when (negb (i_addrs ip !!! k =? 0))
    (bp <- bread (i_dev ip) (i_addrs ip !!! k) ;;
     iterl (seq 0 (Z.to_nat NINDIRECT)) (fun j =>
       x <- getb bp ;;
       when (negb (word_at j (b_data x) =? 0))
         (bfree (i_dev ip) (word_at j (b_data x)))) ;;
     brelse bp ;;
     bfree (i_dev ip) (i_addrs ip !!! k) ;;
     modi i (fun ip => set_i_addrs (<[k := 0]> (i_addrs ip)) ip)) ;;
  modi i (set_i_size 0) ;;
  iupdate i.

Definition iput (i : nat) : M kstate unit :=
  kacq ItableLock ;;
  ip <- geti i ;;
  when ((i_ref ip =? 1) && negb (i_valid ip =? 0) && (i_nlink ip =? 0))
    (lift (acquiresleep (SlInode i)) ;;
     krel ItableLock ;;
     itrunc i ;;
     modi i (set_i_type 0) ;;
     iupdate i ;;
     modi i (set_i_valid 0) ;;
     lift (releasesleep (SlInode i)) ;;
     kacq ItableLock) ;;
  modi i (fun ip => set_i_ref (i_ref ip - 1) ip) ;;
  krel ItableLock.

Definition iunlockput (i : nat) : M kstate unit :=
  iunlock (Some i) ;;
  iput i.

Definition ireclaim (dev : Z) : M kstate unit :=
  sb <- getsb ;;
  iterl (seq 1 (Z.to_nat (sb_ninodes sb) - 1)) (fun n =>
    let inum := Z.of_nat n in
    bp <- bread dev (IBLOCK inum sb) ;;
    x <- getb bp ;;
    let d := dinode_at (Z.to_nat (inum mod IPB)) (b_data x) in
    ip <- (if negb (d_type d =? 0) && (d_nlink d =? 0) then
             lift (printf "ireclaim: orphaned inode %d\n" [inum]) ;;
             i <- iget dev inum ;; ret (Some i)
           else ret None) ;;
    brelse bp ;;
    match ip with
    | Some i =>
        begin_op ;;
        ilock (Some i) ;;
        iunlock (Some i) ;;
        iput i ;;
        end_op
    | None => ret tt
    end).

Definition fsinit (dev : Z) : M kstate unit :=
  readsb dev ;;
  sb <- getsb ;;
  if negb (sb_magic sb =? FSMAGIC) then panic "invalid file system" else
  initlog dev sb ;;
  ireclaim dev.

(** An iteration of the loop of [readi]: [tot] and the bytes that went to the
    destination so far. *)
Definition read_block (i : nat) (dst : dest) (off n : Z) (x : Z * list Z)
  : M kstate ((Z * list Z) + (Z * list Z)) :=
  let '(tot, bs) := x in
  if negb (tot <? n) then ret (inr (s32 tot, bs)) else
  let o := off + tot in
  addr <- bmap i (o / BSIZE) ;;
  if addr =? 0 then ret (inr (s32 tot, bs)) else
  ip <- geti i ;;
  bp <- bread (i_dev ip) addr ;;
  let m := Z.min (n - tot) (BSIZE - o mod BSIZE) in
  x <- getb bp ;;
  let chunk := sub_bytes (Z.to_nat (o mod BSIZE)) (Z.to_nat m) (b_data x) in
  r <- lift (either_copyout (dest_at dst tot) chunk) ;;
  brelse bp ;;
  if r =? -1 then ret (inr (-1, bs)) else
  ret (inl (tot + m, bs ++ chunk)).

(** The count, and the bytes that went to the destination. *)
Definition readi (i : nat) (dst : dest) (off n : Z) : M kstate (Z * list Z) :=
  ip <- geti i ;;
  if (i_size ip <? off) || (u32 (off + n) <? off) then ret (0, []) else
  let n := if i_size ip <? u32 (off + n) then i_size ip - off else n in
  loop (Z.to_nat (n / BSIZE + 3)) (read_block i dst off n) (0, []).

(** An iteration of the loop of [writei]. *)
Definition write_block (i : nat) (src : source) (off n tot : Z) : M kstate (Z + Z) :=
  if negb (tot <? n) then ret (inr tot) else
  let o := off + tot in
  addr <- bmap i (o / BSIZE) ;;
  if addr =? 0 then ret (inr tot) else
  ip <- geti i ;;
  bp <- bread (i_dev ip) addr ;;
  let m := Z.min (n - tot) (BSIZE - o mod BSIZE) in
  r <- lift (either_copyin (source_at src tot) m) ;;
  modb bp (fun x => set_b_data (put_bytes (Z.to_nat (o mod BSIZE)) (snd r) (b_data x)) x) ;;
  if fst r =? -1 then brelse bp ;; ret (inr tot) else
  log_write bp ;;
  brelse bp ;;
  ret (inl (tot + m)).

Definition writei (i : nat) (src : source) (off n : Z) : M kstate Z :=
  ip <- geti i ;;
  if (i_size ip <? off) || (u32 (off + n) <? off) then ret (-1) else
  if MAXFILE * BSIZE <? u32 (off + n) then ret (-1) else
  tot <- loop (Z.to_nat (n / BSIZE + 3)) (write_block i src off n) 0 ;;
  ip <- geti i ;;
  when (i_size ip <? off + tot) (modi i (set_i_size (off + tot))) ;;
  iupdate i ;;
  ret (s32 tot).
End Fs.
