(* ===== verification/Txn.v ===== *)
(** Blocks inside a transaction: what kernel/fs.c gets from the buffer cache
    and the log between [begin_op] and [end_op], and with it the block
    allocator and the inodes on disk.

    [txn me dev v held s]: process [me] is inside a transaction, holds the
    buffers [held], and the blocks have the contents [v]. *)
From S2P Require Import Prelude Riscv Spinlock Memory Bytes Kstring Kalloc Vm Proc Switch Sleeplock UserMem Kstate Bio Cache Log Crash Fs.

Record log_open (lg : logstate) : Prop := {
  op_n : 0 <= lg_n lg;
  op_len : length (lg_block lg) = LOGBLOCKS;
  op_nodup : NoDup (home lg);
  op_out : 1 <= lg_outstanding lg }.

Record txn (me : nat) (dev : Z) (v : Z -> list Z) (held : list nat) (s : kstate) : Prop := {
  tx_cache : exists l, cache me dev (txn_pins (k_log s)) held l s;
  tx_view : forall x, view dev s x = v x;
  tx_open : log_open (k_log s);
  tx_lock : lock_free LogLock (khw s) }.

(** What the operations on blocks leave alone. *)
Definition outer (s : kstate) :=
  (k_sb s, k_itable s, k_ftable s, k_pipes s,
   (k_cons s, k_uart s, k_first s, k_vd s, k_mmio s), khw s, inode_locks s, pids s, k_disk s).

Lemma rest_outer s s' :
  rest s' = rest s -> k_disk s' = k_disk s -> k_log s' = k_log s /\ outer s' = outer s.
Proof.
  unfold rest, outer. intros H ->. do 8 apply pair_equal_spec in H as [H ?].
  split; [done|]. congruence.
Qed.

Lemma outer_parts s s' : outer s' = outer s ->
  khw s' = khw s /\ k_sb s' = k_sb s /\ k_itable s' = k_itable s /\ k_disk s' = k_disk s.
Proof. unfold outer. intros H. do 8 apply pair_equal_spec in H as [H ?]. done. Qed.

Lemma outer_locks s s' : outer s' = outer s -> inode_locks s' = inode_locks s /\ pids s' = pids s.
Proof. unfold outer. intros H. do 3 apply pair_equal_spec in H as [H ?]. done. Qed.

Lemma home_length lg : length (home lg) = Z.to_nat (lg_n lg).
Proof. unfold home, tails. by rewrite length_fmap, length_seq. Qed.

Lemma txn_pins_home lg b : 0 < txn_pins lg b <-> b ∈ home lg.
Proof. unfold txn_pins. case_bool_decide; split; done || lia. Qed.

(** The block of no buffer held is on the disk, or in the transaction. *)
Lemma clean_unheld me dev pins held l s bno :
  cache me dev pins held l s -> (forall b, b ∈ held -> b_blockno (k_bufs s !!! b) <> bno) ->
  0 < pins bno \/ view dev s bno = disk_block s bno.
Proof.
  intros Hc Hh. destruct (ca_pins _ _ _ _ _ _ Hc bno) as [Hp _].
  destruct (decide (pins bno = 0)) as [E|E]; [|left; lia]. right.
  destruct (view_cases dev s bno) as [(b & Hb & Hk & Hv & ->)|Hm]; [|by apply view_miss].
  apply is_block_true in Hk as [Hd Hk]. destruct (ca_buf _ _ _ _ _ _ Hc b Hb) as [Qr Qc _ _].
  rewrite <- Hk. apply Qc; [done..|]. rewrite Qr, Hd, Z.eqb_refl, Hk, E, bool_decide_eq_false_2; [done|].
  intros H. by apply (Hh b).
Qed.

Section Blocks.
Context `{W : WaitBound} `{D : DiskDriver} `{Dok : !DiskOk}.
Context {me : nat} {dev : Z}.
Implicit Types (v : Z -> list Z) (s : kstate).

Lemma txn_ext v v' held s : (forall x, v x = v' x) -> txn me dev v held s -> txn me dev v' held s.
Proof. intros E [H1 H2 H3 H4]. split; [done| |done..]. intros x. by rewrite <- E. Qed.

Lemma bread_txn v held s bno :
  txn me dev v held s -> (forall b, b ∈ held -> b_blockno (k_bufs s !!! b) <> bno) ->
  lg_n (k_log s) + Z.of_nat (length held) < Z.of_nat NBUF ->
  exists b s', bread dev bno s = Ret b s' /\ txn me dev v (b :: held) s' /\
    b_blockno (k_bufs s' !!! b) = bno /\ b_data (k_bufs s' !!! b) = v bno /\
    (bno ∈ home (k_log s) \/ v bno = disk_block s bno) /\
    (forall c, c ∈ held -> k_bufs s' !!! c = k_bufs s !!! c) /\
    k_log s' = k_log s /\ outer s' = outer s.
Proof using Dok.
  intros [[l Hc] Hv Ho Hl] Hn Hroom.
  destruct (bread_spec bno Hc Hn) as (b & s' & E & C & K & X & V & F & Dk & _ & R).
  { apply (room_for me dev _ _ _ _ (home (k_log s)) bno Hc); [intros; by apply txn_pins_home|].
    right. rewrite home_length. destruct Ho. lia. }
  destruct (rest_outer _ _ R Dk) as [L O]. destruct (outer_parts _ _ O) as (Eh & _).
  exists b, s'. split; [done|]. rewrite X, Hv. split; [|split; [done|]; split; [done|]; split; [|done]].
  - split; rewrite ?L, ?Eh; try done; [by exists l|]. intros x. by rewrite V.
  - rewrite <- txn_pins_home, <- Hv. by apply (clean_unheld me dev _ held l).
Qed.

Lemma brelse_txn v b held s :
  txn me dev v (b :: held) s ->
  (let bno := b_blockno (k_bufs s !!! b) in bno ∈ home (k_log s) \/ v bno = disk_block s bno) ->
  exists s', brelse b s = Ret tt s' /\ txn me dev v held s' /\
    (forall c, b_blockno (k_bufs s' !!! c) = b_blockno (k_bufs s !!! c) /\
               b_data (k_bufs s' !!! c) = b_data (k_bufs s !!! c)) /\
    k_log s' = k_log s /\ outer s' = outer s.
Proof.
  intros [[l Hc] Hv Ho Hl] Hcl.
  destruct (brelse_spec b held Hc) as (l' & s' & E & C & V & F & Dk & _ & R); [done| |].
  { rewrite txn_pins_home. destruct Hcl as [H|H]; [by left|right].
    rewrite <- H, <- Hv. symmetry. by apply (held_view Hc), list_elem_of_here. }
  destruct (rest_outer _ _ R Dk) as [L O]. destruct (outer_parts _ _ O) as (Eh & _).
  exists s'. split; [done|]. split; [|done].
  split; rewrite ?L, ?Eh; try done; [by exists l'|]. intros x. by rewrite V.
Qed.

(** [bp->data ... = ...; log_write(bp)]. *)
Lemma write_txn v b held s (f : buf -> buf) x :
  txn me dev v (b :: held) s -> f (k_bufs s !!! b) = set_b_data x (k_bufs s !!! b) ->
  lg_n (k_log s) < Z.of_nat LOGBLOCKS ->
  let bno := b_blockno (k_bufs s !!! b) in
  exists s1 s', modb b f s = Ret tt s1 /\ log_write b s1 = Ret tt s' /\
    txn me dev (upd_view bno x v) (b :: held) s' /\
    b_blockno (k_bufs s' !!! b) = bno /\ bno ∈ home (k_log s') /\
    lg_n (k_log s) <= lg_n (k_log s') <= lg_n (k_log s) + 1 /\
    (forall y, y ∈ home (k_log s) -> y ∈ home (k_log s')) /\ outer s' = outer s.
Proof.
  intros [[l Hc] Hv Ho Hl] Hf Hn bno. set (s1 := updb b (set_b_data x) s).
  assert (modb b f s = Ret tt s1) as E1.
  { unfold modb, modify, s1, updb. do 2 f_equal. by apply list_alter_same. }
  pose proof (cache_data Hc (list_elem_of_here b held) x : cache _ _ (txn_pins (k_log s1)) _ _ s1) as C1.
  pose proof (data_at Hc (list_elem_of_here b held) x : k_bufs s1 !!! b = _) as A1.
  assert (b_blockno (k_bufs s1 !!! b) = bno) as K1 by by rewrite A1.
  assert (forall y, view dev s1 y = upd_view bno x v y) as V1.
  { intros y. unfold s1. rewrite (view_data Hc (list_elem_of_here b held)). unfold upd_view.
    destruct (_ =? _); [done|apply Hv]. }
  destruct Ho as [O1 O2 O3 O4]. exists s1.
  destruct (decide (bno ∈ home (k_log s))) as [Hin|Hin].
  { exists s1. split; [done|]. rewrite (log_write_old C1 Hl O2 (conj O1 Hn) O4) by by rewrite K1.
    split; [done|]. split; [by split; [exists l| |..]|]. split; [done|]. split; [done|]. split; [|done].
    change (k_log s1) with (k_log s). lia. }
  pose proof (log_write_new (s := s1) (b := b) C1 Hl O2 (conj O1 Hn) O4) as E2. rewrite K1 in E2.
  eexists. split; [done|]. split; [by apply E2|]. change (k_log s1) with (k_log s).
  assert (home (logged bno (k_log s)) = home (k_log s) ++ [bno]) as Eh by by apply home_logged.
  split; [split|].
  - exists l. apply cache_log. apply (cache_pins _ _ (pin bno (txn_pins (k_log s)))).
    { intros y. pose proof (@txn_pins_logged s1 b O2 (conj O1 Hn) y) as H. rewrite K1 in H. by apply H. }
    rewrite <- K1. apply cache_bpin; [done|apply list_elem_of_here|]. unfold txn_pins. destruct (bool_decide _); lia.
  - intros y. rewrite <- V1. exact (view_bpin dev b s1 y).
  - cbn [k_log with_k_log]. split.
    + unfold logged. rewrite bool_decide_eq_false_2 by done. cbn. lia.
    + unfold logged. rewrite bool_decide_eq_false_2 by done. cbn. by rewrite length_insert.
    + rewrite Eh. apply NoDup_app. split; [done|]. split; [|apply NoDup_singleton]. intros y Hy Hy'.
      by apply list_elem_of_singleton in Hy' as ->.
    + unfold logged. by rewrite bool_decide_eq_false_2 by done.
  - done.
  - cbn [k_log with_k_log]. rewrite Eh. split; [|split].
    + change (b_blockno (alter incref b (k_bufs s1) !!! b) = bno). by rewrite buf_keeps.
    + apply elem_of_app. right. apply list_elem_of_here.
    + split; [unfold logged; rewrite bool_decide_eq_false_2 by done; cbn; lia|].
      split; [|done]. intros y Hy. apply elem_of_app. by left.
Qed.
End Blocks.

(** * The free bitmap *)

Lemma land_bit x k : 0 <= k -> negb (Z.land x (Z.shiftl 1 k) =? 0) = Z.testbit x k.
Proof.
  intros Hk. rewrite Z.shiftl_1_l. destruct (Z.testbit x k) eqn:E.
  - apply negb_true_iff, Z.eqb_neq. intros H. apply (f_equal (fun z => Z.testbit z k)) in H.
    by rewrite Z.land_spec, E, Z.pow2_bits_true, Z.bits_0 in H by lia.
  - apply negb_false_iff, Z.eqb_eq, Z.bits_inj'. intros j Hj. rewrite Z.land_spec, Z.bits_0.
    rewrite Z.pow2_bits_eqb by lia. destruct (Z.eqb_spec k j) as [<-|_]; [by rewrite E|apply andb_false_r].
Qed.

Section Bits.
Context (data : list Z) (bi j : Z) (Hbi : 0 <= bi < 8 * Z.of_nat (length data)) (Hj : 0 <= j).

Lemma bit_set_testbit i l : bit_set i l = Z.testbit (l !!! Z.to_nat (i / 8)) (i mod 8).
Proof. apply land_bit. by apply Z.mod_pos_bound. Qed.

Lemma same_byte : Z.to_nat (bi / 8) = Z.to_nat (j / 8) -> (bi mod 8 =? j mod 8) = (j =? bi).
Proof using Hbi Hj.
  intros E. apply Z2Nat.inj in E; [|apply Z.div_pos; lia..].
  pose proof (Z.div_mod bi 8). pose proof (Z.div_mod j 8).
  destruct (Z.eqb_spec (bi mod 8) (j mod 8)), (Z.eqb_spec j bi); congruence || lia.
Qed.

Lemma bit_byte : (Z.to_nat (bi / 8) < length data)%nat.
Proof using Hbi. apply Nat2Z.inj_lt. rewrite Z2Nat.id by (apply Z.div_pos; lia). apply Z.div_lt_upper_bound; lia. Qed.

Lemma mark_bit_spec : bit_set j (mark_bit bi data) = bit_set j data || (j =? bi).
Proof using Hbi Hj.
  rewrite !bit_set_testbit. unfold mark_bit, bit_mask. pose proof bit_byte as Hl.
  destruct (decide (Z.to_nat (bi / 8) = Z.to_nat (j / 8))) as [E|E].
  - rewrite <- E, list_lookup_total_insert_eq by done.
    rewrite Z.lor_spec, Z.shiftl_1_l, Z.pow2_bits_eqb by by apply Z.mod_pos_bound.
    by rewrite same_byte.
  - rewrite list_lookup_total_insert_ne by done. rewrite (proj2 (Z.eqb_neq j bi)) by congruence.
    by rewrite orb_false_r.
Qed.

Lemma clear_bit_spec : bit_set j (clear_bit bi data) = bit_set j data && negb (j =? bi).
Proof using Hbi Hj.
  rewrite !bit_set_testbit. unfold clear_bit, bit_mask. pose proof bit_byte as Hl.
  destruct (decide (Z.to_nat (bi / 8) = Z.to_nat (j / 8))) as [E|E].
  - rewrite <- E, list_lookup_total_insert_eq by done.
    rewrite Z.land_spec, Z.lnot_spec by by apply Z.mod_pos_bound.
    rewrite Z.shiftl_1_l, Z.pow2_bits_eqb by by apply Z.mod_pos_bound.
    by rewrite same_byte.
  - rewrite list_lookup_total_insert_ne by done. rewrite (proj2 (Z.eqb_neq j bi)) by congruence.
    by rewrite andb_true_r.
Qed.
End Bits.

Lemma first_free_spec n data :
  match first_free n data with
  | Some bi => 0 <= bi < Z.of_nat n /\ bit_set bi data = false /\
      forall j, 0 <= j < bi -> bit_set j data = true
  | None => forall j, 0 <= j < Z.of_nat n -> bit_set j data = true
  end.
Proof.
  unfold first_free. destruct (list_find _ _) as [[k bi]|] eqn:F.
  - apply list_find_Some in F as (F1 & F2 & F3). apply lookup_seq in F1 as [-> F1].
    split; [lia|]. split; [done|]. intros j Hj. apply not_false_iff_true. intros E.
    apply (F3 (Z.to_nat j) (Z.to_nat j)); [apply lookup_seq; lia|lia|by rewrite Z2Nat.id by lia].
  - apply list_find_None in F. rewrite Forall_forall in F. intros j Hj. apply not_false_iff_true. intros E.
    apply (F (Z.to_nat j)); [apply elem_of_seq; lia|by rewrite Z2Nat.id by lia].
Qed.

(** Block [b] is marked in use. *)
Definition in_use (sb : superblock) (v : Z -> list Z) (b : Z) : bool :=
  bit_set (b mod BPB) (v (BBLOCK b sb)).

Section Balloc.
Context `{W : WaitBound} `{D : DiskDriver} `{Dok : !DiskOk}.
Context {me : nat} {dev : Z} (sb : superblock).
Implicit Types (v : Z -> list Z) (s : kstate).

Lemma bzero_txn v s bno :
  txn me dev v [] s -> lg_n (k_log s) < Z.of_nat LOGBLOCKS ->
  exists s', bzero dev bno s = Ret tt s' /\ txn me dev (upd_view bno zero_block v) [] s' /\
    lg_n (k_log s') <= lg_n (k_log s) + 1 /\ outer s' = outer s.
Proof using Dok.
  intros H Hn. destruct (bread_txn v [] s bno H) as (b & s1 & E1 & T1 & K1 & X1 & _ & _ & L1 & O1);
    [set_solver|cbn; change NBUF with LOGBLOCKS; lia|].
  destruct (write_txn v b [] s1 (set_b_data zero_block) zero_block T1) as (s2 & s3 & E2 & E3 & T3 & K3 & Hin & Hle & _ & O3);
    [done|by rewrite L1|].
  destruct (brelse_txn _ b [] s3 T3) as (s4 & E4 & T4 & _ & L4 & O4); [left; by rewrite K3|].
  exists s4. unfold bzero. kstep E1. kstep E2. kstep E3. rewrite K1 in T4. rewrite L4, O4, O3, <- L1. split; [done|].
  split; [done|]. split; [lia|done].
Qed.

(** The contents once block [b] is taken. *)
Definition taken (b : Z) v : Z -> list Z :=
  upd_view b zero_block (upd_view (BBLOCK b sb) (mark_bit (b mod BPB) (v (BBLOCK b sb))) v).

Lemma split_block i bi : 0 <= bi < BPB ->
  (Z.of_nat i * BPB + bi) mod BPB = bi /\ BBLOCK (Z.of_nat i * BPB + bi) sb = BBLOCK (Z.of_nat i * BPB) sb.
Proof.
  intros H. unfold BBLOCK. rewrite Z.add_comm, Z.mod_add, Z.div_add, Z.div_mul by done.
  rewrite Z.mod_small, Z.div_small by done. done.
Qed.

Lemma balloc_block_txn v s i :
  txn me dev v [] s -> lg_n (k_log s) + 1 < Z.of_nat LOGBLOCKS ->
  let b := Z.of_nat i * BPB in
  match first_free (Z.to_nat (Z.min BPB (sb_size sb - b))) (v (BBLOCK b sb)) with
  | Some bi => exists s', balloc_block dev sb i tt s = Ret (inr (b + bi)) s' /\
      txn me dev (taken (b + bi) v) [] s' /\ lg_n (k_log s') <= lg_n (k_log s) + 2 /\ outer s' = outer s
  | None => exists s', balloc_block dev sb i tt s = Ret (inl tt) s' /\ txn me dev v [] s' /\
      k_log s' = k_log s /\ outer s' = outer s
  end.
Proof using Dok.
  intros H Hn b.
  destruct (bread_txn v [] s (BBLOCK b sb) H) as (k & s1 & E1 & T1 & K1 & X1 & C1 & _ & L1 & O1);
    [set_solver|cbn; change NBUF with LOGBLOCKS; lia|].
  unfold balloc_block. fold b. kstep E1. kstep eq_refl. rewrite X1.
  pose proof (first_free_spec (Z.to_nat (Z.min BPB (sb_size sb - b))) (v (BBLOCK b sb))) as Hff.
  destruct (first_free _ _) as [bi|].
  - destruct (write_txn v k [] s1 (fun x => set_b_data (mark_bit bi (b_data x)) x) (mark_bit bi (v (BBLOCK b sb))) T1)
      as (s2 & s3 & E2 & E3 & T3 & K3 & Hin & Hle & _ & O3); [by rewrite X1|rewrite L1; lia|].
    destruct (brelse_txn _ k [] s3 T3) as (s4 & E4 & T4 & _ & L4 & O4); [left; by rewrite K3|].
    rewrite K1 in T4. destruct (bzero_txn _ s4 (b + bi) T4) as (s5 & E5 & T5 & L5 & O5); [rewrite L4; rewrite L1 in Hle; lia|].
    exists s5. kstep E2. kstep E3. kstep E4. kstep E5. split; [done|]. rewrite O5, O4, O3.
    split; [|split; [rewrite L4 in L5; rewrite L1 in Hle; lia|done]].
    unfold taken. destruct (split_block i bi) as [Ea Eb]; [lia|]. fold b in Ea, Eb. by rewrite Ea, Eb.
  - destruct (brelse_txn _ k [] s1 T1) as (s4 & E4 & T4 & _ & L4 & O4).
    { rewrite K1, L1. destruct (outer_parts _ _ O1) as (_ & _ & _ & Ed). unfold disk_block. by rewrite Ed. }
    exists s4. kstep E4. by rewrite L4, O4.
Qed.

(** The loop over the bitmap blocks from block [i] on. *)
Lemma balloc_loop v s n i :
  txn me dev v [] s -> lg_n (k_log s) + 1 < Z.of_nat LOGBLOCKS ->
  (forall b, 0 <= b < Z.min (sb_size sb) (Z.of_nat i * BPB) -> in_use sb v b = true) ->
  (exists b s', forl (seq i n) (balloc_block dev sb) tt s = Ret (inr b) s' /\
     0 <= b < sb_size sb /\ in_use sb v b = false /\ (forall c, 0 <= c < b -> in_use sb v c = true) /\
     txn me dev (taken b v) [] s' /\ lg_n (k_log s') <= lg_n (k_log s) + 2 /\ outer s' = outer s) \/
  (exists s', forl (seq i n) (balloc_block dev sb) tt s = Ret (inl tt) s' /\
     (forall c, 0 <= c < Z.min (sb_size sb) (Z.of_nat (i + n) * BPB) -> in_use sb v c = true) /\
     txn me dev v [] s' /\ k_log s' = k_log s /\ outer s' = outer s).
Proof using Dok.
  revert i s. induction n as [|n IH]; intros i s H Hn Hb; cbn [seq].
  { right. exists s. split; [done|]. split; [|done]. intros c Hc. apply Hb. rewrite Nat.add_0_r in Hc. lia. }
  pose proof (balloc_block_txn v s i H Hn) as E. cbn zeta in E. set (b := Z.of_nat i * BPB) in *.
  assert (0 <= b /\ Z.of_nat (S i) * BPB = b + BPB) as [Hb0 HbS] by (subst b; change BPB with 8192; lia).
  pose proof (first_free_spec (Z.to_nat (Z.min BPB (sb_size sb - b))) (v (BBLOCK b sb))) as F.
  assert (forall c, b <= c < b + BPB -> in_use sb v c = bit_set (c - b) (v (BBLOCK b sb))) as Hin.
  { intros c Hc. unfold in_use. destruct (split_block i (c - b)) as [E1 E2]; [lia|].
    fold b in E1, E2. replace (b + (c - b)) with c in * by lia. by rewrite E1, E2. }
  destruct (first_free _ _) as [bi|].
  - left. destruct E as (s' & E & T' & L' & O'). destruct F as (F1 & F2 & F3). exists (b + bi), s'.
    split; [by apply forl_exit|]. split; [lia|]. split; [rewrite Hin by lia; by replace (b + bi - b) with bi by lia|].
    split; [|done]. intros c Hc. destruct (Z.lt_ge_cases c b); [apply Hb; lia|]. rewrite Hin by lia. apply F3. lia.
  - destruct E as (s' & E & T' & L' & O'). rewrite (forl_next _ _ _ _ _ _ _ E), <- O', <- L'.
    replace (i + S n)%nat with (S i + n)%nat by lia.
    apply (IH (S i) s' T'); [by rewrite L'|]. intros c Hc.
    destruct (Z.lt_ge_cases c b); [apply Hb; lia|]. rewrite Hin by lia. apply F. lia.
Qed.

(** A message on the console. *)
Lemma printf_txn v held s fmt args :
  txn me dev v held s ->
  exists s', lift (printf fmt args) s = Ret tt s' /\ txn me dev v held s' /\
    k_sb s' = k_sb s /\ k_itable s' = k_itable s /\ k_log s' = k_log s /\ k_disk s' = k_disk s.
Proof.
  intros [[l Hc] Hv Ho Hl]. eexists. split; [exact (lift_Ret _ s _ _ (eq_refl : printf fmt args _ = _))|].
  split; [|done]. split; [exists l; by apply cache_machine|exact Hv|exact Ho|exact Hl].
Qed.

(** The file system's layout: a bitmap block is in use, and has BSIZE bytes. *)
Record fs_layout (v : Z -> list Z) : Prop := {
  ly_len : forall b, 0 <= b < sb_size sb -> length (v (BBLOCK b sb)) = Z.to_nat BSIZE;
  ly_used : forall b, 0 <= b < sb_size sb ->
    0 <= BBLOCK b sb < sb_size sb /\ in_use sb v (BBLOCK b sb) = true }.

Lemma same_bit b c : BBLOCK c sb = BBLOCK b sb -> (c mod BPB =? b mod BPB) = (c =? b).
Proof.
  unfold BBLOCK. intros E. pose proof (Z.div_mod b BPB). pose proof (Z.div_mod c BPB).
  destruct (Z.eqb_spec (c mod BPB) (b mod BPB)), (Z.eqb_spec c b); try done; [exfalso|congruence].
  assert (c / BPB = b / BPB) as E' by lia. rewrite E' in *. change BPB with 8192 in *. lia.
Qed.

Lemma bit_range b v : fs_layout v -> 0 <= b < sb_size sb ->
  0 <= b mod BPB < 8 * Z.of_nat (length (v (BBLOCK b sb))).
Proof.
  intros [L _] Hb. rewrite (L b Hb). pose proof (Z.mod_pos_bound b BPB eq_refl). done.
Qed.

Lemma taken_spec b v : fs_layout v -> 0 <= b < sb_size sb -> in_use sb v b = false ->
  taken b v b = zero_block /\ fs_layout (taken b v) /\
  (forall c, 0 <= c < sb_size sb -> in_use sb (taken b v) c = in_use sb v c || (c =? b)) /\
  (forall x, x <> b -> x <> BBLOCK b sb -> taken b v x = v x).
Proof.
  intros HL Hb Hu. pose proof HL as [L1 L2].
  assert (forall c, 0 <= c < sb_size sb -> BBLOCK c sb <> b) as Hne.
  { intros c Hc E. destruct (L2 c Hc) as [_ H]. congruence. }
  assert (forall c, 0 <= c < sb_size sb -> taken b v (BBLOCK c sb) =
    if BBLOCK c sb =? BBLOCK b sb then mark_bit (b mod BPB) (v (BBLOCK b sb)) else v (BBLOCK c sb)) as E.
  { intros c Hc. unfold taken, upd_view. rewrite (proj2 (Z.eqb_neq (BBLOCK c sb) b)) by by apply Hne. done. }
  assert (forall c, 0 <= c < sb_size sb -> in_use sb (taken b v) c = in_use sb v c || (c =? b)) as Huse.
  { intros c Hc. unfold in_use. rewrite E by done. destruct (Z.eqb_spec (BBLOCK c sb) (BBLOCK b sb)) as [Eb|Nb].
    - rewrite mark_bit_spec, same_bit, Eb; [done..|by apply bit_range|by apply Z.mod_pos_bound].
    - rewrite (proj2 (Z.eqb_neq c b)) by congruence. by rewrite orb_false_r. }
  split; [unfold taken, upd_view; by rewrite Z.eqb_refl|]. split; [|split; [done|]].
  - split; intros c Hc.
    + rewrite E by done. destruct (_ =? _); [|by apply L1]. unfold mark_bit. rewrite length_insert. by apply L1.
    + destruct (L2 c Hc) as [R U]. split; [done|]. by rewrite Huse, U by done.
  - intros x H1 H2. unfold taken, upd_view. by rewrite (proj2 (Z.eqb_neq x b)), (proj2 (Z.eqb_neq x _)).
Qed.
End Balloc.

Section Allocator.
Context `{W : WaitBound} `{D : DiskDriver} `{Dok : !DiskOk}.

Lemma balloc_txn me dev v s :
  let sb := k_sb s in
  txn me dev v [] s -> lg_n (k_log s) + 1 < Z.of_nat LOGBLOCKS ->
  (exists b s', balloc dev s = Ret b s' /\ 0 <= b < sb_size sb /\ in_use sb v b = false /\
     (forall c, 0 <= c < b -> in_use sb v c = true) /\
     txn me dev (taken sb b v) [] s' /\ lg_n (k_log s') <= lg_n (k_log s) + 2 /\ outer s' = outer s) \/
  ((forall c, 0 <= c < sb_size sb -> in_use sb v c = true) /\
   exists s', balloc dev s = Ret 0 s' /\ txn me dev v [] s' /\
     k_log s' = k_log s /\ k_sb s' = k_sb s /\ k_itable s' = k_itable s).
Proof using Dok.
  intros sb Ht Hroom. unfold balloc. kstep eq_refl. fold sb.
  destruct (balloc_loop sb v s (Z.to_nat ((sb_size sb + BPB - 1) / BPB)) 0 Ht Hroom)
    as [(b & s' & E & Hb & Hf & Hlow & T & L & O)|(s' & E & Hall & T & L & O)].
  - intros b Hb. lia.
  - left. exists b, s'. rewrite (bind_Ret _ _ _ _ _ E). done.
  - right. split.
    + intros c Hc. apply Hall. split; [lia|]. apply Z.min_glb_lt; [lia|].
      pose proof (Z.div_mod (sb_size sb + BPB - 1) BPB). pose proof (Z.mod_pos_bound (sb_size sb + BPB - 1) BPB eq_refl).
      rewrite Nat.add_0_l, Z2Nat.id by (apply Z.div_pos; [change BPB with 8192; lia|done]). change BPB with 8192 in *. lia.
    + destruct (printf_txn v [] s' "balloc: out of blocks\n" [] T) as (s2 & E2 & T2 & S2 & I2 & L2 & _).
      exists s2. rewrite (bind_Ret _ _ _ _ _ E). kstep E2. split; [done|]. split; [done|].
      destruct (outer_parts _ _ O) as (_ & Esb & Eit & _). rewrite S2, I2, Esb, Eit, L2. done.
Qed.

(** C34. [balloc] hands out the lowest block of the file system that is not in
    use: afterwards the block is in use and full of zeros, every other block
    is in use or free as before, and no block but it and its bitmap block has
    changed.  When every block is in use it returns 0 and changes none. *)
Theorem balloc_correct me dev v s
  (Ht : txn me dev v [] s) (Hly : fs_layout (k_sb s) v)
  (Hroom : lg_n (k_log s) + 1 < Z.of_nat LOGBLOCKS) :
  let sb := k_sb s in
  (exists b s' v', balloc dev s = Ret b s' /\ txn me dev v' [] s' /\ outer s' = outer s /\
     0 <= b < sb_size sb /\ in_use sb v b = false /\
     (forall c, 0 <= c < b -> in_use sb v c = true) /\
     v' b = zero_block /\ fs_layout sb v' /\
     (forall c, 0 <= c < sb_size sb -> in_use sb v' c = in_use sb v c || (c =? b)) /\
     (forall x, x <> b -> x <> BBLOCK b sb -> v' x = v x)) \/
  ((forall c, 0 <= c < sb_size sb -> in_use sb v c = true) /\
   exists s', balloc dev s = Ret 0 s' /\ txn me dev v [] s').
Proof using Dok.
  intros sb. destruct (balloc_txn me dev v s Ht Hroom) as [(b & s' & E & Hb & Hf & Hlow & T & _ & O)|(Hall & s' & E & T & _)].
  - left. destruct (taken_spec sb b v Hly Hb Hf) as (R1 & R2 & R3 & R4). by exists b, s', (taken sb b v).
  - right. split; [done|]. by exists s'.
Qed.

(** [bfree] gives a block back: it is free afterwards, every other block
    is in use or free as before, and no block but its bitmap block has changed;
    so a block that [balloc] handed out goes back to where it was.  A block that
    is free already is not freed again: the kernel stops. *)
Theorem bfree_correct me dev v s b
  (Ht : txn me dev v [] s) (Hly : fs_layout (k_sb s) v) (Hb : 0 <= b < sb_size (k_sb s))
  (Hroom : lg_n (k_log s) < Z.of_nat LOGBLOCKS) :
  let sb := k_sb s in
  if in_use sb v b then
    exists s' v', bfree dev b s = Ret tt s' /\ txn me dev v' [] s' /\ outer s' = outer s /\
      (forall c, 0 <= c < sb_size sb -> in_use sb v' c = in_use sb v c && negb (c =? b)) /\
      (forall x, x <> BBLOCK b sb -> v' x = v x)
  else exists s', bfree dev b s = Panic "freeing free block" s'.
Proof using Dok.
  intros sb.
  destruct (bread_txn v [] s (BBLOCK b sb) Ht) as (k & s1 & E1 & T1 & K1 & X1 & C1 & _ & L1 & O1);
    [set_solver|cbn; change NBUF with LOGBLOCKS; lia|].
  unfold bfree. kstep eq_refl. fold sb. kstep E1. kstep eq_refl. rewrite X1. fold (in_use sb v b).
  destruct (in_use sb v b) eqn:Hu; cbn [negb]; [|by eexists].
  destruct (write_txn v k [] s1 (fun x => set_b_data (clear_bit (b mod BPB) (b_data x)) x)
    (clear_bit (b mod BPB) (v (BBLOCK b sb))) T1)
    as (s2 & s3 & E2 & E3 & T3 & K3 & Hin & Hle & _ & O3); [by rewrite X1|rewrite L1; lia|].
  destruct (brelse_txn _ k [] s3 T3) as (s4 & E4 & T4 & _ & L4 & O4); [left; by rewrite K3|].
  rewrite K1 in T4. exists s4, (upd_view (BBLOCK b sb) (clear_bit (b mod BPB) (v (BBLOCK b sb))) v).
  kstep E2. kstep E3. split; [done|]. split; [done|]. split; [by rewrite O4, O3|].
  unfold upd_view. split; [|intros x Hx; by rewrite (proj2 (Z.eqb_neq x _))].
  intros c Hc. unfold in_use. destruct (Z.eqb_spec (BBLOCK c sb) (BBLOCK b sb)) as [Eb|Nb].
  - rewrite clear_bit_spec, (same_bit sb), Eb; [done..|by apply bit_range|by apply Z.mod_pos_bound].
  - rewrite (proj2 (Z.eqb_neq c b)) by congruence. by rewrite andb_true_r.
Qed.
End Allocator.

(** * Inodes on disk *)

Record dinode_ok (d : dinode) : Prop := {
  dk_type : - 2 ^ 15 <= d_type d < 2 ^ 15;
  dk_major : - 2 ^ 15 <= d_major d < 2 ^ 15;
  dk_minor : - 2 ^ 15 <= d_minor d < 2 ^ 15;
  dk_nlink : - 2 ^ 15 <= d_nlink d < 2 ^ 15;
  dk_size : 0 <= d_size d < 2 ^ 32;
  dk_len : length (d_addrs d) = 13%nat;
  dk_addrs : Forall (fun a => 0 <= a < 2 ^ 32) (d_addrs d) }.

Definition dinode_bytes (d : dinode) : list Z :=
  le_bytes 2 (d_type d) ++ le_bytes 2 (d_major d) ++ le_bytes 2 (d_minor d) ++
  le_bytes 2 (d_nlink d) ++ le_bytes 4 (d_size d) ++ (d_addrs d ≫= le_bytes 4).

Lemma words_length l : length (l ≫= le_bytes 4) = (4 * length l)%nat.
Proof. induction l as [|x l IH]; [done|]. cbn [mbind list_bind]. rewrite length_app, IH, length_le_bytes. cbn. lia. Qed.

(** Word [j] of an array of words. *)
Lemma words_at l j : (j < length l)%nat -> sub_bytes (4 * j) 4 (l ≫= le_bytes 4) = le_bytes 4 (l !!! j).
Proof.
  revert j. induction l as [|x l IH]; intros [|j] Hj; cbn [length] in Hj; [lia..| |].
  - by rewrite <- (length_le_bytes 4 x) at 1.
  - change ((x :: l) !!! S j) with (l !!! j). rewrite <- (IH j) by lia.
    replace (4 * S j)%nat with (length (le_bytes 4 x) + 4 * j)%nat by (rewrite length_le_bytes; lia).
    unfold sub_bytes. cbn [mbind list_bind]. by rewrite <- drop_drop, drop_app_length.
Qed.

Section Dinode.
Context (k : nat) (d : dinode) (data : list Z) (Hd : dinode_ok d).
Context (Hk : (64 * k + 64 <= length data)%nat).

Lemma dinode_bytes_length : length (dinode_bytes d) = 64%nat.
Proof using Hd. unfold dinode_bytes. rewrite !length_app, !length_le_bytes, words_length, (dk_len _ Hd). done. Qed.

Lemma dinode_field off n :
  (off + n <= 64)%nat -> get_le n (64 * k + off) (put_dinode k d data) = le_val (sub_bytes off n (dinode_bytes d)).
Proof using Hd Hk.
  intros H. unfold get_le, put_dinode. fold (dinode_bytes d).
  rewrite sub_put_inside by (rewrite dinode_bytes_length; lia). done.
Qed.

Lemma dinode_short off (x : Z) :
  - 2 ^ 15 <= x < 2 ^ 15 -> (off + 2 <= 64)%nat -> sub_bytes off 2 (dinode_bytes d) = le_bytes 2 x ->
  s16 (get_le 2 (64 * k + off) (put_dinode k d data)) = x.
Proof using Hd Hk.
  intros Hx Ho E. rewrite dinode_field, E, le_val_le_bytes by done. change (8 * Z.of_nat 2) with 16.
  rewrite s16_mod. by apply s16_id.
Qed.

Lemma dinode_roundtrip : dinode_at k (put_dinode k d data) = d.
Proof using Hd Hk.
  pose proof Hd as [H1 H2 H3 H4 H5 H6 H7]. unfold dinode_at.
  rewrite <- (Nat.add_0_r (64 * k)) at 1.
  rewrite (dinode_short 0 (d_type d)), (dinode_short 2 (d_major d)), (dinode_short 4 (d_minor d)),
    (dinode_short 6 (d_nlink d)) by (done || lia).
  rewrite dinode_field by lia.
  replace (sub_bytes 8 4 (dinode_bytes d)) with (le_bytes 4 (d_size d)) by done.
  rewrite le_val_le_bytes, Z.mod_small by done.
  transitivity (Dinode (d_type d) (d_major d) (d_minor d) (d_nlink d) (d_size d) (d_addrs d)); [f_equal|by destruct d].
  apply list_eq_same_length with 13%nat; [done|by rewrite length_fmap, length_seq|].
  intros j x y Hj Hx Hy. rewrite list_lookup_fmap, lookup_seq_lt in Hx by done. injection Hx as <-.
  rewrite <- Nat.add_assoc, dinode_field by lia.
  change (le_val (sub_bytes (4 * j) 4 (d_addrs d ≫= le_bytes 4)) = y).
  rewrite words_at, le_val_le_bytes, (list_lookup_total_correct _ _ _ Hy) by lia.
  apply Z.mod_small. rewrite Forall_lookup in H7. by apply (H7 j).
Qed.

Lemma dinode_other j : j <> k -> dinode_at j (put_dinode k d data) = dinode_at j data.
Proof using Hd Hk.
  intros Hj. assert (forall off n, (off + n <= 64)%nat ->
    get_le n (64 * j + off) (put_dinode k d data) = get_le n (64 * j + off) data) as E.
  { intros off n Hn. unfold get_le, put_dinode. fold (dinode_bytes d). f_equal.
    destruct (decide (j < k)%nat); [apply sub_put_below; lia|].
    apply sub_put_above; rewrite dinode_bytes_length; lia. }
  pose proof (E 0%nat 2%nat ltac:(lia)) as E0. rewrite Nat.add_0_r in E0.
  unfold dinode_at. rewrite E0, !E by lia. f_equal.
  apply list_fmap_ext. intros n i Hi. apply lookup_seq in Hi. rewrite <- Nat.add_assoc. apply E. lia.
Qed.
End Dinode.

(** The on-disk fields of an inode, and the inode that has them. *)
Definition disk_fields (ip : inode) : dinode :=
  Dinode (i_type ip) (i_major ip) (i_minor ip) (i_nlink ip) (i_size ip) (i_addrs ip).
Definition set_fields (d : dinode) (ip : inode) : inode :=
  Inode (i_dev ip) (i_inum ip) (i_ref ip) 1 (d_type d) (d_major d) (d_minor d) (d_nlink d) (d_size d) (d_addrs d).
Definition inode_of (d : dinode) : inode := set_fields d (Inode 0 0 0 0 0 0 0 0 0 []).
Definition inode_slot (inum : Z) : nat := Z.to_nat (inum mod IPB).

(** Entry [i] of the inode table refers to an inode of device [dev] that was
    not read yet, and nobody has locked it. *)
Record unread (dev : Z) (s : kstate) (i : nat) : Prop := {
  ur_lt : (i < length (k_itable s))%nat;
  ur_dev : i_dev (k_itable s !!! i) = dev;
  ur_ref : 1 <= i_ref (k_itable s !!! i);
  ur_valid : i_valid (k_itable s !!! i) = 0;
  ur_lock : lock_free (SleepLk (SlInode i)) (khw s);
  ur_free : sl_locked (ps_sleep (k_ps s) !!! SlInode i) = 0 }.

(** Some buffer is not pinned. *)
Definition room (pins : Z -> Z) : Prop :=
  exists P : list Z, (forall b, 0 < pins b -> b ∈ P) /\ (length P < NBUF)%nat.

Section Inodes.
Context `{W : WaitBound} `{D : DiskDriver} `{Dok : !DiskOk}.
Context {me : nat} {dev : Z}.
Implicit Types (v : Z -> list Z) (s : kstate).

Lemma iupdate_txn v s i :
  let ip := k_itable s !!! i in
  let bno := IBLOCK (i_inum ip) (k_sb s) in
  txn me dev v [] s -> i_dev ip = dev -> lg_n (k_log s) < Z.of_nat LOGBLOCKS ->
  exists s', iupdate i s = Ret tt s' /\
    txn me dev (upd_view bno (put_dinode (inode_slot (i_inum ip)) (disk_fields ip) (v bno)) v) [] s' /\
    lg_n (k_log s') <= lg_n (k_log s) + 1 /\ outer s' = outer s.
Proof using Dok.
  intros ip bno Ht Hdev Hn.
  destruct (bread_txn v [] s bno Ht) as (b & s1 & E1 & T1 & K1 & X1 & _ & _ & L1 & O1);
    [set_solver|cbn; change NBUF with LOGBLOCKS; lia|].
  destruct (outer_parts _ _ O1) as (_ & _ & Ei & _).
  set (f := fun x => set_b_data (put_dinode (inode_slot (i_inum ip)) (disk_fields ip) (b_data x)) x).
  destruct (write_txn v b [] s1 f (put_dinode (inode_slot (i_inum ip)) (disk_fields ip) (v bno)) T1)
    as (s2 & s3 & E2 & E3 & T3 & K3 & Hin & Hle & _ & O3); [unfold f; by rewrite X1|by rewrite L1|].
  destruct (brelse_txn _ b [] s3 T3) as (s4 & E4 & T4 & _ & L4 & O4); [left; by rewrite K3|].
  rewrite K1 in T4. rewrite L1 in Hle. exists s4. unfold iupdate. kstep eq_refl. kstep eq_refl. fold ip bno.
  rewrite Hdev. kstep E1. kstep eq_refl. rewrite Ei. fold ip. kstep E2. kstep E3. split; [done|]. split; [done|].
  rewrite L4, O4, O3. split; [lia|done].
Qed.

Lemma cache_itable pins held l s it : cache me dev pins held l s -> cache me dev pins held l (with_k_itable it s).
Proof. intros [C1 C2 C3 C4 C5 C6 C7 C8 C10 C11]. split; try done. intros b Hb. by destruct (C11 b Hb). Qed.

(** The sleep lock of an inode is no buffer's. *)
Lemma cache_inode_lock pins held l s i x :
  cache me dev pins held l s -> cache me dev pins held l (with_k_ps (set_sleep (SlInode i) x (k_ps s)) s).
Proof.
  intros [C1 C2 C3 C4 C5 C6 C7 C8 C10 C11]. split; try done; [by apply calm_with_sleep|].
  intros b Hb. destruct (C11 b Hb) as [B1 B2 B3 B4]. unfold slock in *.
  split; try done; unfold slock; cbn; by rewrite lookup_total_insert_ne.
Qed.

(** Reading an inode that is not in memory yet. *)
Lemma ilock_reads pins l s i :
  let ip := k_itable s !!! i in
  let d := dinode_at (inode_slot (i_inum ip)) (view dev s (IBLOCK (i_inum ip) (k_sb s))) in
  cache me dev pins [] l s -> room pins -> unread dev s i ->
  exists l' s', ilock (Some i) s = (if d_type d =? 0 then Panic "ilock: no type" s' else Ret tt s') /\
    k_itable s' = <[i := set_fields d ip]> (k_itable s) /\
    cache me dev pins [] l' s' /\ (forall x, view dev s' x = view dev s x) /\ k_log s' = k_log s.
Proof using Dok.
  intros ip d Hc (P & HP & Hroom) [Hi Hdev Href Hv Hf Hl]. fold ip in Hdev, Href, Hv.
  set (s0 := with_k_ps (set_sleep (SlInode i) (Sleeplock 1 (sl_name (ps_sleep (k_ps s) !!! SlInode i))
    (p_pid (ps_proc (k_ps s) !!! me))) (k_ps s)) s).
  assert (lift (acquiresleep (SlInode i)) s = Ret tt s0) as E0
    by exact (lift_Ret _ s _ _ (acquiresleep_free me (SlInode i) (k_ps s) (ca_calm _ _ _ _ _ _ Hc) Hf Hl)).
  assert (cache me dev pins [] l s0) as C0 by by apply cache_inode_lock.
  set (bno := IBLOCK (i_inum ip) (k_sb s)) in *.
  destruct (bread_spec bno C0) as (b & s1 & E1 & C1 & K1 & X1 & V1 & _ & D1 & _ & R1); [set_solver| |].
  { apply (room_for me dev _ _ _ _ P bno C0 HP). right. cbn. lia. }
  change (view dev s0) with (view dev s) in *.
  set (it := fun ip => set_i_type (d_type d) (set_i_major (d_major d) (set_i_minor (d_minor d)
    (set_i_nlink (d_nlink d) (set_i_size (d_size d) (set_i_addrs (d_addrs d) ip)))))).
  set (s2 := with_k_itable (alter it i (k_itable s1)) s1).
  destruct (brelse_spec (s := s2) b [] (cache_itable _ _ _ _ _ C1))
    as (l' & s3 & E3 & C3 & V3 & _ & D3 & _ & R3); [done| |].
  { change (k_bufs s2) with (k_bufs s1). change (disk_block s2) with (disk_block s1). rewrite K1, X1.
    unfold disk_block. rewrite D1. apply (clean_unheld me dev pins [] l s0 bno C0).
    intros c Hc0. by apply not_elem_of_nil in Hc0. }
  assert (k_itable s1 = k_itable s) as Ei by exact (f_equal (fun x => x.1.1.1.1.1.1.2) R1).
  assert (k_itable s3 = alter it i (k_itable s)) as Ei3 by (rewrite <- Ei; exact (f_equal (fun x => x.1.1.1.1.1.1.2) R3)).
  assert (k_log s3 = k_log s) as El by (rewrite (rest_log _ _ R3); exact (rest_log _ _ R1)).
  exists l', (with_k_itable (alter (set_i_valid 1) i (k_itable s3)) s3). split.
  - unfold ilock. kstep eq_refl. fold ip. rewrite (proj2 (Z.ltb_ge _ _)) by lia. kstep E0.
    kstep eq_refl. change (k_itable s0 !!! i) with ip. rewrite Hv, Z.eqb_refl. kstep eq_refl.
    change (k_sb s0) with (k_sb s). fold bno. rewrite Hdev. kstep E1. kstep eq_refl. rewrite X1. fold d.
    change (Z.to_nat (i_inum ip mod IPB)) with (inode_slot (i_inum ip)). fold d.
    kstep (eq_refl : _ = Ret tt s2). kstep E3. kstep eq_refl. by destruct (_ =? 0).
  - split; [|split; [by apply cache_itable|split; [|done]]].
    + cbn [k_itable with_k_itable]. rewrite Ei3, Prelude.list_alter_alter, list_insert_alter.
      by apply list_alter_same.
    + intros x. change (view dev s3 x = view dev s x). rewrite V3. exact (V1 x).
Qed.
End Inodes.

Section Reload.
Context `{W : WaitBound} `{D : DiskDriver} `{Dok : !DiskOk}.

(** An inode survives the trip to the disk: [iupdate] writes its fields
    into its slot of the inode block, and leaves every other inode of the
    block and every other block alone; wherever that block is read back, in
    this or in a later boot, [ilock] of an entry for the same inode number
    gives exactly the fields that were written, and the kernel stops if the
    type says the inode is free. *)
Theorem inode_roundtrip me dev v s i
  (Ht : txn me dev v [] s) (Hdev : i_dev (k_itable s !!! i) = dev)
  (Hroom : lg_n (k_log s) < Z.of_nat LOGBLOCKS)
  (Hok : dinode_ok (disk_fields (k_itable s !!! i)))
  (Hlen : length (v (IBLOCK (i_inum (k_itable s !!! i)) (k_sb s))) = Z.to_nat BSIZE) :
  let ip := k_itable s !!! i in
  let bno := IBLOCK (i_inum ip) (k_sb s) in
  exists s' v', iupdate i s = Ret tt s' /\ txn me dev v' [] s' /\ outer s' = outer s /\
    (forall x, x <> bno -> v' x = v x) /\
    (forall j, j <> inode_slot (i_inum ip) -> dinode_at j (v' bno) = dinode_at j (v bno)) /\
    forall me' pins l r k, cache me' dev pins [] l r -> room pins -> unread dev r k ->
      k_sb r = k_sb s -> view dev r bno = v' bno -> i_inum (k_itable r !!! k) = i_inum ip ->
      exists r', ilock (Some k) r =
          (if i_type ip =? 0 then Panic "ilock: no type" r' else Ret tt r') /\
        disk_fields (k_itable r' !!! k) = disk_fields ip /\ i_valid (k_itable r' !!! k) = 1.
Proof using Dok.
  intros ip bno. destruct (iupdate_txn v s i Ht Hdev Hroom) as (s' & E & T & _ & O). fold ip bno in T.
  exists s', (upd_view bno (put_dinode (inode_slot (i_inum ip)) (disk_fields ip) (v bno)) v).
  assert (64 * inode_slot (i_inum ip) + 64 <= length (v bno))%nat as Hk.
  { unfold bno, ip. rewrite Hlen. unfold inode_slot. pose proof (Z.mod_pos_bound (i_inum (k_itable s !!! i)) IPB eq_refl).
    change IPB with 16 in *. change (Z.to_nat BSIZE) with 1024%nat. lia. }
  split; [done|]. split; [done|]. split; [done|]. unfold upd_view at 1 2 3. rewrite Z.eqb_refl.
  split; [intros x Hx; by rewrite (proj2 (Z.eqb_neq x bno))|].
  split; [intros j Hj; by apply dinode_other|].
  intros me' pins l r k Hc Hp Hu Esb Ev Ei.
  destruct (ilock_reads (me := me') pins l r k Hc Hp Hu) as (l' & r' & E' & Et & _).
  rewrite Ei, Esb in E', Et. fold bno in E', Et. rewrite Ev in E', Et.
  rewrite dinode_roundtrip in E', Et by done. exists r'. split; [done|].
  rewrite Et, list_lookup_total_insert_eq by apply Hu. done.
Qed.
End Reload.

(** * Examples: a file system of 100 blocks on disk [d], in a transaction *)

Definition demo_super : superblock := Superblock FSMAGIC 100 0 16 0 2 40 45.
(** Entry 3 is inode 5, a file of 30 bytes in block 60. *)
Definition demo_inode (valid : Z) : inode := Inode 1 5 1 valid T_FILE 0 0 1 30 (60 :: replicate 12 0).
Definition demo_fs (d : gmap Z (list Z)) (valid : Z) : kstate :=
  with_k_log (set_lg_outstanding 1 (demo_log 0))
    (with_k_sb demo_super
      (with_k_itable (<[3%nat := demo_inode valid]> (replicate NINODE inhabitant))
        (with_k_disk d (demo_k 0)))).

Lemma demo_txn d valid : txn 1 1 (dblock d) [] (demo_fs d valid).
Proof.
  destruct (demo_fresh d) as [[l Hc] _ _ Hv _]. split.
  - exists l. apply (cache_pins _ _ (fun _ => 0)); [intros x; reflexivity|].
    apply cache_log. destruct (cache_itable _ _ _ _ (<[3%nat := demo_inode valid]> (replicate NINODE inhabitant)) Hc) as [C1 C2 C3 C4 C5 C6 C7 C8 C10 C11].
    split; try done. intros b Hb. by destruct (C11 b Hb).
  - exact Hv.
  - split; try done. apply NoDup_nil_2.
  - by eapply demo_lock_free.
Qed.

(** Blocks 0 to 47 are in use. *)
Definition demo_bitmap : list Z := replicate 6 255 ++ replicate (Z.to_nat BSIZE - 6) 0.
Definition demo_disk : gmap Z (list Z) := {[45 := demo_bitmap]}.

Lemma demo_fs_layout valid : fs_layout (k_sb (demo_fs demo_disk valid)) (dblock demo_disk).
Proof.
  assert (forall b, 0 <= b < 100 -> BBLOCK b demo_super = 45) as E.
  { intros b Hb. unfold BBLOCK. cbn. rewrite Z.div_small; [done|]. change BPB with 8192. lia. }
  split; intros b Hb; change (k_sb (demo_fs demo_disk valid)) with demo_super in *; rewrite E by done; [reflexivity|].
  split; [cbn; lia|reflexivity].
Qed.

Lemma balloc_correct_witness :
  exists s', @balloc 0%nat ram_disk 1 (demo_fs demo_disk 1) = Ret 48 s'.
Proof.
  destruct (@balloc_correct 0%nat ram_disk ram_disk_ok 1 1 _ _ (demo_txn demo_disk 1) (demo_fs_layout 1) eq_refl)
    as [(b & s' & v' & E & _ & _ & Hb & Hf & Hlow & _)|[H _]].
  - assert (b = 48) as ->; [|by exists s'].
    destruct (Z.lt_trichotomy b 48) as [H|[H|H]]; [|done|].
    + assert (forall c, (c < 48)%nat -> in_use demo_super (dblock demo_disk) (Z.of_nat c) = true) as Hc.
      { intros c Hc. do 48 (destruct c as [|c]; [reflexivity|]). lia. }
      rewrite <- (Z2Nat.id b) in Hf by lia. rewrite Hc in Hf by lia. discriminate Hf.
    + specialize (Hlow 48 ltac:(lia)). discriminate Hlow.
  - specialize (H 48 ltac:(done)). discriminate H.
Defined.

Lemma bfree_correct_witness :
  exists s' v', @bfree 0%nat ram_disk 1 47 (demo_fs demo_disk 1) = Ret tt s' /\
    txn 1 1 v' [] s' /\ in_use demo_super v' 47 = false.
Proof.
  destruct (@bfree_correct 0%nat ram_disk ram_disk_ok 1 1 _ _ 47 (demo_txn demo_disk 1) (demo_fs_layout 1)
    ltac:(done) eq_refl) as (s' & v' & E & T & _ & H & _).
  exists s', v'. split; [exact E|]. split; [exact T|]. 
  assert (0 <= 47 < 100) as R by lia. specialize (H 47 R).
  rewrite Z.eqb_refl, andb_false_r in H. exact H.
Defined.

(** The inode is written, and read back from a disk that has the block. *)
Lemma inode_roundtrip_witness :
  exists s' v' r', @iupdate 0%nat ram_disk 3 (demo_fs ∅ 1) = Ret tt s' /\
    @ilock 0%nat ram_disk (Some 3%nat) (demo_fs {[40 := v' 40]} 0) = Ret tt r' /\
    disk_fields (k_itable r' !!! 3%nat) = disk_fields (demo_inode 1).
Proof.
  destruct (@inode_roundtrip 0%nat ram_disk ram_disk_ok 1 1 _ _ 3 (demo_txn ∅ 1))
    as (s' & v' & E & _ & _ & _ & _ & H); [done|done| |done|].
  { change (k_itable (demo_fs ∅ 1) !!! 3%nat) with (demo_inode 1).
    split; [by vm_compute..|reflexivity|]. repeat constructor; done. }
  destruct (tx_cache _ _ _ _ _ (demo_txn {[40 := v' 40]} 0)) as [l Hc].
  destruct (H 1%nat _ l (demo_fs {[40 := v' 40]} 0) 3%nat Hc) as (r' & E' & F & _).
  - exists []. split; [|change NBUF with 30%nat; cbn; lia]. intros b Hb. by apply txn_pins_home in Hb.
  - change (k_itable (demo_fs {[40 := v' 40]} 0))
      with (<[3%nat := demo_inode 0]> (replicate NINODE (inhabitant : inode))).
    split; [vm_compute; lia|reflexivity|by vm_compute|reflexivity|by eapply demo_lock_free|reflexivity].
  - done.
  - rewrite (tx_view _ _ _ _ _ (demo_txn {[40 := v' 40]} 0)). cbn. unfold dblock. by rewrite lookup_singleton_eq.
  - done.
  - exists s', v', r'. split; [exact E|]. split; [exact E'|exact F].
Defined.
