(* ===== verification/Fileio.v ===== *)
(** The content of a file: [bmap], [readi] and [writei] of kernel/fs.c over the
    blocks a file has, and over a direct block it gets. *)
From S2P Require Import Prelude Riscv Spinlock Memory Bytes Kstring Kalloc Vm Proc Switch Sleeplock UserMem Kstate Bio Cache Log Crash Fs Txn.

(** * The blocks and the bytes of a file *)

(** The block number of block [bn] of the file, 0 if it has none. *)
Definition file_block (v : Z -> list Z) (ip : inode) (bn : Z) : Z :=
  if bn <? NDIRECT then i_addrs ip !!! Z.to_nat bn else
  let ind := i_addrs ip !!! Z.to_nat NDIRECT in
  if ind =? 0 then 0 else word_at (Z.to_nat (bn - NDIRECT)) (v ind).
Definition file_byte (v : Z -> list Z) (ip : inode) (k : Z) : Z :=
  v (file_block v ip (k / BSIZE)) !!! Z.to_nat (k mod BSIZE).
Definition file_bytes (v : Z -> list Z) (ip : inode) (off n : Z) : list Z :=
  (fun k => file_byte v ip (off + Z.of_nat k)) <$> seq 0 (Z.to_nat n).

(** The first [n] blocks of the file are there, each a block of its own. *)
Record mapped (v : Z -> list Z) (ip : inode) (n : Z) : Prop := {
  mp_max : n <= MAXFILE;
  mp_there : forall bn, 0 <= bn < n -> file_block v ip bn <> 0;
  mp_len : forall bn, 0 <= bn < n -> length (v (file_block v ip bn)) = Z.to_nat BSIZE;
  mp_inj : forall a b, 0 <= a < n -> 0 <= b < n -> file_block v ip a = file_block v ip b -> a = b;
  mp_data : forall bn, 0 <= bn < n -> file_block v ip bn <> i_addrs ip !!! Z.to_nat NDIRECT }.

Lemma file_bytes_length v ip off n : length (file_bytes v ip off n) = Z.to_nat n.
Proof. unfold file_bytes. by rewrite length_fmap, length_seq. Qed.

Lemma file_bytes_app v ip off n m :
  0 <= n -> 0 <= m -> file_bytes v ip off (n + m) = file_bytes v ip off n ++ file_bytes v ip (off + n) m.
Proof.
  intros Hn Hm. unfold file_bytes. rewrite Z2Nat.inj_add, seq_app, fmap_app by done. f_equal.
  replace (0 + Z.to_nat n)%nat with (Z.to_nat n + 0)%nat by lia.
  rewrite <- fmap_add_seq, <- list_fmap_compose. apply list_fmap_ext. intros i k _. cbn. f_equal. lia.
Qed.

(** A position inside block [o / BSIZE]. *)
Lemma same_block o k : 0 <= k < BSIZE - o mod BSIZE -> (o + k) / BSIZE = o / BSIZE /\ (o + k) mod BSIZE = o mod BSIZE + k.
Proof.
  intros Hk. pose proof (Z.mod_pos_bound o BSIZE eq_refl) as Hm. pose proof (Z.div_mod o BSIZE) as Ho.
  change BSIZE with 1024 in *.
  assert ((o + k) / 1024 = o / 1024) as E by (symmetry; apply Z.div_unique with (o mod 1024 + k); lia).
  split; [done|]. rewrite Z.mod_eq, E by lia. lia.
Qed.

Lemma sub_bytes_alt a m (l : list Z) :
  (a + m <= length l)%nat -> sub_bytes a m l = (fun k => l !!! (a + k)%nat) <$> seq 0 m.
Proof.
  intros H. unfold sub_bytes. apply list_eq. intros i. rewrite list_lookup_fmap.
  destruct (decide (i < m)%nat).
  - rewrite lookup_take_lt, lookup_drop, lookup_seq_lt by lia. cbn. apply list_lookup_lookup_total_lt. lia.
  - rewrite lookup_take_ge, lookup_seq_ge by lia. done.
Qed.

(** The part of a block that the loops move. *)
Lemma chunk_bytes v ip o m :
  length (v (file_block v ip (o / BSIZE))) = Z.to_nat BSIZE -> 0 <= m <= BSIZE - o mod BSIZE ->
  sub_bytes (Z.to_nat (o mod BSIZE)) (Z.to_nat m) (v (file_block v ip (o / BSIZE))) = file_bytes v ip o m.
Proof.
  intros Hl Hm. pose proof (Z.mod_pos_bound o BSIZE eq_refl) as Hb. rewrite sub_bytes_alt by lia.
  apply list_fmap_ext. intros i k Hk. apply lookup_seq in Hk. unfold file_byte.
  destruct (same_block o (Z.of_nat k)) as [-> ->]; [lia|]. f_equal. lia.
Qed.

Section Io.
Context `{W : WaitBound} `{D : DiskDriver} `{Dok : !DiskOk}.
Context {me : nat} {dev : Z}.
Implicit Types (v : Z -> list Z) (s : kstate).

(** Nothing but buffers moved. *)
Definition unmoved (s s' : kstate) : Prop := k_log s' = k_log s /\ outer s' = outer s.

Lemma unmoved_trans s1 s2 s3 : unmoved s1 s2 -> unmoved s2 s3 -> unmoved s1 s3.
Proof. unfold unmoved. intros [-> ->] [-> ->]. done. Qed.

Lemma unmoved_itable s s' : unmoved s s' -> k_itable s' = k_itable s.
Proof. intros [_ H]. apply (outer_parts _ _ H). Qed.

Lemma unmoved_clean v s s' bno :
  unmoved s s' -> bno ∈ home (k_log s) \/ v bno = disk_block s bno -> bno ∈ home (k_log s') \/ v bno = disk_block s' bno.
Proof.
  intros [-> H] Hc. destruct (outer_parts _ _ H) as (_ & _ & _ & Ed). unfold disk_block in *. by rewrite Ed.
Qed.

(** Reading a block and giving it back. *)
Lemma peek_txn v s bno :
  txn me dev v [] s -> lg_n (k_log s) < Z.of_nat NBUF ->
  exists b s1 s2, bread dev bno s = Ret b s1 /\ b_data (k_bufs s1 !!! b) = v bno /\ brelse b s1 = Ret tt s2 /\
    txn me dev v [b] s1 /\ txn me dev v [] s2 /\ unmoved s s1 /\ unmoved s s2.
Proof using Dok.
  intros Ht Hn.
  destruct (bread_txn v [] s bno Ht) as (b & s1 & E1 & T1 & K1 & X1 & C1 & _ & L1 & O1); [set_solver|cbn; lia|].
  assert (unmoved s s1) as Q1 by done.
  destruct (brelse_txn v b [] s1 T1) as (s2 & E2 & T2 & _ & L2 & O2); [rewrite K1; by apply (unmoved_clean v s)|].
  exists b, s1, s2. do 5 (split; [done|]). split; [done|]. by apply (unmoved_trans _ s1).
Qed.

Lemma bmap_txn v s i bn :
  let ip := k_itable s !!! i in
  txn me dev v [] s -> lg_n (k_log s) < Z.of_nat NBUF -> i_dev ip = dev ->
  0 <= bn < MAXFILE -> file_block v ip bn <> 0 ->
  exists s', bmap i bn s = Ret (file_block v ip bn) s' /\ txn me dev v [] s' /\ unmoved s s'.
Proof using Dok.
  intros ip Ht Hn Hdev Hbn. unfold file_block, bmap. destruct (bn <? NDIRECT) eqn:Ed.
  - intros Ha. exists s. unfold inode_block. kstep eq_refl. fold ip. rewrite (proj2 (Z.eqb_neq _ 0)) by done. done.
  - set (ind := i_addrs ip !!! Z.to_nat NDIRECT). destruct (Z.eqb_spec ind 0) as [|Hi]; [done|]. intros Ha.
    destruct (peek_txn v s ind Ht Hn) as (b & s1 & s2 & E1 & X1 & E2 & T1 & T2 & Q1 & Q2).
    exists s2. split; [|done]. rewrite (proj2 (Z.ltb_lt _ NINDIRECT)).
    2: { change MAXFILE with (NDIRECT + NINDIRECT) in Hbn. lia. }
    assert (inode_block i (Z.to_nat NDIRECT) s = Ret ind s) as E0.
    { unfold inode_block. kstep eq_refl. fold ip ind. by rewrite (proj2 (Z.eqb_neq _ 0)). }
    kstep E0. rewrite (proj2 (Z.eqb_neq ind 0)) by done. kstep eq_refl. fold ip. rewrite Hdev. kstep E1.
    kstep eq_refl. rewrite X1. rewrite (proj2 (Z.eqb_neq _ 0)) by done. cbn [negb]. kstep eq_refl. by kstep E2.
Qed.

(** A copy to or from a variable of the kernel. *)
Lemma calm_myproc s : calm me (k_ps s) -> myproc (k_ps s) = Ret (Some me) (k_ps s).
Proof. intros H. rewrite myproc_eq by apply H. rewrite (calm_touched me) by done. by rewrite (cm_proc _ _ H). Qed.

Lemma local_out bs s : calm me (k_ps s) -> lift (either_copyout DLocal bs) s = Ret 0 s.
Proof.
  intros H. assert (either_copyout DLocal bs (k_ps s) = Ret 0 (k_ps s)) as E
    by (unfold either_copyout; by kstep (calm_myproc s H)).
  rewrite (@lift_Ret kstate pstate Z kstate_pstate _ s _ _ E). by destruct s.
Qed.

Lemma local_in bs n s : calm me (k_ps s) -> lift (either_copyin (SLocal bs) n) s = Ret (0, take (Z.to_nat n) bs) s.
Proof.
  intros H. assert (either_copyin (SLocal bs) n (k_ps s) = Ret (0, take (Z.to_nat n) bs) (k_ps s)) as E
    by (unfold either_copyin; by kstep (calm_myproc s H)).
  rewrite (@lift_Ret kstate pstate (Z * list Z) kstate_pstate _ s _ _ E). by destruct s.
Qed.

Lemma txn_calm v held s : txn me dev v held s -> calm me (k_ps s).
Proof. intros [[l H] _ _ _]. apply H. Qed.

(** ** Reading *)

Section Read.
Context (i : nat) (v : Z -> list Z) (ip : inode) (off n nb : Z).
Context (Hdev : i_dev ip = dev) (Hmap : mapped v ip nb) (Hoff : 0 <= off) (Hn : off + n <= nb * BSIZE).

Lemma read_block_txn s tot bs :
  txn me dev v [] s -> lg_n (k_log s) < Z.of_nat NBUF -> k_itable s !!! i = ip -> 0 <= tot < n ->
  let m := Z.min (n - tot) (BSIZE - (off + tot) mod BSIZE) in
  exists s', read_block i DLocal off n (tot, bs) s = Ret (inl (tot + m, bs ++ file_bytes v ip (off + tot) m)) s' /\
    txn me dev v [] s' /\ unmoved s s'.
Proof using Dok Hdev Hmap Hoff Hn.
  intros Ht Hlg Hip Htot m. set (o := off + tot).
  assert (0 <= o / BSIZE < nb) as Hbn.
  { split; [apply Z.div_pos; [lia|done]|]. apply Z.div_lt_upper_bound; [done|]. lia. }
  pose proof (mp_max _ _ _ Hmap) as Hmax. pose proof (Z.mod_pos_bound o BSIZE eq_refl) as Hmod.
  destruct (bmap_txn v s i (o / BSIZE) Ht Hlg) as (s1 & E1 & T1 & Q1); rewrite ?Hip;
    [done|lia|by apply (mp_there _ _ _ Hmap)|]. rewrite Hip in E1.
  destruct (peek_txn v s1 (file_block v ip (o / BSIZE)) T1) as (b & s2 & s3 & E2 & X2 & E3 & T2 & T3 & Q2 & Q3).
  { destruct Q1 as [-> _]. done. }
  exists s3. split; [|split; [done|by apply (unmoved_trans _ s1)]].
  unfold read_block. rewrite (proj2 (Z.ltb_lt tot n)) by lia. cbn [negb]. fold o. kstep E1.
  rewrite (proj2 (Z.eqb_neq _ 0)) by by apply (mp_there _ _ _ Hmap). kstep eq_refl.
  rewrite (unmoved_itable _ _ Q1), Hip, Hdev. kstep E2. kstep eq_refl. rewrite X2. cbn [dest_at].
  kstep (local_out _ s2 (txn_calm _ _ _ T2)). kstep E3. cbn. unfold m. fold o.
  rewrite chunk_bytes; [done|by apply (mp_len _ _ _ Hmap)|lia].
Qed.

(** One iteration per block that is touched, and one to stop. *)
Definition rounds (tot : Z) : Z := if tot <? n then (off + n - 1) / BSIZE - (off + tot) / BSIZE + 2 else 1.

Lemma rounds_next tot :
  0 <= tot < n -> let m := Z.min (n - tot) (BSIZE - (off + tot) mod BSIZE) in
  tot < tot + m <= n /\ 1 <= rounds (tot + m) <= rounds tot - 1.
Proof using Hoff.
  intros Ht m. unfold rounds, m. change BSIZE with 1024. zbool; Z.to_euclidean_division_equations; lia.
Qed.

Lemma rounds_start : 0 <= n -> rounds 0 <= n / BSIZE + 3.
Proof using Hoff.
  intros Hp. unfold rounds. change BSIZE with 1024. zbool; Z.to_euclidean_division_equations; lia.
Qed.

Lemma read_loop fuel tot s :
  txn me dev v [] s -> lg_n (k_log s) < Z.of_nat NBUF -> k_itable s !!! i = ip -> 0 <= tot <= n ->
  rounds tot <= Z.of_nat fuel -> n < 2 ^ 31 ->
  exists s', loop fuel (read_block i DLocal off n) (tot, file_bytes v ip off tot) s =
      Ret (n, file_bytes v ip off n) s' /\
    txn me dev v [] s' /\ unmoved s s'.
Proof using Dok Hdev Hmap Hoff Hn.
  revert tot s. induction fuel as [|fuel IH]; intros tot s Ht Hlg Hip Htot Hf Hmax.
  { exfalso. revert Hf. unfold rounds. change BSIZE with 1024. zbool; Z.to_euclidean_division_equations; lia. }
  destruct (Z.eq_dec tot n) as [->|Hne].
  - exists s. split; [|done]. apply loop_exit. unfold read_block. rewrite Z.ltb_irrefl. cbn [negb].
    rewrite <- (Z.mod_small n (2 ^ 32)) at 1 by lia. by rewrite s32_small by lia.
  - destruct (read_block_txn s tot (file_bytes v ip off tot) Ht Hlg Hip) as (s1 & E1 & T1 & Q1); [lia|].
    pose proof (rounds_next tot ltac:(lia)) as [Hm Hr]. set (m := Z.min _ _) in *.
    rewrite <- file_bytes_app in E1 by lia. rewrite (loop_next _ _ _ _ _ _ E1).
    destruct (IH (tot + m) s1 T1) as (s' & E' & T' & Q'); [by destruct Q1 as [-> _]|by rewrite (unmoved_itable _ _ Q1)|lia|lia|done|].
    exists s'. split; [done|]. split; [done|]. by apply (unmoved_trans _ s1).
Qed.
End Read.

Lemma readi_txn v s i off n nb :
  let ip := k_itable s !!! i in
  let k := if (i_size ip <? off) || (2 ^ 32 <=? off + n) then 0 else Z.min n (i_size ip - off) in
  txn me dev v [] s -> lg_n (k_log s) < Z.of_nat NBUF -> i_dev ip = dev -> mapped v ip nb ->
  i_size ip <= nb * BSIZE -> 0 <= off < 2 ^ 32 -> 0 <= n < 2 ^ 32 ->
  exists s', readi i DLocal off n s = Ret (k, file_bytes v ip off k) s' /\ txn me dev v [] s' /\ unmoved s s'.
Proof using Dok.
  intros ip k Ht Hlg Hdev Hmap Hsz Hoff Hn. pose proof (mp_max _ _ _ Hmap) as Hmax.
  assert (nb * BSIZE <= MAXFILE * BSIZE) as Hnb by (apply Z.mul_le_mono_nonneg_r; done).
  change (MAXFILE * BSIZE) with 274432 in Hnb.
  unfold readi. kstep eq_refl. fold ip. unfold k.
  assert (u32 (off + n) = if 2 ^ 32 <=? off + n then off + n - 2 ^ 32 else off + n) as ->.
  { unfold u32. destruct (Z.leb_spec (2 ^ 32) (off + n)); [|by apply Z.mod_small; lia].
    symmetry. apply Z.mod_unique with 1; lia. }
  destruct (Z.ltb_spec (i_size ip) off); [by exists s|]. cbn [orb].
  destruct (Z.leb_spec (2 ^ 32) (off + n)) as [Hov|Hov].
  { rewrite (proj2 (Z.ltb_lt _ _)) by lia. by exists s. }
  rewrite (proj2 (Z.ltb_ge (off + n) off)) by lia.
  assert ((if i_size ip <? off + n then i_size ip - off else n) = Z.min n (i_size ip - off)) as ->
    by (destruct (Z.ltb_spec (i_size ip) (off + n)); lia).
  set (n' := Z.min n (i_size ip - off)). assert (0 <= n') as Hn' by lia.
  assert (0 <= n' / BSIZE) by (apply Z.div_pos; [lia|done]).
  assert (rounds off n' 0 <= Z.of_nat (Z.to_nat (n' / BSIZE + 3))) as Hf
    by (rewrite Z2Nat.id by lia; apply rounds_start; lia).
  exact (read_loop i v ip off n' nb Hdev Hmap ltac:(lia) ltac:(lia) _ 0 s Ht Hlg eq_refl ltac:(lia) Hf ltac:(lia)).
Qed.

(** ** Writing *)

(** [v'] is [v] with the bytes [bs] in the file from [off] on, [n] of them. *)
Record patched (v v' : Z -> list Z) (ip : inode) (nb off n : Z) (bs : list Z) : Prop := {
  pt_block : forall bn, 0 <= bn < nb -> file_block v' ip bn = file_block v ip bn;
  pt_map : mapped v' ip nb;
  pt_byte : forall k, 0 <= k < nb * BSIZE -> file_byte v' ip k =
    if (off <=? k) && (k <? off + n) then bs !!! Z.to_nat (k - off) else file_byte v ip k;
  pt_other : forall x, (forall bn, 0 <= bn < nb -> x <> file_block v ip bn) -> v' x = v x }.

Lemma put_bytes_at (off j : nat) (bs l : list Z) :
  (off + length bs <= length l)%nat ->
  put_bytes off bs l !!! j =
    if decide (off <= j < off + length bs)%nat then bs !!! (j - off)%nat else l !!! j.
Proof.
  intros H. unfold put_bytes. rewrite !list_lookup_total_alt. case_decide as Hj.
  - rewrite lookup_app_r by (rewrite length_take; lia). rewrite length_take, Nat.min_l by lia.
    by rewrite lookup_app_l by lia.
  - destruct (decide (j < off)%nat).
    + rewrite lookup_app_l by (rewrite length_take; lia). by rewrite lookup_take_lt.
    + rewrite lookup_app_r by (rewrite length_take; lia). rewrite length_take, Nat.min_l by lia.
      rewrite lookup_app_r by lia. rewrite lookup_drop. do 2 f_equal. lia.
Qed.

(** Writing into one block of the file. *)
Lemma patch_block v ip nb o m bs :
  mapped v ip nb -> 0 <= o -> o / BSIZE < nb -> 0 <= m <= BSIZE - o mod BSIZE -> length bs = Z.to_nat m ->
  let a := file_block v ip (o / BSIZE) in
  patched v (upd_view a (put_bytes (Z.to_nat (o mod BSIZE)) bs (v a)) v) ip nb o m bs.
Proof.
  intros Hmap Ho Hlt Hm Hbs a. pose proof Hmap as [M1 M2 M3 M4 M5].
  assert (0 <= o / BSIZE < nb) as Hr by (split; [apply Z.div_pos; [lia|done]|done]).
  pose proof (Z.mod_pos_bound o BSIZE eq_refl) as Hmod.
  assert (Z.to_nat (o mod BSIZE) + length bs <= length (v a))%nat as Hfit by (unfold a; rewrite (M3 _ Hr); lia).
  set (v' := upd_view a _ v).
  assert (forall bn, 0 <= bn < nb -> file_block v' ip bn = file_block v ip bn) as Hb.
  { intros bn Hbn. unfold file_block. destruct (bn <? NDIRECT); [done|]. destruct (_ =? 0); [done|].
    unfold v', upd_view. rewrite (proj2 (Z.eqb_neq _ a)); [done|]. intros E. by apply (M5 _ Hr). }
  split; [done| | |].
  - split; [done|..]; intros bn; intros; rewrite ?Hb in * by done.
    + by apply M2.
    + unfold v', upd_view. destruct (_ =? a); [|by apply M3]. rewrite length_put_bytes by done. unfold a. by apply M3.
    + by apply M4.
    + by apply M5.
  - intros k Hk. unfold file_byte.
    assert (0 <= k / BSIZE < nb) as Hkb by (split; [apply Z.div_pos; [lia|done]|apply Z.div_lt_upper_bound; [done|lia]]).
    rewrite Hb by done. unfold v', upd_view. destruct (Z.eqb_spec (file_block v ip (k / BSIZE)) a) as [E|E].
    + apply M4 in E; [|done..]. rewrite put_bytes_at by done. pose proof (Z.mod_pos_bound k BSIZE eq_refl) as Hkm.
      pose proof (Z.div_mod k BSIZE ltac:(done)) as Dk. pose proof (Z.div_mod o BSIZE ltac:(done)) as Do. rewrite E in Dk.
      case_decide as Hin; destruct (Z.leb_spec o k), (Z.ltb_spec k (o + m)); cbn [andb]; try lia.
      * f_equal. lia.
      * unfold a. by rewrite E.
      * unfold a. by rewrite E.
    + destruct (Z.leb_spec o k), (Z.ltb_spec k (o + m)); cbn [andb]; try done.
      exfalso. apply E. destruct (same_block o (k - o)) as [Ek _]; [lia|]. replace (o + (k - o)) with k in Ek by lia.
      by rewrite Ek.
  - intros x Hx. unfold v', upd_view. rewrite (proj2 (Z.eqb_neq x a)); [done|]. by apply Hx.
Qed.

Lemma patched_start v ip nb off bs : mapped v ip nb -> patched v v ip nb off 0 bs.
Proof.
  intros H. split; try done. intros k Hk. destruct (Z.leb_spec off k), (Z.ltb_spec k (off + 0)); cbn; done || lia.
Qed.

Lemma patched_next v v1 v2 ip nb off tot m bs :
  patched v v1 ip nb off tot bs -> patched v1 v2 ip nb (off + tot) m (take (Z.to_nat m) (drop (Z.to_nat tot) bs)) ->
  0 <= tot -> 0 <= m -> patched v v2 ip nb off (tot + m) bs.
Proof.
  intros [B1 M1 Y1 O1] [B2 M2 Y2 O2] Ht Hm. split; [|done| |].
  - intros bn Hbn. by rewrite B2, B1.
  - intros k Hk. rewrite Y2, Y1 by done.
    destruct (Z.leb_spec (off + tot) k), (Z.ltb_spec k (off + tot + m)), (Z.leb_spec off k),
      (Z.ltb_spec k (off + tot)), (Z.ltb_spec k (off + (tot + m))); cbn [andb]; try lia; try done.
    rewrite !list_lookup_total_alt, lookup_take_lt, lookup_drop by lia. do 2 f_equal. lia.
  - intros x Hx. rewrite O2, O1; [done|done|]. intros bn Hbn. rewrite B1 by done. by apply Hx.
Qed.

Section Write.
Context (i : nat) (ip : inode) (off n nb : Z) (bs : list Z) (Hbs : length bs = Z.to_nat n).
Context (Hdev : i_dev ip = dev) (Hoff : 0 <= off) (Hn : off + n <= nb * BSIZE).

Lemma write_block_txn v s tot :
  txn me dev v [] s -> mapped v ip nb -> lg_n (k_log s) < Z.of_nat LOGBLOCKS -> k_itable s !!! i = ip -> 0 <= tot < n ->
  let m := Z.min (n - tot) (BSIZE - (off + tot) mod BSIZE) in
  exists s' v', write_block i (SLocal bs) off n tot s = Ret (inl (tot + m)) s' /\
    txn me dev v' [] s' /\ lg_n (k_log s') <= lg_n (k_log s) + 1 /\ outer s' = outer s /\
    patched v v' ip nb (off + tot) m (take (Z.to_nat m) (drop (Z.to_nat tot) bs)).
Proof using Dok Hbs Hdev Hoff Hn.
  intros Ht Hmap Hlg Hip Htot m. set (o := off + tot). set (chunk := take (Z.to_nat m) (drop (Z.to_nat tot) bs)).
  assert (0 <= o / BSIZE < nb) as Hbn.
  { split; [apply Z.div_pos; [lia|done]|]. apply Z.div_lt_upper_bound; [done|]. lia. }
  pose proof (mp_max _ _ _ Hmap) as Hmax. pose proof (Z.mod_pos_bound o BSIZE eq_refl) as Hmod.
  set (a := file_block v ip (o / BSIZE)). assert (a <> 0) as Ha by by apply (mp_there _ _ _ Hmap).
  destruct (bmap_txn v s i (o / BSIZE) Ht) as (s1 & E1 & T1 & Q1); rewrite ?Hip; [exact Hlg|done|lia|done|].
  rewrite Hip in E1. fold a in E1. assert (lg_n (k_log s1) = lg_n (k_log s)) as L1 by by destruct Q1 as [-> _].
  destruct (bread_txn v [] s1 a T1) as (b & s2 & E2 & T2 & K2 & X2 & _ & _ & L2 & O2);
    [set_solver|cbn; change NBUF with LOGBLOCKS; lia|].
  set (f := fun x => set_b_data (put_bytes (Z.to_nat (o mod BSIZE)) chunk (b_data x)) x).
  destruct (write_txn v b [] s2 f (put_bytes (Z.to_nat (o mod BSIZE)) chunk (v a)) T2)
    as (s3 & s4 & E3 & E4 & T4 & K4 & Hin & Hle & _ & O4); [unfold f; by rewrite X2|rewrite L2; lia|].
  destruct (brelse_txn _ b [] s4 T4) as (s5 & E5 & T5 & _ & L5 & O5); [left; by rewrite K4|].
  rewrite K2 in T5. eexists s5, _. split; [|split; [exact T5|]].
  - unfold write_block. rewrite (proj2 (Z.ltb_lt tot n)) by lia. cbn [negb]. fold o. kstep E1.
    rewrite (proj2 (Z.eqb_neq a 0)) by done. kstep eq_refl. rewrite (unmoved_itable _ _ Q1), Hip, Hdev. kstep E2.
    cbn [source_at]. fold m. kstep (local_in _ m s2 (txn_calm _ _ _ T2)). cbn [fst snd]. fold chunk f. kstep E3.
    change (0 =? -1) with false. cbv iota. kstep E4. by kstep E5.
  - split; [rewrite L5; rewrite L2 in Hle; lia|]. split; [rewrite O5, O4, O2; by destruct Q1 as [_ ->]|].
    apply patch_block; [done|lia|apply Hbn|unfold m; fold o; lia|].
    unfold chunk. rewrite length_take, length_drop, Hbs. unfold m. lia.
Qed.

Lemma write_loop fuel v0 v tot s :
  txn me dev v [] s -> patched v0 v ip nb off tot bs -> k_itable s !!! i = ip -> 0 <= tot <= n ->
  rounds off n tot <= Z.of_nat fuel -> lg_n (k_log s) + rounds off n tot <= Z.of_nat LOGBLOCKS + 1 ->
  exists s' v', loop fuel (write_block i (SLocal bs) off n) tot s = Ret n s' /\
    txn me dev v' [] s' /\ patched v0 v' ip nb off n bs /\ outer s' = outer s /\
    lg_n (k_log s') + 1 <= lg_n (k_log s) + rounds off n tot.
Proof using Dok Hbs Hdev Hoff Hn.
  revert v tot s. induction fuel as [|fuel IH]; intros v tot s Ht Hp Hip Htot Hf Hlg.
  { exfalso. revert Hf. unfold rounds. change BSIZE with 1024. zbool; Z.to_euclidean_division_equations; lia. }
  destruct (Z.eq_dec tot n) as [->|Hne].
  - exists s, v. split; [|split; [done|split; [done|split; [done|]]]].
    + apply loop_exit. unfold write_block. by rewrite Z.ltb_irrefl.
    + unfold rounds. rewrite Z.ltb_irrefl. lia.
  - pose proof (rounds_next off n Hoff tot ltac:(lia)) as [Hm Hr].
    destruct (write_block_txn v s tot Ht (pt_map _ _ _ _ _ _ _ Hp)) as (s1 & v1 & E1 & T1 & L1 & O1 & P1); [lia|done|lia|].
    set (m := Z.min _ _) in *. rewrite (loop_next _ _ _ _ _ _ E1).
    destruct (IH v1 (tot + m) s1 T1) as (s' & v' & E' & T' & P' & O' & L').
    + apply (patched_next v0 v); [done|done|lia|lia].
    + by rewrite (proj1 (proj2 (proj2 (outer_parts _ _ O1)))).
    + lia.
    + lia.
    + lia.
    + exists s', v'. split; [done|]. split; [done|]. split; [done|]. split; [by rewrite O'|lia].
Qed.
End Write.

(** ** The whole of [writei] *)

Lemma txn_itable v held s it : txn me dev v held s -> txn me dev v held (with_k_itable it s).
Proof. intros [[l H1] H2 H3 H4]. split; [exists l; by apply cache_itable|done..]. Qed.

(** The inode after a write up to [e]. *)
Definition extended (e : Z) (ip : inode) : inode := if i_size ip <? e then set_i_size e ip else ip.

Lemma extended_size e ip : i_size (extended e ip) = Z.max (i_size ip) e.
Proof. unfold extended. destruct (Z.ltb_spec (i_size ip) e); cbn; lia. Qed.

Lemma extended_same e ip : i_addrs (extended e ip) = i_addrs ip /\ i_dev (extended e ip) = i_dev ip /\ i_inum (extended e ip) = i_inum ip.
Proof. unfold extended. by destruct (_ <? _). Qed.

(** The data and the indirect block of the file are not the block [ib]. *)
Definition apart (v : Z -> list Z) (ip : inode) (nb ib : Z) : Prop :=
  i_addrs ip !!! Z.to_nat NDIRECT <> ib /\ forall bn, 0 <= bn < nb -> file_block v ip bn <> ib.

Lemma same_file v v' ip ip' nb ib :
  i_addrs ip' = i_addrs ip -> (forall x, x <> ib -> v' x = v x) -> apart v ip nb ib ->
  (forall bn, 0 <= bn < nb -> file_block v' ip' bn = file_block v ip bn) /\
  (forall k, 0 <= k < nb * BSIZE -> file_byte v' ip' k = file_byte v ip k) /\
  (mapped v ip nb -> mapped v' ip' nb).
Proof.
  intros Ea Ev [A1 A2].
  assert (forall bn, file_block v' ip' bn = file_block v ip bn) as Hb.
  { intros bn. unfold file_block. rewrite Ea. destruct (_ <? _); [done|]. destruct (_ =? 0); [done|]. by rewrite Ev. }
  assert (forall k, 0 <= k < nb * BSIZE -> 0 <= k / BSIZE < nb) as Hk.
  { intros k Hk. split; [apply Z.div_pos; [lia|done]|apply Z.div_lt_upper_bound; [done|lia]]. }
  split; [by intros|]. split.
  - intros k H. unfold file_byte. rewrite Hb, Ev; [done|]. by apply A2, Hk.
  - intros [M1 M2 M3 M4 M5]. split; [done|..]; intros bn; intros; rewrite ?Hb, ?Ea in *.
    + by apply M2.
    + rewrite Ev by by apply A2. by apply M3.
    + by apply M4.
    + by apply M5.
Qed.

Lemma writei_txn v s i off n nb bs :
  let ip := k_itable s !!! i in
  let ib := IBLOCK (i_inum ip) (k_sb s) in
  txn me dev v [] s -> (i < length (k_itable s))%nat -> i_dev ip = dev -> mapped v ip nb -> apart v ip nb ib ->
  length bs = Z.to_nat n -> 0 <= n -> 0 <= off <= i_size ip -> off + n <= nb * BSIZE ->
  lg_n (k_log s) + n / BSIZE + 3 < Z.of_nat LOGBLOCKS ->
  exists s' v1 v', writei i (SLocal bs) off n s = Ret n s' /\ txn me dev v' [] s' /\
    patched v v1 ip nb off n bs /\ (forall x, x <> ib -> v' x = v1 x) /\
    k_itable s' = <[i := extended (off + n) ip]> (k_itable s) /\ lg_n (k_log s') < Z.of_nat LOGBLOCKS.
Proof using Dok.
  intros ip ib Ht Hi Hdev Hmap Hap Hbs Hn Hoff Hmax Hlg.
  pose proof (mp_max _ _ _ Hmap) as Hnb. assert (off + n <= MAXFILE * BSIZE) as Hfit.
  { transitivity (nb * BSIZE); [done|]. by apply Z.mul_le_mono_nonneg_r. }
  change (MAXFILE * BSIZE) with 274432 in Hfit. assert (0 <= n / BSIZE) as Hdiv by (apply Z.div_pos; [lia|done]).
  pose proof (rounds_start off n ltac:(lia) Hn) as Hrs.
  destruct (write_loop i ip off n nb bs Hbs Hdev ltac:(lia) Hmax (Z.to_nat (n / BSIZE + 3)) v v 0 s Ht
    (patched_start v ip nb off bs Hmap) eq_refl ltac:(lia)) as (s1 & v1 & E1 & T1 & P1 & O1 & L1); [lia|lia|].
  destruct (outer_parts _ _ O1) as (_ & Esb & Eit & _).
  set (s2 := with_k_itable (<[i := extended (off + n) ip]> (k_itable s)) s1).
  assert (when (i_size ip <? off + n) (modi i (set_i_size (off + n))) s1 = Ret tt s2) as E2.
  { unfold s2, extended. destruct (i_size ip <? off + n); cbn [when].
    - unfold modi, modify. rewrite Eit, list_insert_alter. do 2 f_equal. by apply list_alter_same.
    - rewrite list_insert_id by by apply list_lookup_lookup_total_lt. rewrite <- Eit. by destruct s1. }
  assert (k_itable s2 !!! i = extended (off + n) ip) as Ei by by apply list_lookup_total_insert_eq.
  destruct (extended_same (off + n) ip) as (G1 & G2 & G3).
  destruct (iupdate_txn v1 s2 i (txn_itable _ _ _ _ T1)) as (s3 & E3 & T3 & L3 & O3).
  { by rewrite Ei, G2. } { change (k_log s2) with (k_log s1). lia. }
  rewrite Ei, G3 in T3. change (k_sb s2) with (k_sb s1) in T3. rewrite Esb in T3. fold ib in T3.
  eexists s3, v1, _. split; [|split; [exact T3|]].
  - unfold writei. kstep eq_refl. fold ip. rewrite (proj2 (Z.ltb_ge (i_size ip) off)) by lia.
    unfold u32. rewrite !Z.mod_small by lia. rewrite (proj2 (Z.ltb_ge (off + n) off)) by lia. cbn [orb].
    rewrite (proj2 (Z.ltb_ge (MAXFILE * BSIZE) _)) by (change (MAXFILE * BSIZE) with 274432; lia).
    kstep E1. kstep eq_refl. rewrite Eit. fold ip. kstep E2. kstep E3.
    rewrite <- (Z.mod_small n (2 ^ 32)) at 1 by lia. by rewrite s32_small by lia.
  - split; [done|]. split; [intros x Hx; unfold upd_view; by rewrite (proj2 (Z.eqb_neq x ib))|].
    split; [by rewrite (proj1 (proj2 (proj2 (outer_parts _ _ O3))))|]. change (k_log s2) with (k_log s1) in L3. lia.
Qed.
End Io.

(** * New blocks *)

(** The inode with block [b] as its direct block [bn]. *)
Definition grown (bn b : Z) (ip : inode) : inode := set_i_addrs (<[Z.to_nat bn := b]> (i_addrs ip)) ip.

Section Grow.
Context `{W : WaitBound} `{D : DiskDriver} `{Dok : !DiskOk}.
Context {me : nat} {dev : Z}.
Implicit Types (v : Z -> list Z) (s : kstate).

(** [bmap] of a direct block that is not there: a free block becomes it, and is
    found from then on; or none is free, and nothing happens. *)
Lemma bmap_new v s i bn :
  let ip := k_itable s !!! i in let sb := k_sb s in
  txn me dev v [] s -> lg_n (k_log s) + 1 < Z.of_nat LOGBLOCKS -> i_dev ip = dev -> (i < length (k_itable s))%nat ->
  0 <= bn < NDIRECT -> (Z.to_nat bn < length (i_addrs ip))%nat -> i_addrs ip !!! Z.to_nat bn = 0 -> in_use sb v 0 = true ->
  (exists b s1, bmap i bn s = Ret b s1 /\ bmap i bn s1 = Ret b s1 /\ 0 < b < sb_size sb /\ in_use sb v b = false /\
     txn me dev (taken sb b v) [] s1 /\ k_itable s1 = alter (grown bn b) i (k_itable s) /\ k_sb s1 = sb /\
     lg_n (k_log s1) <= lg_n (k_log s) + 2) \/
  ((forall c, 0 <= c < sb_size sb -> in_use sb v c = true) /\
   exists s1, bmap i bn s = Ret 0 s1 /\ txn me dev v [] s1 /\ k_log s1 = k_log s /\ k_sb s1 = sb /\ k_itable s1 = k_itable s).
Proof using Dok.
  intros ip sb Ht Hlg Hdev Hi Hbn Hlen Ha H0.
  assert (forall s, bmap i bn s = inode_block i (Z.to_nat bn) s) as Eb by (intros t; unfold bmap; by rewrite (proj2 (Z.ltb_lt _ _)) by lia).
  destruct (balloc_txn me dev v s Ht Hlg) as [(b & s1 & E & Hb & Hf & _ & T & L & O)|(Hall & s1 & E & T & L & Esb & Eit)].
  - left. fold sb in Hb, Hf, T. assert (b <> 0) as Hb0 by (intros ->; congruence). destruct (outer_parts _ _ O) as (_ & Esb & Eit & _).
    set (s2 := with_k_itable (alter (grown bn b) i (k_itable s1)) s1).
    assert (inode_block i (Z.to_nat bn) s = Ret b s2) as E1.
    { unfold inode_block. kstep eq_refl. fold ip. rewrite Ha. cbn [Z.eqb negb]. rewrite Hdev. kstep E.
      rewrite (proj2 (Z.eqb_neq b 0)) by done. reflexivity. }
    exists b, s2. rewrite !Eb. split; [done|]. split.
    { unfold inode_block. kstep eq_refl. cbn [k_itable with_k_itable s2]. rewrite Eit, list_lookup_total_alter_eq by done. fold ip.
      cbn [grown set_i_addrs i_addrs]. rewrite list_lookup_total_insert_eq by done. by rewrite (proj2 (Z.eqb_neq b 0)). }
    split; [lia|]. split; [done|]. split; [by apply txn_itable|]. split; [cbn; by rewrite Eit|]. split; [done|]. done.
  - right. split; [done|]. exists s1. rewrite Eb. split; [|done].
    unfold inode_block. kstep eq_refl. fold ip. rewrite Ha. cbn [Z.eqb negb]. rewrite Hdev. by kstep E.
Qed.

(** A write whose first block [bmap] has found is the write after it. *)
Lemma writei_found s s1 i src off n b :
  bmap i (off / BSIZE) s = Ret b s1 -> bmap i (off / BSIZE) s1 = Ret b s1 -> b <> 0 -> 0 < n ->
  i_size (k_itable s1 !!! i) = i_size (k_itable s !!! i) -> off <= i_size (k_itable s !!! i) ->
  off + n <= MAXFILE * BSIZE -> 0 <= off -> writei i src off n s = writei i src off n s1.
Proof using Type.
  intros E E1 Hb Hn Hs Ho Hmax Hoff. change (MAXFILE * BSIZE) with 274432 in Hmax.
  assert (write_block i src off n 0 s = write_block i src off n 0 s1) as Ew.
  { unfold write_block. rewrite (proj2 (Z.ltb_lt 0 n)) by done. cbn [negb]. rewrite Z.add_0_r.
    by rewrite (bind_Ret _ _ _ _ _ E), (bind_Ret _ _ _ _ _ E1). }
  unfold writei. kstep eq_refl. symmetry. kstep eq_refl. symmetry. rewrite Hs.
  rewrite (proj2 (Z.ltb_ge (i_size _) off)) by done. unfold u32. rewrite !Z.mod_small by lia.
  rewrite (proj2 (Z.ltb_ge (off + n) off)) by lia. cbn [orb].
  rewrite (proj2 (Z.ltb_ge (MAXFILE * BSIZE) _)) by (change (MAXFILE * BSIZE) with 274432; lia).
  assert (0 <= n / BSIZE) by (apply Z.div_pos; [lia|done]).
  destruct (Z.to_nat (n / BSIZE + 3)) as [|k] eqn:Ek; [lia|]. cbn [loop]. unfold bind at 1 2. unfold bind at 2 5.
  by rewrite Ew.
Qed.

(** A write whose first block cannot be had writes nothing. *)
Lemma writei_full v s s1 i src off n :
  let ip := k_itable s !!! i in
  let ib := IBLOCK (i_inum ip) (k_sb s) in
  bmap i (off / BSIZE) s = Ret 0 s1 -> txn me dev v [] s1 -> k_sb s1 = k_sb s -> k_itable s1 = k_itable s ->
  i_dev ip = dev -> 0 < n -> 0 <= off <= i_size ip -> off + n <= MAXFILE * BSIZE -> lg_n (k_log s1) < Z.of_nat LOGBLOCKS ->
  exists s' v', writei i src off n s = Ret 0 s' /\ txn me dev v' [] s' /\ k_itable s' = k_itable s /\
    (forall x, x <> ib -> v' x = v x).
Proof using Dok.
  intros ip ib E T Esb Eit Hdev Hn Hoff Hmax Hlg. change (MAXFILE * BSIZE) with 274432 in Hmax.
  destruct (iupdate_txn v s1 i T) as (s2 & E2 & T2 & _ & O2); rewrite ?Eit; [done|done|].
  rewrite Eit, Esb in T2. fold ip ib in T2. eexists s2, _. split; [|split; [exact T2|]].
  - unfold writei. kstep eq_refl. fold ip. rewrite (proj2 (Z.ltb_ge (i_size ip) off)) by lia.
    unfold u32. rewrite !Z.mod_small by lia. rewrite (proj2 (Z.ltb_ge (off + n) off)) by lia. cbn [orb].
    rewrite (proj2 (Z.ltb_ge (MAXFILE * BSIZE) _)) by (change (MAXFILE * BSIZE) with 274432; lia).
    assert (0 <= n / BSIZE) by (apply Z.div_pos; [lia|done]).
    assert (loop (Z.to_nat (n / BSIZE + 3)) (write_block i src off n) 0 s = Ret 0 s1) as El.
    { destruct (Z.to_nat (n / BSIZE + 3)) as [|k] eqn:Ek; [lia|]. apply loop_exit. unfold write_block.
      rewrite (proj2 (Z.ltb_lt 0 n)) by done. cbn [negb]. rewrite Z.add_0_r. by kstep E. }
    kstep El. kstep eq_refl. rewrite Eit. fold ip. rewrite (proj2 (Z.ltb_ge (i_size ip) _)) by lia. kstep eq_refl. by kstep E2.
  - split; [by rewrite (proj1 (proj2 (proj2 (outer_parts _ _ O2)))), Eit|].
    intros x Hx. unfold upd_view. by rewrite (proj2 (Z.eqb_neq x ib)).
Qed.
End Grow.

(** ** A file with one more block *)

(** The blocks of the file are marked in use, no bitmap block is one of them, and
    neither is block 0. *)
Record placed (sb : superblock) (v : Z -> list Z) (ip : inode) (nb : Z) : Prop := {
  pl_zero : in_use sb v 0 = true;
  pl_used : forall bn, 0 <= bn < nb -> in_use sb v (file_block v ip bn) = true;
  pl_bitmap : forall bn c, 0 <= bn < nb -> 0 <= c < sb_size sb -> file_block v ip bn <> BBLOCK c sb;
  pl_ind : i_addrs ip !!! Z.to_nat NDIRECT <> 0 -> in_use sb v (i_addrs ip !!! Z.to_nat NDIRECT) = true }.

Section Grown.
Context (sb : superblock) (v : Z -> list Z) (ip : inode) (nb b ib : Z).
Context (Hmap : mapped v ip nb) (Hpl : placed sb v ip nb) (Hap : apart v ip nb ib).
Context (Hnb : 0 <= nb < NDIRECT) (Hlen : (Z.to_nat NDIRECT < length (i_addrs ip))%nat).
Context (Hb : 0 < b < sb_size sb) (Hfree : in_use sb v b = false) (Hib : in_use sb v ib = true).
Abbreviation v1 := (taken sb b v).
Abbreviation ip1 := (grown nb b ip).

Lemma grown_block bn : 0 <= bn < nb + 1 -> file_block v1 ip1 bn = if bn =? nb then b else file_block v ip bn.
Proof using All.
  intros Hbn. unfold file_block. rewrite (proj2 (Z.ltb_lt bn NDIRECT)) by lia. cbn [grown set_i_addrs i_addrs].
  destruct (Z.eqb_spec bn nb) as [->|Hne]; [apply list_lookup_total_insert_eq; lia|by rewrite list_lookup_total_insert_ne by lia].
Qed.

Lemma grown_kept bn : 0 <= bn < nb -> file_block v ip bn <> b /\ v1 (file_block v ip bn) = v (file_block v ip bn).
Proof using All.
  intros Hbn. assert (file_block v ip bn <> b) as Hne by (intros E; pose proof (pl_used _ _ _ _ Hpl bn Hbn); congruence).
  split; [done|]. unfold taken, upd_view.
  by rewrite (proj2 (Z.eqb_neq _ b)), (proj2 (Z.eqb_neq _ (BBLOCK b sb))) by (done || (apply (pl_bitmap _ _ _ _ Hpl); lia)).
Qed.

Lemma grown_new : v1 b = zero_block.
Proof using Type. unfold taken, upd_view. by rewrite Z.eqb_refl. Qed.

Lemma grown_ind : i_addrs ip1 !!! Z.to_nat NDIRECT = i_addrs ip !!! Z.to_nat NDIRECT /\ b <> i_addrs ip !!! Z.to_nat NDIRECT.
Proof using All.
  split; [cbn [grown set_i_addrs i_addrs]; apply list_lookup_total_insert_ne; lia|]. intros E.
  assert (i_addrs ip !!! Z.to_nat NDIRECT <> 0) as H by lia. apply (pl_ind _ _ _ _ Hpl) in H. congruence.
Qed.

Lemma grown_blocks : mapped v1 ip1 (nb + 1).
Proof using All.
  destruct Hmap as [M1 M2 M3 M4 M5]. destruct grown_ind as [Ei Hi]. split.
  - change MAXFILE with 268. change NDIRECT with 12 in Hnb. lia.
  - intros bn Hbn. rewrite grown_block by done. destruct (Z.eqb_spec bn nb); [lia|]. apply M2. lia.
  - intros bn Hbn. rewrite grown_block by done. destruct (Z.eqb_spec bn nb); [by rewrite grown_new|].
    destruct (grown_kept bn) as [_ ->]; [lia|]. apply M3. lia.
  - intros a c Ha Hc. rewrite !grown_block by done. destruct (Z.eqb_spec a nb), (Z.eqb_spec c nb); subst; try done.
    + intros E. destruct (grown_kept c) as [? _]; [lia|]. congruence.
    + intros E. destruct (grown_kept a) as [? _]; [lia|]. congruence.
    + apply M4; lia.
  - intros bn Hbn. rewrite grown_block, Ei by done. destruct (Z.eqb_spec bn nb); [done|]. apply M5. lia.
Qed.

Lemma grown_apart : apart v1 ip1 (nb + 1) ib.
Proof using All.
  destruct Hap as [A1 A2]. destruct grown_ind as [Ei _]. split; [by rewrite Ei|]. intros bn Hbn. rewrite grown_block by done.
  destruct (Z.eqb_spec bn nb); [congruence|]. apply A2. lia.
Qed.

Lemma grown_byte k : 0 <= k < (nb + 1) * BSIZE ->
  file_byte v1 ip1 k = if k <? nb * BSIZE then file_byte v ip k else 0.
Proof using All.
  intros Hk. unfold file_byte. assert (0 <= k / BSIZE < nb + 1) as Hd
    by (split; [apply Z.div_pos; [lia|done]|apply Z.div_lt_upper_bound; [done|lia]]).
  rewrite grown_block by done. pose proof (Z.mod_pos_bound k BSIZE eq_refl) as Hm.
  destruct (Z.ltb_spec k (nb * BSIZE)) as [Hlt|Hge].
  - assert (k / BSIZE < nb) by (apply Z.div_lt_upper_bound; [done|lia]). rewrite (proj2 (Z.eqb_neq _ nb)) by lia.
    destruct (grown_kept (k / BSIZE)) as [_ ->]; [lia|done].
  - assert (nb <= k / BSIZE) by (apply Z.div_le_lower_bound; [done|lia]). rewrite (proj2 (Z.eqb_eq _ nb)) by lia.
    rewrite grown_new. apply lookup_total_replicate_2. lia.
Qed.
End Grown.

Section Roundtrip.
Context `{W : WaitBound} `{D : DiskDriver} `{Dok : !DiskOk}.

(** The file after [writei]: its bytes and its blocks. *)
Lemma writei_bytes me dev v s i off n nb bs :
  let ip := k_itable s !!! i in
  let ib := IBLOCK (i_inum ip) (k_sb s) in
  txn me dev v [] s -> (i < length (k_itable s))%nat -> i_dev ip = dev -> mapped v ip nb -> apart v ip nb ib ->
  length bs = Z.to_nat n -> 0 <= n -> 0 <= off <= i_size ip -> off + n <= nb * BSIZE ->
  lg_n (k_log s) + n / BSIZE + 3 < Z.of_nat LOGBLOCKS ->
  exists s1 v1, writei i (SLocal bs) off n s = Ret n s1 /\ txn me dev v1 [] s1 /\
    k_itable s1 = <[i := extended (off + n) ip]> (k_itable s) /\ lg_n (k_log s1) < Z.of_nat LOGBLOCKS /\
    mapped v1 (extended (off + n) ip) nb /\
    (forall k, 0 <= k < nb * BSIZE -> file_byte v1 (extended (off + n) ip) k =
       if (off <=? k) && (k <? off + n) then bs !!! Z.to_nat (k - off) else file_byte v ip k) /\
    (forall x, x <> ib -> (forall bn, 0 <= bn < nb -> x <> file_block v ip bn) -> v1 x = v x).
Proof using Dok.
  intros ip ib Ht Hi Hdev Hmap Hap Hbs Hn Hoff Hend Hroom.
  destruct (writei_txn v s i off n nb bs Ht Hi Hdev Hmap Hap Hbs Hn Hoff Hend Hroom)
    as (s1 & v1 & v' & E & T & P & Hv & Eit & Hlg). fold ip ib in P, Hv, Eit.
  destruct (extended_same (off + n) ip) as (G1 & G2 & _).
  assert (apart v1 ip nb ib) as Hap1.
  { destruct Hap as [A1 A2]. split; [done|]. intros bn Hbn. rewrite (pt_block _ _ _ _ _ _ _ P) by done. by apply A2. }
  destruct (same_file v1 v' ip (extended (off + n) ip) nb ib G1 Hv Hap1) as (_ & Hbyte & Hmap').
  exists s1, v'. split; [done|]. split; [done|]. split; [done|]. split; [done|]. split; [|split].
  - apply Hmap', (pt_map _ _ _ _ _ _ _ P).
  - intros k Hk. rewrite Hbyte by done. by apply (pt_byte _ _ _ _ _ _ _ P).
  - intros x Hx Hbx. rewrite Hv by done. by apply (pt_other _ _ _ _ _ _ _ P).
Qed.

(** C6. What is written to a file is what is read from it.  Inside a
    transaction with room for it, [writei] of [n] bytes into blocks the file
    has returns [n]: the file then has these bytes from [off] on, its other
    bytes and every block that is not its own are as before, and its size has
    extended if need be; [readi] of the same range returns exactly the bytes
    written. *)
Theorem file_write_read me dev v s i off n nb bs
  (Ht : txn me dev v [] s) (Hi : (i < length (k_itable s))%nat)
  (Hdev : i_dev (k_itable s !!! i) = dev) (Hmap : mapped v (k_itable s !!! i) nb)
  (Hap : apart v (k_itable s !!! i) nb (IBLOCK (i_inum (k_itable s !!! i)) (k_sb s)))
  (Hsize : i_size (k_itable s !!! i) <= nb * BSIZE)
  (Hbs : length bs = Z.to_nat n) (Hn : 0 <= n) (Hoff : 0 <= off <= i_size (k_itable s !!! i))
  (Hend : off + n <= nb * BSIZE)
  (Hroom : lg_n (k_log s) + n / BSIZE + 3 < Z.of_nat LOGBLOCKS) :
  let ip := k_itable s !!! i in
  exists s1 v1, writei i (SLocal bs) off n s = Ret n s1 /\ txn me dev v1 [] s1 /\
    k_itable s1 = <[i := extended (off + n) ip]> (k_itable s) /\
    (forall k, 0 <= k < nb * BSIZE -> file_byte v1 (extended (off + n) ip) k =
       if (off <=? k) && (k <? off + n) then bs !!! Z.to_nat (k - off) else file_byte v ip k) /\
    (forall x, x <> IBLOCK (i_inum ip) (k_sb s) -> (forall bn, 0 <= bn < nb -> x <> file_block v ip bn) ->
       v1 x = v x) /\
    exists s2, readi i DLocal off n s1 = Ret (n, bs) s2 /\ txn me dev v1 [] s2.
Proof using Dok.
  intros ip. fold ip in Hdev, Hmap, Hap, Hsize, Hoff.
  destruct (writei_bytes me dev v s i off n nb bs Ht Hi Hdev Hmap Hap Hbs Hn Hoff Hend Hroom)
    as (s1 & v' & E & T & Eit & Hlg & Hmap' & Hbyte & Hother). fold ip in Eit, Hmap', Hbyte, Hother.
  destruct (extended_same (off + n) ip) as (G1 & G2 & _).
  assert (k_itable s1 !!! i = extended (off + n) ip) as Ei by (rewrite Eit; by apply list_lookup_total_insert_eq).
  exists s1, v'. split; [done|]. split; [done|]. split; [done|]. split; [done|]. split; [done|].
  assert (nb * BSIZE <= MAXFILE * BSIZE) as Hfit
    by (apply Z.mul_le_mono_nonneg_r; [done|apply (mp_max _ _ _ Hmap)]).
  change (MAXFILE * BSIZE) with 274432 in Hfit.
  destruct (readi_txn v' s1 i off n nb T Hlg) as (s2 & E2 & T2 & _); rewrite ?Ei, ?G2, ?extended_size;
    [done|done|lia|lia|lia|].
  exists s2. split; [|done]. rewrite E2, Ei, extended_size.
  rewrite (proj2 (Z.ltb_ge _ off)), (proj2 (Z.leb_gt _ (off + n))) by lia. cbn [orb].
  rewrite Z.min_l by lia. do 2 f_equal. apply list_eq_same_length with (Z.to_nat n); [done|apply file_bytes_length|].
  intros k x y Hk Hx Hy. unfold file_bytes in Hx. rewrite list_lookup_fmap, lookup_seq_lt in Hx by done.
  injection Hx as <-. cbn [Nat.add]. rewrite Hbyte by lia.
  rewrite (proj2 (Z.leb_le _ _)), (proj2 (Z.ltb_lt _ _)) by lia. cbn [andb].
  replace (Z.to_nat (off + Z.of_nat k - off)) with k by lia. by apply list_lookup_total_correct.
Qed.
End Roundtrip.

(** Inode 5 has one block, block 60; five bytes go to offset 10. *)
Lemma file_write_read_witness :
  exists s1 s2, @writei 0%nat ram_disk 3 (SLocal [1; 2; 3; 4; 5]) 10 5 (demo_fs ∅ 1) = Ret 5 s1 /\
    @readi 0%nat ram_disk 3 DLocal 10 5 s1 = Ret (5, [1; 2; 3; 4; 5]) s2.
Proof.
  assert (forall bn, 0 <= bn < 1 -> file_block (dblock ∅) (demo_inode 1) bn = 60) as E.
  { intros bn Hbn. by replace bn with 0 by lia. }
  destruct (@file_write_read 0%nat ram_disk ram_disk_ok 1 1 _ _ 3 10 5 1 [1; 2; 3; 4; 5] (demo_txn ∅ 1))
    as (s1 & v1 & E1 & _ & _ & _ & _ & s2 & E2 & _).
  - vm_compute. lia.
  - reflexivity.
  - change (k_itable (demo_fs ∅ 1) !!! 3%nat) with (demo_inode 1). split; [done|..]; intros bn; intros; rewrite ?E in * by done.
    + done.
    + reflexivity.
    + lia.
    + done.
  - change (k_itable (demo_fs ∅ 1) !!! 3%nat) with (demo_inode 1). split; [by vm_compute|].
    intros bn Hbn. rewrite E by done. by vm_compute.
  - by vm_compute.
  - reflexivity.
  - lia.
  - by vm_compute.
  - by vm_compute.
  - by vm_compute.
  - exists s1, s2. split; [exact E1|exact E2].
Defined.
