(* ===== verification/Itable.v ===== *)
(** The in-memory inode table of kernel/fs.c: every inode in use has one
    entry. *)
From S2P Require Import Prelude Riscv Spinlock Memory Bytes Kstring Kalloc Vm Proc Switch Sleeplock UserMem Kstate Bio Cache Log Fs.

(** An entry that refers to inode [inum] of device [dev], and a free one. *)
Definition refers (dev inum : Z) (ip : inode) : bool :=
  (0 <? i_ref ip) && (i_dev ip =? dev) && (i_inum ip =? inum).
Definition unused (ip : inode) : bool := i_ref ip =? 0.

Record table_ok (it : list inode) : Prop := {
  tb_len : length it = NINODE;
  tb_ref : forall i, (i < NINODE)%nat -> 0 <= i_ref (it !!! i);
  tb_uniq : forall i j dev inum, (i < NINODE)%nat -> (j < NINODE)%nat ->
    refers dev inum (it !!! i) = true -> refers dev inum (it !!! j) = true -> i = j }.

Definition find_entry (p : inode -> bool) (l : list nat) (it : list inode) : option nat :=
  List.find (fun i => p (it !!! i)) l.

(** [ip->ref++], and the entry set up for an inode that is not in the table. *)
Definition one_more (ip : inode) : inode := set_i_ref (i_ref ip + 1) ip.
Definition fresh (dev inum : Z) (ip : inode) : inode :=
  set_i_valid 0 (set_i_ref 1 (set_i_inum inum (set_i_dev dev ip))).
Definition updi (i : nat) (f : inode -> inode) (s : kstate) : kstate :=
  with_k_itable (alter f i (k_itable s)) s.

Section Iget.
Context (me : nat) (dev inum : Z).

Lemma iget_loop l (empty : option nat) s :
  calm me (k_ps s) -> lock_free ItableLock (khw s) ->
  let body := fun i (empty : option nat) =>
    ip <- geti i ;;
    if (0 <? i_ref ip) && (i_dev ip =? dev) && (i_inum ip =? inum) then
      modi i (fun ip => set_i_ref (i_ref ip + 1) ip) ;;
      krel ItableLock ;;
      ret (inr i)
    else ret (inl (match empty with
                   | None => if i_ref ip =? 0 then Some i else None
                   | Some _ => empty
                   end)) in
  forl l body empty (kinside ItableLock s) =
    match find_entry (refers dev inum) l (k_itable s) with
    | Some i => Ret (inr i) (updi i one_more s)
    | None => Ret (inl (match empty with
                        | Some _ => empty
                        | None => find_entry unused l (k_itable s)
                        end)) (kinside ItableLock s)
    end.
Proof.
  intros Hc Hf body. revert empty. induction l as [|i l IH]; intros empty; [by destruct empty|].
  unfold find_entry. cbn [List.find]. fold (find_entry (refers dev inum) l (k_itable s)).
  fold (find_entry unused l (k_itable s)).
  destruct (refers dev inum (k_itable s !!! i)) eqn:E.
  - apply forl_exit. unfold body. kstep eq_refl. change (k_itable (kinside ItableLock s)) with (k_itable s).
    fold (refers dev inum (k_itable s !!! i)). rewrite E. kstep eq_refl.
    by kstep (krel_calm me ItableLock (updi i one_more s) Hc Hf).
  - erewrite forl_next; last first.
    { unfold body. kstep eq_refl. change (k_itable (kinside ItableLock s)) with (k_itable s).
      fold (refers dev inum (k_itable s !!! i)). rewrite E. done. }
    rewrite IH. unfold unused. by destruct (find_entry _ l _), empty, (i_ref (k_itable s !!! i) =? 0).
Qed.

Lemma iget_eq s :
  calm me (k_ps s) -> lock_free ItableLock (khw s) ->
  iget dev inum s =
    match find_entry (refers dev inum) (seq 0 NINODE) (k_itable s) with
    | Some i => Ret i (updi i one_more s)
    | None =>
        match find_entry unused (seq 0 NINODE) (k_itable s) with
        | Some i => Ret i (updi i (fresh dev inum) s)
        | None => Panic "iget: no inodes" (kinside ItableLock s)
        end
    end.
Proof.
  intros Hc Hf. unfold iget. kstep (kacq_calm me ItableLock s Hc Hf).
  pose proof (iget_loop (seq 0 NINODE) None s Hc Hf) as E. cbn zeta in E.
  destruct (find_entry (refers dev inum) _ _) as [i|]; [by rewrite (bind_Ret _ _ _ _ _ E)|].
  rewrite (bind_Ret _ _ _ _ _ E). destruct (find_entry unused _ _) as [i|]; [|done].
  do 4 kstep eq_refl. cbn [k_itable with_k_itable kinside with_k_ps]. rewrite !list_alter_alter.
  by kstep (krel_calm me ItableLock (updi i (fresh dev inum) s) Hc Hf).
Qed.
End Iget.

(** The last reference in memory to an inode that no directory refers to:
    [iput] frees its content. *)
Definition last_unlinked (ip : inode) : bool :=
  (i_ref ip =? 1) && negb (i_valid ip =? 0) && (i_nlink ip =? 0).

(** Any other reference is just dropped. *)
Lemma iput_eq `{WaitBound} `{DiskDriver} me s i : calm me (k_ps s) -> lock_free ItableLock (khw s) -> last_unlinked (k_itable s !!! i) = false ->
  iput i s = Ret tt (updi i (fun ip => set_i_ref (i_ref ip - 1) ip) s).
Proof.
  intros Hc Hl Hn. unfold iput. kstep (kacq_calm me ItableLock s Hc Hl). kstep eq_refl.
  change (k_itable (kinside ItableLock s)) with (k_itable s). fold (last_unlinked (k_itable s !!! i)). rewrite Hn. do 2 kstep eq_refl.
  exact (krel_calm me ItableLock (updi i (fun ip => set_i_ref (i_ref ip - 1) ip) s) Hc Hl).
Qed.

Section Table.
Context (dev inum : Z) (it : list inode).

Lemma find_entry_some p i :
  find_entry p (seq 0 NINODE) it = Some i -> (i < NINODE)%nat /\ p (it !!! i) = true.
Proof. intros E. apply List.find_some in E as [H1 H2]. apply List.in_seq in H1. split; [lia|done]. Qed.

Lemma find_entry_none p i :
  find_entry p (seq 0 NINODE) it = None -> (i < NINODE)%nat -> p (it !!! i) = false.
Proof. intros E Hi. apply (List.find_none _ _ E). apply List.in_seq. lia. Qed.

Lemma alter_entry f i j :
  (i < length it)%nat -> alter f i it !!! j = if decide (i = j) then f (it !!! i) else it !!! j.
Proof. intros H. case_decide as E; [subst; by apply list_lookup_total_alter_eq|by apply list_lookup_total_alter_ne]. Qed.

Lemma refers_iff d n ip : refers d n ip = true <-> 0 < i_ref ip /\ i_dev ip = d /\ i_inum ip = n.
Proof. unfold refers. rewrite !andb_true_iff, Z.ltb_lt, !Z.eqb_eq. tauto. Qed.

Lemma table_one_more i : table_ok it -> (i < NINODE)%nat -> refers dev inum (it !!! i) = true ->
  table_ok (alter one_more i it).
Proof.
  intros [H1 H2 H3] Hi Hr. split.
  - by rewrite length_alter.
  - intros j Hj. rewrite alter_entry by lia. case_decide; [|by apply H2]. specialize (H2 i Hi). cbn. lia.
  - intros j k d n Hj Hk. rewrite !alter_entry by lia. intros A B. apply (H3 j k d n Hj Hk).
    + revert A. destruct (decide (i = j)) as [<-|E]; [|done]. rewrite !refers_iff in *. cbn. tauto.
    + revert B. destruct (decide (i = k)) as [<-|E]; [|done]. rewrite !refers_iff in *. cbn. tauto.
Qed.

Lemma table_fresh i : table_ok it -> (i < NINODE)%nat -> unused (it !!! i) = true ->
  (forall j, (j < NINODE)%nat -> refers dev inum (it !!! j) = false) ->
  table_ok (alter (fresh dev inum) i it).
Proof.
  intros [H1 H2 H3] Hi Hr Hn. split.
  - by rewrite length_alter.
  - intros j Hj. rewrite alter_entry by lia. case_decide; [cbn; lia|by apply H2].
  - intros j k d n Hj Hk. rewrite !alter_entry by lia.
    assert (forall a, refers d n (fresh dev inum a) = true -> d = dev /\ n = inum) as Hfr.
    { intros a. rewrite refers_iff. cbn. intuition. }
    repeat case_decide; subst; try done.
    + intros A B. apply Hfr in A as [-> ->]. by rewrite Hn in B.
    + intros B A. apply Hfr in A as [-> ->]. by rewrite Hn in B.
    + by apply H3.
Qed.
End Table.

Lemma iget_spec me dev inum s
  (Hc : calm me (k_ps s)) (Hf : lock_free ItableLock (khw s)) (Hok : table_ok (k_itable s)) :
  let it := k_itable s in
  (exists i s', iget dev inum s = Ret i s' /\ (i < NINODE)%nat /\ table_ok (k_itable s') /\
     refers dev inum (k_itable s' !!! i) = true /\
     (if refers dev inum (it !!! i) then k_itable s' !!! i = one_more (it !!! i)
      else i_ref (it !!! i) = 0 /\ i_ref (k_itable s' !!! i) = 1 /\ i_valid (k_itable s' !!! i) = 0) /\
     forall j, j <> i -> k_itable s' !!! j = it !!! j) \/
  ((forall i, (i < NINODE)%nat -> 0 < i_ref (it !!! i) /\ refers dev inum (it !!! i) = false) /\
   iget dev inum s = Panic "iget: no inodes" (kinside ItableLock s)).
Proof.
  intros it. rewrite (iget_eq me dev inum s Hc Hf). fold it.
  destruct (find_entry (refers dev inum) _ it) as [i|] eqn:E1.
  - left. apply find_entry_some in E1 as [Hi E1]. exists i, (updi i one_more s). split; [done|]. split; [done|].
    cbn [k_itable updi with_k_itable]. fold it. split; [by apply (table_one_more dev inum)|].
    rewrite alter_entry, decide_True, E1 by (done || (unfold it; by rewrite (tb_len _ Hok))).
    split; [|split; [done|intros j Hj; by apply list_lookup_total_alter_ne]].
    rewrite !refers_iff in *. cbn. intuition lia.
  - pose proof (fun i => find_entry_none it _ i E1) as Hn.
    destruct (find_entry unused _ it) as [i|] eqn:E2.
    + left. apply find_entry_some in E2 as [Hi E2]. exists i, (updi i (fresh dev inum) s). split; [done|]. split; [done|].
      cbn [k_itable updi with_k_itable]. fold it. split; [by apply table_fresh|].
      rewrite alter_entry, decide_True, Hn by (done || (unfold it; by rewrite (tb_len _ Hok))).
      split; [rewrite refers_iff; cbn; lia|]. split; [by apply Z.eqb_eq in E2|].
      intros j Hj. by apply list_lookup_total_alter_ne.
    + right. split; [|done]. intros i Hi. split; [|by apply Hn]. pose proof (find_entry_none it _ i E2 Hi) as H.
      apply Z.eqb_neq in H. pose proof (tb_ref _ Hok i Hi) as Hr. fold it in Hr. lia.
Qed.

(** The inode table has one entry per inode in use, so that processes
    that name the same inode share it.  [iget] returns the entry of the inode
    with one more reference; an inode that has none gets a free entry with one
    reference and nothing read from the disk yet, and the kernel stops when
    no entry is free.  Either way the table still has one entry per inode. *)
Theorem iget_unique me dev inum s
  (Hc : calm me (k_ps s)) (Hf : lock_free ItableLock (khw s)) (Hok : table_ok (k_itable s)) :
  let it := k_itable s in
  (exists i s', iget dev inum s = Ret i s' /\ (i < NINODE)%nat /\ table_ok (k_itable s') /\
     refers dev inum (k_itable s' !!! i) = true /\
     (if refers dev inum (it !!! i) then k_itable s' !!! i = one_more (it !!! i)
      else i_ref (it !!! i) = 0 /\ i_ref (k_itable s' !!! i) = 1 /\ i_valid (k_itable s' !!! i) = 0) /\
     forall j, j <> i -> k_itable s' !!! j = it !!! j) \/
  ((forall i, (i < NINODE)%nat -> 0 < i_ref (it !!! i) /\ refers dev inum (it !!! i) = false) /\
   iget dev inum s = Panic "iget: no inodes" (kinside ItableLock s)).
Proof. by apply (iget_spec me). Qed.

(** Inode 5 is in entry 2; inode 9 gets the first free entry. *)
Definition demo_itable : kstate :=
  with_k_itable (<[2%nat := Inode 1 5 1 1 T_FILE 0 0 1 30 (replicate 13 0)]>
    (replicate NINODE (Inode 0 0 0 0 0 0 0 0 0 []))) (demo_k 0).

Lemma demo_table_ok : table_ok (k_itable demo_itable).
Proof.
  assert (forall i, (i < NINODE)%nat -> i <> 2%nat ->
    k_itable demo_itable !!! i = Inode 0 0 0 0 0 0 0 0 0 []) as H.
  { intros i Hi H2. cbn [k_itable demo_itable with_k_itable]. rewrite list_lookup_total_insert_ne by done.
    by apply lookup_total_replicate_2. }
  split; [reflexivity| |].
  - intros i Hi. destruct (decide (i = 2%nat)) as [->|]; [done|]. by rewrite H.
  - intros i j d n Hi Hj A B. destruct (decide (i = 2%nat)) as [->|]; [|by rewrite H in A].
    destruct (decide (j = 2%nat)) as [->|]; [done|by rewrite H in B].
Qed.

Lemma iget_unique_witness :
  exists i s', iget 1 5 demo_itable = Ret i s' /\ table_ok (k_itable s').
Proof.
  destruct (iget_unique 1 1 5 demo_itable demo_calm) as [(i & s' & E & _ & H & _)|[H _]].
  - by eapply demo_lock_free.
  - exact demo_table_ok.
  - exists i, s'. by split.
  - destruct (H 2%nat) as [_ H2]; [vm_compute; lia|discriminate H2].
Defined.
