(* ===== verification/Dir.v ===== *)
(** kernel/fs.c: directories and path names.

    Names and paths are byte lists: [name] is the caller's array of DIRSIZ
    bytes, [path] the characters before the NUL. *)
From S2P Require Import Prelude Riscv Spinlock Memory Bytes Kstring Kalloc Vm Proc Switch Sleeplock UserMem Kstate Bio Log Fs.

Definition SLASH : Z := 47.

(** [struct dirent]: [inum], then the name field. *)
Definition DIRENT : Z := 16.
Definition de_inum (de : list Z) : Z := get_le 2 0 de.
Definition de_name (de : list Z) : list Z := sub_bytes 2 14 de.

Definition namecmp (s t : list Z) : Z := arr_strncmp s t DIRSIZ.

Fixpoint skip_slashes (path : list Z) : list Z :=
  match path with
  | c :: path' => if c =? SLASH then skip_slashes path' else path
  | [] => []
  end.
(** The characters before the next slash, and the rest. *)
Fixpoint split_elem (path : list Z) : list Z * list Z :=
  match path with
  | c :: path' =>
      if c =? SLASH then ([], path)
      else let (e, r) := split_elem path' in (c :: e, r)
  | [] => ([], [])
  end.

(** [None] for the null pointer, otherwise the rest of the path and the name
    array. *)
Definition skipelem (path name : list Z) : option (list Z * list Z) :=
  let path := skip_slashes path in
  if bool_decide (path = []) then None else
  let (s, path) := split_elem path in
  let name' :=
    if DIRSIZ <=? Z.of_nat (length s) then put_bytes 0 (take (Z.to_nat DIRSIZ) s) name
    else put_bytes 0 (s ++ [0]) name in
  Some (skip_slashes path, name').

Section Dir.
Context `{WaitBound} `{DiskDriver}.

(** Entry [k] of directory [dp]; [msg] is the caller's panic. *)
Definition read_dirent (dp : nat) (off : Z) (msg : string) : M kstate (list Z) :=
  r <- readi dp DLocal off DIRENT ;;
  if negb (fst r =? DIRENT) then panic msg else ret (snd r).

(** The offsets of the entries of a directory of [size] bytes from entry
    [first] on. *)
Definition dir_offsets (first size : Z) : list Z :=
  (fun k => DIRENT * Z.of_nat k) <$>
    seq (Z.to_nat first) (Z.to_nat ((size + DIRENT - 1) / DIRENT) - Z.to_nat first).

(** The body of the loop of [dirlookup]: the entry at [off]. *)
Definition lookup_body (dp : nat) (dev : Z) (name : list Z) (off : Z) (_ : unit) : M kstate (unit + nat * Z) :=
  de <- read_dirent dp off "dirlookup read" ;;
  if de_inum de =? 0 then ret (inl tt) else
  if namecmp name (de_name de) =? 0 then
    ip <- iget dev (de_inum de) ;;
    ret (inr (ip, off))
  else ret (inl tt).

(** The inode and the offset of the entry. *)
Definition dirlookup (dp : nat) (name : list Z) : M kstate (option (nat * Z)) :=
  d <- geti dp ;;
  if negb (i_type d =? T_DIR) then panic "dirlookup not DIR" else
  r <- forl (dir_offsets 0 (i_size d)) (lookup_body dp (i_dev d) name) tt ;;
  match r with inl _ => ret None | inr x => ret (Some x) end.

(** The body of the loop of [dirlink], which looks for a free entry. *)
Definition slot_body (dp : nat) (off : Z) (_ : unit) : M kstate (unit + Z) :=
  de <- read_dirent dp off "dirlink read" ;;
  if de_inum de =? 0 then ret (inr off) else ret (inl tt).

Definition dirlink (dp : nat) (name : list Z) (inum : Z) : M kstate Z :=
  r <- dirlookup dp name ;;
  match r with
  | Some (ip, _) => iput ip ;; ret (-1)
  | None =>
      d <- geti dp ;;
      r <- forl (dir_offsets 0 (i_size d)) (slot_body dp) tt ;;
      let off := match r with
                 | inr off => off
                 | inl _ => DIRENT * ((i_size d + DIRENT - 1) / DIRENT)
                 end in
      let de := le_bytes 2 inum ++ arr_strncpy (replicate (Z.to_nat DIRSIZ) 0) name DIRSIZ in
      r <- writei dp (SLocal de) off DIRENT ;;
      if negb (r =? DIRENT) then ret (-1) else ret 0
  end.

(** The body of the loop of [namex]: one element of the path. *)
Definition walk_body (nameiparent : bool) (st : nat * list Z * list Z) : M kstate (nat * list Z * list Z + option nat * list Z) :=
  let '(ip, path, name) := st in
  match skipelem path name with
  | None =>
      if (nameiparent : bool) then iput ip ;; ret (inr (None, name))
      else ret (inr (Some ip, name))
  | Some (path, name) =>
      ilock (Some ip) ;;
      d <- geti ip ;;
      if negb (i_type d =? T_DIR) then iunlockput ip ;; ret (inr (None, name)) else
      if nameiparent && bool_decide (path = []) then
        iunlock (Some ip) ;; ret (inr (Some ip, name))
      else
      r <- dirlookup ip name ;;
      match r with
      | None => iunlockput ip ;; ret (inr (None, name))
      | Some (next, _) => iunlockput ip ;; ret (inl (next, path, name))
      end
  end.

(** One path element per iteration, and one to find there is no more. *)
Definition namex (path : list Z) (nameiparent : bool) (name : list Z)
  : M kstate (option nat * list Z) :=
  ip <- (if bool_decide (path !! 0%nat = Some SLASH)
         then i <- iget ROOTDEV ROOTINO ;; ret (Some i)
         else p <- lift curproc ;; q <- lift (getp p) ;; idup (p_cwd q)) ;;
  match ip with
  | None => panic "null dereference"
  | Some ip => loop (S (length path)) (walk_body nameiparent) (ip, path, name)
  end.

Definition no_name : list Z := replicate (Z.to_nat DIRSIZ) 0.

Definition namei (path : list Z) : M kstate (option nat) :=
  r <- namex path false no_name ;; ret (fst r).

Definition nameiparent (path name : list Z) : M kstate (option nat * list Z) :=
  namex path true name.
End Dir.

(** * Path names *)

(** The elements of a path: its longest parts without a slash that are not
    empty. *)
Definition split_path (path : list Z) : list (list Z) :=
  foldr (fun c ws => if c =? SLASH then [] :: ws
                     else match ws with w :: ws' => (c :: w) :: ws' | [] => [[c]] end) [[]] path.
Definition elements (path : list Z) : list (list Z) := filter (fun w => w <> []) (split_path path).

(** The name array as a string: the characters before the NUL, if there is one. *)
Fixpoint name_string (name : list Z) : list Z :=
  match name with
  | c :: name' => if c =? 0 then [] else c :: name_string name'
  | [] => []
  end.

(** The names that the loop of [namex] looks up, one [skipelem] at a time. *)
Fixpoint walk_names (fuel : nat) (path name : list Z) : option (list (list Z)) :=
  match fuel with
  | O => None
  | S fuel' =>
      match skipelem path name with
      | None => Some []
      | Some (path', name') => cons (name_string name') <$> walk_names fuel' path' name'
      end
  end.

Lemma elements_slash c path : c = SLASH -> elements (c :: path) = elements path.
Proof.
  intros ->. unfold elements. change (split_path (SLASH :: path)) with ([] :: split_path path).
  rewrite filter_cons_False; naive_solver.
Qed.

Lemma elements_skip path : elements (skip_slashes path) = elements path.
Proof.
  induction path as [|c path IH]; [done|]. cbn [skip_slashes].
  destruct (Z.eqb_spec c SLASH) as [E|]; [|done]. by rewrite IH, elements_slash.
Qed.

Lemma skip_length path : (length (skip_slashes path) <= length path)%nat.
Proof. induction path as [|c path IH]; [done|]. cbn. destruct (_ =? _); cbn; lia. Qed.

Lemma skip_head path c path' : skip_slashes path = c :: path' -> c <> SLASH.
Proof.
  induction path as [|d path IH]; [done|]. cbn. destruct (Z.eqb_spec d SLASH); [done|]. by intros [= -> _].
Qed.

Lemma split_elem_app path : path = (split_elem path).1 ++ (split_elem path).2.
Proof.
  induction path as [|c path IH]; [done|]. cbn. destruct (_ =? _); [done|].
  destruct (split_elem path) as [e r]. cbn in *. by f_equal.
Qed.

Lemma split_path_elem path : let (e, r) := split_elem path in
  exists ws, split_path path = e :: ws /\ filter (fun w => w <> []) ws = elements r.
Proof.
  induction path as [|c path IH]; [by exists []|]. cbn [split_elem split_path foldr]. fold (split_path path).
  destruct (Z.eqb_spec c SLASH) as [E|E].
  - exists (split_path path). split; [done|]. by rewrite elements_slash.
  - destruct (split_elem path) as [e r]. destruct IH as (ws & -> & Hw). by exists ws.
Qed.

Lemma elements_elem path e r :
  split_elem path = (e, r) -> e <> [] -> elements path = e :: elements r.
Proof.
  intros E He. pose proof (split_path_elem path) as H. rewrite E in H. destruct H as (ws & H1 & H2).
  unfold elements at 1. by rewrite H1, filter_cons_True, H2.
Qed.

Lemma name_string_nul s t : 0 ∉ s -> name_string (s ++ 0 :: t) = s.
Proof.
  induction s as [|c s IH]; intros H; [done|]. cbn. apply not_elem_of_cons in H as [H1 H2].
  rewrite (proj2 (Z.eqb_neq c 0)) by done. by rewrite IH.
Qed.

Lemma name_string_full s : 0 ∉ s -> name_string s = s.
Proof.
  induction s as [|c s IH]; intros H; [done|]. cbn. apply not_elem_of_cons in H as [H1 H2].
  rewrite (proj2 (Z.eqb_neq c 0)) by done. by rewrite IH.
Qed.

(** What [skipelem] leaves in the name array. *)
Lemma skipelem_name s name :
  length name = Z.to_nat DIRSIZ -> 0 ∉ s ->
  let name' := if DIRSIZ <=? Z.of_nat (length s) then put_bytes 0 (take (Z.to_nat DIRSIZ) s) name
               else put_bytes 0 (s ++ [0]) name in
  length name' = Z.to_nat DIRSIZ /\ name_string name' = take (Z.to_nat DIRSIZ) s.
Proof.
  intros Hn Hs. change DIRSIZ with 14 in *. destruct (Z.leb_spec 14 (Z.of_nat (length s))).
  - assert (length (take (Z.to_nat 14) s) = 14%nat) as El by (rewrite length_take; lia).
    split; [rewrite length_put_bytes; lia|]. unfold put_bytes. rewrite El, drop_ge, app_nil_r by lia. cbn [take app].
    apply name_string_full. intros H'. by apply Hs, (subseteq_take (Z.to_nat 14)).
  - split; [rewrite length_put_bytes; rewrite ?length_app; cbn; lia|]. unfold put_bytes. cbn [take app].
    rewrite <- app_assoc, take_0, app_nil_l, take_ge by lia. by apply name_string_nul.
Qed.

(** One step of the path: what is left is shorter. *)
Lemma skipelem_spec path name :
  length name = Z.to_nat DIRSIZ -> 0 ∉ path ->
  match skipelem path name with
  | None => elements path = []
  | Some (path', name') => (length path' < length path)%nat /\ length name' = Z.to_nat DIRSIZ /\
      (0 ∉ path') /\ exists e, elements path = e :: elements path' /\ name_string name' = take (Z.to_nat DIRSIZ) e
  end.
Proof.
  intros Hn Hp. unfold skipelem. rewrite <- (elements_skip path). pose proof (skip_length path) as Hl.
  assert (forall p, 0 ∉ p -> 0 ∉ skip_slashes p) as Hz.
  { intros p H. induction p as [|c p IH]; [done|]. cbn. apply not_elem_of_cons in H as H'. destruct (_ =? _); naive_solver. }
  destruct (skip_slashes path) as [|c p] eqn:E; [by rewrite bool_decide_eq_true_2|].
  rewrite bool_decide_eq_false_2 by done. pose proof (skip_head _ _ _ E) as Hc.
  pose proof (split_elem_app (c :: p)) as Ha. destruct (split_elem (c :: p)) as [s r] eqn:Es. cbn in Ha.
  assert (s <> []) as Hne. { cbn in Es. rewrite (proj2 (Z.eqb_neq c SLASH) Hc) in Es. destruct (split_elem p). by injection Es as <- _. }
  assert ((0 ∉ s) /\ (0 ∉ r)) as [Hs Hr]. { apply not_elem_of_app. rewrite <- Ha, <- E. by apply Hz. }
  destruct (skipelem_name s name Hn Hs) as [N1 N2]. split; [|split; [done|split; [by apply Hz|]]].
  - pose proof (skip_length r). apply (f_equal length) in Ha. rewrite length_app in Ha. cbn in *. destruct s; [done|]. cbn in Ha. lia.
  - exists s. split; [|done]. rewrite elements_skip. by apply elements_elem.
Qed.

(** Resolving a path ends: the loop of [namex] takes at most one
    iteration per character of the path and one more, and the names it looks
    up are the elements of the path in order, repeated, leading and trailing
    slashes skipped, each cut to the DIRSIZ characters a directory entry has
    room for. *)
Theorem path_walk_terminates path name
  (Hn : length name = Z.to_nat DIRSIZ) (Hp : 0 ∉ path) :
  walk_names (S (length path)) path name = Some (take (Z.to_nat DIRSIZ) <$> elements path).
Proof.
  assert (forall fuel, (length path < fuel)%nat ->
    walk_names fuel path name = Some (take (Z.to_nat DIRSIZ) <$> elements path)) as H; [|apply H; lia].
  intros fuel. revert path name Hn Hp. induction fuel as [|fuel IH]; intros path name Hn Hp Hf; [lia|].
  cbn [walk_names]. pose proof (skipelem_spec path name Hn Hp) as H.
  destruct (skipelem path name) as [[path' name']|]; [|by rewrite H].
  destruct H as (H1 & H2 & H3 & e & -> & ->). rewrite IH by (done || lia). done.
Qed.

(** ["//ab//abcdefghijklmno"], in character codes. *)
Lemma path_walk_terminates_witness :
  walk_names 22 [47; 47; 97; 98; 47; 47; 97; 98; 99; 100; 101; 102; 103; 104; 105; 106; 107; 108; 109; 110; 111]
    no_name = Some [[97; 98]; [97; 98; 99; 100; 101; 102; 103; 104; 105; 106; 107; 108; 109; 110]].
Proof.
  apply (path_walk_terminates
    [47; 47; 97; 98; 47; 47; 97; 98; 99; 100; 101; 102; 103; 104; 105; 106; 107; 108; 109; 110; 111] no_name).
  - reflexivity.
  - refine (bool_decide_eq_true_1 _ _). reflexivity.
Defined.
