(* ===== verification/Dirent.v ===== *)
(** Directories as tables of names: [dirlookup] and [dirlink] of kernel/fs.c
    over the content of a directory.

    Entry [k] of a directory is the 16 bytes at offset [16 * k] of its content;
    an entry whose inode number is 0 is free.  [dir_find] is the table's lookup:
    the first entry in use with the name.  A new name goes to a free entry, to
    the end, or into a block the directory gets for it. *)
From S2P Require Import Prelude Riscv Spinlock Memory Bytes Kstring Kalloc Vm Proc Switch Sleeplock UserMem Kstate Bio Cache Log Crash Fs Txn Fileio Itable Dir.

(** [inside_range b]: the range test of the goal has the value [b]. *)
Ltac inside_range b :=
  match goal with |- context [(?x <=? ?y) && (?z <? ?w)] =>
    replace ((x <=? y) && (z <? w)) with b by (zbool; done)
  end.

(** * Comparing names *)

Lemma bytes_at_S ram p n : bytes_at ram p (S n) = rd8 ram p :: bytes_at ram (p + 1) n.
Proof.
  unfold bytes_at. cbn [seq fmap list_fmap]. rewrite Z.add_0_r. f_equal.
  rewrite <- fmap_S_seq, <- list_fmap_compose. apply list_fmap_ext. intros i x _. cbn. f_equal. lia.
Qed.

Lemma strncmp_bytes n ram p q :
  strncmp ram p q (Z.of_nat n) = 0 <-> name_string (bytes_at ram p n) = name_string (bytes_at ram q n).
Proof.
  unfold strncmp. rewrite Nat2Z.id. revert p q. induction n as [|n IH]; intros p q; [done|].
  rewrite !bytes_at_S. cbn [strncmp_loop name_string].
  destruct (Z.eqb_spec (rd8 ram p) 0) as [Ep|Ep]; cbn [negb andb].
  - rewrite Ep. destruct (Z.eqb_spec (rd8 ram q) 0) as [Eq|Eq]; [by rewrite Eq|]. split; [lia|done].
  - destruct (Z.eqb_spec (rd8 ram p) (rd8 ram q)) as [E|E].
    + rewrite IH, <- E, (proj2 (Z.eqb_neq _ 0)) by done. split; [by intros ->|by intros [= ?]].
    + destruct (Z.eqb_spec (rd8 ram q) 0) as [Eq|Eq]; (split; [lia|]); [done|]. by intros [= ?].
Qed.

Lemma bytes_at_arr a bs ram :
  all_bytes bs -> bytes_at (arr_mem a bs ram) a (length bs) = bs.
Proof.
  intros Hb. apply list_eq_same_length with (length bs); [done|by unfold bytes_at; rewrite length_fmap, length_seq|].
  intros i x y Hi. unfold bytes_at. rewrite list_lookup_fmap, lookup_seq_lt by done. intros [= <-] Hy. cbn [Nat.add].
  rewrite rd8_arr_mem. inside_range true. replace (Z.to_nat _) with i by lia.
  rewrite (list_lookup_total_correct _ _ _ Hy). apply u8_id. unfold all_bytes in Hb.
  rewrite Forall_lookup in Hb. by apply (Hb i).
Qed.

Lemma bytes_at_ext ram ram' a n : same_bytes (Z.of_nat n) a ram ram' -> bytes_at ram' a n = bytes_at ram a n.
Proof. intros H. apply list_fmap_ext. intros i x [-> Hi]%lookup_seq. apply H. lia. Qed.

(** A name array of a directory entry or of a caller. *)
Definition name_ok (name : list Z) : Prop := length name = Z.to_nat DIRSIZ /\ all_bytes name.

Lemma namecmp_zero a b : name_ok a -> name_ok b -> namecmp a b = 0 <-> name_string a = name_string b.
Proof.
  intros [La Ba] [Lb Bb]. unfold namecmp, arr_strncmp. change DIRSIZ with (Z.of_nat 14) in *. rewrite Nat2Z.id in *.
  rewrite strncmp_bytes, La.
  pose proof (bytes_at_arr 0 a (arr_mem (Z.of_nat 14) b ∅) Ba) as Ea. rewrite La in Ea. rewrite Ea.
  pose proof (bytes_at_arr (Z.of_nat 14) b ∅ Bb) as Eb. rewrite Lb in Eb.
  rewrite (bytes_at_ext (arr_mem (Z.of_nat 14) b ∅)); [by rewrite Eb|].
  intros x Hx. rewrite rd8_arr_mem, La. change (Z.of_nat 14) with 14 in *. by inside_range false.
Qed.

(** [strncpy] into a cleared name field keeps the name. *)
Lemma name_string_cstring name a ram :
  all_bytes name -> (forall x, a + Z.of_nat (length name) <= x -> rd8 ram x = 0) ->
  cstring (arr_mem a name ram) a (name_string name).
Proof.
  revert a ram. induction name as [|c name IH]; intros a ram Hb Hz.
  - split; [done|]. apply Hz. cbn. lia.
  - unfold all_bytes in Hb. apply Forall_cons in Hb as [Hc Hb]. cbn [name_string].
    assert (rd8 (arr_mem a (c :: name) ram) a = c) as E0.
    { rewrite rd8_arr_mem. cbn [length]. inside_range true. rewrite Z.sub_diag. by apply u8_id. }
    destruct (Z.eqb_spec c 0) as [->|Hne].
    + split; [done|]. change (Z.of_nat (length [])) with 0. by rewrite Z.add_0_r.
    + apply cstring_cons. split; [done|]. split; [done|].
      apply (cstring_ext (arr_mem (a + 1) name ram)); [|apply IH; [done|intros x Hx; apply Hz; cbn; lia]].
      intros x Hx. rewrite !rd8_arr_mem. cbn [length].
      destruct ((a + 1 <=? x) && (x <? a + 1 + Z.of_nat (length name))) eqn:E.
      * inside_range true. replace (Z.to_nat (x - a)) with (S (Z.to_nat (x - (a + 1)))) by lia. done.
      * by inside_range false.
Qed.

Lemma name_string_le name : (length (name_string name) <= length name)%nat.
Proof. induction name as [|c name IH]; [done|]. cbn. destruct (c =? 0); cbn; lia. Qed.

Lemma name_string_lookup name i c :
  name_string name !! i = Some c -> name !! i = Some c /\ c <> 0.
Proof.
  revert i. induction name as [|d name IH]; intros i; [done|]. cbn [name_string].
  destruct (Z.eqb_spec d 0); [done|]. destruct i as [|i]; cbn; [by intros [= <-]|apply IH].
Qed.

(** The name field [dirlink] writes. *)
Definition name_field (name : list Z) : list Z := arr_strncpy (replicate (Z.to_nat DIRSIZ) 0) name DIRSIZ.

Lemma name_field_spec name :
  name_ok name -> name_field name = name_string name ++ replicate (Z.to_nat DIRSIZ - length (name_string name)) 0.
Proof.
  intros [Hl Hb]. unfold name_field, arr_strncpy. rewrite length_replicate. change DIRSIZ with 14 in *.
  set (ram := arr_mem 0 (replicate (Z.to_nat 14) 0) (arr_mem (Z.of_nat (Z.to_nat 14)) name ∅)).
  pose proof (name_string_le name) as Hle.
  assert (forall x, 14 <= x -> rd8 ram x = rd8 (arr_mem 14 name ∅) x) as Hx.
  { intros x Hx. unfold ram. rewrite rd8_arr_mem, length_replicate. by inside_range false. }
  assert (cstring ram 14 (name_string name)) as Hc.
  { apply (cstring_ext (arr_mem 14 name ∅)); [intros x ?; apply Hx; lia|]. apply name_string_cstring; done. }
  assert (bytes_ok ram) as Hok by (do 2 apply bytes_ok_arr_mem; apply bytes_ok_empty).
  apply list_eq_same_length with (Z.to_nat 14);
    [rewrite length_app, length_replicate; lia|by rewrite length_fmap, length_seq|].
  intros i x y Hi. rewrite list_lookup_fmap, lookup_seq_lt by done. intros [= <-] Hy. cbn [Nat.add].
  rewrite (strncpy_correct ram 0 (Z.of_nat (Z.to_nat 14)) 14 (name_string name)) by (done || lia).
  inside_range true. destruct (Z.ltb_spec (Z.of_nat i) (0 + Z.of_nat (length (name_string name)))).
  - rewrite lookup_app_l in Hy by lia. apply name_string_lookup in Hy as [Hy _].
    rewrite Hx, rd8_arr_mem by lia. inside_range true. replace (Z.to_nat _) with i by lia.
    rewrite (list_lookup_total_correct _ _ _ Hy). apply u8_id. unfold all_bytes in Hb. rewrite Forall_lookup in Hb. by apply (Hb i).
  - rewrite lookup_app_r in Hy by lia. by apply lookup_replicate in Hy as [-> _].
Qed.

Lemma name_field_ok name : name_ok name -> name_ok (name_field name) /\ name_string (name_field name) = name_string name.
Proof.
  intros Hn. pose proof Hn as [Hl Hb]. rewrite name_field_spec by done. pose proof (name_string_le name) as Hle.
  assert (0 ∉ name_string name) as H0.
  { intros H. apply list_elem_of_lookup_1 in H as [i Hi]. by apply name_string_lookup in Hi as [_ ?]. }
  split; [split|].
  - rewrite length_app, length_replicate. change DIRSIZ with 14 in *. lia.
  - apply Forall_app. split; [|by apply Forall_replicate].
    apply Forall_lookup. intros i c Hc. apply name_string_lookup in Hc as [Hc _].
    unfold all_bytes in Hb. rewrite Forall_lookup in Hb. by apply (Hb i).
  - destruct (Z.to_nat DIRSIZ - length (name_string name))%nat; [rewrite app_nil_r; by apply name_string_full|].
    by apply name_string_nul.
Qed.

(** * The entries of a directory *)

Definition entry (v : Z -> list Z) (ip : inode) (k : nat) : list Z :=
  file_bytes v ip (DIRENT * Z.of_nat k) DIRENT.

(** The entry is in use and has the name. *)
Definition named (name de : list Z) : bool :=
  negb (de_inum de =? 0) && bool_decide (name_string name = name_string (de_name de)).

Definition dir_find (v : Z -> list Z) (ip : inode) (name : list Z) (n : nat) : option nat :=
  List.find (fun k => named name (entry v ip k)) (seq 0 n).

(** [ip] is a directory of [n] entries, its first [nb] blocks are there. *)
Record directory (v : Z -> list Z) (ip : inode) (n : nat) (nb : Z) : Prop := {
  dr_type : i_type ip = T_DIR;
  dr_size : i_size ip = DIRENT * Z.of_nat n;
  dr_map : mapped v ip nb;
  dr_fit : DIRENT * Z.of_nat n <= nb * BSIZE;
  dr_bytes : forall k, 0 <= k < nb * BSIZE -> 0 <= file_byte v ip k < 256 }.

Lemma file_bytes_all v ip n nb off len :
  directory v ip n nb -> 0 <= off -> off + len <= nb * BSIZE -> all_bytes (file_bytes v ip off len).
Proof.
  intros D Ho Hl. apply Forall_lookup. intros i x. unfold file_bytes. rewrite list_lookup_fmap.
  destruct (decide (i < Z.to_nat len)%nat) as [Hi|Hi]; [|by rewrite lookup_seq_ge by lia].
  rewrite lookup_seq_lt by done. intros [= <-]. apply (dr_bytes _ _ _ _ D). lia.
Qed.

Lemma entry_name v ip n nb k : directory v ip n nb -> (k < n)%nat -> name_ok (de_name (entry v ip k)).
Proof.
  intros D Hk. pose proof (dr_fit _ _ _ _ D) as Hf. unfold DIRENT in Hf. split.
  - unfold de_name, sub_bytes. rewrite length_take, length_drop. unfold entry. rewrite file_bytes_length. done.
  - unfold de_name, sub_bytes. apply Forall_take, Forall_drop.
    apply (file_bytes_all v ip n nb); [done|unfold DIRENT; lia|unfold DIRENT; lia].
Qed.

Lemma offsets_all size n : size = DIRENT * Z.of_nat n -> dir_offsets 0 size = (fun k => DIRENT * Z.of_nat k) <$> seq 0 n.
Proof.
  intros ->. unfold dir_offsets, DIRENT. do 2 f_equal.
  replace ((16 * Z.of_nat n + 16 - 1) / 16) with (Z.of_nat n); [lia|].
  apply Z.div_unique with 15; lia.
Qed.

(** * dirlookup *)

Section Lookup.
Context `{W : WaitBound} `{D : DiskDriver} `{Dok : !DiskOk}.
Context (me : nat) (dev : Z).
Context (dp : nat) (v : Z -> list Z) (ip : inode) (n : nat) (nb : Z).
Context (Dir : directory v ip n nb) (Hdev : i_dev ip = dev).
Implicit Types s : kstate.

(** What the loops over a directory keep. *)
Record scanning (s : kstate) : Prop := {
  sc_txn : txn me dev v [] s;
  sc_log : lg_n (k_log s) < Z.of_nat NBUF;
  sc_ip : k_itable s !!! dp = ip }.

Lemma scanning_unmoved s s' : scanning s -> txn me dev v [] s' -> unmoved s s' -> scanning s'.
Proof using Type.
  intros [H1 H2 H3] Ht Hu. split; [done| |by rewrite (unmoved_itable _ _ Hu)]. by destruct Hu as [-> _].
Qed.

Lemma read_dirent_txn s k msg :
  scanning s -> (k < n)%nat ->
  exists s', read_dirent dp (DIRENT * Z.of_nat k) msg s = Ret (entry v ip k) s' /\ scanning s' /\ unmoved s s'.
Proof using Dok Dir Hdev.
  intros S Hk. pose proof S as [Ht Hlg Hip]. pose proof Dir as [D1 D2 D3 D4 D5].
  pose proof (mp_max _ _ _ D3) as Hmax. assert (nb * BSIZE <= MAXFILE * BSIZE) as Hnb by (by apply Z.mul_le_mono_nonneg_r).
  change (MAXFILE * BSIZE) with 274432 in Hnb. unfold DIRENT in *.
  destruct (readi_txn v s dp (16 * Z.of_nat k) 16 nb Ht Hlg) as (s' & E & T & Q); rewrite ?Hip; [done..|lia|lia|lia|].
  exists s'. split; [|split; [by apply (scanning_unmoved s)|done]].
  rewrite Hip in E. rewrite D2 in E.
  rewrite (proj2 (Z.ltb_ge _ (16 * Z.of_nat k))), (proj2 (Z.leb_gt _ (16 * Z.of_nat k + 16))) in E by lia. cbn [orb] in E.
  rewrite Z.min_l in E by lia. unfold read_dirent, DIRENT. by kstep E.
Qed.

Lemma lookup_step name s k :
  scanning s -> (k < n)%nat -> name_ok name ->
  exists s', scanning s' /\ unmoved s s' /\
    if named name (entry v ip k)
    then forall i s2, iget dev (de_inum (entry v ip k)) s' = Ret i s2 ->
      lookup_body dp dev name (DIRENT * Z.of_nat k) tt s = Ret (inr (i, DIRENT * Z.of_nat k)) s2
    else lookup_body dp dev name (DIRENT * Z.of_nat k) tt s = Ret (inl tt) s'.
Proof using Dok Dir Hdev.
  intros S Hk Hn. destruct (read_dirent_txn s k "dirlookup read" S Hk) as (s' & E & S' & Q).
  exists s'. split; [done|]. split; [done|]. pose proof (namecmp_zero name _ Hn (entry_name v ip n nb k Dir Hk)) as Hcmp.
  unfold named. destruct (de_inum (entry v ip k) =? 0) eqn:E0; cbn [negb andb].
  { unfold lookup_body. kstep E. by rewrite E0. }
  case_bool_decide as Hs.
  - intros i s2 Ei. unfold lookup_body. kstep E. rewrite E0, (proj2 (Z.eqb_eq _ 0)) by by apply Hcmp.
    by kstep Ei.
  - unfold lookup_body. kstep E. rewrite E0, (proj2 (Z.eqb_neq _ 0)); [done|]. by rewrite Hcmp.
Qed.

Lemma lookup_loop name s m k0 :
  scanning s -> (k0 + m <= n)%nat -> name_ok name ->
  exists s', scanning s' /\ unmoved s s' /\
    match List.find (fun k => named name (entry v ip k)) (seq k0 m) with
    | Some k => forall i s2, iget dev (de_inum (entry v ip k)) s' = Ret i s2 ->
        forl ((fun k => DIRENT * Z.of_nat k) <$> seq k0 m) (lookup_body dp dev name) tt s =
          Ret (inr (i, DIRENT * Z.of_nat k)) s2
    | None => forl ((fun k => DIRENT * Z.of_nat k) <$> seq k0 m) (lookup_body dp dev name) tt s = Ret (inl tt) s'
    end.
Proof using Dok Dir Hdev.
  revert s k0. induction m as [|m IH]; intros s k0 S Hm Hn; [by exists s|]. cbn [seq List.find fmap list_fmap].
  destruct (lookup_step name s k0 S ltac:(lia) Hn) as (s1 & S1 & Q1 & H1).
  destruct (named name (entry v ip k0)).
  - exists s1. split; [done|]. split; [done|]. intros i s2 Ei. apply forl_exit. by apply H1.
  - destruct (IH s1 (Datatypes.S k0) S1 ltac:(lia) Hn) as (s2 & S2 & Q2 & H2). exists s2. split; [done|].
    split; [by apply (unmoved_trans _ s1)|]. rewrite (forl_next _ _ _ _ _ _ _ H1). exact H2.
Qed.

Lemma dirlookup_eq name s : scanning s ->
  dirlookup dp name s = (r <- forl (dir_offsets 0 (i_size ip)) (lookup_body dp dev name) tt ;;
    match r with inl _ => ret None | inr x => ret (Some x) end) s.
Proof using Dir Hdev.
  intros [_ _ Hip]. unfold dirlookup. kstep eq_refl. rewrite Hip, (dr_type _ _ _ _ Dir), Hdev. reflexivity.
Qed.

Lemma dirlookup_txn name s :
  scanning s -> name_ok name ->
  exists s', scanning s' /\ unmoved s s' /\
    match dir_find v ip name n with
    | Some k => forall i s2, iget dev (de_inum (entry v ip k)) s' = Ret i s2 ->
        dirlookup dp name s = Ret (Some (i, DIRENT * Z.of_nat k)) s2
    | None => dirlookup dp name s = Ret None s'
    end.
Proof using Dok Dir Hdev.
  intros S Hn. destruct (lookup_loop name s n 0 S ltac:(lia) Hn) as (s' & S' & Q & H).
  exists s'. split; [done|]. split; [done|].
  rewrite dirlookup_eq, (offsets_all _ n) by (done || apply Dir). unfold dir_find.
  destruct (List.find _ _) as [k|]; [|by kstep H].
  intros i s2 Ei. by kstep (H i s2 Ei).
Qed.
End Lookup.

(** * dirlink *)

Section Link.
Context `{W : WaitBound} `{D : DiskDriver} `{Dok : !DiskOk}.
Context (me : nat) (dev : Z).
Context (dp : nat) (v : Z -> list Z) (ip : inode) (n : nat) (nb : Z).
Context (Dir : directory v ip n nb) (Hdev : i_dev ip = dev).
Implicit Types s : kstate.
Abbreviation scan := (scanning me dev dp v ip).

(** Where a new entry goes: the first free entry, or the end. *)
Definition dir_slot : nat := default n (List.find (fun k => de_inum (entry v ip k) =? 0) (seq 0 n)).

Lemma slot_loop s m k0 :
  scan s -> (k0 + m <= n)%nat ->
  exists s', scan s' /\ unmoved s s' /\
    forl ((fun k => DIRENT * Z.of_nat k) <$> seq k0 m) (slot_body dp) tt s =
      Ret (match List.find (fun k => de_inum (entry v ip k) =? 0) (seq k0 m) with
           | Some k => inr (DIRENT * Z.of_nat k) | None => inl tt end) s'.
Proof using Dok Dir Hdev.
  revert s k0. induction m as [|m IH]; intros s k0 S Hm; [by exists s|]. cbn [seq List.find fmap list_fmap].
  destruct (read_dirent_txn me dev dp v ip n nb Dir Hdev s k0 "dirlink read" S ltac:(lia)) as (s1 & E1 & S1 & Q1).
  destruct (de_inum (entry v ip k0) =? 0) eqn:E0.
  - exists s1. split; [done|]. split; [done|]. apply forl_exit. unfold slot_body. kstep E1. by rewrite E0.
  - destruct (IH s1 (Datatypes.S k0) S1 ltac:(lia)) as (s2 & S2 & Q2 & H2). exists s2. split; [done|].
    split; [by apply (unmoved_trans _ s1)|].
    erewrite forl_next; [exact H2|]. unfold slot_body. kstep E1. by rewrite E0.
Qed.

Lemma dir_slot_le : (dir_slot <= n)%nat.
Proof using Type.
  unfold dir_slot. destruct (List.find _ _) as [k|] eqn:E; [|done]. apply List.find_some in E as [Hin _].
  apply List.in_seq in Hin. cbn. lia.
Qed.

Lemma dir_slot_free k : k = dir_slot -> (k < n)%nat -> de_inum (entry v ip k) = 0.
Proof using Type.
  intros -> Hk. unfold dir_slot in *. destruct (List.find _ _) as [k|] eqn:E; cbn in *; [|lia].
  apply List.find_some in E as [_ E]. by apply Z.eqb_eq.
Qed.

(** The offset [dirlink] writes at. *)
Lemma slot_txn s :
  scan s -> exists s' r, scan s' /\ unmoved s s' /\ forl (dir_offsets 0 (i_size ip)) (slot_body dp) tt s = Ret r s' /\
    match r with inr off => off | inl _ => DIRENT * ((i_size ip + DIRENT - 1) / DIRENT) end = DIRENT * Z.of_nat dir_slot.
Proof using Dok Dir Hdev.
  intros S. destruct (slot_loop s n 0 S ltac:(lia)) as (s' & S' & Q & H). eexists s', _. split; [done|]. split; [done|].
  rewrite (offsets_all _ n) by apply Dir. split; [exact H|]. unfold dir_slot.
  destruct (List.find _ _) as [k|]; [done|]. rewrite (dr_size _ _ _ _ Dir). unfold DIRENT. cbn [default].
  replace ((16 * Z.of_nat n + 16 - 1) / 16) with (Z.of_nat n); [done|]. apply Z.div_unique with 15; lia.
Qed.

Definition new_entry (name : list Z) (inum : Z) : list Z := le_bytes 2 inum ++ name_field name.

Lemma new_entry_spec name inum :
  name_ok name -> 0 <= inum < 2 ^ 16 ->
  length (new_entry name inum) = 16%nat /\ all_bytes (new_entry name inum) /\
  de_inum (new_entry name inum) = inum /\ de_name (new_entry name inum) = name_field name.
Proof using Type.
  intros Hn Hi. destruct (name_field_ok name Hn) as [[Hl Hb] _]. change DIRSIZ with 14 in Hl. unfold new_entry.
  assert (length (le_bytes 2 inum) = 2%nat) as H2 by apply length_le_bytes.
  split; [rewrite length_app; lia|]. split; [apply Forall_app; split; [apply le_bytes_all|done]|]. split.
  - unfold de_inum, get_le, sub_bytes. rewrite drop_0, take_app_length' by done.
    rewrite le_val_le_bytes. by apply Z.mod_small.
  - unfold de_name, sub_bytes. rewrite drop_app_length' by done. apply take_ge. lia.
Qed.

(** Up to the write: the name is not there, and the slot is found. *)
Lemma dirlink_scan name inum s :
  scan s -> name_ok name -> dir_find v ip name n = None ->
  exists s2, scan s2 /\ unmoved s s2 /\
    dirlink dp name inum s =
      (r <- writei dp (SLocal (new_entry name inum)) (DIRENT * Z.of_nat dir_slot) DIRENT ;;
       if negb (r =? DIRENT) then ret (-1) else ret 0) s2.
Proof using Dok Dir Hdev.
  intros S Hn Hf. destruct (dirlookup_txn me dev dp v ip n nb Dir Hdev name s S Hn) as (s1 & S1 & Q1 & E1). rewrite Hf in E1.
  destruct (slot_txn s1 S1) as (s2 & r & S2 & Q2 & E2 & Er). exists s2. split; [done|]. split; [by apply (unmoved_trans _ s1)|].
  unfold dirlink. kstep E1. cbv beta iota. kstep eq_refl. rewrite (sc_ip _ _ _ _ _ _ S1).
  kstep E2. cbn zeta. rewrite Er. done.
Qed.

(** A name that is there: its inode is looked up and put back. *)
Lemma dirlink_found name inum s k :
  scan s -> name_ok name -> dir_find v ip name n = Some k ->
  table_ok (k_itable s) -> lock_free ItableLock (khw s) -> (exists i, (i < NINODE)%nat /\ i_ref (k_itable s !!! i) = 0) ->
  exists s', dirlink dp name inum s = Ret (-1) s' /\ txn me dev v [] s' /\
    forall j, i_ref (k_itable s' !!! j) = i_ref (k_itable s !!! j) /\
      (i_ref (k_itable s !!! j) <> 0 -> k_itable s' !!! j = k_itable s !!! j).
Proof using Dok Dir Hdev.
  intros S Hn Hf Hok Hlk Hroom. destruct (dirlookup_txn me dev dp v ip n nb Dir Hdev name s S Hn) as (s1 & S1 & Q1 & E1). rewrite Hf in E1.
  pose proof (unmoved_itable _ _ Q1) as Eit. pose proof (txn_calm _ _ _ (sc_txn _ _ _ _ _ _ S1)) as Hc.
  assert (lock_free ItableLock (khw s1)) as Hlk1 by (destruct Q1 as [_ Q1]; by destruct (outer_parts _ _ Q1) as (-> & _)).
  pose proof (iget_eq me dev (de_inum (entry v ip k)) s1 Hc Hlk1) as Eg. rewrite Eit in Eg.
  set (dec := fun ip => set_i_ref (i_ref ip - 1) ip).
  assert (forall i f, (i < NINODE)%nat -> iget dev (de_inum (entry v ip k)) s1 = Ret i (updi i f s1) ->
    last_unlinked (f (k_itable s !!! i)) = false -> i_ref (dec (f (k_itable s !!! i))) = i_ref (k_itable s !!! i) ->
    (i_ref (k_itable s !!! i) <> 0 -> dec (f (k_itable s !!! i)) = k_itable s !!! i) ->
    exists s', dirlink dp name inum s = Ret (-1) s' /\ txn me dev v [] s' /\
      forall j, i_ref (k_itable s' !!! j) = i_ref (k_itable s !!! j) /\
        (i_ref (k_itable s !!! j) <> 0 -> k_itable s' !!! j = k_itable s !!! j)) as Hput.
  { intros i f Hi Ei Hl Hr Hs. assert (i < length (k_itable s1))%nat as Hlen by (rewrite Eit, (tb_len _ Hok); done).
    exists (updi i dec (updi i f s1)). split; [|split].
    - unfold dirlink. kstep (E1 i _ Ei). cbv beta iota.
      assert (iput i (updi i f s1) = Ret tt (updi i dec (updi i f s1))) as Ep.
      { apply (iput_eq me); [exact Hc|exact Hlk1|]. cbn [k_itable updi with_k_itable]. by rewrite list_lookup_total_alter_eq, Eit. }
      by kstep Ep.
    - apply txn_itable, txn_itable, S1.
    - intros j. cbn [k_itable updi with_k_itable]. rewrite Prelude.list_alter_alter. destruct (decide (i = j)) as [<-|Hne].
      + rewrite list_lookup_total_alter_eq, Eit by done. auto.
      + rewrite list_lookup_total_alter_ne, Eit by done. auto. }
  destruct (find_entry (refers dev _) _ _) as [i|] eqn:F1.
  - apply find_entry_some in F1 as [Hi (Hp & _)%refers_iff]. apply (Hput i one_more Hi Eg).
    + unfold last_unlinked. cbn. by rewrite (proj2 (Z.eqb_neq _ 1)) by lia.
    + cbn. lia.
    + intros _. unfold dec, one_more. destruct (k_itable s !!! i). unfold set_i_ref. cbn. f_equal. lia.
  - destruct (find_entry unused _ _) as [i|] eqn:F2.
    + apply find_entry_some in F2 as [Hi H0]. apply Z.eqb_eq in H0. apply (Hput i _ Hi Eg); [done|cbn; lia|done].
    + destruct Hroom as (i & Hi & H0). pose proof (find_entry_none _ _ i F2 Hi) as H. by apply Z.eqb_neq in H.
Qed.

Lemma dirlink_txn name inum s :
  let k := dir_slot in let ib := IBLOCK (i_inum ip) (k_sb s) in
  scan s -> name_ok name -> dir_find v ip name n = None -> 0 < inum < 2 ^ 16 ->
  (dp < length (k_itable s))%nat -> apart v ip nb ib -> DIRENT * Z.of_nat (S k) <= nb * BSIZE ->
  lg_n (k_log s) + 3 < Z.of_nat LOGBLOCKS ->
  let ip' := extended (DIRENT * Z.of_nat (S k)) ip in
  exists s' v', dirlink dp name inum s = Ret 0 s' /\ txn me dev v' [] s' /\
    k_itable s' = <[dp := ip']> (k_itable s) /\ mapped v' ip' nb /\
    (forall x, 0 <= x < nb * BSIZE -> file_byte v' ip' x =
       if (DIRENT * Z.of_nat k <=? x) && (x <? DIRENT * Z.of_nat (S k))
       then new_entry name inum !!! Z.to_nat (x - DIRENT * Z.of_nat k) else file_byte v ip x) /\
    (forall x, x <> ib -> (forall bn, 0 <= bn < nb -> x <> file_block v ip bn) -> v' x = v x).
Proof using Dok Dir Hdev.
  intros k ib S Hn Hf Hi Hlen Hap Hfit Hlg ip'. destruct (dirlink_scan name inum s S Hn Hf) as (s2 & S2 & Q & E).
  pose proof S2 as [T2 _ I2].
  assert (k_sb s2 = k_sb s) as Esb by (destruct Q as [_ Q]; by destruct (outer_parts _ _ Q) as (_ & -> & _)).
  destruct (new_entry_spec name inum Hn ltac:(lia)) as (L1 & L2 & _ & _).
  pose proof (dir_slot_le) as Hsl. fold k in Hsl, E.
  assert (DIRENT * Z.of_nat k + DIRENT = DIRENT * Z.of_nat (Datatypes.S k)) as Ek by (unfold DIRENT; lia).
  destruct (writei_bytes me dev v s2 dp (DIRENT * Z.of_nat k) DIRENT nb (new_entry name inum) T2) as
    (s3 & v' & E3 & T3 & Eit & _ & Hm & Hb & Ho); rewrite ?I2, ?Esb; try done.
  - by rewrite (unmoved_itable _ _ Q).
  - apply Dir.
  - rewrite (dr_size _ _ _ _ Dir). unfold DIRENT. lia.
  - by rewrite Ek.
  - destruct Q as [-> _]. unfold DIRENT. change (16 / BSIZE) with 0. lia.
  - rewrite I2, Ek, ?Esb in *. exists s3, v'. split; [rewrite E; by kstep E3|]. split; [done|].
    rewrite (unmoved_itable _ _ Q) in Eit. done.
Qed.

(** A full directory: its entries fill its blocks. *)
Lemma dir_full : nb * BSIZE < DIRENT * Z.of_nat (S dir_slot) -> dir_slot = n /\ DIRENT * Z.of_nat n = nb * BSIZE.
Proof using Dir.
  intros H. pose proof dir_slot_le as Hle. pose proof (dr_fit _ _ _ _ Dir) as Hf. unfold DIRENT in *. change BSIZE with 1024 in *. lia.
Qed.
End Link.

Lemma find_ext {A} (f g : A -> bool) l : (forall x, In x l -> f x = g x) -> List.find f l = List.find g l.
Proof.
  induction l as [|x l IH]; intros H; [done|]. cbn. rewrite (H x) by by left. destruct (g x); [done|].
  apply IH. intros y Hy. apply H. by right.
Qed.

Lemma find_snoc {A} (f : A -> bool) l x : f x = false -> List.find f (l ++ [x]) = List.find f l.
Proof. intros H. induction l as [|y l IH]; cbn; [by rewrite H|]. by destruct (f y). Qed.

Lemma find_first f k m : (forall j, (j < k)%nat -> f j = false) -> f k = true -> (k < m)%nat -> List.find f (seq 0 m) = Some k.
Proof.
  intros H1 H2 Hk. replace m with (k + (1 + (m - k - 1)))%nat by lia. rewrite seq_app, seq_app. cbn [seq Nat.add app].
  assert (forall l, (forall j, In j l -> f j = false) -> List.find f (l ++ k :: seq (k + 1) (m - k - 1)) = Some k) as H.
  { intros l. induction l as [|j l IH]; intros Hl; cbn; [by rewrite H2|]. rewrite (Hl j) by by left. apply IH. intros i Hi. apply Hl. by right. }
  apply H. intros j Hj. apply List.in_seq in Hj. apply H1. lia.
Qed.

(** A directory with entry [k], free or at the end, replaced by [de]. *)
Section Insert.
Context (v v' : Z -> list Z) (ip : inode) (n : nat) (nb : Z) (k : nat) (de : list Z).
Context (Dir : directory v ip n nb) (Hk : k = dir_slot v ip n) (Hfit : DIRENT * Z.of_nat (S k) <= nb * BSIZE).
Context (Hde : length de = 16%nat) (Hall : all_bytes de).
Abbreviation ip' := (extended (DIRENT * Z.of_nat (S k)) ip).
Abbreviation n' := (Nat.max n (S k)).
Context (Hmap : mapped v' ip' nb).
Context (Hb : forall x, 0 <= x < nb * BSIZE -> file_byte v' ip' x =
  if (DIRENT * Z.of_nat k <=? x) && (x <? DIRENT * Z.of_nat (S k))
  then de !!! Z.to_nat (x - DIRENT * Z.of_nat k) else file_byte v ip x).

Lemma insert_entry j : DIRENT * Z.of_nat (S j) <= nb * BSIZE ->
  entry v' ip' j = if decide (j = k) then de else entry v ip j.
Proof using All.
  intros Hj. unfold DIRENT in *.
  assert (forall i, (i < 16)%nat -> file_byte v' ip' (16 * Z.of_nat j + Z.of_nat i) =
    if decide (j = k) then de !!! i else file_byte v ip (16 * Z.of_nat j + Z.of_nat i)) as H.
  { intros i Hi. rewrite Hb by lia. destruct (decide (j = k)) as [->|Hne].
    - inside_range true. f_equal. lia.
    - by inside_range false. }
  unfold entry, file_bytes, DIRENT. destruct (decide (j = k)) as [->|].
  - apply list_eq_same_length with 16%nat; [done|by rewrite length_fmap, length_seq|].
    intros i x y Hi. rewrite list_lookup_fmap, lookup_seq_lt by done. intros [= <-] Hy. cbn [Nat.add].
    rewrite H by done. by apply list_lookup_total_correct.
  - apply list_fmap_ext. intros i x [-> Hi]%lookup_seq. by apply H.
Qed.

Lemma insert_directory : directory v' ip' n' nb.
Proof using All.
  pose proof Dir as [D1 D2 D3 D4 D5]. split.
  - unfold extended. by destruct (_ <? _).
  - rewrite extended_size, D2. unfold DIRENT. lia.
  - done.
  - unfold DIRENT in *. lia.
  - intros x Hx. rewrite Hb by done. destruct (_ && _) eqn:E; [|by apply D5].
    unfold all_bytes in Hall. rewrite Forall_lookup_total in Hall. apply Hall. rewrite Hde.
    apply andb_true_iff in E as [E1%Z.leb_le E2%Z.ltb_lt]. unfold DIRENT in *. lia.
Qed.

Lemma insert_other other :
  named other de = false -> dir_find v' ip' other n' = dir_find v ip other n.
Proof using All.
  intros Hn. pose proof (dir_slot_le v ip n) as Hle. rewrite <- Hk in Hle.
  pose proof (dr_fit _ _ _ _ Dir) as D4. unfold dir_find, DIRENT in *.
  destruct (decide (k < n)%nat) as [Hlt|Hge].
  - replace n' with n by lia. apply find_ext. intros j Hj. apply List.in_seq in Hj.
    rewrite insert_entry by (unfold DIRENT; lia). destruct (decide (j = k)) as [->|]; [|done].
    rewrite Hn. unfold named. by rewrite (dir_slot_free v ip n k) by done.
  - replace n' with (n + 1)%nat by lia. rewrite seq_app. cbn [seq Nat.add].
    rewrite find_snoc.
    + apply find_ext. intros j Hj. apply List.in_seq in Hj. rewrite insert_entry by (unfold DIRENT; lia).
      by rewrite decide_False by lia.
    + rewrite insert_entry by (unfold DIRENT; lia). by rewrite decide_True by lia.
Qed.

Lemma insert_found name :
  dir_find v ip name n = None -> named name de = true -> dir_find v' ip' name n' = Some k.
Proof using All.
  intros Hf Hn. pose proof (dir_slot_le v ip n) as Hle. rewrite <- Hk in Hle. apply find_first; [| |lia].
  - intros j Hj. rewrite insert_entry by (unfold DIRENT in *; lia). rewrite decide_False by lia.
    apply (List.find_none _ _ Hf). apply List.in_seq. lia.
  - rewrite insert_entry by done. by rewrite decide_True.
Qed.

(** The directory [ip'] has what [ip] had, and the name [name] for [inum]. *)
Record linked (name : list Z) (inum : Z) (v0 : Z -> list Z) (ip0 : inode) (n0 : nat)
    (v1 : Z -> list Z) (ip1 : inode) (n1 : nat) (nb1 : Z) (j : nat) : Prop := {
  lk_dir : directory v1 ip1 n1 nb1;
  lk_new : dir_find v1 ip1 name n1 = Some j;
  lk_inum : de_inum (entry v1 ip1 j) = inum;
  lk_other : forall other, name_string other <> name_string name -> dir_find v1 ip1 other n1 = dir_find v0 ip0 other n0 }.

Lemma insert_linked name inum :
  de = new_entry name inum -> name_ok name -> 0 < inum < 2 ^ 16 -> dir_find v ip name n = None ->
  linked name inum v ip n v' ip' n' nb k.
Proof using All.
  intros Ed Hn Hi Hf. destruct (new_entry_spec name inum Hn ltac:(lia)) as (_ & _ & L3 & L4). rewrite <- Ed in L3, L4.
  destruct (name_field_ok name Hn) as [_ Hfield]. split.
  - exact insert_directory.
  - apply insert_found; [done|].
    unfold named. rewrite L3, L4, Hfield, bool_decide_eq_true_2, (proj2 (Z.eqb_neq inum 0)) by (done || lia). done.
  - rewrite insert_entry by done. by rewrite decide_True.
  - intros other Hne. apply insert_other.
    unfold named. rewrite L4, Hfield, bool_decide_eq_false_2 by done. apply andb_false_r.
Qed.
End Insert.

(** * A directory that needs another block *)

(** The directory can get one more direct block: it has at most eleven, the
    blocks of the file system that it relies on are marked in use, and the
    bitmap is where the allocator looks for it. *)
Record growable (sb : superblock) (v : Z -> list Z) (ip : inode) (nb ib : Z) : Prop := {
  gr_blocks : 0 <= nb < NDIRECT;
  gr_addrs : length (i_addrs ip) = 13%nat;
  gr_none : i_addrs ip !!! Z.to_nat nb = 0;
  gr_placed : placed sb v ip nb;
  gr_layout : fs_layout sb v;
  gr_inode : in_use sb v ib = true;
  gr_bitmap : forall c, 0 <= c < sb_size sb -> ib <> BBLOCK c sb }.

Section Growth.
Context (sb : superblock) (v : Z -> list Z) (ip : inode) (n : nat) (nb b ib : Z).
Context (Dir : directory v ip n nb) (G : growable sb v ip nb ib) (Hap : apart v ip nb ib).
Context (Hb : 0 < b < sb_size sb) (Hfree : in_use sb v b = false).
Abbreviation v1 := (taken sb b v).
Abbreviation ip1 := (grown nb b ip).

Lemma growth_byte x : 0 <= x < (nb + 1) * BSIZE -> file_byte v1 ip1 x = if x <? nb * BSIZE then file_byte v ip x else 0.
Proof using All.
  pose proof (gr_addrs _ _ _ _ _ G) as Ha.
  apply (grown_byte sb v ip nb b ib); try apply G; [apply Dir|done|rewrite Ha; vm_compute; lia|done|done].
Qed.

Lemma growth_entry j : (j < n)%nat -> entry v1 ip1 j = entry v ip j.
Proof using All.
  intros Hj. pose proof (dr_fit _ _ _ _ Dir) as Hf. unfold entry, file_bytes. apply list_fmap_ext. intros i x [-> Hi]%lookup_seq.
  unfold DIRENT in *. rewrite growth_byte by (change BSIZE with 1024 in *; lia). by rewrite (proj2 (Z.ltb_lt _ _)) by lia.
Qed.

Lemma growth_directory : directory v1 ip1 n (nb + 1).
Proof using All.
  pose proof (gr_addrs _ _ _ _ _ G) as Ha. destruct Dir as [D1 D2 D3 D4 D5]. split; [done|done| | |].
  - apply (grown_blocks sb v ip nb b ib); try apply G; [done|done|rewrite Ha; vm_compute; lia|done|done].
  - change BSIZE with 1024 in *. lia.
  - intros x Hx. rewrite growth_byte by done. destruct (Z.ltb_spec x (nb * BSIZE)); [apply D5; lia|lia].
Qed.

Lemma growth_find name : dir_find v1 ip1 name n = dir_find v ip name n.
Proof using All. apply find_ext. intros j Hj. apply List.in_seq in Hj. by rewrite growth_entry by lia. Qed.

Lemma growth_slot : dir_slot v1 ip1 n = dir_slot v ip n.
Proof using All.
  unfold dir_slot. f_equal. apply find_ext. intros j Hj. apply List.in_seq in Hj. by rewrite growth_entry by lia.
Qed.

(** The new entry at the start of the new block. *)
Lemma growth_linked name inum v' :
  let ip' := extended (DIRENT * Z.of_nat (S n)) ip1 in
  DIRENT * Z.of_nat n = nb * BSIZE -> dir_slot v ip n = n -> name_ok name -> 0 < inum < 2 ^ 16 -> dir_find v ip name n = None ->
  mapped v' ip' (nb + 1) ->
  (forall x, 0 <= x < (nb + 1) * BSIZE -> file_byte v' ip' x =
     if (DIRENT * Z.of_nat n <=? x) && (x <? DIRENT * Z.of_nat (S n))
     then new_entry name inum !!! Z.to_nat (x - DIRENT * Z.of_nat n) else file_byte v1 ip1 x) ->
  (forall x, x <> ib -> (forall bn, 0 <= bn < nb + 1 -> x <> file_block v1 ip1 bn) -> v' x = v1 x) ->
  in_use sb v' b = true /\ linked name inum v ip n v' ip' (S n) (nb + 1) n /\ file_block v' ip' nb = b /\
  forall x, x <> ib -> x <> b -> x <> BBLOCK b sb -> (forall bn, 0 <= bn < nb -> x <> file_block v ip bn) -> v' x = v x.
Proof using All.
  intros ip' Ef Es Hn Hi Hf Hm Hbyte Ho. destruct (new_entry_spec name inum Hn ltac:(lia)) as (L1 & L2 & _ & _).
  pose proof G as [G1 G2 G3 G4 G5 G6 G7].
  assert (forall bn, 0 <= bn < nb + 1 -> file_block v1 ip1 bn = if bn =? nb then b else file_block v ip bn) as Eb
    by (intros bn; apply (grown_block sb v ip nb b ib); try done; [apply Dir|rewrite G2; vm_compute; lia]).
  assert (forall x, x <> ib -> x <> b -> (forall bn, 0 <= bn < nb -> x <> file_block v ip bn) -> v' x = v1 x) as Hx.
  { intros x Hx1 Hx2 Hx3. apply Ho; [done|]. intros bn Hbn. rewrite Eb by done. destruct (Z.eqb_spec bn nb); [done|]. apply Hx3. lia. }
  destruct (taken_spec sb b v G5 ltac:(lia) Hfree) as (_ & _ & Huse & Hframe).
  destruct (ly_used _ _ G5 b ltac:(lia)) as [_ Hbb]. split; [|split; [|split]].
  - unfold in_use. rewrite Hx; [|intros E; apply (G7 b); [lia|done]|intros E; congruence|].
    + fold (in_use sb v1 b). by rewrite Huse, Z.eqb_refl, orb_true_r by lia.
    + intros bn Hbn E. apply (pl_bitmap _ _ _ _ G4 bn b); [done|lia|done].
  - destruct (insert_linked v1 v' ip1 n (nb + 1) n (new_entry name inum) growth_directory) with (name := name) (inum := inum) as [K1 K2 K3 K4]; try done.
    + by rewrite growth_slot, Es.
    + unfold DIRENT in *. change BSIZE with 1024 in *. lia.
    + by rewrite growth_find.
    + replace (Nat.max n (S n)) with (S n) in * by lia. split; try done. intros other Ho'. by rewrite K4, growth_find.
  - unfold file_block. rewrite (proj2 (Z.ltb_lt nb NDIRECT)) by lia. destruct (extended_same (DIRENT * Z.of_nat (S n)) ip1) as (Ea & _).
    fold ip' in Ea. rewrite Ea. apply list_lookup_total_insert_eq. rewrite G2. change NDIRECT with 12 in G1. lia.
  - intros x H1 H2 H3 H4. rewrite Hx by done. by apply Hframe.
Qed.
End Growth.

Section Full.
Context `{W : WaitBound} `{D : DiskDriver} `{Dok : !DiskOk}.
Context (me : nat) (dev : Z) (dp : nat) (v : Z -> list Z) (ip : inode) (n : nat) (nb : Z).
Context (Dir : directory v ip n nb) (Hdev : i_dev ip = dev).
Context (name : list Z) (inum : Z) (s : kstate).
Context (S : scanning me dev dp v ip s) (Hdp : (dp < length (k_itable s))%nat) (Hlg : lg_n (k_log s) + 5 < Z.of_nat LOGBLOCKS).
Context (Hn : name_ok name) (Hi : 0 < inum < 2 ^ 16) (Hf : dir_find v ip name n = None).
Context (Hfull : nb * BSIZE < DIRENT * Z.of_nat (Datatypes.S (dir_slot v ip n))).
Abbreviation ib := (IBLOCK (i_inum ip) (k_sb s)).
Context (G : growable (k_sb s) v ip nb ib) (Hap : apart v ip nb ib).

(** The outcomes in a full directory: a new block, or none is free. *)
Lemma dirlink_grows :
  (exists b s' v', dirlink dp name inum s = Ret 0 s' /\ txn me dev v' [] s' /\
     0 < b < sb_size (k_sb s) /\ in_use (k_sb s) v b = false /\ in_use (k_sb s) v' b = true /\
     linked name inum v ip n v' (k_itable s' !!! dp) (Datatypes.S n) (nb + 1) n /\ file_block v' (k_itable s' !!! dp) nb = b /\
     forall x, x <> ib -> x <> b -> x <> BBLOCK b (k_sb s) -> (forall bn, 0 <= bn < nb -> x <> file_block v ip bn) -> v' x = v x) \/
  ((forall c, 0 <= c < sb_size (k_sb s) -> in_use (k_sb s) v c = true) /\
   exists s' v', dirlink dp name inum s = Ret (-1) s' /\ txn me dev v' [] s' /\ k_itable s' = k_itable s /\
     (forall x, x <> ib -> v' x = v x)).
Proof using All.
  destruct (dirlink_scan me dev dp v ip n nb Dir Hdev name inum s S Hn Hf) as (s2 & S2 & Q & E).
  destruct (dir_full v ip n nb Dir Hfull) as [Es Ef]. rewrite Es, Ef in E. pose proof S2 as [T2 _ I2].
  assert (k_sb s2 = k_sb s) as Esb by (destruct Q as [_ Q]; by destruct (outer_parts _ _ Q) as (_ & -> & _)).
  pose proof (unmoved_itable _ _ Q) as Eit. pose proof (gr_addrs _ _ _ _ _ G) as Ha. pose proof (gr_blocks _ _ _ _ _ G) as Hnb.
  assert (lg_n (k_log s2) = lg_n (k_log s)) as El by (by destruct Q as [-> _]).
  assert (nb * BSIZE / BSIZE = nb) as Ed by by apply Z.div_mul.
  assert (nb * BSIZE + DIRENT <= MAXFILE * BSIZE) as Hmax by (change (MAXFILE * BSIZE) with 274432; change BSIZE with 1024; change NDIRECT with 12 in Hnb; unfold DIRENT; lia).
  assert (i_size ip = nb * BSIZE) as Hsz by (rewrite (dr_size _ _ _ _ Dir); exact Ef).
  destruct (bmap_new (me := me) (dev := dev) v s2 dp nb T2) as [(b & s3 & E3 & E3' & Hb & Hfr & T3 & I3 & B3 & L3)|(Hall & s3 & E3 & T3 & L3 & B3 & I3)];
    rewrite ?I2, ?Esb, ?Eit in *; try done; try (apply G); [lia|rewrite Ha; change NDIRECT with 12 in Hnb; lia|..].
  - left. set (sb := k_sb s) in *. assert (DIRENT * Z.of_nat (Datatypes.S n) = nb * BSIZE + DIRENT) as Ek by (unfold DIRENT in *; lia).
    pose proof (growth_directory sb v ip n nb b ib Dir G Hap Hb Hfr) as Dir1.
    assert (k_itable s3 !!! dp = grown nb b ip) as Ei3 by (rewrite I3, list_lookup_total_alter_eq by done; by rewrite (sc_ip _ _ _ _ _ _ S)).
    assert (apart (taken sb b v) (grown nb b ip) (nb + 1) ib) as Hap1.
    { apply (grown_apart sb v ip nb b ib); try apply G; [apply Dir|done|rewrite Ha; vm_compute; lia|done|done]. }
    destruct (new_entry_spec name inum Hn ltac:(lia)) as (L1 & L2 & _ & _).
    assert (writei dp (SLocal (new_entry name inum)) (nb * BSIZE) DIRENT s2 = writei dp (SLocal (new_entry name inum)) (nb * BSIZE) DIRENT s3) as Ew.
    { apply (writei_found _ _ _ _ _ _ b); [by rewrite Ed|by rewrite Ed|lia|done|by rewrite Ei3, Eit, (sc_ip _ _ _ _ _ _ S)| |done|change BSIZE with 1024; lia].
      rewrite Eit, (sc_ip _ _ _ _ _ _ S), Hsz. lia. }
    destruct (writei_bytes me dev (taken sb b v) s3 dp (nb * BSIZE) DIRENT (nb + 1) (new_entry name inum) T3) as
      (s4 & v' & E4 & T4 & Eit4 & _ & Hm & Hbyte & Ho); rewrite ?Ei3, ?B3; try done.
    + by rewrite I3, length_alter.
    + apply Dir1.
    + cbn [i_size grown set_i_addrs]. rewrite Hsz. change BSIZE with 1024. lia.
    + unfold DIRENT. change BSIZE with 1024. lia.
    + change (DIRENT / BSIZE) with 0. lia.
    + rewrite Ei3, ?B3 in *. change (i_inum (grown nb b ip)) with (i_inum ip) in Ho. fold sb in Ho.
      assert (k_itable s4 !!! dp = extended (DIRENT * Z.of_nat (Datatypes.S n)) (grown nb b ip)) as Ei4.
      { rewrite Eit4, Ek. apply list_lookup_total_insert_eq. by rewrite I3, length_alter. }
      exists b, s4, v'. split; [rewrite E; unfold bind at 1; rewrite Ew, E4; done|]. split; [done|]. split; [done|]. split; [done|].
      rewrite Ei4. rewrite <- Ek in Hm, Hbyte. rewrite <- Ef in Hbyte.
      by apply (growth_linked sb v ip n nb b ib Dir G Hap Hb Hfr).
  - right. split; [done|].
    destruct (writei_full (me := me) (dev := dev) v s2 s3 dp (SLocal (new_entry name inum)) (nb * BSIZE) DIRENT) as (s4 & v' & E4 & T4 & I4 & Ho);
      rewrite ?Ed, ?I2, ?Esb, ?Eit, ?(sc_ip _ _ _ _ _ _ S); try done; [change BSIZE with 1024 in *; lia|rewrite L3; lia|].
    exists s4, v'. split; [rewrite E; by kstep E4|]. rewrite Eit, ?(sc_ip _ _ _ _ _ _ S), ?Esb in *. done.
Qed.
End Full.

(** A directory none of whose blocks changed. *)
Lemma directory_same v v' ip n nb ib :
  directory v ip n nb -> apart v ip nb ib -> (forall x, x <> ib -> v' x = v x) ->
  directory v' ip n nb /\ forall name, dir_find v' ip name n = dir_find v ip name n.
Proof.
  intros [D1 D2 D3 D4 D5] Hap Hv. destruct (same_file v v' ip ip nb ib eq_refl Hv Hap) as (_ & Hbyte & Hm). split.
  - split; [done|done|by apply Hm|done|]. intros k Hk. rewrite Hbyte by done. by apply D5.
  - intros name. apply find_ext. intros j Hj. apply List.in_seq in Hj. f_equal. unfold entry, file_bytes.
    apply list_fmap_ext. intros i x [-> Hi]%lookup_seq. apply Hbyte. unfold DIRENT in *. lia.
Qed.

Section Lookups.
Context `{W : WaitBound} `{D : DiskDriver} `{Dok : !DiskOk}.

(** Looking a name up in a directory: [None] when no entry in use has the
    name; otherwise the first one that has it gives the offset and the inode,
    whose entry of the inode table, with one more reference, is returned.  The
    content of the disk and the other inodes are as before. *)
Theorem dirlookup_correct me dev dp v n nb name s
  (Ht : txn me dev v [] s) (Hlg : lg_n (k_log s) < Z.of_nat NBUF)
  (Hd : directory v (k_itable s !!! dp) n nb) (Hdev : i_dev (k_itable s !!! dp) = dev) (Hn : name_ok name)
  (Hok : table_ok (k_itable s)) (Hlk : lock_free ItableLock (khw s))
  (Hroom : exists i, (i < NINODE)%nat /\ i_ref (k_itable s !!! i) = 0) :
  let ip := k_itable s !!! dp in
  match dir_find v ip name n with
  | None => exists s', dirlookup dp name s = Ret None s' /\ txn me dev v [] s' /\ k_itable s' = k_itable s
  | Some k =>
      exists i s', dirlookup dp name s = Ret (Some (i, DIRENT * Z.of_nat k)) s' /\ txn me dev v [] s' /\
        (k < n)%nat /\ (i < NINODE)%nat /\ refers dev (de_inum (entry v ip k)) (k_itable s' !!! i) = true /\
        table_ok (k_itable s') /\ forall j, j <> i -> k_itable s' !!! j = k_itable s !!! j
  end.
Proof using Dok.
  intros ip. destruct (dirlookup_txn me dev dp v ip n nb Hd Hdev name s) as (s1 & S1 & Q1 & H); [done..|].
  pose proof (unmoved_itable _ _ Q1) as Eit. pose proof (txn_calm _ _ _ (sc_txn _ _ _ _ _ _ S1)) as Hc.
  assert (lock_free ItableLock (khw s1)) as Hlk1 by (destruct Q1 as [_ Q1]; by destruct (outer_parts _ _ Q1) as (-> & _)).
  destruct (dir_find v ip name n) as [k|] eqn:Ef; [|exists s1; split; [done|]; split; [apply S1|done]].
  destruct (iget_spec me dev (de_inum (entry v ip k)) s1) as [(i & s2 & Ei & Hi & Hok2 & Hr & _ & Ho)|[Hno _]].
  - done.
  - done.
  - by rewrite Eit.
  - exists i, s2. split; [by apply H|].
    assert (exists it, s2 = with_k_itable it s1) as [it ->].
    { rewrite (iget_eq me) in Ei by done.
      destruct (find_entry _ _ _); [injection Ei as _ <-; by eexists|].
      destruct (find_entry _ _ _); [injection Ei as _ <-; by eexists|done]. }
    split; [apply txn_itable, S1|]. split.
    { apply List.find_some in Ef as [Hin _]. apply List.in_seq in Hin. lia. }
    split; [done|]. split; [done|]. split; [done|]. intros j Hj. by rewrite Ho, Eit.
  - destruct Hroom as (i & Hi & H0). destruct (Hno i Hi) as [Hpos _]. rewrite Eit in Hpos. lia.
Qed.

(** C28. [dirlink] inserts into the table.  A name that is there already gives -1 and
    changes nothing.  Otherwise the new name goes to the first free entry, or to
    one entry more at the end.  If that entry lies in a block the directory has,
    the call returns 0, and exactly one lookup has changed: the new name gives the
    new inode, every other name gives what it gave; the directory is well formed,
    and only its blocks and the block of its inode are touched.  If the blocks are
    full and the directory has fewer than twelve, it gets a block that was free
    and is in use from then on, with the same outcome; and when no block of the
    disk is free, the call returns -1 and the directory is as it was.  This is
    inside a transaction whose log has room for five more blocks, for a directory
    that has the entry's block or can get it as a direct block, with a free entry
    in the inode table. *)
Theorem dirlink_inserts me dev dp v n nb name inum s
  (Ht : txn me dev v [] s) (Hlg : lg_n (k_log s) + 5 < Z.of_nat LOGBLOCKS)
  (Hd : directory v (k_itable s !!! dp) n nb) (Hdev : i_dev (k_itable s !!! dp) = dev)
  (Hdp : (dp < length (k_itable s))%nat)
  (Hap : apart v (k_itable s !!! dp) nb (IBLOCK (i_inum (k_itable s !!! dp)) (k_sb s)))
  (Hn : name_ok name) (Hi : 0 < inum < 2 ^ 16)
  (Hok : table_ok (k_itable s)) (Hlk : lock_free ItableLock (khw s))
  (Hroom : exists i, (i < NINODE)%nat /\ i_ref (k_itable s !!! i) = 0)
  (Hgrow : DIRENT * Z.of_nat (S (dir_slot v (k_itable s !!! dp) n)) <= nb * BSIZE \/
     growable (k_sb s) v (k_itable s !!! dp) nb (IBLOCK (i_inum (k_itable s !!! dp)) (k_sb s))) :
  let ip := k_itable s !!! dp in let ib := IBLOCK (i_inum ip) (k_sb s) in let sb := k_sb s in let k := dir_slot v ip n in
  match dir_find v ip name n with
  | Some _ =>
      exists s', dirlink dp name inum s = Ret (-1) s' /\ txn me dev v [] s' /\
        forall j, i_ref (k_itable s' !!! j) = i_ref (k_itable s !!! j) /\
          (i_ref (k_itable s !!! j) <> 0 -> k_itable s' !!! j = k_itable s !!! j)
  | None =>
      if DIRENT * Z.of_nat (S k) <=? nb * BSIZE then
        exists s' v', dirlink dp name inum s = Ret 0 s' /\ txn me dev v' [] s' /\
          linked name inum v ip n v' (k_itable s' !!! dp) (Nat.max n (S k)) nb k /\
          (forall x, x <> ib -> (forall bn, 0 <= bn < nb -> x <> file_block v ip bn) -> v' x = v x)
      else
        (exists b s' v', dirlink dp name inum s = Ret 0 s' /\ txn me dev v' [] s' /\
           0 < b < sb_size sb /\ in_use sb v b = false /\ in_use sb v' b = true /\
           linked name inum v ip n v' (k_itable s' !!! dp) (S n) (nb + 1) n /\ file_block v' (k_itable s' !!! dp) nb = b /\
           forall x, x <> ib -> x <> b -> x <> BBLOCK b sb -> (forall bn, 0 <= bn < nb -> x <> file_block v ip bn) -> v' x = v x) \/
        ((forall c, 0 <= c < sb_size sb -> in_use sb v c = true) /\
         exists s' v', dirlink dp name inum s = Ret (-1) s' /\ txn me dev v' [] s' /\ k_itable s' = k_itable s /\
           directory v' ip n nb /\ (forall other, dir_find v' ip other n = dir_find v ip other n) /\
           forall x, x <> ib -> v' x = v x)
  end.
Proof using Dok.
  intros ip ib sb k.
  assert (scanning me dev dp v ip s) as S.
  { split; [done| |done]. change (Z.of_nat NBUF) with 30. change (Z.of_nat LOGBLOCKS) with 30 in Hlg. lia. }
  destruct (dir_find v ip name n) as [j|] eqn:Hf; [by apply (dirlink_found me dev dp v ip n nb Hd Hdev name inum s j)|].
  destruct (Z.leb_spec (DIRENT * Z.of_nat (Datatypes.S k)) (nb * BSIZE)) as [Hfit|Hfull].
  - destruct (new_entry_spec name inum Hn ltac:(lia)) as (L1 & L2 & _).
    destruct (dirlink_txn me dev dp v ip n nb Hd Hdev name inum s) as (s' & v' & E & T & Eit & Hm & Hb & Ho); try done; [lia|].
    exists s', v'. split; [done|]. split; [done|]. rewrite Eit, list_lookup_total_insert_eq by done. split; [|done].
    by apply (insert_linked v v' ip n nb k (new_entry name inum)).
  - destruct Hgrow as [Hgrow|G]; [fold ip in Hgrow; fold k in Hgrow; lia|].
    destruct (dirlink_grows me dev dp v ip n nb Hd Hdev name inum s S Hdp Hlg Hn Hi Hf Hfull G Hap) as [H|(Hall & s' & v' & E & T & Eit & Ho)];
      [by left|right]. split; [done|]. exists s', v'. destruct (directory_same v v' ip n nb ib Hd Hap Ho) as [D1 D2]. done.
Qed.
End Lookups.

(** * Examples *)

(** Directory 5 has two entries in block 60: the name [a] is inode 7, the other
    entry is free. *)
Definition demo_name (c : Z) : list Z := c :: replicate 13 0.
Definition demo_dir_block : list Z := new_entry (demo_name 97) 7 ++ replicate 1008 0.
Definition demo_dir_disk : gmap Z (list Z) := {[60 := demo_dir_block]}.
Definition demo_dir_inode : inode := Inode 1 5 1 1 T_DIR 0 0 1 32 (60 :: replicate 12 0).
Definition demo_dir : kstate :=
  with_k_itable (<[3%nat := demo_dir_inode]> (replicate NINODE (Inode 0 0 0 0 0 0 0 0 0 []))) (demo_fs demo_dir_disk 1).

Lemma demo_dir_at : k_itable demo_dir !!! 3%nat = demo_dir_inode.
Proof. reflexivity. Qed.

Lemma demo_dir_other i : (i < NINODE)%nat -> i <> 3%nat -> k_itable demo_dir !!! i = Inode 0 0 0 0 0 0 0 0 0 [].
Proof.
  intros Hi Hne. cbn [k_itable demo_dir with_k_itable]. rewrite list_lookup_total_insert_ne by done.
  by apply lookup_total_replicate_2.
Qed.

Lemma demo_dir_bytes : all_bytes demo_dir_block /\ length demo_dir_block = Z.to_nat BSIZE.
Proof. split; [|reflexivity]. apply (bool_decide_unpack _). vm_compute. exact Logic.I. Qed.

Lemma demo_directory v ip :
  v 60 = demo_dir_block -> i_type ip = T_DIR -> i_size ip = 32 -> i_addrs ip = 60 :: replicate 12 0 -> directory v ip 2 1.
Proof.
  intros Ev Et Es Ea.
  assert (forall bn, 0 <= bn < 1 -> file_block v ip bn = 60) as E.
  { intros bn Hbn. replace bn with 0 by lia. unfold file_block. by rewrite Ea. }
  destruct demo_dir_bytes as [Hall Hlen]. split; [done|done| |done|].
  - split; [done|..]; intros bn; intros; rewrite ?E in * by done; [done|by rewrite Ev|lia|by rewrite Ea].
  - intros k Hk. unfold file_byte. rewrite Z.div_small, E, Ev by (change (1 * BSIZE) with BSIZE in Hk; lia).
    unfold all_bytes in Hall. rewrite Forall_lookup_total in Hall. apply Hall. rewrite Hlen.
    pose proof (Z.mod_pos_bound k BSIZE eq_refl). lia.
Qed.

Lemma demo_dir_txn : txn 1 1 (dblock demo_dir_disk) [] demo_dir.
Proof. apply txn_itable, demo_txn. Qed.

Lemma demo_name_ok c : 0 <= c < 256 -> name_ok (demo_name c).
Proof. intros Hc. split; [done|]. constructor; [done|]. by apply Forall_replicate. Qed.

Lemma demo_dir_entries ip : 0 <= i_ref ip -> table_ok (<[3%nat := ip]> (replicate NINODE (Inode 0 0 0 0 0 0 0 0 0 []))).
Proof.
  intros H. assert (forall i, (i < NINODE)%nat -> i <> 3%nat ->
    (<[3%nat := ip]> (replicate NINODE (Inode 0 0 0 0 0 0 0 0 0 []))) !!! i = Inode 0 0 0 0 0 0 0 0 0 []) as Ho.
  { intros i Hi Hne. rewrite list_lookup_total_insert_ne by done. by apply lookup_total_replicate_2. }
  split; [reflexivity| |].
  - intros i Hi. destruct (decide (i = 3%nat)) as [->|]; [exact H|]. by rewrite Ho.
  - intros i j d m Hi Hj A B. destruct (decide (i = 3%nat)) as [->|]; [|by rewrite Ho in A].
    destruct (decide (j = 3%nat)) as [->|]; [done|by rewrite Ho in B].
Qed.

Lemma demo_dir_table : table_ok (k_itable demo_dir).
Proof. by apply demo_dir_entries. Qed.

Lemma dirlookup_correct_witness :
  exists i s', @dirlookup 0%nat ram_disk 3 (demo_name 97) demo_dir = Ret (Some (i, 0)) s' /\
    refers 1 7 (k_itable s' !!! i) = true.
Proof.
  pose proof (@dirlookup_correct 0%nat ram_disk ram_disk_ok 1 1 3 (dblock demo_dir_disk) 2 1 (demo_name 97) demo_dir) as H.
  cbn zeta in H. rewrite demo_dir_at in H.
  assert (dir_find (dblock demo_dir_disk) demo_dir_inode (demo_name 97) 2 = Some 0%nat) as E by (vm_compute; reflexivity).
  assert (de_inum (entry (dblock demo_dir_disk) demo_dir_inode 0) = 7) as E7 by (vm_compute; reflexivity).
  rewrite E, E7 in H. destruct H as (i & s' & E1 & _ & _ & _ & H & _).
  - apply demo_dir_txn.
  - by vm_compute.
  - by apply demo_directory.
  - reflexivity.
  - by apply demo_name_ok.
  - apply demo_dir_table.
  - by eapply demo_lock_free.
  - exists 0%nat. split; [vm_compute; lia|]. rewrite demo_dir_other by (vm_compute; lia || done). done.
  - exists i, s'. split; [exact E1|exact H].
Defined.

(** Directory 5 with all 64 entries of block 60 in use; blocks 0 to 63 are marked
    in use, block 64 is the first that is free. *)
Definition demo_full_block : list Z := mjoin (replicate 64 (new_entry (demo_name 97) 7)).
Definition demo_full_disk : gmap Z (list Z) := {[45 := replicate 8 255 ++ replicate 1016 0; 60 := demo_full_block]}.
Definition demo_full_inode : inode := Inode 1 5 1 1 T_DIR 0 0 1 1024 (60 :: replicate 12 0).
Definition demo_full : kstate :=
  with_k_itable (<[3%nat := demo_full_inode]> (replicate NINODE (Inode 0 0 0 0 0 0 0 0 0 []))) (demo_fs demo_full_disk 1).

Lemma demo_full_at : k_itable demo_full !!! 3%nat = demo_full_inode.
Proof. reflexivity. Qed.

Lemma demo_full_block_of bn : 0 <= bn < 1 -> file_block (dblock demo_full_disk) demo_full_inode bn = 60.
Proof. intros Hbn. by replace bn with 0 by lia. Qed.

Lemma demo_full_bytes : all_bytes (dblock demo_full_disk 60) /\ length (dblock demo_full_disk 60) = Z.to_nat BSIZE.
Proof. split; [|vm_compute; reflexivity]. apply (bool_decide_unpack _). vm_compute. exact Logic.I. Qed.

Lemma demo_full_directory : directory (dblock demo_full_disk) demo_full_inode 64 1.
Proof.
  destruct demo_full_bytes as [Hall Hlen]. split; [done|done| |done|].
  - split; [done|..]; intros bn; intros; rewrite ?demo_full_block_of in * by done; [done|done|lia|done].
  - intros k Hk. unfold file_byte. rewrite Z.div_small, demo_full_block_of by (change (1 * BSIZE) with BSIZE in Hk; lia).
    unfold all_bytes in Hall. rewrite Forall_lookup_total in Hall. apply Hall. rewrite Hlen.
    pose proof (Z.mod_pos_bound k BSIZE eq_refl). lia.
Qed.

Lemma demo_full_bitmap c : 0 <= c < 100 -> BBLOCK c demo_super = 45.
Proof. intros Hc. unfold BBLOCK. rewrite Z.div_small by (change BPB with 8192; lia). reflexivity. Qed.

Lemma demo_full_facts :
  length (dblock demo_full_disk 45) = Z.to_nat BSIZE /\ in_use demo_super (dblock demo_full_disk) 0 = true /\
  in_use demo_super (dblock demo_full_disk) 40 = true /\ in_use demo_super (dblock demo_full_disk) 45 = true /\
  in_use demo_super (dblock demo_full_disk) 60 = true /\ in_use demo_super (dblock demo_full_disk) 64 = false /\
  IBLOCK 5 demo_super = 40 /\ dir_slot (dblock demo_full_disk) demo_full_inode 64 = 64%nat /\
  dir_find (dblock demo_full_disk) demo_full_inode (demo_name 98) 64 = None.
Proof. split_and!; vm_compute; reflexivity. Qed.

Lemma demo_full_growable : growable demo_super (dblock demo_full_disk) demo_full_inode 1 40.
Proof.
  destruct demo_full_facts as (L & U0 & U40 & U45 & U60 & _). split; [done|done|done| | |done|].
  - split; [done| | |done].
    + intros bn Hbn. by rewrite demo_full_block_of.
    + intros bn c Hbn Hc. by rewrite demo_full_block_of, demo_full_bitmap by done.
  - split; intros b Hb; rewrite demo_full_bitmap by done; [done|]. split; [done|exact U45].
  - intros c Hc. by rewrite demo_full_bitmap by done.
Qed.

(** Into a free entry, and into a full directory. *)
Lemma dirlink_inserts_witness :
  (exists s' v', @dirlink 0%nat ram_disk 3 (demo_name 98) 9 demo_dir = Ret 0 s' /\
     dir_find v' (k_itable s' !!! 3%nat) (demo_name 98) 2 = Some 1%nat /\
     dir_find v' (k_itable s' !!! 3%nat) (demo_name 97) 2 = Some 0%nat) /\
  (exists s' v', @dirlink 0%nat ram_disk 3 (demo_name 98) 9 demo_full = Ret 0 s' /\
     dir_find v' (k_itable s' !!! 3%nat) (demo_name 98) 65 = Some 64%nat).
Proof.
  split.
  - assert (dir_slot (dblock demo_dir_disk) demo_dir_inode 2 = 1%nat) as Es by (vm_compute; reflexivity).
    assert (dir_find (dblock demo_dir_disk) demo_dir_inode (demo_name 97) 2 = Some 0%nat) as E by (vm_compute; reflexivity).
    assert (dir_find (dblock demo_dir_disk) demo_dir_inode (demo_name 98) 2 = None) as E' by (vm_compute; reflexivity).
    pose proof (@dirlink_inserts 0%nat ram_disk ram_disk_ok 1 1 3 (dblock demo_dir_disk) 2 1 (demo_name 98) 9 demo_dir) as H.
    cbn zeta in H. rewrite demo_dir_at, Es, E' in H.
    destruct H as (s' & v' & E1 & _ & [_ H2 _ H3] & _).
    + apply demo_dir_txn.
    + by vm_compute.
    + by apply demo_directory.
    + reflexivity.
    + vm_compute. lia.
    + split; [by vm_compute|]. intros bn Hbn. replace bn with 0 by lia. by vm_compute.
    + by apply demo_name_ok.
    + lia.
    + apply demo_dir_table.
    + by eapply demo_lock_free.
    + exists 0%nat. split; [vm_compute; lia|]. rewrite demo_dir_other by (vm_compute; lia || done). done.
    + left. by vm_compute.
    + exists s', v'. split; [exact E1|]. split; [exact H2|]. rewrite <- E. apply H3. by vm_compute.
  - destruct demo_full_facts as (_ & _ & _ & _ & _ & U64 & Eib & Es & Ef).
    pose proof (@dirlink_inserts 0%nat ram_disk ram_disk_ok 1 1 3 (dblock demo_full_disk) 64 1 (demo_name 98) 9 demo_full) as H.
    cbn zeta in H. rewrite demo_full_at, Es, Ef in H.
    destruct H as [(b & s' & v' & E1 & _ & _ & _ & _ & [_ H2 _ _] & _)|[Hall _]].
    + apply txn_itable, demo_txn.
    + by vm_compute.
    + exact demo_full_directory.
    + reflexivity.
    + vm_compute. lia.
    + split; [by vm_compute|]. intros bn Hbn. rewrite demo_full_block_of by done. by vm_compute.
    + by apply demo_name_ok.
    + lia.
    + by apply demo_dir_entries.
    + by eapply demo_lock_free.
    + exists 0%nat. split; [vm_compute; lia|]. reflexivity.
    + right. exact demo_full_growable.
    + exists s', v'. split; [exact E1|exact H2].
    + exfalso. specialize (Hall 64 ltac:(vm_compute; split; congruence)). discriminate (eq_trans (eq_sym Hall) U64).
Defined.
