(* ===== verification/Inodes.v ===== *)
(** The inodes in memory as the rest of the kernel uses them: [iget], [idup],
    [ilock], [iunlock] and [iput] of kernel/fs.c inside a transaction.

    [ready me dev v lk s]: process [me] is inside a transaction in which the
    blocks have the contents [v]; an entry of the table that was read agrees
    with the disk, and no entry is locked but [lk], by [me].  What the users of
    the table see of it are the references each inode has, [refs], and the
    number of free entries, [nfree]. *)
From S2P Require Import Prelude Riscv Spinlock Memory Bytes Kstring Kalloc Vm Proc Switch Sleeplock UserMem Kstate Bio Cache Log Crash Fs Txn Fileio Itable.

(** * Counting references *)

Definition refs (dev : Z) (it : list inode) (n : Z) : Z :=
  match find_entry (refers dev n) (seq 0 NINODE) it with Some i => i_ref (it !!! i) | None => 0 end.
Definition nfree (it : list inode) : nat := length (filter (fun ip => i_ref ip = 0) it).
Definition taken_by (r : Z) : nat := if r =? 0 then 0 else 1.

Section Counts.
Context (dev : Z) (it : list inode) (Hok : table_ok it).

Lemma refs_at i n : (i < NINODE)%nat -> refers dev n (it !!! i) = true -> refs dev it n = i_ref (it !!! i).
Proof using Hok.
  intros Hi Hr. unfold refs. destruct (find_entry _ _ _) as [j|] eqn:E.
  - apply find_entry_some in E as [Hj E]. by rewrite (tb_uniq _ Hok j i dev n).
  - rewrite (find_entry_none _ _ i E Hi) in Hr. done.
Qed.

Lemma refs_none n : (forall i, (i < NINODE)%nat -> refers dev n (it !!! i) = false) -> refs dev it n = 0.
Proof using Type.
  intros H. unfold refs. destruct (find_entry _ _ _) as [j|] eqn:E; [|done].
  apply find_entry_some in E as [Hj E]. by rewrite H in E.
Qed.

Lemma refs_nonneg n : 0 <= refs dev it n.
Proof using Hok.
  unfold refs. destruct (find_entry _ _ _) as [j|] eqn:E; [|done].
  apply find_entry_some in E as [Hj E]. by apply (tb_ref _ Hok).
Qed.

Lemma refs_zero n i : refs dev it n = 0 -> (i < NINODE)%nat -> refers dev n (it !!! i) = false.
Proof using Hok.
  intros H Hi. destruct (refers dev n (it !!! i)) eqn:E; [|done]. rewrite (refs_at i n Hi E) in H.
  apply refers_iff in E. lia.
Qed.

(** An entry that no use of inode [n] of [dev] is about. *)
Lemma refs_other it' i n : table_ok it' -> (forall j, j <> i -> it' !!! j = it !!! j) ->
  refers dev n (it !!! i) = false -> refers dev n (it' !!! i) = false -> refs dev it' n = refs dev it n.
Proof using Hok.
  intros Hok' Hj H H'. unfold refs, find_entry.
  assert (forall j, refers dev n (it' !!! j) = refers dev n (it !!! j)) as E.
  { intros j. destruct (decide (j = i)) as [->|]; [congruence|by rewrite Hj]. }
  assert (forall l, List.find (fun j => refers dev n (it' !!! j)) l = List.find (fun j => refers dev n (it !!! j)) l) as ->.
  { induction l as [|j l IH]; [done|]. cbn. by rewrite E, IH. }
  destruct (List.find _ _) as [j|] eqn:F; [|done]. apply List.find_some in F as [_ F].
  destruct (decide (j = i)) as [->|]; [congruence|by rewrite Hj].
Qed.
End Counts.

Lemma nfree_alter f i it : (i < length it)%nat ->
  (nfree (alter f i it) + taken_by (i_ref (f (it !!! i))) = nfree it + taken_by (i_ref (it !!! i)))%nat.
Proof.
  revert i. induction it as [|ip it IH]; intros [|i] Hi; cbn in Hi; try lia.
  - change (alter f 0%nat (ip :: it)) with (f ip :: it). change ((ip :: it) !!! 0%nat) with ip.
    unfold nfree, taken_by. rewrite !filter_cons. destruct (Z.eqb_spec (i_ref (f ip)) 0), (Z.eqb_spec (i_ref ip) 0);
      repeat case_decide; cbn; done || lia.
  - change (alter f (S i) (ip :: it)) with (ip :: alter f i it). change ((ip :: it) !!! S i) with (it !!! i).
    specialize (IH i ltac:(lia)). unfold nfree in *. rewrite !filter_cons. case_decide; cbn; lia.
Qed.

Lemma nfree_some it : (0 < nfree it)%nat -> exists i, (i < length it)%nat /\ i_ref (it !!! i) = 0.
Proof.
  unfold nfree. intros H. destruct (filter _ it) as [|ip l] eqn:E; [cbn in H; lia|].
  assert (ip ∈ filter (fun ip => i_ref ip = 0) it) as Hin by (rewrite E; left).
  apply list_elem_of_filter in Hin as [H0 Hin]. apply list_elem_of_lookup in Hin as [i Hi].
  exists i. split; [by apply lookup_lt_Some in Hi|]. by rewrite (list_lookup_total_correct _ _ _ Hi).
Qed.

(** The references of inode [n] change by [d], and nothing else. *)
Record counted (dev n d : Z) (it it' : list inode) : Prop := {
  cn_refs : forall m, refs dev it' m = refs dev it m + (if m =? n then d else 0);
  cn_free : (nfree it' + taken_by (refs dev it' n) = nfree it + taken_by (refs dev it n))%nat }.

Lemma counted_alter dev n d f i it :
  table_ok it -> table_ok (alter f i it) -> (i < NINODE)%nat ->
  refs dev it n = i_ref (it !!! i) -> i_ref (f (it !!! i)) = i_ref (it !!! i) + d ->
  (forall m, refers dev m (it !!! i) = true -> m = n) ->
  (i_ref (f (it !!! i)) <> 0 -> i_dev (f (it !!! i)) = dev /\ i_inum (f (it !!! i)) = n) ->
  (i_ref (f (it !!! i)) = 0 -> refers dev n (it !!! i) = true) ->
  counted dev n d it (alter f i it).
Proof.
  intros T T' Hi Hn Hd Ho Hf Hz. pose proof (tb_len _ T) as Hl.
  assert (alter f i it !!! i = f (it !!! i)) as Ei by (apply list_lookup_total_alter_eq; lia).
  assert (forall j, j <> i -> alter f i it !!! j = it !!! j) as Ej by (intros j Hj; by apply list_lookup_total_alter_ne).
  assert (0 <= i_ref (f (it !!! i))) as Hp by (rewrite <- Ei; by apply (tb_ref _ T')).
  assert (refs dev (alter f i it) n = i_ref (f (it !!! i))) as Hn'.
  { destruct (decide (i_ref (f (it !!! i)) = 0)) as [E0|E0].
    - rewrite E0. apply refs_none. intros j Hj. destruct (decide (j = i)) as [->|Hji].
      + rewrite Ei. apply not_true_iff_false. rewrite refers_iff. lia.
      + rewrite Ej by done. apply not_true_iff_false. intros E. apply Hji. apply (tb_uniq _ T j i dev n); auto.
    - rewrite <- Ei. apply refs_at; [done|done|]. rewrite Ei. apply refers_iff. split; [lia|]. by apply Hf. }
  split.
  - intros m. destruct (Z.eqb_spec m n) as [->|Hm]; [lia|]. rewrite Z.add_0_r.
    apply (refs_other dev it T _ i); [done|done|..].
    + apply not_true_iff_false. intros E. by apply Hm, Ho.
    + rewrite Ei. apply not_true_iff_false. rewrite refers_iff. intros (A & _ & B). apply Hm.
      rewrite <- B. apply Hf. lia.
  - rewrite Hn', Hn. apply nfree_alter. lia.
Qed.

(** A change of an entry that still refers to the same inode. *)
Record keeps_refs (it it' : list inode) : Prop := {
  kr_refs : forall dev m, refs dev it' m = refs dev it m;
  kr_free : nfree it' = nfree it;
  kr_refers : forall dev m j, refers dev m (it' !!! j) = refers dev m (it !!! j) }.

Lemma keeps_refl it : keeps_refs it it.
Proof. by split. Qed.

Lemma keeps_alter f i it :
  table_ok it -> (i < NINODE)%nat ->
  (let ip := it !!! i in i_ref (f ip) = i_ref ip /\ i_dev (f ip) = i_dev ip /\ i_inum (f ip) = i_inum ip) ->
  table_ok (alter f i it) /\ keeps_refs it (alter f i it).
Proof.
  intros T Hi (F1 & F2 & F3). pose proof (tb_len _ T) as Hl.
  assert (forall j, alter f i it !!! j = if decide (i = j) then f (it !!! i) else it !!! j) as E
    by (intros j; apply alter_entry; lia).
  assert (forall dev m j, refers dev m (alter f i it !!! j) = refers dev m (it !!! j)) as Hr.
  { intros dev m j. rewrite E. destruct (decide (i = j)) as [<-|]; [|done]. unfold refers. by rewrite F1, F2, F3. }
  assert (forall j, i_ref (alter f i it !!! j) = i_ref (it !!! j)) as Hc.
  { intros j. rewrite E. by destruct (decide (i = j)) as [<-|]. }
  split.
  - split; [by rewrite length_alter|..].
    + intros j Hj. rewrite Hc. by apply (tb_ref _ T).
    + intros a b dev m Ha Hb. rewrite !Hr. by apply (tb_uniq _ T).
  - split; [| |done].
    + intros dev m. unfold refs, find_entry.
      assert (forall l, List.find (fun j => refers dev m (alter f i it !!! j)) l = List.find (fun j => refers dev m (it !!! j)) l) as ->.
      { induction l as [|j l IH]; [done|]. cbn. by rewrite Hr, IH. }
      destruct (List.find _ _); [apply Hc|done].
    + pose proof (nfree_alter f i it ltac:(lia)) as H. rewrite F1 in H. lia.
Qed.

(** * The table inside a transaction *)

(** Inode [n] on disk. *)
Definition on_disk (sb : superblock) (v : Z -> list Z) (n : Z) : dinode := dinode_at (inode_slot n) (v (IBLOCK n sb)).
Definition ilk (s : kstate) (i : nat) : sleeplock := ps_sleep (k_ps s) !!! SlInode i.

Record ready (me : nat) (dev : Z) (v : Z -> list Z) (lk : option nat) (s : kstate) : Prop := {
  rd_txn : txn me dev v [] s;
  rd_log : lg_n (k_log s) < Z.of_nat NBUF;
  rd_table : table_ok (k_itable s);
  rd_lock : lock_free ItableLock (khw s);
  rd_sleep : forall i, (i < NINODE)%nat -> lock_free (SleepLk (SlInode i)) (khw s);
  rd_free : forall i, (i < NINODE)%nat -> lk <> Some i -> sl_locked (ilk s i) = 0;
  rd_held : forall i, (i < NINODE)%nat -> lk = Some i -> sl_locked (ilk s i) <> 0 /\ sl_pid (ilk s i) = mypid me s;
  rd_read : forall i, (i < NINODE)%nat -> let ip := k_itable s !!! i in
    0 < i_ref ip -> i_dev ip = dev -> i_valid ip <> 0 -> ip = set_fields (on_disk (k_sb s) v (i_inum ip)) ip }.

Lemma locks_ilk s s' i : inode_locks s' = inode_locks s -> (i < NINODE)%nat -> ilk s' i = ilk s i.
Proof.
  unfold inode_locks. intros H Hi. apply (f_equal (fun l => l !! i)) in H.
  rewrite !list_lookup_fmap, lookup_seq_lt in H by done. cbn in H. by injection H.
Qed.

Lemma pids_mypid me s s' : pids s' = pids s -> mypid me s' = mypid me s.
Proof.
  unfold pids, mypid. intros H. apply (f_equal (fun l => l !! me)) in H. rewrite !list_lookup_fmap in H.
  rewrite !list_lookup_total_alt. destruct (ps_proc (k_ps s') !! me), (ps_proc (k_ps s) !! me); cbn in *; congruence.
Qed.

Lemma fields_ref d r ip : ip = set_fields d ip -> set_i_ref r ip = set_fields d (set_i_ref r ip).
Proof. destruct ip. unfold set_fields, set_i_ref. cbn. by intros [= -> -> -> -> -> -> ->]. Qed.

Section Ops.
Context `{W : WaitBound} `{D : DiskDriver} `{Dok : !DiskOk}.
Context {me : nat} {dev : Z} {v : Z -> list Z}.
Implicit Types (s : kstate) (lk : option nat).
Abbreviation rdy := (ready me dev v).

Lemma ready_calm lk s : rdy lk s -> calm me (k_ps s).
Proof using Type. intros R. apply (txn_calm (dev := dev) v []), R. Qed.

(** Buffers moved, and nothing else. *)
Lemma ready_unmoved lk s s' : rdy lk s -> txn me dev v [] s' -> unmoved s s' -> rdy lk s'.
Proof using Type.
  intros [R1 R2 R3 R4 R5 R6 R7 R8] T [L O]. destruct (outer_parts _ _ O) as (Eh & Esb & Ei & _).
  destruct (outer_locks _ _ O) as [Ek Ep].
  split; rewrite ?L, ?Eh, ?Esb, ?Ei; try done.
  - intros i Hi. rewrite (locks_ilk s s') by done. auto.
  - intros i Hi. rewrite (locks_ilk s s'), (pids_mypid me s s') by done. auto.
Qed.

(** A change of the table. *)
Lemma ready_itable lk s i f :
  rdy lk s -> (i < NINODE)%nat -> table_ok (alter f i (k_itable s)) ->
  (let ip := f (k_itable s !!! i) in
   0 < i_ref ip -> i_dev ip = dev -> i_valid ip <> 0 -> ip = set_fields (on_disk (k_sb s) v (i_inum ip)) ip) ->
  rdy lk (updi i f s).
Proof using Type.
  intros [R1 R2 R3 R4 R5 R6 R7 R8] Hi T H. split; try done; [by apply txn_itable|].
  intros j Hj. cbn [updi with_k_itable k_itable k_sb]. rewrite alter_entry by by rewrite (tb_len _ R3).
  destruct (decide (i = j)) as [<-|]; [exact H|by apply R8].
Qed.

Lemma iget_ready lk s n :
  rdy lk s -> (0 < nfree (k_itable s))%nat ->
  exists i s', iget dev n s = Ret i s' /\ rdy lk s' /\ k_sb s' = k_sb s /\ (i < NINODE)%nat /\
    refers dev n (k_itable s' !!! i) = true /\ counted dev n 1 (k_itable s) (k_itable s') /\
    (forall j m, (j < NINODE)%nat -> refers dev m (k_itable s !!! j) = true -> refers dev m (k_itable s' !!! j) = true).
Proof using Type.
  intros R Hf. pose proof (rd_table _ _ _ _ _ R) as T. pose proof (tb_len _ T) as Hl.
  pose proof (iget_eq me dev n s (ready_calm lk s R) (rd_lock _ _ _ _ _ R)) as E.
  destruct (find_entry (refers dev n) _ _) as [i|] eqn:E1.
  - apply find_entry_some in E1 as [Hi E1]. pose proof (table_one_more dev n _ i T Hi E1) as T'.
    pose proof E1 as (P1 & P2 & P3)%refers_iff. exists i, (updi i one_more s). split; [done|]. split.
    { apply ready_itable; [done..|]. cbn. intros _ Hd Hv. apply fields_ref. by apply (rd_read _ _ _ _ _ R). }
    split; [done|]. split; [done|]. cbn [k_itable updi with_k_itable]. split; [|split].
    + rewrite alter_entry, decide_True by (done || lia). apply refers_iff. cbn. lia.
    + apply counted_alter; try done; [by apply refs_at|].
      intros m (_ & _ & ?)%refers_iff. congruence.
    + intros j m Hj. rewrite alter_entry by lia. destruct (decide (i = j)) as [<-|]; [|done].
      rewrite !refers_iff. cbn. lia.
  - destruct (find_entry unused _ _) as [i|] eqn:E2.
    + apply find_entry_some in E2 as [Hi E2]. pose proof (fun j => find_entry_none _ _ j E1) as Hn.
      pose proof (table_fresh dev n _ i T Hi E2 Hn) as T'. apply Z.eqb_eq in E2.
      exists i, (updi i (fresh dev n) s). split; [done|]. split.
      { apply ready_itable; [done..|]. cbn. done. }
      split; [done|]. split; [done|]. cbn [k_itable updi with_k_itable]. split; [|split].
      * rewrite alter_entry, decide_True by (done || lia). apply refers_iff. cbn. lia.
      * apply counted_alter; try done; [rewrite E2; by apply refs_none|cbn; lia|].
        intros m (? & _ & ?)%refers_iff. lia.
      * intros j m Hj. rewrite alter_entry by lia. destruct (decide (i = j)) as [<-|]; [|done].
        rewrite !refers_iff. lia.
    + destruct (nfree_some _ Hf) as (i & Hi & H0). rewrite Hl in Hi.
      pose proof (find_entry_none _ _ i E2 Hi) as H. apply Z.eqb_neq in H. done.
Qed.

Lemma idup_ready lk s i n :
  rdy lk s -> (i < NINODE)%nat -> refers dev n (k_itable s !!! i) = true ->
  exists s', idup (Some i) s = Ret (Some i) s' /\ rdy lk s' /\ k_sb s' = k_sb s /\
    refers dev n (k_itable s' !!! i) = true /\ counted dev n 1 (k_itable s) (k_itable s').
Proof using Type.
  intros R Hi E1. pose proof (rd_table _ _ _ _ _ R) as T. pose proof (tb_len _ T) as Hl.
  pose proof (table_one_more dev n _ i T Hi E1) as T'. pose proof E1 as (P1 & P2 & P3)%refers_iff.
  assert (rdy lk (updi i one_more s)) as R'.
  { apply ready_itable; [done..|]. cbn. intros _ Hd Hv. apply fields_ref. by apply (rd_read _ _ _ _ _ R). }
  exists (updi i one_more s). split; [|split; [done|split; [done|]]].
  - unfold idup. kstep (kacq_calm me ItableLock s (ready_calm lk s R) (rd_lock _ _ _ _ _ R)). kstep eq_refl.
    by kstep (krel_calm me ItableLock (updi i one_more s) (ready_calm lk _ R') (rd_lock _ _ _ _ _ R')).
  - cbn [k_itable updi with_k_itable]. split.
    + rewrite alter_entry, decide_True by (done || lia). apply refers_iff. cbn. lia.
    + apply counted_alter; try done; [by apply refs_at|].
      intros m (_ & _ & ?)%refers_iff. congruence.
Qed.

Lemma ready_lock s i :
  rdy None s -> (i < NINODE)%nat ->
  exists s', lift (acquiresleep (SlInode i)) s = Ret tt s' /\ rdy (Some i) s' /\
    k_sb s' = k_sb s /\ k_itable s' = k_itable s.
Proof using Type.
  intros R Hi. pose proof (ready_calm None s R) as Hc. destruct R as [[[l C1] C2 C3 C4] R2 R3 R4 R5 R6 R7 R8].
  set (x := Sleeplock 1 (sl_name (ilk s i)) (mypid me s)).
  exists (with_k_ps (set_sleep (SlInode i) x (k_ps s)) s).
  pose proof (R6 i Hi ltac:(done)) as Hf. unfold ilk in Hf.
  split; [exact (lift_Ret _ s _ _ (acquiresleep_free me (SlInode i) (k_ps s) Hc (R5 i Hi) Hf))|].
  split; [|done]. split; try done.
  - split; try done. exists l. by apply cache_inode_lock.
  - intros j Hj Hne. unfold ilk. cbn. rewrite lookup_total_insert_ne by congruence. by apply R6.
  - intros j Hj [= ->]. unfold ilk. cbn. by rewrite lookup_total_insert_eq.
Qed.

Lemma ilock_ready s i n :
  let d := on_disk (k_sb s) v n in
  rdy None s -> (i < NINODE)%nat -> refers dev n (k_itable s !!! i) = true -> d_type d <> 0 ->
  exists s', ilock (Some i) s = Ret tt s' /\ rdy (Some i) s' /\ k_sb s' = k_sb s /\
    k_itable s' !!! i = set_fields d (k_itable s' !!! i) /\ keeps_refs (k_itable s) (k_itable s').
Proof using Dok.
  intros d R Hi Hr Ht. pose proof Hr as (P1 & P2 & P3)%refers_iff.
  destruct (ready_lock s i R Hi) as (s0 & E0 & R0 & Esb & Eit). set (ip := k_itable s !!! i) in *.
  unfold ilock. kstep eq_refl. fold ip. rewrite (proj2 (Z.ltb_ge _ _)) by lia.
  destruct (Z.eqb_spec (i_valid ip) 0) as [Hv|Hv].
  2: { exists s0. split; [|split; [done|split; [done|]]].
    - kstep E0. kstep eq_refl. rewrite Eit. fold ip. by rewrite (proj2 (Z.eqb_neq _ 0)).
    - rewrite Eit. fold ip. split; [|apply keeps_refl]. unfold d. rewrite <- P3. by apply (rd_read _ _ _ _ _ R i Hi). }
  destruct (peek_txn v s0 (IBLOCK n (k_sb s)) (rd_txn _ _ _ _ _ R0) (rd_log _ _ _ _ _ R0))
    as (b & s1 & s2 & E1 & X1 & E2 & T1 & T2 & Q1 & Q2).
  pose proof (ready_unmoved _ _ _ R0 T2 Q2) as R2.
  assert (s2 = gave me b s1) as Eg.
  { destruct T1 as [[l C1] _ _ _]. pose proof (brelse_eq C1) as E. rewrite E in E2. by injection E2. }
  set (f := fun ip => set_i_type (d_type d) (set_i_major (d_major d) (set_i_minor (d_minor d)
    (set_i_nlink (d_nlink d) (set_i_size (d_size d) (set_i_addrs (d_addrs d) ip)))))).
  assert (brelse b (updi i f s1) = Ret tt (updi i f s2)) as E3.
  { rewrite Eg. destruct T1 as [[l C1] _ _ _]. exact (brelse_eq (cache_itable _ _ _ _ (alter f i (k_itable s1)) C1)). }
  pose proof (rd_table _ _ _ _ _ R2) as T. pose proof (tb_len _ T) as Hl.
  assert (k_itable s2 = k_itable s) as Ei2 by (by rewrite (unmoved_itable _ _ Q2)).
  assert (k_itable s1 = k_itable s) as Ei1 by (by rewrite (unmoved_itable _ _ Q1)).
  assert (k_sb s2 = k_sb s) as Esb2 by (destruct Q2 as [_ O]; by destruct (outer_parts _ _ O) as (_ & -> & _)).
  set (g := fun ip => set_i_valid 1 (f ip)).
  destruct (keeps_alter g i (k_itable s2) T Hi) as [T' K]; [done|].
  exists (updi i g s2). split; [|split; [|split; [done|]]].
  - kstep E0. kstep eq_refl. rewrite Eit. fold ip. rewrite Hv, Z.eqb_refl. kstep eq_refl. rewrite Esb, P2, P3.
    kstep E1. kstep eq_refl. rewrite X1. fold (inode_slot n). fold (on_disk (k_sb s) v n). fold d.
    kstep (eq_refl : modi i f s1 = Ret tt (updi i f s1)). kstep E3. kstep eq_refl.
    rewrite (proj2 (Z.eqb_neq _ 0)) by done. unfold updi. cbn [k_itable with_k_itable]. by rewrite Prelude.list_alter_alter.
  - apply ready_itable; [done..|]. rewrite Ei2, Esb2. fold ip. cbn. rewrite P3. done.
  - cbn [k_itable updi with_k_itable]. rewrite alter_entry, decide_True by (done || lia). split; [done|].
    by rewrite <- Ei2.
Qed.

Lemma cache_woken pins held l s c :
  cache me dev pins held l s -> cache me dev pins held l (with_k_ps (woken c me (k_ps s)) s).
Proof using Type.
  intros [C1 C2 C3 C4 C5 C6 C7 C8 C10 C11]. split; try done; [by apply calm_woken|].
  intros b Hb. destruct (C11 b Hb) as [B1 B2 B3 B4]. split; try done.
  intros H. assert (mypid me (with_k_ps (woken c me (k_ps s)) s) = mypid me s) as -> by apply woken_pid. by apply B4.
Qed.

Lemma iunlock_ready s i :
  rdy (Some i) s -> (i < NINODE)%nat -> 0 < i_ref (k_itable s !!! i) ->
  exists s', iunlock (Some i) s = Ret tt s' /\ rdy None s' /\ k_sb s' = k_sb s /\ k_itable s' = k_itable s.
Proof using Type.
  intros R Hi Href. pose proof (ready_calm _ s R) as Hc. destruct R as [[[l C1] C2 C3 C4] R2 R3 R4 R5 R6 R7 R8].
  destruct (R7 i Hi eq_refl) as [H1 H2]. unfold ilk, mypid in H1, H2.
  set (s1 := with_k_ps (set_sleep (SlInode i) (Sleeplock 0 (sl_name (ilk s i)) 0) (k_ps s)) s).
  exists (with_k_ps (woken (ChSleep (SlInode i)) me (k_ps s1)) s1). split; [|split; [|done]].
  - unfold iunlock. assert (lift (holdingsleep (SlInode i)) s = Ret true s) as E.
    { pose proof (holdingsleep_eq me (SlInode i) (k_ps s) Hc (R5 i Hi)) as E.
      rewrite (proj2 (Z.eqb_neq _ 0)), H2, Z.eqb_refl in E by done.
      rewrite (@lift_Ret kstate pstate bool kstate_pstate _ s _ _ E). by destruct s. }
    kstep E. kstep eq_refl. rewrite (proj2 (Z.ltb_ge _ _)) by lia. cbn [negb orb].
    exact (lift_Ret _ _ _ _ (releasesleep_eq me (SlInode i) (k_ps s) Hc (R5 i Hi))).
  - split; try done.
    + split; try done. exists l. by apply cache_woken, cache_inode_lock.
    + intros j Hj _. unfold ilk. cbn. destruct (decide (i = j)) as [<-|Hne]; [by rewrite lookup_total_insert_eq|].
      rewrite lookup_total_insert_ne by congruence. apply R6; [done|congruence].
Qed.

Lemma table_one_less i it n : table_ok it -> (i < NINODE)%nat -> refers dev n (it !!! i) = true ->
  table_ok (alter (fun ip => set_i_ref (i_ref ip - 1) ip) i it).
Proof using Type.
  intros [H1 H2 H3] Hi (P & _)%refers_iff. split.
  - by rewrite length_alter.
  - intros j Hj. rewrite alter_entry by lia. destruct (decide (i = j)); [cbn; lia|by apply H2].
  - intros j k d m Hj Hk. rewrite !alter_entry by lia. intros A B. apply (H3 j k d m Hj Hk).
    + revert A. destruct (decide (i = j)) as [<-|E]; [|done]. rewrite !refers_iff. cbn. lia.
    + revert B. destruct (decide (i = k)) as [<-|E]; [|done]. rewrite !refers_iff. cbn. lia.
Qed.

(** The last reference to an inode that has a link, or any other. *)
Lemma iput_ready lk s i n :
  rdy lk s -> (i < NINODE)%nat -> refers dev n (k_itable s !!! i) = true ->
  d_nlink (on_disk (k_sb s) v n) <> 0 \/ i_ref (k_itable s !!! i) <> 1 ->
  exists s', iput i s = Ret tt s' /\ rdy lk s' /\ k_sb s' = k_sb s /\
    counted dev n (-1) (k_itable s) (k_itable s') /\
    (forall j, j <> i -> k_itable s' !!! j = k_itable s !!! j) /\
    (1 < i_ref (k_itable s !!! i) -> refers dev n (k_itable s' !!! i) = true).
Proof using Type.
  intros R Hi Hr Hl. pose proof (ready_calm _ s R) as Hc. pose proof Hr as (P1 & P2 & P3)%refers_iff.
  pose proof (rd_table _ _ _ _ _ R) as T. pose proof (tb_len _ T) as Hlen.
  set (f := fun ip => set_i_ref (i_ref ip - 1) ip). pose proof (table_one_less i _ n T Hi Hr : table_ok (alter f i _)) as T'.
  assert (rdy lk (updi i f s)) as R'.
  { apply ready_itable; [done..|]. cbn. intros _ Hd Hv. apply fields_ref. by apply (rd_read _ _ _ _ _ R). }
  exists (updi i f s). split; [|split; [done|split; [done|]]].
  - unfold iput. kstep (kacq_calm me ItableLock s Hc (rd_lock _ _ _ _ _ R)). kstep eq_refl.
    change (k_itable (kinside ItableLock s)) with (k_itable s).
    assert ((i_ref (k_itable s !!! i) =? 1) && negb (i_valid (k_itable s !!! i) =? 0) && (i_nlink (k_itable s !!! i) =? 0) = false) as ->.
    { destruct (Z.eqb_spec (i_ref (k_itable s !!! i)) 1); [|done]. destruct (Z.eqb_spec (i_valid (k_itable s !!! i)) 0) as [|Hv]; [done|].
      destruct Hl as [Hl|]; [|done]. pose proof (rd_read _ _ _ _ _ R i Hi P1 P2 Hv) as E. rewrite P3 in E.
      apply (f_equal i_nlink) in E. cbn in E. rewrite E. by apply Z.eqb_neq. }
    kstep eq_refl. kstep eq_refl.
    exact (krel_calm me ItableLock (updi i f s) (ready_calm lk _ R') (rd_lock _ _ _ _ _ R')).
  - cbn [k_itable updi with_k_itable]. split; [|split].
    + apply counted_alter; try done; [by apply refs_at|]. intros m (_ & _ & ?)%refers_iff. congruence.
    + intros j Hj. by apply list_lookup_total_alter_ne.
    + intros H. rewrite alter_entry, decide_True by (done || lia). apply refers_iff. cbn. lia.
Qed.
End Ops.
