(* ===== verification/Namei.v ===== *)
(** Path names: [namex] of kernel/fs.c over the directories of the disk.

    [lookup_path] is path resolution on the content of the blocks alone; [namex]
    returns the entry of the inode it gives, with one reference more, and every
    reference it takes on the way is given back. *)
From S2P Require Import Prelude Riscv Spinlock Memory Bytes Kstring Kalloc Vm Proc Switch Sleeplock UserMem Kstate Bio Cache Log Crash Fs Txn Fileio Itable Dir Dirent Inodes.

(** * Path resolution on the disk *)

(** The inode of name [e] in the directory [d]. *)
Definition dir_child (v : Z -> list Z) (d : dinode) (e : list Z) : option Z :=
  let ip := inode_of d in
  (fun k => de_inum (entry v ip k)) <$> dir_find v ip (take (Z.to_nat DIRSIZ) e) (Z.to_nat (d_size d / DIRENT)).

(** The inode of the path [names] from inode [n], or of the directory its last
    name is in. *)
Fixpoint lookup_path (sb : superblock) (v : Z -> list Z) (parent : bool) (n : Z) (names : list (list Z)) : option Z :=
  match names with
  | [] => if parent then None else Some n
  | e :: names' =>
      let d := on_disk sb v n in
      if negb (d_type d =? T_DIR) then None else
      if parent && bool_decide (names' = []) then Some n else
      match dir_child v d e with
      | Some m => lookup_path sb v parent m names'
      | None => None
      end
  end.

(** The inodes the path visits are in use and have a link, and the directories
    among them are whole. *)
Fixpoint path_ok (sb : superblock) (v : Z -> list Z) (n : Z) (names : list (list Z)) : Prop :=
  let d := on_disk sb v n in
  d_nlink d <> 0 /\
  match names with
  | [] => True
  | e :: names' =>
      d_type d <> 0 /\
      (d_type d = T_DIR -> exists nb, directory v (inode_of d) (Z.to_nat (d_size d / DIRENT)) nb) /\
      forall m, dir_child v d e = Some m -> path_ok sb v m names'
  end.

(** * One element *)

Lemma skip_bytes path : all_bytes path -> all_bytes (skip_slashes path).
Proof.
  unfold all_bytes. induction path as [|c path IH]; [done|]. cbn. intros H. pose proof H as [_ H']%Forall_cons.
  destruct (_ =? _); auto.
Qed.

Lemma skipelem_bytes path name path' name' :
  skipelem path name = Some (path', name') -> name_ok name -> all_bytes path -> name_ok name' /\ all_bytes path'.
Proof.
  unfold skipelem. intros E [Hl Hn] Hp. apply skip_bytes in Hp. destruct (bool_decide _); [done|].
  pose proof (split_elem_app (skip_slashes path)) as Ha. destruct (split_elem _) as [s r]. cbn in Ha.
  rewrite Ha in Hp. apply Forall_app in Hp as [Hs Hr]. injection E as <- <-. split; [|by apply skip_bytes].
  assert (forall bs, all_bytes bs -> (length bs <= Z.to_nat DIRSIZ)%nat -> name_ok (put_bytes 0 bs name)) as H.
  { intros bs Hb Hle. split; [rewrite length_put_bytes; lia|]. unfold put_bytes. cbn [take app]. rewrite take_0. cbn.
    apply Forall_app. split; [done|by apply Forall_drop]. }
  destruct (Z.leb_spec DIRSIZ (Z.of_nat (length s))).
  - apply H; [by apply Forall_take|rewrite length_take; lia].
  - apply H; [|rewrite length_app; cbn; lia]. apply Forall_app. split; [done|]. by repeat constructor.
Qed.

(** What is left of a path is empty when it has no more elements. *)
Lemma skipelem_nil path name path' name' :
  skipelem path name = Some (path', name') -> elements path' = [] -> path' = [].
Proof.
  unfold skipelem. destruct (bool_decide _); [done|]. destruct (split_elem _) as [s r]. intros [= <- _] H.
  destruct (skip_slashes r) as [|c p] eqn:E; [done|]. pose proof (skip_head _ _ _ E) as Hc. exfalso. revert H.
  destruct (split_elem (c :: p)) as [e q] eqn:Es. rewrite (elements_elem _ e q Es); [done|].
  cbn in Es. rewrite (proj2 (Z.eqb_neq c SLASH) Hc) in Es. destruct (split_elem p). by injection Es as <- _.
Qed.

Lemma split_char w path (c : Z) : w ∈ split_path path -> c ∈ w -> c ∈ path.
Proof.
  revert w. induction path as [|x path IH]; intros w Hw Hc.
  - apply list_elem_of_singleton in Hw as ->. by apply not_elem_of_nil in Hc.
  - cbn in Hw. fold (split_path path) in Hw. destruct (x =? SLASH).
    + right. apply elem_of_cons in Hw as [->|Hw]; [by apply not_elem_of_nil in Hc|by apply (IH w)].
    + destruct (split_path path) as [|w' ws].
      * apply list_elem_of_singleton in Hw as ->. apply list_elem_of_singleton in Hc as ->. by left.
      * apply elem_of_cons in Hw as [->|Hw].
        -- apply elem_of_cons in Hc as [->|Hc]; [by left|right; apply (IH w'); [by left|done]].
        -- right. apply (IH w); [by right|done].
Qed.

Lemma elements_char e path c : e ∈ elements path -> c ∈ e -> c ∈ path.
Proof. intros [_ H]%list_elem_of_filter. by apply split_char. Qed.

Lemma named_string name name' de : name_string name = name_string name' -> named name de = named name' de.
Proof. unfold named. by intros ->. Qed.

Lemma dir_find_string v ip name name' n :
  name_string name = name_string name' -> dir_find v ip name n = dir_find v ip name' n.
Proof.
  intros E. unfold dir_find. induction (seq 0 n) as [|k l IH]; [done|]. cbn.
  by rewrite (named_string name name'), IH.
Qed.

Lemma directory_fields v d ip n nb : directory v (inode_of d) n nb -> directory v (set_fields d ip) n nb.
Proof. intros [D1 D2 [M1 M2 M3 M4 M5] D4 D5]. by split. Qed.

Section Walk.
Context `{W : WaitBound} `{D : DiskDriver} `{Dok : !DiskOk}.
Context {me : nat} {dev : Z} {v : Z -> list Z}.
Implicit Types (s : kstate).
Abbreviation rdy := (ready me dev v).

Lemma dirlookup_ready dp s d e name nb :
  rdy (Some dp) s -> i_dev (k_itable s !!! dp) = dev ->
  k_itable s !!! dp = set_fields d (k_itable s !!! dp) ->
  directory v (inode_of d) (Z.to_nat (d_size d / DIRENT)) nb ->
  name_ok name -> name_string name = take (Z.to_nat DIRSIZ) e -> 0 ∉ e -> (0 < nfree (k_itable s))%nat ->
  match dir_child v d e with
  | None => exists s', dirlookup dp name s = Ret None s' /\ rdy (Some dp) s' /\ k_sb s' = k_sb s /\ k_itable s' = k_itable s
  | Some m => exists i off s', dirlookup dp name s = Ret (Some (i, off)) s' /\ rdy (Some dp) s' /\ k_sb s' = k_sb s /\
      (i < NINODE)%nat /\ refers dev m (k_itable s' !!! i) = true /\ counted dev m 1 (k_itable s) (k_itable s') /\
      (forall j m, (j < NINODE)%nat -> refers dev m (k_itable s !!! j) = true -> refers dev m (k_itable s' !!! j) = true)
  end.
Proof using Dok.
  intros R Hdev Hip Hd Hn He H0 Hf. set (ip := k_itable s !!! dp) in *. set (n := Z.to_nat (d_size d / DIRENT)) in *.
  assert (directory v ip n nb) as Hd' by (rewrite Hip; by apply directory_fields).
  destruct (dirlookup_txn me dev dp v ip n nb Hd' Hdev name s) as (s1 & [T1 _ _] & Q & H); [|done|].
  { split; [apply R|apply R|done]. }
  pose proof (ready_unmoved _ _ _ R T1 Q) as R1. pose proof (unmoved_itable _ _ Q) as Ei.
  assert (k_sb s1 = k_sb s) as Esb by (destruct Q as [_ O]; by destruct (outer_parts _ _ O) as (_ & -> & _)).
  assert (dir_find v ip name n = dir_find v (inode_of d) (take (Z.to_nat DIRSIZ) e) n) as Ef.
  { transitivity (dir_find v (inode_of d) name n); [by rewrite Hip|]. apply dir_find_string. rewrite He. symmetry.
    apply name_string_full. intros Hin. by apply H0, (subseteq_take (Z.to_nat DIRSIZ)). }
  rewrite Ef in H. unfold dir_child. fold n. destruct (dir_find v (inode_of d) _ n) as [k|]; cbn [fmap option_fmap option_map].
  - destruct (iget_ready (Some dp) s1 (de_inum (entry v (inode_of d) k)) R1) as (i & s2 & E2 & R2 & Esb2 & Hi & Hr & Hc & Hk);
      [by rewrite Ei|].
    exists i, (DIRENT * Z.of_nat k), s2. rewrite <- Ei. split; [|split; [done|split; [by rewrite Esb2|done]]].
    apply H. by rewrite Hip.
  - exists s1. done.
Qed.

Lemma iunlockput_ready s i n :
  rdy (Some i) s -> (i < NINODE)%nat -> refers dev n (k_itable s !!! i) = true -> d_nlink (on_disk (k_sb s) v n) <> 0 ->
  exists s', iunlockput i s = Ret tt s' /\ rdy None s' /\ k_sb s' = k_sb s /\
    counted dev n (-1) (k_itable s) (k_itable s') /\
    (forall j, j <> i -> k_itable s' !!! j = k_itable s !!! j) /\
    (1 < i_ref (k_itable s !!! i) -> refers dev n (k_itable s' !!! i) = true).
Proof using Type.
  intros R Hi Hr Hl. pose proof Hr as (P & _)%refers_iff.
  destruct (iunlock_ready s i R Hi P) as (s1 & E1 & R1 & S1 & I1).
  destruct (iput_ready None s1 i n R1 Hi) as (s2 & E2 & R2 & S2 & C2 & K2); [by rewrite I1|left; by rewrite S1|].
  exists s2. unfold iunlockput. kstep E1. rewrite I1 in C2, K2. split; [done|]. split; [done|]. by rewrite S2.
Qed.

(** ** The references the walk has *)

Context (sb : superblock) (R0 : Z -> Z) (F0 : nat) (HR0 : forall m, 0 <= R0 m) (HF0 : (2 <= F0)%nat).

(** The walk has one reference, to inode [n] in entry [i], and none. *)
Record refers_ok (n : Z) (i : nat) (s : kstate) : Prop := {
  ho_ready : rdy None s;
  ho_sb : k_sb s = sb;
  ho_lt : (i < NINODE)%nat;
  ho_refers : refers dev n (k_itable s !!! i) = true;
  ho_refs : forall m, refs dev (k_itable s) m = R0 m + (if m =? n then 1 else 0);
  ho_free : (nfree (k_itable s) + 1 = F0 + taken_by (R0 n))%nat }.
Record released (s : kstate) : Prop := {
  re_ready : rdy None s;
  re_refs : forall m, refs dev (k_itable s) m = R0 m }.

Lemma released_put s s' n :
  (forall m, refs dev (k_itable s) m = R0 m + (if m =? n then 1 else 0)) ->
  rdy None s' -> counted dev n (-1) (k_itable s) (k_itable s') -> released s'.
Proof using Type.
  intros Hr R [C _]. split; [done|]. intros m. rewrite C, Hr. destruct (m =? n); ring.
Qed.

(** Entry [j] of inode [m] was looked up while [i] was held. *)
Lemma holding_next s s1 s2 n m i j :
  (forall x, refs dev (k_itable s) x = R0 x + (if x =? n then 1 else 0)) ->
  (nfree (k_itable s) + 1 = F0 + taken_by (R0 n))%nat ->
  rdy (Some i) s1 -> (i < NINODE)%nat -> refers dev n (k_itable s1 !!! i) = true ->
  counted dev m 1 (k_itable s) (k_itable s1) -> (j < NINODE)%nat -> refers dev m (k_itable s1 !!! j) = true ->
  rdy None s2 -> k_sb s2 = sb -> counted dev n (-1) (k_itable s1) (k_itable s2) ->
  (forall x, x <> i -> k_itable s2 !!! x = k_itable s1 !!! x) ->
  (1 < i_ref (k_itable s1 !!! i) -> refers dev n (k_itable s2 !!! i) = true) ->
  refers_ok m j s2.
Proof using HR0 HF0.
  intros Hr Hf R1 Hi Hri [C1 F1] Hj Hrj R2 Hsb [C2 F2] Hk Hlast. pose proof (rd_table _ _ _ _ _ R1) as T1.
  assert (refs dev (k_itable s1) n = i_ref (k_itable s1 !!! i)) as Eri by (by apply refs_at).
  pose proof (HR0 n) as Hn. pose proof (HR0 m) as Hm.
  split; [done|done|done|..].
  - destruct (decide (j = i)) as [->|Hne]; [|by rewrite Hk].
    assert (m = n) as -> by (apply refers_iff in Hri, Hrj; destruct Hri as (_ & _ & <-), Hrj as (_ & _ & <-); done).
    apply Hlast. rewrite <- Eri, C1, Hr, !Z.eqb_refl. lia.
  - intros x. rewrite C2, C1, Hr. destruct (x =? n), (x =? m); lia.
  - rewrite !C2, !C1, !Hr in F2. rewrite C1, Hr in F1. rewrite Z.eqb_refl in F1, F2. unfold taken_by in *.
    rewrite (Z.eqb_sym n m) in F2.
    destruct (Z.eqb_spec m n) as [->|Hmn]; repeat match goal with
      | H : context [?a =? 0] |- _ => destruct (Z.eqb_spec a 0)
      | |- context [?a =? 0] => destruct (Z.eqb_spec a 0)
      end; lia.
Qed.

(** ** The loop *)

Lemma holding_locked n i s :
  refers_ok n i s -> d_type (on_disk sb v n) <> 0 ->
  exists s', ilock (Some i) s = Ret tt s' /\ rdy (Some i) s' /\ k_sb s' = sb /\
    k_itable s' !!! i = set_fields (on_disk sb v n) (k_itable s' !!! i) /\
    refers dev n (k_itable s' !!! i) = true /\
    (forall m, refs dev (k_itable s') m = R0 m + (if m =? n then 1 else 0)) /\
    (nfree (k_itable s') + 1 = F0 + taken_by (R0 n))%nat.
Proof using Dok.
  intros [R Hsb Hi Hr Hc Hf] Ht. rewrite <- Hsb in Ht.
  destruct (ilock_ready s i n R Hi Hr Ht) as (s' & E & R' & Hsb' & Hip & [K1 K2 K3]). rewrite Hsb in *.
  exists s'. split; [done|]. split; [done|]. split; [done|]. split; [done|]. rewrite K3, K2.
  split; [done|]. split; [|done]. intros m. by rewrite K1.
Qed.

(** The outcome of the path [names] from inode [n] of entry [i]. *)
Definition outcome (parent : bool) (n : Z) (names : list (list Z)) (r : option nat) (s' : kstate) : Prop :=
  match lookup_path sb v parent n names with
  | Some m => exists j, r = Some j /\ refers_ok m j s'
  | None => r = None /\ released s'
  end.

Lemma walk_step parent n i path name path' name' e s :
  refers_ok n i s -> skipelem path name = Some (path', name') ->
  elements path = e :: elements path' -> name_ok name' -> name_string name' = take (Z.to_nat DIRSIZ) e ->
  0 ∉ e -> path_ok sb v n (elements path) ->
  (exists r s', walk_body parent (i, path, name) s = Ret (inr (r, name')) s' /\
     outcome parent n (elements path) r s' /\ (parent = true -> r <> None -> elements path' = [])) \/
  (exists m j s', walk_body parent (i, path, name) s = Ret (inl (j, path', name')) s' /\ refers_ok m j s' /\
     lookup_path sb v parent n (elements path) = lookup_path sb v parent m (elements path') /\
     path_ok sb v m (elements path')).
Proof using Dok HR0 HF0.
  intros H Es Ee Hn He H0 Hok. rewrite Ee in Hok. cbn [path_ok] in Hok. destruct Hok as (Hl & Ht & Hd & Hch).
  pose proof (ho_lt _ _ _ H) as Hi. unfold outcome. rewrite Ee. cbn [lookup_path].
  destruct (holding_locked n i s H Ht) as (s1 & E1 & R1 & Esb & Hip & Hr & Hrefs & Hfree).
  rewrite <- Esb in Hl. set (d := on_disk sb v n) in *.
  assert (i_type (k_itable s1 !!! i) = d_type d) as Ety by (by rewrite Hip).
  assert (walk_body parent (i, path, name) s = (d <- geti i ;;
      if negb (i_type d =? T_DIR) then iunlockput i ;; ret (inr (None, name')) else
      if parent && bool_decide (path' = []) then iunlock (Some i) ;; ret (inr (Some i, name')) else
      r <- dirlookup i name' ;;
      match r with
      | None => iunlockput i ;; ret (inr (None, name'))
      | Some (next, _) => iunlockput i ;; ret (inl (next, path', name'))
      end) s1) as Eb by (unfold walk_body; rewrite Es; by kstep E1).
  rewrite Eb. kstep eq_refl. rewrite Ety. destruct (Z.eqb_spec (d_type d) T_DIR) as [Hdir|Hdir]; cbn [negb].
  2: { left. destruct (iunlockput_ready s1 i n R1 Hi Hr Hl) as (s2 & E2 & R2 & _ & C2 & _).
    exists None, s2. split; [by kstep E2|]. split; [|done]. split; [done|]. by apply (released_put s1 s2 n). }
  assert (bool_decide (path' = []) = bool_decide (elements path' = [])) as ->.
  { apply bool_decide_ext. split; [by intros ->|]. by apply (skipelem_nil path name path' name'). }
  destruct (parent && bool_decide (elements path' = [])) eqn:Ep.
  { left. pose proof Hr as (P & _)%refers_iff. destruct (iunlock_ready s1 i R1 Hi P) as (s2 & E2 & R2 & S2 & I2).
    exists (Some i), s2. split; [by kstep E2|]. split.
    - exists i. split; [done|]. split; rewrite ?I2; try done. by rewrite S2.
    - apply andb_true_iff in Ep as [_ Ep]. by apply bool_decide_eq_true_1 in Ep. }
  destruct (Hd Hdir) as [nb Hdr]. pose proof Hr as (_ & P & _)%refers_iff.
  assert (0 < nfree (k_itable s1))%nat as Hnf.
  { revert Hfree. unfold taken_by. destruct (R0 n =? 0); lia. }
  pose proof (dirlookup_ready i s1 d e name' nb R1 P Hip Hdr Hn He H0 Hnf) as HL.
  destruct (dir_child v d e) as [m|] eqn:Ec.
  - right. destruct HL as (j & off & s2 & E2 & R2 & S2 & Hj & Hrj & C2 & K2). rewrite <- S2 in Hl.
    pose proof (K2 i n Hi Hr) as Hri.
    destruct (iunlockput_ready s2 i n R2 Hi Hri Hl) as (s3 & E3 & R3 & S3 & C3 & K3 & L3).
    exists m, j, s3. split; [kstep E2; cbv beta iota; by kstep E3|]. split; [|split; [done|by apply Hch]].
    apply (holding_next s1 s2 s3 n m i j); try done. congruence.
  - left. destruct HL as (s2 & E2 & R2 & S2 & I2). rewrite <- S2 in Hl. rewrite <- I2 in Hr.
    destruct (iunlockput_ready s2 i n R2 Hi Hr Hl) as (s3 & E3 & R3 & _ & C3 & _). rewrite I2 in C3.
    exists None, s3. split; [kstep E2; cbv beta iota; by kstep E3|]. split; [|done]. split; [done|]. by apply (released_put s1 s3 n).
Qed.

Lemma walk_loop parent fuel n i path name s :
  refers_ok n i s -> (length path < fuel)%nat -> 0 ∉ path -> all_bytes path -> name_ok name -> path_ok sb v n (elements path) ->
  exists r name' s', loop fuel (walk_body parent) (i, path, name) s = Ret (r, name') s' /\
    outcome parent n (elements path) r s' /\
    (parent = true -> r <> None -> exists e, List.last (elements path) [] = e /\ name_string name' = take (Z.to_nat DIRSIZ) e).
Proof using Dok HR0 HF0.
  revert n i path name s. induction fuel as [|fuel IH]; intros n i path name s H Hf H0 Hb Hn Hok; [lia|].
  pose proof (skipelem_spec path name (proj1 Hn) H0) as Hs. destruct (skipelem path name) as [[path' name']|] eqn:Es.
  2: { rewrite Hs in *. unfold outcome. cbn [lookup_path]. destruct parent.
    - destruct Hok as [Hl _]. rewrite <- (ho_sb _ _ _ H) in Hl.
      destruct (iput_ready None s i n (ho_ready _ _ _ H) (ho_lt _ _ _ H) (ho_refers _ _ _ H) (or_introl Hl))
        as (s' & E & R & _ & C & _).
      exists None, name, s'. split; [apply loop_exit; unfold walk_body; rewrite Es; by kstep E|]. split; [|done].
      split; [done|]. apply (released_put s s' n); [apply H|done..].
    - exists (Some i), name, s. split; [apply loop_exit; unfold walk_body; by rewrite Es|]. split; [by exists i|done]. }
  destruct Hs as (Hlen & Hl' & H0' & e & Ee & He).
  destruct (skipelem_bytes _ _ _ _ Es Hn Hb) as [Hn' Hb'].
  assert (0 ∉ e) as H0e.
  { intros Hin. apply H0, (elements_char e path); [by rewrite Ee; left|done]. }
  destruct (walk_step parent n i path name path' name' e s H Es Ee Hn' He H0e Hok)
    as [(r & s' & E & O & L)|(m & j & s' & E & H' & El & Hok')].
  - exists r, name', s'. split; [by apply loop_exit|]. split; [done|]. intros Hp Hr. exists e.
    rewrite Ee, (L Hp Hr). done.
  - destruct (IH m j path' name' s' H') as (r & name2 & s2 & E2 & O2 & L2); [lia|done..|].
    exists r, name2, s2. rewrite (loop_next _ _ _ _ _ _ E). split; [done|]. split; [unfold outcome in *; by rewrite El|].
    intros Hp Hr. destruct (L2 Hp Hr) as (e2 & Hlast & Hname). exists e2. split; [|done]. rewrite Ee.
    destruct (elements path') as [|e' es] eqn:Ees; [|done].
    unfold outcome in O2. cbn [lookup_path] in O2. rewrite Hp in O2. by destruct O2 as [-> _].
Qed.
End Walk.

(** Where a path starts: at the root, or at the current directory. *)
Definition starts (me : nat) (path : list Z) (s : kstate) (n : Z) : Prop :=
  if bool_decide (path !! 0%nat = Some SLASH) then n = ROOTINO
  else exists c, p_cwd (ps_proc (k_ps s) !!! me) = Some c /\ (c < NINODE)%nat /\
    refers ROOTDEV n (k_itable s !!! c) = true.

Section Namex.
Context `{W : WaitBound} `{D : DiskDriver} `{Dok : !DiskOk}.

Lemma namex_spec me v path parent name s n
  (Hr : ready me ROOTDEV v None s) (Hfree : (2 <= nfree (k_itable s))%nat)
  (H0 : 0 ∉ path) (Hb : all_bytes path) (Hn : name_ok name)
  (Hs : starts me path s n) (Hok : path_ok (k_sb s) v n (elements path)) :
  exists r name' s', namex path parent name s = Ret (r, name') s' /\ ready me ROOTDEV v None s' /\
    match lookup_path (k_sb s) v parent n (elements path) with
    | None => r = None /\ forall m, refs ROOTDEV (k_itable s') m = refs ROOTDEV (k_itable s) m
    | Some k => exists i, r = Some i /\ k_sb s' = k_sb s /\ (i < NINODE)%nat /\ refers ROOTDEV k (k_itable s' !!! i) = true /\
        (parent = true -> name_string name' = take (Z.to_nat DIRSIZ) (List.last (elements path) [])) /\
        forall m, refs ROOTDEV (k_itable s') m = refs ROOTDEV (k_itable s) m + (if m =? k then 1 else 0)
    end.
Proof using Dok.
  set (R0 := refs ROOTDEV (k_itable s)). set (F0 := nfree (k_itable s)). fold F0 in Hfree.
  assert (forall m, 0 <= R0 m) as HR0 by (intros m; apply refs_nonneg, Hr).
  assert (exists i s1, (if bool_decide (path !! 0%nat = Some SLASH)
         then i <- iget ROOTDEV ROOTINO ;; ret (Some i)
         else p <- lift curproc ;; q <- lift (getp p) ;; idup (p_cwd q)) s = Ret (Some i) s1 /\
      refers_ok (me := me) (dev := ROOTDEV) (v := v) (k_sb s) R0 F0 n i s1) as (i & s1 & E1 & H1).
  { revert Hs. unfold starts. destruct (bool_decide _).
    - intros ->. destruct (iget_ready None s ROOTINO Hr ltac:(lia)) as (i & s1 & E1 & R1 & S1 & Hi & Hri & [C1 C2] & _).
      exists i, s1. split; [by kstep E1|]. split; try done. fold F0 in C2. rewrite C1, Z.eqb_refl in C2. fold R0 in C2.
      revert C2. unfold taken_by. rewrite (proj2 (Z.eqb_neq (_ + 1) 0)) by (pose proof (HR0 ROOTINO); lia). done.
    - intros (c & Ec & Hc & Hrc).
      destruct (idup_ready None s c n Hr Hc Hrc) as (s1 & E1 & R1 & S1 & Hri & [C1 C2]).
      exists c, s1. split.
      + pose proof (calm_curproc me (k_ps s) (ready_calm None s Hr)) as Ep.
        assert (lift curproc s = Ret me s) as Ep' by (rewrite (@lift_Ret kstate pstate nat kstate_pstate _ s _ _ Ep); by destruct s).
        kstep Ep'. erewrite bind_Ret; [|by apply (lift_Ret (getp me) s (ps_proc (k_ps s) !!! me) (k_ps s))].
        rewrite Ec. by destruct s.
      + split; try done. fold F0 in C2. rewrite C1, Z.eqb_refl in C2. fold R0 in C2.
        revert C2. unfold taken_by. rewrite (proj2 (Z.eqb_neq (_ + 1) 0)) by (pose proof (HR0 n); lia). done. }
  destruct (walk_loop (k_sb s) R0 F0 HR0 Hfree parent (S (length path)) n i path name s1 H1) as (r & name' & s2 & E2 & O & L);
    [lia|done..|].
  exists r, name', s2. split; [|].
  - unfold namex. kstep E1. exact E2.
  - unfold outcome in O. destruct (lookup_path _ _ _ _ _) as [k|].
    + destruct O as (j & -> & [J1 J2 J3 J4 J5 J6]). split; [done|]. exists j. do 4 (split; [done|]). split; [|done].
      intros Hp. by destruct (L Hp ltac:(done)) as (e & -> & ->).
    + destruct O as [-> [J1 J2]]. done.
Qed.

(** C16. [namex] resolves path names as the disk's directories say, and leaks no
    reference.  From the root for a path with a leading slash, else from the
    current directory, it walks the elements of the path, reading every inode on
    the way from the disk unless it is in memory, and returns the entry of the
    inode that [lookup_path] gives, with one reference more than before, or no
    entry when a name does not exist or an inode on the way is no directory; as
    [nameiparent] it stops one level early, with the last element in [name].
    Every other inode has exactly the references it had, no inode stays locked,
    and what is in memory still agrees with the disk.  This is inside a
    transaction with two free entries in the inode table, on a disk where the
    inodes on the way are in use and have a link, and the directories among them
    are well formed. *)
Theorem namex_correct me v path parent name s n
  (Hr : ready me ROOTDEV v None s) (Hfree : (2 <= nfree (k_itable s))%nat)
  (H0 : 0 ∉ path) (Hb : all_bytes path) (Hn : name_ok name)
  (Hs : starts me path s n) (Hok : path_ok (k_sb s) v n (elements path)) :
  exists r name' s', namex path parent name s = Ret (r, name') s' /\ ready me ROOTDEV v None s' /\
    match lookup_path (k_sb s) v parent n (elements path) with
    | None => r = None /\ forall m, refs ROOTDEV (k_itable s') m = refs ROOTDEV (k_itable s) m
    | Some k => exists i, r = Some i /\ k_sb s' = k_sb s /\ (i < NINODE)%nat /\ refers ROOTDEV k (k_itable s' !!! i) = true /\
        (parent = true -> name_string name' = take (Z.to_nat DIRSIZ) (List.last (elements path) [])) /\
        forall m, refs ROOTDEV (k_itable s') m = refs ROOTDEV (k_itable s) m + (if m =? k then 1 else 0)
    end.
Proof using Dok. by apply namex_spec. Qed.
End Namex.

(** * Examples *)

(** The root has an entry [a], a file with one link; no inode is in memory. *)
Definition demo_inodes : list Z :=
  put_dinode 1 (Dinode T_DIR 0 0 1 32 (60 :: replicate 12 0)) (put_dinode 7 (Dinode T_FILE 0 0 1 5 (replicate 13 0)) zero_block).
Definition demo_tree : gmap Z (list Z) := {[40 := demo_inodes; 60 := demo_dir_block]}.
(** A kernel in a transaction on disk [d]. *)
Definition demo_booted (sb : superblock) (d : gmap Z (list Z)) : kstate :=
  with_k_sb sb (with_k_itable (replicate NINODE (Inode 0 0 0 0 0 0 0 0 0 [])) (demo_fs d 1)).
Definition demo_walk : kstate := demo_booted demo_super demo_tree.

Lemma demo_free_inode sb d i : (i < NINODE)%nat -> k_itable (demo_booted sb d) !!! i = Inode 0 0 0 0 0 0 0 0 0 [].
Proof. apply lookup_total_replicate_2. Qed.

Lemma demo_booted_ready sb d : ready 1 1 (dblock d) None (demo_booted sb d).
Proof.
  split.
  - destruct (txn_itable (dblock d) [] _ (replicate NINODE (Inode 0 0 0 0 0 0 0 0 0 [])) (demo_txn d 1)) as [[l [C1 C2 C3 C4 C5 C6 C7 C8 C10 C11]] T2 T3 T4].
    split; try done. exists l. split; try done. intros b Hb. by destruct (C11 b Hb).
  - by vm_compute.
  - split; [done|..]; intros i; intros; rewrite ?demo_free_inode in * by done; done.
  - by eapply demo_lock_free.
  - intros i Hi. eapply demo_lock_free. unfold demo_locks. apply elem_of_list_to_map_1.
    + rewrite <- list_fmap_compose, list_fmap_id. apply (bool_decide_unpack _). by vm_compute.
    + apply list_elem_of_fmap. eexists. split; [reflexivity|]. rewrite !elem_of_app. do 3 right.
      apply list_elem_of_fmap. exists i. split; [done|]. apply elem_of_seq. change NINODE with 50%nat in Hi. lia.
  - intros i Hi _. unfold ilk. cbn. rewrite lookup_total_empty. done.
  - done.
  - intros i Hi. rewrite demo_free_inode by done. done.
Qed.

Lemma namex_correct_witness :
  exists i name' s', @namex 0%nat ram_disk [47; 97] false no_name demo_walk = Ret (Some i, name') s' /\
    refers 1 7 (k_itable s' !!! i) = true /\ refs 1 (k_itable s') 7 = 1 /\ refs 1 (k_itable s') 1 = 0.
Proof.
  destruct (@namex_correct 0%nat ram_disk ram_disk_ok 1 (dblock demo_tree) [47; 97] false no_name demo_walk 1)
    as (r & name' & s' & E & _ & H).
  - apply demo_booted_ready.
  - vm_compute. lia.
  - apply (bool_decide_unpack _). by vm_compute.
  - apply (bool_decide_unpack _). by vm_compute.
  - by apply (demo_name_ok 0).
  - reflexivity.
  - assert (on_disk (k_sb demo_walk) (dblock demo_tree) 1 = Dinode T_DIR 0 0 1 32 (60 :: replicate 12 0)) as E1 by (by vm_compute).
    change (elements [47; 97]) with [[97]]. cbn [path_ok]. rewrite E1. split; [done|]. split; [done|]. split.
    + intros _. exists 1. by apply demo_directory.
    + intros m Hm. assert (dir_child (dblock demo_tree) (Dinode T_DIR 0 0 1 32 (60 :: replicate 12 0)) [97] = Some 7) as E7 by (by vm_compute).
      rewrite E7 in Hm. injection Hm as <-. split; [by vm_compute|done].
  - assert (lookup_path (k_sb demo_walk) (dblock demo_tree) false 1 (elements [47; 97]) = Some 7) as E7 by (by vm_compute).
    rewrite E7 in H. destruct H as (i & -> & _ & _ & Hr & _ & Hc). exists i, name', s'. split; [exact E|]. split; [exact Hr|].
    rewrite !Hc. split; vm_compute; reflexivity.
Defined.
