(* ===== verification/Pipe.v ===== *)
(** kernel/pipe.c: reading, writing and closing a pipe ([pipealloc] is in
    File.v, with the files it allocates). *)
From S2P Require Import Prelude Ring Riscv Spinlock Memory Bytes Kalloc Vm Proc Switch Sleeplock UserMem Kstate.

Definition pipeclose (pi writable : Z) : M kstate unit :=
  kacq (PipeLock pi) ;;
  (if negb (writable =? 0) then
     modpi pi (set_pi_writeopen 0) ;; lift (wakeup (ChPipeRead pi))
   else
     modpi pi (set_pi_readopen 0) ;; lift (wakeup (ChPipeWrite pi))) ;;
  x <- getpi pi ;;
  if (pi_readopen x =? 0) && (pi_writeopen x =? 0) then
    krel (PipeLock pi) ;;
    modify (fun s => with_k_pipes (delete pi (k_pipes s)) s) ;;
    lift (kfree pi)
  else krel (PipeLock pi).

(** [pi->data[pi->nwrite++ % PIPESIZE] = ch]. *)
Definition pipe_put (ch : Z) (x : pipe) : pipe :=
  set_pi_nwrite (u32 (pi_nwrite x + 1))
    (set_pi_data (<[Z.to_nat (pi_nwrite x mod PIPESIZE) := ch]> (pi_data x)) x).
Definition pipe_full (x : pipe) : bool := pi_nwrite x =? u32 (pi_nread x + PIPESIZE).
Definition pipe_empty (x : pipe) : bool := pi_nread x =? pi_nwrite x.
(** [pi->data[pi->nread % PIPESIZE]]. *)
Definition pipe_head (x : pipe) : Z := pi_data x !!! Z.to_nat (pi_nread x mod PIPESIZE).
(** [pi->nread++]. *)
Definition pipe_get (x : pipe) : pipe := set_pi_nread (u32 (pi_nread x + 1)) x.

Section Pipe.
Context `{WaitBound}.

(** At most [n] bytes and [wait_bound] waits. *)
Definition pipewrite (pi addr n : Z) : M kstate Z :=
  pr <- lift curproc ;;
  kacq (PipeLock pi) ;;
  r <- loop (S (Z.to_nat n) + wait_bound) (fun i =>
    if negb (i <? n) then ret (inr (Some i)) else
    x <- getpi pi ;;
    k <- (if pi_readopen x =? 0 then ret 1 else lift (killed pr)) ;;
    if negb (k =? 0) then krel (PipeLock pi) ;; ret (inr None) else
    if pipe_full x then
      lift (wakeup (ChPipeRead pi)) ;;
      lift (sleep (ChPipeWrite pi) (PipeLock pi)) ;;
      ret (inl i)
    else
      q <- lift (getp pr) ;;
      r <- lift (copyin (p_pagetable q) (u64 (addr + i)) 1) ;;
      if fst r =? -1 then ret (inr (Some i)) else
      modpi pi (pipe_put (snd r !!! 0%nat)) ;;
      ret (inl (i + 1))) 0 ;;
  match r with
  | None => ret (-1)
  | Some i =>
      lift (wakeup (ChPipeRead pi)) ;;
      krel (PipeLock pi) ;;
      ret i
  end.

Definition piperead (pi addr n : Z) : M kstate Z :=
  pr <- lift curproc ;;
  kacq (PipeLock pi) ;;
  ok <- loop (S wait_bound) (fun (_ : unit) =>
    x <- getpi pi ;;
    if pipe_empty x && negb (pi_writeopen x =? 0) then
      k <- lift (killed pr) ;;
      if negb (k =? 0) then krel (PipeLock pi) ;; ret (inr false) else
      lift (sleep (ChPipeRead pi) (PipeLock pi)) ;;
      ret (inl tt)
    else ret (inr true)) tt ;;
  if negb ok then ret (-1) else
  i <- loop (S (Z.to_nat n)) (fun i =>
    if negb (i <? n) then ret (inr i) else
    x <- getpi pi ;;
    if pipe_empty x then ret (inr i) else
    q <- lift (getp pr) ;;
    r <- lift (copyout (p_pagetable q) (u64 (addr + i)) [pipe_head x]) ;;
    if r =? -1 then ret (inr (if i =? 0 then -1 else i)) else
    modpi pi pipe_get ;;
    ret (inl (i + 1))) 0 ;;
  lift (wakeup (ChPipeWrite pi)) ;;
  krel (PipeLock pi) ;;
  ret i.
End Pipe.

(** * The ring buffer as a queue *)

(** The bytes in the pipe, oldest first. *)
Definition pipe_count (x : pipe) : Z := ahead (pi_nread x) (pi_nwrite x).
Definition contents (x : pipe) : list Z := slice PIPESIZE (pi_data x) (pi_nread x) (pipe_count x).

(** The counters are 32-bit and at most [PIPESIZE] apart, modulo [2^32]. *)
Definition pipe_ok (x : pipe) : Prop :=
  length (pi_data x) = Z.to_nat PIPESIZE /\
  0 <= pi_nread x < 2 ^ 32 /\ 0 <= pi_nwrite x < 2 ^ 32 /\ pipe_count x <= PIPESIZE.

Lemma PIPESIZE_ok : 0 < PIPESIZE /\ (PIPESIZE | 2 ^ 32).
Proof. split; [done|]. by exists (2 ^ 23). Qed.

Section Counters.
Context (x : pipe) (Hx : pipe_ok x).

Lemma pipe_full_count : pipe_full x = true <-> pipe_count x = PIPESIZE.
Proof using Hx.
  destruct Hx as (_ & H1 & H2 & H3). unfold pipe_full, pipe_count in *. rewrite Z.eqb_eq.
  change PIPESIZE with 512 in *. u32s. lia.
Qed.

Lemma pipe_empty_count : pipe_empty x = true <-> pipe_count x = 0.
Proof using Hx.
  destruct Hx as (_ & H1 & H2 & H3). unfold pipe_empty, pipe_count in *. rewrite Z.eqb_eq. by rewrite ahead_zero.
Qed.

Lemma pipe_put_ok ch : pipe_count x < PIPESIZE ->
  pipe_ok (pipe_put ch x) /\ contents (pipe_put ch x) = contents x ++ [ch].
Proof using Hx.
  intros Hlt. destruct Hx as (H0 & H1 & H2 & H3).
  assert (pipe_count (pipe_put ch x) = pipe_count x + 1) as E.
  { apply ahead_next; [done..|]. change (pipe_count x < 2 ^ 31). change PIPESIZE with 512 in *. lia. }
  split; [split; [cbn; by rewrite length_insert|split; [done|split; [apply u32_range|lia]]]|].
  unfold contents. rewrite E. cbn [pipe_put pi_data pi_nread set_pi_nwrite set_pi_data].
  assert (pi_nwrite x mod PIPESIZE = (pi_nread x + pipe_count x) mod PIPESIZE) as ->.
  { rewrite <- (ahead_at (pi_nread x) (pi_nwrite x)) by done. fold (pipe_count x).
    rewrite <- (Z.add_0_r (u32 _)), pos_u32, Z.add_0_r by apply PIPESIZE_ok. done. }
  apply slice_push; [done..|]. split; [apply u32_range|done].
Qed.

Lemma pipe_get_ok : 0 < pipe_count x ->
  pipe_ok (pipe_get x) /\ contents x = pipe_head x :: contents (pipe_get x).
Proof using Hx.
  intros Hlt. destruct Hx as (H0 & H1 & H2 & H3).
  assert (pipe_count (pipe_get x) = pipe_count x - 1) as E by by apply ahead_less.
  split; [split; [done|split; [apply u32_range|split; [done|lia]]]|].
  unfold contents. rewrite E. apply slice_cons; [apply PIPESIZE_ok..|done].
Qed.
End Counters.

(** C35. A pipe is a first-in first-out queue of at most [PIPESIZE] bytes.  The
    tests of [pipewrite] and [piperead] recognise a full and an empty queue;
    storing a byte in a pipe that is not full appends it, the byte [piperead]
    delivers is the oldest one, and counting it read removes it; the counters
    may wrap around at [2^32] at any moment. *)
Theorem pipe_refines_queue x ch (Hx : pipe_ok x) :
  (pipe_full x = true <-> Z.of_nat (length (contents x)) = PIPESIZE) /\
  (pipe_empty x = true <-> contents x = []) /\
  (pipe_full x = false ->
     pipe_ok (pipe_put ch x) /\ contents (pipe_put ch x) = contents x ++ [ch]) /\
  (pipe_empty x = false ->
     pipe_ok (pipe_get x) /\ contents x = pipe_head x :: contents (pipe_get x)).
Proof.
  pose proof (pipe_full_count x Hx) as Hf. pose proof (pipe_empty_count x Hx) as He.
  assert (0 <= pipe_count x <= PIPESIZE) as Hr by (split; [apply u32_range|apply Hx]).
  assert (length (contents x) = Z.to_nat (pipe_count x)) as El by apply slice_length.
  rewrite El. split; [rewrite Hf; lia|]. split; [rewrite He, <- length_zero_iff_nil, El; lia|].
  split; intros H; apply not_true_iff_false in H.
  - apply pipe_put_ok; [done|]. rewrite Hf in H. lia.
  - apply pipe_get_ok; [done|]. rewrite He in H. lia.
Qed.

(** A pipe whose write counter has wrapped around: it holds three bytes. *)
Definition demo_pipe : pipe :=
  Pipe (<[510%nat := 7]> (<[511%nat := 8]> (<[0%nat := 9]> (replicate (Z.to_nat PIPESIZE) 0))))
    (2 ^ 32 - 2) 1 1 1.

Lemma pipe_refines_queue_witness :
  contents demo_pipe = [7; 8; 9] /\ contents (pipe_put 10 demo_pipe) = [7; 8; 9; 10] /\
  contents (pipe_get demo_pipe) = [8; 9].
Proof.
  destruct (pipe_refines_queue demo_pipe 10) as (_ & _ & H1 & H2).
  { split; [reflexivity|]. split; [by vm_compute|]. split; by vm_compute. }
  assert (contents demo_pipe = [7; 8; 9]) as E by reflexivity.
  split; [exact E|]. split.
  - rewrite (proj2 (H1 eq_refl)), E. reflexivity.
  - pose proof (proj2 (H2 eq_refl)) as H. rewrite E in H. symmetry. exact (f_equal (@tail Z) H).
Defined.
