(* ===== verification/Console.v ===== *)
(** kernel/console.c and the data path of kernel/uart.c: line-edited input and
    character output.

    The device is the record [uartstate].  Waiting for its transmit register is
    not a step of the model: a character written is a character sent. *)
From S2P Require Import Prelude Ring Riscv Spinlock Memory Bytes Kalloc Vm Proc Switch Sleeplock UserMem Kstate Bio Cache.

Definition BACKSPACE : Z := 0x100.
(** Control-x for the character code [x]. *)
Definition CTRL (x : Z) : Z := x - 64.
Definition CTRL_D : Z := CTRL 68.
Definition CTRL_H : Z := CTRL 72.
Definition CTRL_P : Z := CTRL 80.
Definition CTRL_U : Z := CTRL 85.
Definition DEL : Z := 0x7f.
Definition NL : Z := 10.
Definition CR : Z := 13.

(** * uart.c *)

Definition IER : Z := 1.
Definition IER_RX_ENABLE : Z := 1.
Definition IER_TX_ENABLE : Z := 2.
Definition FCR : Z := 2.
Definition FCR_FIFO_ENABLE : Z := 1.
Definition FCR_FIFO_CLEAR : Z := 6.
Definition LCR : Z := 3.
Definition LCR_EIGHT_BITS : Z := 3.
Definition LCR_BAUD_LATCH : Z := 128.

(** [WriteReg(THR, c)]. *)
Definition write_thr (c : Z) : M kstate unit :=
  modu (fun u => set_u_sent (u_sent u ++ [u8 c]) u).

(** Baud rate 38.4K, eight bits, FIFOs and both interrupts enabled. *)
Definition uartinit : M kstate unit :=
  iterl [(IER, 0x00); (LCR, LCR_BAUD_LATCH); (0, 0x03); (1, 0x00); (LCR, LCR_EIGHT_BITS);
         (FCR, Z.lor FCR_FIFO_ENABLE FCR_FIFO_CLEAR); (IER, Z.lor IER_TX_ENABLE IER_RX_ENABLE)]
    (fun '(reg, v) => mmio_write (UART0 + reg) v) ;;
  lift (initlock TxLock "uart").

(** Outside of a panic: [panicking] and [panicked] are 0. *)
Definition uartputc_sync (c : Z) : M kstate unit :=
  lift push_off ;;
  write_thr c ;;
  lift pop_off.

Definition uartgetc : M kstate Z :=
  u <- getu ;;
  match u_rx u with
  | [] => ret (-1)
  | c :: rx => modu (set_u_rx rx) ;; ret c
  end.

(** * console.c *)

Definition consputc (c : Z) : M kstate unit :=
  if c =? BACKSPACE then uartputc_sync 8 ;; uartputc_sync 32 ;; uartputc_sync 8
  else uartputc_sync c.

Definition state_name (st : procstate) : string :=
  match st with
  | UNUSED => "unused" | USED => "used" | SLEEPING => "sleep " | RUNNABLE => "runble"
  | RUNNING => "run   " | ZOMBIE => "zombie"
  end.

(** proc.c: print the process table. *)
Definition procdump : M kstate unit :=
  lift (printf "\n" []) ;;
  iterl (seq 0 NPROC) (fun i =>
    p <- lift (getp i) ;;
    if is_state UNUSED p then ret tt else
    lift (printf (String.append "%d " (String.append (state_name (p_state p)) " %s"))
      (p_pid p :: p_name p)) ;;
    lift (printf "\n" [])).

(** [cons.buf[i % INPUT_BUF_SIZE]]. *)
Definition co_at (c : consbuf) (i : Z) : Z := co_buf c !!! Z.to_nat (i mod INPUT_BUF_SIZE).

(** [cons.e--], [cons.w = cons.e], [cons.r++] and [cons.r--]. *)
Definition cons_back (c : consbuf) : consbuf := set_co_e (u32 (co_e c - 1)) c.
Definition cons_commit (c : consbuf) : consbuf := set_co_w (co_e c) c.
Definition cons_next (c : consbuf) : consbuf := set_co_r (u32 (co_r c + 1)) c.
Definition cons_unget (c : consbuf) : consbuf := set_co_r (u32 (co_r c - 1)) c.

(** Erase the last character of the line being edited. *)
Definition cons_erase : M kstate unit :=
  modco cons_back ;;
  consputc BACKSPACE.

(** The line kill: at most one iteration per character being edited. *)
Definition cons_kill : M kstate unit :=
  c <- getco ;;
  loop (S (Z.to_nat (u32 (co_e c - co_w c)))) (fun (_ : unit) =>
    c <- getco ;;
    if negb (co_e c =? co_w c) && negb (co_at c (u32 (co_e c - 1)) =? NL)
    then cons_erase ;; ret (inl tt) else ret (inr tt)) tt.

Definition cons_store (ch : Z) (c : consbuf) : consbuf :=
  set_co_e (u32 (co_e c + 1))
    (set_co_buf (<[Z.to_nat (co_e c mod INPUT_BUF_SIZE) := ch]> (co_buf c)) c).

Definition consoleintr (ch : Z) : M kstate unit :=
  kacq ConsLock ;;
  (if ch =? CTRL_P then procdump
   else if ch =? CTRL_U then cons_kill
   else if (ch =? CTRL_H) || (ch =? DEL) then
     c <- getco ;;
     when (negb (co_e c =? co_w c)) cons_erase
   else
     c <- getco ;;
     when (negb (ch =? 0) && (u32 (co_e c - co_r c) <? INPUT_BUF_SIZE))
       (let ch := if ch =? CR then NL else ch in
        consputc ch ;;
        modco (cons_store ch) ;;
        c <- getco ;;
        when ((ch =? NL) || (ch =? CTRL_D) || (u32 (co_e c - co_r c) =? INPUT_BUF_SIZE))
          (modco cons_commit ;;
           lift (wakeup ChCons)))) ;;
  krel ConsLock.

(** One character per iteration. *)
Definition uartintr : M kstate unit :=
  kacq TxLock ;;
  u <- getu ;;
  when (u_idle u) (modu (set_u_tx_busy 0) ;; lift (wakeup ChTx)) ;;
  krel TxLock ;;
  u <- getu ;;
  loop (S (length (u_rx u))) (fun (_ : unit) =>
    c <- uartgetc ;;
    if c =? -1 then ret (inr tt) else consoleintr c ;; ret (inl tt)) tt.

(** The entries of [devsw] are [devsw_read] and [devsw_write]. *)
Definition consoleinit : M kstate unit :=
  lift (initlock ConsLock "cons") ;;
  uartinit.

Section Console.
Context `{WaitBound}.

Definition uartwrite (buf : list Z) : M kstate unit :=
  kacq TxLock ;;
  iterl buf (fun c =>
    loop (S wait_bound) (fun (_ : unit) =>
      u <- getu ;;
      if u_tx_busy u =? 0 then ret (inr tt)
      else lift (sleep ChTx TxLock) ;; ret (inl tt)) tt ;;
    write_thr c ;;
    modu (set_u_tx_busy 1)) ;;
  krel TxLock.

(** In batches of 32 bytes. *)
Definition consolewrite (src : source) (n : Z) : M kstate Z :=
  loop (S (Z.to_nat n)) (fun i =>
    if negb (i <? n) then ret (inr i) else
    let nn := Z.min 32 (n - i) in
    r <- lift (either_copyin (source_at src i) nn) ;;
    if fst r =? -1 then ret (inr i) else
    uartwrite (snd r) ;;
    ret (inl (i + nn))) 0.

(** Wait for input: [false] when the process was killed meanwhile. *)
Definition cons_wait : M kstate bool :=
  loop (S wait_bound) (fun (_ : unit) =>
    c <- getco ;;
    if co_r c =? co_w c then
      p <- lift curproc ;;
      k <- lift (killed p) ;;
      if negb (k =? 0) then krel ConsLock ;; ret (inr false) else
      lift (sleep ChCons ConsLock) ;;
      ret (inl tt)
    else ret (inr true)) tt.

(** The loop counts [i = target - n] bytes delivered so far. *)
Definition consoleread (dst : dest) (n : Z) : M kstate Z :=
  kacq ConsLock ;;
  r <- loop (S (Z.to_nat n)) (fun i =>
    if negb (i <? n) then ret (inr (Some i)) else
    ok <- cons_wait ;;
    if negb ok then ret (inr None) else
    c <- getco ;;
    let ch := co_at c (co_r c) in
    modco cons_next ;;
    if ch =? CTRL_D then
      when (0 <? i) (modco cons_unget) ;;
      ret (inr (Some i))
    else
    r <- lift (either_copyout (dest_at dst i) [ch]) ;;
    if r =? -1 then ret (inr (Some i)) else
    if ch =? NL then ret (inr (Some (i + 1))) else ret (inl (i + 1))) 0 ;;
  match r with
  | None => ret (-1)
  | Some i => krel ConsLock ;; ret i
  end.
End Console.

(** * The input as lines and a draft *)

(** What a reader can have, and the line being edited. *)
Definition cons_lines (c : consbuf) : list Z :=
  slice INPUT_BUF_SIZE (co_buf c) (co_r c) (ahead (co_r c) (co_w c)).
Definition cons_draft (c : consbuf) : list Z :=
  slice INPUT_BUF_SIZE (co_buf c) (co_w c) (ahead (co_w c) (co_e c)).

Record cons_wf (c : consbuf) : Prop := {
  ck_len : length (co_buf c) = Z.to_nat INPUT_BUF_SIZE;
  ck_r : 0 <= co_r c < 2 ^ 32;
  ck_w : 0 <= co_w c < 2 ^ 32;
  ck_e : 0 <= co_e c < 2 ^ 32;
  ck_room : ahead (co_r c) (co_w c) + ahead (co_w c) (co_e c) <= INPUT_BUF_SIZE }.
(** Between interrupts the draft has no end of line in it. *)
Definition cons_ok (c : consbuf) : Prop := cons_wf c /\ NL ∉ cons_draft c.

Lemma INPUT_ok : 0 < INPUT_BUF_SIZE /\ (INPUT_BUF_SIZE | 2 ^ 32).
Proof. split; [done|]. by exists (2 ^ 25). Qed.

(** ** Steps on the buffer *)

Section Buffer.
Context (c : consbuf) (Hc : cons_wf c).
Let nw := ahead (co_r c) (co_w c).
Let nd := ahead (co_w c) (co_e c).

Lemma ahead_nonneg : 0 <= nw /\ 0 <= nd.
Proof. split; apply u32_range. Qed.

Lemma ahead_edit : ahead (co_r c) (co_e c) = nw + nd.
Proof using Hc.
  destruct Hc as [_ H1 H2 H3 H4]. apply ahead_split; [done..|]. fold nw nd. fold nw nd in H4.
  change INPUT_BUF_SIZE with 128 in *. lia.
Qed.

Lemma lines_draft_length : Z.of_nat (length (cons_lines c) + length (cons_draft c)) = nw + nd.
Proof. pose proof ahead_nonneg. unfold cons_lines, cons_draft. rewrite !slice_length. fold nw nd. lia. Qed.

Lemma draft_empty : cons_draft c = [] <-> co_e c = co_w c.
Proof using Hc.
  destruct Hc as [_ H1 H2 H3 _]. rewrite <- length_zero_iff_nil. unfold cons_draft. rewrite slice_length. fold nd.
  pose proof ahead_nonneg. assert (Z.to_nat nd = 0%nat <-> nd = 0) as -> by lia.
  unfold nd. rewrite ahead_zero by done. split; congruence.
Qed.

(** Positions in the buffer. *)
Lemma pos_from a b : 0 <= a < 2 ^ 32 -> 0 <= b < 2 ^ 32 ->
  b mod INPUT_BUF_SIZE = (a + ahead a b) mod INPUT_BUF_SIZE.
Proof.
  intros Ha Hb. rewrite <- (ahead_at a b) at 1 by done.
  by rewrite <- (Z.add_0_r (u32 _)), pos_u32, Z.add_0_r by apply INPUT_ok.
Qed.

Lemma back_wf : cons_draft c <> [] ->
  cons_wf (cons_back c) /\ cons_lines (cons_back c) = cons_lines c /\
  cons_draft c = cons_draft (cons_back c) ++ [co_at c (u32 (co_e c - 1))].
Proof using Hc.
  intros Hne. pose proof Hc as [H0 H1 H2 H3 H4]. fold nw nd in H4.
  assert (0 < nd) as Hlt.
  { pose proof ahead_nonneg. destruct (decide (nd = 0)) as [E|]; [|lia]. exfalso. apply Hne, draft_empty.
    symmetry. by apply ahead_zero. }
  assert (ahead (co_w c) (u32 (co_e c - 1)) = nd - 1) as E by by apply ahead_back.
  split; [|split; [done|]].
  - split; cbn [cons_back set_co_e co_buf co_w co_e co_r]; try done; [apply u32_range|]. rewrite E. fold nw. lia.
  - unfold cons_draft. fold nd. cbn [cons_back set_co_e co_buf co_w co_e]. rewrite E.
    replace nd with (nd - 1 + 1) at 1 by lia. rewrite slice_snoc by lia. unfold co_at.
    by rewrite (pos_from (co_w c) (u32 (co_e c - 1))), E by (done || apply u32_range).
Qed.

Lemma store_wf ch : nw + nd < INPUT_BUF_SIZE ->
  cons_wf (cons_store ch c) /\ cons_lines (cons_store ch c) = cons_lines c /\
  cons_draft (cons_store ch c) = cons_draft c ++ [ch].
Proof using Hc.
  intros Hlt. pose proof Hc as [H0 H1 H2 H3 H4]. pose proof ahead_nonneg as [P1 P2].
  assert (ahead (co_w c) (u32 (co_e c + 1)) = nd + 1) as E.
  { apply ahead_next; [done..|]. fold nd. change INPUT_BUF_SIZE with 128 in *. lia. }
  split; [|split].
  - split; cbn [cons_store set_co_e set_co_buf co_buf co_w co_e co_r]; try done; [by rewrite length_insert|apply u32_range|].
    rewrite E. fold nw. lia.
  - unfold cons_lines. cbn [cons_store set_co_e set_co_buf co_buf co_w co_e co_r]. fold nw.
    rewrite (pos_from (co_r c) (co_e c)), ahead_edit by done. apply slice_store; [done|lia|done].
  - unfold cons_draft. cbn [cons_store set_co_e set_co_buf co_buf co_w co_e co_r]. rewrite E. fold nd.
    rewrite (pos_from (co_w c) (co_e c)) by done. apply slice_push; [done..|]. fold nd. lia.
Qed.

Lemma commit_wf :
  cons_wf (cons_commit c) /\ cons_lines (cons_commit c) = cons_lines c ++ cons_draft c /\
  cons_draft (cons_commit c) = [].
Proof using Hc.
  pose proof Hc as [H0 H1 H2 H3 H4]. pose proof ahead_nonneg as [P1 P2]. fold nw nd in H4.
  assert (ahead (co_e c) (co_e c) = 0) as E by by apply ahead_zero.
  split; [|split].
  - split; cbn [cons_commit set_co_w co_buf co_w co_e co_r]; try done. rewrite E, ahead_edit. lia.
  - unfold cons_lines, cons_draft. cbn [cons_commit set_co_w co_buf co_w co_e co_r]. fold nw nd.
    rewrite ahead_edit, slice_app by done. f_equal. rewrite <- slice_u32 by apply INPUT_ok.
    unfold nw. by rewrite ahead_at.
  - unfold cons_draft. cbn [cons_commit set_co_w co_buf co_w co_e co_r]. by rewrite E.
Qed.

Lemma next_wf x l : cons_lines c = x :: l ->
  co_at c (co_r c) = x /\ cons_wf (cons_next c) /\ cons_lines (cons_next c) = l /\
  cons_draft (cons_next c) = cons_draft c.
Proof using Hc.
  intros El. pose proof Hc as [H0 H1 H2 H3 H4]. fold nw nd in H4.
  assert (0 < nw) as Hlt. { apply (f_equal length) in El. unfold cons_lines in El. rewrite slice_length in El. cbn in El. fold nw in El. lia. }
  assert (ahead (u32 (co_r c + 1)) (co_w c) = nw - 1) as E by by apply ahead_less.
  unfold cons_lines in El. fold nw in El. rewrite slice_cons in El by (apply INPUT_ok || done).
  injection El as E1 E2. split; [done|]. split; [|split; [|done]].
  - split; cbn [cons_next set_co_r co_buf co_w co_e co_r]; try done; [apply u32_range|]. rewrite E. fold nd. lia.
  - unfold cons_lines. cbn [cons_next set_co_r co_buf co_w co_e co_r]. by rewrite E.
Qed.
End Buffer.

(** ** The interrupt handler *)

(** The characters [cs] sent, and messages [o] printed. *)
Definition sent (cs : list Z) (s : kstate) : kstate :=
  with_k_uart (set_u_sent (u_sent (k_uart s) ++ cs) (k_uart s)) s.
Definition said (o : list (string * list Z)) (s : kstate) : kstate :=
  with_k_ps (with_machine (with_console (m_console (khw s) ++ o) (khw s)) (k_ps s)) s.

Definition RUBOUT : list Z := [8; 32; 8].

Section Handler.
Context (me : nat).
Implicit Types (s : kstate) (c : consbuf).

Lemma sent_sent cs cs' s : sent cs' (sent cs s) = sent (cs ++ cs') s.
Proof. unfold sent. cbn. by rewrite app_assoc. Qed.

Lemma uartputc_sync_eq ch s : calm me (k_ps s) -> uartputc_sync ch s = Ret tt (sent [u8 ch] s).
Proof.
  intros [H1 H2 _ _ _]. unfold uartputc_sync.
  kstep (lift_Ret _ s _ _ (push_off_eq (khw s) H1)). kstep eq_refl.
  erewrite (lift_Ret pop_off); [|exact (pop_after_push (khw s) H1)].
  change (touch (khw s) = khw s) in H2. rewrite H2. by destruct s as [[[]]].
Qed.

Lemma erase_eq s : calm me (k_ps s) ->
  cons_erase s = Ret tt (sent RUBOUT (with_k_cons (cons_back (k_cons s)) s)).
Proof.
  intros H. unfold cons_erase. kstep eq_refl. unfold consputc. change (BACKSPACE =? BACKSPACE) with true. cbv iota.
  kstep uartputc_sync_eq by done. kstep uartputc_sync_eq by done. rewrite uartputc_sync_eq by done.
  by rewrite !sent_sent.
Qed.

Lemma calm_said o s : calm me (k_ps s) -> calm me (k_ps (said o s)).
Proof.
  intros [H1 H2 H3 H4 H5]. split; try done.
  change (touch (with_console (m_console (khw s) ++ o) (khw s)) = with_console (m_console (khw s) ++ o) (khw s)).
  change (touch (khw s) = khw s) in H2.
  transitivity (with_console (m_console (khw s) ++ o) (touch (khw s))); [done|by rewrite H2].
Qed.

Lemma said_said o o' s : said o' (said o s) = said (o ++ o') s.
Proof. unfold said. cbn. by rewrite app_assoc. Qed.

Lemma said_nil s : said [] s = s.
Proof. unfold said. rewrite app_nil_r. by destruct s as [[[[]]]]. Qed.

Lemma printf_eq fmt args s : lift (printf fmt args) s = Ret tt (said [(fmt, args)] s).
Proof. by destruct s as [[[]]]. Qed.

Lemma said_loop {I} (l : list I) (body : I -> M kstate unit) s :
  (forall i s, exists o, body i s = Ret tt (said o s)) -> exists o, iterl l body s = Ret tt (said o s).
Proof.
  intros Hb. revert s. induction l as [|i l IH]; intros s; cbn [iterl].
  - exists []. by rewrite said_nil.
  - destruct (Hb i s) as [o E]. destruct (IH (said o s)) as [o' E']. exists (o ++ o').
    rewrite (bind_Ret _ _ _ _ _ E), E'. by rewrite said_said.
Qed.

Lemma procdump_eq s : exists o, procdump s = Ret tt (said o s).
Proof.
  unfold procdump. kstep printf_eq.
  match goal with |- context [iterl ?l ?b ?st] => destruct (said_loop l b st) as [o E]; last first end.
  - exists ([("\n", [])] ++ o). rewrite E. by rewrite said_said.
  - intros i s'. assert (lift (getp i) s' = Ret (ps_proc (k_ps s') !!! i) s') as Eg by by destruct s'.
    rewrite (bind_Ret _ _ _ _ _ Eg). destruct (is_state _ _).
    + exists []. by rewrite said_nil.
    + eexists. kstep printf_eq. rewrite printf_eq. by rewrite said_said.
Qed.

(** The line kill rubs out the draft. *)
Lemma kill_loop n s : calm me (k_ps s) -> cons_ok (k_cons s) -> n = length (cons_draft (k_cons s)) ->
  exists c, cons_wf c /\ cons_lines c = cons_lines (k_cons s) /\ cons_draft c = [] /\
    loop (S n) (fun (_ : unit) =>
      c <- getco ;;
      if negb (co_e c =? co_w c) && negb (co_at c (u32 (co_e c - 1)) =? NL)
      then cons_erase ;; ret (inl tt) else ret (inr tt)) tt s =
    Ret tt (sent (concat (replicate n RUBOUT)) (with_k_cons c s)).
Proof.
  revert s. induction n as [|n IH]; intros s Hc [Hw Hnl] Hn.
  - symmetry in Hn. apply length_zero_iff_nil in Hn. exists (k_cons s). split; [done|]. split; [done|]. split; [done|].
    erewrite loop_exit; [|kstep eq_refl; rewrite (proj1 (draft_empty _ Hw) Hn), Z.eqb_refl; done].
    f_equal. unfold sent. rewrite app_nil_r. destruct s as [? ? ? ? ? ? ? ? ? ? [] ]. done.
  - assert (cons_draft (k_cons s) <> []) as Hne by (intros E; by rewrite E in Hn).
    destruct (back_wf _ Hw Hne) as (W1 & L1 & D1).
    assert (NL ∉ cons_draft (cons_back (k_cons s))) as Hnl'.
    { intros H. apply Hnl. rewrite D1. apply elem_of_app. by left. }
    destruct (IH (sent RUBOUT (with_k_cons (cons_back (k_cons s)) s))) as (c & C1 & C2 & C3 & E).
    { done. } { by split. } { rewrite D1, length_app in Hn. cbn in *. lia. }
    exists c. split; [done|]. split; [rewrite C2; exact L1|]. split; [done|].
    erewrite loop_next; last first.
    { kstep eq_refl. rewrite (proj2 (Z.eqb_neq (co_e _) _)) by by rewrite <- draft_empty.
      rewrite (proj2 (Z.eqb_neq (co_at _ _) NL)).
      - cbn [negb andb]. by kstep erase_eq.
      - intros E'. apply Hnl. rewrite D1, E'. apply elem_of_app. right. apply list_elem_of_here. }
    rewrite E. f_equal. transitivity (sent (concat (replicate n RUBOUT)) (sent RUBOUT (with_k_cons c s))); [done|].
    by rewrite sent_sent.
Qed.
End Handler.

(** * A line editor *)

(** The lines and the draft after the character [ch]; whether it ends a line;
    and what the terminal shows. *)
Definition newline (ch : Z) : Z := if ch =? CR then NL else ch.
Definition ends_line (ch : Z) (lines draft : list Z) : bool :=
  (ch =? NL) || (ch =? CTRL_D) || (Z.of_nat (length lines + length draft) + 1 =? INPUT_BUF_SIZE).
Inductive command := Dump | Kill | Erase | Ignore | Add (ch : Z) | End (ch : Z).
Definition command_of (ch : Z) (lines draft : list Z) : command :=
  if ch =? CTRL_P then Dump
  else if ch =? CTRL_U then Kill
  else if (ch =? CTRL_H) || (ch =? DEL) then Erase
  else if (ch =? 0) || (INPUT_BUF_SIZE <=? Z.of_nat (length lines + length draft)) then Ignore
  else if ends_line (newline ch) lines draft then End (newline ch) else Add (newline ch).
Definition edit (k : command) (lines draft : list Z) : list Z * list Z :=
  match k with
  | Dump | Ignore => (lines, draft)
  | Kill => (lines, [])
  | Erase => (lines, take (length draft - 1) draft)
  | Add ch => (lines, draft ++ [ch])
  | End ch => (lines ++ draft ++ [ch], [])
  end.
Definition echo (k : command) (draft : list Z) : list Z :=
  match k with
  | Dump | Ignore => []
  | Kill => concat (replicate (length draft) RUBOUT)
  | Erase => if bool_decide (draft = []) then [] else RUBOUT
  | Add ch | End ch => [ch]
  end.

Section Editor.
Context (me : nat) (s : kstate) (Hc : calm me (k_ps s)) (Hf : lock_free ConsLock (khw s)).
Context (Hk : cons_ok (k_cons s)).
Let L := cons_lines (k_cons s).
Let d := cons_draft (k_cons s).

(** What command [k] makes of [s]. *)
Definition obeys (k : command) (s' : kstate) : Prop :=
  cons_ok (k_cons s') /\ (cons_lines (k_cons s'), cons_draft (k_cons s')) = edit k L d /\
  u_sent (k_uart s') = u_sent (k_uart s) ++ echo k d /\
  match k with End _ => k_ps s' = woken ChCons me (k_ps s) | _ => True end.

Lemma obeys_kill : exists s', cons_kill (kinside ConsLock s) = Ret tt (kinside ConsLock s') /\
  calm me (k_ps s') /\ lock_free ConsLock (khw s') /\ obeys Kill s'.
Proof using Hc Hf Hk.
  destruct (kill_loop me (length d) (kinside ConsLock s)) as (c & C1 & C2 & C3 & E); [by apply calm_inside|done|done|].
  exists (sent (concat (replicate (length d) RUBOUT)) (with_k_cons c s)). split; [|split; [done|split; [done|]]].
  - unfold cons_kill. kstep eq_refl.
    assert (Z.to_nat (ahead (co_w (k_cons s)) (co_e (k_cons s))) = length d) as El by (symmetry; apply slice_length).
    unfold ahead in El. cbn [k_cons kinside with_k_ps]. rewrite El. exact E.
  - split; [split; cbn; rewrite ?C3; [done|apply not_elem_of_nil]|]. split; [|done]. cbn. by rewrite C2, C3.
Qed.

Lemma obeys_erase : exists s',
  when (negb (co_e (k_cons s) =? co_w (k_cons s))) cons_erase (kinside ConsLock s) = Ret tt (kinside ConsLock s') /\
  calm me (k_ps s') /\ lock_free ConsLock (khw s') /\ obeys Erase s'.
Proof using Hc Hf Hk.
  destruct Hk as [Hw Hnl]. destruct (decide (d = [])) as [E|E].
  - exists s. rewrite (proj1 (draft_empty _ Hw) E), Z.eqb_refl. split; [done|]. split; [done|]. split; [done|].
    split; [done|]. cbn. rewrite bool_decide_eq_true_2, app_nil_r by done. fold L d. by rewrite E.
  - exists (sent RUBOUT (with_k_cons (cons_back (k_cons s)) s)).
    rewrite (proj2 (Z.eqb_neq (co_e _) _)) by by rewrite <- draft_empty. cbn [negb when].
    split; [exact (erase_eq me (kinside ConsLock s) (calm_inside me ConsLock _ ltac:(done) Hc))|]. split; [done|]. split; [done|].
    destruct (back_wf _ Hw E) as (W1 & L1 & D1). fold d in D1. split; [split; [done|]|].
    + intros H. apply Hnl. fold d. rewrite D1. apply elem_of_app. by left.
    + cbn. rewrite bool_decide_eq_false_2 by done. split; [|done]. rewrite L1. fold L. f_equal.
      rewrite D1, length_app. cbn [length]. by rewrite Nat.add_sub, take_app_length.
Qed.

(** A character that goes into the draft, and maybe ends the line. *)
Lemma obeys_store ch : 0 <= ch < 256 -> Z.of_nat (length L + length d) < INPUT_BUF_SIZE ->
  exists s',
  (consputc ch ;;
   modco (cons_store ch) ;;
   c <- getco ;;
   when ((ch =? NL) || (ch =? CTRL_D) || (u32 (co_e c - co_r c) =? INPUT_BUF_SIZE))
     (modco cons_commit ;;
      lift (wakeup ChCons))) (kinside ConsLock s) = Ret tt (kinside ConsLock s') /\
  calm me (k_ps s') /\ lock_free ConsLock (khw s') /\
  obeys (if ends_line ch L d then End ch else Add ch) s'.
Proof using Hc Hf Hk.
  intros Hch Hroom. destruct Hk as [Hw Hnl]. pose proof (lines_draft_length (k_cons s)) as El. fold L d in El.
  destruct (store_wf _ Hw ch) as (W1 & L1 & D1); [by rewrite <- El|]. fold L in L1. fold d in D1.
  set (c1 := cons_store ch (k_cons s)) in *. set (s1 := sent [ch] (with_k_cons c1 s)).
  assert (u8 ch = ch) as Eu by by apply Z.mod_small.
  assert (consputc ch (kinside ConsLock s) = Ret tt (sent [ch] (kinside ConsLock s))) as E1.
  { unfold consputc. rewrite (proj2 (Z.eqb_neq ch BACKSPACE)) by (change BACKSPACE with 256; lia).
    rewrite (uartputc_sync_eq me), Eu by by apply calm_inside. done. }
  kstep E1. kstep (eq_refl : _ = Ret tt (kinside ConsLock s1)). kstep (eq_refl : _ = Ret c1 (kinside ConsLock s1)).
  assert (u32 (co_e c1 - co_r c1) = Z.of_nat (length L + length d) + 1) as Ea.
  { pose proof (ahead_edit c1 W1) as H. unfold ahead at 1 in H. rewrite H, <- lines_draft_length, L1, D1, length_app.
    cbn [length]. lia. }
  rewrite Ea. fold (ends_line ch L d).
  destruct (ends_line ch L d) eqn:Een; cbn [when].
  - set (s2 := with_k_ps (woken ChCons me (k_ps s)) (with_k_cons (cons_commit c1) s1)).
    exists s2. split; [|split; [by apply calm_woken|split; [done|]]].
    + kstep eq_refl. exact (kwakeup_calm me ChCons (kinside ConsLock (with_k_cons (cons_commit c1) s1))
        (calm_inside me ConsLock _ ltac:(done) Hc)).
    + destruct (commit_wf c1 W1) as (W2 & L2 & D2). rewrite L1, D1 in L2.
      split; [split; cbn; [done|rewrite D2; apply not_elem_of_nil]|]. split; [cbn; by rewrite L2, D2|done].
  - exists s1. split; [done|]. split; [done|]. split; [done|]. split; [split; cbn; [done|]|cbn; by rewrite L1, D1].
    rewrite D1. intros H. apply elem_of_app in H as [H|H]; [done|]. apply list_elem_of_singleton in H as <-.
    unfold ends_line in Een. by rewrite Z.eqb_refl in Een.
Qed.
End Editor.


(** The draft "ab", rubbed out. *)
Definition demo_console : kstate :=
  with_k_cons (Consbuf (<[127%nat := 97]> (<[0%nat := 98]> (replicate 128 0))) (2 ^ 32 - 1) (2 ^ 32 - 1) 1) (demo_k 0).

