(* ===== verification/Printf.v ===== *)
(** kernel/printf.c: the kernel's formatted output, and its agreement with the
    user library's.

    [printf] sends each character with [consputc] under its lock; the formats,
    arguments and numbers are those of Format. *)
From S2P Require Import Prelude Ring Chars Format Riscv Spinlock Memory Bytes Kalloc Vm Proc Switch Sleeplock UserMem Kstate Bio Cache Console.

(** * kernel/printf.c *)

Definition printint (xx base : Z) (sign : bool) : M kstate unit :=
  match int_chars digits xx base sign with
  | Some cs => iterl cs consputc
  | None => panic "printint: buf overrun"
  end.

Definition printptr (x : Z) : M kstate unit := iterl (ptr_chars digits x) consputc.

Section Format.
Context (cstr : Z -> list Z) (va : nat -> Z).

(** One iteration of the loop over the format, at index [i] and argument [k]. *)
Definition printf_step (fmt : list Z) (ik : nat * nat) : M kstate (nat * nat + unit) :=
  let '(i, k) := ik in
  let cx := cat fmt i in
  if cx =? 0 then ret (inr tt) else
  if negb (cx =? ch "%") then consputc cx ;; ret (inl (i + 1, k)%nat) else
  let i := (i + 1)%nat in
  let c0 := cat fmt i in
  let c1 := if negb (c0 =? 0) then cat fmt (i + 1) else 0 in
  let c2 := if negb (c1 =? 0) then cat fmt (i + 2) else 0 in
  if c0 =? ch "d" then
    printint (s32 (va k)) 10 true ;; ret (inl (i + 1, k + 1)%nat)
  else if (c0 =? ch "l") && (c1 =? ch "d") then
    printint (s64 (va k)) 10 true ;; ret (inl (i + 2, k + 1)%nat)
  else if (c0 =? ch "l") && (c1 =? ch "l") && (c2 =? ch "d") then
    printint (s64 (va k)) 10 true ;; ret (inl (i + 3, k + 1)%nat)
  else if c0 =? ch "u" then
    printint (u32 (va k)) 10 false ;; ret (inl (i + 1, k + 1)%nat)
  else if (c0 =? ch "l") && (c1 =? ch "u") then
    printint (s64 (va k)) 10 false ;; ret (inl (i + 2, k + 1)%nat)
  else if (c0 =? ch "l") && (c1 =? ch "l") && (c2 =? ch "u") then
    printint (s64 (va k)) 10 false ;; ret (inl (i + 3, k + 1)%nat)
  else if c0 =? ch "x" then
    printint (u32 (va k)) 16 false ;; ret (inl (i + 1, k + 1)%nat)
  else if (c0 =? ch "l") && (c1 =? ch "x") then
    printint (s64 (va k)) 16 false ;; ret (inl (i + 2, k + 1)%nat)
  else if (c0 =? ch "l") && (c1 =? ch "l") && (c2 =? ch "x") then
    printint (s64 (va k)) 16 false ;; ret (inl (i + 3, k + 1)%nat)
  else if c0 =? ch "p" then
    printptr (u64 (va k)) ;; ret (inl (i + 1, k + 1)%nat)
  else if c0 =? ch "c" then
    consputc (u32 (va k)) ;; ret (inl (i + 1, k + 1)%nat)
  else if c0 =? ch "s" then
    iterl (str_arg cstr (va k)) consputc ;; ret (inl (i + 1, k + 1)%nat)
  else if c0 =? ch "%" then
    consputc (ch "%") ;; ret (inl (i + 1, k)%nat)
  else if c0 =? 0 then ret (inr tt)
  else
    consputc (ch "%") ;; consputc c0 ;; ret (inl (i + 1, k)%nat).

(** Outside of a panic.  Every iteration advances in the format. *)
Definition kprintf (fmt : list Z) : M kstate Z :=
  kacq PrLock ;;
  loop (S (length fmt)) (printf_step fmt) (0, 0)%nat ;;
  krel PrLock ;;
  ret 0.

End Format.

(** * What it sends *)

(** What [consputc] sends. *)
Definition echo (c : Z) : list Z := if c =? BACKSPACE then RUBOUT else [u8 c].
Definition echoes (cs : list Z) : list Z := concat (echo <$> cs).

Section Kernel.
Context (cstr : Z -> list Z) (va : nat -> Z) (me : nat).

Lemma consputc_eq c s : calm me (k_ps s) -> consputc c s = Ret tt (sent (echo c) s).
Proof.
  intros H. unfold consputc, echo. destruct (c =? BACKSPACE); [|by apply (uartputc_sync_eq me)].
  kstep (uartputc_sync_eq me) by done. kstep (uartputc_sync_eq me) by done.
  rewrite (uartputc_sync_eq me) by done. by rewrite !sent_sent.
Qed.

Lemma sent_nil s : sent [] s = s.
Proof. unfold sent. rewrite app_nil_r. by destruct s as [? ? ? ? ? ? ? ? ? ? []]. Qed.

Lemma consputcs_eq cs s : calm me (k_ps s) -> iterl cs consputc s = Ret tt (sent (echoes cs) s).
Proof.
  intros H. revert s H. induction cs as [|c cs IH]; intros s H; cbn [iterl].
  - by rewrite sent_nil.
  - kstep consputc_eq by done. rewrite IH by done. by rewrite sent_sent.
Qed.

Lemma printint_eq xx base sign cs s :
  calm me (k_ps s) -> int_chars digits xx base sign = Some cs ->
  printint xx base sign s = Ret tt (sent (echoes cs) s).
Proof. intros H E. unfold printint. rewrite E. by apply consputcs_eq. Qed.

Lemma echoes_single c : echoes [c] = echo c.
Proof. unfold echoes. cbn. apply app_nil_r. Qed.

Lemma printf_step_eq fmt i k s :
  calm me (k_ps s) ->
  match fmt_step cstr va digits (fun c => c) fmt i k with
  | Some (Some o, i', k') => printf_step cstr va fmt (i, k) s = Ret (inl (i', k')) (sent (echoes o) s)
  | Some (None, _, _) => True
  | None => printf_step cstr va fmt (i, k) s = Ret (inr tt) s
  end.
Proof.
  intros H. unfold fmt_step, printf_step. cbv zeta. cases; try done;
  try match goal with |- context [int_chars ?t ?xx ?base ?sign] =>
    destruct (int_chars t xx base sign) eqn:?; [|done]; by kstep printint_eq end.
  all: try (kstep consputc_eq by done; rewrite echoes_single; done).
  all: try (unfold printptr; kstep consputcs_eq by done; done).
  all: kstep consputc_eq by done; kstep consputc_eq by done; rewrite sent_sent;
    unfold echoes; cbn [fmap list_fmap concat]; by rewrite app_nil_r.
Qed.

Lemma printf_loop_eq fmt i k out fuel s :
  calm me (k_ps s) -> formatted cstr va digits (fun c => c) fmt i k out -> (length fmt - i < fuel)%nat ->
  loop fuel (printf_step cstr va fmt) (i, k) s = Ret tt (sent (echoes out) s).
Proof.
  intros H Hf. revert fuel s H. induction Hf as [i k E|i k o i' k' out E Hf IH]; intros fuel s H Hn;
    (destruct fuel as [|fuel]; [lia|]); pose proof (printf_step_eq fmt i k s H) as Hs; rewrite E in Hs.
  - rewrite sent_nil. by apply loop_exit.
  - destruct (fmt_step_some cstr va digits (fun c => c) fmt i k _ (or_introl eq_refl) E)
      as (? & ? & ? & [= <- <- <-] & H1 & H2).
    assert (i < i')%nat by (destruct (cat fmt i =? ch "%"); lia).
    rewrite (loop_next _ _ _ _ _ _ Hs), IH; [|done|lia].
    rewrite sent_sent. unfold echoes. by rewrite fmap_app, concat_app.
Qed.

Lemma kprintf_eq fmt s out :
  calm me (k_ps s) -> lock_free PrLock (khw s) -> formatted cstr va digits (fun c => c) fmt 0 0 out ->
  kprintf cstr va fmt s = Ret 0 (sent (echoes out) s).
Proof.
  intros Hc Hl Hf. unfold kprintf. kstep (kacq_calm me PrLock s Hc Hl).
  kstep printf_loop_eq by (first [exact Hf|lia|by apply calm_inside]).
  change (sent (echoes out) (kinside PrLock s)) with (kinside PrLock (sent (echoes out) s)).
  by kstep (krel_calm me PrLock (sent (echoes out) s) Hc Hl).
Qed.
End Kernel.

(** The kernel's [printf] prints what the format says.  For a format made of
    text and conversions it sends, under its lock and one character at a time,
    the text as it is, a numeral for each numeric conversion (of the argument's
    32 or 64 bits, signed or not), 16 hexadecimal digits for a pointer, the
    character or the string itself ("(null)" for a null pointer); an unknown
    conversion is printed as it stands.  The lock is free again afterwards and
    nothing else changes. *)
Theorem kprintf_correct me cstr va ps s
  (Hc : calm me (k_ps s)) (Hl : lock_free PrLock (khw s)) (Hps : Forall piece_ok ps) :
  exists out, rendered cstr va (fun c => c) ps 0 out /\
    kprintf cstr va (format_of ps) s = Ret 0 (sent (echoes out) s).
Proof.
  destruct (formatted_pieces cstr va digits (fun c => c) ps [] 0 (or_introl eq_refl) Hps) as (out & Hr & Hf).
  exists out. split; [done|]. by apply (kprintf_eq cstr va me).
Qed.

(** C40. The user library's [vprintf], a state machine over the format, and the
    kernel's [printf], which looks ahead in it, agree on every format, be it
    well formed or not: both terminate without overrunning a buffer and print
    the same characters, up to the case of hexadecimal digits and the
    truncation of a character argument to a byte. *)
Theorem vprintf_agrees me cstr va fmt s
  (Hc : calm me (k_ps s)) (Hl : lock_free PrLock (khw s)) :
  exists out uout,
    kprintf cstr va fmt s = Ret 0 (sent (echoes out) s) /\
    vprintf cstr va fmt = Some uout /\ Forall2 same_char uout out.
Proof.
  destruct (formatted_total cstr va u_digits u8 fmt 0 0 (or_intror eq_refl)) as [uout Hu].
  destruct (formatted_same _ _ _ _ _ _ Hu) as (out & Ho & Hs).
  exists out, uout. split; [by apply (kprintf_eq cstr va me)|]. split; [|done].
  apply vprintf_loop_eq; [done|lia].
Qed.

(** * Witnesses *)

Definition demo_format : list piece := (Text <$> chars "pid=") ++ [Arg Cd; Text NEWLINE].

Lemma kprintf_correct_witness :
  exists out, rendered (fun _ => []) (fun _ => 7) (fun c => c) demo_format 0 out /\
    kprintf (fun _ => []) (fun _ => 7) (format_of demo_format) (demo_k 0) =
      Ret 0 (sent (echoes out) (demo_k 0)).
Proof.
  apply (kprintf_correct 1 (fun _ => []) (fun _ => 7) demo_format (demo_k 0) demo_calm).
  - by eapply demo_lock_free.
  - repeat constructor; by vm_compute.
Defined.

Lemma vprintf_agrees_witness :
  exists out uout,
    kprintf (fun _ => []) (fun _ => 255) (chars "%x%q%") (demo_k 0) = Ret 0 (sent (echoes out) (demo_k 0)) /\
    vprintf (fun _ => []) (fun _ => 255) (chars "%x%q%") = Some uout /\ Forall2 same_char uout out.
Proof.
  apply (vprintf_agrees 1 (fun _ => []) (fun _ => 255) (chars "%x%q%") (demo_k 0) demo_calm).
  by eapply demo_lock_free.
Defined.

