(* ===== verification/File.v ===== *)
(** kernel/file.c and [pipealloc] of kernel/pipe.c: the table of open files. *)
From S2P Require Import Prelude Riscv Spinlock Memory Bytes Kstring Kalloc Vm Proc Switch Sleeplock UserMem Kstate Bio Log Fs Pipe Console.

(** What a local variable holds before it is written: [n] bytes of the kernel
    stack. *)
Class StackBytes := stack_bytes : nat -> list Z.

Definition fileinit : M kstate unit := lift (initlock FtableLock "ftable").

Definition filealloc : M kstate (option nat) :=
  kacq FtableLock ;;
  r <- forl (seq 0 NFILE) (fun i (_ : unit) =>
    f <- getf i ;;
    if f_ref f =? 0 then
      modf i (set_f_ref 1) ;;
      krel FtableLock ;;
      ret (inr i)
    else ret (inl tt)) tt ;;
  match r with
  | inr i => ret (Some i)
  | inl _ => krel FtableLock ;; ret None
  end.

Definition filedup (i : nat) : M kstate nat :=
  kacq FtableLock ;;
  f <- getf i ;;
  if f_ref f <? 1 then panic "filedup" else
  modf i (fun f => set_f_ref (f_ref f + 1) f) ;;
  krel FtableLock ;;
  ret i.

Section File.
Context `{WaitBound} `{DiskDriver}.

(** [iput(ff.ip)] of a pointer that may be null. *)
Definition iput_ptr (ip : option nat) : M kstate unit :=
  match ip with Some i => iput i | None => panic "null dereference" end.

(** The end of [fileclose]: the last reference to the file [ff] is gone. *)
Definition close_rest (ff : file) : M kstate unit :=
  match f_type ff with
  | FD_PIPE => pipeclose (f_pipe ff) (f_writable ff)
  | FD_INODE | FD_DEVICE => begin_op ;; iput_ptr (f_ip ff) ;; end_op
  | FD_NONE => ret tt
  end.

Definition fileclose (i : nat) : M kstate unit :=
  kacq FtableLock ;;
  f <- getf i ;;
  if f_ref f <? 1 then panic "fileclose" else
  modf i (fun f => set_f_ref (f_ref f - 1) f) ;;
  ff <- getf i ;;
  if 0 <? f_ref ff then krel FtableLock else
  modf i (set_f_ref 0) ;;
  modf i (set_f_type FD_NONE) ;;
  krel FtableLock ;;
  close_rest ff.

(** fs.c: [struct stat] filled in over the bytes [st]. *)
Definition stati (ip : inode) (st : list Z) : list Z :=
  put_le 8 16 (i_size ip) (put_le 2 10 (i_nlink ip) (put_le 2 8 (i_type ip)
    (put_le 4 4 (i_inum ip) (put_le 4 0 (i_dev ip) st)))).

Definition filestat `{StackBytes} (i : nat) (addr : Z) : M kstate Z :=
  p <- lift curproc ;;
  f <- getf i ;;
  match f_type f with
  | FD_INODE | FD_DEVICE =>
      ilock (f_ip f) ;;
      match f_ip f with
      | None => panic "null dereference"
      | Some k =>
          ip <- geti k ;;
          let st := stati ip (stack_bytes 24) in
          iunlock (f_ip f) ;;
          q <- lift (getp p) ;;
          r <- lift (copyout (p_pagetable q) addr st) ;;
          if r <? 0 then ret (-1) else ret 0
      end
  | _ => ret (-1)
  end.

(** [devsw], as [consoleinit] fills it in. *)
Definition devsw_read (major : Z) : option (dest -> Z -> M kstate Z) :=
  if major =? CONSOLE then Some consoleread else None.
Definition devsw_write (major : Z) : option (source -> Z -> M kstate Z) :=
  if major =? CONSOLE then Some consolewrite else None.

Definition fileread (i : nat) (addr n : Z) : M kstate Z :=
  f <- getf i ;;
  if f_readable f =? 0 then ret (-1) else
  match f_type f with
  | FD_PIPE => piperead (f_pipe f) addr n
  | FD_DEVICE =>
      if (f_major f <? 0) || (NDEV <=? f_major f) then ret (-1) else
      match devsw_read (f_major f) with
      | None => ret (-1)
      | Some read => read (DUser addr) n
      end
  | FD_INODE =>
      ilock (f_ip f) ;;
      match f_ip f with
      | None => panic "null dereference"
      | Some k =>
          r <- readi k (DUser addr) (f_off f) (u32 n) ;;
          when (0 <? fst r) (modf i (fun f => set_f_off (u32 (f_off f + fst r)) f)) ;;
          iunlock (f_ip f) ;;
          ret (fst r)
      end
  | FD_NONE => panic "fileread"
  end.

(** The most bytes one transaction can write. *)
Definition max_write : Z := ((MAXOPBLOCKS - 1 - 1 - 2) / 2) * BSIZE.

Definition filewrite (i : nat) (addr n : Z) : M kstate Z :=
  f <- getf i ;;
  if f_writable f =? 0 then ret (-1) else
  match f_type f with
  | FD_PIPE => pipewrite (f_pipe f) addr n
  | FD_DEVICE =>
      if (f_major f <? 0) || (NDEV <=? f_major f) then ret (-1) else
      match devsw_write (f_major f) with
      | None => ret (-1)
      | Some write => write (SUser addr) n
      end
  | FD_INODE =>
      k <- loop (S (Z.to_nat n)) (fun k =>
        if negb (k <? n) then ret (inr k) else
        let n1 := Z.min (n - k) max_write in
        begin_op ;;
        ilock (f_ip f) ;;
        match f_ip f with
        | None => panic "null dereference"
        | Some ip =>
            g <- getf i ;;
            r <- writei ip (SUser (u64 (addr + k))) (f_off g) n1 ;;
            when (0 <? r) (modf i (fun f => set_f_off (u32 (f_off f + r)) f)) ;;
            iunlock (f_ip f) ;;
            end_op ;;
            if negb (r =? n1) then ret (inr k) else ret (inl (k + r))
        end) 0 ;;
      ret (if k =? n then n else -1)
  | FD_NONE => panic "filewrite"
  end.

(** pipe.c: a pipe and the two files of its ends. *)
Definition pipe_bad (f0 f1 : option nat) : M kstate (option (nat * nat)) :=
  (match f0 with Some f => fileclose f | None => ret tt end) ;;
  (match f1 with Some f => fileclose f | None => ret tt end) ;;
  ret None.

Definition pipealloc : M kstate (option (nat * nat)) :=
  f0 <- filealloc ;;
  match f0 with
  | None => pipe_bad None None
  | Some r =>
      f1 <- filealloc ;;
      match f1 with
      | None => pipe_bad f0 None
      | Some w =>
          pi <- lift kalloc ;;
          if pi =? 0 then pipe_bad f0 f1 else
          modpi pi (set_pi_readopen 1) ;;
          modpi pi (set_pi_writeopen 1) ;;
          modpi pi (set_pi_nwrite 0) ;;
          modpi pi (set_pi_nread 0) ;;
          lift (initlock (PipeLock pi) "pipe") ;;
          modf r (fun f => set_f_pipe pi (set_f_writable 0 (set_f_readable 1 (set_f_type FD_PIPE f)))) ;;
          modf w (fun f => set_f_pipe pi (set_f_writable 1 (set_f_readable 0 (set_f_type FD_PIPE f)))) ;;
          ret (Some (r, w))
      end
  end.
End File.
