(* ===== verification/Life.v ===== *)
(** kernel/proc.c: creating, ending and waiting for processes. *)
From S2P Require Import Prelude Riscv Spinlock Memory Bytes Kstring Kalloc Vm Proc Switch Sleeplock UserMem Kstate Bio Log Fs Dir Pipe Console File.

Section Life.
Context `{WaitBound} `{DiskDriver}.

Definition userinit : M kstate unit :=
  p <- lift allocproc ;;
  lift (modify (with_initproc p)) ;;
  match p with
  | None => panic "null dereference"
  | Some p =>
      ip <- namei [SLASH] ;;
      lift (modp p (set_cwd ip)) ;;
      lift (modp p (set_state RUNNABLE)) ;;
      time <- lift gettime ;;
      lift (modp p (set_ctime time)) ;;
      krel (ProcLock p)
  end.

(** Descriptor [i] of the child [np] of [q]. *)
Definition fork_fd (np : nat) (q : proc) (i : nat) : M kstate unit :=
  match p_ofile q !!! i with
  | Some f =>
      f <- filedup f ;;
      lift (modp np (fun c => set_ofile (<[i := Some f]> (p_ofile c)) c))
  | None => ret tt
  end.

(** The second half of [kfork], for the child [np] with the record [c] of the
    process [p] with the record [q]. *)
Definition fork_finish (p np : nat) (q c : proc) : M kstate Z :=
  lift (modp np (set_sz (p_sz q))) ;;
  lift (ram_set (fun ram => memmove ram (p_trapframe c) (p_trapframe q) TF_size)) ;;
  lift (set_tf np TF_a0 0) ;;
  iterl (seq 0 NOFILE) (fork_fd np q) ;;
  cwd <- idup (p_cwd q) ;;
  lift (modp np (set_cwd cwd)) ;;
  lift (modp np (fun c => set_name (arr_safestrcpy (p_name c) (p_name q) 16) c)) ;;
  lift (modp np (set_expected_runtime (p_expected_runtime q))) ;;
  c <- lift (getp np) ;;
  let pid := p_pid c in
  krel (ProcLock np) ;;
  kacq WaitLock ;;
  lift (modp np (set_parent (Some p))) ;;
  krel WaitLock ;;
  kacq (ProcLock np) ;;
  lift (modp np (set_state RUNNABLE)) ;;
  krel (ProcLock np) ;;
  ret pid.

Definition kfork : M kstate Z :=
  p <- lift curproc ;;
  np <- lift allocproc ;;
  match np with
  | None => ret (-1)
  | Some np =>
      q <- lift (getp p) ;;
      c <- lift (getp np) ;;
      r <- lift (uvmcopy (p_pagetable q) (p_pagetable c) (p_sz q)) ;;
      if r <? 0 then lift (freeproc np) ;; krel (ProcLock np) ;; ret (-1)
      else fork_finish p np q c
  end.

(** The accounting of [kexit], at the times [time] and [t] of its two reads of
    the clock. *)
Definition exit_account (time t status : Z) (p : proc) : proc :=
  let elapsed := u64 (t - p_ltime p) in
  let p := if elapsed <? p_time_slice p
           then set_time_slice (p_time_slice p - elapsed) p
           else set_demote 1 (set_time_slice 0 p) in
  let p := set_xstate status p in
  let p := set_rtime (u64 (p_rtime p + elapsed)) p in
  let p := if 0 <? p_time_left p then set_time_left (u64 (p_time_left p - elapsed)) p else p in
  let p := if p_time_left p <? 0 then set_time_left 0 p else p in
  set_state ZOMBIE (set_etime time p).

(** Close every open file of slot [p]. *)
Definition close_all (p : nat) : M kstate unit :=
  iterl (seq 0 NOFILE) (fun fd =>
    q <- lift (getp p) ;;
    match p_ofile q !!! fd with
    | Some f =>
        fileclose f ;;
        lift (modp p (fun q => set_ofile (<[fd := None]> (p_ofile q)) q))
    | None => ret tt
    end).

Definition kexit (status : Z) : M kstate unit :=
  p <- lift curproc ;;
  init <- lift (gets ps_initproc) ;;
  if bool_decide (init = Some p) then panic "init exiting" else
  close_all p ;;
  begin_op ;;
  q <- lift (getp p) ;;
  iput_ptr (p_cwd q) ;;
  end_op ;;
  lift (modp p (set_cwd None)) ;;
  kacq WaitLock ;;
  lift (reparent p) ;;
  q <- lift (getp p) ;;
  lift (wakeup (chan_of (p_parent q))) ;;
  kacq (ProcLock p) ;;
  time <- lift gettime ;;
  t <- lift gettime ;;
  lift (modp p (exit_account time t status)) ;;
  krel WaitLock ;;
  lift sched ;;
  panic "zombie exit".

(** One scan of the table: [inr] the result of the call, [inl] whether there
    are children. *)
Definition wait_scan (p : nat) (addr : Z) : M kstate (bool + Z) :=
  forl (seq 0 NPROC) (fun i (havekids : bool) =>
    c <- lift (getp i) ;;
    if negb (bool_decide (p_parent c = Some p)) then ret (inl havekids) else
    kacq (ProcLock i) ;;
    c <- lift (getp i) ;;
    if is_state ZOMBIE c then
      let pid := p_pid c in
      q <- lift (getp p) ;;
      r <- (if addr =? 0 then ret 0
            else lift (copyout (p_pagetable q) addr (le_bytes 4 (p_xstate c)))) ;;
      if r <? 0 then
        krel (ProcLock i) ;; krel WaitLock ;; ret (inr (-1))
      else
        lift (freeproc i) ;;
        krel (ProcLock i) ;;
        krel WaitLock ;;
        ret (inr pid)
    else krel (ProcLock i) ;; ret (inl true)) false.

Definition kwait (addr : Z) : M kstate Z :=
  p <- lift curproc ;;
  kacq WaitLock ;;
  loop (S wait_bound) (fun (_ : unit) =>
    r <- wait_scan p addr ;;
    match r with
    | inr v => ret (inr v)
    | inl havekids =>
        k <- (if negb havekids then ret 1 else lift (killed p)) ;;
        if negb (k =? 0) then krel WaitLock ;; ret (inr (-1)) else
        lift (sleep (ChProc p) WaitLock) ;;
        ret (inl tt)
    end) tt.
End Life.
