(* ===== verification/Exec.v ===== *)
(** kernel/exec.c: replacing the image of the current process. *)
From S2P Require Import Prelude Riscv Spinlock Memory Bytes Kstring Kalloc Vm Proc Switch Sleeplock UserMem Kstate Bio Log Fs Dir.

Definition ELF_MAGIC : Z := 0x464C457F.
Definition ELF_PROG_LOAD : Z := 1.
(** [struct elfhdr] and [struct proghdr]: their sizes and the fields used. *)
Definition ELFHDR : Z := 64.
Definition elf_magic (h : list Z) : Z := get_le 4 0 h.
Definition elf_entry (h : list Z) : Z := get_le 8 24 h.
Definition elf_phoff (h : list Z) : Z := get_le 8 32 h.
Definition elf_phnum (h : list Z) : Z := get_le 2 56 h.
Definition PROGHDR : Z := 56.
Definition ph_type (h : list Z) : Z := get_le 4 0 h.
Definition ph_flags (h : list Z) : Z := get_le 4 4 h.
Definition ph_off (h : list Z) : Z := get_le 8 8 h.
Definition ph_vaddr (h : list Z) : Z := get_le 8 16 h.
Definition ph_filesz (h : list Z) : Z := get_le 8 32 h.
Definition ph_memsz (h : list Z) : Z := get_le 8 40 h.

Definition flags2perm (flags : Z) : Z :=
  let perm := if Z.land flags 1 =? 0 then 0 else PTE_X in
  if Z.land flags 2 =? 0 then perm else Z.lor perm PTE_W.

(** The part of the path after the last slash. *)
Fixpoint last_elem (last path : list Z) : list Z :=
  match path with
  | [] => last
  | c :: path' => last_elem (if c =? SLASH then path' else last) path'
  end.

Section Exec.
Context `{WaitBound} `{DiskDriver}.

Definition loadseg (pagetable va : Z) (ip : nat) (offset sz : Z) : M kstate Z :=
  loop (Z.to_nat (sz / PGSIZE + 2)) (fun i =>
    if negb (i <? sz) then ret (inr 0) else
    pa <- lift (walkaddr pagetable (u64 (va + i))) ;;
    if pa =? 0 then panic "loadseg: address should exist" else
    let n := if sz - i <? PGSIZE then sz - i else PGSIZE in
    r <- readi ip (DPhys pa) (u32 (offset + i)) n ;;
    if negb (fst r =? n) then ret (inr (-1)) else ret (inl (i + PGSIZE))) 0.

(** The label [bad]. *)
Definition exec_bad (pagetable sz : Z) (ip : option nat) : M kstate Z :=
  when (negb (pagetable =? 0)) (lift (proc_freepagetable pagetable sz)) ;;
  (match ip with Some i => iunlockput i ;; end_op | None => ret tt end) ;;
  ret (-1).

(** The program headers: [inl] the size of the image, [inr] the size when a
    header is bad. *)
Definition load_image (ip : nat) (elf : list Z) (pagetable : Z) : M kstate (Z + Z) :=
  forl (seq 0 (Z.to_nat (elf_phnum elf))) (fun i sz =>
    let off := u32 (s32 (elf_phoff elf) + PROGHDR * Z.of_nat i) in
    r <- readi ip DLocal off PROGHDR ;;
    if negb (fst r =? PROGHDR) then ret (inr sz) else
    let ph := snd r in
    if negb (ph_type ph =? ELF_PROG_LOAD) then ret (inl sz) else
    if ph_memsz ph <? ph_filesz ph then ret (inr sz) else
    if u64 (ph_vaddr ph + ph_memsz ph) <? ph_vaddr ph then ret (inr sz) else
    if negb (ph_vaddr ph mod PGSIZE =? 0) then ret (inr sz) else
    sz1 <- lift (uvmalloc pagetable sz (u64 (ph_vaddr ph + ph_memsz ph)) (flags2perm (ph_flags ph))) ;;
    if sz1 =? 0 then ret (inr sz) else
    r <- loadseg pagetable (ph_vaddr ph) ip (u32 (ph_off ph)) (u32 (ph_filesz ph)) ;;
    if r <? 0 then ret (inr sz1) else ret (inl sz1)) 0.

(** [sp -= sp % 16]. *)
Definition align16 (sp : Z) : Z := sp - sp mod 16.

(** Copy the argument strings: the stack pointer and the addresses of the
    strings, [None] at an error. *)
Definition push_args (pagetable stackbase : Z) (argv : list (list Z)) (sp : Z)
  : M kstate (Z * list Z + unit) :=
  forl (imap pair argv) (fun '(argc, arg) '(sp, ustack) =>
    if (MAXARG <=? argc)%nat then ret (inr tt) else
    let sp := align16 (u64 (sp - (Z.of_nat (length arg) + 1))) in
    if sp <? stackbase then ret (inr tt) else
    r <- lift (copyout pagetable sp (arg ++ [0])) ;;
    if r <? 0 then ret (inr tt) else
    ret (inl (sp, ustack ++ [sp]))) (sp, []).

Definition kexec (path : list Z) (argv : list (list Z)) : M kstate Z :=
  p <- lift curproc ;;
  begin_op ;;
  ip <- namei path ;;
  match ip with
  | None => end_op ;; ret (-1)
  | Some ip =>
      ilock (Some ip) ;;
      r <- readi ip DLocal 0 ELFHDR ;;
      if negb (fst r =? ELFHDR) then exec_bad 0 0 (Some ip) else
      let elf := snd r in
      if negb (elf_magic elf =? ELF_MAGIC) then exec_bad 0 0 (Some ip) else
      pagetable <- lift (proc_pagetable p) ;;
      if pagetable =? 0 then exec_bad 0 0 (Some ip) else
      img <- load_image ip elf pagetable ;;
      match img with
      | inr sz => exec_bad pagetable sz (Some ip)
      | inl sz =>
          iunlockput ip ;;
          end_op ;;
          p <- lift curproc ;;
          q <- lift (getp p) ;;
          let oldsz := p_sz q in
          let sz := PGROUNDUP sz in
          sz1 <- lift (uvmalloc pagetable sz (u64 (sz + (USERSTACK + 1) * PGSIZE)) PTE_W) ;;
          if sz1 =? 0 then exec_bad pagetable sz None else
          let sz := sz1 in
          lift (uvmclear pagetable (sz - (USERSTACK + 1) * PGSIZE)) ;;
          let stackbase := sz - USERSTACK * PGSIZE in
          r <- push_args pagetable stackbase argv sz ;;
          match r with
          | inr _ => exec_bad pagetable sz None
          | inl (sp, ustack) =>
              let argc := Z.of_nat (length ustack) in
              let sp := align16 (u64 (sp - (argc + 1) * 8)) in
              if sp <? stackbase then exec_bad pagetable sz None else
              r <- lift (copyout pagetable sp ((ustack ++ [0]) ≫= le_bytes 8)) ;;
              if r <? 0 then exec_bad pagetable sz None else
              lift (set_tf p TF_a1 sp) ;;
              lift (modp p (fun q => set_name
                (arr_safestrcpy (p_name q) (last_elem path path ++ [0]) 16) q)) ;;
              q <- lift (getp p) ;;
              let oldpagetable := p_pagetable q in
              lift (modp p (set_pagetable pagetable)) ;;
              lift (modp p (set_sz sz)) ;;
              lift (set_tf p TF_epc (elf_entry elf)) ;;
              lift (set_tf p TF_sp sp) ;;
              lift (proc_freepagetable oldpagetable oldsz) ;;
              ret argc
          end
      end
  end.
End Exec.
