(* ===== verification/Sysfile.v ===== *)
(** kernel/sysfile.c: the system calls on files.

    A handler returns the value the C function returns; [syscall] stores it in
    the trapframe as an unsigned word. *)
From S2P Require Import Prelude Riscv Spinlock Memory Bytes Kstring Kalloc Vm Proc Switch Sleeplock UserMem Kstate Bio Log Fs Dir Pipe Console File Exec.

Definition O_RDONLY : Z := 0x000.
Definition O_WRONLY : Z := 0x001.
Definition O_RDWR : Z := 0x002.
Definition O_CREATE : Z := 0x200.
Definition O_TRUNC : Z := 0x400.

(** The descriptor and the file, [None] when there is no such file. *)
Definition argfd (n : Z) : M kstate (option (nat * nat)) :=
  fd <- lift (argint n) ;;
  if (fd <? 0) || (Z.of_nat NOFILE <=? fd) then ret None else
  p <- lift curproc ;;
  q <- lift (getp p) ;;
  match p_ofile q !!! Z.to_nat fd with
  | None => ret None
  | Some f => ret (Some (Z.to_nat fd, f))
  end.

Definition set_fd (p fd : nat) (f : option nat) : M kstate unit :=
  lift (modp p (fun q => set_ofile (<[fd := f]> (p_ofile q)) q)).

Definition fdalloc (f : nat) : M kstate Z :=
  p <- lift curproc ;;
  r <- forl (seq 0 NOFILE) (fun fd (_ : unit) =>
    q <- lift (getp p) ;;
    match p_ofile q !!! fd with
    | None => set_fd p fd (Some f) ;; ret (inr (Z.of_nat fd))
    | Some _ => ret (inl tt)
    end) tt ;;
  ret (match r with inr fd => fd | inl _ => -1 end).

Definition sys_dup : M kstate Z :=
  a <- argfd 0 ;;
  match a with
  | None => ret (-1)
  | Some (_, f) =>
      fd <- fdalloc f ;;
      if fd <? 0 then ret (-1) else
      filedup f ;;
      ret fd
  end.

Section Sysfile.
Context `{WaitBound} `{DiskDriver} `{StackBytes}.

Definition sys_read : M kstate Z :=
  p <- lift (argaddr 1) ;;
  n <- lift (argint 2) ;;
  a <- argfd 0 ;;
  match a with
  | None => ret (-1)
  | Some (_, f) => fileread f p n
  end.

Definition sys_write : M kstate Z :=
  p <- lift (argaddr 1) ;;
  n <- lift (argint 2) ;;
  a <- argfd 0 ;;
  match a with
  | None => ret (-1)
  | Some (_, f) => filewrite f p n
  end.

Definition sys_close : M kstate Z :=
  a <- argfd 0 ;;
  match a with
  | None => ret (-1)
  | Some (fd, f) =>
      p <- lift curproc ;;
      set_fd p fd None ;;
      fileclose f ;;
      ret 0
  end.

Definition sys_fstat : M kstate Z :=
  st <- lift (argaddr 1) ;;
  a <- argfd 0 ;;
  match a with
  | None => ret (-1)
  | Some (_, f) => filestat f st
  end.

(** The label [bad] of [sys_link]: take the new link back. *)
Definition link_bad (ip : nat) : M kstate Z :=
  ilock (Some ip) ;;
  modi ip (fun x => set_i_nlink (s16 (i_nlink x - 1)) x) ;;
  iupdate ip ;;
  iunlockput ip ;;
  end_op ;;
  ret (-1).

Definition sys_link : M kstate Z :=
  old <- lift (argstr 0 MAXPATH) ;;
  match old with
  | None => ret (-1)
  | Some old =>
  new <- lift (argstr 1 MAXPATH) ;;
  match new with
  | None => ret (-1)
  | Some new =>
  begin_op ;;
  ip <- namei old ;;
  match ip with
  | None => end_op ;; ret (-1)
  | Some ip =>
      ilock (Some ip) ;;
      x <- geti ip ;;
      if i_type x =? T_DIR then iunlockput ip ;; end_op ;; ret (-1) else
      modi ip (fun x => set_i_nlink (s16 (i_nlink x + 1)) x) ;;
      iupdate ip ;;
      iunlock (Some ip) ;;
      r <- nameiparent new no_name ;;
      match r with
      | (None, _) => link_bad ip
      | (Some dp, name) =>
          ilock (Some dp) ;;
          d <- geti dp ;;
          x <- geti ip ;;
          r <- (if negb (i_dev d =? i_dev x) then ret (-1) else dirlink dp name (i_inum x)) ;;
          if r <? 0 then iunlockput dp ;; link_bad ip else
          iunlockput dp ;;
          iput ip ;;
          end_op ;;
          ret 0
      end
  end
  end
  end.

Definition isdirempty (dp : nat) : M kstate bool :=
  d <- geti dp ;;
  r <- forl (dir_offsets 2 (i_size d)) (fun off (_ : unit) =>
    de <- read_dirent dp off "isdirempty: readi" ;;
    if negb (de_inum de =? 0) then ret (inr tt) else ret (inl tt)) tt ;;
  ret (match r with inr _ => false | inl _ => true end).

(** The arrays ["."] and [".."] with their NUL. *)
Definition DOT : list Z := [46; 0].
Definition DOTDOT : list Z := [46; 46; 0].

Definition sys_unlink : M kstate Z :=
  path <- lift (argstr 0 MAXPATH) ;;
  match path with
  | None => ret (-1)
  | Some path =>
  begin_op ;;
  r <- nameiparent path no_name ;;
  match r with
  | (None, _) => end_op ;; ret (-1)
  | (Some dp, name) =>
      ilock (Some dp) ;;
      let bad := (iunlockput dp ;; end_op ;; ret (-1)) in
      if (namecmp name DOT =? 0) || (namecmp name DOTDOT =? 0) then bad else
      r <- dirlookup dp name ;;
      match r with
      | None => bad
      | Some (ip, off) =>
          ilock (Some ip) ;;
          x <- geti ip ;;
          if i_nlink x <? 1 then panic "unlink: nlink < 1" else
          full <- (if i_type x =? T_DIR then e <- isdirempty ip ;; ret (negb e) else ret false) ;;
          if (full : bool) then iunlockput ip ;; bad else
          r <- writei dp (SLocal (replicate (Z.to_nat DIRENT) 0)) off DIRENT ;;
          if negb (r =? DIRENT) then panic "unlink: writei" else
          when (i_type x =? T_DIR)
            (modi dp (fun d => set_i_nlink (s16 (i_nlink d - 1)) d) ;; iupdate dp) ;;
          iunlockput dp ;;
          modi ip (fun x => set_i_nlink (s16 (i_nlink x - 1)) x) ;;
          iupdate ip ;;
          iunlockput ip ;;
          end_op ;;
          ret 0
      end
  end
  end.

(** The label [fail] of [create]. *)
Definition create_fail (ip dp : nat) : M kstate (option nat) :=
  modi ip (set_i_nlink 0) ;;
  iupdate ip ;;
  iunlockput ip ;;
  iunlockput dp ;;
  ret None.

Definition create (path : list Z) (type major minor : Z) : M kstate (option nat) :=
  r <- nameiparent path no_name ;;
  match r with
  | (None, _) => ret None
  | (Some dp, name) =>
      ilock (Some dp) ;;
      r <- dirlookup dp name ;;
      match r with
      | Some (ip, _) =>
          iunlockput dp ;;
          ilock (Some ip) ;;
          x <- geti ip ;;
          if (type =? T_FILE) && ((i_type x =? T_FILE) || (i_type x =? T_DEVICE))
          then ret (Some ip)
          else iunlockput ip ;; ret None
      | None =>
          d <- geti dp ;;
          r <- ialloc (i_dev d) type ;;
          match r with
          | None => iunlockput dp ;; ret None
          | Some ip =>
              ilock (Some ip) ;;
              modi ip (set_i_major major) ;;
              modi ip (set_i_minor minor) ;;
              modi ip (set_i_nlink 1) ;;
              iupdate ip ;;
              x <- geti ip ;;
              ok <- (if type =? T_DIR then
                       r <- dirlink ip DOT (i_inum x) ;;
                       if r <? 0 then ret false else
                       d <- geti dp ;;
                       r <- dirlink ip DOTDOT (i_inum d) ;;
                       ret (negb (r <? 0))
                     else ret true) ;;
              if negb ok then create_fail ip dp else
              r <- dirlink dp name (i_inum x) ;;
              if r <? 0 then create_fail ip dp else
              when (type =? T_DIR)
                (modi dp (fun d => set_i_nlink (s16 (i_nlink d + 1)) d) ;; iupdate dp) ;;
              iunlockput dp ;;
              ret (Some ip)
          end
      end
  end.

(** The part of [sys_open] after the inode is found and locked. *)
Definition open_inode (ip : nat) (omode : Z) : M kstate Z :=
  x <- geti ip ;;
  let fail := (iunlockput ip ;; end_op ;; ret (-1)) in
  if (i_type x =? T_DEVICE) && ((i_major x <? 0) || (NDEV <=? i_major x)) then fail else
  f <- filealloc ;;
  match f with
  | None => fail
  | Some f =>
      fd <- fdalloc f ;;
      if fd <? 0 then fileclose f ;; fail else
      (if i_type x =? T_DEVICE then
         modf f (set_f_type FD_DEVICE) ;; modf f (set_f_major (i_major x))
       else modf f (set_f_type FD_INODE) ;; modf f (set_f_off 0)) ;;
      modf f (set_f_ip (Some ip)) ;;
      modf f (set_f_readable (if Z.land omode O_WRONLY =? 0 then 1 else 0)) ;;
      modf f (set_f_writable
        (if (Z.land omode O_WRONLY =? 0) && (Z.land omode O_RDWR =? 0) then 0 else 1)) ;;
      when (negb (Z.land omode O_TRUNC =? 0) && (i_type x =? T_FILE)) (itrunc ip) ;;
      iunlock (Some ip) ;;
      end_op ;;
      ret fd
  end.

Definition sys_open : M kstate Z :=
  omode <- lift (argint 1) ;;
  path <- lift (argstr 0 MAXPATH) ;;
  match path with
  | None => ret (-1)
  | Some path =>
      begin_op ;;
      if negb (Z.land omode O_CREATE =? 0) then
        r <- create path T_FILE 0 0 ;;
        match r with
        | None => end_op ;; ret (-1)
        | Some ip => open_inode ip omode
        end
      else
        r <- namei path ;;
        match r with
        | None => end_op ;; ret (-1)
        | Some ip =>
            ilock (Some ip) ;;
            x <- geti ip ;;
            if (i_type x =? T_DIR) && negb (omode =? O_RDONLY) then
              iunlockput ip ;; end_op ;; ret (-1)
            else open_inode ip omode
        end
  end.

(** [argstr(0, path) < 0 || (ip = create(path, ...)) == 0]. *)
Definition create_arg (type major minor : Z) : M kstate (option nat) :=
  path <- lift (argstr 0 MAXPATH) ;;
  match path with
  | None => ret None
  | Some path => create path type major minor
  end.

Definition sys_mkdir : M kstate Z :=
  begin_op ;;
  r <- create_arg T_DIR 0 0 ;;
  match r with
  | None => end_op ;; ret (-1)
  | Some ip => iunlockput ip ;; end_op ;; ret 0
  end.

Definition sys_mknod : M kstate Z :=
  begin_op ;;
  major <- lift (argint 1) ;;
  minor <- lift (argint 2) ;;
  r <- create_arg T_DEVICE (s16 major) (s16 minor) ;;
  match r with
  | None => end_op ;; ret (-1)
  | Some ip => iunlockput ip ;; end_op ;; ret 0
  end.

Definition sys_chdir : M kstate Z :=
  p <- lift curproc ;;
  begin_op ;;
  path <- lift (argstr 0 MAXPATH) ;;
  r <- (match path with None => ret None | Some path => namei path end) ;;
  match r with
  | None => end_op ;; ret (-1)
  | Some ip =>
      ilock (Some ip) ;;
      x <- geti ip ;;
      if negb (i_type x =? T_DIR) then iunlockput ip ;; end_op ;; ret (-1) else
      iunlock (Some ip) ;;
      q <- lift (getp p) ;;
      iput_ptr (p_cwd q) ;;
      end_op ;;
      lift (modp p (set_cwd (Some ip))) ;;
      ret 0
  end.

(** Free the pages of the argument strings. *)
Definition free_args (pages : list Z) : M kstate unit :=
  iterl pages (fun pa => lift (kfree pa)).

(** Fetch the argument strings into fresh pages: the pages taken so far, and
    the strings unless something failed. *)
Definition fetch_args (uargv : Z) : M kstate (list Z * option (list (list Z))) :=
  r <- forl (seq 0 MAXARG) (fun i '(pages, argv) =>
    uarg <- lift (fetchaddr (u64 (uargv + 8 * Z.of_nat i))) ;;
    match uarg with
    | None => ret (inr (pages, None))
    | Some uarg =>
        if uarg =? 0 then ret (inr (pages, Some argv)) else
        pa <- lift kalloc ;;
        if pa =? 0 then ret (inr (pages, None)) else
        s <- lift (fetchstr uarg PGSIZE) ;;
        match s with
        | None => ret (inr (pages ++ [pa], None))
        | Some s =>
            lift (poke pa (s ++ [0])) ;;
            ret (inl (pages ++ [pa], argv ++ [s]))
        end
    end) ([], []) ;;
  ret (match r with inr x => x | inl (pages, _) => (pages, None) end).

Definition sys_exec : M kstate Z :=
  uargv <- lift (argaddr 1) ;;
  path <- lift (argstr 0 MAXPATH) ;;
  match path with
  | None => ret (-1)
  | Some path =>
      r <- fetch_args uargv ;;
      match r with
      | (pages, None) => free_args pages ;; ret (-1)
      | (pages, Some argv) =>
          r <- kexec path argv ;;
          free_args pages ;;
          ret r
      end
  end.

Definition sys_pipe : M kstate Z :=
  p <- lift curproc ;;
  fdarray <- lift (argaddr 0) ;;
  r <- pipealloc ;;
  match r with
  | None => ret (-1)
  | Some (rf, wf) =>
      let close := (fileclose rf ;; fileclose wf ;; ret (-1)) in
      fd0 <- fdalloc rf ;;
      if fd0 <? 0 then close else
      fd1 <- fdalloc wf ;;
      if fd1 <? 0 then set_fd p (Z.to_nat fd0) None ;; close else
      q <- lift (getp p) ;;
      r <- lift (copyout (p_pagetable q) fdarray (le_bytes 4 fd0)) ;;
      r <- (if r <? 0 then ret r
            else lift (copyout (p_pagetable q) (u64 (fdarray + 4)) (le_bytes 4 fd1))) ;;
      if r <? 0 then
        set_fd p (Z.to_nat fd0) None ;;
        set_fd p (Z.to_nat fd1) None ;;
        close
      else ret 0
  end.
End Sysfile.
