(* ===== verification/Fd.v ===== *)
(** Descriptors and the table of open files: [fdalloc], [sys_dup] and
    [sys_close] of kernel/sysfile.c with [filedup] and [fileclose] of
    kernel/file.c.

    A file is open as long as a descriptor of some process refers to it:
    [files_ok] says that the reference count of every entry of the table is the
    number of such descriptors.  The last one to be closed gives up what the file
    stands for: [closable] says that it can, [given_up] what this changes. *)
From S2P Require Import Prelude Riscv Spinlock Memory Bytes Kstring Kalloc Vm Proc Switch Sleeplock UserMem Kstate Bio Cache Log Fs Itable Pipe Console File Sysfile.

(** * Counting *)

Definition zsum {A} (g : A -> Z) (l : list A) : Z := foldr (fun x n => g x + n) 0 l.

Lemma zsum_alter {A} `{Inhabited A} (g : A -> Z) f k l :
  (k < length l)%nat -> zsum g (alter f k l) = zsum g l - g (l !!! k) + g (f (l !!! k)).
Proof.
  revert k. induction l as [|x l IH]; intros [|k] Hk; cbn in Hk; try lia.
  - change (alter f 0%nat (x :: l)) with (f x :: l). cbn. lia.
  - change (alter f (S k) (x :: l)) with (x :: alter f k l). change ((x :: l) !!! S k) with (l !!! k).
    cbn [zsum foldr]. fold (zsum g (alter f k l)) (zsum g l). rewrite IH by lia. lia.
Qed.

Lemma zsum_bound {A} (g : A -> Z) l b : (forall x, x ∈ l -> 0 <= g x <= b) -> 0 <= zsum g l <= Z.of_nat (length l) * b.
Proof.
  induction l as [|x l IH]; intros H; [done|]. cbn [zsum foldr length]. fold (zsum g l).
  pose proof (H x ltac:(by left)). specialize (IH ltac:(intros y Hy; apply H; by right)). lia.
Qed.

(** How many descriptors of the list, and of all processes, refer to file [i]. *)
Definition refers_to (i : nat) (o : option nat) : Z := if bool_decide (o = Some i) then 1 else 0.
Definition fdcount (i : nat) (l : list (option nat)) : Z := zsum (refers_to i) l.
Definition holders (ps : list proc) (i : nat) : Z := zsum (fun p => fdcount i (p_ofile p)) ps.

Definition with_fd (fd : nat) (f : option nat) (q : proc) : proc := set_ofile (<[fd := f]> (p_ofile q)) q.

Lemma fdcount_insert i l fd f : (fd < length l)%nat ->
  fdcount i (<[fd := f]> l) = fdcount i l - refers_to i (l !!! fd) + refers_to i f.
Proof. intros H. unfold fdcount. rewrite list_insert_alter. by rewrite zsum_alter. Qed.

Lemma holders_set ps p fd f i :
  (p < length ps)%nat -> (fd < length (p_ofile (ps !!! p)))%nat ->
  holders (alter (with_fd fd f) p ps) i = holders ps i - refers_to i (p_ofile (ps !!! p) !!! fd) + refers_to i f.
Proof.
  intros Hp Hfd. unfold holders. rewrite zsum_alter by done. cbn [with_fd set_ofile p_ofile].
  rewrite fdcount_insert by done. lia.
Qed.

(** * The invariant *)

Record files_ok (me : nat) (s : kstate) : Prop := {
  fk_calm : calm me (k_ps s);
  fk_me : (me < NPROC)%nat;
  fk_lock : lock_free FtableLock (khw s);
  fk_len : length (k_ftable s) = NFILE;
  fk_fds : forall p, (p < NPROC)%nat -> length (p_ofile (ps_proc (k_ps s) !!! p)) = NOFILE;
  fk_open : forall p fd f, (p < NPROC)%nat -> (fd < NOFILE)%nat ->
    p_ofile (ps_proc (k_ps s) !!! p) !!! fd = Some f -> (f < NFILE)%nat;
  fk_refs : forall i, (i < NFILE)%nat -> f_ref (k_ftable s !!! i) = holders (ps_proc (k_ps s)) i }.

(** The counts fit an [int]. *)
Lemma refs_bound me s i : files_ok me s -> (i < NFILE)%nat -> 0 <= f_ref (k_ftable s !!! i) <= 1024.
Proof.
  intros F Hi. rewrite (fk_refs _ _ F i Hi). unfold holders.
  pose proof (cm_len _ _ (fk_calm _ _ F)) as Hl.
  assert (0 <= zsum (fun p => fdcount i (p_ofile p)) (ps_proc (k_ps s)) <= Z.of_nat (length (ps_proc (k_ps s))) * 16) as H; [|rewrite Hl in H; exact H].
  apply zsum_bound. intros p Hp. apply list_elem_of_lookup in Hp as [k Hk]. pose proof (lookup_lt_Some _ _ _ Hk) as Hlt.
  pose proof (fk_fds _ _ F k ltac:(lia)) as Hf. rewrite (list_lookup_total_correct _ _ _ Hk) in Hf.
  assert (0 <= fdcount i (p_ofile p) <= Z.of_nat (length (p_ofile p)) * 1) as H; [|rewrite Hf in H; exact H].
  apply zsum_bound. intros o _. unfold refers_to. case_bool_decide; lia.
Qed.

Definition put_fd (me fd : nat) (f : option nat) (s : kstate) : kstate :=
  with_k_ps (with_proc (alter (with_fd fd f) me (ps_proc (k_ps s))) (k_ps s)) s.
Definition put_file (i : nat) (g : file -> file) (s : kstate) : kstate := with_k_ftable (alter g i (k_ftable s)) s.

(** A descriptor of [me] is set to [f], and the counts follow. *)
Lemma files_set me s fd f tab :
  files_ok me s -> (fd < NOFILE)%nat -> (forall i, f = Some i -> (i < NFILE)%nat) ->
  length tab = NFILE ->
  (forall i, (i < NFILE)%nat -> f_ref (tab !!! i) =
     f_ref (k_ftable s !!! i) - refers_to i (p_ofile (ps_proc (k_ps s) !!! me) !!! fd) + refers_to i f) ->
  files_ok me (with_k_ftable tab (put_fd me fd f s)).
Proof.
  intros [F1 F2 F3 F4 F5 F6 F7] Hfd Hf Hl Hr. pose proof (cm_len _ _ F1) as Hlen.
  assert (forall p, ps_proc (k_ps (put_fd me fd f s)) !!! p =
    if decide (me = p) then with_fd fd f (ps_proc (k_ps s) !!! me) else ps_proc (k_ps s) !!! p) as E.
  { intros p. cbn. destruct (decide (me = p)) as [<-|Hne]; [apply list_lookup_total_alter_eq; lia|by apply list_lookup_total_alter_ne]. }
  split; try done.
  - destruct F1 as [C1 C2 C3 C4 C5]. split; try done. cbn. by rewrite length_alter.
  - intros p Hp. cbn [k_ps with_k_ftable]. rewrite E. destruct (decide (me = p)) as [<-|]; [|by apply F5].
    cbn. rewrite length_insert. by apply F5.
  - intros p k h Hp Hk. cbn [k_ps with_k_ftable]. rewrite E. destruct (decide (me = p)) as [<-|]; [|by apply F6].
    cbn. destruct (decide (fd = k)) as [<-|Hne].
    + rewrite list_lookup_total_insert_eq by (by rewrite F5). by apply Hf.
    + rewrite list_lookup_total_insert_ne by done. by apply F6.
  - intros i Hi. cbn [k_ftable with_k_ftable]. rewrite Hr, F7 by done. symmetry. apply holders_set; [lia|by rewrite F5].
Qed.

(** * The operations *)

Lemma lift_read {A} (m : M pstate A) s a : m (k_ps s) = Ret a (k_ps s) -> lift m s = Ret a s.
Proof. intros E. rewrite (@lift_Ret kstate pstate A kstate_pstate _ s _ _ E). by destruct s. Qed.

(** The first system call argument as an [int], and the file it names. *)
Definition arg0 (me : nat) (s : kstate) : Z :=
  s32 (rd64 (ms_ram (ps_mem (k_ps s))) (p_trapframe (ps_proc (k_ps s) !!! me) + tf_off TF_a0)).
Definition fd_file (me : nat) (fd : Z) (s : kstate) : option nat :=
  if (fd <? 0) || (Z.of_nat NOFILE <=? fd) then None else p_ofile (ps_proc (k_ps s) !!! me) !!! Z.to_nat fd.

Lemma find_least (p : nat -> bool) n k :
  List.find p (seq 0 n) = Some k -> (k < n)%nat /\ p k = true /\ forall j, (j < k)%nat -> p j = false.
Proof.
  assert (forall a, List.find p (seq a n) = Some k ->
    (a <= k < a + n)%nat /\ p k = true /\ forall j, (a <= j < k)%nat -> p j = false) as H.
  { induction n as [|n IH]; intros a E; [done|]. cbn in E. destruct (p a) eqn:Ea.
    - injection E as <-. split; [lia|]. split; [done|]. lia.
    - destruct (IH _ E) as (H1 & H2 & H3). split; [lia|]. split; [done|]. intros j Hj.
      destruct (decide (j = a)) as [->|]; [done|]. apply H3. lia. }
  intros E. destruct (H 0%nat E) as (H1 & H2 & H3). split; [lia|]. split; [done|]. intros j Hj. apply H3. lia.
Qed.

Section Fd.
Context (me : nat).
Implicit Types s : kstate.

Lemma argfd_eq s : calm me (k_ps s) ->
  argfd 0 s = Ret ((fun f => (Z.to_nat (arg0 me s), f)) <$> fd_file me (arg0 me s) s) s.
Proof using Type.
  intros Hc. pose proof (calm_curproc me (k_ps s) Hc) as Ec.
  assert (lift (argint 0) s = Ret (arg0 me s) s) as E1.
  { apply lift_read. unfold argint. erewrite bind_Ret; [reflexivity|]. unfold argraw. by kstep Ec. }
  unfold argfd. kstep E1. unfold fd_file. destruct (_ || _); [done|].
  kstep (lift_read curproc s me Ec). kstep (lift_read (getp me) s (ps_proc (k_ps s) !!! me) eq_refl).
  by destruct (_ !!! _).
Qed.

(** The least free descriptor. *)
Definition free_fd (s : kstate) : option nat :=
  List.find (fun fd => bool_decide (p_ofile (ps_proc (k_ps s) !!! me) !!! fd = None)) (seq 0 NOFILE).

Lemma fdalloc_eq s f : calm me (k_ps s) ->
  fdalloc f s = match free_fd s with
                | Some fd => Ret (Z.of_nat fd) (put_fd me fd (Some f) s)
                | None => Ret (-1) s
                end.
Proof using Type.
  intros Hc. unfold fdalloc. kstep (lift_read curproc s me (calm_curproc me (k_ps s) Hc)).
  unfold free_fd. generalize (seq 0 NOFILE) as l.
  set (body := fun (fd : nat) (_ : unit) => _). intros l.
  assert (forl l body tt s = match List.find (fun fd => bool_decide (p_ofile (ps_proc (k_ps s) !!! me) !!! fd = None)) l with
    | Some fd => Ret (inr (Z.of_nat fd)) (put_fd me fd (Some f) s) | None => Ret (inl tt) s end) as E.
  { induction l as [|fd l IH]; [done|]. cbn [List.find].
    pose proof (lift_read (getp me) s (ps_proc (k_ps s) !!! me) eq_refl) as Eg.
    case_bool_decide as Hn.
    - apply forl_exit. unfold body. kstep Eg. rewrite Hn. by kstep eq_refl.
    - rewrite <- IH. apply forl_next. unfold body. kstep Eg. by destruct (p_ofile _ !!! fd). }
  destruct (List.find _ l); by rewrite (bind_Ret _ _ _ _ _ E).
Qed.

Lemma filedup_eq s f : calm me (k_ps s) -> lock_free FtableLock (khw s) -> 1 <= f_ref (k_ftable s !!! f) ->
  filedup f s = Ret f (put_file f (fun x => set_f_ref (f_ref x + 1) x) s).
Proof using Type.
  intros Hc Hl Hr. unfold filedup. kstep (kacq_calm me FtableLock s Hc Hl). kstep eq_refl.
  change (k_ftable (kinside FtableLock s)) with (k_ftable s). rewrite (proj2 (Z.ltb_ge _ _)) by lia. kstep eq_refl.
  by kstep (krel_calm me FtableLock (put_file f (fun x => set_f_ref (f_ref x + 1) x) s) Hc Hl).
Qed.

Lemma fileclose_eq `{WaitBound} `{DiskDriver} s f :
  calm me (k_ps s) -> lock_free FtableLock (khw s) -> (f < length (k_ftable s))%nat -> 1 <= f_ref (k_ftable s !!! f) ->
  fileclose f s =
    (let x := k_ftable s !!! f in
     if 1 <? f_ref x then Ret tt (put_file f (set_f_ref (f_ref x - 1)) s)
     else close_rest (set_f_ref 0 x) (put_file f (fun x => set_f_type FD_NONE (set_f_ref 0 x)) s)).
Proof using Type.
  intros Hc Hl Hf Hr. cbn zeta. unfold fileclose. kstep (kacq_calm me FtableLock s Hc Hl). kstep eq_refl.
  change (k_ftable (kinside FtableLock s)) with (k_ftable s). rewrite (proj2 (Z.ltb_ge _ _)) by lia. do 2 kstep eq_refl.
  cbn [k_ftable with_k_ftable kinside with_k_ps]. rewrite list_lookup_total_alter_eq by done. cbn [f_ref set_f_ref].
  assert (alter (fun x => set_f_ref (f_ref x - 1) x) f (k_ftable s) = alter (set_f_ref (f_ref (k_ftable s !!! f) - 1)) f (k_ftable s)) as Ea
    by (by apply list_alter_same).
  destruct (Z.ltb_spec 1 (f_ref (k_ftable s !!! f))) as [H1|H1].
  - rewrite (proj2 (Z.ltb_lt 0 _)) by lia. rewrite Ea.
    exact (krel_calm me FtableLock (put_file f (set_f_ref (f_ref (k_ftable s !!! f) - 1)) s) Hc Hl).
  - rewrite (proj2 (Z.ltb_ge 0 _)) by lia. do 2 kstep eq_refl.
    cbn [k_ftable with_k_ftable kinside with_k_ps]. rewrite !list_alter_alter. replace (f_ref (k_ftable s !!! f) - 1) with 0 by lia.
    kstep (krel_calm me FtableLock (put_file f (fun x => set_f_type FD_NONE (set_f_ref 0 x)) s) Hc Hl). done.
Qed.

Lemma fd_file_put s fd f k : files_ok me s -> (fd < NOFILE)%nat ->
  fd_file me k (put_fd me fd f s) = if k =? Z.of_nat fd then f else fd_file me k s.
Proof using Type.
  intros F Hfd. unfold fd_file. destruct ((k <? 0) || (Z.of_nat NOFILE <=? k)) eqn:Ek.
  { apply orb_true_iff in Ek. destruct (Z.eqb_spec k (Z.of_nat fd)); [|done]. rewrite Z.ltb_lt, Z.leb_le in Ek. lia. }
  apply orb_false_iff in Ek as [Ek1 Ek2]. apply Z.ltb_ge in Ek1. apply Z.leb_gt in Ek2.
  cbn [put_fd k_ps with_k_ps ps_proc with_proc]. rewrite list_lookup_total_alter_eq by (rewrite (cm_len _ _ (fk_calm _ _ F)); apply F).
  cbn [with_fd set_ofile p_ofile]. destruct (Z.eqb_spec k (Z.of_nat fd)) as [->|Hne].
  - rewrite Nat2Z.id. apply list_lookup_total_insert_eq. rewrite (fk_fds _ _ F); [done|apply F].
  - rewrite list_lookup_total_insert_ne by lia. done.
Qed.

Lemma fd_file_some s k f : files_ok me s -> fd_file me k s = Some f ->
  0 <= k < Z.of_nat NOFILE /\ p_ofile (ps_proc (k_ps s) !!! me) !!! Z.to_nat k = Some f /\ (f < NFILE)%nat /\
  1 <= f_ref (k_ftable s !!! f).
Proof using Type.
  intros F. unfold fd_file. destruct (_ || _) eqn:Ek; [done|]. apply orb_false_iff in Ek as [Ek1 Ek2].
  apply Z.ltb_ge in Ek1. apply Z.leb_gt in Ek2. intros E. split; [lia|]. split; [done|].
  assert (f < NFILE)%nat as Hf by (apply (fk_open _ _ F me (Z.to_nat k)); [apply F|lia|done]). split; [done|].
  rewrite (fk_refs _ _ F) by done. pose proof (fk_me _ _ F) as Hme. pose proof (cm_len _ _ (fk_calm _ _ F)) as Hl.
  pose proof (holders_set (ps_proc (k_ps s)) me (Z.to_nat k) None f ltac:(lia) ltac:(rewrite (fk_fds _ _ F) by done; lia)) as H.
  rewrite E in H. unfold refers_to in H. rewrite bool_decide_eq_true_2, bool_decide_eq_false_2 in H by done.
  assert (0 <= holders (alter (with_fd (Z.to_nat k) None) me (ps_proc (k_ps s))) f) as Hp; [|lia].
  assert (forall {A} (g : A -> Z) l, (forall x, 0 <= g x) -> 0 <= zsum g l) as Hz.
  { intros A g l Hg. induction l as [|x l IH]; [done|]. cbn. specialize (Hg x). fold (zsum g l). lia. }
  apply Hz. intros p. apply Hz. intros o. unfold refers_to. case_bool_decide; lia.
Qed.

Lemma fd_file_at s k : 0 <= k < Z.of_nat NOFILE -> fd_file me k s = p_ofile (ps_proc (k_ps s) !!! me) !!! Z.to_nat k.
Proof using Type. intros Hk. unfold fd_file. by rewrite (proj2 (Z.ltb_ge _ _)), (proj2 (Z.leb_gt _ _)) by lia. Qed.

Lemma free_fd_some s fd : free_fd s = Some fd ->
  (fd < NOFILE)%nat /\ fd_file me (Z.of_nat fd) s = None /\ forall k, 0 <= k < Z.of_nat fd -> fd_file me k s <> None.
Proof using Type.
  intros E. apply find_least in E as (Hlt & Hp & Hbefore). split; [done|]. apply bool_decide_eq_true_1 in Hp. split.
  - by rewrite fd_file_at, Nat2Z.id by lia.
  - intros k Hk. rewrite fd_file_at by lia. specialize (Hbefore (Z.to_nat k) ltac:(lia)). by apply bool_decide_eq_false_1 in Hbefore.
Qed.

Lemma free_fd_none s : free_fd s = None -> forall k, 0 <= k < Z.of_nat NOFILE -> fd_file me k s <> None.
Proof using Type.
  intros E k Hk. rewrite fd_file_at by done. pose proof (List.find_none _ _ E (Z.to_nat k) ltac:(apply List.in_seq; lia)) as H.
  by apply bool_decide_eq_false_1 in H.
Qed.
End Fd.

(** * The last close

    What stands behind a file whose last descriptor is gone, in the state [s] in
    which its entry of the table is free already. *)

(** The file can be given up without waiting.  A pipe: nobody holds its lock,
    and its page, which [kfree] gets when the other end is closed too, is no free
    page.  An inode: the log takes another operation, and it is empty when no
    operation is under way; nobody holds the locks; and this is not the last
    reference to an inode without links, whose blocks would be freed. *)
Record log_room (s : kstate) : Prop := {
  lr_lock : lock_free LogLock (khw s);
  lr_idle : lg_committing (k_log s) = 0;
  lr_room : lg_n (k_log s) + (lg_outstanding (k_log s) + 1) * MAXOPBLOCKS <= Z.of_nat LOGBLOCKS;
  lr_empty : lg_outstanding (k_log s) = 0 -> lg_n (k_log s) = 0 }.
Definition end_closed (writable : Z) (y : pipe) : pipe :=
  if negb (writable =? 0) then set_pi_writeopen 0 y else set_pi_readopen 0 y.
Definition both_closed (y : pipe) : bool := (pi_readopen y =? 0) && (pi_writeopen y =? 0).

Definition closable (x : file) (free : list Z) (s : kstate) : Prop :=
  match f_type x with
  | FD_NONE => True
  | FD_PIPE =>
      let m := ps_mem (k_ps s) in
      lock_free (PipeLock (f_pipe x)) (khw s) /\
      (both_closed (end_closed (f_writable x) (k_pipes s !!! f_pipe x)) = true ->
         kmem_ready m /\ kmem_ok m free /\ page_ok (m_ld (khw s)) (f_pipe x) /\ f_pipe x ∉ free)
  | FD_INODE | FD_DEVICE =>
      log_room s /\ lock_free ItableLock (khw s) /\
      exists i, f_ip x = Some i /\ (i < length (k_itable s))%nat /\ 1 <= i_ref (k_itable s !!! i) /\
        last_unlinked (k_itable s !!! i) = false
  end.

(** What giving it up changes.  A pipe: the end is closed and those who wait at
    the other end are woken; when both are closed the pipe is gone and its page
    is free.  An inode: one reference less, and those who wait for the log are
    woken. *)
Definition given_up (me : nat) (x : file) (free : list Z) (s s' : kstate) : Prop :=
  match f_type x with
  | FD_NONE => s' = s
  | FD_PIPE =>
      let pi := f_pipe x in
      let y := end_closed (f_writable x) (k_pipes s !!! pi) in
      let c := if negb (f_writable x =? 0) then ChPipeRead pi else ChPipeWrite pi in
      let t := with_k_ps (woken c me (k_ps s)) s in
      if both_closed y then
        exists m', s' = with_k_ps (with_mem m' (k_ps t)) (with_k_pipes (delete pi (k_pipes s)) t) /\
          ms_hw m' = khw s /\ kmem_ready m' /\ kmem_ok m' (pi :: free) /\
          (forall a, a < pi \/ pi + PGSIZE <= a -> rd8 (ms_ram m') a = rd8 (ms_ram (ps_mem (k_ps s))) a)
      else s' = with_k_pipes (<[pi := y]> (k_pipes s)) t
  | FD_INODE | FD_DEVICE =>
      exists i, f_ip x = Some i /\
        s' = with_k_ps (woken ChLog me (k_ps s)) (updi i (fun ip => set_i_ref (i_ref ip - 1) ip) s)
  end.

Section Last.
Context `{WaitBound} `{DiskDriver} (me : nat).
Implicit Types s : kstate.

Lemma pipeclose_eq s pi w free x :
  calm me (k_ps s) -> f_type x = FD_PIPE -> f_pipe x = pi -> f_writable x = w -> closable x free s ->
  exists s', pipeclose pi w s = Ret tt s' /\ given_up me x free s s'.
Proof using Type.
  intros Hc Et <- <-. unfold closable, given_up. rewrite Et. set (pi := f_pipe x). set (w := f_writable x).
  set (y := end_closed w (k_pipes s !!! pi)). set (c := if negb (w =? 0) then ChPipeRead pi else ChPipeWrite pi). intros [Hl Hk].
  set (s1 := with_k_ps (woken c me (k_ps s)) (with_k_pipes (<[pi := y]> (k_pipes s)) s)).
  assert (calm me (k_ps s1)) as Hc1 by by apply calm_woken.
  assert ((if negb (w =? 0) then modpi pi (set_pi_writeopen 0) ;; lift (wakeup (ChPipeRead pi))
           else modpi pi (set_pi_readopen 0) ;; lift (wakeup (ChPipeWrite pi))) (kinside (PipeLock pi) s) = Ret tt (kinside (PipeLock pi) s1)) as E1.
  { unfold s1, c, y, end_closed. destruct (negb (w =? 0)); kstep eq_refl.
    - exact (kwakeup_calm me (ChPipeRead pi) (kinside (PipeLock pi) (with_k_pipes (<[pi := set_pi_writeopen 0 (k_pipes s !!! pi)]> (k_pipes s)) s))
        (calm_inside me (PipeLock pi) _ ltac:(done) Hc)).
    - exact (kwakeup_calm me (ChPipeWrite pi) (kinside (PipeLock pi) (with_k_pipes (<[pi := set_pi_readopen 0 (k_pipes s !!! pi)]> (k_pipes s)) s))
        (calm_inside me (PipeLock pi) _ ltac:(done) Hc)). }
  unfold pipeclose. kstep (kacq_calm me (PipeLock pi) s Hc Hl). kstep E1. kstep eq_refl.
  change (k_pipes (kinside (PipeLock pi) s1)) with (<[pi := y]> (k_pipes s)). rewrite lookup_total_insert_eq. fold (both_closed y).
  pose proof (krel_calm me (PipeLock pi) s1 Hc1 Hl) as Er. destruct (both_closed y) eqn:Eb; [|by exists s1].
  destruct (Hk eq_refl) as (Hr & Hko & Hp & Hn).
  destruct (kfree_spec pi (ps_mem (k_ps s)) free Hr Hko Hp Hn) as (m' & Ef & Hr' & Hk' & _ & Hfr).
  exists (with_k_ps (with_mem m' (woken c me (k_ps s))) (with_k_pipes (delete pi (k_pipes s)) (with_k_ps (woken c me (k_ps s)) s))). split.
  - kstep Er. kstep eq_refl. cbn [s1 with_k_ps with_k_pipes k_pipes]. rewrite delete_insert_eq.
    exact (@lift_Ret kstate mem unit kstate_mem (kfree pi) (with_k_pipes (delete pi (k_pipes s)) (with_k_ps (woken c me (k_ps s)) s)) tt m' Ef).
  - exists m'. split_and!; try done. rewrite (kfree_hw pi _ m' Hr Hp Ef). exact (cm_touch _ _ Hc).
Qed.

Lemma begin_op_eq s : calm me (k_ps s) -> log_room s ->
  begin_op s = Ret tt (with_k_log (set_lg_outstanding (lg_outstanding (k_log s) + 1) (k_log s)) s).
Proof using Type.
  intros Hc [L1 L2 L3 _]. unfold begin_op. kstep (kacq_calm me LogLock s Hc L1). apply loop_exit. kstep eq_refl.
  change (k_log (kinside LogLock s)) with (k_log s). rewrite L2. change (negb (0 =? 0)) with false. cbv iota.
  rewrite (proj2 (Z.ltb_ge _ _)) by lia. kstep eq_refl.
  by kstep (krel_calm me LogLock (with_k_log (set_lg_outstanding (lg_outstanding (k_log s) + 1) (k_log s)) s) Hc L1).
Qed.

(** The end of an operation that leaves nothing to commit. *)
Lemma end_op_eq s : calm me (k_ps s) -> lock_free LogLock (khw s) -> lg_committing (k_log s) = 0 ->
  (lg_outstanding (k_log s) = 1 -> lg_n (k_log s) = 0) ->
  end_op s = Ret tt (with_k_ps (woken ChLog me (k_ps s)) (with_k_log (set_lg_outstanding (lg_outstanding (k_log s) - 1) (k_log s)) s)).
Proof using Type.
  intros Hc Hl Hcm Hn. set (s1 := with_k_log (set_lg_outstanding (lg_outstanding (k_log s) - 1) (k_log s)) s).
  set (s2 := with_k_ps (woken ChLog me (k_ps s)) s1).
  assert (calm me (k_ps s2)) as Hc2 by by apply calm_woken.
  unfold end_op. kstep (kacq_calm me LogLock s Hc Hl). kstep (eq_refl : _ = Ret tt (kinside LogLock s1)). kstep eq_refl.
  change (lg_committing (k_log (kinside LogLock s1))) with (lg_committing (k_log s)). rewrite Hcm. change (negb (0 =? 0)) with false. cbv iota.
  change (lg_outstanding (k_log (kinside LogLock s1))) with (lg_outstanding (k_log s) - 1).
  assert (lift (wakeup ChLog) (kinside LogLock s1) = Ret tt (kinside LogLock s2)) as Ew
    by exact (kwakeup_calm me ChLog (kinside LogLock s1) (calm_inside me LogLock _ ltac:(done) Hc)).
  destruct (Z.eqb_spec (lg_outstanding (k_log s) - 1) 0) as [E|E].
  - set (s3 := with_k_log (set_lg_committing 1 (k_log s1)) s1).
    kstep (eq_refl : _ = Ret true (kinside LogLock s3)). kstep (krel_calm me LogLock s3 Hc Hl). cbn [when].
    assert (commit s3 = Ret tt s3) as Ec.
    { unfold commit. kstep eq_refl. change (lg_n (k_log s3)) with (lg_n (k_log s)). by rewrite Hn by lia. }
    kstep Ec. kstep (kacq_calm me LogLock s3 Hc Hl).
    assert (modlog (set_lg_committing 0) (kinside LogLock s3) = Ret tt (kinside LogLock s1)) as Em.
    { assert (set_lg_committing 0 (k_log s3) = k_log s1) as El
        by (unfold s3, s1; destruct (k_log s); cbn in Hcm |- *; by rewrite Hcm).
      transitivity (Ret tt (kinside LogLock (with_k_log (set_lg_committing 0 (k_log s3)) s3))); [done|]. by rewrite El. }
    kstep Em. kstep Ew. exact (krel_calm me LogLock s2 Hc2 Hl).
  - assert ((lift (wakeup ChLog) ;; ret false) (kinside LogLock s1) = Ret false (kinside LogLock s2)) as E2 by by kstep Ew.
    kstep E2. by kstep (krel_calm me LogLock s2 Hc2 Hl).
Qed.

Lemma close_inode_eq s i : calm me (k_ps s) -> log_room s -> lock_free ItableLock (khw s) ->
  last_unlinked (k_itable s !!! i) = false ->
  (begin_op ;; iput_ptr (Some i) ;; end_op) s =
    Ret tt (with_k_ps (woken ChLog me (k_ps s)) (updi i (fun ip => set_i_ref (i_ref ip - 1) ip) s)).
Proof using Type.
  intros Hc L Hl Hn. kstep (begin_op_eq s Hc L). set (s1 := with_k_log _ s).
  kstep (iput_eq me s1 i Hc Hl Hn). set (s2 := updi i _ s1).
  assert (set_lg_outstanding (lg_outstanding (k_log s2) - 1) (k_log s2) = k_log s) as El.
  { cbn. destruct (k_log s). unfold set_lg_outstanding. cbn. f_equal. lia. }
  etransitivity; [apply (end_op_eq s2 Hc (lr_lock _ L)); [apply L|]|].
  - cbn. intros E. apply (lr_empty _ L). lia.
  - rewrite El. by destruct s.
Qed.

Lemma close_rest_eq s x free : calm me (k_ps s) -> closable x free s ->
  exists s', close_rest x s = Ret tt s' /\ given_up me x free s s'.
Proof using Type.
  intros Hc Hx. unfold close_rest. destruct (f_type x) eqn:Et.
  - exists s. unfold given_up. by rewrite Et.
  - by apply pipeclose_eq.
  - unfold closable in Hx. rewrite Et in Hx. destruct Hx as (L & Hl & i & Ei & _ & _ & Hn). eexists. split; [rewrite Ei; by apply close_inode_eq|].
    unfold given_up. rewrite Et. by exists i.
  - unfold closable in Hx. rewrite Et in Hx. destruct Hx as (L & Hl & i & Ei & _ & _ & Hn). eexists. split; [rewrite Ei; by apply close_inode_eq|].
    unfold given_up. rewrite Et. by exists i.
Qed.
End Last.

(** What a process has open does not depend on the rest of the state. *)
Definition open_fds (s : kstate) : list (list (option nat)) := p_ofile <$> ps_proc (k_ps s).

Lemma open_fds_at s s' p : open_fds s' = open_fds s -> p_ofile (ps_proc (k_ps s') !!! p) = p_ofile (ps_proc (k_ps s) !!! p).
Proof.
  unfold open_fds. intros E. apply (f_equal (fun l => l !! p)) in E. rewrite !list_lookup_fmap in E.
  rewrite !list_lookup_total_alt. destruct (ps_proc (k_ps s') !! p), (ps_proc (k_ps s) !! p); cbn in *; congruence.
Qed.

Lemma fd_file_ext s s' p k : open_fds s' = open_fds s -> fd_file p k s' = fd_file p k s.
Proof. intros E. unfold fd_file. by rewrite (open_fds_at s s' p E). Qed.

Lemma files_ok_ext me s s' :
  files_ok me s -> calm me (k_ps s') -> khw s' = khw s -> k_ftable s' = k_ftable s -> open_fds s' = open_fds s -> files_ok me s'.
Proof.
  intros [F1 F2 F3 F4 F5 F6 F7] Hc Eh Ef Eo. pose proof (fun p => open_fds_at s s' p Eo) as Ea.
  split; try done; rewrite ?Eh, ?Ef; try done.
  - intros p Hp. rewrite Ea. by apply F5.
  - intros p fd f Hp Hfd. rewrite Ea. by apply F6.
  - intros i Hi. rewrite F7 by done. unfold holders.
    assert (forall l, zsum (fun p => fdcount i (p_ofile p)) l = zsum (fdcount i) (p_ofile <$> l)) as Ez
      by (intros l; induction l as [|q l IH]; [done|]; cbn; f_equal; exact IH).
    rewrite !Ez. fold (open_fds s) (open_fds s'). by rewrite Eo.
Qed.

Lemma woken_fds c me s : p_ofile <$> ps_proc (woken c me (k_ps s)) = open_fds s.
Proof.
  unfold open_fds. apply list_eq. intros p. cbn. rewrite !list_lookup_fmap, list_lookup_imap.
  destruct (ps_proc (k_ps s) !! p) as [q|]; [|done]. cbn. unfold wake. by destruct (_ && _).
Qed.

(** Giving a file up leaves the descriptors and the table alone. *)
Lemma given_up_files me x free s s' : calm me (k_ps s) -> given_up me x free s s' ->
  calm me (k_ps s') /\ khw s' = khw s /\ k_ftable s' = k_ftable s /\ open_fds s' = open_fds s.
Proof.
  intros Hc. unfold given_up. destruct (f_type x).
  - by intros ->.
  - set (c := if negb _ then _ else _). destruct (both_closed _).
    + intros (m' & -> & Hh & _). pose proof (calm_woken me c (k_ps s) Hc) as [C1 C2 C3 C4 C5].
      split_and!; [|exact Hh|done|exact (woken_fds c me s)].
      assert (forall P : machine -> Prop, P (khw s) -> P (ms_hw m')) as Hm by (intros P; by rewrite Hh).
      split; [exact (Hm hart_ok C1)|exact (Hm (fun h => touch h = h) C2)|exact (Hm (fun h => c_proc (curcpu h) = Some me) C3)| |exact C5].
      intros p Hp. exact (Hm (lock_free (ProcLock p)) (C4 p Hp)).
    + intros ->. split_and!; [by apply calm_woken|done|done|exact (woken_fds c me s)].
  - intros (i & _ & ->). split_and!; [by apply calm_woken|done|done|exact (woken_fds ChLog me s)].
  - intros (i & _ & ->). split_and!; [by apply calm_woken|done|done|exact (woken_fds ChLog me s)].
Qed.

Lemma closable_put me fd f g x free s : closable x free s -> closable (set_f_ref 0 x) free (put_file f g (put_fd me fd None s)).
Proof.
  unfold closable. cbn [f_type f_pipe f_writable f_ip set_f_ref].
  destruct (f_type x); [done|done|intros ([L1 L2 L3 L4] & Hx); split; [by split|exact Hx]..].
Qed.

(** A descriptor is cleared, and its file has one reference less. *)
Lemma close_files me s fd f (g : file -> file) :
  files_ok me s -> (fd < NOFILE)%nat -> p_ofile (ps_proc (k_ps s) !!! me) !!! fd = Some f ->
  f_ref (g (k_ftable s !!! f)) = f_ref (k_ftable s !!! f) - 1 -> files_ok me (put_file f g (put_fd me fd None s)).
Proof.
  intros F Hfd Eo Hg. pose proof (fk_len _ _ F) as Hlen.
  assert (f < NFILE)%nat as Hf by (apply (fk_open _ _ F me fd); [apply F|done|done]).
  apply (files_set me s fd None); [done|done|done|cbn; by rewrite length_alter|].
  intros i Hi. rewrite Eo. unfold refers_to. rewrite (bool_decide_eq_false_2 (None = Some i)) by done. cbn [k_ftable put_fd with_k_ps].
  destruct (decide (f = i)) as [<-|Hne].
  - rewrite bool_decide_eq_true_2, list_lookup_total_alter_eq by (done || lia). lia.
  - rewrite bool_decide_eq_false_2, list_lookup_total_alter_ne by (done || congruence). lia.
Qed.

Section Calls.
Context `{WaitBound} `{DiskDriver}.

(** C29. [dup]: the new descriptor is the least one that is free and refers to the
    file of the argument; every other descriptor of every process is as it was,
    and reference counts are the numbers of descriptors again.  Without a file
    or without a free descriptor the call fails and changes nothing. *)
Theorem dup_correct me s (F : files_ok me s) :
  match fd_file me (arg0 me s) s with
  | None => sys_dup s = Ret (-1) s
  | Some f =>
      (sys_dup s = Ret (-1) s /\ forall k, 0 <= k < Z.of_nat NOFILE -> fd_file me k s <> None) \/
      exists fd s', sys_dup s = Ret fd s' /\ files_ok me s' /\
        fd_file me fd s = None /\ (forall k, 0 <= k < fd -> fd_file me k s <> None) /\
        (forall k, fd_file me k s' = if k =? fd then Some f else fd_file me k s) /\
        (forall p k, p <> me -> fd_file p k s' = fd_file p k s)
  end.
Proof using Type.
  pose proof (fk_calm _ _ F) as Hc. unfold sys_dup. kstep (argfd_eq me s Hc).
  destruct (fd_file me (arg0 me s) s) as [f|] eqn:Ef; cbn [fmap option_fmap option_map]; [|done].
  destruct (fd_file_some me s _ f F Ef) as (Hk & Eo & Hf & Hr).
  pose proof (fdalloc_eq me s f Hc) as E. destruct (free_fd me s) as [fd|] eqn:Efd.
  2: { left. split; [by kstep E|]. by apply free_fd_none. }
  right. destruct (free_fd_some me s fd Efd) as (Hfd & Hn & Hlt).
  set (s1 := put_fd me fd (Some f) s) in *.
  assert (calm me (k_ps s1)) as Hc1. { destruct Hc as [C1 C2 C3 C4 C5]. split; try done. cbn. by rewrite length_alter. }
  exists (Z.of_nat fd), (put_file f (fun x => set_f_ref (f_ref x + 1) x) s1). split.
  { kstep E. rewrite (proj2 (Z.ltb_ge (Z.of_nat fd) 0)) by lia.
    by kstep (filedup_eq me s1 f Hc1 (fk_lock _ _ F) Hr). }
  pose proof (fk_len _ _ F) as Hlen. split; [|split; [done|split; [done|split]]].
  - apply (files_set me s fd (Some f)); [done|done|by intros i [= <-]|by rewrite length_alter|].
    intros i Hi. cbn [k_ftable s1 put_fd with_k_ps]. unfold refers_to. rewrite (bool_decide_eq_false_2 (_ = Some i)).
    2: { revert Hn. unfold fd_file. rewrite (proj2 (Z.ltb_ge _ _)), (proj2 (Z.leb_gt _ _)) by lia. cbn. rewrite Nat2Z.id. congruence. }
    destruct (decide (f = i)) as [<-|Hne].
    + rewrite list_lookup_total_alter_eq, bool_decide_eq_true_2 by (done || lia). cbn. lia.
    + rewrite list_lookup_total_alter_ne, bool_decide_eq_false_2 by (done || congruence). lia.
  - intros k. exact (fd_file_put me s fd (Some f) k F Hfd).
  - intros p k Hp. unfold fd_file. cbn. by rewrite list_lookup_total_alter_ne.
Qed.

(** C30. [close]: the call returns 0; the descriptor refers to no file any more,
    every other descriptor of every process is as it was, and reference counts
    are the numbers of descriptors again.  While other descriptors refer to the
    file it stays open and nothing else changes.  The last close frees the entry
    of the table and gives up what is behind it: of a pipe the end is closed and
    the processes waiting at the other end are woken, and when both ends are
    closed the pipe is gone and its page is back on the allocator's free list; of
    an inode the in-memory reference count goes down by one, inside an operation
    of the log that changes no block, and those who wait for the log are woken.
    This is for a last close that need not wait and that is not the last
    reference to an inode without links, whose blocks the kernel would free.
    Without a file the call fails and changes nothing. *)
Theorem close_correct me s free (F : files_ok me s)
  (Hlast : forall f, fd_file me (arg0 me s) s = Some f -> f_ref (k_ftable s !!! f) = 1 -> closable (k_ftable s !!! f) free s) :
  match fd_file me (arg0 me s) s with
  | None => sys_close s = Ret (-1) s
  | Some f =>
      let x := k_ftable s !!! f in
      let t := put_fd me (Z.to_nat (arg0 me s)) None s in
      exists s', sys_close s = Ret 0 s' /\ files_ok me s' /\
        (forall k, fd_file me k s' = if k =? arg0 me s then None else fd_file me k s) /\
        (forall p k, p <> me -> fd_file p k s' = fd_file p k s) /\
        if 1 <? f_ref x then s' = put_file f (set_f_ref (f_ref x - 1)) t
        else given_up me x free (put_file f (fun x => set_f_type FD_NONE (set_f_ref 0 x)) t) s'
  end.
Proof using Type.
  pose proof (fk_calm _ _ F) as Hc. unfold sys_close. kstep (argfd_eq me s Hc).
  destruct (fd_file me (arg0 me s) s) as [f|] eqn:Ef; cbn [fmap option_fmap option_map]; [|done]. cbn zeta.
  destruct (fd_file_some me s _ f F Ef) as (Hk & Eo & Hf & Hr). set (fd := Z.to_nat (arg0 me s)) in *.
  set (s1 := put_fd me fd None s).
  assert (calm me (k_ps s1)) as Hc1. { destruct Hc as [C1 C2 C3 C4 C5]. split; try done. cbn. by rewrite length_alter. }
  pose proof (fileclose_eq me s1 f Hc1 (fk_lock _ _ F) ltac:(cbn; rewrite (fk_len _ _ F); lia) Hr) as Ecl. cbn zeta in Ecl.
  change (k_ftable s1) with (k_ftable s) in Ecl.
  pose proof (fun g => close_files me s fd f g F ltac:(lia) Eo) as Hfiles. fold s1 in Hfiles.
  assert (forall k, fd_file me k s1 = if k =? arg0 me s then None else fd_file me k s) as Hme.
  { intros k. rewrite <- (Z2Nat.id (arg0 me s)) by lia. fold fd. exact (fd_file_put me s fd None k F ltac:(lia)). }
  assert (forall p k, p <> me -> fd_file p k s1 = fd_file p k s) as Hother.
  { intros p k Hp. unfold fd_file. cbn. by rewrite list_lookup_total_alter_ne. }
  kstep (lift_read curproc s me (calm_curproc me (k_ps s) Hc)). kstep (eq_refl : set_fd me fd None s = Ret tt s1).
  destruct (Z.ltb_spec 1 (f_ref (k_ftable s !!! f))) as [H1|H1].
  - eexists. split; [by kstep Ecl|]. split; [by apply Hfiles|done].
  - set (t := put_file f (fun x => set_f_type FD_NONE (set_f_ref 0 x)) s1) in *.
    assert (files_ok me t) as Ft by (apply Hfiles; cbn; lia).
    assert (closable (set_f_ref 0 (k_ftable s !!! f)) free t) as Hx by (apply closable_put, Hlast; [done|lia]).
    destruct (close_rest_eq me t _ free Hc1 Hx) as (s' & Es & Hg).
    destruct (given_up_files me _ free t s' Hc1 Hg) as (G1 & G2 & G3 & G4). exists s'.
    split; [rewrite Es in Ecl; by kstep Ecl|]. split; [by apply (files_ok_ext me t)|].
    split; [intros k; rewrite (fd_file_ext t s') by done; apply Hme|].
    split; [intros p k Hp; rewrite (fd_file_ext t s') by done; by apply Hother|]. exact Hg.
Qed.
End Calls.

(** * Examples *)

(** No file is open; then descriptor 0 of process 1 refers to file 0. *)
Definition no_file : file := File FD_NONE 0 0 0 0 None 0 0.
Definition demo_closed : kstate := with_k_ftable (replicate NFILE no_file) (demo_k 0).
Definition demo_with (x : file) : kstate :=
  with_k_ftable (<[0%nat := x]> (replicate NFILE no_file)) (put_fd 1 0 (Some 0%nat) demo_closed).
Definition demo_open : kstate := demo_with (File FD_DEVICE 1 1 1 0 (Some 0%nat) 0 1).

Lemma demo_no_fds : Forall (fun p => p_ofile p = replicate NOFILE None) (ps_proc (k_ps demo_closed)).
Proof. apply (bool_decide_unpack _). vm_compute. exact Logic.I. Qed.

Lemma demo_fds p : (p < NPROC)%nat -> p_ofile (ps_proc (k_ps demo_closed) !!! p) = replicate NOFILE None.
Proof. intros Hp. apply (proj1 (Forall_lookup_total _ _) demo_no_fds). change (p < length (ps_proc (demo_running 0)))%nat. by rewrite (cm_len _ _ demo_calm). Qed.

Lemma demo_closed_ok : files_ok 1 demo_closed.
Proof.
  split.
  - exact demo_calm.
  - vm_compute. lia.
  - by eapply demo_lock_free.
  - done.
  - intros p Hp. by rewrite demo_fds.
  - intros p fd f Hp Hfd. rewrite demo_fds by done. by rewrite lookup_total_replicate_2.
  - intros i Hi. change (k_ftable demo_closed) with (replicate NFILE no_file). rewrite lookup_total_replicate_2 by done.
    unfold holders. change (f_ref no_file) with 0. pose proof demo_no_fds as H. induction H as [|p l Hp _ IH]; [done|].
    cbn. fold (zsum (fun p => fdcount i (p_ofile p)) l). by rewrite <- IH, Hp.
Qed.

Lemma demo_with_ok x : f_ref x = 1 -> files_ok 1 (demo_with x).
Proof.
  intros Hx. apply (files_set 1 demo_closed 0 (Some 0%nat)); [exact demo_closed_ok|vm_compute; lia|intros i [= <-]; vm_compute; lia|done|].
  intros i Hi. rewrite demo_fds by (vm_compute; lia). change (k_ftable demo_closed) with (replicate NFILE no_file).
  rewrite (lookup_total_replicate_2 NOFILE _ 0) by (vm_compute; lia). rewrite (lookup_total_replicate_2 NFILE _ i Hi).
  unfold refers_to. destruct (decide (i = 0%nat)) as [->|Hne].
  { rewrite list_lookup_total_insert_eq, Hx by (rewrite length_replicate; done). done. }
  rewrite list_lookup_total_insert_ne, lookup_total_replicate_2 by done. rewrite !bool_decide_eq_false_2 by congruence. done.
Qed.

Lemma demo_open_ok : files_ok 1 demo_open.
Proof. by apply demo_with_ok. Qed.

Lemma demo_fd_file : fd_file 1 (arg0 1 demo_open) demo_open = Some 0%nat /\ fd_file 1 1 demo_open = None.
Proof. split; vm_compute; reflexivity. Qed.

Lemma dup_correct_witness :
  exists fd s', sys_dup demo_open = Ret fd s' /\ files_ok 1 s' /\ fd_file 1 fd s' = Some 0%nat.
Proof.
  pose proof (dup_correct 1 demo_open demo_open_ok) as H. destruct demo_fd_file as [E E1]. rewrite E in H.
  destruct H as [[_ H]|(fd & s' & H1 & H2 & _ & _ & H3 & _)].
  - exfalso. apply (H 1); [vm_compute; split; congruence|exact E1].
  - exists fd, s'. split; [exact H1|]. split; [exact H2|]. by rewrite H3, Z.eqb_refl.
Defined.

(** The console, open once, with two references to its inode; and the read end of
    a pipe whose write end is closed already. *)
Definition demo_dev : kstate := with_k_itable (replicate NINODE (Inode 1 5 2 1 3 1 0 1 0 [])) demo_open.
Definition with_pipe_lock (pi : Z) (s : kstate) : kstate :=
  with_k_ps (with_machine (with_locks (<[PipeLock pi := Spinlock 0 "pipe" None]> (m_locks (khw s))) (khw s)) (k_ps s)) s.
Definition demo_pipe : kstate :=
  with_k_pipes {[0x80027000 := Pipe [] 0 0 1 0]} (with_pipe_lock 0x80027000 (demo_with (File FD_PIPE 1 1 0 0x80027000 None 0 0))).

Lemma files_ok_pipe_lock me s pi : files_ok me s -> files_ok me (with_pipe_lock pi s).
Proof.
  intros [[C1 C2 C3 C4 C5] F2 F3 F4 F5 F6 F7].
  assert (forall lk, lk <> PipeLock pi -> lock_free lk (khw s) -> lock_free lk (khw (with_pipe_lock pi s))) as Hl.
  { intros lk Hlk [name Hn]. exists name. cbn. by rewrite lookup_insert_ne. }
  split; try done; [split; try done|].
  - unfold khw in *. cbn. change (touch (with_locks ?l ?h)) with (with_locks l (touch h)). f_equal. exact C2.
  - intros i Hi. apply Hl; [done|]. by apply C4.
  - by apply Hl.
Qed.

Lemma demo_dev_ok : files_ok 1 demo_dev /\ arg0 1 demo_dev = 0 /\ fd_file 1 0 demo_dev = Some 0%nat.
Proof.
  pose proof (demo_with_ok (File FD_DEVICE 1 1 1 0 (Some 0%nat) 0 1) eq_refl) as F.
  split; [by apply (files_ok_ext 1 demo_open); [|apply F|..]|]. split; vm_compute; reflexivity.
Qed.
Lemma demo_pipe_ok : files_ok 1 demo_pipe /\ arg0 1 demo_pipe = 0 /\ fd_file 1 0 demo_pipe = Some 0%nat.
Proof.
  pose proof (files_ok_pipe_lock 1 _ 0x80027000 (demo_with_ok (File FD_PIPE 1 1 0 0x80027000 None 0 0) eq_refl)) as F.
  split; [destruct F; by split|]. split; vm_compute; reflexivity.
Qed.

Lemma demo_dev_closable : closable (k_ftable demo_dev !!! 0%nat) [] demo_dev.
Proof.
  split; [split; [by eapply demo_lock_free|done|vm_compute; discriminate|done]|].
  split; [by eapply demo_lock_free|]. exists 0%nat. split; [done|]. split; [vm_compute; lia|]. split; [vm_compute; discriminate|done].
Qed.
Lemma demo_pipe_closable : closable (k_ftable demo_pipe !!! 0%nat) [0x80025000; 0x80026000] demo_pipe.
Proof.
  destruct demo_pipe_ok as (F & _ & _). split; [exists "pipe"; apply lookup_insert_eq|]. intros _. split; [split; [apply (cm_hart _ _ (fk_calm _ _ F))|]|].
  - destruct (demo_lock_free KmemLock _ eq_refl) as [name Hn]. exists name. etransitivity; [by apply lookup_insert_ne|exact Hn].
  - split; [|split; [by vm_compute|set_solver]]. 
    by apply (kmem_ok_ext demo_mem _ _ demo_kmem_ok); [| |exact (ko_bytes _ _ demo_kmem_ok)|].
Qed.

Lemma close_correct_witness :
  (exists s', @sys_close 0%nat ram_disk demo_dev = Ret 0 s' /\ fd_file 1 0 s' = None /\ i_ref (k_itable s' !!! 0%nat) = 1) /\
  (exists s', @sys_close 0%nat ram_disk demo_pipe = Ret 0 s' /\ fd_file 1 0 s' = None /\ k_pipes s' = ∅ /\
     kmem_ok (ps_mem (k_ps s')) [0x80027000; 0x80025000; 0x80026000]).
Proof.
  split.
  - destruct demo_dev_ok as (F & Ea & Ef). pose proof (@close_correct 0%nat ram_disk 1 demo_dev [] F) as H. rewrite Ea, Ef in H.
    destruct H as (s' & E & _ & Hk & _ & Hg); [intros f [= <-] _; exact demo_dev_closable|].
    exists s'. split; [exact E|]. split; [by rewrite Hk|]. destruct Hg as (i & [= <-] & ->). reflexivity.
  - destruct demo_pipe_ok as (F & Ea & Ef). pose proof (@close_correct 0%nat ram_disk 1 demo_pipe [0x80025000; 0x80026000] F) as H.
    rewrite Ea, Ef in H. destruct H as (s' & E & _ & Hk & _ & Hg); [intros f [= <-] _; exact demo_pipe_closable|].
    exists s'. split; [exact E|]. split; [by rewrite Hk|]. destruct Hg as (m' & -> & _ & _ & Hko & _).
    split; [reflexivity|exact Hko].
Defined.
