(* ===== verification/Fork.v ===== *)
(** [kfork] of kernel/proc.c: a child with the memory, the registers, the open
    files and the directory of its parent, or nothing at all.

    The theorem composes [allocproc], [uvmcopy] and [freeproc] (Procmem) with the
    tables of open files (Fd) and of inodes. *)
From S2P Require Import Prelude Riscv Spinlock Memory Bytes Kstring Kalloc Vm PageTable Proc Switch Sleeplock Kill UserMem UserCopy UserSpace Freewalk Procmem Kstate Bio Cache Log Fs Itable Pipe Console File Life Sysfile Fd.

(** * Inside the critical section of the child *)

Lemma khart_acq lk s : hart_ok (khw s) -> lock_free lk (khw s) -> kacq lk s = Ret tt (kinside lk s).
Proof. intros H1 H2. exact (lift_Ret _ s _ _ (hart_acq lk _ H1 H2)). Qed.

Lemma khart_rel lk s : hart_ok (khw s) -> touch (khw s) = khw s -> lock_free lk (khw s) -> krel lk (kinside lk s) = Ret tt s.
Proof.
  intros H1 H2 H3. transitivity (Ret tt (with_k_ps (k_ps s) (kinside lk s))); [|by destruct s].
  exact (lift_Ret _ (kinside lk s) _ _ (hart_rel lk _ H1 H2 H3)).
Qed.

Lemma lift_ps {A} (c : M pstate A) s a p : c (k_ps s) = Ret a p -> lift c s = Ret a (with_k_ps p s).
Proof. intros E. exact (lift_Ret c s a p E). Qed.

Lemma lift_kmem {A} (c : M mem A) s a m : c (ps_mem (k_ps s)) = Ret a m -> lift c s = Ret a (with_k_ps (with_mem m (k_ps s)) s).
Proof. intros E. exact (lift_Ret c s a m E). Qed.

(** * Open files *)

Definition one_file (x : file) : file := set_f_ref (f_ref x + 1) x.
Definition dup_file (tab : list file) (o : option nat) : list file :=
  match o with Some f => alter one_file f tab | None => tab end.
Definition dup_files (l : list (option nat)) (tab : list file) : list file := foldl dup_file tab l.

Lemma dup_files_length l tab : length (dup_files l tab) = length tab.
Proof. revert tab. induction l as [|[f|] l IH]; intros tab; cbn; [done|fold (dup_files l (alter one_file f tab)); by rewrite IH, length_alter|apply IH]. Qed.

Lemma dup_files_ref l tab i : (i < length tab)%nat -> f_ref (dup_files l tab !!! i) = f_ref (tab !!! i) + fdcount i l.
Proof.
  revert tab. induction l as [|o l IH]; intros tab Hi; cbn [dup_files foldl].
  { unfold fdcount. cbn. lia. }
  fold (dup_files l (dup_file tab o)). change (fdcount i (o :: l)) with (refers_to i o + fdcount i l). unfold refers_to.
  rewrite IH by (destruct o; cbn; rewrite ?length_alter; done). destruct o as [f|]; cbn [dup_file].
  - destruct (decide (f = i)) as [->|Hne].
    + rewrite list_lookup_total_alter_eq, bool_decide_eq_true_2 by done. cbn. lia.
    + rewrite list_lookup_total_alter_ne, bool_decide_eq_false_2 by (done || congruence). lia.
  - rewrite bool_decide_eq_false_2 by done. lia.
Qed.

Section Fds.
Context (np : nat) (q : proc).

Lemma filedup_hart s f : hart_ok (khw s) -> touch (khw s) = khw s -> lock_free FtableLock (khw s) -> 1 <= f_ref (k_ftable s !!! f) ->
  filedup f s = Ret f (with_k_ftable (alter one_file f (k_ftable s)) s).
Proof using Type.
  intros Hh Ht Hl Hr. unfold filedup. kstep (khart_acq FtableLock s Hh Hl). kstep eq_refl.
  change (k_ftable (kinside FtableLock s)) with (k_ftable s). rewrite (proj2 (Z.ltb_ge _ _)) by lia. kstep eq_refl.
  change (fun f : file => set_f_ref (f_ref f + 1) f) with one_file.
  change (with_k_ftable ?t (kinside FtableLock s)) with (kinside FtableLock (with_k_ftable t s)).
  by kstep (khart_rel FtableLock (with_k_ftable (alter one_file f (k_ftable s)) s) Hh Ht Hl).
Qed.

Lemma fork_fds n k s :
  hart_ok (khw s) -> touch (khw s) = khw s -> lock_free FtableLock (khw s) ->
  (np < length (ps_proc (k_ps s)))%nat -> length (p_ofile q) = (k + n)%nat ->
  p_ofile (ps_proc (k_ps s) !!! np) = take k (p_ofile q) ++ replicate n None ->
  (forall f, Some f ∈ p_ofile q -> 1 <= f_ref (k_ftable s !!! f) /\ (f < length (k_ftable s))%nat) ->
  iterl (seq k n) (fork_fd np q) s =
    Ret tt (with_k_ftable (dup_files (drop k (p_ofile q)) (k_ftable s)) (with_k_ps (upd np (set_ofile (p_ofile q)) (k_ps s)) s)).
Proof using Type.
  revert k s. induction n as [|n IH]; intros k s Hh Ht Hl Hnp Hlen Ho Hr.
  - cbn [seq iterl]. rewrite drop_ge by lia. rewrite take_ge, app_nil_r in Ho by lia.
    rewrite (upd_ext np _ (fun p => p)), upd_id; [by destruct s|]. rewrite <- Ho. by destruct (_ !!! np).
  - cbn [seq iterl]. destruct (lookup_lt_is_Some_2 (p_ofile q) k ltac:(lia)) as [o Eo].
    pose proof (list_lookup_total_correct _ _ _ Eo) as Et. pose proof (take_S_r _ _ _ Eo) as Etk.
    rewrite (drop_S _ _ _ Eo). cbn [dup_files foldl]. fold (dup_files (drop (S k) (p_ofile q)) (dup_file (k_ftable s) o)).
    destruct o as [f|].
    + destruct (Hr f) as [Hf1 Hf2]; [by eapply list_elem_of_lookup_2|].
      set (s1 := with_k_ftable (alter one_file f (k_ftable s)) s). set (g := fun c => set_ofile (<[k := Some f]> (p_ofile c)) c).
      assert (fork_fd np q k s = Ret tt (with_k_ps (upd np g (k_ps s)) s1)) as E.
      { unfold fork_fd. rewrite Et. kstep (filedup_hart s f Hh Ht Hl Hf1). exact (lift_ps (modp np g) s1 tt (upd np g (k_ps s)) eq_refl). }
      kstep E.
      rewrite IH; [|done|done|done|by cbn; rewrite length_alter|lia| |].
      * cbn [k_ps with_k_ps k_ftable with_k_ftable]. rewrite upd_upd. done.
      * cbn [k_ps with_k_ps]. rewrite upd_at by done. cbn [g p_ofile set_ofile]. rewrite Ho, Etk.
        assert (length (take k (p_ofile q)) = k) as Hlk by (rewrite length_take; lia).
        rewrite insert_app_r_alt by lia. rewrite Hlk, Nat.sub_diag. cbn. by rewrite <- app_assoc.
      * intros h Hin. cbn [k_ftable with_k_ps s1 with_k_ftable]. rewrite length_alter. destruct (Hr h Hin) as [H1 H2]. split; [|done].
        destruct (decide (f = h)) as [->|Hne]; [rewrite list_lookup_total_alter_eq by done; cbn; lia|by rewrite list_lookup_total_alter_ne].
    + assert (fork_fd np q k s = Ret tt s) as E by (unfold fork_fd; by rewrite Et). kstep E. rewrite IH; [done..|lia| |done]. by rewrite Ho, Etk, <- app_assoc.
Qed.
End Fds.

Lemma idup_hart s c : hart_ok (khw s) -> touch (khw s) = khw s -> lock_free ItableLock (khw s) ->
  idup (Some c) s = Ret (Some c) (updi c one_more s).
Proof.
  intros Hh Ht Hl. unfold idup. kstep (khart_acq ItableLock s Hh Hl). kstep eq_refl.
  change (with_k_itable ?t (kinside ItableLock s)) with (kinside ItableLock (with_k_itable t s)).
  by kstep (khart_rel ItableLock (updi c one_more s) Hh Ht Hl).
Qed.

(** * The child *)

(** The record of the child of [q], which takes the slot [c]. *)
Definition newborn (me : nat) (q : proc) (pid tf root t : Z) (ld : layout) (c : proc) : proc :=
  Proc RUNNABLE (p_chan c) (p_killed c) (p_xstate c) pid (Some me) (p_kstack c) (p_sz q) root tf
    (Context (ld_forkret ld) (p_kstack c + PGSIZE) (ctx_s zero_context)) (p_ofile q) (p_cwd q)
    (arr_safestrcpy (p_name c) (p_name q) 16) t 0 0 0 0 0 (p_expected_runtime q) 0 0 (quantum 0) 0.

(** The system with the child in slot [i] and the memory [m], and the system
    that could not make it. *)
Definition next_pid (p : pstate) : pstate := with_nextpid (s32 (ps_nextpid p + 1)) p.
Definition forked (me i : nat) (m : mem) (root tf : Z) (s : kstate) : kstate :=
  let q := ps_proc (k_ps s) !!! me in
  with_k_itable (match p_cwd q with Some c => alter one_more c (k_itable s) | None => k_itable s end)
    (with_k_ftable (dup_files (p_ofile q) (k_ftable s))
      (with_k_ps (with_mem m (upd i (newborn me q (ps_nextpid (k_ps s)) tf root (clock (khw s)) (m_ld (khw s))) (next_pid (k_ps s)))) s)).
Definition gave_up (i : nat) (g : proc -> proc) (m : mem) (s : kstate) : kstate :=
  with_k_ps (with_mem m (upd i (fun c => freed (g c)) (next_pid (k_ps s)))) s.

Record forkable (me : nat) (own : gmap Z node) (free : list Z) (s : kstate) : Prop := {
  fo_files : files_ok me s;
  fo_locks : forall lk, lk ∈ [KmemLock; PidLock; WaitLock; ItableLock] -> lock_free lk (khw s);
  fo_tramp : tramp_ok (m_ld (khw s));
  fo_space : let q := ps_proc (k_ps s) !!! me in
    pspace (ps_mem (k_ps s)) (p_pagetable q) own free (p_sz q) (p_trapframe q);
  fo_run : p_state (ps_proc (k_ps s) !!! me) <> UNUSED;
  fo_cwd : is_Some (p_cwd (ps_proc (k_ps s) !!! me));
  fo_unused : forall i, (i < NPROC)%nat -> p_state (ps_proc (k_ps s) !!! i) = UNUSED ->
    let c := ps_proc (k_ps s) !!! i in p_pagetable c = 0 /\ p_sz c = 0 /\ p_ofile c = replicate NOFILE None }.

Section Kfork.
Context (me i : nat) (own : gmap Z node) (free : list Z) (s : kstate) (F : forkable me own free s).
Context (Hslot : find_slot (is_state UNUSED) (seq 0 NPROC) (k_ps s) = Some i).
Abbreviation P := (k_ps s).
Abbreviation q := (ps_proc P !!! me).
Abbreviation h1 := (tick (hw P)).
Abbreviation lk := (ProcLock i).
Abbreviation bornf tf root := (born (ps_nextpid P) tf root (clock (hw P)) (m_ld (hw P))).

Lemma slot_facts : (i < NPROC)%nat /\ p_state (ps_proc P !!! i) = UNUSED /\ me <> i /\ length (ps_proc P) = NPROC.
Proof using F Hslot.
  destruct (find_slot_first _ _ _ _ Hslot) as (H1 & H2 & _). apply bool_decide_eq_true_1 in H2.
  split; [done|]. split; [done|]. split; [intros <-; by apply (fo_run _ _ _ _ F)|]. apply (cm_len _ _ (fk_calm _ _ (fo_files _ _ _ _ F))).
Qed.

(** The machine after the read of the clock, in and out of the child's lock. *)
Lemma ticked lk' : lock_free lk' (hw P) -> lock_free lk' h1.
Proof using Type. done. Qed.

Lemma tick_ok : hart_ok h1 /\ touch h1 = h1 /\ hart_ok (acquired lk h1) /\ touch (acquired lk h1) = acquired lk h1 /\
  lock_free lk h1 /\ forall lk', lk <> lk' -> lock_free lk' (hw P) -> lock_free lk' (acquired lk h1).
Proof using F Hslot.
  destruct (fk_calm _ _ (fo_files _ _ _ _ F)) as [C1 C2 C3 C4 C5]. destruct slot_facts as (Hi & _).
  assert (touch h1 = h1) as Ht by exact (f_equal tick C2).
  split; [done|]. split; [done|]. split; [by apply acquired_hart_ok|]. split; [by apply touch_acquired|]. split; [by apply C4|].
  intros lk' Hne [nm E]. exists nm. etransitivity; [|exact E]. by apply (acquired_other lk lk' h1).
Qed.

Lemma step_modp l m f g s0 :
  lift (modp i g) (kinside l (with_k_ps (with_mem m (upd i f (next_pid P))) s0)) =
  Ret tt (kinside l (with_k_ps (with_mem m (upd i (fun c => g (f c)) (next_pid P))) s0)).
Proof using Type.
  etransitivity; [exact (lift_ps (modp i g) _ tt _ (modp_eq _ _ _))|]. f_equal.
  change (upd i g (k_ps (kinside l (with_k_ps (with_mem m (upd i f (next_pid P))) s0)))) with
    (inside l (with_mem m (upd i g (upd i f (next_pid P))))). by rewrite upd_upd.
Qed.

Lemma step_ram l r m p s0 :
  lift (ram_set r) (kinside l (with_k_ps (with_mem m p) s0)) =
  Ret tt (kinside l (with_k_ps (with_mem (with_ram (r (ms_ram m)) m) p) s0)).
Proof using Type. done. Qed.

Lemma step_tf l f v m p s0 :
  lift (set_tf i f v) (kinside l (with_k_ps (with_mem m p) s0)) =
  Ret tt (kinside l (with_k_ps (with_mem (with_ram (wr64 (ms_ram m) (p_trapframe (ps_proc p !!! i) + tf_off f) v) m) p) s0)).
Proof using Type. done. Qed.

Lemma step_getp l p s0 : lift (getp i) (kinside l (with_k_ps p s0)) = Ret (ps_proc p !!! i) (kinside l (with_k_ps p s0)).
Proof using Type. done. Qed.

Lemma fork_finish_eq r fl kp tf root :
  let m := Mem h1 r fl kp in
  fork_finish me i q (bornf tf root (ps_proc P !!! i))
    (kinside lk (with_k_ps (with_mem m (upd i (bornf tf root) (next_pid P))) s)) =
  Ret (ps_nextpid P) (forked me i (with_ram (child_frame tf (p_trapframe q) r) m) root tf s).
Proof using All.
  cbn zeta. destruct slot_facts as (Hi & Hst & Hne & Hlen). destruct tick_ok as (T1 & T2 & T3 & T4 & T5 & T6).
  destruct (fo_unused _ _ _ _ F i Hi Hst) as (_ & _ & Ho). destruct (fo_cwd _ _ _ _ F) as [cw Ecw].
  pose proof (fo_locks _ _ _ _ F) as Hlocks. pose proof (fo_files _ _ _ _ F) as Ff.
  assert (forall f, ps_proc (upd i f (next_pid P)) !!! i = f (ps_proc P !!! i)) as Hat
    by (intros f; refine (upd_at i f (next_pid P) _); cbn; lia).
  unfold fork_finish. kstep step_modp. cbn [p_trapframe born]. kstep step_ram. kstep step_tf. rewrite Hat. cbn [p_trapframe set_sz born].
  change (with_ram ?a (with_ram ?b ?c)) with (with_ram a c). cbn [ms_ram with_ram].
  fold (child_frame tf (p_trapframe q) r). set (m' := with_ram (child_frame tf (p_trapframe q) r) (Mem h1 r fl kp)).
  set (f1 := fun c => set_sz (p_sz q) (bornf tf root c)). set (tab := dup_files (p_ofile q) (k_ftable s)).
  assert (iterl (seq 0 NOFILE) (fork_fd i q) (kinside lk (with_k_ps (with_mem m' (upd i f1 (next_pid P))) s)) =
    Ret tt (kinside lk (with_k_ps (with_mem m' (upd i (fun c => set_ofile (p_ofile q) (f1 c)) (next_pid P))) (with_k_ftable tab s)))) as E.
  { rewrite fork_fds; [|done|done|by apply T6; [|apply Ff]|cbn; rewrite length_alter; lia|by rewrite (fk_fds _ _ Ff) by apply Ff| |].
    - f_equal. change (upd i (set_ofile (p_ofile q)) (k_ps (kinside lk (with_k_ps (with_mem m' (upd i f1 (next_pid P))) s)))) with
        (inside lk (with_mem m' (upd i (set_ofile (p_ofile q)) (upd i f1 (next_pid P))))). by rewrite upd_upd.
    - change (ps_proc (k_ps (kinside lk (with_k_ps (with_mem m' (upd i f1 (next_pid P))) s)))) with (ps_proc (upd i f1 (next_pid P))).
      rewrite Hat. exact Ho.
    - intros f [k Hk]%list_elem_of_lookup_1. pose proof (lookup_lt_Some _ _ _ Hk) as Hlt.
      rewrite (fk_fds _ _ Ff me (fk_me _ _ Ff)) in Hlt.
      assert (fd_file me (Z.of_nat k) s = Some f) as Hfd.
      { rewrite fd_file_at, Nat2Z.id by lia. by apply list_lookup_total_correct. }
      destruct (fd_file_some me s _ f Ff Hfd) as (_ & _ & H1 & H2). split; [exact H2|]. rewrite <- (fk_len _ _ Ff) in H1. exact H1. }
  assert (lock_free WaitLock h1) as Hw by exact (Hlocks WaitLock ltac:(set_solver)).
  kstep E. rewrite Ecw. kstep idup_hart by (exact T3 || exact T4 || exact (T6 ItableLock ltac:(done) (Hlocks ItableLock ltac:(set_solver)))).
  set (s0 := with_k_itable (alter one_more cw (k_itable s)) (with_k_ftable tab s)).
  change (updi cw one_more (kinside lk (with_k_ps ?p (with_k_ftable tab s)))) with (kinside lk (with_k_ps p s0)).
  do 3 kstep step_modp. kstep step_getp. change (ps_proc (with_mem m' ?p)) with (ps_proc p). rewrite Hat. cbn [p_pid set_expected_runtime set_name set_cwd set_ofile f1 set_sz born].
  kstep khart_rel by (exact T1 || exact T2 || exact T5). kstep khart_acq by (exact T1 || exact Hw).
  kstep step_modp. kstep khart_rel by (exact T1 || exact T2 || exact Hw). kstep khart_acq by (exact T1 || exact T5).
  kstep step_modp. kstep khart_rel by (exact T1 || exact T2 || exact T5).
  unfold forked, newborn. by rewrite Ecw.
Qed.

(** * Memory *)

(** The memory changed in pages that were free, and [free'] are some of these. *)
Record later (m' : mem) (free' : list Z) : Prop := {
  la_hw : ms_hw m' = hw P \/ ms_hw m' = h1;
  la_kept : kept (fun p => p ∈ free) (ps_mem P) m';
  la_kmem : kmem_ok m' free';
  la_free : forall p, p ∈ free' -> p ∈ free }.

Lemma later_ready m' free' : later m' free' -> kmem_ready m' /\ m_ld (ms_hw m') = m_ld (hw P).
Proof using All.
  intros L. assert (lock_free KmemLock (hw P)) as Hl by (apply (fo_locks _ _ _ _ F); set_solver).
  pose proof (cm_hart _ _ (fk_calm _ _ (fo_files _ _ _ _ F))) as Hh.
  destruct (la_hw _ _ L) as [E|E]; unfold kmem_ready; rewrite E; by split.
Qed.

Lemma free_aligned p : p ∈ free -> p mod PGSIZE = 0 /\ own !! p = None.
Proof using All. intros Hp. destruct (free_spare _ _ _ _ _ (sp_as _ _ _ _ _ _ (fo_space _ _ _ _ F)) Hp) as (H1 & H2 & _). done. Qed.

(** The parent has its memory. *)
Lemma parent_space m' free' : later m' free' ->
  pspace m' (p_pagetable q) own free' (p_sz q) (p_trapframe q) /\
  (forall va, pt_get (ms_ram m') (p_pagetable q) va = pt_get (ms_ram (ps_mem P)) (p_pagetable q) va) /\
  (forall va, 0 <= va < MAXVA -> ubyte (ms_ram m') (p_pagetable q) va = ubyte (ms_ram (ps_mem P)) (p_pagetable q) va) /\
  forall f, rd64 (ms_ram m') (p_trapframe q + tf_off f) = rd64 (ms_ram (ps_mem P)) (p_trapframe q + tf_off f).
Proof using All.
  intros L. pose proof (fo_space _ _ _ _ F) as Sp. pose proof (sp_as _ _ _ _ _ _ Sp) as A. pose proof (la_kept _ _ L) as K.
  destruct (later_ready _ _ L) as [Hr Hld]. destruct trap_pages as (T1 & _).
  assert (forall p va, p ∈ free -> 0 <= va < MAXVA -> present (ms_ram (ps_mem P)) (p_pagetable q) va = true ->
    frame (ms_ram (ps_mem P)) (p_pagetable q) va <> p) as Hfr.
  { intros p va Hp Hva. by apply (free_spare _ _ _ _ _ A Hp). }
  split; [|split; [|split]].
  - apply (kept_pspace Sp K free_aligned); [done|apply L|done|]. intros p Hp. apply (free_spare _ _ _ free _ A). by apply (la_free _ _ L).
  - apply (kept_get A K free_aligned).
  - intros va Hva. apply (kept_ubyte A K free_aligned). intros p Hp. by apply Hfr.
  - intros f. destruct (sp_tf _ _ _ _ _ _ Sp) as [Hp Ef]. pose proof (tf_off_bound f). assert (TF_size <= PGSIZE) by done.
    apply rd64_ext. intros x Hx. rewrite <- Ef in Hx. apply (kept_frame (root := p_pagetable q) K free_aligned TRAPFRAME); [|lia]. intros p Hf. by apply Hfr.
Qed.

(** A new process has taken its pages; the parent's memory is copied to it. *)
Section Copy.
Context (root tf : Z) (ownC : gmap Z node) (m1 : mem) (free1 : list Z).
Context (Hh1 : ms_hw m1 = h1) (K1 : kept (fun p => p ∈ free) (ps_mem P) m1) (PC : pspace m1 root ownC free1 0 tf).
Context (Hp1 : forall p, p = tf \/ is_Some (ownC !! p) \/ p ∈ free1 <-> p ∈ free).
Abbreviation mi := (with_hw (acquired lk h1) m1).

Lemma later_copy m2 free2 :
  ms_hw m2 = acquired lk h1 -> kept (fun p => is_Some (ownC !! p) \/ p ∈ free1) mi m2 -> kmem_ok m2 free2 ->
  (forall p, p ∈ free2 -> p ∈ free) -> later (with_hw h1 m2) free2.
Proof using All.
  intros H2 K2 Hk Hf. split; [by right| |apply kmem_ok_hw; [by rewrite H2|done]|done].
  apply (kept_trans _ _ m1); [done|]. refine (kept_sub _ _ mi m2 _ K2). intros p Hp. apply Hp1. tauto.
Qed.

Lemma copy_spaces :
  pspace mi (p_pagetable q) own free1 (p_sz q) (p_trapframe q) /\ pspace mi root ownC free1 0 tf /\
  forall p, is_Some (ownC !! p) -> spare mi (p_pagetable q) own p.
Proof using All.
  destruct tick_ok as (T1 & T2 & T3 & T4 & T5 & T6). pose proof (fo_space _ _ _ _ F) as Sp. pose proof (sp_as _ _ _ _ _ _ Sp) as A.
  assert (lock_free KmemLock (hw P)) as Hl by (apply (fo_locks _ _ _ _ F); set_solver).
  assert (lock_free KmemLock (acquired lk h1)) as Hl1 by (by apply T6).
  assert (forall p, p ∈ free1 -> p ∈ free) as Hf by (intros p Hp; apply Hp1; tauto).
  split; [|split].
  - apply (kept_pspace (m' := mi) Sp K1 free_aligned); [done| |done|].
    + apply kmem_ok_hw; [by rewrite Hh1|]. apply PC.
    + intros p Hp. apply (free_spare _ _ _ free _ A). auto.
  - apply pspace_hw; [by rewrite Hh1|done|done|done].
  - intros p Hp. assert (p ∈ free) as Hpf by (apply Hp1; tauto). destruct (free_spare _ _ _ _ _ A Hpf) as (S1 & S2 & S3).
    split; [done|]. split; [done|]. intros va Hva. unfold present, frame.
    change (ms_ram mi) with (ms_ram m1). rewrite (kept_get A K1 free_aligned). by apply S3.
Qed.

(** The state of the child in its final memory. *)
Lemma fork_child m2 own' free2 :
  ms_hw m2 = acquired lk h1 -> kept (fun p => is_Some (ownC !! p) \/ p ∈ free1) mi m2 -> pspace m2 root own' free2 (p_sz q) tf ->
  (forall p, proc_pages m2 root own' (p_sz q) tf p \/ p ∈ free2 <-> p = tf \/ is_Some (ownC !! p) \/ p ∈ free1) ->
  (forall x, 0 <= x < PGROUNDUP (p_sz q) -> copied mi (p_pagetable q) free1 m2 root x) ->
  let m' := with_ram (child_frame tf (p_trapframe q) (ms_ram m2)) (with_hw h1 m2) in
  later m' free2 /\ pspace m' root own' free2 (p_sz q) tf /\
  (forall p, p ∈ free <-> p ∈ free2 \/ proc_pages m' root own' (p_sz q) tf p) /\
  (forall x, 0 <= x < PGROUNDUP (p_sz q) -> copied (ps_mem P) (p_pagetable q) free m' root x) /\
  (forall f, rd64 (ms_ram m') (tf + tf_off f) = child_reg (ms_ram (ps_mem P)) (p_trapframe q) f).
Proof using All.
  intros H2 K2 P2 Hp2 Hc m'. destruct tick_ok as (T1 & T2 & T3 & T4 & T5 & T6).
  assert (lock_free KmemLock (hw P)) as Hl by (apply (fo_locks _ _ _ _ F); set_solver).
  assert (forall p, p ∈ free2 -> p ∈ free) as Hf2 by (intros p Hp; apply Hp1, Hp2; tauto).
  pose proof (later_copy m2 free2 H2 K2 (pt_kmem _ _ _ _ (as_pt _ _ _ _ (sp_as _ _ _ _ _ _ P2))) Hf2) as L.
  destruct (parent_space _ _ L) as (_ & Hg & Hu & Hregs).
  assert (pspace (with_hw h1 m2) root own' free2 (p_sz q) tf) as P2' by (apply pspace_hw; [by rewrite H2|done..]).
  destruct (child_frame_space _ _ _ _ _ _ (p_trapframe q) P2') as (P3 & Hg3 & Hu3).
  change (ms_ram (with_hw h1 m2)) with (ms_ram m2) in *. fold m' in P3, Hg3, Hu3.
  pose proof (ko_bytes _ _ (pt_kmem _ _ _ _ (as_pt _ _ _ _ (sp_as _ _ _ _ _ _ P2)))) as Hb.
  split; [|split; [done|split; [|split]]].
  - destruct L as [L1 L2 L3 L4]. split; [done| |apply P3|done]. apply (kept_trans _ _ (with_hw h1 m2)); [done|].
    apply (kept_sub (fun p => p = tf)); [intros p ->; apply Hp1; by left|]. exact (child_frame_kept (with_hw h1 m2) tf (p_trapframe q) Hb).
  - intros p. rewrite <- Hp1, <- Hp2. unfold proc_pages, present, frame. setoid_rewrite Hg3. tauto.
  - intros x Hx. destruct (Hc x Hx) as (C1 & C2 & C3).
    destruct (user_top _ (sp_sz _ _ _ _ _ _ P2)) as [Ht _]. pose proof trap_pages as (? & _).
    pose proof (fo_space _ _ _ _ F) as Sp. pose proof (sp_as _ _ _ _ _ _ Sp) as A.
    assert (ubyte (ms_ram mi) (p_pagetable q) x = ubyte (ms_ram (ps_mem P)) (p_pagetable q) x) as Eu.
    { apply (kept_ubyte A K1 free_aligned). intros p Hp Hpr. apply (free_spare _ _ _ _ _ A Hp); [lia|done]. }
    pose proof (kept_get A K1 free_aligned x) as Eg. unfold copied, present, frame in *. change (ms_ram mi) with (ms_ram m1) in *.
    rewrite Hu3, Hg3, C1, Eu by done. rewrite Eg in C2, C3. split; [done|]. split; [done|].
    intros Hpr. destruct (C3 Hpr) as [C4 C5]. split; [done|]. apply Hp1. tauto.
  - intros f. unfold m'. cbn [ms_ram with_ram]. rewrite child_frame_regs by done. unfold child_reg. destruct f; try done; apply Hregs.
Qed.
End Copy.

(** * The outcomes *)

(** The child has the parent's memory and registers, in pages that were free. *)
Record fork_copies (m' : mem) (free' : list Z) (root tf : Z) (own' : gmap Z node) : Prop := {
  fc_space : pspace m' root own' free' (p_sz q) tf;
  fc_pages : forall p, p ∈ free <-> p ∈ free' \/ proc_pages m' root own' (p_sz q) tf p;
  fc_memory : forall x, 0 <= x < PGROUNDUP (p_sz q) -> copied (ps_mem P) (p_pagetable q) free m' root x;
  fc_regs : forall f, rd64 (ms_ram m') (tf + tf_off f) = child_reg (ms_ram (ps_mem P)) (p_trapframe q) f }.

Lemma fork_undo root tf (ownC : gmap Z node) m1 (free1 : list Z) m2 (own' : gmap Z node) (free2 : list Z) :
  ms_hw m1 = h1 -> kept (fun p => p ∈ free) (ps_mem P) m1 ->
  (forall p, p = tf \/ is_Some (ownC !! p) \/ p ∈ free1 <-> p ∈ free) ->
  ms_hw m2 = acquired lk h1 -> kept (fun p => is_Some (ownC !! p) \/ p ∈ free1) (with_hw (acquired lk h1) m1) m2 ->
  pspace m2 root own' free2 0 tf -> (forall p, is_Some (own' !! p) \/ p ∈ free2 <-> is_Some (ownC !! p) \/ p ∈ free1) ->
  exists m' free', later m' free' /\ (forall p, p ∈ free' <-> p ∈ free) /\
    (lift (freeproc i) ;; krel lk ;; ret (-1)) (kinside lk (with_k_ps (with_mem (with_hw h1 m2) (upd i (bornf tf root) (next_pid P))) s)) =
      Ret (-1) (gave_up i (bornf tf root) m' s).
Proof using All.
  intros Hh1 K1 Hp1 Hh2 K2 P2 Hp2. destruct slot_facts as (Hi & Hst & Hne & Hlen). destruct tick_ok as (T1 & T2 & T3 & T4 & T5 & T6).
  destruct (fo_unused _ _ _ _ F i Hi Hst) as (_ & Esz & _).
  set (p2 := with_mem m2 (inside lk (upd i (bornf tf root) (next_pid P)))).
  assert (ps_proc p2 !!! i = bornf tf root (ps_proc P !!! i)) as Hat by (refine (upd_at i (bornf tf root) (next_pid P) _); cbn; lia).
  destruct (freeproc_spec i p2 own' free2) as (m3 & free3 & E & [R1 R2 R3 R4 R5]).
  { rewrite Hat. cbn [p_pagetable p_sz p_trapframe born]. rewrite Esz. exact P2. }
  { unfold hw, p2. cbn [ps_mem with_mem]. by rewrite Hh2. }
  rewrite Hat in R4, R5. cbn [p_pagetable p_sz p_trapframe born ps_mem p2 with_mem] in R3, R4, R5. rewrite Esz in R4, R5. rewrite Hh2 in R3.
  assert (forall p, p ∈ free2 \/ proc_pages m2 root own' 0 tf p <-> p ∈ free) as Hpp.
  { intros p. rewrite <- Hp1. pose proof (Hp2 p) as Hq. unfold proc_pages. split.
    - intros [H|[H|[H|(va & Hva & _)]]]; try tauto. change (PGROUNDUP 0) with 0 in Hva. lia.
    - tauto. }
  exists (with_hw h1 m3), free3. split; [|split].
  - split; [by right| |by apply kmem_ok_hw; [rewrite R3|]|intros p; by rewrite R4, Hpp].
    apply (kept_trans _ _ m1); [done|]. apply (kept_trans _ _ m2).
    + refine (kept_sub _ _ (with_hw (acquired lk h1) m1) m2 _ K2). intros p Hp. apply Hp1. tauto.
    + intros x Hx. apply R5. intros p Hp. by apply Hx, Hpp.
  - intros p. by rewrite R4, Hpp.
  - assert (kinside lk (with_k_ps (with_mem (with_hw h1 m2) (upd i (bornf tf root) (next_pid P))) s) = with_k_ps p2 s) as ->.
    { symmetry. exact (f_equal (fun p => with_k_ps p s) (inside_mem lk (with_mem (with_hw h1 m2) (upd i (bornf tf root) (next_pid P))) m2 Hh2)). }
    kstep (lift_ps (freeproc i) (with_k_ps p2 s) tt _ E).
    assert (with_k_ps (with_mem m3 (upd i freed p2)) (with_k_ps p2 s) = kinside lk (gave_up i (bornf tf root) (with_hw h1 m3) s)) as ->.
    { transitivity (with_k_ps (with_mem m3 (inside lk (upd i freed (upd i (bornf tf root) (next_pid P))))) s); [done|]. rewrite upd_upd.
      exact (f_equal (fun p => with_k_ps p s)
        (inside_mem lk (with_mem (with_hw h1 m3) (upd i (fun c => freed (bornf tf root c)) (next_pid P))) m3 R3)). }
    by kstep khart_rel by (exact T1 || exact T2 || exact T5).
Qed.

Lemma kfork_run :
  exists m' free', later m' free' /\
    ((exists root tf own', kfork s = Ret (ps_nextpid P) (forked me i m' root tf s) /\ fork_copies m' free' root tf own') \/
     (exists g, kfork s = Ret (-1) (gave_up i g m' s) /\ (forall c, p_ofile (g c) = p_ofile c) /\ forall p, p ∈ free' <-> p ∈ free)).
Proof using All.
  destruct slot_facts as (Hi & Hst & Hne & Hlen). destruct tick_ok as (T1 & T2 & T3 & T4 & T5 & T6).
  pose proof (fk_calm _ _ (fo_files _ _ _ _ F)) as Hc. pose proof (fo_locks _ _ _ _ F) as Hlocks.
  pose proof (allocproc_spec me P free Hc (pt_kmem _ _ _ _ (as_pt _ _ _ _ (sp_as _ _ _ _ _ _ (fo_space _ _ _ _ F))))
    (Hlocks KmemLock ltac:(set_solver)) (Hlocks PidLock ltac:(set_solver)) (fo_tramp _ _ _ _ F)) as Ha.
  rewrite Hslot in Ha. unfold kfork. kstep (lift_read curproc s me (calm_curproc me P Hc)).
  destruct Ha as [(tf & root & ownC & m1 & free1 & E & Hh1 & K1 & PC & Hp1)|(m' & free' & E & (Hr & Hk & Hh & Hp & K))].
  { intros j Hj Hu. by destruct (fo_unused _ _ _ _ F j Hj Hu). }
  - kstep (lift_ps allocproc s (Some i) _ E). cbv beta iota.
    destruct (copy_spaces root tf ownC m1 free1 Hh1 K1 PC Hp1) as (Pp & Pc & Hdis).
    destruct (fork_copy _ _ _ _ _ _ _ _ _ Pp Pc) as (r & m2 & own' & free2 & E2 & Hh2 & K2 & Hr2); [exact T4|done|].
    fold (next_pid P). set (p1 := with_mem m1 (upd i (bornf tf root) (next_pid P))).
    assert (ps_proc (inside lk p1) !!! me = q) as Eq by (exact (upd_other i me (bornf tf root) (next_pid P) ltac:(congruence))).
    assert (ps_proc (inside lk p1) !!! i = bornf tf root (ps_proc P !!! i)) as Ec
      by (refine (upd_at i (bornf tf root) (next_pid P) _); cbn; lia).
    kstep (lift_read (getp me) (with_k_ps (inside lk p1) s) _ eq_refl). kstep (lift_read (getp i) (with_k_ps (inside lk p1) s) _ eq_refl).
    cbn [k_ps with_k_ps]. rewrite Eq, Ec. cbn [p_pagetable born].
    assert (ps_mem (inside lk p1) = with_hw (acquired lk h1) m1) as Em by (unfold p1, inside, with_machine, hw; cbn; by rewrite Hh1).
    rewrite <- Em in E2. kstep (lift_kmem _ (with_k_ps (inside lk p1) s) _ _ E2).
    assert (with_k_ps (with_mem m2 (inside lk p1)) (with_k_ps (inside lk p1) s) =
      kinside lk (with_k_ps (with_mem (with_hw h1 m2) (upd i (bornf tf root) (next_pid P))) s)) as Es.
    { exact (f_equal (fun p => with_k_ps p s) (inside_mem lk (with_mem (with_hw h1 m2) (upd i (bornf tf root) (next_pid P))) m2 Hh2)). }
    cbn [k_ps with_k_ps]. rewrite Es. destruct Hr2 as [(-> & P2 & Hp2 & Hcp)|(-> & P2 & Hp2)]; cbn [Z.ltb Z.compare].
    + destruct (fork_child root tf ownC m1 free1 Hh1 K1 PC Hp1 m2 own' free2 Hh2 K2 P2 Hp2 Hcp) as (L & F1 & F2 & F3 & F4).
      exists (with_ram (child_frame tf (p_trapframe q) (ms_ram m2)) (with_hw h1 m2)), free2. split; [done|]. left.
      exists root, tf, own'. split; [|by split]. exact (fork_finish_eq (ms_ram m2) (ms_freelist m2) (ms_kpgtbl m2) tf root).
    + destruct (fork_undo root tf ownC m1 free1 m2 own' free2 Hh1 K1 Hp1 Hh2 K2 P2 Hp2) as (m' & free' & L & Hf & E3).
      exists m', free'. split; [done|]. right. exists (bornf tf root). by split.
  - kstep (lift_ps allocproc s None _ E). exists m', free'. split; [split; [by left|done|done|intros p; by rewrite Hp]|].
    right. by exists (fun c => c).
Qed.

Lemma no_fds f : fdcount f (replicate NOFILE None) = 0.
Proof using Type. done. Qed.

(** Whatever became of the slot, the system is as it should be. *)
Lemma forkable_after m' free' g tab it :
  later m' free' -> length tab = NFILE ->
  let c := g (ps_proc P !!! i) in
  length (p_ofile c) = NOFILE -> (forall fd f, p_ofile c !! fd = Some (Some f) -> (f < NFILE)%nat) ->
  (forall f, (f < NFILE)%nat -> f_ref (tab !!! f) = f_ref (k_ftable s !!! f) + fdcount f (p_ofile c)) ->
  (p_state c = UNUSED -> p_pagetable c = 0 /\ p_sz c = 0 /\ p_ofile c = replicate NOFILE None) ->
  forkable me own free' (with_k_itable it (with_k_ftable tab (with_k_ps (with_mem m' (upd i g (next_pid P))) s))).
Proof using All.
  intros L Htab c Hlc Hfd Href Hun. destruct slot_facts as (Hi & Hst & Hne & Hlen). set (s' := with_k_itable it _).
  destruct (fo_files _ _ _ _ F) as [[C1 C2 C3 C4 C5] F2 F3 F4 F5 F6 F7].
  assert (forall j, ps_proc (k_ps s') !!! j = if decide (i = j) then c else ps_proc P !!! j) as Hat.
  { intros j. destruct (decide (i = j)) as [<-|Hij]; [refine (upd_at i g (next_pid P) _); cbn; lia|exact (upd_other i j g (next_pid P) Hij)]. }
  assert (khw s' = ms_hw m') as Hhw by done.
  assert (ps_proc (k_ps s') !!! me = q) as Eme by (rewrite Hat, decide_False; congruence).
  assert (hart_ok (khw s') /\ touch (khw s') = khw s' /\ c_proc (curcpu (khw s')) = Some me /\
    (forall l, lock_free l (hw P) -> lock_free l (khw s')) /\ m_ld (khw s') = m_ld (hw P)) as (H1 & H2 & H3 & H4 & H5).
  { rewrite Hhw. destruct tick_ok as (T1 & T2 & _). destruct (la_hw _ _ L) as [-> | ->]; [done|]. split; [exact T1|]. split; [exact T2|]. done. }
  split.
  - split.
    + split; [exact H1|exact H2|exact H3|intros j Hj; apply H4; by apply C4|]. refine (eq_trans (upd_length i g (next_pid P)) _). exact C5.
    + done.
    + apply H4, F3.
    + done.
    + intros p Hp. rewrite Hat. destruct (decide (i = p)); [done|]. by apply F5.
    + intros p fd f Hp Hf. rewrite Hat. destruct (decide (i = p)) as [<-|]; [|by apply F6].
      intros E. apply (Hfd fd). rewrite <- E. apply list_lookup_lookup_total_lt. lia.
    + intros f Hf. change (k_ftable s') with tab. rewrite Href, F7 by done. unfold holders.
      change (ps_proc (k_ps s')) with (alter g i (ps_proc P)). rewrite zsum_alter by lia. fold c.
      destruct (fo_unused _ _ _ _ F i Hi Hst) as (_ & _ & ->). rewrite no_fds. lia.
  - intros l Hl. by apply H4, (fo_locks _ _ _ _ F).
  - rewrite H5. apply F.
  - cbn zeta. rewrite Eme. by apply parent_space.
  - rewrite Eme. apply F.
  - rewrite Eme. apply F.
  - intros j Hj. rewrite Hat. destruct (decide (i = j)); [done|]. by apply (fo_unused _ _ _ _ F).
Qed.
End Kfork.

(** C8. [kfork]: with no free slot it fails and changes nothing.  Otherwise the
    call returns, with the child's pid or with -1, and in either case the parent
    has its memory, its descriptors and its record, reference counts of open files
    are the numbers of descriptors, and memory that was not free is untouched.
    With success, the child in the first free slot is runnable and has the
    parent's files, directory, hint and name; its memory has the parent's bytes
    and permissions, in pages that were free, and its registers are the parent's
    with 0 for the result of the call.  With failure every page that was taken is
    free again. *)
Theorem kfork_correct me own free s (F : forkable me own free s) :
  match find_slot (is_state UNUSED) (seq 0 NPROC) (k_ps s) with
  | None => kfork s = Ret (-1) s
  | Some i =>
      exists m' free', kept (fun p => p ∈ free) (ps_mem (k_ps s)) m' /\
        ((exists root tf own', kfork s = Ret (ps_nextpid (k_ps s)) (forked me i m' root tf s) /\
            forkable me own free' (forked me i m' root tf s) /\ fork_copies me free s m' free' root tf own') \/
         (exists g, kfork s = Ret (-1) (gave_up i g m' s) /\ forkable me own free' (gave_up i g m' s) /\
            forall p, p ∈ free' <-> p ∈ free))
  end.
Proof.
  pose proof (fo_files _ _ _ _ F) as Ff. pose proof (fk_calm _ _ Ff) as Hc. pose proof (fo_locks _ _ _ _ F) as Hlocks.
  destruct (find_slot _ _ _) as [i|] eqn:Hslot.
  - destruct (find_slot_first _ _ _ _ Hslot) as (Hi & Hst%bool_decide_eq_true_1 & _).
    destruct (fo_unused _ _ _ _ F i Hi Hst) as (_ & _ & Hno).
    destruct (kfork_run me i own free s F Hslot) as (m' & free' & L & H). exists m', free'. split; [apply L|].
    destruct H as [(root & tf & own' & E & C)|(g & E & Hg & Hp)]; [left|right].
    + exists root, tf, own'. split; [done|]. split; [|done].
      apply (forkable_after me i own free s F Hslot m' free' _ _ _ L); cbn [newborn p_ofile p_state]; try done.
      * by rewrite dup_files_length, (fk_len _ _ Ff).
      * apply (fk_fds _ _ Ff), Ff.
      * intros fd f E0. apply (fk_open _ _ Ff me fd); [apply Ff| |by apply list_lookup_total_correct].
        rewrite <- (fk_fds _ _ Ff me) by apply Ff. by apply lookup_lt_Some in E0.
      * intros f Hf. apply dup_files_ref. by rewrite (fk_len _ _ Ff).
    + exists g. split; [done|]. split; [|done].
      apply (forkable_after me i own free s F Hslot m' free' (fun c => freed (g c)) (k_ftable s) (k_itable s) L); cbn [freed p_ofile p_state p_pagetable p_sz];
        rewrite ?Hg, ?Hno; try done.
      * apply (fk_len _ _ Ff).
      * intros fd f E0. by apply lookup_replicate in E0 as [? _].
      * intros f _. rewrite no_fds. lia.
  - pose proof (allocproc_spec me (k_ps s) free Hc (pt_kmem _ _ _ _ (as_pt _ _ _ _ (sp_as _ _ _ _ _ _ (fo_space _ _ _ _ F))))
      (Hlocks KmemLock ltac:(set_solver)) (Hlocks PidLock ltac:(set_solver)) (fo_tramp _ _ _ _ F)) as Ha. rewrite Hslot in Ha.
    unfold kfork. kstep (lift_read curproc s me (calm_curproc me _ Hc)). kstep (lift_read allocproc s None); [done|].
    apply Ha. intros j Hj Hu. by destruct (fo_unused _ _ _ _ F j Hj Hu).
Qed.

(** * Examples *)

(** Changes to the memory and to the record of a process keep the descriptors. *)
Lemma files_same me s m i g :
  files_ok me s -> ms_hw m = khw s -> (forall c, p_ofile (g c) = p_ofile c) ->
  files_ok me (with_k_ps (with_mem m (upd i g (k_ps s))) s).
Proof.
  intros [[C1 C2 C3 C4 C5] F2 F3 F4 F5 F6 F7] Hm Hg. change (khw s) with (hw (k_ps s)) in *.
  assert (forall j, p_ofile (alter g i (ps_proc (k_ps s)) !!! j) = p_ofile (ps_proc (k_ps s) !!! j)) as Hat.
  { intros j. rewrite !list_lookup_total_alt, list_lookup_alter. case_decide as Hj; [|done]. subst j.
    destruct (ps_proc (k_ps s) !! i); [|done]. apply Hg. }
  split; cbn [k_ps with_k_ps k_ftable]; try done.
  - split; unfold hw; cbn [ps_mem with_mem]; rewrite ?Hm; try done. cbn. by rewrite length_alter.
  - unfold khw, hw. cbn [k_ps with_k_ps ps_mem with_mem]. by rewrite Hm.
  - intros p Hp. cbn. rewrite Hat. by apply F5.
  - intros p fd f Hp Hf. cbn. rewrite Hat. by apply F6.
  - intros f Hf. rewrite F7 by done. unfold holders. cbn. clear Hat. generalize (ps_proc (k_ps s)). intros l. revert i.
    induction l as [|c l IH]; intros [|i]; [done..| |].
    + change (alter g 0%nat (c :: l)) with (g c :: l). cbn. by rewrite Hg.
    + change (alter g (S i) (c :: l)) with (c :: alter g i l). cbn [zsum foldr]. f_equal. apply IH.
Qed.

(** Ten free pages; process 1 has a trapframe, a file and a directory. *)
Definition fork_pages : list Z := (fun k => 0x80025000 + PGSIZE * Z.of_nat k) <$> seq 0 10.
Definition demo_fork_mem : mem :=
  with_freelist 0x80025000 (with_ram (foldr (fun a r => wr64 r a (if a =? 0x8002e000 then 0 else a + PGSIZE)) ∅ fork_pages)
    (ps_mem (k_ps demo_open))).
Definition demo_parent : proc -> proc := fun c => set_cwd (Some 0%nat) (set_trapframe demo_root c).
Definition demo_before : pstate := with_mem demo_fork_mem (upd 1 demo_parent (k_ps demo_open)).
(** ... and the page table that the kernel makes for it. *)
Definition demo_after : pstate := match returned (proc_pagetable 1 demo_before) with Some (_, p) => p | None => demo_before end.
Definition demo_forkable : kstate :=
  with_k_ps (upd 1 (fun c => set_sz 0x3000 (set_pagetable 0x80025000 c)) demo_after) demo_open.

Lemma demo_table : fst <$> returned (proc_pagetable 1 demo_before) = Some 0x80025000.
Proof. vm_compute. reflexivity. Qed.

Lemma demo_forked : match kfork demo_forkable with Ret pid _ => pid | _ => -1 end = 4.
Proof. vm_compute. reflexivity. Qed.

Lemma demo_fork_kmem_ok : kmem_ok demo_fork_mem fork_pages.
Proof.
  split.
  - vm_compute. done.
  - apply (bool_decide_unpack _). vm_compute. done.
  - repeat constructor; vm_compute; done.
  - done.
  - cbn. repeat apply bytes_ok_wr64. apply bytes_ok_empty.
Qed.

Lemma demo_other i : (3 <= i < NPROC)%nat -> ps_proc (k_ps demo_open) !!! i = zero_proc.
Proof.
  intros Hi. change (ps_proc (k_ps demo_open)) with (alter (with_fd 0 (Some 0%nat)) 1%nat demo_procs).
  rewrite list_lookup_total_alter_ne by lia. destruct i as [|[|[|i]]]; try lia.
  change (demo_procs !!! S (S (S i))) with (replicate 61 zero_proc !!! i). apply lookup_total_replicate_2. change NPROC with 64%nat in Hi. lia.
Qed.

(** A process that was given a page table can fork. *)
Definition with_space (root tf sz : Z) (w : nat) (c : proc) : proc :=
  set_sz sz (set_pagetable root (set_cwd (Some w) (set_trapframe tf c))).

Lemma with_space_ok me s m own free root tf sz w :
  files_ok me s -> ms_hw m = khw s -> (forall lk, lk ∈ [KmemLock; PidLock; WaitLock; ItableLock] -> lock_free lk (khw s)) ->
  tramp_ok (m_ld (khw s)) -> pspace m root own free 0 tf -> 0 <= sz <= TRAPFRAME ->
  p_state (ps_proc (k_ps s) !!! me) <> UNUSED ->
  (forall i, (i < NPROC)%nat -> p_state (ps_proc (k_ps s) !!! i) = UNUSED ->
     let c := ps_proc (k_ps s) !!! i in p_pagetable c = 0 /\ p_sz c = 0 /\ p_ofile c = replicate NOFILE None) ->
  forkable me own free (with_k_ps (with_mem m (upd me (with_space root tf sz w) (k_ps s))) s).
Proof.
  intros Ff Hm Hl Ht Sp Hsz Hr Hu. pose proof (fk_me _ _ Ff) as Hme. pose proof (cm_len _ _ (fk_calm _ _ Ff)) as Hlen.
  assert (forall j, ps_proc (upd me (with_space root tf sz w) (k_ps s)) !!! j =
    if decide (me = j) then with_space root tf sz w (ps_proc (k_ps s) !!! me) else ps_proc (k_ps s) !!! j) as Hat.
  { intros j. destruct (decide (me = j)) as [<-|Hne]; [apply upd_at; lia|by apply upd_other]. }
  split; unfold khw, hw in *; cbn zeta; cbn [k_ps with_k_ps ps_proc ps_mem with_mem] in *; rewrite ?Hat, ?decide_True, ?Hm by done; try done.
  - by apply files_same.
  - by apply pspace_lazy.
  - intros i Hi. rewrite Hat. destruct (decide (me = i)) as [<-|]; [done|by apply Hu].
Qed.

Lemma upd_with_mem i f g m m0 p : upd i f (with_mem m (with_mem m0 (upd i g p))) = with_mem m (upd i (fun c => f (g c)) p).
Proof. change (upd i f (with_mem m (with_mem m0 (upd i g p)))) with (with_mem m (upd i f (upd i g p))). by rewrite upd_upd. Qed.

Lemma demo_blank_slots i : (i < NPROC)%nat -> p_state (ps_proc (k_ps demo_open) !!! i) = UNUSED ->
  let c := ps_proc (k_ps demo_open) !!! i in p_pagetable c = 0 /\ p_sz c = 0 /\ p_ofile c = replicate NOFILE None.
Proof.
  intros Hi. destruct (decide (i < 3)%nat) as [Hlt|Hge].
  - destruct i as [|[|[|i]]]; [..|lia]; vm_compute; discriminate.
  - intros _. cbn zeta. rewrite demo_other by lia. done.
Qed.

Lemma demo_open_locks lk l : demo_locks !! lk = Some l -> lock_free lk (khw demo_open).
Proof. exact (demo_lock_free lk l). Qed.

Lemma demo_limits : tramp_ok (m_ld (khw demo_open)) /\ 0 <= 0x3000 <= TRAPFRAME /\ p_state (ps_proc (k_ps demo_open) !!! 1%nat) <> UNUSED.
Proof. split; [split; [reflexivity|vm_compute; done]|]. split; vm_compute; [split|]; discriminate. Qed.

Lemma demo_space : exists m' own free, demo_after = with_mem m' demo_before /\ ms_hw m' = hw demo_before /\
  pspace m' 0x80025000 own free 0 demo_root.
Proof.
  pose proof (fk_calm _ _ demo_open_ok) as Hc.
  destruct (proc_pagetable_spec 1 demo_before fork_pages demo_root) as (r & m' & own & free & E & H).
  - split; [apply Hc|]. exact (demo_open_locks KmemLock _ eq_refl).
  - exact demo_fork_kmem_ok.
  - apply Hc.
  - split; [reflexivity|]. vm_compute. done.
  - reflexivity.
  - split; [reflexivity|]. vm_compute. split; congruence.
  - intros Hin. apply list_elem_of_fmap in Hin as (k & Ek & Hk%elem_of_seq). unfold demo_root, PGSIZE in Ek. lia.
  - pose proof demo_table as T. rewrite E in T. cbn in T. injection T as ->.
    destruct H as [(_ & Hh & _ & Sp & _)|[H _]]; [|discriminate H].
    exists m', own, free. split; [|by split]. unfold demo_after. by rewrite E.
Qed.

Lemma demo_forkable_ok : exists own free, forkable 1 own free demo_forkable.
Proof.
  destruct demo_space as (m' & own & free & E & Hh & Sp). exists own, free. unfold demo_forkable. rewrite E. unfold demo_before.
  rewrite upd_with_mem. apply (with_space_ok 1 demo_open m' own free 0x80025000 demo_root 0x3000 0).
  - exact demo_open_ok.
  - exact Hh.
  - intros lk Hlk. set_unfold. destruct Hlk as [->|[->|[->|[->|[]]]]].
    + exact (demo_open_locks KmemLock _ eq_refl).
    + exact (demo_open_locks PidLock _ eq_refl).
    + exact (demo_open_locks WaitLock _ eq_refl).
    + exact (demo_open_locks ItableLock _ eq_refl).
  - exact (proj1 demo_limits).
  - exact Sp.
  - exact (proj1 (proj2 demo_limits)).
  - exact (proj2 (proj2 demo_limits)).
  - exact demo_blank_slots.
Qed.

Lemma kfork_correct_witness :
  exists own free m' free' root tf own', forkable 1 own free demo_forkable /\
    kfork demo_forkable = Ret 4 (forked 1 3 m' root tf demo_forkable) /\
    forkable 1 own free' (forked 1 3 m' root tf demo_forkable) /\ fork_copies 1 free demo_forkable m' free' root tf own'.
Proof.
  destruct demo_forkable_ok as (own & free & F). pose proof (kfork_correct 1 own free demo_forkable F) as H.
  assert (find_slot (is_state UNUSED) (seq 0 NPROC) (k_ps demo_forkable) = Some 3%nat) as Es by (vm_compute; reflexivity).
  rewrite Es in H. destruct H as (m' & free' & _ & [(root & tf & own' & E & F' & C)|(g & E & _)]).
  - exists own, free, m', free', root, tf, own'. split; [exact F|]. split; [|by split]. rewrite E.
    assert (ps_nextpid (k_ps demo_forkable) = 4) as -> by (vm_compute; reflexivity). reflexivity.
  - exfalso. pose proof demo_forked as D. rewrite E in D. discriminate D.
Defined.
