(* ===== verification/Syscall.v ===== *)
(** kernel/sysproc.c and the dispatcher of kernel/syscall.c. *)
From S2P Require Import Prelude Riscv Spinlock Memory Bytes Kstring Kalloc Vm Proc Switch Sleeplock UserMem Kstate Bio Log Fs Dir Pipe Console File Life Exec Sysfile.

Definition SBRK_EAGER : Z := 1.

Definition sys_getpid : M kstate Z :=
  p <- lift curproc ;;
  q <- lift (getp p) ;;
  ret (p_pid q).

Definition sys_sbrk : M kstate Z :=
  n <- lift (argint 0) ;;
  t <- lift (argint 1) ;;
  p <- lift curproc ;;
  q <- lift (getp p) ;;
  let addr := p_sz q in
  if (t =? SBRK_EAGER) || (n <? 0) then
    r <- lift (growproc n) ;;
    if r <? 0 then ret (-1) else ret addr
  else
    if u64 (addr + n) <? addr then ret (-1) else
    if TRAPFRAME <? u64 (addr + n) then ret (-1) else
    lift (modp p (fun q => set_sz (u64 (p_sz q + n)) q)) ;;
    ret addr.

Definition sys_kill : M kstate Z :=
  pid <- lift (argint 0) ;;
  lift (kkill pid).

Definition sys_uptime : M kstate Z :=
  kacq TicksLock ;;
  xticks <- lift (gets ps_ticks) ;;
  krel TicksLock ;;
  ret xticks.

Definition sys_setexpected : M kstate Z :=
  expected <- lift (argint 0) ;;
  let expected := Z.max 0 expected in
  p <- lift curproc ;;
  kacq (ProcLock p) ;;
  lift (modp p (set_expected_runtime expected)) ;;
  krel (ProcLock p) ;;
  ret 0.

Definition sys_setstcfvals : M kstate Z :=
  expected <- lift (argint 0) ;;
  let expected := Z.max 0 expected in
  p <- lift curproc ;;
  kacq (ProcLock p) ;;
  lift (modp p (set_expected_runtime expected)) ;;
  lift (modp p (set_time_left (expected + 1))) ;;
  krel (ProcLock p) ;;
  ret 0.

Definition sys_yield : M kstate Z :=
  lift yield ;;
  ret 0.

(** [enum procstate], in declaration order. *)
Definition state_num (st : procstate) : Z :=
  match st with
  | UNUSED => 0 | USED => 1 | SLEEPING => 2 | RUNNABLE => 3 | RUNNING => 4 | ZOMBIE => 5
  end.

(** [struct procinfo] filled in from [p]; [info] is what the variable held
    before.  The last four bytes are padding. *)
Definition procinfo_of (p : proc) (info : list Z) : list Z :=
  let info := put_le 4 0 (p_pid p) info in
  let info := put_le 4 4 (state_num (p_state p)) info in
  let info := put_le 8 24 (p_ctime p) info in
  let info := put_le 8 32 (p_etime p) info in
  let info := put_le 8 40 (p_rtime p) info in
  let info := put_le 8 48 (p_stime p) info in
  let info := put_le 8 56 (p_expected_runtime p) info in
  let info := put_le 8 64 (p_time_left p) info in
  let info := put_le 4 72 (p_priority p) info in
  let info := put_le 4 76 (p_queue_level p) info in
  let info := put_le 4 80 (p_time_slice p) info in
  put_bytes 8 (arr_safestrcpy (sub_bytes 8 16 info) (p_name p) 16) info.

Section Syscall.
Context `{WaitBound} `{DiskDriver} `{StackBytes}.

Definition sys_exit : M kstate Z :=
  n <- lift (argint 0) ;;
  kexit n ;;
  ret 0.

Definition sys_fork : M kstate Z := kfork.

Definition sys_wait : M kstate Z :=
  p <- lift (argaddr 0) ;;
  kwait p.

Definition sys_pause : M kstate Z :=
  n <- lift (argint 0) ;;
  let n := if n <? 0 then 0 else n in
  kacq TicksLock ;;
  ticks0 <- lift (gets ps_ticks) ;;
  loop (S wait_bound) (fun (_ : unit) =>
    ticks <- lift (gets ps_ticks) ;;
    if u32 (ticks - ticks0) <? n then
      p <- lift curproc ;;
      k <- lift (killed p) ;;
      if negb (k =? 0) then krel TicksLock ;; ret (inr (-1)) else
      lift (sleep ChTicks TicksLock) ;;
      ret (inl tt)
    else krel TicksLock ;; ret (inr 0)) tt.

Definition sys_getprocinfo : M kstate Z :=
  pid <- lift (argint 0) ;;
  r <- lift (getproc pid) ;;
  match r with
  | None => ret (-1)
  | Some p =>
      kacq (ProcLock p) ;;
      q <- lift (getp p) ;;
      let info := procinfo_of q (stack_bytes 88) in
      krel (ProcLock p) ;;
      user_ptr <- lift (argaddr 1) ;;
      me <- lift curproc ;;
      q <- lift (getp me) ;;
      r <- lift (copyout (p_pagetable q) user_ptr info) ;;
      if r <? 0 then ret (-1) else ret 0
  end.

(** [syscalls[num]]: every number from 1 to 25 has a handler. *)
Definition syscalls (num : Z) : option (M kstate Z) :=
  match num with
  | 1 => Some sys_fork | 2 => Some sys_exit | 3 => Some sys_wait | 4 => Some sys_pipe
  | 5 => Some sys_read | 6 => Some sys_kill | 7 => Some sys_exec | 8 => Some sys_fstat
  | 9 => Some sys_chdir | 10 => Some sys_dup | 11 => Some sys_getpid | 12 => Some sys_sbrk
  | 13 => Some sys_pause | 14 => Some sys_uptime | 15 => Some sys_open | 16 => Some sys_write
  | 17 => Some sys_mknod | 18 => Some sys_unlink | 19 => Some sys_link | 20 => Some sys_mkdir
  | 21 => Some sys_close | 22 => Some sys_setexpected | 23 => Some sys_setstcfvals
  | 24 => Some sys_yield | 25 => Some sys_getprocinfo
  | _ => None
  end.

Definition syscall : M kstate unit :=
  p <- lift curproc ;;
  num <- lift (get_tf p TF_a7) ;;
  match syscalls (s32 num) with
  | Some handler =>
      r <- handler ;;
      lift (set_tf p TF_a0 (u64 r))
  | None =>
      q <- lift (getp p) ;;
      lift (printf "%d %s: unknown sys call %d\n" ((p_pid q :: p_name q) ++ [s32 num])) ;;
      lift (set_tf p TF_a0 (u64 (-1)))
  end.
End Syscall.
