(* ===== verification/Virtio.v ===== *)
(** kernel/virtio_disk.c: the driver of the disk device, and kernel/plic.c.

    The device shares the virtqueue with the driver; it runs between the
    driver's steps, when the driver sleeps or at an interrupt.  Register reads
    and writes go through [mmio_read] and [mmio_write]. *)
From S2P Require Import Prelude Riscv Spinlock Memory Bytes Kstring Kalloc Vm Proc Switch Sleeplock UserMem Kstate Bio Cache.

(** * virtio.h *)

Definition VIRTIO_MMIO_MAGIC_VALUE : Z := 0x000.
Definition VIRTIO_MMIO_VERSION : Z := 0x004.
Definition VIRTIO_MMIO_DEVICE_ID : Z := 0x008.
Definition VIRTIO_MMIO_VENDOR_ID : Z := 0x00c.
Definition VIRTIO_MMIO_DEVICE_FEATURES : Z := 0x010.
Definition VIRTIO_MMIO_DRIVER_FEATURES : Z := 0x020.
Definition VIRTIO_MMIO_QUEUE_SEL : Z := 0x030.
Definition VIRTIO_MMIO_QUEUE_NUM_MAX : Z := 0x034.
Definition VIRTIO_MMIO_QUEUE_NUM : Z := 0x038.
Definition VIRTIO_MMIO_QUEUE_READY : Z := 0x044.
Definition VIRTIO_MMIO_QUEUE_NOTIFY : Z := 0x050.
Definition VIRTIO_MMIO_INTERRUPT_STATUS : Z := 0x060.
Definition VIRTIO_MMIO_INTERRUPT_ACK : Z := 0x064.
Definition VIRTIO_MMIO_STATUS : Z := 0x070.
Definition VIRTIO_MMIO_QUEUE_DESC_LOW : Z := 0x080.
Definition VIRTIO_MMIO_QUEUE_DESC_HIGH : Z := 0x084.
Definition VIRTIO_MMIO_DRIVER_DESC_LOW : Z := 0x090.
Definition VIRTIO_MMIO_DRIVER_DESC_HIGH : Z := 0x094.
Definition VIRTIO_MMIO_DEVICE_DESC_LOW : Z := 0x0a0.
Definition VIRTIO_MMIO_DEVICE_DESC_HIGH : Z := 0x0a4.

Definition VIRTIO_CONFIG_S_ACKNOWLEDGE : Z := 1.
Definition VIRTIO_CONFIG_S_DRIVER : Z := 2.
Definition VIRTIO_CONFIG_S_DRIVER_OK : Z := 4.
Definition VIRTIO_CONFIG_S_FEATURES_OK : Z := 8.

(** The feature bits the driver turns down, in the order it does. *)
Definition refused_features : list Z := [5; 7; 11; 12; 27; 29; 28].

Definition VRING_DESC_F_NEXT : Z := 1.
Definition VRING_DESC_F_WRITE : Z := 2.
Definition VIRTIO_BLK_T_IN : Z := 0.
Definition VIRTIO_BLK_T_OUT : Z := 1.

(** * virtio_disk.c *)

(** The register [R(r)]. *)
Definition read_R (r : Z) : M kstate Z := mmio_read (VIRTIO0 + r).
Definition write_R (r v : Z) : M kstate unit := mmio_write (VIRTIO0 + r) (u32 v).

(** [*R(r) != v] for each pair in turn, stopping at the first that differs. *)
Fixpoint mismatch (checks : list (Z * Z)) : M kstate bool :=
  match checks with
  | [] => ret false
  | (r, v) :: rest =>
      x <- read_R r ;;
      if negb (x =? v) then ret true else mismatch rest
  end.

(** A page of zeros at [pa]. *)
Definition zero_page (pa : Z) : M kstate unit :=
  lift (ram_set (fun ram => memset ram pa 0 PGSIZE)).

Definition virtio_disk_init : M kstate unit :=
  lift (initlock VdiskLock "virtio_disk") ;;
  bad <- mismatch [(VIRTIO_MMIO_MAGIC_VALUE, 0x74726976); (VIRTIO_MMIO_VERSION, 2);
                   (VIRTIO_MMIO_DEVICE_ID, 2); (VIRTIO_MMIO_VENDOR_ID, 0x554d4551)] ;;
  if bad then panic "could not find virtio disk" else
  write_R VIRTIO_MMIO_STATUS 0 ;;
  let status := VIRTIO_CONFIG_S_ACKNOWLEDGE in
  write_R VIRTIO_MMIO_STATUS status ;;
  let status := Z.lor status VIRTIO_CONFIG_S_DRIVER in
  write_R VIRTIO_MMIO_STATUS status ;;
  features <- read_R VIRTIO_MMIO_DEVICE_FEATURES ;;
  write_R VIRTIO_MMIO_DRIVER_FEATURES (fold_left Z.clearbit refused_features features) ;;
  let status := Z.lor status VIRTIO_CONFIG_S_FEATURES_OK in
  write_R VIRTIO_MMIO_STATUS status ;;
  status <- read_R VIRTIO_MMIO_STATUS ;;
  if Z.land status VIRTIO_CONFIG_S_FEATURES_OK =? 0
  then panic "virtio disk FEATURES_OK unset" else
  write_R VIRTIO_MMIO_QUEUE_SEL 0 ;;
  ready <- read_R VIRTIO_MMIO_QUEUE_READY ;;
  if negb (ready =? 0) then panic "virtio disk should not be ready" else
  max <- read_R VIRTIO_MMIO_QUEUE_NUM_MAX ;;
  if max =? 0 then panic "virtio disk has no queue 0" else
  if max <? Z.of_nat NUM then panic "virtio disk max queue too short" else
  desc <- lift kalloc ;;
  avail <- lift kalloc ;;
  used <- lift kalloc ;;
  modvd (set_vd_pages (desc, avail, used)) ;;
  if (desc =? 0) || (avail =? 0) || (used =? 0) then panic "virtio disk kalloc" else
  zero_page desc ;;
  zero_page avail ;;
  zero_page used ;;
  modvd (set_vd_desc (replicate NUM inhabitant)) ;;
  modvd (set_vd_avail_idx 0) ;;
  modvd (set_vd_avail_ring (replicate NUM 0)) ;;
  modvd (set_vd_dev_idx 0) ;;
  modvd (set_vd_used_ring (replicate NUM 0)) ;;
  write_R VIRTIO_MMIO_QUEUE_NUM (Z.of_nat NUM) ;;
  write_R VIRTIO_MMIO_QUEUE_DESC_LOW desc ;;
  write_R VIRTIO_MMIO_QUEUE_DESC_HIGH (Z.shiftr desc 32) ;;
  write_R VIRTIO_MMIO_DRIVER_DESC_LOW avail ;;
  write_R VIRTIO_MMIO_DRIVER_DESC_HIGH (Z.shiftr avail 32) ;;
  write_R VIRTIO_MMIO_DEVICE_DESC_LOW used ;;
  write_R VIRTIO_MMIO_DEVICE_DESC_HIGH (Z.shiftr used 32) ;;
  write_R VIRTIO_MMIO_QUEUE_READY 1 ;;
  modvd (set_vd_free (replicate NUM 1)) ;;
  write_R VIRTIO_MMIO_STATUS (Z.lor status VIRTIO_CONFIG_S_DRIVER_OK).

(** [None] for the result -1. *)
Definition alloc_desc : M kstate (option nat) :=
  r <- forl (seq 0 NUM) (fun i (_ : unit) =>
    d <- getvd ;;
    if negb (vd_free d !!! i =? 0)
    then modvd (set_vd_free (<[i := 0]> (vd_free d))) ;; ret (inr i)
    else ret (inl tt)) tt ;;
  ret (match r with inr i => Some i | inl _ => None end).

Definition clear_desc (i : nat) (d : vdisk) : vdisk :=
  set_vd_free (<[i := 1]> (vd_free d)) (set_vd_desc (<[i := Desc DmaNull 0 0 0]> (vd_desc d)) d).

Definition free_desc (i : nat) : M kstate unit :=
  if (NUM <=? i)%nat then panic "free_desc 1" else
  d <- getvd ;;
  if negb (vd_free d !!! i =? 0) then panic "free_desc 2" else
  modvd (clear_desc i) ;;
  lift (wakeup ChDiskFree).

(** Every iteration frees a descriptor, or panics at one that is free. *)
Definition free_chain (i : nat) : M kstate unit :=
  loop (S NUM) (fun i =>
    d <- getvd ;;
    let flag := d_flags (vd_desc d !!! i) in
    let nxt := Z.to_nat (d_next (vd_desc d !!! i)) in
    free_desc i ;;
    if negb (Z.land flag VRING_DESC_F_NEXT =? 0) then ret (inl nxt) else ret (inr tt)) i.

(** The descriptors taken; [None] for the result -1. *)
Definition alloc3_desc : M kstate (option (list nat)) :=
  r <- forl (seq 0 3) (fun _ idx =>
    r <- alloc_desc ;;
    match r with
    | Some k => ret (inl (idx ++ [k]))
    | None => iterl idx free_desc ;; ret (inr tt)
    end) [] ;;
  ret (match r with inl idx => Some idx | inr _ => None end).

(** The three descriptors of a request on buffer [b], the command header, the
    status byte, and the entry of the avail ring. *)
Definition format_req (write : bool) (b : nat) (sector : Z) (i0 i1 i2 : nat) (d : vdisk) : vdisk :=
  let d := set_vd_ops (<[i0 := Req (if write then VIRTIO_BLK_T_OUT else VIRTIO_BLK_T_IN)
                                 0 sector]> (vd_ops d)) d in
  let d := set_vd_desc (<[i0 := Desc (DmaOp i0) 16 VRING_DESC_F_NEXT (Z.of_nat i1)]>
                          (vd_desc d)) d in
  let d := set_vd_desc (<[i1 := Desc (DmaData b) BSIZE
                                  (Z.lor (if write then 0 else VRING_DESC_F_WRITE)
                                     VRING_DESC_F_NEXT) (Z.of_nat i2)]> (vd_desc d)) d in
  let d := set_vd_info (alter (fun x => Info (in_b x) 0xff) i0 (vd_info d)) d in
  set_vd_desc (<[i2 := Desc (DmaStatus i0) 1 VRING_DESC_F_WRITE 0]> (vd_desc d)) d.

(** Put the chain that starts at [i0] in the avail ring. *)
Definition post_req (i0 : nat) (d : vdisk) : vdisk :=
  let d := set_vd_avail_ring
             (<[Z.to_nat (vd_avail_idx d mod Z.of_nat NUM) := Z.of_nat i0]> (vd_avail_ring d)) d in
  set_vd_avail_idx (u16 (vd_avail_idx d + 1)) d.

(** One entry of the used ring: the request that starts at [id] is done. *)
Definition complete (id : nat) : M kstate unit :=
  d <- getvd ;;
  let x := vd_info d !!! id in
  if negb (in_status x =? 0) then panic "virtio_disk_intr status" else
  match in_b x with
  | None => panic "null dereference"
  | Some b => modb b (set_b_disk 0) ;; lift (wakeup (ChBuf b))
  end.

(** The counter [used_idx] catches up with the device's in at most [2^16]
    steps. *)
Definition virtio_disk_intr : M kstate unit :=
  kacq VdiskLock ;;
  x <- read_R VIRTIO_MMIO_INTERRUPT_STATUS ;;
  write_R VIRTIO_MMIO_INTERRUPT_ACK (Z.land x 3) ;;
  d <- getvd ;;
  loop (S (Z.to_nat (u16 (vd_dev_idx d - vd_used_idx d)))) (fun (_ : unit) =>
    d <- getvd ;;
    if vd_used_idx d =? vd_dev_idx d then ret (inr tt) else
    complete (Z.to_nat (vd_used_ring d !!! Z.to_nat (vd_used_idx d mod Z.of_nat NUM))) ;;
    modvd (fun d => set_vd_used_idx (u16 (vd_used_idx d + 1)) d) ;;
    ret (inl tt)) tt ;;
  krel VdiskLock.

Section Virtio.
Context `{WaitBound}.

Definition virtio_disk_rw (b : nat) (write : bool) : M kstate unit :=
  x <- getb b ;;
  let sector := u32 (b_blockno x * (BSIZE / 512)) in
  kacq VdiskLock ;;
  idx <- loop (S wait_bound) (fun (_ : unit) =>
    r <- alloc3_desc ;;
    match r with
    | Some idx => ret (inr idx)
    | None => lift (sleep ChDiskFree VdiskLock) ;; ret (inl tt)
    end) tt ;;
  let i0 := idx !!! 0%nat in
  modvd (format_req write b sector i0 (idx !!! 1%nat) (idx !!! 2%nat)) ;;
  modb b (set_b_disk 1) ;;
  modvd (fun d => set_vd_info (alter (fun x => Info (Some b) (in_status x)) i0 (vd_info d)) d) ;;
  modvd (post_req i0) ;;
  write_R VIRTIO_MMIO_QUEUE_NOTIFY 0 ;;
  loop (S wait_bound) (fun (_ : unit) =>
    x <- getb b ;;
    if b_disk x =? 1 then lift (sleep (ChBuf b) VdiskLock) ;; ret (inl tt) else ret (inr tt)) tt ;;
  modvd (fun d => set_vd_info (alter (fun x => Info None (in_status x)) i0 (vd_info d)) d) ;;
  free_chain i0 ;;
  krel VdiskLock.
End Virtio.

(** * plic.c *)

Definition plicinit : M kstate unit :=
  mmio_write (PLIC + UART0_IRQ * 4) 1 ;;
  mmio_write (PLIC + VIRTIO0_IRQ * 4) 1.

Definition plicinithart : M kstate unit :=
  hart <- lift cpuid ;;
  mmio_write (PLIC_SENABLE (Z.of_nat hart))
    (Z.lor (Z.shiftl 1 UART0_IRQ) (Z.shiftl 1 VIRTIO0_IRQ)) ;;
  mmio_write (PLIC_SPRIORITY (Z.of_nat hart)) 0.

Definition plic_claim : M kstate Z :=
  hart <- lift cpuid ;;
  irq <- mmio_read (PLIC_SCLAIM (Z.of_nat hart)) ;;
  ret (s32 irq).

Definition plic_complete (irq : Z) : M kstate unit :=
  hart <- lift cpuid ;;
  mmio_write (PLIC_SCLAIM (Z.of_nat hart)) (u32 irq).

(** * The descriptors *)

Definition is_free (d : vdisk) (i : nat) : bool := negb (vd_free d !!! i =? 0).

Record vdisk_ok (d : vdisk) : Prop := {
  vo_free : length (vd_free d) = NUM;
  vo_desc : length (vd_desc d) = NUM;
  vo_flag : forall i, (i < NUM)%nat -> vd_free d !!! i = 0 \/ vd_free d !!! i = 1 }.

(** Descriptor [i] taken. *)
Definition take_desc (i : nat) (d : vdisk) : vdisk := set_vd_free (<[i := 0]> (vd_free d)) d.
Definition lowest_free (d : vdisk) : option nat := List.find (is_free d) (seq 0 NUM).

Lemma alloc_desc_eq s :
  alloc_desc s = match lowest_free (k_vd s) with
                 | Some i => Ret (Some i) (with_k_vd (take_desc i (k_vd s)) s)
                 | None => Ret None s
                 end.
Proof.
  unfold alloc_desc, lowest_free.
  assert (forall l, forl l (fun i (_ : unit) =>
    d <- getvd ;;
    if negb (vd_free d !!! i =? 0)
    then modvd (set_vd_free (<[i := 0]> (vd_free d))) ;; ret (inr i)
    else ret (inl tt)) tt s =
    match List.find (is_free (k_vd s)) l with
    | Some i => Ret (inr i) (with_k_vd (take_desc i (k_vd s)) s)
    | None => Ret (inl tt) s
    end) as E.
  { induction l as [|i l IH]; [done|]. cbn [List.find]. unfold is_free at 1. destruct (negb _) eqn:Ei.
    - apply forl_exit. kstep eq_refl. by rewrite Ei.
    - erewrite forl_next; [exact IH|]. kstep eq_refl. by rewrite Ei. }
  specialize (E (seq 0 NUM)). destruct (List.find _ _) as [i|]; by rewrite (bind_Ret _ _ _ _ _ E).
Qed.

Lemma lowest_free_some d i :
  lowest_free d = Some i -> (i < NUM)%nat /\ is_free d i = true.
Proof. intros E. apply List.find_some in E as [H1 H2]. apply List.in_seq in H1. split; [lia|done]. Qed.

Lemma lowest_free_none d i : lowest_free d = None -> (i < NUM)%nat -> is_free d i = false.
Proof. intros E Hi. apply (List.find_none _ _ E). apply List.in_seq. lia. Qed.

Section Descriptors.
Context (me : nat).
Implicit Types (s : kstate) (d : vdisk).

(** The state after [free_desc]. *)
Definition gave_desc (i : nat) s : kstate :=
  with_k_ps (woken ChDiskFree me (k_ps s)) (with_k_vd (clear_desc i (k_vd s)) s).

Lemma free_desc_eq i s :
  calm me (k_ps s) -> (i < NUM)%nat -> vd_free (k_vd s) !!! i = 0 -> free_desc i s = Ret tt (gave_desc i s).
Proof.
  intros Hc Hi H0. unfold free_desc. rewrite (proj2 (Nat.leb_gt NUM i)) by done. kstep eq_refl. rewrite H0.
  change (negb (0 =? 0)) with false. cbv iota.
  set (s1 := with_k_vd (clear_desc i (k_vd s)) s). kstep (eq_refl : _ = Ret tt s1).
  exact (kwakeup_calm me ChDiskFree s1 Hc).
Qed.

Lemma calm_gave i s : calm me (k_ps s) -> calm me (k_ps (gave_desc i s)).
Proof. apply calm_woken. Qed.

Lemma take_flag i j d : vdisk_ok d -> (i < NUM)%nat ->
  vd_free (take_desc i d) !!! j = if decide (i = j) then 0 else vd_free d !!! j.
Proof.
  intros H Hi. cbn. case_decide as E; [subst; apply list_lookup_total_insert_eq; by rewrite (vo_free _ H)|].
  by apply list_lookup_total_insert_ne.
Qed.

Lemma take_ok i d : vdisk_ok d -> (i < NUM)%nat -> vdisk_ok (take_desc i d).
Proof.
  intros H Hi. split; [cbn; rewrite length_insert; apply H|apply H|]. intros j Hj. rewrite (take_flag i j d H Hi).
  case_decide; [by left|by apply H].
Qed.

(** Taking a free descriptor and giving it back. *)
Lemma give_take d d' i :
  vdisk_ok d -> is_free d i = true -> vd_free d' = <[i := 0]> (vd_free d) -> (i < NUM)%nat ->
  vd_free (clear_desc i d') = vd_free d.
Proof.
  intros H Hf E Hi. cbn. rewrite E, list_insert_insert_eq. apply list_insert_id.
  rewrite (list_lookup_lookup_total_lt) by (rewrite (vo_free _ H); done). f_equal.
  unfold is_free in Hf. destruct (vo_flag _ H i Hi) as [E0|E1]; [by rewrite E0 in Hf|done].
Qed.

(** ** Taking three *)

Lemma none_but (l : list nat) d :
  (forall j, (j < NUM)%nat -> is_free d j = true -> j ∈ l) -> (length (List.filter (is_free d) (seq 0 NUM)) <= length l)%nat.
Proof.
  intros H. apply List.NoDup_incl_length; [apply List.NoDup_filter, List.seq_NoDup|].
  intros j Hj. apply List.filter_In in Hj as [Hj1 Hj2]. apply List.in_seq in Hj1.
  apply list_elem_of_In, H; [lia|done].
Qed.

Lemma still_free d i j : vdisk_ok d -> (i < NUM)%nat -> is_free (take_desc i d) j = true -> j <> i /\ is_free d j = true.
Proof.
  intros H Hi. unfold is_free. rewrite (take_flag i j d H Hi). case_decide as E; [done|]. by split; [congruence|].
Qed.

Lemma not_free d i j : vdisk_ok d -> (i < NUM)%nat -> is_free (take_desc i d) j = false -> is_free d j = true -> j = i.
Proof.
  intros H Hi. unfold is_free. rewrite (take_flag i j d H Hi). case_decide as E; [by subst|congruence].
Qed.

(** The body of the loop of [alloc3_desc]. *)
Definition alloc_next (_ : nat) (idx : list nat) : M kstate (list nat + unit) :=
  r <- alloc_desc ;;
  match r with
  | Some k => ret (inl (idx ++ [k]))
  | None => iterl idx free_desc ;; ret (inr tt)
  end.

Lemma alloc_next_some n idx s k : lowest_free (k_vd s) = Some k ->
  alloc_next n idx s = Ret (inl (idx ++ [k])) (with_k_vd (take_desc k (k_vd s)) s).
Proof. intros E. unfold alloc_next. pose proof (alloc_desc_eq s) as H. rewrite E in H. by kstep H. Qed.

Lemma alloc_next_none n idx s s' : lowest_free (k_vd s) = None -> iterl idx free_desc s = Ret tt s' ->
  alloc_next n idx s = Ret (inr tt) s'.
Proof. intros E E'. unfold alloc_next. pose proof (alloc_desc_eq s) as H. rewrite E in H. kstep H. cbv iota. by kstep E'. Qed.

(** Giving back the descriptors taken so far. *)
Lemma give_one s i :
  let s1 := with_k_vd (take_desc i (k_vd s)) s in
  calm me (k_ps s) -> vdisk_ok (k_vd s) -> (i < NUM)%nat -> is_free (k_vd s) i = true ->
  exists s', iterl [i] free_desc s1 = Ret tt s' /\ vd_free (k_vd s') = vd_free (k_vd s) /\ calm me (k_ps s').
Proof.
  intros s1 Hc Hok Hi Hf. exists (gave_desc i s1). cbn [iterl].
  assert (vd_free (k_vd s1) !!! i = 0) as E.
  { change (k_vd s1) with (take_desc i (k_vd s)). by rewrite (take_flag i i _ Hok Hi), decide_True. }
  kstep (free_desc_eq i s1 Hc Hi E). split; [done|]. split; [by apply give_take|by apply calm_gave].
Qed.

Lemma give_two s i j :
  let s2 := with_k_vd (take_desc j (take_desc i (k_vd s))) s in
  calm me (k_ps s) -> vdisk_ok (k_vd s) -> (i < NUM)%nat -> (j < NUM)%nat -> j <> i ->
  is_free (k_vd s) i = true -> is_free (k_vd s) j = true ->
  exists s', iterl [i; j] free_desc s2 = Ret tt s' /\ vd_free (k_vd s') = vd_free (k_vd s) /\ calm me (k_ps s').
Proof.
  intros s2 Hc Hok Hi Hj Hne Fi Fj. set (d := k_vd s) in *. pose proof (take_ok i d Hok Hi) as Ok1.
  exists (gave_desc j (gave_desc i s2)). cbn [iterl].
  assert (vd_free (k_vd s2) !!! i = 0) as Ei.
  { change (k_vd s2) with (take_desc j (take_desc i d)).
    by rewrite (take_flag j i _ Ok1 Hj), decide_False, (take_flag i i d Hok Hi), decide_True by done. }
  kstep (free_desc_eq i s2 Hc Hi Ei).
  assert (vd_free (clear_desc i (k_vd s2)) = <[j := 0]> (vd_free d)) as E.
  { cbn. rewrite (list_insert_insert_ne _ i j) by done.
    change (<[j := 0]> (vd_free (clear_desc i (take_desc i d))) = <[j := 0]> (vd_free d)). by rewrite (give_take d _ i). }
  assert (vd_free (k_vd (gave_desc i s2)) !!! j = 0) as Ej.
  { cbn [k_vd gave_desc with_k_ps with_k_vd]. rewrite E. apply list_lookup_total_insert_eq. by rewrite (vo_free _ Hok). }
  kstep (free_desc_eq j (gave_desc i s2) (calm_gave i s2 Hc) Hj Ej). split; [done|].
  split; [by apply (give_take d)|by apply calm_gave, calm_gave].
Qed.

Lemma alloc3_eq s :
  calm me (k_ps s) -> vdisk_ok (k_vd s) ->
  (exists i0 i1 i2 d', alloc3_desc s = Ret (Some [i0; i1; i2]) (with_k_vd d' s) /\
     d' = take_desc i2 (take_desc i1 (take_desc i0 (k_vd s))) /\
     NoDup [i0; i1; i2] /\
     forall i, i ∈ [i0; i1; i2] -> (i < NUM)%nat /\ is_free (k_vd s) i = true) \/
  (exists l s', alloc3_desc s = Ret None s' /\ (length l < 3)%nat /\
     (forall j, (j < NUM)%nat -> is_free (k_vd s) j = true -> j ∈ l) /\
     vd_free (k_vd s') = vd_free (k_vd s) /\ calm me (k_ps s')).
Proof.
  intros Hc Hok. set (d := k_vd s) in *. unfold alloc3_desc. change (fun _ idx => _) with alloc_next. cbn [seq].
  destruct (lowest_free d) as [i0|] eqn:F0; last first.
  { right. exists [], s. pose proof (alloc_next_none 0 [] s s F0 eq_refl) as E0.
    erewrite bind_Ret by by apply forl_exit. split; [done|]. split; [cbn; lia|]. split; [|done].
    intros j Hj Hf. by rewrite (lowest_free_none _ _ F0 Hj) in Hf. }
  destruct (lowest_free_some _ _ F0) as [H0 P0]. set (d1 := take_desc i0 d). set (s1 := with_k_vd d1 s).
  pose proof (take_ok i0 d Hok H0) as Ok1. fold d1 in Ok1.
  pose proof (alloc_next_some 0 [] s i0 F0) as E0. fold d d1 s1 in E0. cbn [app] in E0.
  destruct (lowest_free d1) as [i1|] eqn:F1; last first.
  { right. destruct (give_one s i0 Hc Hok H0 P0) as (s' & Eg & Ef & Hc').
    exists [i0], s'. rewrite (bind_Ret _ _ _ _ _ (eq_trans (forl_next _ _ _ _ _ _ _ E0)
      (forl_exit _ _ _ _ _ _ _ (alloc_next_none 1 [i0] s1 _ F1 Eg)))).
    split; [done|]. split; [cbn; lia|]. split; [|done]. intros j Hj Hf. apply list_elem_of_singleton.
    apply (not_free d i0 j Hok H0); [|done]. by apply (lowest_free_none _ _ F1). }
  destruct (lowest_free_some _ _ F1) as [H1 P1]. set (d2 := take_desc i1 d1). set (s2 := with_k_vd d2 s).
  pose proof (take_ok i1 d1 Ok1 H1) as Ok2. fold d2 in Ok2.
  destruct (still_free d i0 i1 Hok H0 P1) as [N1 Q1].
  pose proof (alloc_next_some 1 [i0] s1 i1 F1) as E1. change (with_k_vd _ s1) with s2 in E1. cbn [app] in E1.
  destruct (lowest_free d2) as [i2|] eqn:F2; last first.
  { right. destruct (give_two s i0 i1 Hc Hok H0 H1 N1 P0 Q1) as (s' & Eg & Ef & Hc').
    exists [i0; i1], s'. rewrite (bind_Ret _ _ _ _ _ (eq_trans (forl_next _ _ _ _ _ _ _ E0)
      (eq_trans (forl_next _ _ _ _ _ _ _ E1) (forl_exit _ _ _ _ _ _ _ (alloc_next_none 2 [i0; i1] s2 _ F2 Eg))))).
    split; [done|]. split; [cbn; lia|]. split; [|done]. intros j Hj Hf.
    apply elem_of_cons. destruct (is_free d1 j) eqn:Fj; [right|left; by apply (not_free d i0 j Hok H0)].
    apply list_elem_of_singleton. apply (not_free d1 i1 j Ok1 H1); [|done]. by apply (lowest_free_none _ _ F2). }
  destruct (lowest_free_some _ _ F2) as [H2 P2].
  destruct (still_free d1 i1 i2 Ok1 H1 P2) as [N2 P2']. destruct (still_free d i0 i2 Hok H0 P2') as [N3 Q2].
  pose proof (alloc_next_some 2 [i0; i1] s2 i2 F2) as E2. cbn [app] in E2.
  left. exists i0, i1, i2, (take_desc i2 d2). erewrite bind_Ret.
  2: { erewrite forl_next by exact E0. erewrite forl_next by exact E1. erewrite forl_next by exact E2. done. }
  split; [done|]. split; [done|]. split.
  - repeat (apply NoDup_cons; split; [rewrite ?elem_of_cons, elem_of_nil; naive_solver|]). apply NoDup_nil_2.
  - intros i Hi. repeat (apply elem_of_cons in Hi as [->|Hi]; [done|]). by apply not_elem_of_nil in Hi.
Qed.
(** ** Freeing the chain of a request *)

Definition links (d : vdisk) (i : nat) (next : option nat) : Prop :=
  match next with
  | Some j => Z.land (d_flags (vd_desc d !!! i)) VRING_DESC_F_NEXT <> 0 /\ d_next (vd_desc d !!! i) = Z.of_nat j
  | None => Z.land (d_flags (vd_desc d !!! i)) VRING_DESC_F_NEXT = 0
  end.

Lemma clear_flag i j d : vdisk_ok d -> (i < NUM)%nat ->
  vd_free (clear_desc i d) !!! j = if decide (i = j) then 1 else vd_free d !!! j.
Proof.
  intros H Hi. cbn. case_decide as E; [subst; apply list_lookup_total_insert_eq; by rewrite (vo_free _ H)|].
  by apply list_lookup_total_insert_ne.
Qed.

Lemma clear_ok i d : vdisk_ok d -> (i < NUM)%nat -> vdisk_ok (clear_desc i d).
Proof.
  intros H Hi. split; [cbn; rewrite length_insert; apply H|cbn; rewrite length_insert; apply H|].
  intros j Hj. rewrite (clear_flag i j d H Hi). case_decide; [by right|by apply H].
Qed.

Lemma links_clear i j next d : j <> i -> links d i next -> links (clear_desc j d) i next.
Proof. intros Hj. unfold links. cbn. by rewrite list_lookup_total_insert_ne. Qed.

(** Every descriptor of the chain [l] is taken, and linked to the next. *)
Fixpoint chain (d : vdisk) (l : list nat) : Prop :=
  match l with
  | [] => True
  | i :: l' => (i < NUM)%nat /\ vd_free d !!! i = 0 /\ links d i (head l') /\ chain d l'
  end.

Lemma chain_clear i l d : vdisk_ok d -> (i < NUM)%nat -> i ∉ l -> chain d l -> chain (clear_desc i d) l.
Proof.
  intros H Hi. induction l as [|j l IH]; [done|]. intros Hn (H1 & H2 & H3 & H4). apply not_elem_of_cons in Hn as [N1 N2].
  split; [done|]. split; [by rewrite (clear_flag i j d H Hi), decide_False|].
  split; [by apply links_clear|by apply IH].
Qed.

Definition free_next (i : nat) : M kstate (nat + unit) :=
  d <- getvd ;;
  let flag := d_flags (vd_desc d !!! i) in
  let nxt := Z.to_nat (d_next (vd_desc d !!! i)) in
  free_desc i ;;
  if negb (Z.land flag VRING_DESC_F_NEXT =? 0) then ret (inl nxt) else ret (inr tt).

Lemma free_chain_loop n i l s :
  calm me (k_ps s) -> vdisk_ok (k_vd s) -> NoDup (i :: l) -> chain (k_vd s) (i :: l) -> (length l < n)%nat ->
  exists s', loop n free_next i s = Ret tt s' /\ vdisk_ok (k_vd s') /\
    forall j, vd_free (k_vd s') !!! j = if bool_decide (j ∈ i :: l) then 1 else vd_free (k_vd s) !!! j.
Proof.
  revert i l s. induction n as [|n IH]; intros i l s Hc Hok Hd Hch Hn; [lia|].
  apply NoDup_cons in Hd as [Hi Hd]. destruct Hch as (H1 & H2 & H3 & H4).
  pose proof (clear_ok i (k_vd s) Hok H1) as Ok'.
  assert (free_next i s = Ret (match head l with Some j => inl j | None => inr tt end) (gave_desc i s)) as E.
  { unfold free_next. kstep eq_refl. kstep (free_desc_eq i s Hc H1 H2). destruct (head l) as [j|]; cbn [links] in H3.
    - destruct H3 as [A ->]. rewrite (proj2 (Z.eqb_neq _ 0)), Nat2Z.id by done. done.
    - by rewrite H3. }
  destruct l as [|j l]; cbn [head] in E.
  - exists (gave_desc i s). split; [by apply loop_exit|]. split; [done|].
    intros j. cbn [k_vd gave_desc with_k_ps with_k_vd]. rewrite (clear_flag i j _ Hok H1).
    case_decide as Ej; case_bool_decide as Em; try done; set_solver.
  - destruct (IH j l (gave_desc i s)) as (s' & E' & O' & F'); [by apply calm_gave|done|done|by apply chain_clear|cbn in *; lia|].
    exists s'. rewrite (loop_next _ _ _ _ _ _ E). split; [done|]. split; [done|].
    intros k. rewrite F'. cbn [k_vd gave_desc with_k_ps with_k_vd]. rewrite (clear_flag i k _ Hok H1).
    case_bool_decide; case_decide; case_bool_decide; try done; set_solver.
Qed.
End Descriptors.

(** The descriptors of a request, as [virtio_disk_rw] formats them. *)
Lemma format_chain write b sector i0 i1 i2 d :
  vdisk_ok d -> NoDup [i0; i1; i2] -> (i0 < NUM)%nat -> (i1 < NUM)%nat -> (i2 < NUM)%nat ->
  let d' := format_req write b sector i0 i1 i2 d in links d' i0 (Some i1) /\ links d' i1 (Some i2) /\ links d' i2 None.
Proof.
  intros H Hd H0 H1 H2 d'. rewrite !NoDup_cons, !elem_of_cons, elem_of_nil in Hd.
  assert (i0 <> i1 /\ i0 <> i2 /\ i1 <> i2) as (N1 & N2 & N3) by naive_solver.
  pose proof (vo_desc _ H) as Hl. unfold d', format_req, links. cbn.
  rewrite (list_lookup_total_insert_ne _ i2 i0), (list_lookup_total_insert_ne _ i1 i0), (list_lookup_total_insert_ne _ i2 i1) by done.
  rewrite !list_lookup_total_insert_eq by (rewrite ?length_insert, Hl; done). cbn.
  by destruct write.
Qed.

(** C15. The descriptors of the disk's queue are well-formed and none is lost
    or used twice.  [alloc3_desc] takes three distinct free ones, or, when
    fewer are free, leaves every one as it was; and once the request made of
    the three is done, whatever other requests did meanwhile, [free_chain]
    follows the links of the chain to its end and frees just these three. *)
Theorem disk_descriptors me s (Hc : calm me (k_ps s)) (Hok : vdisk_ok (k_vd s)) :
  (exists i0 i1 i2 s1, alloc3_desc s = Ret (Some [i0; i1; i2]) s1 /\ NoDup [i0; i1; i2] /\
     vdisk_ok (k_vd s1) /\
     (forall i, i ∈ [i0; i1; i2] -> (i < NUM)%nat /\ is_free (k_vd s) i = true) /\
     (forall j, vd_free (k_vd s1) !!! j =
        if bool_decide (j ∈ [i0; i1; i2]) then 0 else vd_free (k_vd s) !!! j) /\
     forall write b sector me2 s2, calm me2 (k_ps s2) -> vdisk_ok (k_vd s2) ->
       (forall i, i ∈ [i0; i1; i2] -> vd_free (k_vd s2) !!! i = 0 /\
          vd_desc (k_vd s2) !!! i = vd_desc (format_req write b sector i0 i1 i2 (k_vd s1)) !!! i) ->
       exists s3, free_chain i0 s2 = Ret tt s3 /\ vdisk_ok (k_vd s3) /\
         forall j, vd_free (k_vd s3) !!! j =
           if bool_decide (j ∈ [i0; i1; i2]) then 1 else vd_free (k_vd s2) !!! j) \/
  ((length (List.filter (is_free (k_vd s)) (seq 0 NUM)) < 3)%nat /\
   exists s1, alloc3_desc s = Ret None s1 /\ vd_free (k_vd s1) = vd_free (k_vd s)).
Proof.
  destruct (alloc3_eq me s Hc Hok) as [(i0 & i1 & i2 & d' & E & Ed & Hd & Hf)|(l & s' & E & Hl & Hf & Ef & _)].
  - left. exists i0, i1, i2, (with_k_vd d' s). split; [done|]. split; [done|].
    destruct (Hf i0) as [H0 _]; [set_solver|]. destruct (Hf i1) as [H1 _]; [set_solver|].
    destruct (Hf i2) as [H2 _]; [set_solver|].
    pose proof (take_ok i0 _ Hok H0) as O1. pose proof (take_ok i1 _ O1 H1) as O2.
    assert (vdisk_ok d') as O3 by (subst d'; by apply take_ok). split; [done|]. split; [done|]. split.
    + intros j. cbn [k_vd with_k_vd]. subst d'.
      rewrite (take_flag i2 j _ O2 H2), (take_flag i1 j _ O1 H1), (take_flag i0 j _ Hok H0).
      case_bool_decide as Hj; repeat case_decide; subst; try done; set_solver.
    + intros write b sector me2 s2 Hc2 Hok2 H. destruct (format_chain write b sector i0 i1 i2 d' O3 Hd H0 H1 H2) as (L0 & L1 & L2).
      apply (free_chain_loop me2 (S NUM) i0 [i1; i2] s2); [done..| |change NUM with 8%nat; cbn; lia].
      pose proof (H i0 ltac:(set_solver)) as [A0 B0]. pose proof (H i1 ltac:(set_solver)) as [A1 B1].
      pose proof (H i2 ltac:(set_solver)) as [A2 B2]. cbn [k_vd with_k_vd] in B0, B1, B2.
      unfold links in L0, L1, L2. cbn [chain head]. unfold links. rewrite B0, B1, B2. done.
  - right. split; [|by exists s']. pose proof (none_but l (k_vd s) Hf). lia.
Qed.

(** Descriptors 0 and 3 are in use. *)
Definition demo_vdisk : kstate :=
  with_k_vd (VDisk (0, 0, 0) (replicate NUM inhabitant) 0 (replicate NUM 0) 0 (replicate NUM 0)
    [0; 1; 1; 0; 1; 1; 1; 1] 0 (replicate NUM inhabitant) (replicate NUM inhabitant)) (demo_k 0).

Lemma disk_descriptors_witness :
  exists i0 i1 i2 s1, alloc3_desc demo_vdisk = Ret (Some [i0; i1; i2]) s1 /\ NoDup [i0; i1; i2].
Proof.
  destruct (disk_descriptors 1 demo_vdisk demo_calm) as [(i0 & i1 & i2 & s1 & E & Hd & _)|[H _]].
  - split; [reflexivity|reflexivity|]. intros i Hi. change NUM with 8%nat in Hi.
    do 8 (destruct i as [|i]; [by (left + right)|]). lia.
  - by exists i0, i1, i2, s1.
  - vm_compute in H. lia.
Defined.
