(* ===== verification/Trap.v ===== *)
(** kernel/trap.c, [forkret] of kernel/proc.c and kernel/main.c: how the
    kernel is entered, from user mode, from an interrupt and at boot.

    The code addresses the kernel stores in registers are those of [layout].
    The trampoline code that follows [usertrap] and [forkret] is not modelled:
    both return the value they pass to it. *)
From S2P Require Import Prelude Riscv Spinlock Memory Bytes Kstring Kalloc Vm Proc Sched Switch Sleeplock UserMem Kstate Bio Log Fs Dir Pipe Console File Life Exec Sysfile Syscall Virtio.

Definition trapinit : M kstate unit := lift (initlock TicksLock "time").

Definition trapinithart : M kstate unit :=
  m <- gets khw ;;
  lift (w_stvec (ld_kernelvec (m_ld m))).

Definition clockintr : M kstate unit :=
  c <- lift cpuid ;;
  when (c =? 0)%nat
    (kacq TicksLock ;;
     lift (modify (fun s => with_ticks (u32 (ps_ticks s + 1)) s)) ;;
     lift (wakeup ChTicks) ;;
     krel TicksLock) ;;
  t <- lift r_time ;;
  lift (w_stimecmp (u64 (t + 1000000))).

Definition INTR_EXTERNAL : Z := 0x8000000000000009.
Definition INTR_TIMER : Z := 0x8000000000000005.

Definition devintr : M kstate Z :=
  scause <- lift r_scause ;;
  if scause =? INTR_EXTERNAL then
    irq <- plic_claim ;;
    (if irq =? UART0_IRQ then uartintr
     else if irq =? VIRTIO0_IRQ then virtio_disk_intr
     else when (negb (irq =? 0)) (lift (printf "unexpected interrupt irq=%d\n" [irq]))) ;;
    when (negb (irq =? 0)) (plic_complete irq) ;;
    ret 1
  else if scause =? INTR_TIMER then clockintr ;; ret 2
  else ret 0.

Definition prepare_return : M kstate unit :=
  p <- lift curproc ;;
  lift intr_off ;;
  m <- gets khw ;;
  lift (w_stvec (u64 (TRAMPOLINE + (ld_uservec (m_ld m) - ld_trampoline (m_ld m))))) ;;
  q <- lift (getp p) ;;
  satp <- lift r_satp ;;
  lift (set_tf p TF_kernel_satp satp) ;;
  lift (set_tf p TF_kernel_sp (u64 (p_kstack q + PGSIZE))) ;;
  lift (set_tf p TF_kernel_trap (ld_usertrap (m_ld m))) ;;
  tp <- lift r_tp ;;
  lift (set_tf p TF_kernel_hartid (Z.of_nat tp)) ;;
  x <- lift r_sstatus ;;
  lift (w_sstatus (Z.lor (Z.land x (Z.lnot SSTATUS_SPP)) SSTATUS_SPIE)) ;;
  epc <- lift (get_tf p TF_epc) ;;
  lift (w_sepc epc).

Definition kerneltrap : M kstate unit :=
  sepc <- lift r_sepc ;;
  sstatus <- lift r_sstatus ;;
  scause <- lift r_scause ;;
  if Z.land sstatus SSTATUS_SPP =? 0 then panic "kerneltrap: not from supervisor mode" else
  i <- lift intr_get ;;
  if negb (i =? 0) then panic "kerneltrap: interrupts enabled" else
  which_dev <- devintr ;;
  if which_dev =? 0 then
    sepc' <- lift r_sepc ;;
    stval <- lift r_stval ;;
    lift (printf "scause=0x%lx sepc=0x%lx stval=0x%lx\n" [scause; sepc'; stval]) ;;
    panic "kerneltrap"
  else
  (if which_dev =? 2
   then me <- lift myproc ;; when (bool_decide (me <> None)) (lift yield)
   else ret tt) ;;
  lift (w_sepc sepc) ;;
  lift (w_sstatus sstatus).

Section Trap.
Context `{WaitBound} `{DiskDriver} `{StackBytes}.

(** What caused the trap is dealt with; the result is [which_dev]. *)
Definition handle_trap (p : nat) : M kstate Z :=
  cause <- lift r_scause ;;
  if cause =? 8 then
    k <- lift (killed p) ;;
    when (negb (k =? 0)) (kexit (-1)) ;;
    epc <- lift (get_tf p TF_epc) ;;
    lift (set_tf p TF_epc (u64 (epc + 4))) ;;
    lift intr_on ;;
    syscall ;;
    ret 0
  else
    which_dev <- devintr ;;
    if negb (which_dev =? 0) then ret which_dev else
    cause <- lift r_scause ;;
    stval <- lift r_stval ;;
    q <- lift (getp p) ;;
    r <- (if (cause =? 15) || (cause =? 13)
          then lift (vmfault (p_pagetable q) stval (if cause =? 13 then 1 else 0))
          else ret 0) ;;
    if negb (r =? 0) then ret 0 else
    sepc <- lift r_sepc ;;
    lift (printf "usertrap(): unexpected scause 0x%lx pid=%d\n" [cause; p_pid q]) ;;
    lift (printf "            sepc=0x%lx stval=0x%lx\n" [sepc; stval]) ;;
    lift (setkilled p) ;;
    ret 0.

Definition usertrap : M kstate Z :=
  st <- lift r_sstatus ;;
  if negb (Z.land st SSTATUS_SPP =? 0) then panic "usertrap: not from user mode" else
  m <- gets khw ;;
  lift (w_stvec (ld_kernelvec (m_ld m))) ;;
  p <- lift curproc ;;
  sepc <- lift r_sepc ;;
  lift (set_tf p TF_epc sepc) ;;
  which_dev <- handle_trap p ;;
  k <- lift (killed p) ;;
  when (negb (k =? 0)) (kexit (-1)) ;;
  when (which_dev =? 2)
    (q <- lift (getp p) ;;
     when (is_state RUNNING q)
       (kacq (ProcLock p) ;;
        lift (modp p (fun q => set_rtime (u64 (p_rtime q + 1)) q)) ;;
        krel (ProcLock p)) ;;
     lift yield) ;;
  prepare_return ;;
  q <- lift (getp p) ;;
  ret (MAKE_SATP (p_pagetable q)).

(** The string ["/init"]. *)
Definition INIT : list Z := [47; 105; 110; 105; 116].

Definition forkret : M kstate Z :=
  p <- lift curproc ;;
  krel (ProcLock p) ;;
  first <- gets k_first ;;
  when first
    (fsinit ROOTDEV ;;
     modify (with_k_first false) ;;
     r <- kexec INIT [INIT] ;;
     lift (set_tf p TF_a0 (u64 r)) ;;
     a0 <- lift (get_tf p TF_a0) ;;
     when (a0 =? u64 (-1)) (panic "exec")) ;;
  prepare_return ;;
  q <- lift (getp p) ;;
  ret (MAKE_SATP (p_pagetable q)).

(** The boot sequence of hart 0, up to [started = 1]. *)
Definition main_boot : M kstate unit :=
  consoleinit ;;
  lift (initlock PrLock "pr") ;;
  lift (printf "\n" []) ;;
  lift (printf "xv6 kernel is booting\n" []) ;;
  lift (printf "\n" []) ;;
  lift kinit ;;
  lift kvminit ;;
  lift kvminithart ;;
  lift procinit ;;
  trapinit ;;
  trapinithart ;;
  plicinit ;;
  plicinithart ;;
  binit ;;
  iinit ;;
  fileinit ;;
  virtio_disk_init ;;
  userinit.

(** The other harts, once [started] is set. *)
Definition main_other : M kstate unit :=
  c <- lift cpuid ;;
  lift (printf "hart %d starting\n" [Z.of_nat c]) ;;
  lift kvminithart ;;
  trapinithart ;;
  plicinithart.

Definition main (policy : sched_policy) (fuel rounds : nat) : M kstate Empty_set :=
  c <- lift cpuid ;;
  (if (c =? 0)%nat then main_boot else main_other) ;;
  lift (scheduler policy fuel rounds).
End Trap.
