(* ===== verification/Asm.v ===== *)
(** kernel/swtch.S, kernel/trampoline.S, kernel/kernelvec.S, kernel/entry.S and
    kernel/start.c: the code around the C kernel, on the registers of one hart.

    The instructions the assembly files use are [instr], with the meaning the
    RISC-V manuals give them; each routine is the list of its instructions.
    Loads and stores go through [tr], the translation of the hardware: physical
    address of a virtual one under a value of [satp].  [addr] gives the
    assembler's address of an instruction from its position in the file. *)
From Stdlib Require Import Sorted.
From S2P Require Import Prelude Riscv Spinlock Memory Kalloc Vm Proc.

Inductive reg :=
| ra | sp | gp | tp | t0 | t1 | t2 | s0 | s1 | a0 | a1 | a2 | a3 | a4 | a5 | a6 | a7
| s2 | s3 | s4 | s5 | s6 | s7 | s8 | s9 | s10 | s11 | t3 | t4 | t5 | t6.
#[export] Instance reg_eq_dec : EqDecision reg.
Proof. solve_decision. Defined.

Inductive csrname :=
| mhartid | mstatus | mepc | mie | mideleg | medeleg | mcounteren | menvcfg
| pmpaddr0 | pmpcfg0 | stimecmp | satp | sscratch | sstatus | sepc.
#[export] Instance csrname_eq_dec : EqDecision csrname.
Proof. solve_decision. Defined.

Inductive mode := User | Supervisor | Machine.

(** A hart: its registers, control registers, mode and program counter, and the
    memory. *)
Record hartstate := Hart {
  x : reg -> Z; csr : csrname -> Z; priv : mode; pc : Z; ram : gmap Z Z }.

Definition wreg (r : reg) (v : Z) (h : hartstate) : hartstate :=
  Hart (fun q => if decide (q = r) then v else x h q) (csr h) (priv h) (pc h) (ram h).
Definition wcsr (c : csrname) (v : Z) (h : hartstate) : hartstate :=
  Hart (x h) (fun d => if decide (d = c) then v else csr h d) (priv h) (pc h) (ram h).
Definition wram (m : gmap Z Z) (h : hartstate) : hartstate :=
  Hart (x h) (csr h) (priv h) (pc h) m.
Definition jump (a : Z) (h : hartstate) : hartstate :=
  Hart (x h) (csr h) (priv h) a (ram h).
Definition wpriv (m : mode) (h : hartstate) : hartstate :=
  Hart (x h) (csr h) m (pc h) (ram h).

Inductive instr :=
| sd (rs : reg) (off : Z) (rb : reg)
| ld (rd : reg) (off : Z) (rb : reg)
| csrw (c : csrname) (r : reg)
| csrr (r : reg) (c : csrname)
| li (r : reg) (v : Z)
| addi (rd rs : reg) (v : Z)
| add (rd rs1 rs2 : reg)
| mul (rd rs1 rs2 : reg)
| sfence_vma
| jalr (r : reg)
| call (target : Z)
| ret_
| sret.

(** The return from a trap: the mode of [SPP], the interrupt enable of [SPIE],
    at [sepc]. *)
Definition do_sret (h : hartstate) : hartstate :=
  let s := csr h sstatus in
  let s' := Z.lor (Z.land s (Z.lnot (Z.lor SSTATUS_SPP SSTATUS_SIE)))
              (Z.lor SSTATUS_SPIE (if Z.testbit s 5 then SSTATUS_SIE else 0)) in
  jump (csr h sepc) (wpriv (if Z.testbit s 8 then Supervisor else User) (wcsr sstatus s' h)).

Section Semantics.
Context (tr : Z -> Z -> Z) (addr : nat -> Z).

(** [n] is the position of the next instruction. *)
Definition exec1 (n : nat) (i : instr) (h : hartstate) : hartstate :=
  match i with
  | sd rs off rb => wram (wr64 (ram h) (tr (csr h satp) (u64 (x h rb + off))) (x h rs)) h
  | ld rd off rb => wreg rd (rd64 (ram h) (tr (csr h satp) (u64 (x h rb + off)))) h
  | csrw c r => wcsr c (x h r) h
  | csrr r c => wreg r (csr h c) h
  | li r v => wreg r v h
  | addi rd rs v => wreg rd (u64 (x h rs + v)) h
  | add rd rs1 rs2 => wreg rd (u64 (x h rs1 + x h rs2)) h
  | mul rd rs1 rs2 => wreg rd (u64 (x h rs1 * x h rs2)) h
  | sfence_vma => h
  | jalr r => jump (x h r) (wreg ra (addr n) h)
  | call target => jump target (wreg ra (addr n) h)
  | ret_ => jump (x h ra) h
  | sret => do_sret h
  end.

(** Straight-line code from position [n] on. *)
Fixpoint exec (n : nat) (code : list instr) (h : hartstate) : hartstate :=
  match code with
  | [] => h
  | i :: code' => exec (S n) code' (exec1 (S n) i h)
  end.
End Semantics.

(** * The routines *)

Definition swtch_code : list instr :=
  [ sd ra 0 a0; sd sp 8 a0; sd s0 16 a0; sd s1 24 a0; sd s2 32 a0; sd s3 40 a0;
    sd s4 48 a0; sd s5 56 a0; sd s6 64 a0; sd s7 72 a0; sd s8 80 a0; sd s9 88 a0;
    sd s10 96 a0; sd s11 104 a0;
    ld ra 0 a1; ld sp 8 a1; ld s0 16 a1; ld s1 24 a1; ld s2 32 a1; ld s3 40 a1;
    ld s4 48 a1; ld s5 56 a1; ld s6 64 a1; ld s7 72 a1; ld s8 80 a1; ld s9 88 a1;
    ld s10 96 a1; ld s11 104 a1;
    ret_ ].

Definition uservec : list instr :=
  [ csrw sscratch a0;
    li a0 TRAPFRAME;
    sd ra 40 a0; sd sp 48 a0; sd gp 56 a0; sd tp 64 a0; sd t0 72 a0; sd t1 80 a0;
    sd t2 88 a0; sd s0 96 a0; sd s1 104 a0; sd a1 120 a0; sd a2 128 a0; sd a3 136 a0;
    sd a4 144 a0; sd a5 152 a0; sd a6 160 a0; sd a7 168 a0; sd s2 176 a0; sd s3 184 a0;
    sd s4 192 a0; sd s5 200 a0; sd s6 208 a0; sd s7 216 a0; sd s8 224 a0; sd s9 232 a0;
    sd s10 240 a0; sd s11 248 a0; sd t3 256 a0; sd t4 264 a0; sd t5 272 a0; sd t6 280 a0;
    csrr t0 sscratch;
    sd t0 112 a0;
    ld sp 8 a0;
    ld tp 32 a0;
    ld t0 16 a0;
    ld t1 0 a0;
    sfence_vma;
    csrw satp t1;
    sfence_vma;
    jalr t0 ].

Definition userret : list instr :=
  [ sfence_vma;
    csrw satp a0;
    sfence_vma;
    li a0 TRAPFRAME;
    ld ra 40 a0; ld sp 48 a0; ld gp 56 a0; ld tp 64 a0; ld t0 72 a0; ld t1 80 a0;
    ld t2 88 a0; ld s0 96 a0; ld s1 104 a0; ld a1 120 a0; ld a2 128 a0; ld a3 136 a0;
    ld a4 144 a0; ld a5 152 a0; ld a6 160 a0; ld a7 168 a0; ld s2 176 a0; ld s3 184 a0;
    ld s4 192 a0; ld s5 200 a0; ld s6 208 a0; ld s7 216 a0; ld s8 224 a0; ld s9 232 a0;
    ld s10 240 a0; ld s11 248 a0; ld t3 256 a0; ld t4 264 a0; ld t5 272 a0; ld t6 280 a0;
    ld a0 112 a0;
    sret ].

(** [kernelvec] up to the call of [kerneltrap], and after it. *)
Definition kernelvec_save (kerneltrap : Z) : list instr :=
  [ addi sp sp (-256);
    sd ra 0 sp; sd gp 16 sp; sd tp 24 sp; sd t0 32 sp; sd t1 40 sp; sd t2 48 sp;
    sd a0 72 sp; sd a1 80 sp; sd a2 88 sp; sd a3 96 sp; sd a4 104 sp; sd a5 112 sp;
    sd a6 120 sp; sd a7 128 sp; sd t3 216 sp; sd t4 224 sp; sd t5 232 sp; sd t6 240 sp;
    call kerneltrap ].
Definition kernelvec_restore : list instr :=
  [ ld ra 0 sp; ld gp 16 sp; ld t0 32 sp; ld t1 40 sp; ld t2 48 sp;
    ld a0 72 sp; ld a1 80 sp; ld a2 88 sp; ld a3 96 sp; ld a4 104 sp; ld a5 112 sp;
    ld a6 120 sp; ld a7 128 sp; ld t3 216 sp; ld t4 224 sp; ld t5 232 sp; ld t6 240 sp;
    addi sp sp 256;
    sret ].

(** [stack0] and [start] are addresses of the linker. *)
Definition entry_code (stack0 start : Z) : list instr :=
  [ li sp stack0;
    li a0 (1024 * 4);
    csrr a1 mhartid;
    addi a1 a1 1;
    mul a0 a0 a1;
    add sp sp a0;
    call start ].

(** * start.c *)

Definition MSTATUS_MPP_MASK : Z := Z.shiftl 3 11.
Definition MSTATUS_MPP_S : Z := Z.shiftl 1 11.
Definition SIE_SEIE : Z := Z.shiftl 1 9.
Definition SIE_STIE : Z := Z.shiftl 1 5.
Definition MIE_STIE : Z := Z.shiftl 1 5.

(** The accessors of riscv.h. *)
Definition r_mhartid (h : hartstate) : Z := csr h mhartid.
Definition r_mstatus (h : hartstate) : Z := csr h mstatus.
Definition w_mstatus (v : Z) (h : hartstate) : hartstate := wcsr mstatus v h.
Definition w_mepc (v : Z) (h : hartstate) : hartstate := wcsr mepc v h.
Definition r_mie (h : hartstate) : Z := csr h mie.
Definition w_mie (v : Z) (h : hartstate) : hartstate := wcsr mie v h.
Definition w_medeleg (v : Z) (h : hartstate) : hartstate := wcsr medeleg v h.
Definition r_menvcfg (h : hartstate) : Z := csr h menvcfg.
Definition w_menvcfg (v : Z) (h : hartstate) : hartstate := wcsr menvcfg v h.
Definition w_pmpcfg0 (v : Z) (h : hartstate) : hartstate := wcsr pmpcfg0 v h.
Definition w_pmpaddr0 (v : Z) (h : hartstate) : hartstate := wcsr pmpaddr0 v h.
Definition r_mcounteren (h : hartstate) : Z := csr h mcounteren.
Definition w_mcounteren (v : Z) (h : hartstate) : hartstate := wcsr mcounteren v h.
Definition w_tp (v : Z) (h : hartstate) : hartstate := wreg tp v h.
(** [sie] is the part of [mie] whose interrupts are delegated. *)
Definition r_sie (h : hartstate) : Z := Z.land (csr h mie) (csr h mideleg).
Definition w_sie (v : Z) (h : hartstate) : hartstate :=
  wcsr mie (Z.lor (Z.land (csr h mie) (Z.lnot (csr h mideleg)))
                  (Z.land v (csr h mideleg))) h.
(** [delegable]: the bits of [mideleg] the hart implements. *)
Definition w_mideleg (delegable v : Z) (h : hartstate) : hartstate :=
  wcsr mideleg (Z.land v delegable) h.

(** [mret]: to the mode in [MPP], at [mepc]. *)
Definition mret (h : hartstate) : hartstate :=
  let s := csr h mstatus in
  let mpp := Z.land (Z.shiftr s 11) 3 in
  let s' := Z.lor (Z.land s (Z.lnot (Z.lor MSTATUS_MPP_MASK 0x8)))
              (Z.lor 0x80 (if Z.testbit s 7 then 0x8 else 0)) in
  jump (csr h mepc)
    (wpriv (if mpp =? 3 then Machine else if mpp =? 1 then Supervisor else User)
       (wcsr mstatus s' h)).

Definition timerinit (time : Z) (h : hartstate) : hartstate :=
  let h := w_mie (Z.lor (r_mie h) MIE_STIE) h in
  let h := w_menvcfg (Z.lor (r_menvcfg h) (Z.shiftl 1 63)) h in
  let h := w_mcounteren (Z.lor (r_mcounteren h) 2) h in
  wcsr stimecmp (u64 (time + 1000000)) h.

(** [main] is an address of the linker; [time] the clock's value when it is
    read. *)
Definition start (main time delegable : Z) (h : hartstate) : hartstate :=
  let v := r_mstatus h in
  let v := Z.land v (Z.lnot MSTATUS_MPP_MASK) in
  let v := Z.lor v MSTATUS_MPP_S in
  let h := w_mstatus v h in
  let h := w_mepc main h in
  let h := wcsr satp 0 h in
  let h := w_medeleg 0xffff h in
  let h := w_mideleg delegable 0xffff h in
  let h := w_sie (Z.lor (Z.lor (r_sie h) SIE_SEIE) SIE_STIE) h in
  let h := w_pmpaddr0 0x3fffffffffffff h in
  let h := w_pmpcfg0 0xf h in
  let h := timerinit time h in
  let id := s32 (r_mhartid h) in
  let h := w_tp (u64 id) h in
  mret h.

(** * Blocks of saves and restores *)

Definition saves (rb : reg) (l : list (reg * Z)) : list instr := (fun '(r, o) => sd r o rb) <$> l.
Definition restores (rb : reg) (l : list (reg * Z)) : list instr := (fun '(r, o) => ld r o rb) <$> l.

(** The slots of a block follow each other. *)
Definition spaced (l : list (reg * Z)) : Prop := StronglySorted (fun p q => p.2 + 8 <= q.2) l.

(** [l] with its values stored at [base]. *)
Definition saved (base : Z) (f : reg -> Z) (l : list (reg * Z)) (m : gmap Z Z) : gmap Z Z :=
  foldl (fun m '(r, o) => wr64 m (base + o) (f r)) m l.

Lemma saved_other base f l m a :
  (forall o, o ∈ l.*2 -> base + o + 8 <= a \/ a + 8 <= base + o) ->
  rd64 (saved base f l m) a = rd64 m a.
Proof.
  revert m. induction l as [|[r o] l IH]; intros m Ha; [done|]. unfold saved. cbn [foldl].
  fold (saved base f l (wr64 m (base + o) (f r))).
  rewrite IH; [|intros o' Ho; apply Ha; cbn; set_solver].
  apply rd64_wr64_ne, Ha. cbn. set_solver.
Qed.

Lemma saved_byte base f l m a :
  (forall o, o ∈ l.*2 -> base + o + 8 <= a \/ a < base + o) ->
  rd8 (saved base f l m) a = rd8 m a.
Proof.
  revert m. induction l as [|[r o] l IH]; intros m Ha; [done|]. unfold saved. cbn [foldl].
  fold (saved base f l (wr64 m (base + o) (f r))).
  rewrite IH; [|intros o' Ho; apply Ha; cbn; set_solver].
  specialize (Ha o ltac:(cbn; set_solver)). by rewrite rd8_wr64_ne by lia.
Qed.

Lemma saved_at base f l m r o :
  spaced l -> (forall q, 0 <= f q < 2 ^ 64) -> (r, o) ∈ l ->
  rd64 (saved base f l m) (base + o) = f r.
Proof.
  intros Hs Hf. revert m. induction Hs as [|[r' o'] l Hs IH Hle]; intros m Hin; [set_solver|].
  unfold saved. cbn [foldl]. fold (saved base f l (wr64 m (base + o') (f r'))).
  apply elem_of_cons in Hin as [[= -> ->]|Hin]; [|by apply IH].
  rewrite saved_other; [by apply rd64_wr64_eq|]. intros o2 Ho2. right.
  apply list_elem_of_fmap in Ho2 as ([q o3] & -> & Hq).
  rewrite Forall_forall in Hle. specialize (Hle _ Hq). cbn in *. lia.
Qed.

Section Blocks.
Context (tr : Z -> Z -> Z) (addr : nat -> Z).
Implicit Types (h : hartstate) (l : list (reg * Z)).

Lemma exec_app n c1 c2 h :
  exec tr addr n (c1 ++ c2) h = exec tr addr (n + length c1) c2 (exec tr addr n c1 h).
Proof.
  revert n h. induction c1 as [|i c1 IH]; intros n h; cbn [exec app length].
  - by rewrite Nat.add_0_r.
  - rewrite IH. by rewrite Nat.add_succ_r.
Qed.

Lemma exec_saves n rb l base h :
  (forall o, o ∈ l.*2 -> tr (csr h satp) (u64 (x h rb + o)) = base + o) ->
  exec tr addr n (saves rb l) h = wram (saved base (x h) l (ram h)) h.
Proof.
  revert n h. induction l as [|[r o] l IH]; intros n h Ht; cbn [saves fmap list_fmap exec exec1].
  - by destruct h.
  - rewrite (Ht o) by (cbn; set_solver). rewrite IH; [done|].
    intros o' Ho. apply Ht. cbn. set_solver.
Qed.

(** The state after a block of loads: only the registers of the block change. *)
Record restored (base : Z) (l : list (reg * Z)) (h h' : hartstate) : Prop := {
  rs_in : forall r o, (r, o) ∈ l -> x h' r = rd64 (ram h) (base + o);
  rs_out : forall r, r ∉ l.*1 -> x h' r = x h r;
  rs_csr : csr h' = csr h;
  rs_priv : priv h' = priv h;
  rs_pc : pc h' = pc h;
  rs_ram : ram h' = ram h }.

Lemma exec_restores n rb l base h :
  rb ∉ l.*1 -> NoDup l.*1 ->
  (forall o, o ∈ l.*2 -> tr (csr h satp) (u64 (x h rb + o)) = base + o) ->
  restored base l h (exec tr addr n (restores rb l) h).
Proof.
  revert n h. induction l as [|[r o] l IH]; intros n h Hb Hd Ht.
  - split; try done. set_solver.
  - cbn [restores fmap list_fmap exec exec1 fst snd] in *.
    apply NoDup_cons in Hd as [Hr Hd]. rewrite (Ht o) by set_solver.
    set (h1 := wreg r _ h).
    assert (forall q, q <> r -> x h1 q = x h q) as Hq
      by (intros q Hq; cbn; by rewrite decide_False).
    destruct (IH (S n) h1) as [H1 H2 H3 H4 H5 H6]; [set_solver|done| |].
    { intros o' Ho. rewrite Hq by set_solver. apply Ht. set_solver. }
    split; [| |done..].
    + intros q o' [[= -> ->]|Hin]%elem_of_cons; [|by apply H1].
      change (restores rb l) with ((fun '(r, o) => ld r o rb) <$> l) in H2.
      rewrite H2 by done. cbn. by rewrite decide_True.
    + intros q [Hne Hout]%not_elem_of_cons.
      change (restores rb l) with ((fun '(r, o) => ld r o rb) <$> l) in H2.
      rewrite H2 by done. by apply Hq.
Qed.
End Blocks.

(** * The context switch *)

(** The registers of [struct context] and their offsets. *)
Definition ctx_regs : list (reg * Z) :=
  [ (ra, 0); (sp, 8); (s0, 16); (s1, 24); (s2, 32); (s3, 40); (s4, 48); (s5, 56);
    (s6, 64); (s7, 72); (s8, 80); (s9, 88); (s10, 96); (s11, 104) ].

(** The registers of [struct trapframe] but [a0]. *)
Definition tf_regs : list (reg * Z) :=
  [ (ra, 40); (sp, 48); (gp, 56); (tp, 64); (t0, 72); (t1, 80); (t2, 88); (s0, 96);
    (s1, 104); (a1, 120); (a2, 128); (a3, 136); (a4, 144); (a5, 152); (a6, 160);
    (a7, 168); (s2, 176); (s3, 184); (s4, 192); (s5, 200); (s6, 208); (s7, 216);
    (s8, 224); (s9, 232); (s10, 240); (s11, 248); (t3, 256); (t4, 264); (t5, 272);
    (t6, 280) ].

Definition tf_field (r : reg) : trapframe :=
  match r with
  | ra => TF_ra | sp => TF_sp | gp => TF_gp | tp => TF_tp | t0 => TF_t0 | t1 => TF_t1
  | t2 => TF_t2 | s0 => TF_s0 | s1 => TF_s1 | a0 => TF_a0 | a1 => TF_a1 | a2 => TF_a2
  | a3 => TF_a3 | a4 => TF_a4 | a5 => TF_a5 | a6 => TF_a6 | a7 => TF_a7 | s2 => TF_s2
  | s3 => TF_s3 | s4 => TF_s4 | s5 => TF_s5 | s6 => TF_s6 | s7 => TF_s7 | s8 => TF_s8
  | s9 => TF_s9 | s10 => TF_s10 | s11 => TF_s11 | t3 => TF_t3 | t4 => TF_t4
  | t5 => TF_t5 | t6 => TF_t6
  end.

(** The registers [kernelvec] gives back and their offsets on the stack. *)
Definition vec_regs : list (reg * Z) :=
  [ (ra, 0); (gp, 16); (t0, 32); (t1, 40); (t2, 48); (a0, 72); (a1, 80); (a2, 88);
    (a3, 96); (a4, 104); (a5, 112); (a6, 120); (a7, 128); (t3, 216); (t4, 224);
    (t5, 232); (t6, 240) ].
Definition vec_saved : list (reg * Z) :=
  [ (ra, 0); (gp, 16); (tp, 24); (t0, 32); (t1, 40); (t2, 48); (a0, 72); (a1, 80);
    (a2, 88); (a3, 96); (a4, 104); (a5, 112); (a6, 120); (a7, 128); (t3, 216);
    (t4, 224); (t5, 232); (t6, 240) ].

(** Registers the calling convention makes a C function preserve. *)
Definition callee_saved : list reg :=
  [sp; s0; s1; s2; s3; s4; s5; s6; s7; s8; s9; s10; s11].

(** [n] bytes at virtual address [a] are at physical address [p]. *)
Definition maps (tr : Z -> Z -> Z) (s a p n : Z) : Prop :=
  forall o, 0 <= o < n -> tr s (u64 (a + o)) = p + o.

Definition words (h : hartstate) : Prop := forall r, 0 <= x h r < 2 ^ 64.

Lemma spaced_sorted l : Sorted (fun p q => p.2 + 8 <= q.2) l -> spaced l.
Proof. apply Sorted_StronglySorted. intros p q r. lia. Qed.

Lemma ctx_spaced : spaced ctx_regs.
Proof. apply spaced_sorted. repeat constructor; cbn; lia. Qed.
Lemma tf_spaced : spaced tf_regs.
Proof. apply spaced_sorted. repeat constructor; cbn; lia. Qed.
Lemma vec_spaced : spaced vec_saved.
Proof. apply spaced_sorted. repeat constructor; cbn; lia. Qed.

(** [regs]: decide the comparisons of the names of registers. *)
Ltac regs :=
  repeat match goal with
  | |- context [decide (?a = ?b)] =>
      first [rewrite (decide_False (P := a = b)) by discriminate
            |rewrite (decide_True (P := a = b)) by reflexivity]
  end.

(** [bydec]: decide a closed goal by evaluation. *)
Ltac bydec := apply (bool_decide_unpack _); vm_compute; exact I.

Lemma offsets_in lo hi l o :
  forallb (fun p => (lo <=? p) && (p <=? hi)) l.*2 = true -> o ∈ (l : list (reg * Z)).*2 ->
  lo <= o <= hi.
Proof.
  intros H Ho. rewrite forallb_forall in H. apply list_elem_of_In in Ho.
  specialize (H o Ho). lia.
Qed.

(** What [swtch] loads, when the two contexts do not overlap. *)
Lemma saved_apart old new f m o :
  old + 112 <= new \/ new + 112 <= old -> 0 <= o <= 104 ->
  rd64 (saved old f ctx_regs m) (new + o) = rd64 m (new + o).
Proof.
  intros Hd Ho. apply saved_other. intros o' Hin. apply (offsets_in 0 104) in Hin; [lia|done].
Qed.

Section Switch.
Context (tr : Z -> Z -> Z) (addr : nat -> Z).

Lemma swtch_run old new h :
  x h a0 = old -> x h a1 = new ->
  maps tr (csr h satp) old old 112 -> maps tr (csr h satp) new new 112 ->
  let m := saved old (x h) ctx_regs (ram h) in
  let h1 := exec tr addr 0 swtch_code h in
  (forall r o, (r, o) ∈ ctx_regs -> x h1 r = rd64 m (new + o)) /\
  (forall r, r ∉ ctx_regs.*1 -> x h1 r = x h r) /\
  pc h1 = rd64 m new /\ ram h1 = m /\ csr h1 = csr h /\ priv h1 = priv h.
Proof.
  intros Ho Hn Mo Mn m h1. unfold h1.
  change swtch_code with (saves a0 ctx_regs ++ restores a1 ctx_regs ++ [ret_]).
  rewrite !exec_app. cbn [exec exec1].
  rewrite (exec_saves tr addr _ _ _ old).
  2: { intros o Hin. apply (offsets_in 0 104) in Hin; [|done]. rewrite Ho. apply Mo. lia. }
  set (h2 := wram _ h). edestruct (exec_restores tr addr (0 + length (saves a0 ctx_regs)) a1 ctx_regs new h2)
    as [R1 R2 R3 R4 R5 R6]; [bydec|bydec| |].
  { intros o Hin. apply (offsets_in 0 104) in Hin; [|done]. cbn. rewrite Hn. apply Mn. lia. }
  set (h3 := exec tr addr _ (restores a1 ctx_regs) h2) in *.
  cbn [x pc jump csr priv ram]. split; [exact R1|]. split; [exact R2|].
  split; [rewrite (R1 ra 0) by bydec; by rewrite Z.add_0_r|]. split; [exact R6|]. split; [exact R3|exact R4].
Qed.

Lemma swtch_loads old new h :
  x h a0 = old -> x h a1 = new ->
  maps tr (csr h satp) old old 112 -> maps tr (csr h satp) new new 112 ->
  old + 112 <= new \/ new + 112 <= old ->
  let h1 := exec tr addr 0 swtch_code h in
  (forall r o, (r, o) ∈ ctx_regs -> x h1 r = rd64 (ram h) (new + o)) /\
  pc h1 = rd64 (ram h) new.
Proof.
  intros Ho Hn Mo Mn Hd. destruct (swtch_run old new h Ho Hn Mo Mn) as (R & _ & P & _).
  split.
  - intros r o Hin. rewrite (R r o Hin). apply saved_apart; [done|].
    apply (offsets_in 0 104 ctx_regs); [done|]. apply list_elem_of_fmap. by exists (r, o).
  - rewrite P, <- (Z.add_0_r new). by apply saved_apart.
Qed.
End Switch.

(** C23. [swtch(old, new)] stores the return address, the stack pointer and the
    callee-saved registers in [old], nothing else in memory, and continues
    where the thread of [new] left off, with that thread's registers.  A later
    [swtch] to [old], from any thread and hart, gives back every register
    saved and continues at the caller's return address. *)
Theorem swtch_resumes tr addr h old new
  (Ho : x h a0 = old) (Hn : x h a1 = new)
  (Mo : maps tr (csr h satp) old old 112) (Mn : maps tr (csr h satp) new new 112)
  (Hd : old + 112 <= new \/ new + 112 <= old) (Hw : words h) :
  let h1 := exec tr addr 0 swtch_code h in
  (forall r o, (r, o) ∈ ctx_regs -> x h1 r = rd64 (ram h) (new + o)) /\
  pc h1 = rd64 (ram h) new /\
  (forall a, a < old \/ old + 112 <= a -> rd8 (ram h1) a = rd8 (ram h) a) /\
  forall h2 prev, x h2 a0 = prev -> x h2 a1 = old ->
    maps tr (csr h2 satp) prev prev 112 -> maps tr (csr h2 satp) old old 112 ->
    prev + 112 <= old \/ old + 112 <= prev ->
    (forall a, old <= a < old + 112 -> rd8 (ram h2) a = rd8 (ram h1) a) ->
    let h3 := exec tr addr 0 swtch_code h2 in
    (forall r, r ∈ ctx_regs.*1 -> x h3 r = x h r) /\ pc h3 = x h ra.
Proof.
  intros h1. destruct (swtch_loads tr addr old new h Ho Hn Mo Mn Hd) as [L1 L2]. fold h1 in L1, L2.
  split; [done|]. split; [done|].
  destruct (swtch_run tr addr old new h Ho Hn Mo Mn) as (_ & _ & _ & Er & _). fold h1 in Er.
  split. { intros a Ha. rewrite Er. apply saved_byte. intros o Hin.
    apply (offsets_in 0 104) in Hin; [lia|done]. }
  intros h2 prev H0 H1 Mp Mo2 Hd2 Hram h3.
  destruct (swtch_loads tr addr prev old h2 H0 H1 Mp Mo2 Hd2) as [K1 K2]. fold h3 in K1, K2.
  assert (forall r o, (r, o) ∈ ctx_regs -> rd64 (ram h2) (old + o) = x h r) as S.
  { intros r o Hin. rewrite <- (saved_at old (x h) ctx_regs (ram h) r o ctx_spaced Hw Hin), <- Er.
    apply rd64_ext. intros y Hy. apply Hram.
    assert (0 <= o <= 104); [|lia]. apply (offsets_in 0 104 ctx_regs); [done|].
    apply list_elem_of_fmap. by exists (r, o). }
  split.
  - intros r Hr. apply list_elem_of_fmap in Hr as ([r' o] & -> & Hin). cbn [fst].
    rewrite (K1 r' o Hin). by apply S.
  - rewrite K2, <- (Z.add_0_r old). apply S. bydec.
Qed.

(** * The trampoline *)

(** What [uservec] leaves in memory. *)
Definition frame (tf : Z) (f : reg -> Z) (m : gmap Z Z) : gmap Z Z :=
  wr64 (saved tf f tf_regs m) (tf + 112) (f a0).

Lemma frame_field tf f m r :
  (forall q, 0 <= f q < 2 ^ 64) -> rd64 (frame tf f m) (tf + tf_off (tf_field r)) = f r.
Proof.
  intros Hf. unfold frame. destruct (decide (r = a0)) as [->|Hr]; [by apply rd64_wr64_eq|].
  rewrite rd64_wr64_ne
    by (unfold tf_off; destruct r; cbn [tf_field tf_index]; congruence || lia).
  apply saved_at; [apply tf_spaced|done|]. destruct r; done || bydec.
Qed.

Lemma frame_low tf f m o : 0 <= o <= 32 -> rd64 (frame tf f m) (tf + o) = rd64 m (tf + o).
Proof.
  intros Ho. unfold frame. rewrite rd64_wr64_ne by lia. apply saved_other.
  intros o' Hin. apply (offsets_in 40 280) in Hin; [lia|done].
Qed.

Lemma frame_byte tf f m a :
  a < tf + 40 \/ tf + 288 <= a -> rd8 (frame tf f m) a = rd8 m a.
Proof.
  intros Ha. unfold frame. rewrite rd8_wr64_ne by lia. apply saved_byte.
  intros o Hin. apply (offsets_in 40 280) in Hin; [lia|done].
Qed.

Lemma saved_ext base f g l m :
  (forall r, r ∈ l.*1 -> f r = g r) -> saved base f l m = saved base g l m.
Proof.
  revert m. induction l as [|[r o] l IH]; intros m H; [done|]. unfold saved. cbn [foldl].
  rewrite (H r) by (cbn; set_solver). apply IH. intros q Hq. apply H. cbn. set_solver.
Qed.

Section Trampoline.
Context (tr : Z -> Z -> Z) (addr : nat -> Z) (tf usatp : Z).
Context (Htr : maps tr usatp TRAPFRAME tf PGSIZE).

(** [uservec] enters the kernel with the registers the trapframe has for it. *)
Lemma uservec_run h :
  csr h satp = usatp ->
  let m := frame tf (x h) (ram h) in
  let h1 := exec tr addr 0 uservec h in
  ram h1 = m /\ pc h1 = rd64 m (tf + 16) /\ csr h1 satp = rd64 m (tf + 0) /\
  x h1 sp = rd64 m (tf + 8) /\ x h1 tp = rd64 m (tf + 32) /\
  x h1 ra = addr (length uservec) /\ priv h1 = priv h.
Proof using Htr.
  intros Hs m h1. unfold h1.
  change uservec with ([csrw sscratch a0; li a0 TRAPFRAME] ++ saves a0 tf_regs ++
    [csrr t0 sscratch; sd t0 112 a0; ld sp 8 a0; ld tp 32 a0; ld t0 16 a0; ld t1 0 a0;
     sfence_vma; csrw satp t1; sfence_vma; jalr t0]).
  rewrite !exec_app. set (h0 := exec tr addr 0 [csrw sscratch a0; li a0 TRAPFRAME] h).
  assert (csr h0 satp = usatp) as Hs0 by exact Hs.
  assert (forall o, 0 <= o < PGSIZE -> tr usatp (u64 (TRAPFRAME + o)) = tf + o) as Ht by exact Htr.
  rewrite (exec_saves tr addr _ a0 tf_regs tf).
  2: { intros o Hin. apply (offsets_in 40 280) in Hin; [|done]. rewrite Hs0.
       apply Ht. unfold PGSIZE. lia. }
  set (m0 := saved tf (x h0) tf_regs (ram h0)).
  assert (m0 = saved tf (x h) tf_regs (ram h)) as Em.
  { apply saved_ext. intros r Hr. cbn. rewrite decide_False; [done|]. intros ->.
    revert Hr. bydec. }
  cbn [exec exec1 x csr ram wram wreg wcsr jump pc priv decide].
  assert (x h0 a0 = TRAPFRAME) as Ha by done.
  assert (csr h0 sscratch = x h a0) as Hsc by done.
  regs.
  rewrite Ha, Hs0, Hsc.
  rewrite !Ht by (unfold PGSIZE; lia). rewrite Em. done.
Qed.

(** [userret] loads every register from the trapframe. *)
Lemma userret_run n h :
  x h a0 = usatp ->
  let h1 := exec tr addr n userret h in
  (forall r, x h1 r = rd64 (ram h) (tf + tf_off (tf_field r))) /\
  csr h1 satp = usatp /\ pc h1 = csr h sepc /\ ram h1 = ram h /\
  priv h1 = (if Z.testbit (csr h sstatus) 8 then Supervisor else User) /\
  csr h1 sstatus = csr (do_sret h) sstatus.
Proof using Htr.
  intros Ha h1. unfold h1.
  change userret with ([sfence_vma; csrw satp a0; sfence_vma; li a0 TRAPFRAME] ++
    restores a0 tf_regs ++ [ld a0 112 a0; sret]).
  rewrite !exec_app. set (h0 := exec tr addr n [_; _; _; _] h).
  assert (csr h0 satp = usatp) as Hs0 by exact Ha.
  assert (forall o, 0 <= o < PGSIZE -> tr usatp (u64 (TRAPFRAME + o)) = tf + o) as Ht by exact Htr.
  destruct (exec_restores tr addr (n + length [sfence_vma; csrw satp a0; sfence_vma; li a0 TRAPFRAME])
    a0 tf_regs tf h0) as [R1 R2 R3 R4 R5 R6]; [bydec|bydec| |].
  { intros o Hin. apply (offsets_in 40 280) in Hin; [|done]. rewrite Hs0. apply Ht. unfold PGSIZE. lia. }
  set (h2 := exec tr addr _ (restores a0 tf_regs) h0) in *.
  cbn [exec exec1 do_sret x csr ram wreg wcsr wpriv jump pc priv].
  rewrite R3, R6, (R2 a0) by bydec. change (x h0 a0) with TRAPFRAME. rewrite Hs0, Ht by (unfold PGSIZE; lia).
  split.
  - intros r. case_decide as Er; [by subst|]. apply R1. destruct r; done || bydec.
  - regs. done.
Qed.
End Trampoline.

(** C22. A trap from user mode and the return from it are invisible to the user
    program.  [uservec] saves all 31 registers in the fields [struct trapframe]
    has for them, writes nothing else, and calls [usertrap] on the kernel's
    stack, hart id and page table, all from the trapframe; its return address
    is [userret].  As long as the kernel leaves the fields alone, [userret]
    gives the user program back the register it had, in user mode and with
    interrupts enabled when [sstatus] is what [prepare_return] sets. *)
Theorem trap_roundtrip tr addr tf usatp h
  (Htr : maps tr usatp TRAPFRAME tf PGSIZE) (Hs : csr h satp = usatp) (Hw : words h) :
  let h1 := exec tr addr 0 uservec h in
  let field m f := rd64 m (tf + tf_off f) in
  (forall r, field (ram h1) (tf_field r) = x h r) /\
  (forall a, a < tf + tf_off TF_ra \/ tf + TF_size <= a -> rd8 (ram h1) a = rd8 (ram h) a) /\
  pc h1 = field (ram h) TF_kernel_trap /\ csr h1 satp = field (ram h) TF_kernel_satp /\
  x h1 sp = field (ram h) TF_kernel_sp /\ x h1 tp = field (ram h) TF_kernel_hartid /\
  x h1 ra = addr (length uservec) /\ priv h1 = priv h /\
  forall h2 v, x h2 a0 = usatp ->
    (forall r, field (ram h2) (tf_field r) = field (ram h1) (tf_field r)) ->
    csr h2 sstatus = Z.lor (Z.land v (Z.lnot SSTATUS_SPP)) SSTATUS_SPIE ->
    let h3 := exec tr addr (length uservec) userret h2 in
    (forall r, x h3 r = x h r) /\ csr h3 satp = usatp /\ pc h3 = csr h2 sepc /\
    ram h3 = ram h2 /\ priv h3 = User /\ Z.testbit (csr h3 sstatus) 1 = true.
Proof.
  intros h1 field. destruct (uservec_run tr addr tf usatp Htr h Hs) as (Em & E1 & E2 & E3 & E4 & E5 & E6).
  fold h1 in Em, E1, E2, E3, E4, E5, E6.
  assert (forall r, field (ram h1) (tf_field r) = x h r) as Hf.
  { intros r. rewrite Em. by apply frame_field. }
  split; [done|]. split. { intros a Ha. rewrite Em. by apply frame_byte. }
  rewrite E1, E2, E3, E4, !frame_low by lia. do 6 (split; [done|]).
  intros h2 v H0 Hk Hv h3. destruct (userret_run tr addr tf usatp Htr (length uservec) h2 H0)
    as (K1 & K2 & K3 & K4 & K5 & K6). fold h3 in K1, K2, K3, K4, K5, K6.
  split. { intros r. rewrite K1. fold (field (ram h2) (tf_field r)). by rewrite Hk. }
  split; [done|]. split; [done|]. split; [done|]. rewrite K5, K6. cbn [do_sret csr wpriv jump wcsr].
  rewrite decide_True by done. rewrite Hv.
  rewrite !Z.lor_spec, !Z.land_spec, !Z.lnot_spec by lia. split.
  - by rewrite andb_false_r.
  - by rewrite !orb_true_r.
Qed.

(** * Kernel traps *)

Lemma vec_in r : r ∈ vec_regs.*1 \/ r ∈ callee_saved \/ r = tp.
Proof. destruct r; (left; bydec) || (right; left; bydec) || (right; right; done). Qed.

Lemma subseteq_vec r o : (r, o) ∈ vec_regs -> (r, o) ∈ vec_saved.
Proof.
  assert (Forall (fun p => p ∈ vec_saved) vec_regs) as H by bydec.
  rewrite Forall_forall in H. apply H.
Qed.

(** An interrupt in the kernel is invisible to the code it interrupts: when
    [kerneltrap] keeps to the calling convention and to its part of the stack,
    every register but [tp] is back when [kernelvec] returns, and [tp] is the
    hart the thread runs on then. *)
Theorem kernelvec_preserves tr addr kerneltrap h
  (Hw : words h) (Hsp : 256 <= x h sp)
  (Hm : maps tr (csr h satp) (x h sp - 256) (x h sp - 256) 256) :
  let h1 := exec tr addr 0 (kernelvec_save kerneltrap) h in
  pc h1 = kerneltrap /\ x h1 ra = addr (length (kernelvec_save kerneltrap)) /\
  forall h2, (forall r, r ∈ callee_saved -> x h2 r = x h1 r) ->
    csr h2 satp = csr h1 satp ->
    (forall a, x h sp - 256 <= a < x h sp -> rd8 (ram h2) a = rd8 (ram h1) a) ->
    let h3 := exec tr addr (length (kernelvec_save kerneltrap)) kernelvec_restore h2 in
    (forall r, r <> tp -> x h3 r = x h r) /\ x h3 tp = x h2 tp /\
    pc h3 = csr h2 sepc /\ ram h3 = ram h2.
Proof.
  intros h1. set (b := x h sp - 256) in *.
  assert (u64 (x h sp + -256) = b) as Eb.
  { unfold u64. specialize (Hw sp). rewrite Z.mod_small; lia. }
  set (f := x (exec tr addr 0 [addi sp sp (-256)] h)).
  assert (f sp = b) as Fsp by (unfold f; cbn; by rewrite Eb).
  assert (forall r, r <> sp -> f r = x h r) as Fo
    by (intros r Hr; unfold f; cbn; by rewrite decide_False).
  assert (exists g, h1 = jump kerneltrap (wreg ra g (wram (saved b f vec_saved (ram h))
      (exec tr addr 0 [addi sp sp (-256)] h))) /\ g = addr (length (kernelvec_save kerneltrap))) as (g & E & Eg).
  { eexists. split; [|reflexivity]. unfold h1.
    change (kernelvec_save kerneltrap) with ([addi sp sp (-256)] ++ saves sp vec_saved ++ [call kerneltrap]).
    rewrite !exec_app. rewrite (exec_saves tr addr _ sp vec_saved b); [done|].
    intros o Hin. apply (offsets_in 0 240) in Hin; [|done]. fold f. rewrite Fsp. apply Hm. lia. }
  rewrite E. split; [done|]. split; [cbn; by rewrite Eg|].
  intros h2 Hc Hs Hr h3. unfold h3.
  change kernelvec_restore with (restores sp vec_regs ++ [addi sp sp 256; sret]). rewrite exec_app.
  assert (x h2 sp = b) as Hb by (rewrite (Hc sp) by bydec; exact Fsp).
  destruct (exec_restores tr addr (length (kernelvec_save kerneltrap)) sp vec_regs b h2)
    as [R1 R2 R3 R4 R5 R6]; [bydec|bydec| |].
  { intros o Hin. apply (offsets_in 0 240) in Hin; [|done]. rewrite Hb, Hs. apply Hm. lia. }
  set (h4 := exec tr addr _ (restores sp vec_regs) h2) in *.
  cbn [exec exec1 do_sret x csr ram wreg wcsr wpriv jump pc priv].
  split; [|split; [by rewrite decide_False, (R2 tp) by (done || bydec)|by rewrite R3, R6]].
  intros r Hr4. case_decide as Er.
  { subst r. rewrite (R2 sp), Hb by bydec. unfold u64. specialize (Hw sp). rewrite Z.mod_small; lia. }
  destruct (vec_in r) as [Hin|[Hin|]]; [| |done].
  - apply list_elem_of_fmap in Hin as ([r' o] & -> & Hin). cbn [fst] in *. rewrite (R1 r' o Hin).
    assert (0 <= o <= 240) as Ho.
    { apply (offsets_in 0 240 vec_regs); [done|]. apply list_elem_of_fmap. by exists (r', o). }
    assert ((r', o) ∈ vec_saved) as Hin' by (revert Hin; apply (subseteq_vec r' o)).
    rewrite <- (Fo r' Er), <- (saved_at b f vec_saved (ram h) r' o vec_spaced); [|..|done].
    + apply rd64_ext. intros y Hy. by rewrite Hr by lia.
    + intros q. destruct (decide (q = sp)) as [->|Hq]; [rewrite Fsp; specialize (Hw sp); lia|].
      rewrite Fo by done. apply Hw.
  - rewrite (R2 r), (Hc r Hin).
    + cbn [x jump wreg wram]. rewrite decide_False; [by apply Fo|].
      intros ->. revert Hin. bydec.
    + intros H. revert Hin H. destruct r; bydec.
Qed.

(** * Start-up *)

Lemma mpp_supervisor v :
  Z.land (Z.shiftr (Z.lor (Z.land v (Z.lnot MSTATUS_MPP_MASK)) MSTATUS_MPP_S) 11) 3 = 1.
Proof.
  apply Z.bits_inj'. intros i Hi. rewrite Z.land_spec, Z.shiftr_spec, Z.lor_spec, Z.land_spec, Z.lnot_spec by lia.
  destruct (decide (i = 0)) as [->|]; [cbn; by rewrite andb_false_r|].
  destruct (decide (i = 1)) as [->|]; [cbn; by rewrite andb_false_r|].
  rewrite (Z.bits_above_log2 3 i), andb_false_r by (cbn; lia).
  symmetry. apply Z.bits_above_log2; cbn; lia.
Qed.

(** [start] leaves machine mode for [main] in supervisor mode, without
    paging, with the hart's number in [tp], the supervisor's external and timer
    interrupts delegated and enabled, the clock open to the supervisor and the
    first timer interrupt asked for. *)
Theorem start_correct main time delegable h
  (Hd9 : Z.testbit delegable 9 = true) (Hd5 : Z.testbit delegable 5 = true)
  (Hid : 0 <= csr h mhartid < 2 ^ 31) :
  let h1 := start main time delegable h in
  pc h1 = main /\ priv h1 = Supervisor /\ csr h1 satp = 0 /\ x h1 tp = csr h mhartid /\
  (forall r, r <> tp -> x h1 r = x h r) /\ ram h1 = ram h /\
  Z.testbit (r_sie h1) 9 = true /\ Z.testbit (r_sie h1) 5 = true /\
  Z.testbit (csr h1 menvcfg) 63 = true /\ Z.testbit (csr h1 mcounteren) 1 = true /\
  csr h1 stimecmp = u64 (time + 1000000).
Proof.
  intros h1. set (d := Z.land 0xffff delegable).
  set (e := Z.lor (Z.lor (Z.land (csr h mie) d) SIE_SEIE) SIE_STIE).
  assert (r_sie h1 = Z.land (Z.lor (Z.lor (Z.land (csr h mie) (Z.lnot d)) (Z.land e d)) MIE_STIE) d)
    as -> by reflexivity.
  assert (csr h1 menvcfg = Z.lor (csr h menvcfg) (Z.shiftl 1 63)) as -> by reflexivity.
  assert (csr h1 mcounteren = Z.lor (csr h mcounteren) 2) as -> by reflexivity.
  split; [done|]. split; [|split; [done|]].
  { pose proof (mpp_supervisor (csr h mstatus)) as E. unfold h1, start, mret. cbv zeta. cbn [priv jump wpriv].
    set (v := csr _ mstatus).
    change v with (Z.lor (Z.land (csr h mstatus) (Z.lnot MSTATUS_MPP_MASK)) MSTATUS_MPP_S).
    by rewrite E. }
  split. { change (u64 (s32 (csr h mhartid)) = csr h mhartid). unfold s32, u64.
    rewrite (Z.mod_small (_ + _)) by lia. rewrite Z.mod_small; lia. }
  split; [intros r Hr; cbn; by rewrite decide_False|]. split; [done|].
  unfold e, d. rewrite !Z.land_spec, !Z.lor_spec, !Z.land_spec, !Z.lor_spec, Hd9, Hd5.
  split; [|split; [|split; [|split; [|done]]]]; by rewrite !orb_true_r.
Qed.

(** [entry.S] gives each hart a page of [stack0] of its own and calls
    [start]. *)
Lemma entry_stack tr addr stack0 start h :
  0 <= stack0 -> 0 <= csr h mhartid -> stack0 + (csr h mhartid + 1) * 4096 < 2 ^ 64 ->
  let h1 := exec tr addr 0 (entry_code stack0 start) h in
  x h1 sp = stack0 + (csr h mhartid + 1) * 4096 /\ pc h1 = start.
Proof.
  intros H0 H1 H2 h1. unfold h1. cbn [exec exec1 entry_code x csr ram wreg wcsr jump pc].
  regs.
  split; [|done]. unfold u64. rewrite (Z.mod_small (csr h mhartid + 1)) by lia.
  rewrite (Z.mod_small (1024 * 4 * _)) by lia. rewrite Z.mod_small; lia.
Qed.

(** * Witnesses *)

(** A hart with register number [i] holding [i], on an identity mapping but for
    the trapframe page. *)
Definition demo_tr (s a : Z) : Z :=
  if (s =? 1) && (TRAPFRAME <=? a) && (a <? TRAPFRAME + PGSIZE) then a - TRAPFRAME + 0x5000 else a.
Definition demo_hart (st : Z) (va0 va1 : Z) : hartstate :=
  Hart (fun r => match r with a0 => va0 | a1 => va1 | sp => 0x3000 | s3 => 33 | _ => 7 end)
    (fun c => match c with satp => st | _ => 2 end) User 0x100 ∅.

Lemma demo_words st va0 va1 : 0 <= va0 < 2 ^ 64 -> 0 <= va1 < 2 ^ 64 -> words (demo_hart st va0 va1).
Proof. intros H0 H1 r. destruct r; cbn; lia. Qed.

Lemma demo_maps s a n : 0 <= a -> a + n < 2 ^ 32 -> maps demo_tr s a a n.
Proof.
  intros Ha Hn o Ho. unfold u64. rewrite Z.mod_small by lia. unfold demo_tr.
  rewrite (proj2 (Z.leb_gt TRAPFRAME (a + o))) by (change TRAPFRAME with 0x3fffffe000; lia).
  by rewrite andb_false_r.
Qed.

Lemma demo_maps_tf : maps demo_tr 1 TRAPFRAME 0x5000 PGSIZE.
Proof.
  intros o Ho. unfold u64. unfold PGSIZE in Ho.
  rewrite Z.mod_small by (change TRAPFRAME with 0x3fffffe000; lia).
  unfold demo_tr. change TRAPFRAME with 0x3fffffe000. unfold PGSIZE. zbool; lia.
Qed.

Lemma swtch_resumes_witness :
  let h := demo_hart 0 0x1000 0x2000 in
  let h1 := exec demo_tr Z.of_nat 0 swtch_code h in
  let h2 := Hart (fun r => match r with a0 => 0x4000 | a1 => 0x1000 | _ => 5 end) (csr h) Supervisor 0 (ram h1) in
  (forall r, r ∈ ctx_regs.*1 -> x (exec demo_tr Z.of_nat 0 swtch_code h2) r = x h r) /\
  x h1 s3 = 0.
Proof.
  intros h h1 h2.
  destruct (swtch_resumes demo_tr Z.of_nat h 0x1000 0x2000) as (L & _ & _ & R);
    [done|done|by apply demo_maps|by apply demo_maps|lia|by apply demo_words|].
  split; [|exact (L s3 40 ltac:(bydec))].
  destruct (R h2 0x4000) as [K _]; [exact eq_refl|exact eq_refl|by apply demo_maps|by apply demo_maps|lia| |exact K].
  intros a _. exact eq_refl.
Defined.

Lemma trap_roundtrip_witness :
  let h1 := exec demo_tr Z.of_nat 0 uservec (demo_hart 1 17 18) in
  (forall r, rd64 (ram h1) (0x5000 + tf_off (tf_field r)) = x (demo_hart 1 17 18) r) /\
  forall h2 v, x h2 a0 = 1 ->
    (forall r, rd64 (ram h2) (0x5000 + tf_off (tf_field r)) = rd64 (ram h1) (0x5000 + tf_off (tf_field r))) ->
    csr h2 sstatus = Z.lor (Z.land v (Z.lnot SSTATUS_SPP)) SSTATUS_SPIE ->
    priv (exec demo_tr Z.of_nat (length uservec) userret h2) = User.
Proof.
  intros h1.
  destruct (trap_roundtrip demo_tr Z.of_nat 0x5000 1 (demo_hart 1 17 18))
    as (F & _ & _ & _ & _ & _ & _ & _ & R); [apply demo_maps_tf|done|by apply demo_words|].
  split; [exact F|]. intros h2 v H0 Hf Hv. exact (proj1 (proj2 (proj2 (proj2 (proj2 (R h2 v H0 Hf Hv)))))).
Defined.

Lemma kernelvec_preserves_witness :
  let h1 := exec demo_tr Z.of_nat 0 (kernelvec_save 0x8000) (demo_hart 0 17 18) in
  pc h1 = 0x8000 /\
  forall h2, (forall r, r ∈ callee_saved -> x h2 r = x h1 r) -> csr h2 satp = csr h1 satp ->
    (forall a, 0x3000 - 256 <= a < 0x3000 -> rd8 (ram h2) a = rd8 (ram h1) a) ->
    x (exec demo_tr Z.of_nat (length (kernelvec_save 0x8000)) kernelvec_restore h2) a0 = 17.
Proof.
  intros h1.
  destruct (kernelvec_preserves demo_tr Z.of_nat 0x8000 (demo_hart 0 17 18)) as (P & _ & R);
    [by apply demo_words|cbn; lia|by apply demo_maps|].
  split; [exact P|]. intros h2 H1 H2 H3. exact (proj1 (R h2 H1 H2 H3) a0 ltac:(discriminate)).
Defined.

Lemma start_correct_witness :
  let h1 := start 0x80001000 5 0x222 (demo_hart 0 17 18) in
  priv h1 = Supervisor /\ x h1 tp = 2 /\ pc h1 = 0x80001000.
Proof.
  intros h1. destruct (start_correct 0x80001000 5 0x222 (demo_hart 0 17 18)) as (P & S & _ & T & _);
    [done|done|cbn; lia|]. split; [exact S|]. split; [exact T|exact P].
Defined.
