(* ===== verification/Sys.v ===== *)
(** The system calls as the user programs see them (user/user.h, the stubs of
    user/usys.pl), and the logic of programs on top of them.

    A user program is an interaction tree over [sysE]: it performs system calls
    and goes on with their answers.  Buffers travel with the call: [Read] answers
    with the return value and the bytes it stored, [Write] carries the bytes it
    writes.  [Fork] answers with what the process at hand gets back: a program
    is one process, its child is the same tree with the answer 0. *)
From ITree Require Export Core.ITreeDefinition.
From S2P Require Export Prelude.

(** [struct stat]. *)
Record ustat := Ustat { st_dev : Z; st_ino : Z; st_type : Z; st_nlink : Z; st_size : Z }.

(** [struct procinfo] of kernel/procinfo.h. *)
Record uprocinfo := Uprocinfo {
  pi_pid : Z; pi_state : Z; pi_name : list Z; pi_ctime : Z; pi_etime : Z; pi_rtime : Z;
  pi_stime : Z; pi_expected_runtime : Z; pi_time_left : Z; pi_priority : Z;
  pi_queue_level : Z; pi_time_slice : Z }.

Inductive sysE : Type -> Type :=
| Fork : sysE Z
| Exit (status : Z) : sysE Empty_set
| Wait : sysE (Z * Z)
| Pipe : sysE (Z * (Z * Z))
| Write (fd : Z) (bs : list Z) : sysE Z
| Read (fd n : Z) : sysE (Z * list Z)
| Close (fd : Z) : sysE Z
| Kill (pid : Z) : sysE Z
| Exec (path : list Z) (argv : list (list Z)) : sysE Z
| Open (path : list Z) (mode : Z) : sysE Z
| Mknod (path : list Z) (major minor : Z) : sysE Z
| Unlink (path : list Z) : sysE Z
| Fstat (fd : Z) : sysE (Z * ustat)
| Link (old new : list Z) : sysE Z
| Mkdir (path : list Z) : sysE Z
| Chdir (path : list Z) : sysE Z
| Dup (fd : Z) : sysE Z
| Getpid : sysE Z
| Sbrk (n how : Z) : sysE Z
| Pause (n : Z) : sysE Z
| Uptime : sysE Z
| Yield : sysE Z
| SetExpected (ticks : Z) : sysE Z
| SetStcfVals (hint : Z) : sysE Z
| GetProcInfo (pid : Z) : sysE (Z * uprocinfo).

Definition U (A : Type) : Type := itree sysE A.

Definition uret {A} (a : A) : U A := go (RetF a).
Definition ubind {A B} (t : U A) (k : A -> U B) : U B := ITree.bind t k.
Definition sys {A} (e : sysE A) : U A := ITree.trigger e.
(** [exit] does not return. *)
Definition exit {A} (status : Z) : U A := ubind (sys (Exit status)) (fun v => match v with end).

Declare Scope usr_scope.
Delimit Scope usr_scope with U.
Bind Scope usr_scope with U.
Notation "x <- c1 ;; c2" := (ubind c1 (fun x => c2))
  (at level 100, c1 at next level, c2 at level 200, right associativity) : usr_scope.
Notation "c1 ;; c2" := (ubind c1 (fun _ => c2))
  (at level 100, c2 at level 200, right associativity) : usr_scope.

(** Loops: [while] carries the local variables and goes on while its body
    returns [inl]; [each] is a [for] over a list that may leave early. *)
Definition while {X R} (body : X -> U (X + R)) (x : X) : U R := ITree.iter body x.
Fixpoint each {I} (l : list I) (body : I -> U unit) : U unit :=
  match l with
  | [] => uret tt
  | i :: l' => (body i ;; each l' body)%U
  end.
Definition unless (b : bool) (t : U unit) : U unit := if b then uret tt else t.

(** * Total correctness against an environment

    [env e w a w']: in world [w] the call [e] may answer [a] and leave [w'].
    [uwp t Q Qx w]: whatever the environment answers, the program performs
    finitely many calls, each of which has an answer, and then returns with [Q]
    or exits with [Qx]. *)
Section Logic.
Context {W : Type} (env : forall X, sysE X -> W -> X -> W -> Prop).

Inductive uwp {R} (Q : R -> W -> Prop) (Qx : Z -> W -> Prop) : U R -> W -> Prop :=
| uwp_Ret t r w : observe t = RetF r -> Q r w -> uwp Q Qx t w
| uwp_Tau t u w : observe t = TauF u -> uwp Q Qx u w -> uwp Q Qx t w
| uwp_Exit t st k w : observe t = VisF (Exit st) k -> Qx st w -> uwp Q Qx t w
| uwp_Vis t X (e : sysE X) k w :
    observe t = VisF e k -> (exists a w', env X e w a w') ->
    (forall a w', env X e w a w' -> uwp Q Qx (k a) w') -> uwp Q Qx t w.

Lemma uwp_ret {R} (Q : R -> W -> Prop) Qx r w : Q r w -> uwp Q Qx (uret r) w.
Proof. intros H. by eapply uwp_Ret. Qed.

Lemma uwp_observe {R} (Q : R -> W -> Prop) Qx t u w :
  observe t = observe u -> uwp Q Qx u w -> uwp Q Qx t w.
Proof.
  intros E H. destruct H as [u r w E' H|u v w E' H|u st k w E' H|u X e k w E' H1 H2]; rewrite <- E in E'.
  - by eapply uwp_Ret.
  - by eapply uwp_Tau.
  - by eapply uwp_Exit.
  - by eapply uwp_Vis.
Qed.

(** What a run looks like from its first call. *)
Lemma uwp_inv {R} (Q : R -> W -> Prop) Qx t w :
  uwp Q Qx t w ->
  match observe t with
  | RetF r => Q r w
  | TauF u => uwp Q Qx u w
  | VisF e k =>
      match e in sysE X return (X -> U R) -> Prop with
      | Exit st => fun _ => Qx st w
      | e => fun k => forall a w', env _ e w a w' -> uwp Q Qx (k a) w'
      end k
  end.
Proof.
  intros [t' r w' E H|t' u w' E H|t' st k w' E H|t' X e k w' E He H]; rewrite E; try done.
  destruct e; try exact H. by destruct He as [[] _].
Qed.

Lemma observe_bind {A B} (t : U A) (k : A -> U B) :
  observe (ubind t k) =
  match observe t with
  | RetF r => observe (k r)
  | TauF u => TauF (ubind u k)
  | VisF e h => VisF e (fun x => ubind (h x) k)
  end.
Proof.
  change (observe (ubind t k)) with (observe (match observe t with
    | RetF r => k r
    | TauF u => go (TauF (ubind u k))
    | VisF e h => go (VisF e (fun x => ubind (h x) k))
    end)). by destruct (observe t).
Qed.

Lemma observe_while {X R} (body : X -> U (X + R)) x :
  observe (while body x) =
  observe (ubind (body x) (fun r => match r with
    | inl x' => go (TauF (while body x')) | inr r' => uret r' end)).
Proof. reflexivity. Qed.

Lemma uwp_bind {A B} (Q : B -> W -> Prop) Qx (t : U A) (k : A -> U B) w :
  uwp (fun a w' => uwp Q Qx (k a) w') Qx t w -> uwp Q Qx (ubind t k) w.
Proof.
  induction 1 as [t r w E H|t u w E H IH|t st h w E H|t X e h w E H1 H2 IH].
  - eapply uwp_observe; [|exact H]. by rewrite observe_bind, E.
  - eapply uwp_Tau; [|exact IH]. by rewrite observe_bind, E.
  - eapply uwp_Exit; [|exact H]. by rewrite observe_bind, E.
  - eapply uwp_Vis; [|exact H1|exact IH]. by rewrite observe_bind, E.
Qed.

Lemma uwp_mono {R} (Q Q' : R -> W -> Prop) (Qx Qx' : Z -> W -> Prop) t w :
  uwp Q Qx t w -> (forall r w, Q r w -> Q' r w) -> (forall st w, Qx st w -> Qx' st w) ->
  uwp Q' Qx' t w.
Proof.
  intros H HQ Hx. induction H as [t r w E H|t u w E H IH|t st h w E H|t X e h w E H1 H2 IH].
  - eapply uwp_Ret; [exact E|auto].
  - by eapply uwp_Tau.
  - eapply uwp_Exit; [exact E|auto].
  - by eapply uwp_Vis.
Qed.

(** A call. *)
Lemma uwp_sys {A B} (Q : B -> W -> Prop) Qx (e : sysE A) (k : A -> U B) w :
  (exists a w', env A e w a w') ->
  (forall a w', env A e w a w' -> uwp Q Qx (k a) w') ->
  uwp Q Qx (ubind (sys e) k) w.
Proof.
  intros H1 H2. eapply (uwp_Vis _ _ _ _ e); [by rewrite observe_bind|exact H1|].
  intros a w' Ha. eapply uwp_observe; [by rewrite observe_bind|]. by apply H2.
Qed.

Lemma uwp_exit {A} (Q : A -> W -> Prop) Qx st w : Qx st w -> uwp Q Qx (exit st) w.
Proof. intros H. eapply uwp_Exit; [|exact H]. unfold exit. by rewrite observe_bind. Qed.

(** A loop whose every iteration decreases [m]. *)
Lemma uwp_while {X R} (Inv : X -> W -> Prop) (m : X -> W -> nat) (Q : R -> W -> Prop) Qx body x w :
  (forall x w, Inv x w ->
     uwp (fun r w' => match r with
                      | inl x' => Inv x' w' /\ (m x' w' < m x w)%nat
                      | inr r' => Q r' w' end) Qx (body x) w) ->
  Inv x w -> uwp Q Qx (while body x) w.
Proof.
  intros Hb. remember (m x w) as n eqn:En. revert x w En.
  induction n as [n IH] using lt_wf_ind. intros x w En Hi.
  eapply uwp_observe; [apply observe_while|].
  apply uwp_bind. eapply uwp_mono; [by apply Hb| |done].
  intros [x'|r'] w' H; [|by apply uwp_ret]. destruct H as [Hi' Hm].
  eapply uwp_Tau; [done|]. eapply IH; [|reflexivity|done]. lia.
Qed.

Lemma uwp_each {I} (Inv : list I -> W -> Prop) Qx l body w :
  (forall i l w, Inv (i :: l) w -> uwp (fun _ w' => Inv l w') Qx (body i) w) ->
  Inv l w -> uwp (fun _ w' => Inv [] w') Qx (each l body) w.
Proof.
  intros Hb. revert w. induction l as [|i l IH]; intros w Hi; cbn [each]; [by apply uwp_ret|].
  apply uwp_bind. eapply uwp_mono; [by apply Hb| |done]. intros u w' H. by apply IH.
Qed.
End Logic.

(** * A world of byte streams

    What the programs rely on: a descriptor is a stream of bytes to read and a
    stream of bytes written.  A read of at least one byte returns some of what
    is there, none at the end, or fails; a write writes the bytes or a prefix of
    them, or fails; [open] finds the file's contents or fails.  The other calls
    answer anything their type allows. *)
Record world := World {
  w_in : Z -> list Z;
  w_out : Z -> list Z;
  w_file : list Z -> option (list Z) }.

Definition fupd {A} (f : Z -> A) (i : Z) (a : A) : Z -> A := fun j => if j =? i then a else f j.
Definition set_in (fd : Z) (bs : list Z) (w : world) : world := World (fupd (w_in w) fd bs) (w_out w) (w_file w).
Definition add_out (fd : Z) (bs : list Z) (w : world) : world :=
  World (w_in w) (fupd (w_out w) fd (w_out w fd ++ bs)) (w_file w).

Inductive reads (fd n : Z) (w : world) : Z * list Z -> world -> Prop :=
| reads_some bs rest :
    bs <> [] -> Z.of_nat (length bs) <= n -> w_in w fd = bs ++ rest ->
    reads fd n w (Z.of_nat (length bs), bs) (set_in fd rest w)
| reads_eof : w_in w fd = [] \/ n <= 0 -> reads fd n w (0, []) w
| reads_fail : reads fd n w (-1, []) w.

Inductive writes (fd : Z) (bs : list Z) (w : world) : Z -> world -> Prop :=
| writes_some k : (k <= length bs)%nat -> writes fd bs w (Z.of_nat k) (add_out fd (take k bs) w)
| writes_fail : writes fd bs w (-1) w.

Inductive opens (path : list Z) (w : world) : Z -> world -> Prop :=
| opens_file fd bs : 0 <= fd -> w_file w path = Some bs -> opens path w fd (set_in fd bs w)
| opens_fail : opens path w (-1) w.

Definition posix (X : Type) (e : sysE X) : world -> X -> world -> Prop :=
  match e in sysE X return world -> X -> world -> Prop with
  | Read fd n => reads fd n
  | Write fd bs => writes fd bs
  | Open path mode => opens path
  | Fork => fun w r w' => -1 <= r /\ w' = w
  | Exec path argv => fun w r w' => r < 0 /\ w' = w
  | Exit _ => fun _ _ _ => False
  | _ => fun w _ w' => w' = w
  end.

Lemma fupd_eq {A} (f : Z -> A) i a : fupd f i a i = a.
Proof. unfold fupd. by rewrite Z.eqb_refl. Qed.
Lemma fupd_ne {A} (f : Z -> A) i j a : j <> i -> fupd f i a j = f j.
Proof. intros H. unfold fupd. by rewrite (proj2 (Z.eqb_neq j i) H). Qed.

Definition is_exit {X} (e : sysE X) : bool := match e with Exit _ => true | _ => false end.

(** Every call but [exit] has an answer. *)
Lemma posix_answers X (e : sysE X) w : is_exit e = false -> exists a w', posix X e w a w'.
Proof.
  destruct e; intros H; try done;
    try (by exists 0, w); try (by exists (0, 0), w); try (by exists (0, (0, 0)), w).
  - exists (-1), w. constructor.
  - exists (-1, []), w. constructor.
  - by exists (-1), w.
  - exists (-1), w. constructor.
  - by exists (0, Ustat 0 0 0 0 0), w.
  - by exists (0, Uprocinfo 0 0 [] 0 0 0 0 0 0 0 0 0), w.
Qed.

(** A call in this world. *)
Lemma uwp_call {A B} (Q : B -> world -> Prop) Qx (e : sysE A) (k : A -> U B) w :
  is_exit e = false -> (forall a w', posix A e w a w' -> uwp posix Q Qx (k a) w') ->
  uwp posix Q Qx (ubind (sys e) k) w.
Proof. intros He H. apply uwp_sys; [by apply posix_answers|exact H]. Qed.

(** An environment where reads and writes do not fail and writes are
    complete. *)
Definition smooth (X : Type) (e : sysE X) (w : world) (a : X) (w' : world) : Prop :=
  posix X e w a w' /\
  match e in sysE X return X -> Prop with
  | Read fd n => fun a => 0 <= fst a
  | Write fd bs => fun a => a = Z.of_nat (length bs)
  | _ => fun _ => True
  end a.

Lemma smooth_read fd n w : exists a w', smooth _ (Read fd n) w a w'.
Proof.
  destruct (w_in w fd) as [|b bs] eqn:E; [exists (0, []), w; split; [constructor; by left|done]|].
  destruct (decide (n <= 0)); [exists (0, []), w; split; [constructor; by right|done]|].
  exists (1, [b]), (set_in fd bs w). split; [|done]. apply (reads_some fd n w [b] bs); [done|cbn; lia|done].
Qed.

Lemma smooth_write fd bs w a w' :
  smooth _ (Write fd bs) w a w' <-> a = Z.of_nat (length bs) /\ w' = add_out fd bs w.
Proof.
  split.
  - intros [H E]. cbn in H, E. inversion H as [k Hk|]; subst; [|lia]. apply Nat2Z.inj in H0 as ->.
    rewrite take_ge by done. done.
  - intros [-> ->]. split; [|done]. cbn.
    pose proof (writes_some fd bs w (length bs) ltac:(done)) as H. by rewrite take_ge in H.
Qed.

(** A complete write. *)
Lemma uwp_write {B} (Q : B -> world -> Prop) Qx fd bs (k : Z -> U B) w :
  uwp smooth Q Qx (k (Z.of_nat (length bs))) (add_out fd bs w) ->
  uwp smooth Q Qx (ubind (sys (Write fd bs)) k) w.
Proof.
  intros H. apply uwp_sys; [eexists _, _; by apply smooth_write|].
  by intros a w' [-> ->]%smooth_write.
Qed.

(** [w'] is [w] with [bs] written to [fd]. *)
Definition wrote (fd : Z) (bs : list Z) (w w' : world) : Prop :=
  w_in w' = w_in w /\ w_file w' = w_file w /\
  forall j, w_out w' j = w_out w j ++ (if j =? fd then bs else []).

Lemma wrote_nil fd w : wrote fd [] w w.
Proof. split_and!; [done..|]. intros j. destruct (j =? fd); by rewrite app_nil_r. Qed.
Lemma wrote_add_out fd bs w : wrote fd bs w (add_out fd bs w).
Proof.
  split_and!; [done..|]. intros j. cbn [add_out w_out]. unfold fupd.
  destruct (Z.eqb_spec j fd) as [->|]; [done|by rewrite app_nil_r].
Qed.
Lemma wrote_trans fd bs cs w1 w2 w3 : wrote fd bs w1 w2 -> wrote fd cs w2 w3 -> wrote fd (bs ++ cs) w1 w3.
Proof.
  intros (I1 & F1 & O1) (I2 & F2 & O2). split_and!; [congruence..|]. intros j. rewrite O2, O1.
  destruct (j =? fd); rewrite <- ?app_assoc, ?app_nil_r; done.
Qed.
Lemma wrote_out fd bs w w' : wrote fd bs w w' -> w_out w' fd = w_out w fd ++ bs.
Proof. intros (_ & _ & H). by rewrite H, Z.eqb_refl. Qed.
Lemma wrote_other fd bs w w' j : wrote fd bs w w' -> j <> fd -> w_out w' j = w_out w j.
Proof. intros (_ & _ & H) Hj. by rewrite H, (proj2 (Z.eqb_neq _ _) Hj), app_nil_r. Qed.
