(* ===== verification/Ulib.v ===== *)
(** user/ulib.c, and [fprintf] and [printf] of user/printf.c.

    The string functions work on byte memory, as in Kstring; those that run up
    to a NUL have a bound on the number of iterations, and the lemmas show that
    the length of the string is enough.  The programs use them on strings as
    lists ([strchr_at], [atoi_of]), which is what the lemmas justify. *)
From S2P Require Import Prelude Chars Format Memory Kstring Sys.
Open Scope usr_scope.

(** * Strings in memory *)

Fixpoint u_strcpy (fuel : nat) (ram : gmap Z Z) (s t : Z) : option (gmap Z Z) :=
  match fuel with
  | O => None
  | S f =>
      let ram' := wr8 ram s (rd8 ram t) in
      if negb (rd8 ram t =? 0) then u_strcpy f ram' (s + 1) (t + 1) else Some ram'
  end.

Fixpoint u_strcmp (fuel : nat) (ram : gmap Z Z) (p q : Z) : option Z :=
  match fuel with
  | O => None
  | S f =>
      if negb (rd8 ram p =? 0) && (rd8 ram p =? rd8 ram q)
      then u_strcmp f ram (p + 1) (q + 1)
      else Some (rd8 ram p - rd8 ram q)
  end.

Fixpoint u_strlen_loop (fuel : nat) (ram : gmap Z Z) (s n : Z) : option Z :=
  match fuel with
  | O => None
  | S f => if negb (rd8 ram (s + n) =? 0) then u_strlen_loop f ram s (n + 1) else Some n
  end.
Definition u_strlen (fuel : nat) (ram : gmap Z Z) (s : Z) : option Z := u_strlen_loop fuel ram s 0.

Fixpoint u_memset_loop (todo : nat) (ram : gmap Z Z) (cdst c i : Z) : gmap Z Z :=
  match todo with
  | O => ram
  | S n => u_memset_loop n (wr8 ram (cdst + i) c) cdst c (i + 1)
  end.
Definition u_memset (ram : gmap Z Z) (dst c n : Z) : gmap Z Z :=
  u_memset_loop (Z.to_nat n) ram dst c 0.

(** The address found, 0 for none. *)
Fixpoint u_strchr (fuel : nat) (ram : gmap Z Z) (s c : Z) : option Z :=
  match fuel with
  | O => None
  | S f =>
      if rd8 ram s =? 0 then Some 0
      else if rd8 ram s =? c then Some s else u_strchr f ram (s + 1) c
  end.

(** The sum wraps around at 32 bits. *)
Fixpoint u_atoi_loop (fuel : nat) (ram : gmap Z Z) (s n : Z) : option Z :=
  match fuel with
  | O => None
  | S f =>
      if (ch "0" <=? rd8 ram s) && (rd8 ram s <=? ch "9")
      then u_atoi_loop f ram (s + 1) (s32 (n * 10 + rd8 ram s - ch "0"))
      else Some n
  end.
Definition u_atoi (fuel : nat) (ram : gmap Z Z) (s : Z) : option Z := u_atoi_loop fuel ram s 0.

(** [while(n-- > 0) *dst++ = *src++] and [*--dst = *--src]. *)
Fixpoint u_copy_up (n : nat) (ram : gmap Z Z) (dst src : Z) : gmap Z Z :=
  match n with
  | O => ram
  | S n' => u_copy_up n' (wr8 ram dst (rd8 ram src)) (dst + 1) (src + 1)
  end.
Fixpoint u_copy_down (n : nat) (ram : gmap Z Z) (dst src : Z) : gmap Z Z :=
  match n with
  | O => ram
  | S n' => u_copy_down n' (wr8 ram (dst - 1) (rd8 ram (src - 1))) (dst - 1) (src - 1)
  end.
Definition u_memmove (ram : gmap Z Z) (vdst vsrc n : Z) : gmap Z Z :=
  if vdst <? vsrc then u_copy_up (Z.to_nat n) ram vdst vsrc
  else u_copy_down (Z.to_nat n) ram (vdst + n) (vsrc + n).
Definition u_memcpy (ram : gmap Z Z) (dst src n : Z) : gmap Z Z := u_memmove ram dst src (s32 n).

Fixpoint u_memcmp_loop (n : nat) (ram : gmap Z Z) (p1 p2 : Z) : Z :=
  match n with
  | O => 0
  | S n' =>
      if negb (rd8 ram p1 =? rd8 ram p2) then rd8 ram p1 - rd8 ram p2
      else u_memcmp_loop n' ram (p1 + 1) (p2 + 1)
  end.
Definition u_memcmp (ram : gmap Z Z) (s1 s2 n : Z) : Z := u_memcmp_loop (Z.to_nat n) ram s1 s2.

(** * System calls and output *)

(** An argument of [printf]. *)
Inductive uarg := I (z : Z) | T (s : list Z).

(** The slots of the arguments: a string is passed as its address. *)
Definition arg_slot (args : list uarg) (k : nat) : Z :=
  match args !! k with Some (I z) => z | Some (T _) => Z.of_nat (S k) | None => 0 end.
Definition arg_text (args : list uarg) (p : Z) : list Z :=
  match args !! Z.to_nat (p - 1) with Some (T s) => s | _ => [] end.

(** [fprintf(fd, fmt, ...)]: one [write] per character. *)
Definition fprintf (fd : Z) (fmt : list Z) (args : list uarg) : U unit :=
  each (default [] (vprintf (arg_text args) (arg_slot args) fmt)) (fun c =>
    sys (Write fd [c]) ;; uret tt).
Definition uprintf (fmt : list Z) (args : list uarg) : U unit := fprintf 1 fmt args.

#[global] Arguments fprintf : simpl never.
#[global] Arguments uprintf : simpl never.

(** [main] may return. *)
Definition ustart (main : list (list Z) -> U Z) (argv : list (list Z)) : U Empty_set :=
  r <- main argv ;; exit r.

(** The string left in [buf]. *)
Definition gets (max : Z) : U (list Z) :=
  while (fun s : list Z =>
    if Z.of_nat (length s) + 1 <? max then
      r <- sys (Read 0 1) ;;
      let '(cc, bs) := r in
      if cc <? 1 then uret (inr s) else
      let c := default 0 (head bs) in
      let s := s ++ [c] in
      uret (if (c =? 10) || (c =? 13) then inr s else inl s)
    else uret (inr s)) [].

Definition O_RDONLY : Z := 0x000.
Definition O_WRONLY : Z := 0x001.
Definition O_RDWR : Z := 0x002.
Definition O_CREATE : Z := 0x200.
Definition O_TRUNC : Z := 0x400.

Definition stat (n : list Z) : U (Z * ustat) :=
  fd <- sys (Open n O_RDONLY) ;;
  if fd <? 0 then uret (-1, Ustat 0 0 0 0 0) else
  r <- sys (Fstat fd) ;;
  sys (Close fd) ;;
  uret r.

Definition SBRK_EAGER : Z := 1.
Definition SBRK_LAZY : Z := 2.
Definition sbrk (n : Z) : U Z := sys (Sbrk n SBRK_EAGER).
Definition sbrklazy (n : Z) : U Z := sys (Sbrk n SBRK_LAZY).

(** * On strings as lists *)

(** The index of the first [c] in [s]. *)
Fixpoint strchr_at (s : list Z) (c : Z) : option nat :=
  match s with
  | [] => None
  | b :: s' => if b =? c then Some O else S <$> strchr_at s' c
  end.

Fixpoint atoi_from (s : list Z) (n : Z) : Z :=
  match s with
  | [] => n
  | b :: s' => if (ch "0" <=? b) && (b <=? ch "9") then atoi_from s' (s32 (n * 10 + b - ch "0")) else n
  end.
Definition atoi_of (s : list Z) : Z := atoi_from s 0.

Lemma u_strchr_at fuel ram p s c :
  cstring ram p s -> (length s < fuel)%nat ->
  u_strchr fuel ram p c = Some (match strchr_at s c with Some i => p + Z.of_nat i | None => 0 end).
Proof.
  revert fuel p. induction s as [|b s IH]; intros [|fuel] p Hc Hf; cbn in Hf; try lia; cbn [u_strchr strchr_at].
  - by rewrite (cstring_nil _ _ Hc).
  - apply cstring_cons in Hc as (E & Hb & Hc). rewrite E, (proj2 (Z.eqb_neq _ _) Hb).
    destruct (b =? c); [f_equal; cbn; lia|]. rewrite IH by (done || lia).
    destruct (strchr_at s c); cbn; f_equal; lia.
Qed.

Lemma u_atoi_of fuel ram p s :
  cstring ram p s -> (length s < fuel)%nat -> u_atoi fuel ram p = Some (atoi_of s).
Proof.
  unfold u_atoi, atoi_of. generalize 0. revert fuel p. induction s as [|b s IH]; intros [|fuel] p n Hc Hf; cbn in Hf; try lia;
    cbn [u_atoi_loop atoi_from].
  - by rewrite (cstring_nil _ _ Hc).
  - apply cstring_cons in Hc as (E & Hb & Hc). rewrite E. destruct (_ && _); [|done]. apply IH; [done|lia].
Qed.

Lemma u_strlen_length fuel ram p s :
  cstring ram p s -> (length s < fuel)%nat -> u_strlen fuel ram p = Some (Z.of_nat (length s)).
Proof.
  intros Hc Hf. unfold u_strlen. transitivity (strlen_loop fuel ram p 0).
  - generalize 0. clear. revert ram p. induction fuel as [|fuel IH]; intros ram p n; [done|]. cbn.
    rewrite IH. by destruct (rd8 ram (p + n) =? 0).
  - rewrite (strlen_loop_spec fuel ram p 0 s); [done|by rewrite Z.add_0_r|done].
Qed.

(** [strcmp] of the user library is 0 on equal strings and otherwise has the
    sign of the first difference. *)
Lemma u_strcmp_spec fuel ram p q a b :
  cstring ram p a -> cstring ram q b -> bytes_ok ram -> (length a < fuel)%nat ->
  exists r, u_strcmp fuel ram p q = Some r /\ (r = 0 <-> a = b).
Proof.
  intros Ha Hb Hok. revert fuel p q b Ha Hb. induction a as [|x a IH]; intros [|fuel] p q b Ha Hb Hf; cbn in Hf; try lia;
    cbn [u_strcmp].
  - rewrite (cstring_nil _ _ Ha). cbn [Z.eqb negb andb]. eexists. split; [done|].
    destruct b as [|y b]; [by rewrite (cstring_nil _ _ Hb)|].
    apply cstring_cons in Hb as (E & H & _). rewrite E. split; [lia|done].
  - apply cstring_cons in Ha as (E & Hx & Ha). rewrite E, (proj2 (Z.eqb_neq _ _) Hx). cbn [negb andb].
    destruct b as [|y b].
    + rewrite (cstring_nil _ _ Hb), (proj2 (Z.eqb_neq _ _) Hx). eexists. split; [done|]. split; [lia|done].
    + apply cstring_cons in Hb as (E' & Hy & Hb). rewrite E'. destruct (Z.eqb_spec x y) as [->|Hne].
      * destruct (IH fuel (p + 1) (q + 1) b Ha Hb ltac:(lia)) as (r & -> & Hr). exists r. split; [done|].
        rewrite Hr. split; [by intros ->|by intros [= ->]].
      * eexists. split; [done|]. split; [lia|by intros [= ->]].
Qed.

Lemma u_copy_up_eq n ram d s : u_copy_up n ram d s = copy_up n ram d s.
Proof. revert ram d s. induction n as [|n IH]; intros ram d s; [done|]. apply IH. Qed.
Lemma u_copy_down_eq n ram d s : u_copy_down n ram d s = copy_down n ram d s.
Proof. revert ram d s. induction n as [|n IH]; intros ram d s; [done|]. apply IH. Qed.

(** The user library's [memmove], which copies upwards exactly when the
    source is above the destination, and the kernel's, which copies downwards
    exactly when the destination lies inside the source, leave the same
    memory. *)
Theorem u_memmove_agrees ram dst src n x (Hok : bytes_ok ram) (Hn : 0 <= n) :
  rd8 (u_memmove ram dst src n) x = rd8 (memmove ram dst src n) x.
Proof.
  rewrite rd8_memmove by done. unfold u_memmove. destruct (Z.ltb_spec dst src).
  - rewrite u_copy_up_eq, rd8_copy_up, Z2Nat.id by (done || lia). done.
  - rewrite u_copy_down_eq, rd8_copy_down, Z2Nat.id by (done || lia).
    zbool; try done. f_equal. lia.
Qed.

(** * Numbers *)

Lemma atoi_from_number cs n :
  Forall (fun c => 0 <= digit_value c < 10) cs -> 0 <= n ->
  n * 10 ^ Z.of_nat (length cs) + number 10 (digit_value <$> cs) < 2 ^ 31 ->
  atoi_from cs n = n * 10 ^ Z.of_nat (length cs) + number 10 (digit_value <$> cs).
Proof.
  intros Hf. revert n. induction Hf as [|c cs Hc Hf IH]; intros n Hn Hlt.
  - cbn in *. unfold number. cbn. lia.
  - cbn [atoi_from fmap list_fmap length] in *.
    assert (ch "0" <= c <= ch "9" /\ digit_value c = c - ch "0") as [Hr Ev].
    { unfold digit_value in *. revert Hc. change (ch "0") with 48. change (ch "9") with 57.
      change (ch "a") with 97. change (ch "f") with 102. change (ch "A") with 65. change (ch "F") with 70.
      zbool; lia. }
    rewrite (proj2 (Z.leb_le _ _)), (proj2 (Z.leb_le _ _)) by lia. cbn [andb].
    set (d := digit_value <$> cs) in *.
    assert (number 10 (digit_value c :: d) = digit_value c * 10 ^ Z.of_nat (length cs) + number 10 d) as E.
    { change (digit_value c :: d) with ([digit_value c] ++ d). rewrite number_app. unfold d at 1.
      rewrite length_fmap. unfold number at 1. cbn [foldl]. lia. }
    rewrite E in Hlt |- *. rewrite Nat2Z.inj_succ, Z.pow_succ_r in Hlt |- * by lia.
    assert (0 <= number 10 d).
    { apply number_bound; [lia|]. unfold d. rewrite Forall_fmap. exact Hf. }
    assert (0 < 10 ^ Z.of_nat (length cs)) by (apply Z.pow_pos_nonneg; lia).
    set (m := n * 10 + c - ch "0").
    assert (m * 10 ^ Z.of_nat (length cs) + number 10 d < 2 ^ 31) by (unfold m; rewrite Ev in *; lia).
    assert (0 <= m < 2 ^ 31) by (unfold m in *; nia).
    assert (s32 m = m) as -> by (unfold s32; rewrite Z.mod_small; lia).
    rewrite IH by lia. unfold m. rewrite Ev. lia.
Qed.

(** [atoi] reads back what [printf("%d")] prints, for a non-negative [int],
    at any address the text is stored at. *)
Theorem atoi_reads_printf n ram p fuel (Hn : 0 <= n < 2 ^ 31) :
  exists cs, vprintf (fun _ => []) (fun _ => n) (chars "%d") = Some cs /\
    (cstring ram p cs -> (length cs < fuel)%nat -> u_atoi fuel ram p = Some n).
Proof.
  destruct (int_chars_numeral u_digits n 10 true) as (cs & E & (ds & Eds & Hf & Hv & _) & _);
    [by right|lia|by left|].
  exists cs. split.
  - assert (s32 n = n) as Es by (unfold s32; rewrite Z.mod_small; lia).
    unfold vprintf. cbn [length chars vprintf_loop]. change (chars "%d") with [37; 100].
    transitivity (cs' ← int_chars u_digits (s32 n) 10 true; app cs' <$> Some ([] : list Z)); [done|].
    rewrite Es, E. cbn. by rewrite app_nil_r.
  - intros Hc Hl. rewrite (u_atoi_of fuel ram p cs Hc Hl). f_equal. rewrite Eds.
    rewrite (proj2 (Z.ltb_ge n 0)) by lia. cbn [app]. unfold atoi_of.
    rewrite Z.abs_eq in Hv by lia. rewrite atoi_from_number; rewrite ?Hv; [lia|done|lia|lia].
Qed.

(** * Reading a line *)

(** [gets(buf, max)] terminates, whatever the reads return, and never
    stores past the [max] bytes of its buffer (the NUL included); it takes from
    the input exactly the characters it returns, and only the last of them can
    be a newline or a carriage return. *)
Theorem gets_correct max w (Hmax : 1 <= max) :
  uwp posix (fun s w' => w_in w 0 = s ++ w_in w' 0 /\ w_out w' = w_out w /\
      Z.of_nat (length s) + 1 <= max /\
      forall i c, s !! i = Some c -> c = 10 \/ c = 13 -> S i = length s)
    (fun _ _ => False) (gets max) w.
Proof.
  apply (uwp_while posix (fun s w' => w_in w 0 = s ++ w_in w' 0 /\ w_out w' = w_out w /\
      Z.of_nat (length s) + 1 <= max /\ forall i c, s !! i = Some c -> c <> 10 /\ c <> 13)
    (fun s _ => Z.to_nat (max - Z.of_nat (length s)))); [|cbn; done].
  intros s w1 (Hin & Hout & Hlen & Hnl).
  assert (forall i c, s !! i = Some c -> c = 10 \/ c = 13 -> S i = length s) as Hend
    by (intros i c Hi Hc; destruct (Hnl i c Hi); lia).
  destruct (Z.ltb_spec (Z.of_nat (length s) + 1) max) as [Hlt|Hge]; [|by apply uwp_ret].
  apply uwp_call; [done|]. intros [cc bs] w2 Hr. inversion Hr as [bs' rest Hne Hle Erd|Heof|]; subst.
  - destruct bs as [|c [|? ?]]; [done| |cbn in Hle; lia]. change (Z.of_nat (length [c]) <? 1) with false.
    cbv iota beta. cbn [head from_option]. unfold id.
    assert (forall i b, (s ++ [c]) !! i = Some b -> b = 10 \/ b = 13 -> S i = length (s ++ [c])) as Hend'.
    { intros i b Hi Hb. rewrite length_app. cbn. apply lookup_app_Some in Hi as [Hi|[Hi1 Hi2]].
      - destruct (Hnl i b Hi). lia.
      - apply lookup_lt_Some in Hi2. cbn in Hi2. lia. }
    apply uwp_ret. rewrite Hin, Erd in *. cbn [set_in w_in w_out].
    match goal with |- context [if ?b then _ else _] => destruct b eqn:Ec end.
    + rewrite fupd_eq, <- app_assoc. split; [done|]. split; [done|]. split; [rewrite length_app; cbn; lia|exact Hend'].
    + rewrite fupd_eq, <- app_assoc, !length_app. cbn [length]. split; [|lia]. split; [done|]. split; [done|].
      split; [lia|]. intros i b Hi. apply lookup_app_Some in Hi as [Hi|[Hi1 Hi2]]; [by apply (Hnl i)|].
      destruct (i - length s)%nat; [|done]. injection Hi2 as <-. lia.
  - change (0 <? 1) with true. by apply uwp_ret.
  - change (-1 <? 1) with true. by apply uwp_ret.
Qed.

(** * Output *)

(** The text of a format. *)
Definition text_of (fmt : list Z) (args : list uarg) : list Z :=
  default [] (vprintf (arg_text args) (arg_slot args) fmt).

(** Where writes succeed [fprintf] writes the text. *)
Lemma fprintf_smooth fd fmt args w :
  uwp smooth (fun _ w' => wrote fd (text_of fmt args) w w') (fun _ _ => False) (fprintf fd fmt args) w.
Proof.
  unfold fprintf. fold (text_of fmt args). generalize (text_of fmt args). intros cs.
  eapply uwp_mono; [apply (uwp_each _ (fun l w' => exists d, cs = d ++ l /\ wrote fd d w w') (fun _ _ => False))| |done].
  - intros c l w1 (d & -> & Hd). apply uwp_write, uwp_ret. exists (d ++ [c]). rewrite <- app_assoc.
    split; [done|]. eapply wrote_trans; [exact Hd|apply wrote_add_out].
  - exists []. split; [done|apply wrote_nil].
  - intros _ w' (d & -> & Hd). by rewrite app_nil_r.
Qed.

(** In any case it terminates, and what it writes goes to [fd]. *)
Lemma fprintf_ends fd fmt args w :
  uwp posix (fun _ w' => exists bs, wrote fd bs w w') (fun _ _ => False) (fprintf fd fmt args) w.
Proof.
  unfold fprintf. apply (uwp_each _ (fun _ w' => exists bs, wrote fd bs w w')); [|exists []; apply wrote_nil].
  intros c l w1 [d Hd]. apply uwp_call; [done|]. intros a w2 Hw. apply uwp_ret.
  inversion Hw; subst; [|by exists d]. eexists. eapply wrote_trans; [exact Hd|apply wrote_add_out].
Qed.

(** * Witnesses *)

Lemma u_memmove_agrees_witness :
  rd8 (u_memmove demo_ram 102 100 5) 104 = rd8 (memmove demo_ram 102 100 5) 104.
Proof. apply (u_memmove_agrees demo_ram 102 100 5 104 demo_bytes_ok). lia. Defined.

Lemma atoi_reads_printf_witness :
  exists cs, vprintf (fun _ => []) (fun _ => 42) (chars "%d") = Some cs /\
    (cstring (arr_mem 100 [52; 50; 0] ∅) 100 cs -> (length cs < 5)%nat ->
     u_atoi 5 (arr_mem 100 [52; 50; 0] ∅) 100 = Some 42).
Proof. apply (atoi_reads_printf 42 (arr_mem 100 [52; 50; 0] ∅) 100 5). lia. Defined.

Definition demo_world : world := World (fun fd => if fd =? 0 then chars "ls -l" ++ [10; 120] else []) (fun _ => []) (fun _ => None).

Lemma gets_correct_witness :
  uwp posix (fun s w' => w_in demo_world 0 = s ++ w_in w' 0 /\ w_out w' = w_out demo_world /\
      Z.of_nat (length s) + 1 <= 100 /\
      forall i c, s !! i = Some c -> c = 10 \/ c = 13 -> S i = length s)
    (fun _ _ => False) (gets 100) demo_world.
Proof. apply (gets_correct 100 demo_world). lia. Defined.
