(* ===== verification/Grep.v ===== *)
(** user/grep.c: the regular-expression matcher of Kernighan and Pike and the
    program around it.

    Patterns and lines are strings without their NUL.  [grep]'s buffer of 1024
    bytes is the list of the bytes in it. *)
From S2P Require Import Prelude Chars Sys Ulib.
Open Scope usr_scope.

(** * The matcher *)

(** [matchstar(c, re, text)]; [here] is [matchhere(re, .)]. *)
Fixpoint matchstar (here : list Z -> bool) (c : Z) (text : list Z) : bool :=
  if here text then true else
  match text with
  | [] => false
  | t :: text' => if (t =? c) || (c =? ch ".") then matchstar here c text' else false
  end.

Fixpoint matchhere (re text : list Z) {struct re} : bool :=
  match re with
  | [] => true
  | c :: re1 =>
      let rest (_ : unit) :=
        if (c =? ch "$") && bool_decide (re1 = []) then bool_decide (text = [])
        else match text with
             | t :: text' => if (c =? ch ".") || (c =? t) then matchhere re1 text' else false
             | [] => false
             end in
      match re1 with
      | d :: re2 => if d =? ch "*" then matchstar (matchhere re2) c text else rest tt
      | [] => rest tt
      end
  end.

(** The [do] loop over the positions of [text]. *)
Fixpoint matchany (re text : list Z) : bool :=
  if matchhere re text then true else
  match text with
  | [] => false
  | _ :: text' => matchany re text'
  end.

Definition grep_match (re text : list Z) : bool :=
  match re with
  | c :: re' => if c =? ch "^" then matchhere re' text else matchany re text
  | [] => matchany re text
  end.

(** * The program *)

Definition BUFSZ : Z := 1024.

(** The loop over the lines in the buffer; it returns what follows the last
    newline. *)
Definition grep_lines (pattern buf : list Z) : U (list Z) :=
  while (fun p : list Z =>
    match strchr_at (upto_nul p) NEWLINE with
    | Some q =>
        unless (negb (grep_match pattern (take q p))) (sys (Write 1 (take (S q) p)) ;; uret tt) ;;
        uret (inl (drop (S q) p))
    | None => uret (inr p)
    end) buf.

Definition grep (pattern : list Z) (fd : Z) : U unit :=
  while (fun buf : list Z =>
    r <- sys (Read fd (BUFSZ - Z.of_nat (length buf) - 1)) ;;
    let '(n, bs) := r in
    if n <=? 0 then uret (inr tt) else
    rest <- grep_lines pattern (buf ++ bs) ;;
    uret (inl rest)) [].

Definition grep_main (argv : list (list Z)) : U Z :=
  match argv with
  | _ :: pattern :: files =>
      (if bool_decide (files = []) then grep pattern 0 ;; exit 0 else uret tt) ;;
      each files (fun file =>
        fd <- sys (Open file O_RDONLY) ;;
        if fd <? 0 then
          uprintf (nl "grep: cannot open %s") [T file] ;;
          exit 1
        else
          grep pattern fd ;;
          sys (Close fd) ;;
          uret tt) ;;
      exit 0
  | _ =>
      fprintf 2 (nl "usage: grep pattern [file ...]") [] ;;
      exit 1
  end.

(** * What a pattern means *)

Inductive item := Chr (c : Z) | Rep (c : Z) | Eol.

(** A pattern: characters, each perhaps starred, and a final [$]. *)
Fixpoint parse_re (re : list Z) : list item :=
  match re with
  | [] => []
  | c :: re1 =>
      match re1 with
      | d :: re2 => if d =? ch "*" then Rep c :: parse_re re2 else Chr c :: parse_re re1
      | [] => if c =? ch "$" then [Eol] else [Chr c]
      end
  end.

Definition fits (c t : Z) : Prop := c = ch "." \/ c = t.

(** [lang l u rest]: the items match the text [u], followed by [rest]. *)
Inductive lang : list item -> list Z -> list Z -> Prop :=
| lang_nil rest : lang [] [] rest
| lang_chr c t l u rest : fits c t -> lang l u rest -> lang (Chr c :: l) (t :: u) rest
| lang_stop c l u rest : lang l u rest -> lang (Rep c :: l) u rest
| lang_more c t l u rest : fits c t -> lang (Rep c :: l) u rest -> lang (Rep c :: l) (t :: u) rest
| lang_eol : lang [Eol] [] [].

Lemma matchstar_correct here c text :
  matchstar here c text = true <->
  exists u rest, text = u ++ rest /\ Forall (fits c) u /\ here rest = true.
Proof.
  induction text as [|t text IH]; cbn [matchstar].
  - destruct (here []) eqn:E; [split; [|done]; by exists [], []|]. split; [done|].
    intros (u & rest & Eq & _ & Hh). symmetry in Eq. apply app_eq_nil in Eq as [-> ->]. congruence.
  - destruct (here (t :: text)) eqn:E; [split; [|done]; by exists [], (t :: text)|].
    transitivity (fits c t /\ matchstar here c text = true).
    { unfold fits. destruct (Z.eqb_spec t c), (Z.eqb_spec c (ch ".")); cbn [orb]; naive_solver. }
    rewrite IH. split.
    + intros (Hf & u & rest & -> & Hu & Hh). exists (t :: u), rest. split; [done|]. by split; [constructor|].
    + intros (u & rest & Eq & Hu & Hh). destruct u as [|t' u]; [cbn in Eq; subst; congruence|].
      injection Eq as -> ->. inversion Hu; subst. split; [done|]. by exists u, rest.
Qed.

Lemma lang_rep c l u rest :
  lang (Rep c :: l) u rest <-> exists u1 u2, u = u1 ++ u2 /\ Forall (fits c) u1 /\ lang l u2 rest.
Proof.
  split.
  - remember (Rep c :: l) as l0 eqn:El. induction 1 as [| |c' l' u rest H IH|c' t l' u rest Hf H IH|]; try done;
      injection El as -> ->.
    + by exists [], u.
    + destruct IH as (u1 & u2 & -> & Hu & Hl); [done|]. exists (t :: u1), u2. split; [done|]. by split; [constructor|].
  - intros (u1 & u2 & -> & Hu & Hl). induction Hu as [|t u1 Hf Hu IH]; [by apply lang_stop|by apply lang_more].
Qed.

(** [matchhere] decides whether some prefix of the text matches. *)
Lemma matchhere_correct re text :
  matchhere re text = true <-> exists u rest, text = u ++ rest /\ lang (parse_re re) u rest.
Proof.
  remember (length re) as n eqn:En. revert re text En. induction n as [n IH] using lt_wf_ind. intros re text ->.
  destruct re as [|c re1]; [split; [|done]; exists [], text; by split; [|constructor]|].
  assert (forall t, matchhere re1 t = true <-> exists u rest, t = u ++ rest /\ lang (parse_re re1) u rest) as IH1.
  { intros t. apply (IH (length re1)); [cbn; lia|done]. }
  assert (forall text : list Z, match text with
      | t :: text' => if (c =? ch ".") || (c =? t) then matchhere re1 text' else false
      | [] => false end = true <->
    exists u rest, text = u ++ rest /\ lang (Chr c :: parse_re re1) u rest) as Hchr.
  { clear text. intros [|t text].
    - split; [done|]. intros (u & rest & E & H). symmetry in E. apply app_eq_nil in E as [-> ->]. inversion H.
    - transitivity (fits c t /\ matchhere re1 text = true).
      { unfold fits. destruct (Z.eqb_spec c t), (Z.eqb_spec c (ch ".")); cbn [orb]; naive_solver. }
      rewrite IH1. split.
      + intros (Hf & u & rest & -> & H). exists (t :: u), rest. split; [done|]. by constructor.
      + intros (u & rest & E & H). inversion H; subst. injection E as -> ->. split; [done|]. eauto. }
  destruct re1 as [|d re2].
  - cbn [matchhere parse_re]. rewrite bool_decide_eq_true_2, andb_true_r by done.
    destruct (c =? ch "$"); [|apply Hchr]. rewrite bool_decide_eq_true. split.
    + intros ->. exists [], []. split; [done|constructor].
    + intros (u & rest & -> & H). by inversion H.
  - change (matchhere (c :: d :: re2) text) with
      (if d =? ch "*" then matchstar (matchhere re2) c text else
       if (c =? ch "$") && bool_decide (d :: re2 = []) then bool_decide (text = []) else
       match text with
       | t :: text' => if (c =? ch ".") || (c =? t) then matchhere (d :: re2) text' else false
       | [] => false end).
    change (parse_re (c :: d :: re2)) with (if d =? ch "*" then Rep c :: parse_re re2 else Chr c :: parse_re (d :: re2)).
    destruct (d =? ch "*").
    + rewrite matchstar_correct. split.
      * intros (u & rest & -> & Hu & Hh). apply (IH (length re2)) in Hh as (u2 & rest2 & -> & Hl); [|cbn; lia|done].
        exists (u ++ u2), rest2. split; [by rewrite app_assoc|]. apply lang_rep. eauto.
      * intros (u & rest & -> & Hl). apply lang_rep in Hl as (u1 & u2 & -> & Hu & Hl).
        exists u1, (u2 ++ rest). split; [by rewrite app_assoc|]. split; [done|].
        apply (IH (length re2)); [cbn; lia|done|eauto].
    + rewrite bool_decide_eq_false_2, andb_false_r by done. apply Hchr.
Qed.

Lemma matchany_correct re text :
  matchany re text = true <->
  exists pre u rest, text = pre ++ u ++ rest /\ lang (parse_re re) u rest.
Proof.
  induction text as [|t text IH]; cbn [matchany].
  - destruct (matchhere re []) eqn:E.
    + split; [|done]. intros _. apply matchhere_correct in E as (u & rest & E & H). by exists [], u, rest.
    + split; [done|]. intros (pre & u & rest & Eq & H). symmetry in Eq. apply app_eq_nil in Eq as [-> Eq].
      rewrite <- E. apply matchhere_correct. exists u, rest. by rewrite Eq.
  - destruct (matchhere re (t :: text)) eqn:E.
    + split; [|done]. intros _. apply matchhere_correct in E as (u & rest & E & H). by exists [], u, rest.
    + rewrite IH. split.
      * intros (pre & u & rest & -> & H). by exists (t :: pre), u, rest.
      * intros (pre & u & rest & Eq & H). destruct pre as [|t' pre].
        { exfalso. enough (matchhere re (t :: text) = true) by congruence. apply matchhere_correct. by exists u, rest. }
        injection Eq as -> ->. eauto.
Qed.

(** The lines a pattern selects: some part of the line matches it, from its
    start on for a pattern that begins with [^]. *)
Definition selects (re text : list Z) : Prop :=
  exists pre u rest, text = pre ++ u ++ rest /\
    match re with
    | c :: re' => if c =? ch "^" then pre = [] /\ lang (parse_re re') u rest else lang (parse_re re) u rest
    | [] => True
    end.

Lemma grep_match_correct re text : grep_match re text = true <-> selects re text.
Proof.
  unfold grep_match, selects. destruct re as [|c re].
  - rewrite matchany_correct. split; intros (pre & u & rest & E & H); [by exists pre, u, rest|].
    exists [], [], text. split; [done|constructor].
  - destruct (c =? ch "^"); [|apply matchany_correct]. rewrite matchhere_correct. split.
    + intros (u & rest & E & H). by exists [], u, rest.
    + intros (pre & u & rest & E & -> & H). by exists u, rest.
Qed.

(** C36. The matcher of [grep] decides the language of the pattern: a pattern of
    characters (with [.] for any), starred characters and a final [$] matches a
    line exactly when a part of the line is in its language, up to the end of
    the line for [$], from its start on for [^]. *)
Theorem match_decides_language re text : grep_match re text = true <-> selects re text.
Proof. apply grep_match_correct. Qed.

(** * The lines printed *)

(** A text line: no newline and no NUL in it. *)
Definition is_line (l : list Z) : Prop := Forall (fun c => c <> NEWLINE /\ c <> 0) l.
Definition lines (ls : list (list Z)) : list Z := concat ((fun l => l ++ [NEWLINE]) <$> ls).
Definition grepped (pattern : list Z) (ls : list (list Z)) : list Z :=
  lines (filter (fun l => grep_match pattern l = true) ls).

Lemma lines_app ls ls' : lines (ls ++ ls') = lines ls ++ lines ls'.
Proof. unfold lines. by rewrite fmap_app, concat_app. Qed.
Lemma grepped_app p ls ls' : grepped p (ls ++ ls') = grepped p ls ++ grepped p ls'.
Proof. unfold grepped. by rewrite filter_app, lines_app. Qed.

Lemma strchr_line l bs : is_line l -> strchr_at (upto_nul (l ++ NEWLINE :: bs)) NEWLINE = Some (length l).
Proof.
  induction 1 as [|c l [H1 H2] H IH]; [done|]. cbn.
  rewrite (proj2 (Z.eqb_neq _ _) H2). cbn. rewrite (proj2 (Z.eqb_neq _ _) H1). by rewrite IH.
Qed.
Lemma strchr_none l : is_line l -> strchr_at (upto_nul l) NEWLINE = None.
Proof.
  induction 1 as [|c l [H1 H2] H IH]; [done|]. cbn.
  rewrite (proj2 (Z.eqb_neq _ _) H2). cbn. rewrite (proj2 (Z.eqb_neq _ _) H1). by rewrite IH.
Qed.

(** The buffer is some of the lines and a part of what follows them. *)
Lemma lines_prefix ls tail bs rest :
  Forall is_line ls -> is_line (take 1023 tail) -> (length bs <= 1023)%nat -> lines ls ++ tail = bs ++ rest ->
  exists ls1 ls2 t, ls = ls1 ++ ls2 /\ bs = lines ls1 ++ t /\ is_line t /\ lines ls2 ++ tail = t ++ rest.
Proof.
  intros Hls Ht. revert bs. induction Hls as [|l ls Hl Hls IH]; intros bs Hb E.
  - exists [], [], bs. cbn in E. split_and!; [done..| |done].
    rewrite E in Ht. rewrite take_app_ge in Ht by done. by apply Forall_app in Ht as [? _].
  - unfold lines in E. cbn [fmap list_fmap concat] in E. fold (lines ls) in E. rewrite <- !app_assoc in E. cbn [app] in E.
    destruct (decide (length bs <= length l)%nat) as [Hle|Hgt].
    + exists [], (l :: ls), bs. split; [done|]. split; [done|].
      assert (bs = take (length bs) l) as Eb.
      { rewrite <- (take_app_le l (NEWLINE :: lines ls ++ tail)), E, take_app_length by done. done. }
      split; [rewrite Eb; by apply Forall_take|]. rewrite <- E. unfold lines. cbn. by rewrite <- !app_assoc.
    + assert (exists bs', bs = l ++ NEWLINE :: bs' /\ lines ls ++ tail = bs' ++ rest) as (bs' & -> & E').
      { exists (drop (S (length l)) bs).
        assert (take (S (length l)) bs = l ++ [NEWLINE]) as Et.
        { rewrite <- (take_app_le bs rest) by lia. rewrite <- E.
          change (NEWLINE :: lines ls ++ tail) with ([NEWLINE] ++ lines ls ++ tail). rewrite app_assoc.
          rewrite take_app_le by (rewrite length_app; cbn; lia). apply take_ge. rewrite length_app. cbn. lia. }
        assert (bs = l ++ NEWLINE :: drop (S (length l)) bs) as Eb.
        { rewrite <- (take_drop (S (length l)) bs) at 1. rewrite Et. by rewrite <- app_assoc. }
        split; [exact Eb|]. rewrite Eb, <- app_assoc in E. apply app_inv_head in E.
        cbn in E. by injection E. }
      rewrite length_app in Hb. cbn in Hb.
      destruct (IH bs' ltac:(lia) E') as (ls1 & ls2 & t & -> & -> & Hit & Et).
      exists (l :: ls1), ls2, t. split; [done|]. split; [unfold lines; cbn; by rewrite <- !app_assoc|done].
Qed.

(** At the end of the input, or with the buffer full, no line is left. *)
Lemma lines_stop ls t tail rest :
  is_line t -> Forall (fun l : list Z => (length l <= 1022)%nat) ls -> lines ls ++ tail = t ++ rest ->
  rest = [] \/ (length t = 1023)%nat -> ls = [].
Proof.
  intros Hl Hlen Er Hs. destruct ls as [|l ls]; [done|]. exfalso.
  apply Forall_cons in Hlen as [Hll _].
  assert ((lines (l :: ls) ++ tail) !! length l = Some NEWLINE) as E1.
  { unfold lines. cbn [fmap list_fmap concat]. rewrite <- !app_assoc. cbn [app]. by rewrite list_lookup_middle. }
  assert (t !! length l = Some NEWLINE) as Hnl.
  { rewrite Er in E1. destruct Hs as [->|Hs]; [by rewrite app_nil_r in E1|].
    by rewrite lookup_app_l in E1 by lia. }
  apply (proj1 (Forall_lookup _ _) Hl) in Hnl as [? _]. done.
Qed.

Lemma grep_lines_correct pattern ls t w :
  Forall is_line ls -> is_line t ->
  uwp smooth (fun r w' => r = t /\ w_in w' = w_in w /\ w_out w' 1 = w_out w 1 ++ grepped pattern ls) (fun _ _ => False)
    (grep_lines pattern (lines ls ++ t)) w.
Proof.
  intros Hls Ht. unfold grep_lines.
  apply (uwp_while _ (fun p w' => exists ls1 ls2, ls = ls1 ++ ls2 /\ p = lines ls2 ++ t /\
    w_in w' = w_in w /\ w_out w' 1 = w_out w 1 ++ grepped pattern ls1) (fun p _ => length p)).
  2: { exists [], ls. split_and!; [done..|]. cbn. by rewrite app_nil_r. }
  intros p w' (ls1 & [|l ls2] & E & -> & Hi & Ho).
  - cbn [lines fmap list_fmap concat app]. rewrite strchr_none by done. apply uwp_ret.
    rewrite app_nil_r in E. by subst.
  - assert (is_line l) as Hl by (rewrite Forall_forall in Hls; apply Hls; set_solver).
    unfold lines. cbn [fmap list_fmap concat]. fold (lines ls2). rewrite <- !app_assoc. cbn [app].
    rewrite strchr_line by done. rewrite take_app_length.
    assert (forall x, take (S (length l)) (l ++ NEWLINE :: x) = l ++ [NEWLINE]) as Etk.
    { intros x. change (NEWLINE :: x) with ([NEWLINE] ++ x). rewrite app_assoc.
      apply take_app_length'. rewrite length_app. cbn. lia. }
    assert (forall x, drop (S (length l)) (l ++ NEWLINE :: x) = x) as Edr.
    { intros x. change (NEWLINE :: x) with ([NEWLINE] ++ x). rewrite app_assoc.
      apply drop_app_length'. rewrite length_app. cbn. lia. }
    rewrite Etk, Edr.
    assert (grepped pattern (ls1 ++ [l]) = grepped pattern ls1 ++ (if grep_match pattern l then l ++ [NEWLINE] else [])) as Eg.
    { rewrite grepped_app. f_equal. unfold grepped, filter. cbn. case_decide as D.
      - rewrite D. unfold lines. cbn. by rewrite app_nil_r.
      - by destruct (grep_match pattern l). }
    apply uwp_bind. destruct (grep_match pattern l) eqn:Em; cbn [negb unless].
    + apply uwp_sys; [exists (Z.of_nat (length (l ++ [NEWLINE]))), (add_out 1 (l ++ [NEWLINE]) w'); by apply smooth_write|].
      intros a w'' [-> ->]%smooth_write. apply uwp_ret, uwp_ret. split.
      * exists (ls1 ++ [l]), ls2. rewrite E, <- app_assoc. split_and!; [done..|].
        cbn [add_out w_out]. by rewrite fupd_eq, Ho, Eg, <- app_assoc.
      * rewrite !length_app. cbn. rewrite !length_app. lia.
    + apply uwp_ret, uwp_ret. split.
      * exists (ls1 ++ [l]), ls2. rewrite E, <- app_assoc. split_and!; [done..|].
        by rewrite Ho, Eg, app_nil_r.
      * rewrite !length_app. cbn. rewrite !length_app. lia.
Qed.

(** C37. Where reads and writes do not fail, [grep] prints to descriptor 1
    exactly the matching lines among the lines of at most 1022 characters that
    start the input, each with its newline, and returns.  What follows them, a
    last line with no newline or a line that the buffer does not hold (then
    also all that comes after it), is not searched. *)
Theorem grep_correct (pattern : list Z) (fd : Z) (ls : list (list Z)) (tail : list Z) (w : world) :
  Forall is_line ls -> Forall (fun l : list Z => (length l <= 1022)%nat) ls -> is_line (take 1023 tail) ->
  w_in w fd = lines ls ++ tail ->
  uwp smooth (fun _ w' => w_out w' 1 = w_out w 1 ++ grepped pattern ls) (fun _ _ => False)
    (grep pattern fd) w.
Proof.
  intros Hls Hlen Ht Hin. unfold grep.
  apply (uwp_while _ (fun t w' => exists ls1 ls2, ls = ls1 ++ ls2 /\ is_line t /\ (length t <= 1023)%nat /\
    lines ls2 ++ tail = t ++ w_in w' fd /\ w_out w' 1 = w_out w 1 ++ grepped pattern ls1)
    (fun _ w' => length (w_in w' fd))).
  2: { exists [], ls. cbn. rewrite app_nil_r. split_and!; [done|constructor|lia|done..]. }
  intros t w' (ls1 & ls2 & E & Hl & Hlt & Er & Ho).
  assert (Forall is_line ls2 /\ Forall (fun l : list Z => (length l <= 1022)%nat) ls2) as [Hls2 Hlen2].
  { rewrite E, !Forall_app in Hls, Hlen. tauto. }
  pose proof (lines_stop ls2 t tail (w_in w' fd) Hl Hlen2 Er) as Hstop.
  apply uwp_sys; [apply smooth_read|]. intros a w'' [Hr Hp]. cbn in Hr.
  inversion Hr as [bs rest Hne Hn Hbs|Hs|]; subst a w''; cbn in Hp; [..|lia].
  - rewrite (proj2 (Z.leb_gt _ _)) by (destruct bs; [done|cbn; lia]).
    unfold BUFSZ in Hn.
    destruct (lines_prefix ls2 tail (t ++ bs) rest Hls2 Ht) as (la & lb & t' & -> & Eb & Ht' & Erest).
    { rewrite length_app. lia. }
    { rewrite Er, Hbs. by rewrite app_assoc. }
    apply uwp_bind. rewrite Eb. eapply uwp_mono; [apply grep_lines_correct; [|done]| |done].
    { by apply Forall_app in Hls2 as [? _]. }
    intros r w2 (-> & Hi2 & Ho2). apply uwp_ret. cbn [set_in w_in w_out] in Hi2, Ho2. rewrite Hi2, fupd_eq. split.
    + exists (ls1 ++ la), lb. rewrite E, app_assoc. split_and!; [done..| |done|].
      * apply (f_equal length) in Eb. rewrite !length_app in Eb. lia.
      * by rewrite Ho2, Ho, grepped_app, <- app_assoc.
    + rewrite Hbs, length_app. destruct bs; [done|cbn; lia].
  - cbn. apply uwp_ret. rewrite Ho, E. rewrite Hstop; [by rewrite app_nil_r|].
    destruct Hs as [Hs|Hs]; [by left|]. unfold BUFSZ in Hs. right. lia.
Qed.

Definition grep_world : world :=
  World (fun fd => if fd =? 0 then lines [chars "one"; chars "two"; chars "three"] ++ chars "tw" else [])
    (fun _ => []) (fun _ => None).

Lemma grep_correct_witness :
  uwp smooth (fun _ w' => w_out w' 1 = lines [chars "two"; chars "three"]) (fun _ _ => False)
    (grep (chars "^t") 0) grep_world.
Proof.
  apply (grep_correct (chars "^t") 0 [chars "one"; chars "two"; chars "three"] (chars "tw") grep_world).
  - apply (bool_decide_unpack _). vm_compute. exact Logic.I.
  - apply (bool_decide_unpack _). vm_compute. exact Logic.I.
  - apply (bool_decide_unpack _). vm_compute. exact Logic.I.
  - exact eq_refl.
Defined.
