(* ===== verification/Utils.v ===== *)
(** The small programs of user/: cat, echo, wc, kill, ln, mkdir, rm, ls, init,
    zombie, forktest, forphan, dorphan, stressfs and logstress.

    Each is a tree of system calls as in Sys.  [argv] is the list of the
    arguments, the program's name first.  Buffers are the bytes they hold. *)
From S2P Require Import Prelude Chars Format Memory Bytes Kstring Kstate Sys Ulib.
Open Scope usr_scope.

(** * cat.c *)

Definition cat_file (fd : Z) : U unit :=
  while (fun _ : unit =>
    r <- sys (Read fd 512) ;;
    let '(n, bs) := r in
    if 0 <? n then
      k <- sys (Write 1 bs) ;;
      if negb (k =? n) then fprintf 2 (nl "cat: write error") [] ;; exit 1
      else uret (inl tt)
    else if n <? 0 then fprintf 2 (nl "cat: read error") [] ;; exit 1
    else uret (inr tt)) tt.

Definition cat_main (argv : list (list Z)) : U Z :=
  (if bool_decide (length argv <= 1)%nat then cat_file 0 ;; exit 0 else uret tt) ;;
  each (drop 1 argv) (fun file =>
    fd <- sys (Open file O_RDONLY) ;;
    (if fd <? 0 then fprintf 2 (nl "cat: cannot open %s") [T file] ;; exit 1 else uret tt) ;;
    cat_file fd ;;
    sys (Close fd) ;;
    uret tt) ;;
  exit 0.

(** * echo.c *)

Fixpoint echo_loop (args : list (list Z)) : U unit :=
  match args with
  | [] => uret tt
  | a :: args' =>
      sys (Write 1 a) ;;
      (if bool_decide (args' <> []) then sys (Write 1 (chars " ")) else sys (Write 1 [NEWLINE])) ;;
      echo_loop args'
  end.
Definition echo_main (argv : list (list Z)) : U Z := echo_loop (drop 1 argv) ;; exit 0.

(** * wc.c *)

(** The counters [l], [w], [c] (of 32 bits) and [inword]. *)
Record counts := Counts { wc_l : Z; wc_w : Z; wc_c : Z; inword : bool }.

Definition wc_blanks : list Z := [32; 13; 9; 10; 11].

Definition wc_char (k : counts) (b : Z) : counts :=
  let c := s32 (wc_c k + 1) in
  let l := if b =? NEWLINE then s32 (wc_l k + 1) else wc_l k in
  if bool_decide (is_Some (strchr_at wc_blanks b)) then Counts l (wc_w k) c false
  else if negb (inword k) then Counts l (s32 (wc_w k + 1)) c true
  else Counts l (wc_w k) c (inword k).

Definition wc (fd : Z) (name : list Z) : U unit :=
  k <- while (fun k : counts =>
    r <- sys (Read fd 512) ;;
    let '(n, bs) := r in
    if 0 <? n then uret (inl (foldl wc_char k bs))
    else if n <? 0 then uprintf (nl "wc: read error") [] ;; exit 1
    else uret (inr k)) (Counts 0 0 0 false) ;;
  uprintf (nl "%d %d %d %s") [I (wc_l k); I (wc_w k); I (wc_c k); T name].

Definition wc_main (argv : list (list Z)) : U Z :=
  (if bool_decide (length argv <= 1)%nat then wc 0 [] ;; exit 0 else uret tt) ;;
  each (drop 1 argv) (fun file =>
    fd <- sys (Open file O_RDONLY) ;;
    (if fd <? 0 then uprintf (nl "wc: cannot open %s") [T file] ;; exit 1 else uret tt) ;;
    wc fd file ;;
    sys (Close fd) ;;
    uret tt) ;;
  exit 0.

(** * kill.c, ln.c, mkdir.c, rm.c *)

Definition kill_main (argv : list (list Z)) : U Z :=
  (if bool_decide (length argv < 2)%nat then fprintf 2 (nl "usage: kill pid...") [] ;; exit 1 else uret tt) ;;
  each (drop 1 argv) (fun a => sys (Kill (atoi_of a)) ;; uret tt) ;;
  exit 0.

Definition ln_main (argv : list (list Z)) : U Z :=
  match argv with
  | [_; old; new] =>
      r <- sys (Link old new) ;;
      unless (negb (r <? 0)) (fprintf 2 (nl "link %s %s: failed") [T old; T new]) ;;
      exit 0
  | _ => fprintf 2 (nl "Usage: ln old new") [] ;; exit 1
  end.

(** The loops of [mkdir] and [rm]: up to the first failure. *)
Definition try_each (call : list Z -> sysE Z) (complaint : list Z) (args : list (list Z)) : U unit :=
  while (fun l : list (list Z) =>
    match l with
    | [] => uret (inr tt)
    | a :: l' =>
        r <- sys (call a) ;;
        if r <? 0 then fprintf 2 complaint [T a] ;; uret (inr tt) else uret (inl l')
    end) args.

Definition mkdir_main (argv : list (list Z)) : U Z :=
  (if bool_decide (length argv < 2)%nat then fprintf 2 (nl "Usage: mkdir files...") [] ;; exit 1 else uret tt) ;;
  try_each Mkdir (nl "mkdir: %s failed to create") (drop 1 argv) ;;
  exit 0.
Definition rm_main (argv : list (list Z)) : U Z :=
  (if bool_decide (length argv < 2)%nat then fprintf 2 (nl "Usage: rm files...") [] ;; exit 1 else uret tt) ;;
  try_each Unlink (nl "rm: %s failed to delete") (drop 1 argv) ;;
  exit 0.

(** * ls.c *)

(** The index after the last slash, from index [i] down. *)
Fixpoint fmt_scan (path : list Z) (i : nat) : nat :=
  if cat path i =? ch "/" then S i else
  match i with
  | O => O
  | S i' => fmt_scan path i'
  end.

Definition fmtname (path : list Z) : list Z :=
  let p := drop (fmt_scan path (length path)) path in
  if DIRSIZ <=? Z.of_nat (length p) then p
  else p ++ replicate (Z.to_nat DIRSIZ - length p) (ch " ").

Definition ls_line (path : list Z) (st : ustat) : U unit :=
  uprintf (nl "%s %d %d %d") [T (fmtname path); I (st_type st); I (st_ino st); I (s32 (st_size st))].

Definition ls (path : list Z) : U unit :=
  fd <- sys (Open path O_RDONLY) ;;
  if fd <? 0 then fprintf 2 (nl "ls: cannot open %s") [T path] else
  r <- sys (Fstat fd) ;;
  let '(k, st) := r in
  if k <? 0 then
    fprintf 2 (nl "ls: cannot stat %s") [T path] ;;
    sys (Close fd) ;;
    uret tt
  else
  (if (st_type st =? T_DEVICE) || (st_type st =? T_FILE) then ls_line path st
   else if st_type st =? T_DIR then
     if 512 <? Z.of_nat (length path) + 1 + DIRSIZ + 1 then uprintf (nl "ls: path too long") []
     else
       while (fun _ : unit =>
         r <- sys (Read fd 16) ;;
         let '(n, de) := r in
         if negb (n =? 16) then uret (inr tt) else
         if get_le 2 0 de =? 0 then uret (inl tt) else
         let buf := path ++ [ch "/"] ++ upto_nul (sub_bytes 2 (Z.to_nat DIRSIZ) de) in
         r <- stat buf ;;
         let '(k, st) := r in
         if k <? 0 then uprintf (nl "ls: cannot stat %s") [T buf] ;; uret (inl tt)
         else ls_line buf st ;; uret (inl tt)) tt
   else uret tt) ;;
  sys (Close fd) ;;
  uret tt.

Definition ls_main (argv : list (list Z)) : U Z :=
  (if bool_decide (length argv < 2)%nat then ls (chars ".") ;; exit 0 else uret tt) ;;
  each (drop 1 argv) ls ;;
  exit 0.

(** * init.c, zombie.c *)

Definition init_main (_ : list (list Z)) : U Z :=
  fd <- sys (Open (chars "console") O_RDWR) ;;
  unless (negb (fd <? 0)) (
    sys (Mknod (chars "console") CONSOLE 0) ;;
    sys (Open (chars "console") O_RDWR) ;;
    uret tt) ;;
  sys (Dup 0) ;;
  sys (Dup 0) ;;
  while (fun _ : unit =>
    uprintf (nl "init: starting sh") [] ;;
    pid <- sys Fork ;;
    (if pid <? 0 then uprintf (nl "init: fork failed") [] ;; exit 1 else uret tt) ;;
    (if pid =? 0 then
       sys (Exec (chars "sh") [chars "sh"]) ;;
       uprintf (nl "init: exec sh failed") [] ;;
       exit 1
     else uret tt) ;;
    while (fun _ : unit =>
      r <- sys Wait ;;
      let wpid := fst r in
      if wpid =? pid then uret (inr tt)
      else if wpid <? 0 then uprintf (nl "init: wait returned an error") [] ;; exit 1
      else uret (inl tt)) tt ;;
    uret (inl tt)) tt.

Definition zombie_main (_ : list (list Z)) : U Z :=
  pid <- sys Fork ;;
  unless (negb (0 <? pid)) (sys (Pause 5) ;; uret tt) ;;
  exit 0.

(** * forktest.c *)

Definition FORKS : Z := 1000.
Definition ft_print (s : list Z) : U unit := sys (Write 1 s) ;; uret tt.

Definition forktest : U unit :=
  ft_print (nl "fork test") ;;
  n <- while (fun n : Z =>
    if n <? FORKS then
      pid <- sys Fork ;;
      if pid <? 0 then uret (inr n)
      else if pid =? 0 then exit 0
      else uret (inl (n + 1))
    else uret (inr n)) 0 ;;
  (if n =? FORKS then ft_print (nl "fork claimed to work N times!") ;; exit 1 else uret tt) ;;
  while (fun n : Z =>
    if 0 <? n then
      r <- sys Wait ;;
      if fst r <? 0 then ft_print (nl "wait stopped early") ;; exit 1
      else uret (inl (n - 1))
    else uret (inr tt)) n ;;
  r <- sys Wait ;;
  (if negb (fst r =? -1) then ft_print (nl "wait got too many") ;; exit 1 else uret tt) ;;
  ft_print (nl "fork test OK").

Definition forktest_main (_ : list (list Z)) : U Z := forktest ;; exit 0.

(** * forphan.c, dorphan.c *)

Definition pause_forever {A} : U A := while (fun _ : unit => sys (Pause 1000) ;; uret (inl tt)) tt.

Definition forphan_main (argv : list (list Z)) : U Z :=
  let s := default [] (head argv) in
  let ff := chars "file0" in
  fd <- sys (Open ff (Z.lor O_CREATE O_WRONLY)) ;;
  (if fd <? 0 then uprintf (nl "%s: open failed") [T s] ;; exit 1 else uret tt) ;;
  r <- sys (Fstat fd) ;;
  let '(k, st) := r in
  (if k <? 0 then fprintf 2 (nl "%s: cannot stat %s") [T s; T (chars "ff")] ;; exit 1 else uret tt) ;;
  k <- sys (Unlink ff) ;;
  (if k <? 0 then uprintf (nl "%s: unlink failed") [T s] ;; exit 1 else uret tt) ;;
  k <- sys (Open ff O_RDONLY) ;;
  (if negb (k =? -1) then uprintf (nl "%s: open successed") [T s] ;; exit 1 else uret tt) ;;
  uprintf (nl "wait for kill and reclaim %d") [I (st_ino st)] ;;
  pause_forever.

Definition dorphan_main (argv : list (list Z)) : U Z :=
  let s := default [] (head argv) in
  k <- sys (Mkdir (chars "dd")) ;;
  (if negb (k =? 0) then uprintf (nl "%s: mkdir dd failed") [T s] ;; exit 1 else uret tt) ;;
  k <- sys (Chdir (chars "dd")) ;;
  (if negb (k =? 0) then uprintf (nl "%s: chdir dd failed") [T s] ;; exit 1 else uret tt) ;;
  k <- sys (Unlink (chars "../dd")) ;;
  (if k <? 0 then uprintf (nl "%s: unlink failed") [T s] ;; exit 1 else uret tt) ;;
  uprintf (nl "wait for kill and reclaim") [] ;;
  pause_forever.

(** * stressfs.c *)

Definition stressfs_main (_ : list (list Z)) : U Z :=
  uprintf (nl "stressfs starting") [] ;;
  let data := replicate 512 (ch "a") in
  i <- while (fun i : Z =>
    if i <? 4 then
      pid <- sys Fork ;;
      if 0 <? pid then uret (inr i) else uret (inl (i + 1))
    else uret (inr i)) 0 ;;
  uprintf (nl "write %d") [I i] ;;
  let path := chars "stressfs" ++ [u8 (ch "0" + i)] in
  fd <- sys (Open path (Z.lor O_CREATE O_RDWR)) ;;
  each (seq 0 20) (fun _ => sys (Write fd data) ;; uret tt) ;;
  sys (Close fd) ;;
  uprintf (nl "read") [] ;;
  fd <- sys (Open path O_RDONLY) ;;
  each (seq 0 20) (fun _ => sys (Read fd 512) ;; uret tt) ;;
  sys (Close fd) ;;
  sys Wait ;;
  exit 0.

(** * logstress.c

    The one program whose buffer is memory: [buf] is the address of its array
    of [LS_BUFSZ] bytes, [junk] what the uninitialised [xstatus] holds. *)

Definition LS_BUFSZ : Z := 500.
Definition LS_N : nat := 250.
Definition LS_SZ : Z := 2000.

Definition ram_bytes (ram : gmap Z Z) (a n : Z) : list Z := (fun i => rd8 ram (a + i)) <$> seqZ 0 n.

Definition logstress_child (ram : gmap Z Z) (buf i : Z) (name file : list Z) : U unit :=
  fd <- sys (Open file (Z.lor O_CREATE O_RDWR)) ;;
  (if fd <? 0 then uprintf (nl "%s: create %s failed") [T name; T file] ;; exit 1 else uret tt) ;;
  let ram := u_memset ram buf (ch "0" + i) LS_SZ in
  each (seq 0 LS_N) (fun _ =>
    n <- sys (Write fd (ram_bytes ram buf LS_SZ)) ;;
    if negb (n =? LS_SZ) then uprintf (nl "write failed %d") [I n] ;; exit 1 else uret tt) ;;
  exit 0.

Definition logstress_main (ram : gmap Z Z) (buf junk : Z) (argv : list (list Z)) : U Z :=
  let name := default [] (head argv) in
  each (seqZ 1 (Z.of_nat (length argv) - 1)) (fun i =>
    pid1 <- sys Fork ;;
    (if pid1 <? 0 then uprintf (nl "%s: fork failed") [T name] ;; exit 1 else uret tt) ;;
    if pid1 =? 0 then logstress_child ram buf i name (argv !!! Z.to_nat i) else uret tt) ;;
  while (fun x : nat * Z =>
    let '(i, xstatus) := x in
    if (i <? length argv)%nat then
      r <- sys Wait ;;
      let xstatus := if fst r <? 0 then xstatus else snd r in
      if negb (xstatus =? 0) then exit xstatus else uret (inl (S i, xstatus))
    else uret (inr tt)) (1%nat, junk) ;;
  uret 0.

(** * cat *)

(** The contents of the files, one after the other. *)
Definition contents (w : world) (files : list (list Z)) : list Z :=
  concat ((fun f => default [] (w_file w f)) <$> files).

(** [cat_file] copies its input, or stops with an error after a prefix of it. *)
Lemma cat_file_correct fd w :
  uwp posix (fun _ w' => w_out w' 1 = w_out w 1 ++ w_in w fd /\ w_file w' = w_file w)
    (fun st w' => st = 1 /\ exists bs rest, w_in w fd = bs ++ rest /\ w_out w' 1 = w_out w 1 ++ bs)
    (cat_file fd) w.
Proof.
  apply (uwp_while _ (fun _ w' => exists bs, w_in w fd = bs ++ w_in w' fd /\
      w_out w' 1 = w_out w 1 ++ bs /\ w_file w' = w_file w) (fun _ w' => length (w_in w' fd))).
  2: { exists []. by rewrite app_nil_r. }
  intros _ w1 (bs & Hi & Ho & Hf). apply uwp_call; [done|]. intros a w2 Hr.
  inversion Hr as [cs rest Hne Hle Hin|Heof|]; subst a w2.
  - rewrite (proj2 (Z.ltb_lt _ _)) by (destruct cs; [done|cbn; lia]).
    apply uwp_call; [done|]. intros k w3 Hw.
    assert (exists m, (m <= length cs)%nat /\ wrote 1 (take m cs) (set_in fd rest w1) w3 /\
      (k = Z.of_nat (length cs) -> m = length cs)) as (m & Hm & Hwr & Hk).
    { inversion Hw as [m Hm|]; subst.
      - exists m. split; [done|]. split; [apply wrote_add_out|lia].
      - exists O. split; [lia|]. split; [apply wrote_nil|lia]. }
    destruct (Z.eqb_spec k (Z.of_nat (length cs))) as [E|E]; cbn [negb].
    + rewrite (Hk E), take_ge in Hwr by done. apply uwp_ret. destruct Hwr as (I3 & F3 & O3).
      rewrite I3, O3, F3. cbn [set_in w_in w_out w_file]. rewrite fupd_eq. split.
      * exists (bs ++ cs). change (1 =? 1) with true. cbv iota. rewrite Ho, Hi, Hin, <- !app_assoc. done.
      * rewrite Hin, length_app. destruct cs; [done|cbn; lia].
    + apply uwp_bind. eapply uwp_mono; [apply fprintf_ends| |done]. intros _ w4 [d Hd].
      apply uwp_exit. split; [done|]. exists (bs ++ take m cs), (drop m cs ++ rest).
      rewrite (wrote_other _ _ _ _ 1 Hd), (wrote_out _ _ _ _ Hwr) by done. cbn [set_in w_out].
      rewrite Ho, Hi, Hin, <- !app_assoc. split; [|done]. f_equal. by rewrite app_assoc, take_drop.
  - cbn. destruct (w_in w1 fd) eqn:E; [|by destruct Heof]. apply uwp_ret. rewrite app_nil_r in Hi. by subst.
  - cbn. apply uwp_bind. eapply uwp_mono; [apply fprintf_ends| |done]. intros _ w4 [d Hd].
    apply uwp_exit. split; [done|]. exists bs, (w_in w1 fd). by rewrite (wrote_other _ _ _ _ 1 Hd).
Qed.

(** Whatever reads, writes and opens do, [cat] terminates, with status 0 or
    1; what it has written to descriptor 1 is a prefix of the contents of the
    files named, one after the other, and all of it if the status is 0. *)
Theorem cat_main_correct (name : list Z) (files : list (list Z)) (w : world) (Hf : files <> []) :
  uwp posix (fun _ _ => False)
    (fun st w' => exists bs rest, contents w files = bs ++ rest /\ w_out w' 1 = w_out w 1 ++ bs /\
       (st = 0 /\ rest = [] \/ st = 1))
    (cat_main (name :: files)) w.
Proof.
  unfold cat_main. rewrite bool_decide_eq_false_2 by (destruct files; [done|cbn; lia]).
  apply uwp_bind, uwp_ret. cbn [drop]. apply uwp_bind.
  eapply uwp_mono; [apply (uwp_each _ (fun l w' => exists l1, files = l1 ++ l /\ w_file w' = w_file w /\
      w_out w' 1 = w_out w 1 ++ contents w l1))| |intros st w' H; exact H].
  - intros f l w1 (l1 & -> & Hfile & Ho).
    assert (contents w (l1 ++ f :: l) = contents w l1 ++ default [] (w_file w f) ++ contents w l) as Ec
      by (unfold contents; by rewrite fmap_app, concat_app).
    apply uwp_call; [done|]. intros fd w2 Hop. inversion Hop as [fd' bs Hfd Hbs|]; subst.
    + rewrite (proj2 (Z.ltb_ge fd 0)) by done. apply uwp_bind, uwp_ret, uwp_bind.
      rewrite Hfile in Hbs. eapply uwp_mono; [apply cat_file_correct| |].
      * intros _ w3 [Ho3 Hf3]. cbn [set_in w_in w_out w_file] in Ho3, Hf3. rewrite fupd_eq in Ho3.
        apply uwp_call; [done|]. intros a w4 Hc. cbn in Hc. subst w4. apply uwp_ret.
        exists (l1 ++ [f]). rewrite <- app_assoc. split; [done|]. split; [by rewrite Hf3|].
        rewrite Ho3, Ho. unfold contents. rewrite fmap_app, concat_app. cbn. rewrite Hbs. cbn.
        by rewrite app_nil_r, <- app_assoc.
      * intros st w3 (-> & bs1 & rest & E & Ho3). cbn [set_in w_in w_out] in E, Ho3. rewrite fupd_eq in E.
        exists (contents w l1 ++ bs1), (rest ++ contents w l). rewrite Ec, Hbs, E. cbn.
        rewrite Ho3, Ho, <- !app_assoc. split_and!; [done..|]. by right.
    + change (-1 <? 0) with true. cbv iota. apply uwp_bind, uwp_bind.
      eapply uwp_mono; [apply fprintf_ends| |done]. intros _ w3 [d Hd]. apply uwp_exit.
      exists (contents w l1), (default [] (w_file w f) ++ contents w l).
      rewrite (wrote_other _ _ _ _ 1 Hd), Ho by done. split_and!; [done..|]. by right.
  - exists []. by rewrite app_nil_r.
  - intros _ w1 (l1 & E & _ & Ho). rewrite app_nil_r in E. subst l1. apply uwp_exit.
    exists (contents w files), []. rewrite app_nil_r. split_and!; [done..|]. by left.
Qed.

(** * echo *)

(** The arguments with blanks between them. *)
Fixpoint joined (args : list (list Z)) : list Z :=
  match args with
  | [] => []
  | [a] => a
  | a :: args' => a ++ chars " " ++ joined args'
  end.

Lemma echo_loop_correct args w :
  args <> [] ->
  uwp smooth (fun _ w' => wrote 1 (joined args ++ [NEWLINE]) w w') (fun _ _ => False) (echo_loop args) w.
Proof.
  revert w. induction args as [|a [|b args] IH]; intros w Hne; [done| |].
  - cbn [echo_loop]. apply uwp_write. rewrite bool_decide_eq_false_2 by auto. apply uwp_write, uwp_ret.
    cbn [joined]. eapply wrote_trans; apply wrote_add_out.
  - remember (b :: args) as l eqn:El. cbn [echo_loop]. apply uwp_write.
    rewrite bool_decide_eq_true_2 by (by subst). apply uwp_write. eapply uwp_mono; [apply IH; by subst| |done].
    intros r w' H. replace (joined (a :: l)) with (a ++ chars " " ++ joined l) by (by rewrite El). rewrite <- !app_assoc.
    eapply wrote_trans; [apply wrote_add_out|]. eapply wrote_trans; [apply wrote_add_out|]. exact H.
Qed.

(** * wc *)

Definition blank (b : Z) : bool := bool_decide (b ∈ wc_blanks).

(** A word starts at a character that is not blank and follows none or a
    blank. *)
Definition starts (bs : list Z) (i : nat) : bool :=
  negb (default true (blank <$> bs !! i)) &&
  match i with O => true | S j => default true (blank <$> bs !! j) end.
Definition words (bs : list Z) : Z := Z.of_nat (length (filter (fun i => starts bs i = true) (seq 0 (length bs)))).
Definition newlines (bs : list Z) : Z := Z.of_nat (length (filter (fun b => b = NEWLINE) bs)).

Lemma blank_strchr b : bool_decide (is_Some (strchr_at wc_blanks b)) = blank b.
Proof.
  apply bool_decide_ext. unfold wc_blanks. cbn [strchr_at]. rewrite !elem_of_cons, elem_of_nil.
  repeat match goal with |- context [?x =? b] => destruct (Z.eqb_spec x b) end; subst; cbn; split; intros H; try (by eauto);
    try (destruct H; by (lia || naive_solver)).
Qed.

Definition in_word (bs : list Z) : bool := negb (default true (blank <$> last bs)).

Lemma filter_ext_in {A} (P Q : A -> Prop) `{!forall x, Decision (P x), !forall x, Decision (Q x)} (l : list A) :
  (forall x, x ∈ l -> P x <-> Q x) -> filter P l = filter Q l.
Proof.
  induction l as [|x l IH]; intros HPQ; [done|]. rewrite !filter_cons, IH by set_solver.
  pose proof (HPQ x ltac:(set_solver)). repeat case_decide; naive_solver.
Qed.

Lemma words_snoc bs b :
  words (bs ++ [b]) = words bs + (if negb (blank b) && negb (in_word bs) then 1 else 0).
Proof.
  unfold words. rewrite length_app. cbn [length]. rewrite seq_app, filter_app, length_app. cbn [seq Nat.add].
  assert (filter (fun i => starts (bs ++ [b]) i = true) (seq 0 (length bs)) =
          filter (fun i => starts bs i = true) (seq 0 (length bs))) as ->.
  { apply filter_ext_in. intros i [_ Hi]%elem_of_seq. unfold starts. rewrite lookup_app_l by lia.
    destruct i as [|i]; [done|]. rewrite lookup_app_l by lia. done. }
  assert (starts (bs ++ [b]) (length bs) = negb (blank b) && negb (in_word bs)) as E.
  { unfold starts, in_word. rewrite list_lookup_middle by done. cbn. f_equal. rewrite last_lookup.
    destruct bs as [|x bs]; [done|]. cbn [length]. rewrite lookup_app_l by (cbn; lia).
    cbn [Nat.pred]. by destruct ((x :: bs) !! length bs) as [y|]; cbn; [destruct (blank y)|]. }
  unfold filter at 2. cbn [list_filter length]. rewrite E.
  case_decide as D; [rewrite D|destruct (negb _ && negb _)]; cbn; lia || done.
Qed.

Lemma newlines_snoc bs b : newlines (bs ++ [b]) = newlines bs + (if b =? NEWLINE then 1 else 0).
Proof.
  unfold newlines. rewrite filter_app, length_app. unfold filter at 2. cbn [list_filter].
  case_decide as D; [rewrite D, Z.eqb_refl|rewrite (proj2 (Z.eqb_neq _ _) D)]; cbn; lia.
Qed.

(** The counters after the bytes [bs]. *)
Lemma wc_char_counts bs :
  Z.of_nat (length bs) < 2 ^ 31 ->
  foldl wc_char (Counts 0 0 0 false) bs = Counts (newlines bs) (words bs) (Z.of_nat (length bs)) (in_word bs) /\
  0 <= newlines bs <= Z.of_nat (length bs) /\ 0 <= words bs <= Z.of_nat (length bs).
Proof.
  induction bs as [|b bs IH] using rev_ind; [done|]. rewrite length_app. cbn [length]. intros Hl.
  destruct IH as (IH & Hn & Hw); [lia|]. rewrite foldl_app, IH. cbn [foldl].
  unfold wc_char. cbn [wc_l wc_w wc_c inword]. rewrite blank_strchr, newlines_snoc, words_snoc.
  assert (forall z, 0 <= z < 2 ^ 31 - 1 -> s32 (z + 1) = z + 1) as Es
    by (intros z Hz; unfold s32; rewrite Z.mod_small; lia).
  assert (in_word (bs ++ [b]) = negb (blank b)) as Ei by (unfold in_word; rewrite last_snoc; done).
  rewrite Ei, !Es by lia.
  split; [|destruct (b =? NEWLINE), (blank b), (in_word bs); cbn; lia].
  destruct (b =? NEWLINE), (blank b), (in_word bs); cbn [negb andb]; f_equal; lia.
Qed.

(** [wc] prints the number of newlines, of words (maximal runs of
    characters other than blank, tab, newline, carriage return and vertical
    tab) and of bytes of its input, and the name, where reads and writes do not
    fail: a word that straddles two reads is counted once. *)
Theorem wc_correct (fd : Z) (name : list Z) (w : world) (Hlen : Z.of_nat (length (w_in w fd)) < 2 ^ 31) :
  let bs := w_in w fd in
  uwp smooth (fun _ w' => w_out w' 1 = w_out w 1 ++
      text_of (nl "%d %d %d %s") [I (newlines bs); I (words bs); I (Z.of_nat (length bs)); T name])
    (fun _ _ => False) (wc fd name) w.
Proof.
  intros bs. unfold wc. apply uwp_bind.
  eapply uwp_mono; [apply (uwp_while _ (fun k w' => exists d, bs = d ++ w_in w' fd /\
     k = foldl wc_char (Counts 0 0 0 false) d /\ w_out w' = w_out w) (fun _ w' => length (w_in w' fd))
     (fun k w' => k = foldl wc_char (Counts 0 0 0 false) bs /\ w_out w' = w_out w) (fun _ _ => False))| |done].
  - intros k w1 (d & Hd & -> & Ho). apply uwp_sys; [apply smooth_read|]. intros a w2 [Hr Hp]. cbn in Hr.
    inversion Hr as [cs rest Hne Hle Hin|Heof|]; subst a w2; [| |cbn in Hp; lia].
    + rewrite (proj2 (Z.ltb_lt _ _)) by (destruct cs; [done|cbn; lia]). apply uwp_ret.
      cbn [set_in w_in w_out]. rewrite fupd_eq. split.
      * exists (d ++ cs). rewrite <- app_assoc, foldl_app, Hd, Hin. done.
      * rewrite Hin, length_app. destruct cs; [done|cbn; lia].
    + cbn. apply uwp_ret. destruct Heof as [E|]; [|lia]. rewrite E, app_nil_r in Hd. by subst d.
  - by exists [].
  - intros k w1 [-> Ho]. destruct (wc_char_counts bs Hlen) as [-> _]. cbn [wc_l wc_w wc_c].
    eapply uwp_mono; [apply fprintf_smooth| |done]. intros r w2 H. by rewrite (wrote_out _ _ _ _ H), Ho.
Qed.

(** * forktest

    The processes as the kernel's [fork] and [wait] show them to a parent: at
    most [f_max] children, [fork] fails beyond, [wait] takes one of the children
    or fails when there is none. *)
Record family := Family { f_children : nat; f_max : nat; f_out : list Z }.

Definition parent (X : Type) (e : sysE X) : family -> X -> family -> Prop :=
  match e in sysE X return family -> X -> family -> Prop with
  | Fork => fun w r w' =>
      if (f_children w <? f_max w)%nat
      then 0 < r /\ w' = Family (S (f_children w)) (f_max w) (f_out w)
      else r = -1 /\ w' = w
  | Wait => fun w r w' =>
      match f_children w with
      | O => fst r = -1 /\ w' = w
      | S n => 0 < fst r /\ w' = Family n (f_max w) (f_out w)
      end
  | Write fd bs => fun w r w' => r = Z.of_nat (length bs) /\ w' = Family (f_children w) (f_max w) (f_out w ++ bs)
  | _ => fun _ _ _ => False
  end.

Lemma ft_print_parent s Q Qx w :
  Q tt (Family (f_children w) (f_max w) (f_out w ++ s)) -> uwp parent Q Qx (ft_print s) w.
Proof.
  intros H. unfold ft_print. apply uwp_sys.
  - by eexists _, _.
  - intros a w' [-> ->]. by apply uwp_ret.
Qed.

(** [forktest] passes on a kernel that limits the number of processes: with
    fewer than 1000 children allowed, it forks up to the limit, collects exactly
    the children it forked, and reports success. *)
Theorem forktest_correct (w : family) (H0 : f_children w = O) (Hmax : Z.of_nat (f_max w) < FORKS) :
  uwp parent (fun _ w' => f_children w' = O /\ f_out w' = f_out w ++ nl "fork test" ++ nl "fork test OK")
    (fun _ _ => False) forktest w.
Proof.
  unfold forktest. apply uwp_bind, ft_print_parent. cbn [f_children f_max f_out].
  set (out := f_out w ++ nl "fork test"). rewrite H0. apply uwp_bind.
  eapply uwp_mono; [apply (uwp_while _ (fun n w' => w' = Family (Z.to_nat n) (f_max w) out /\ 0 <= n <= Z.of_nat (f_max w))
    (fun n _ => (f_max w - Z.to_nat n)%nat)
    (fun n w' => w' = Family (f_max w) (f_max w) out /\ n = Z.of_nat (f_max w)) (fun _ _ => False))| |done].
  { intros n w1 [-> Hn]. rewrite (proj2 (Z.ltb_lt n FORKS)) by lia. apply uwp_sys; cbn [parent f_children f_max f_out].
    - destruct (Nat.ltb_spec (Z.to_nat n) (f_max w)); [by exists 1; eexists|by exists (-1); eexists].
    - intros r w2 Hr. destruct (Nat.ltb_spec (Z.to_nat n) (f_max w)).
      + destruct Hr as [Hr ->]. rewrite (proj2 (Z.ltb_ge r 0)), (proj2 (Z.eqb_neq r 0)) by lia. apply uwp_ret.
        split; [|lia]. split; [f_equal; lia|lia].
      + destruct Hr as [-> ->]. apply uwp_ret. split; [f_equal; lia|lia]. }
  { split; [done|lia]. }
  intros n w1 [-> ->]. rewrite (proj2 (Z.eqb_neq _ FORKS)) by lia. apply uwp_bind, uwp_ret, uwp_bind.
  eapply uwp_mono; [apply (uwp_while _ (fun n w' => w' = Family (Z.to_nat n) (f_max w) out /\ 0 <= n)
    (fun n _ => Z.to_nat n) (fun _ w' => w' = Family 0 (f_max w) out) (fun _ _ => False))| |done].
  { intros n w1 [-> Hn]. destruct (Z.ltb_spec 0 n).
    - apply uwp_sys; cbn [parent f_children f_max f_out]; destruct (Z.to_nat n) as [|m] eqn:En; [lia| |lia|].
      + by exists (1, 0); eexists.
      + intros r w2 [Hr ->]. rewrite (proj2 (Z.ltb_ge _ 0)) by lia. apply uwp_ret.
        split; [|lia]. split; [f_equal; lia|lia].
    - apply uwp_ret. f_equal. lia. }
  { split; [f_equal; lia|lia]. }
  intros r w1 ->. apply uwp_sys; [by exists (-1, 0); eexists|]. intros a w2 [Ha ->]. rewrite Ha.
  apply uwp_bind, uwp_ret, ft_print_parent. cbn [f_children f_out]. unfold out. by rewrite <- app_assoc.
Qed.

(** * ls *)

Lemma fmt_scan_name dir name i :
  ch "/" ∉ name -> (i <= length name)%nat ->
  fmt_scan (dir ++ [ch "/"] ++ name) (length dir + 1 + i) = (length dir + 1)%nat.
Proof.
  intros Hn. induction i as [|i IH]; intros Hi.
  - replace (length dir + 1 + 0)%nat with (S (length dir)) by lia. cbn [fmt_scan].
    destruct (Z.eqb_spec (cat (dir ++ [ch "/"] ++ name) (S (length dir))) (ch "/")) as [E|E].
    + exfalso. apply Hn. replace (S (length dir)) with (length dir + 1)%nat in E by lia.
      rewrite cat_app in E. cbn [app] in E. rewrite cat_cons in E. unfold cat in E.
      destruct name as [|c name]; [done|]. cbn in E. subst c. set_solver.
    + replace (length dir + 1)%nat with (S (length dir)) by lia.
      assert (cat (dir ++ [ch "/"] ++ name) (length dir) = ch "/") as Es.
      { pose proof (cat_app dir ([ch "/"] ++ name) 0) as E0. by rewrite Nat.add_0_r in E0. }
      destruct (length dir); cbn [fmt_scan]; by rewrite Es.
  - replace (length dir + 1 + S i)%nat with (S (length dir + 1 + i)) by lia. cbn [fmt_scan].
    destruct (Z.eqb_spec (cat (dir ++ [ch "/"] ++ name) (S (length dir + 1 + i))) (ch "/")) as [E|E].
    + exfalso. apply Hn. replace (S (length dir + 1 + i)) with (length dir + S (S i))%nat in E by lia.
      rewrite cat_app in E. cbn [app] in E. rewrite cat_cons in E. unfold cat in E.
      destruct (name !! S i) eqn:El; [|done]. cbn in E. subst. by eapply list_elem_of_lookup_2.
    + apply IH. lia.
Qed.

(** The name [ls] shows for a path: what follows the last slash, padded with
    blanks to 14 characters. *)
Lemma fmtname_correct dir name :
  ch "/" ∉ name ->
  fmtname (dir ++ [ch "/"] ++ name) = name ++ replicate (14 - length name) (ch " ").
Proof.
  intros Hn. unfold fmtname.
  pose proof (fmt_scan_name dir name (length name) Hn ltac:(done)) as Es.
  replace (length dir + 1 + length name)%nat with (length (dir ++ [ch "/"] ++ name)) in Es
    by (rewrite !length_app; cbn; lia).
  rewrite Es, app_assoc, drop_app_length' by (rewrite length_app; done).
  change DIRSIZ with 14. destruct (Z.leb_spec 14 (Z.of_nat (length name))); [|done].
  replace (14 - length name)%nat with O by lia. by rewrite app_nil_r.
Qed.

(** * logstress *)

(** The child's [memset] stores past the end of [buf]. *)
Lemma logstress_overruns ram buf c k :
  LS_BUFSZ <= k < LS_SZ -> rd8 (u_memset ram buf c LS_SZ) (buf + k) = u8 c.
Proof.
  unfold u_memset, LS_BUFSZ, LS_SZ. intros Hk.
  assert (forall n m i, i <= k < i + Z.of_nat n -> rd8 (u_memset_loop n m buf c i) (buf + k) = u8 c) as H.
  { clear. intros n. induction n as [|n IH]; intros m i Hi; [lia|]. cbn [u_memset_loop].
    destruct (decide (i = k)) as [->|]; [|apply IH; lia].
    assert (forall n m j, k < j -> rd8 (u_memset_loop n m buf c j) (buf + k) = rd8 m (buf + k)) as Hout.
    { clear. intros n. induction n as [|n IH]; intros m j Hj; [done|]. cbn [u_memset_loop].
      rewrite IH, rd8_wr8 by lia. by rewrite (proj2 (Z.eqb_neq _ _)) by lia. }
    rewrite Hout, rd8_wr8 by lia. by rewrite Z.eqb_refl. }
  apply H. lia.
Qed.

(** * Witnesses *)

Definition util_world : world :=
  World (fun fd => if fd =? 0 then chars "a bc" ++ [NEWLINE] else []) (fun _ => [])
    (fun f => if bool_decide (f = chars "x") then Some (chars "hello") else None).

Lemma cat_main_correct_witness :
  uwp posix (fun _ _ => False)
    (fun st w' => exists bs rest, contents util_world [chars "x"; chars "y"] = bs ++ rest /\
       w_out w' 1 = w_out util_world 1 ++ bs /\ (st = 0 /\ rest = [] \/ st = 1))
    (cat_main [chars "cat"; chars "x"; chars "y"]) util_world.
Proof. apply (cat_main_correct (chars "cat") [chars "x"; chars "y"] util_world). done. Defined.

Lemma wc_correct_witness :
  uwp smooth (fun _ w' => w_out w' 1 = chars "1 2 5 f" ++ [NEWLINE]) (fun _ _ => False)
    (wc 0 (chars "f")) util_world.
Proof. apply (wc_correct 0 (chars "f") util_world). vm_compute. exact eq_refl. Defined.

Lemma forktest_correct_witness :
  uwp parent (fun _ w' => f_children w' = O /\ f_out w' = nl "fork test" ++ nl "fork test OK")
    (fun _ _ => False) forktest (Family 0 61 []).
Proof. apply (forktest_correct (Family 0 61 [])); [done|]. vm_compute. exact eq_refl. Defined.
