(* ===== verification/Jobs.v ===== *)
(** Parents and jobs: the processes of the scheduling test programs
    (user/fifotest.c, stcftest.c, sjftest.c, schedeval.c).

    The world [kin] is what one process of such a program and the kernel share:
    the pids its [fork]s returned, in order, the children [wait] has not
    returned yet and those it has, in order, the bytes it read from pipes, the
    runtimes it declared, how often it yielded, and what it wrote.  The
    environments let [fork] return 0 too: from there on the process is the
    child, so that a theorem about a program speaks of every process of it.

    There are three.  In [roomy] there is always room in the process table and
    [fork] does not fail; in [full] it always fails; [kernel] refuses any of the
    forks, and its world notes whether it has refused one. *)
From stdpp Require Import sorting.
From S2P Require Import Prelude Chars Format Sys Ulib.
Open Scope usr_scope.

(** A [for] loop that fills an array. *)
Fixpoint collect {A B} (l : list A) (body : A -> U B) : U (list B) :=
  match l with
  | [] => uret []
  | a :: l' => b <- body a ;; bs <- collect l' body ;; uret (b :: bs)
  end.

(** [work] is the same in the four programs. *)
Definition work (ticks : Z) : U unit := each (seqZ 0 ticks) (fun _ => sys Yield ;; uret tt).

(** [pid = fork(); if(pid == 0){ ... }]. *)
Definition spawn (child : U unit) : U Z :=
  pid <- sys Fork ;;
  (if pid =? 0 then child else uret tt) ;;
  uret pid.

(** [for(int i = 1; i < n; i++) if(bad){ ...; return 0; }  return 1;] *)
Definition check (n : Z) (bad : Z -> bool) (complain : Z -> U unit) : U Z :=
  while (fun i : Z =>
    if i <? n then
      if bad i then complain i ;; uret (inr 0) else uret (inl (i + 1))
    else uret (inr 1)) 1.

(** [wait(0)]. *)
Definition wait0 : U Z := r <- sys Wait ;; uret (fst r).

(** [cond ? "PASS" : "FAIL"]. *)
Definition pass_text (b : Z) : uarg := T (if negb (b =? 0) then chars "PASS" else chars "FAIL").

(** The inner loop that finds the runtime of a finished child: the last match
    counts, [junk] is what the array held before. *)
Definition runtime_of (pid rt : list Z) (junk : Z) (f : Z) : Z :=
  foldl (fun x '(p, t) => if f =? p then t else x) junk (zip pid rt).

(** * The world *)

Record kin := Kin {
  k_born : option nat;       (** for a child: the number of its [fork] *)
  k_forked : list Z;
  k_left : list Z;
  k_reaped : list Z;
  k_tags : list Z;
  k_expected : option Z;
  k_hint : option Z;
  k_yields : Z;
  k_sent : list Z;           (** written to descriptors other than 1 *)
  k_out : list Z }.

(** The child of the [n]-th fork. *)
Definition child_of (n : nat) : kin := Kin (Some n) [] [] [] [] None None 0 [] [].
Definition newborn (w : kin) : kin := child_of (length (k_forked w)).
Definition adopt (pid : Z) (w : kin) : kin :=
  Kin (k_born w) (k_forked w ++ [pid]) (k_left w ++ [pid]) (k_reaped w) (k_tags w) (k_expected w) (k_hint w) (k_yields w) (k_sent w) (k_out w).
Definition reap (pid : Z) (left : list Z) (w : kin) : kin :=
  Kin (k_born w) (k_forked w) left (k_reaped w ++ [pid]) (k_tags w) (k_expected w) (k_hint w) (k_yields w) (k_sent w) (k_out w).
Definition tag (bs : list Z) (w : kin) : kin :=
  Kin (k_born w) (k_forked w) (k_left w) (k_reaped w) (k_tags w ++ bs) (k_expected w) (k_hint w) (k_yields w) (k_sent w) (k_out w).
Definition expect (t : Z) (w : kin) : kin :=
  Kin (k_born w) (k_forked w) (k_left w) (k_reaped w) (k_tags w) (Some t) (k_hint w) (k_yields w) (k_sent w) (k_out w).
Definition hint (t : Z) (w : kin) : kin :=
  Kin (k_born w) (k_forked w) (k_left w) (k_reaped w) (k_tags w) (k_expected w) (Some t) (k_yields w) (k_sent w) (k_out w).
Definition yielded (n : Z) (w : kin) : kin :=
  Kin (k_born w) (k_forked w) (k_left w) (k_reaped w) (k_tags w) (k_expected w) (k_hint w) (k_yields w + n) (k_sent w) (k_out w).
Definition say (fd : Z) (bs : list Z) (w : kin) : kin :=
  if fd =? 1
  then Kin (k_born w) (k_forked w) (k_left w) (k_reaped w) (k_tags w) (k_expected w) (k_hint w) (k_yields w) (k_sent w) (k_out w ++ bs)
  else Kin (k_born w) (k_forked w) (k_left w) (k_reaped w) (k_tags w) (k_expected w) (k_hint w) (k_yields w) (k_sent w ++ bs) (k_out w).

(** A kernel with room for every child. *)
Definition roomy (X : Type) (e : sysE X) : kin -> X -> kin -> Prop :=
  match e in sysE X return kin -> X -> kin -> Prop with
  | Fork => fun w r w' => r = 0 /\ w' = newborn w \/ 0 < r /\ (r ∉ k_forked w) /\ w' = adopt r w
  | Wait => fun w r w' =>
      if bool_decide (k_left w = []) then fst r = -1 /\ w' = w
      else exists left, k_left w ≡ₚ fst r :: left /\ w' = reap (fst r) left w
  | Read fd n => fun w r w' =>
      fst r <= 0 /\ snd r = [] /\ w' = w \/
      snd r <> [] /\ fst r = Z.of_nat (length (snd r)) /\ fst r <= n /\ w' = tag (snd r) w
  | Write fd bs => fun w r w' => r = Z.of_nat (length bs) /\ w' = say fd bs w
  | Pipe => fun w r w' => (fst r = -1 \/ fst r = 0 /\ 2 < fst (snd r) /\ 2 < snd (snd r)) /\ w' = w
  | Yield => fun w _ w' => w' = yielded 1 w
  | SetExpected t => fun w _ w' => w' = expect t w
  | SetStcfVals t => fun w _ w' => w' = hint t w
  | Exit _ => fun _ _ _ => False
  | _ => fun w _ w' => w' = w
  end.

(** [fork] fails with -1. *)
Definition refuses {X} (e : sysE X) : X -> Prop :=
  match e in sysE X return X -> Prop with Fork => fun r => r = -1 | _ => fun _ => False end.
Definition is_fork {X} (e : sysE X) : bool := match e with Fork => true | _ => false end.

(** Any of the forks may fail. *)
Definition kernel (X : Type) (e : sysE X) (s : kin * bool) (r : X) (s' : kin * bool) : Prop :=
  roomy X e (fst s) r (fst s') /\ snd s' = snd s \/ refuses e r /\ s' = (fst s, true).

(** All of them fail. *)
Definition full (X : Type) (e : sysE X) (w : kin) (r : X) (w' : kin) : Prop :=
  if is_fork e then refuses e r /\ w' = w else roomy X e w r w'.

(** A process that has forked nothing. *)
Definition init_kin : kin := Kin None [] [] [] [] None None 0 [] [].
Definition alone (w : kin) : Prop := k_left w = [].

Lemma roomy_answers X (e : sysE X) w : is_exit e = false -> exists a w', roomy X e w a w'.
Proof.
  destruct e; intros H; try done;
    try (by exists 0; eexists); try (by exists (0, 0); eexists); try (by exists (-1, (0, 0)); eexists).
  - exists 0, (newborn w). by left.
  - cbn. destruct (bool_decide_reflect (k_left w = [])) as [E|E]; [by exists (-1, 0), w|].
    destruct (k_left w) as [|p l] eqn:El; [done|]. exists (p, 0), (reap p l w). by exists l.
  - exists (-1, (0, 0)), w. split; [by left|done].
  - by eexists; eexists.
  - exists (0, []), w. left. done.
  - by exists (0, Ustat 0 0 0 0 0); eexists.
  - by exists (0, Uprocinfo 0 0 [] 0 0 0 0 0 0 0 0 0); eexists.
Qed.

Lemma kernel_answers X (e : sysE X) s : is_exit e = false -> exists a s', kernel X e s a s'.
Proof. intros H. destruct (roomy_answers X e (fst s) H) as (a & w' & Ha). exists a, (w', snd s). by left. Qed.
Lemma full_answers X (e : sysE X) w : is_exit e = false -> exists a w', full X e w a w'.
Proof.
  intros H. destruct (is_fork e) eqn:E; unfold full; rewrite E; [|by apply roomy_answers].
  destruct e; try done. by exists (-1), w.
Qed.

(** A program that does what [Q] and [Qx] say while no fork is refused, and ends
    in any case, does what they say unless a fork was refused. *)
Lemma uwp_refusable {R} (Q : R -> kin -> Prop) Qx (T : R -> kin * bool -> Prop) Tx (t : U R) (s : kin * bool) :
  uwp kernel T Tx t s -> (snd s = false -> uwp roomy Q Qx t (fst s)) ->
  uwp kernel (fun r s' => T r s' /\ (snd s' = false -> Q r (fst s')))
    (fun st s' => Tx st s' /\ (snd s' = false -> Qx st (fst s'))) t s.
Proof.
  induction 1 as [t r s E H|t u s E H IH|t st k s E H|t X e k s E He H IH]; intros H0.
  - eapply uwp_Ret; [exact E|]. split; [done|]. intros Hs. specialize (H0 Hs). apply uwp_inv in H0. by rewrite E in H0.
  - eapply uwp_Tau; [exact E|]. apply IH. intros Hs. specialize (H0 Hs). apply uwp_inv in H0. by rewrite E in H0.
  - eapply uwp_Exit; [exact E|]. split; [done|]. intros Hs. specialize (H0 Hs). apply uwp_inv in H0. by rewrite E in H0.
  - eapply uwp_Vis; [exact E|exact He|]. intros a s' Ha. apply IH; [done|]. intros Hs. destruct Ha as [[Ha Es]|[_ ->]]; [|done].
    rewrite Hs in Es. specialize (H0 (eq_sym Es)). apply uwp_inv in H0. rewrite E in H0.
    destruct e; try by apply H0. by destruct a.
Qed.

(** * Rules *)

#[global] Arguments text_of : simpl never.

(** Calls other than [fork] are the same in [roomy] and in [full]. *)
Definition plain {X} (e : sysE X) : bool := negb (is_exit e || is_fork e).
Class Kernel (E : forall X, sysE X -> kin -> X -> kin -> Prop) := {
  plain_answers : forall X (e : sysE X) w, plain e = true -> exists a w', E X e w a w';
  plain_roomy : forall X (e : sysE X) w a w', plain e = true -> E X e w a w' -> roomy X e w a w' }.
#[global] Hint Mode Kernel ! : typeclass_instances.
#[global] Instance roomy_kernel : Kernel roomy.
Proof. split; [|done]. intros X e w H. apply roomy_answers. by destruct e. Qed.
#[global] Instance full_kernel : Kernel full.
Proof. split; intros X e; [intros w H; apply full_answers; by destruct e|by destruct e]. Qed.

Lemma kin_sys `{Kernel E} {A B} (Q : B -> kin -> Prop) Qx (e : sysE A) (k : A -> U B) w :
  plain e = true -> (forall a w', roomy A e w a w' -> uwp E Q Qx (k a) w') ->
  uwp E Q Qx (ubind (sys e) k) w.
Proof. intros He Hk. apply uwp_sys; [by apply plain_answers|]. intros a w' Ha. apply Hk. by apply (plain_roomy (E := E)). Qed.

Lemma say_say fd bs cs w : say fd cs (say fd bs w) = say fd (bs ++ cs) w.
Proof. unfold say. destruct (fd =? 1) eqn:E; cbn; by rewrite <- app_assoc. Qed.
Lemma say_nil fd w : say fd [] w = w.
Proof. unfold say. destruct w, (fd =? 1); cbn; by rewrite app_nil_r. Qed.

Lemma fprintf_kin `{Kernel E} Qx fd fmt args w :
  uwp E (fun _ w' => w' = say fd (text_of fmt args) w) Qx (fprintf fd fmt args) w.
Proof.
  unfold fprintf. fold (text_of fmt args). set (cs := text_of fmt args).
  eapply uwp_mono; [apply (uwp_each _ (fun l w' => exists d, cs = d ++ l /\ w' = say fd d w) Qx)| |done].
  - intros c l w1 (d & Ed & ->). apply kin_sys; [done|]. intros a w2 [-> ->]. apply uwp_ret. exists (d ++ [c]).
    by rewrite <- app_assoc, say_say.
  - exists []. by rewrite say_nil.
  - intros [] w' (d & Ed & ->). rewrite app_nil_r in Ed. by subst d.
Qed.

Lemma kin_print `{Kernel E} {B} (Q : B -> kin -> Prop) Qx fmt args (k : unit -> U B) w :
  uwp E Q Qx (k tt) (say 1 (text_of fmt args) w) -> uwp E Q Qx (ubind (uprintf fmt args) k) w.
Proof.
  intros Hk. apply uwp_bind. eapply uwp_mono; [apply fprintf_kin| |done]. by intros [] w' ->.
Qed.

Section Rules.
Context {B : Type} (Q : B -> kin -> Prop) (Qx : Z -> kin -> Prop).

Lemma kin_work t (k : unit -> U B) w :
  0 <= t -> uwp roomy Q Qx (k tt) (yielded t w) -> uwp roomy Q Qx (ubind (work t) k) w.
Proof.
  intros Ht H. apply uwp_bind. unfold work.
  eapply uwp_mono; [apply (uwp_each _ (fun l w' => (length l <= Z.to_nat t)%nat /\ w' = yielded (t - Z.of_nat (length l)) w) Qx)| |done].
  - intros i l w1 [Hl ->]. apply kin_sys; [done|]. intros a w2 ->. apply uwp_ret. cbn [length] in *. split; [lia|].
    unfold yielded. cbn. f_equal. lia.
  - rewrite length_seqZ. split; [lia|]. unfold yielded. destruct w. cbn. f_equal. lia.
  - intros [] w' [_ ->]. cbn [length]. by rewrite Z.sub_0_r.
Qed.

(** The child's side, and the parent's. *)
Lemma kin_fork (k : Z -> U B) w :
  uwp roomy Q Qx (k 0) (newborn w) ->
  (forall pid, 0 < pid -> pid ∉ k_forked w -> uwp roomy Q Qx (k pid) (adopt pid w)) ->
  uwp roomy Q Qx (ubind (sys Fork) k) w.
Proof.
  intros H0 H1. apply uwp_sys; [by apply roomy_answers|]. intros a w' [[-> ->]|(Hp & Hn & ->)]; [done|by apply H1].
Qed.

Lemma kin_wait (k : Z -> U B) w :
  k_left w <> [] -> (forall pid left, k_left w ≡ₚ pid :: left -> uwp roomy Q Qx (k pid) (reap pid left w)) ->
  uwp roomy Q Qx (ubind wait0 k) w.
Proof.
  intros Hn H. apply uwp_bind. unfold wait0. apply kin_sys; [done|]. intros [a st] w' Ha. apply uwp_ret.
  cbn in Ha. rewrite bool_decide_eq_false_2 in Ha by done. destruct Ha as (l & Hl & ->). by apply H.
Qed.
End Rules.

Lemma uwp_collect {W A B} E (Inv : list A -> list B -> W -> Prop) Qx l (body : A -> U B) (w : W) :
  (forall a l bs w, Inv (a :: l) bs w -> uwp E (fun b w' => Inv l (bs ++ [b]) w') Qx (body a) w) ->
  forall bs, Inv l bs w -> uwp E (fun bs' w' => Inv [] (bs ++ bs') w') Qx (collect l body) w.
Proof.
  intros Hb. revert w. induction l as [|a l IH]; intros w bs Hi; cbn [collect].
  - apply uwp_ret. by rewrite app_nil_r.
  - apply uwp_bind. eapply uwp_mono; [by apply Hb| |done]. intros b w1 H1. apply uwp_bind.
    eapply uwp_mono; [by apply (IH w1 (bs ++ [b]))| |done]. intros bs' w2 H2. apply uwp_ret. cbv beta in H2. by rewrite <- app_assoc in H2.
Qed.

(** * Families *)

Definition adopt_all (pids : list Z) (w : kin) : kin :=
  Kin (k_born w) (k_forked w ++ pids) (k_left w ++ pids) (k_reaped w) (k_tags w) (k_expected w) (k_hint w) (k_yields w) (k_sent w) (k_out w).
Definition reap_all (pids : list Z) (w : kin) : kin :=
  Kin (k_born w) (k_forked w) [] (k_reaped w ++ pids) (k_tags w) (k_expected w) (k_hint w) (k_yields w) (k_sent w) (k_out w).

Lemma adopt_all_nil w : adopt_all [] w = w.
Proof. destruct w. unfold adopt_all. cbn. by rewrite !app_nil_r. Qed.
Lemma adopt_adopt_all p ps w : adopt_all ps (adopt p w) = adopt_all (p :: ps) w.
Proof. unfold adopt_all, adopt. cbn. by rewrite <- !app_assoc. Qed.

Section Families.
Context {B : Type} (Q : B -> kin -> Prop) (Qx : Z -> kin -> Prop).

Lemma kin_spawn child (k : Z -> U B) w :
  uwp roomy (fun _ _ => False) Qx child (child_of (length (k_forked w))) ->
  (forall pid, 0 < pid -> pid ∉ k_forked w -> uwp roomy Q Qx (k pid) (adopt pid w)) ->
  uwp roomy Q Qx (ubind (spawn child) k) w.
Proof.
  intros Hc Hp. apply uwp_bind. unfold spawn. apply kin_fork.
  - cbn [Z.eqb]. apply uwp_bind. eapply uwp_mono; [exact Hc|done|done].
  - intros pid H0 Hn. rewrite (proj2 (Z.eqb_neq pid 0)) by lia. apply uwp_bind, uwp_ret, uwp_ret. by apply Hp.
Qed.

Lemma kin_spawn_all {A} (l : list A) (child : A -> U unit) (k : list Z -> U B) w :
  (forall i a, l !! i = Some a -> uwp roomy (fun _ _ => False) Qx (child a) (child_of (length (k_forked w) + i))) ->
  (forall pids, length pids = length l -> NoDup pids -> uwp roomy Q Qx (k pids) (adopt_all pids w)) ->
  uwp roomy Q Qx (ubind (collect l (fun a => spawn (child a))) k) w.
Proof.
  intros Hc Hk. apply uwp_bind.
  eapply uwp_mono; [apply (uwp_collect roomy (fun l' pids w' => (length pids + length l' = length l)%nat /\ l' = drop (length pids) l /\ NoDup pids /\ w' = adopt_all pids w) Qx l (fun a => spawn (child a)) w) with (bs := [])| |done].
  - intros a l' pids w1 (Hl & Hd & Hnd & ->). cbn [length] in Hl.
    assert (l !! length pids = Some a) as Ha by (rewrite <- (Nat.add_0_r (length pids)), <- lookup_drop, <- Hd; done).
    unfold spawn. apply kin_fork.
    + cbn [Z.eqb]. apply uwp_bind. unfold newborn. cbn [adopt_all k_forked]. rewrite length_app.
      eapply uwp_mono; [by apply (Hc _ a)|done|done].
    + intros pid H0 Hn. rewrite (proj2 (Z.eqb_neq pid 0)) by lia. apply uwp_bind, uwp_ret, uwp_ret.
      cbn [adopt_all k_forked] in Hn. rewrite length_app. cbn [length]. split_and!.
      * lia.
      * rewrite (drop_S _ _ _ Ha) in Hd. rewrite Nat.add_1_r. by injection Hd.
      * apply NoDup_app. split_and!; [done|set_solver|apply NoDup_singleton].
      * unfold adopt_all, adopt. cbn. by rewrite !app_assoc.
  - cbn. split_and!; [done..|apply NoDup_nil_2|by rewrite adopt_all_nil].
  - intros pids w' (Hl & _ & Hnd & ->). cbn [app length] in *. apply Hk; [lia|done].
Qed.

Lemma kin_wait_all {A} (l : list A) (k : list Z -> U B) w :
  length (k_left w) = length l ->
  (forall fin, fin ≡ₚ k_left w -> uwp roomy Q Qx (k fin) (reap_all fin w)) ->
  uwp roomy Q Qx (ubind (collect l (fun _ => wait0)) k) w.
Proof.
  intros Hn Hk. apply uwp_bind.
  eapply uwp_mono; [apply (uwp_collect roomy (fun (l' : list A) (fin : list Z) w' => exists left, k_left w ≡ₚ fin ++ left /\ length left = length l' /\
    w' = Kin (k_born w) (k_forked w) left (k_reaped w ++ fin) (k_tags w) (k_expected w) (k_hint w) (k_yields w) (k_sent w) (k_out w)) Qx l _ w) with (bs := [])| |done].
  - intros a l' fin w1 (left & Hp & Hl & ->). cbn [length] in Hl.
    apply (kin_sys (fun b w' => _) Qx Wait (fun r => uret (fst r))); [done|]. intros [p st] w2 Hw. cbn in Hw.
    rewrite bool_decide_eq_false_2 in Hw by (intros ->; done). destruct Hw as (left' & Hp' & ->). apply uwp_ret. exists left'. split_and!.
    + by rewrite Hp, Hp', <- app_assoc.
    + apply Permutation_length in Hp'. cbn in Hp'. lia.
    + unfold reap. cbn. by rewrite app_assoc.
  - exists (k_left w). cbn. split_and!; [done|done|]. rewrite app_nil_r. by destruct w.
  - intros fin w' (left & Hp & Hl & ->). cbn in Hl. destruct left; [|done]. rewrite app_nil_r in Hp. by apply Hk.
Qed.

Lemma kin_wait2 (k : Z -> Z -> U B) w :
  length (k_left w) = 2%nat ->
  (forall a b, [a; b] ≡ₚ k_left w -> uwp roomy Q Qx (k a b) (reap_all [a; b] w)) ->
  uwp roomy Q Qx (a <- wait0 ;; b <- wait0 ;; k a b) w.
Proof.
  intros Hn Hk. apply kin_wait; [by intros E; rewrite E in Hn|]. intros a l Ha. apply Permutation_length in Ha as La.
  apply kin_wait; cbn [reap k_left]; [intros ->; cbn in *; lia|]. intros b l' Hb. apply Permutation_length in Hb as Lb. cbn in La, Lb.
  destruct l'; [|cbn in *; lia]. unfold reap. cbn. rewrite <- app_assoc. apply Hk. by rewrite Ha, Hb.
Qed.

Lemma kin_wait3 (k : Z -> Z -> Z -> U B) w :
  length (k_left w) = 3%nat ->
  (forall a b c, [a; b; c] ≡ₚ k_left w -> uwp roomy Q Qx (k a b c) (reap_all [a; b; c] w)) ->
  uwp roomy Q Qx (a <- wait0 ;; b <- wait0 ;; c <- wait0 ;; k a b c) w.
Proof.
  intros Hn Hk. apply kin_wait; [by intros E; rewrite E in Hn|]. intros a l Ha. apply Permutation_length in Ha as La.
  apply kin_wait2; cbn [reap k_left]; [cbn in La; lia|]. intros b c Hb. unfold reap_all, reap. cbn. rewrite <- app_assoc.
  apply Hk. by rewrite Ha, Hb.
Qed.

End Families.

Lemma uwp_check {W} E (Qc : Z -> W -> Prop) Qx n bad complain w :
  1 <= n ->
  (forall i, 1 <= i < n -> bad i = true -> uwp E (fun _ w' => Qc 0 w') Qx (complain i) w) ->
  ((forall i, 1 <= i < n -> bad i = false) -> Qc 1 w) ->
  uwp E Qc Qx (check n bad complain) w.
Proof.
  intros Hn Hbad Hok. unfold check.
  apply (uwp_while _ (fun i w' => 1 <= i <= n /\ (forall j, 1 <= j < i -> bad j = false) /\ w' = w) (fun i _ => Z.to_nat (n - i))).
  - intros i w1 (Hi & Hj & ->). destruct (Z.ltb_spec i n) as [Hlt|Hge].
    + destruct (bad i) eqn:Eb.
      * apply uwp_bind. eapply uwp_mono; [apply Hbad; [lia|done]| |done]. intros [] w2 H. by apply uwp_ret.
      * apply uwp_ret. split; [|lia]. split_and!; [lia..| |done]. intros j Hj'. destruct (decide (j = i)) as [->|]; [done|]. apply Hj. lia.
    + apply uwp_ret. apply Hok. intros j Hj'. apply Hj. lia.
  - split_and!; [lia..| |done]. intros j Hj. lia.
Qed.

(** A complaint that only prints. *)
Lemma kin_check `{Kernel E} (Qc : Z -> kin -> Prop) Qx n bad complain w :
  1 <= n ->
  (forall i w', bad i = true -> uwp E (fun _ w'' => exists txt, w'' = say 1 txt w') Qx (complain i) w') ->
  ((forall i, 1 <= i < n -> bad i = false) -> Qc 1 w) ->
  (forall i txt, 1 <= i < n -> bad i = true -> Qc 0 (say 1 txt w)) ->
  uwp E Qc Qx (check n bad complain) w.
Proof.
  intros Hn Hm Hok Hbad. apply uwp_check; [done| |done]. intros i Hi Hb.
  eapply uwp_mono; [by apply Hm| |done]. intros [] w' [txt ->]. by apply (Hbad i).
Qed.

(** * Orders *)

(** The [pids] in the order [ord]. *)
Definition reorder (ord : list nat) (pids : list Z) : list Z := (fun i => pids !!! i) <$> ord.

(** The tests passed by a program that forked [forked] and reaped [reaped]: each
    test forks as many children as its order has and wants them in that
    order. *)
Fixpoint graded (ords : list (list nat)) (forked reaped : list Z) : Z :=
  match ords with
  | [] => 0
  | ord :: ords' =>
      let n := length ord in
      Z.b2z (bool_decide (take n reaped = reorder ord (take n forked))) + graded ords' (drop n forked) (drop n reaped)
  end.

Lemma graded_cons ord ords p f P F :
  length p = length ord -> length f = length ord ->
  graded (ord :: ords) (p ++ P) (f ++ F) = Z.b2z (bool_decide (f = reorder ord p)) + graded ords P F.
Proof. intros Hp Hf. cbn [graded]. by rewrite !take_app_length', !drop_app_length' by done. Qed.

Lemma reorder_id pids : reorder (seq 0 (length pids)) pids = pids.
Proof.
  apply list_eq. intros i. unfold reorder. rewrite list_lookup_fmap. destruct (decide (i < length pids)%nat).
  - rewrite lookup_seq_lt by done. cbn. symmetry. rewrite list_lookup_lookup_total_lt by lia. done.
  - rewrite lookup_seq_ge by lia. by rewrite lookup_ge_None_2 by lia.
Qed.
Lemma reorder_perm ord pids : ord ≡ₚ seq 0 (length pids) -> reorder ord pids ≡ₚ pids.
Proof. intros H. rewrite <- (reorder_id pids) at 2. unfold reorder. by rewrite H. Qed.
Lemma reorder_fmap (f : Z -> Z) ord pids : ord ≡ₚ seq 0 (length pids) -> f <$> reorder ord pids = reorder ord (f <$> pids).
Proof.
  intros H. unfold reorder. rewrite <- list_fmap_compose. apply list_fmap_ext. intros k i Hi. cbn.
  apply list_elem_of_lookup_2 in Hi. rewrite H in Hi. apply elem_of_seq in Hi. symmetry. apply (list_lookup_total_fmap f). lia.
Qed.

Lemma runtime_not_in pid rt junk f : f ∉ pid -> runtime_of pid rt junk f = junk.
Proof.
  unfold runtime_of. revert rt junk. induction pid as [|p pid IH]; intros [|t rt] junk Hf; try done. cbn.
  rewrite (proj2 (Z.eqb_neq f p)) by (intros ->; set_solver). apply IH. set_solver.
Qed.
Lemma runtime_at pid rt junk j p t : NoDup pid -> pid !! j = Some p -> rt !! j = Some t -> runtime_of pid rt junk p = t.
Proof.
  revert rt junk j. induction pid as [|p' pid IH]; intros [|t' rt] junk [|j] Hnd Hp Ht; try done; cbn in Hp, Ht.
  - injection Hp as ->. injection Ht as ->. unfold runtime_of. cbn. rewrite Z.eqb_refl. apply runtime_not_in.
    by apply NoDup_cons_1_1 in Hnd.
  - unfold runtime_of. cbn. eapply IH; [by apply NoDup_cons_1_2 in Hnd|done|done].
Qed.

(** What the loops of [check] compare. *)
Lemma tails_agree (l l' : list Z) : length l = length l' ->
  (forall i, 1 <= i < Z.of_nat (length l) -> l !!! Z.to_nat i = l' !!! Z.to_nat i) <-> tail l = tail l'.
Proof.
  intros Hl. destruct l as [|x l], l' as [|x' l']; try done. cbn [tail length] in *. split.
  - intros H. apply list_eq_same_length with (length l); [lia|done|]. intros i y z Hi Hy Hz.
    specialize (H (Z.of_nat (S i)) ltac:(lia)). rewrite Nat2Z.id in H. change (l !!! i = l' !!! i) in H.
    rewrite (list_lookup_total_correct _ _ _ Hy), (list_lookup_total_correct _ _ _ Hz) in H. done.
  - intros -> i Hi. destruct (Z.to_nat i) eqn:E; [lia|done].
Qed.
Lemma sorted_steps (l : list Z) :
  (forall i, 1 <= i < Z.of_nat (length l) -> l !!! Z.to_nat (i - 1) <= l !!! Z.to_nat i) <-> Sorted Z.le l.
Proof.
  induction l as [|x l IH]; [split; [constructor|cbn; lia]|]. split.
  - intros H. constructor.
    + apply IH. intros i Hi. specialize (H (i + 1) ltac:(cbn [length]; lia)).
      replace (Z.to_nat (i + 1 - 1)) with (S (Z.to_nat (i - 1))) in H by lia. replace (Z.to_nat (i + 1)) with (S (Z.to_nat i)) in H by lia. done.
    + destruct l as [|y l]; constructor. apply (H 1). cbn. lia.
  - intros Hs i Hi. inversion Hs as [|? ? Hs' Hh]; subst. destruct (decide (i = 1)) as [->|].
    + destruct l as [|y l]; [cbn in Hi; lia|]. by inversion Hh.
    + pose proof (proj2 IH Hs' (i - 1) ltac:(cbn [length] in Hi; lia)) as H.
      replace (Z.to_nat (i - 1)) with (S (Z.to_nat (i - 1 - 1))) by lia. replace (Z.to_nat i) with (S (Z.to_nat (i - 1))) by lia. done.
Qed.

Section Runtimes.
Context (pids rt : list Z) (Hnd : NoDup pids) (Hlen : length rt = length pids).
Local Abbreviation rho := (runtime_of pids rt 0).

Lemma runtime_junk junk f : f ∈ pids -> runtime_of pids rt junk f = rho f.
Proof using Hnd Hlen.
  intros [j Hj]%list_elem_of_lookup_1. destruct (lookup_lt_is_Some_2 rt j) as [t Ht]; [rewrite Hlen; by eapply lookup_lt_Some|].
  by rewrite !(runtime_at _ _ _ j f t).
Qed.
Lemma runtime_pids : rho <$> pids = rt.
Proof using Hnd Hlen.
  apply list_eq_same_length with (length pids); [by rewrite Hlen|by rewrite length_fmap|].
  intros i t1 t2 Hi H1 H2. apply list_lookup_fmap_Some in H1 as (p & -> & Hp). by apply (runtime_at _ _ _ i).
Qed.
(** The array [f_rt]. *)
Lemma finish_runtimes (junk : nat -> Z) fin :
  fin ≡ₚ pids -> imap (fun i f => runtime_of pids rt (junk i) f) fin = rho <$> fin.
Proof using Hnd Hlen.
  intros Hp. apply list_eq. intros i. rewrite list_lookup_imap, list_lookup_fmap.
  destruct (fin !! i) as [f|] eqn:E; [|done]. cbn. f_equal. apply runtime_junk. rewrite <- Hp. by eapply list_elem_of_lookup_2.
Qed.

Context (Hrt : NoDup rt).
Lemma runtime_inj (l l' : list Z) : (forall p, p ∈ l -> p ∈ pids) -> (forall p, p ∈ l' -> p ∈ pids) -> rho <$> l = rho <$> l' -> l = l'.
Proof using Hnd Hlen Hrt.
  revert l'. induction l as [|p l IH]; intros [|p' l'] Hl Hl' E; try done. rewrite !fmap_cons in E. injection E as E1 E2. f_equal.
  - destruct (list_elem_of_lookup_1 pids p) as [j Hj]; [apply Hl; by left|].
    destruct (list_elem_of_lookup_1 pids p') as [j' Hj']; [apply Hl'; by left|].
    pose proof runtime_pids as Er. assert (rt !! j = Some (rho p)) as H1 by (rewrite <- Er at 1; by rewrite list_lookup_fmap, Hj).
    assert (rt !! j' = Some (rho p')) as H2 by (rewrite <- Er at 1; by rewrite list_lookup_fmap, Hj').
    rewrite E1 in H1. rewrite (NoDup_lookup _ _ _ _ Hrt H1 H2) in Hj. congruence.
  - apply IH; [|..|done]; intros q Hq; [apply Hl|apply Hl']; by right.
Qed.

(** The order of fifotest.c: every runtime but the first is compared. *)
Lemma fifo_order fin :
  fin ≡ₚ pids -> tail (rho <$> fin) = tail rt <-> fin = pids.
Proof using Hnd Hlen Hrt.
  intros Hp. rewrite <- runtime_pids at 2. split; [|by intros ->].
  destruct fin as [|f fin]; [apply Permutation_nil_l in Hp; by rewrite <- Hp|].
  assert (exists p ps, pids = p :: ps) as (p & ps & Ep) by (apply Permutation_length in Hp; destruct pids; [done|eauto]).
  intros E. replace (tail (rho <$> pids)) with (rho <$> ps) in E by (by rewrite Ep). apply runtime_inj in E.
  - subst fin. rewrite Ep in Hp |- *. f_equal. apply (Permutation_app_inv_r ps [f] [p]) in Hp. by apply Permutation_singleton_inj in Hp.
  - intros q Hq. rewrite <- Hp. by right.
  - intros q Hq. rewrite Ep. by right.
Qed.

(** The order of stcftest.c: the runtimes do not decrease. *)
Lemma stcf_order ord fin :
  fin ≡ₚ pids -> reorder ord pids ≡ₚ pids -> Sorted Z.le (rho <$> reorder ord pids) ->
  Sorted Z.le (rho <$> fin) <-> fin = reorder ord pids.
Proof using Hnd Hlen Hrt.
  intros Hp Ho Hs. split; [|by intros ->]. intros Hf. apply runtime_inj.
  - intros p. by rewrite Hp.
  - intros p. by rewrite Ho.
  - apply (Sorted_unique Z.le); [done|done|]. by rewrite Hp, Ho.
Qed.
End Runtimes.

(** * Refused forks *)

(** A parent with at most [n] children left. *)
Definition brood (n : nat) (s : kin * bool) : Prop := k_born (fst s) = None /\ (length (k_left (fst s)) <= n)%nat.

Lemma fprintf_any Qx fd fmt args w b :
  uwp kernel (fun _ s => s = (say fd (text_of fmt args) w, b)) Qx (fprintf fd fmt args) (w, b).
Proof.
  unfold fprintf. fold (text_of fmt args). set (cs := text_of fmt args).
  eapply uwp_mono; [apply (uwp_each _ (fun l s => exists d, cs = d ++ l /\ s = (say fd d w, b)) Qx)| |done].
  - intros c l s1 (d & Ed & ->). apply uwp_sys; [by apply kernel_answers|]. intros a [w2 b2] [[[-> E2] Eb]|[[] _]]. cbn in E2, Eb. subst.
    apply uwp_ret. exists (d ++ [c]). by rewrite <- app_assoc, say_say.
  - exists []. by rewrite say_nil.
  - intros [] s (d & Ed & ->). rewrite app_nil_r in Ed. by subst d.
Qed.

Section Refusals.
Context {B : Type} (Q : B -> kin * bool -> Prop) (Qx : Z -> kin * bool -> Prop).

Lemma any_sys {A} (e : sysE A) (k : A -> U B) w b :
  plain e = true -> (forall a w', roomy A e w a w' -> uwp kernel Q Qx (k a) (w', b)) ->
  uwp kernel Q Qx (ubind (sys e) k) (w, b).
Proof.
  intros He H. apply uwp_sys; [apply kernel_answers; by destruct e|]. intros a [w' b'] [[Ha Eb]|[Hr _]]; [|by destruct e].
  cbn in Eb. subst b'. by apply H.
Qed.

Lemma any_print fmt args (k : unit -> U B) w b :
  uwp kernel Q Qx (k tt) (say 1 (text_of fmt args) w, b) -> uwp kernel Q Qx (ubind (uprintf fmt args) k) (w, b).
Proof. intros H. apply uwp_bind. eapply uwp_mono; [apply fprintf_any| |done]. by intros [] s ->. Qed.

Lemma any_work t (k : unit -> U B) w b :
  0 <= t -> uwp kernel Q Qx (k tt) (yielded t w, b) -> uwp kernel Q Qx (ubind (work t) k) (w, b).
Proof.
  intros Ht H. apply uwp_bind. unfold work.
  eapply uwp_mono; [apply (uwp_each _ (fun l s => (length l <= Z.to_nat t)%nat /\ s = (yielded (t - Z.of_nat (length l)) w, b)) Qx)| |done].
  - intros i l s1 [Hl ->]. apply uwp_sys; [by apply kernel_answers|]. intros a [w2 b2] [[E2 Eb]|[[] _]]. cbn in E2, Eb. subst.
    apply uwp_ret. cbn [length] in *. split; [lia|]. unfold yielded. cbn. do 2 f_equal. lia.
  - rewrite length_seqZ. split; [lia|]. unfold yielded. destruct w. cbn. do 2 f_equal. lia.
  - intros [] s [_ ->]. cbn [length]. by rewrite Z.sub_0_r.
Qed.

Lemma brood_print n fmt args (k : unit -> U B) s :
  brood n s -> (forall s', brood n s' -> uwp kernel Q Qx (k tt) s') -> uwp kernel Q Qx (ubind (uprintf fmt args) k) s.
Proof. destruct s as [w b]. intros Hs Hk. apply any_print, Hk, Hs. Qed.

Lemma brood_each_print n (l : list Z) fmt (k : unit -> U B) s :
  brood n s -> (forall s', brood n s' -> uwp kernel Q Qx (k tt) s') ->
  uwp kernel Q Qx (ubind (each l (fun x => uprintf fmt [I x])) k) s.
Proof.
  intros Hs Hk. apply uwp_bind. eapply uwp_mono; [apply (uwp_each _ (fun _ s' => brood n s') Qx); [|exact Hs]| |done].
  - intros x l' [w1 b1] H1. eapply uwp_mono; [apply fprintf_any| |done]. by intros [] s' ->.
  - intros [] s'. apply Hk.
Qed.

Lemma brood_fork n (k : Z -> U B) s :
  brood n s -> (forall i b, uwp kernel Q Qx (k 0) (child_of i, b)) ->
  (forall pid s', pid <> 0 -> brood (S n) s' -> uwp kernel Q Qx (k pid) s') -> uwp kernel Q Qx (ubind (sys Fork) k) s.
Proof.
  destruct s as [w b]. intros [Hb Hl] Hc Hk. apply uwp_sys; [by apply kernel_answers|].
  intros a [w' b'] [[[[-> E]|(Hp & _ & E)] _]|[Ha E]]; cbn in *.
  - rewrite E. apply Hc.
  - apply Hk; [lia|]. rewrite E. split; [done|]. cbn. rewrite length_app. cbn. lia.
  - apply Hk; [lia|]. injection E as -> ->. split; [done|]. cbn. lia.
Qed.

End Refusals.

Lemma spawn_brood Qx n child s :
  brood n s -> (forall i b, uwp kernel (fun _ _ => False) Qx child (child_of i, b)) ->
  uwp kernel (fun _ s' => brood (S n) s') Qx (spawn child) s.
Proof.
  intros Hs Hc. unfold spawn. eapply brood_fork; [exact Hs| |].
  - intros i b. cbn [Z.eqb]. apply uwp_bind. eapply uwp_mono; [apply Hc|done|done].
  - intros pid s' Hp Hs'. rewrite (proj2 (Z.eqb_neq pid 0)) by done. by apply uwp_bind, uwp_ret, uwp_ret.
Qed.
Lemma wait_brood Qx n s : brood (S n) s -> uwp kernel (fun _ s' => brood n s') Qx wait0 s.
Proof.
  destruct s as [w b]. intros [Hb Hl]. unfold wait0. apply any_sys; [done|]. intros [pid st] w' Hw. apply uwp_ret.
  cbn in Hw. case_bool_decide as E.
  - destruct Hw as [_ ->]. split; [done|]. cbn. rewrite E. cbn. lia.
  - destruct Hw as (l & Hp & ->). apply Permutation_length in Hp. split; [done|]. cbn in *. lia.
Qed.

Section Broods.
Context {B : Type} (Q : B -> kin * bool -> Prop) (Qx : Z -> kin * bool -> Prop).

Lemma brood_spawn n child (k : Z -> U B) s :
  brood n s -> (forall i b, uwp kernel (fun _ _ => False) Qx child (child_of i, b)) ->
  (forall pid s', brood (S n) s' -> uwp kernel Q Qx (k pid) s') -> uwp kernel Q Qx (ubind (spawn child) k) s.
Proof. intros Hs Hc Hk. apply uwp_bind. eapply uwp_mono; [by apply (spawn_brood _ n)|exact Hk|done]. Qed.
Lemma brood_wait n (k : Z -> U B) s :
  brood (S n) s -> (forall pid s', brood n s' -> uwp kernel Q Qx (k pid) s') -> uwp kernel Q Qx (ubind wait0 k) s.
Proof. intros Hs Hk. apply uwp_bind. eapply uwp_mono; [by apply (wait_brood _ n)|exact Hk|done]. Qed.

Lemma brood_spawn_all {A} (l : list A) (child : A -> U unit) (k : list Z -> U B) s :
  brood 0 s -> (forall a i b, a ∈ l -> uwp kernel (fun _ _ => False) Qx (child a) (child_of i, b)) ->
  (forall pids s', brood (length l) s' -> uwp kernel Q Qx (k pids) s') ->
  uwp kernel Q Qx (ubind (collect l (fun a => spawn (child a))) k) s.
Proof.
  intros Hs Hc Hk. apply uwp_bind.
  eapply uwp_mono; [apply (uwp_collect kernel (fun l' pids s' => exists m, (m + length l' <= length l)%nat /\ brood m s' /\ (forall a, a ∈ l' -> a ∈ l)) Qx) with (bs := [])| |done].
  - intros a l' pids s1 (m & Hm & H1 & Hin). cbn [length] in Hm.
    eapply uwp_mono; [apply (spawn_brood _ m); [exact H1|]| |done].
    + intros i b. apply Hc, Hin. by left.
    + intros pid s' H'. exists (S m). split_and!; [lia|done|]. intros a' Ha'. apply Hin. by right.
  - exists O. split_and!; [cbn; lia|done|done].
  - intros pids s' (m & Hm & [Hb Hl] & _). apply Hk. split; [done|]. cbn in Hm. lia.
Qed.

Lemma brood_wait_all {A} (l : list A) (k : list Z -> U B) s :
  brood (length l) s -> (forall fin s', brood 0 s' -> uwp kernel Q Qx (k fin) s') ->
  uwp kernel Q Qx (ubind (collect l (fun _ => wait0)) k) s.
Proof.
  intros Hs Hk. apply uwp_bind.
  eapply uwp_mono; [apply (uwp_collect kernel (fun (l' : list A) (fin : list Z) s' => brood (length l') s') Qx) with (bs := []); [|exact Hs]| |done].
  - intros a l' fin s1 H1. by apply wait_brood.
  - intros fin s'. apply Hk.
Qed.
End Broods.

(** * No room at all *)

Section Full.
Context {B : Type} (Q : B -> kin -> Prop) (Qx : Z -> kin -> Prop).

Lemma full_spawn child (k : Z -> U B) w : uwp full Q Qx (k (-1)) w -> uwp full Q Qx (ubind (spawn child) k) w.
Proof.
  intros H. apply uwp_bind. unfold spawn. apply uwp_sys; [by apply full_answers|]. intros a w' [Ha ->]. cbn in Ha. subst a.
  change (-1 =? 0) with false. cbv iota. apply uwp_bind, uwp_ret, uwp_ret. exact H.
Qed.
Lemma full_wait (k : Z -> U B) w : alone w -> uwp full Q Qx (k (-1)) w -> uwp full Q Qx (ubind wait0 k) w.
Proof.
  intros Hw H. apply uwp_bind. unfold wait0. apply kin_sys; [done|]. intros [a st] w' Ha. apply uwp_ret.
  cbn in Ha. rewrite bool_decide_eq_true_2 in Ha by done. by destruct Ha as [-> ->].
Qed.

Lemma full_spawn_all {A} (l : list A) (child : A -> U unit) (k : list Z -> U B) w :
  uwp full Q Qx (k (replicate (length l) (-1))) w -> uwp full Q Qx (ubind (collect l (fun a => spawn (child a))) k) w.
Proof.
  intros H. apply uwp_bind.
  eapply uwp_mono; [apply (uwp_collect full (fun l' pids w' => replicate (length l) (-1) = pids ++ replicate (length l') (-1) /\ w' = w) Qx) with (bs := [])| |done].
  - intros a l' pids w1 [El ->]. unfold spawn. apply uwp_sys; [by apply full_answers|]. intros r w' [Hr ->]. cbn in Hr. subst r.
    change (-1 =? 0) with false. cbv iota. apply uwp_bind, uwp_ret, uwp_ret. by rewrite <- app_assoc.
  - done.
  - intros pids w' [El ->]. cbn in El. rewrite app_nil_r in El. by rewrite <- El.
Qed.
Lemma full_wait_all {A} (l : list A) (k : list Z -> U B) w : alone w ->
  uwp full Q Qx (k (replicate (length l) (-1))) w -> uwp full Q Qx (ubind (collect l (fun _ => wait0)) k) w.
Proof.
  intros Hw H. apply uwp_bind.
  eapply uwp_mono; [apply (uwp_collect full (fun (l' : list A) fin w' => replicate (length l) (-1) = fin ++ replicate (length l') (-1) /\ w' = w) Qx) with (bs := [])| |done].
  - intros a l' fin w1 [El ->]. unfold wait0. apply kin_sys; [done|]. intros [r st] w' Hr.
    cbn in Hr. rewrite bool_decide_eq_true_2 in Hr by done. destruct Hr as [-> ->]. apply uwp_ret. cbn [fst]. by rewrite <- app_assoc.
  - done.
  - intros fin w' [El ->]. cbn in El. rewrite app_nil_r in El. by rewrite <- El.
Qed.
End Full.

(** * Tests *)

(** A child that declared [t], with the hint of the STCF scheduler if [h], worked
    for [t] and exited. *)
Definition did (h : bool) (t : Z) (st : Z) (w : kin) : Prop :=
  st = 0 /\ k_expected w = Some t /\ k_hint w = (if h then Some t else None) /\ k_yields w = t.
(** The children from the [n]-th on have the runtimes [rts]. *)
Definition jobs_done (h : bool) (n : nat) (rts : list Z) (st : Z) (w : kin) : Prop :=
  exists i t, rts !! i = Some t /\ k_born w = Some (n + i)%nat /\ did h t st w.

(** A test that forks as many children as [ord] has, reaps them all, and answers
    whether they came in the order [ord]. *)
Definition tested (ord : list nat) (w : kin) (r : Z) (w' : kin) : Prop :=
  exists pids fin, length pids = length ord /\ fin ≡ₚ pids /\
    k_born w' = k_born w /\ k_left w' = [] /\ k_forked w' = k_forked w ++ pids /\ k_reaped w' = k_reaped w ++ fin /\
    r = Z.b2z (bool_decide (fin = reorder ord pids)).

Lemma jobs_here h n rts i t w st : rts !! i = Some t -> k_born w = Some (n + i)%nat -> did h t st w -> jobs_done h n rts st w.
Proof. intros H1 H2 H3. by exists i, t. Qed.

Ltac kin_step :=
  first
    [ apply kin_print
    | apply kin_work; [cbn; lia|]
    | apply kin_sys; [done|]; intros ? ? ->
    | apply uwp_exit ].
(** The body of the [i]-th child, up to its [exit]. *)
Ltac kin_child i :=
  repeat kin_step; eapply (jobs_here _ _ _ i);
    [first [reflexivity | eassumption] | cbn; f_equal; rewrite ?length_app; cbn; lia | split_and!; reflexivity].

Ltac ten_children :=
  first [ kin_child 0%nat | kin_child 1%nat | kin_child 2%nat | kin_child 3%nat | kin_child 4%nat
        | kin_child 5%nat | kin_child 6%nat | kin_child 7%nat | kin_child 8%nat | kin_child 9%nat ].

(** The verdicts on two and on three children. *)
Lemma first_of_two a b p q : [a; b] ≡ₚ [p; q] -> (a =? p) = bool_decide ([a; b] = reorder [0; 1]%nat [p; q]).
Proof.
  intros H. cbn. destruct (Z.eqb_spec a p) as [->|Hne]; symmetry; [apply bool_decide_eq_true|apply bool_decide_eq_false; congruence].
  apply (Permutation_app_inv_l [p] [b] [q]), Permutation_singleton_inj in H. by subst b.
Qed.
Lemma second_of_two a b p q : [a; b] ≡ₚ [p; q] -> (a =? q) = bool_decide ([a; b] = reorder [1; 0]%nat [p; q]).
Proof. intros H. apply (first_of_two a b q p). by rewrite H, Permutation_swap. Qed.
Lemma all_of_two a b x y : ((a =? x) && (b =? y)) = bool_decide ([a; b] = [x; y]).
Proof.
  symmetry. destruct (Z.eqb_spec a x), (Z.eqb_spec b y); cbn; (apply bool_decide_eq_true || apply bool_decide_eq_false); congruence.
Qed.
Lemma all_of_three a b c x y z : ((a =? x) && (b =? y) && (c =? z)) = bool_decide ([a; b; c] = [x; y; z]).
Proof.
  symmetry. destruct (Z.eqb_spec a x), (Z.eqb_spec b y), (Z.eqb_spec c z); cbn; (apply bool_decide_eq_true || apply bool_decide_eq_false); congruence.
Qed.

Lemma kin_each_print `{Kernel E} {B} (Q : B -> kin -> Prop) Qx (l : list Z) fmt (k : unit -> U B) w :
  (forall txt, uwp E Q Qx (k tt) (say 1 txt w)) ->
  uwp E Q Qx (ubind (each l (fun x => uprintf fmt [I x])) k) w.
Proof.
  intros Hk. apply uwp_bind. eapply uwp_mono; [apply (uwp_each _ (fun _ w' => exists txt, w' = say 1 txt w) Qx)| |done].
  - intros x l' w1 [txt ->]. eapply uwp_mono; [apply fprintf_kin| |done]. intros u w' ->. rewrite say_say. eauto.
  - exists []. by rewrite say_nil.
  - intros [] w' [txt ->]. apply Hk.
Qed.

(** The parent ran the tests [ords], reaped all its children, and [n] of the
    tests passed. *)
Definition suite (ords : list (list nat)) (n : Z) (w : kin) : Prop :=
  k_born w = None /\ k_left w = [] /\ length (k_forked w) = length (concat ords) /\ k_reaped w ≡ₚ k_forked w /\
  n = graded ords (k_forked w) (k_reaped w).
(** How a process of a test program ends: a child has done its job, the parent
    has run the tests and reports how many passed. *)
Definition finished (h : bool) (jobs : list Z) (ords : list (list nat)) (report : list Z) (st : Z) (w : kin) : Prop :=
  jobs_done h 0 jobs st w \/ st = 0 /\ exists n out, suite ords n w /\ k_out w = out ++ text_of report [I n].

Lemma graded_snoc ords ord P F p f :
  length P = length (concat ords) -> length F = length (concat ords) -> length p = length ord -> length f = length ord ->
  graded (ords ++ [ord]) (P ++ p) (F ++ f) = graded ords P F + Z.b2z (bool_decide (f = reorder ord p)).
Proof.
  revert P F. induction ords as [|o ords IH]; intros P F HP HF Hp Hf; cbn [app concat] in *.
  - apply nil_length_inv in HP, HF. subst. cbn [app].
    pose proof (graded_cons ord [] p f [] [] Hp Hf) as E. rewrite !app_nil_r in E. rewrite E. cbn [graded]. lia.
  - rewrite length_app in HP, HF. rewrite <- (take_drop (length o) P), <- (take_drop (length o) F), <- !app_assoc.
    rewrite !graded_cons, IH by (rewrite ?length_take, ?length_drop; lia). lia.
Qed.

Lemma suite_step ords n ord w r w' : suite ords n w -> tested ord w r w' -> suite (ords ++ [ord]) (n + r) w'.
Proof.
  intros (B & L & Hl & Hp & ->) (p & f & Lp & Pp & B' & L' & EF & ER & ->). split_and!; [by rewrite B'|done| | |].
  - rewrite EF, concat_app, !length_app, Hl, Lp. cbn. rewrite app_nil_r. done.
  - by rewrite EF, ER, Hp, Pp.
  - rewrite EF, ER, graded_snoc; [done|done| |done|].
    + by rewrite Hp, Hl.
    + by rewrite Pp, Lp.
Qed.

Lemma jobs_within h n pre rts post st w : n = length pre -> jobs_done h n rts st w -> jobs_done h 0 (pre ++ rts ++ post) st w.
Proof.
  intros -> (i & t & Hi & Hb & Hd). exists (length pre + i)%nat, t. split_and!; [|done|done].
  rewrite lookup_app_r by lia. replace (length pre + i - length pre)%nat with i by lia.
  by apply lookup_app_l_Some.
Qed.

(** The next test of a suite. *)
Lemma kin_test {B} (Q : B -> kin -> Prop) h jobs ords report all pre rts post ord n t (k : Z -> U B) w :
  suite ords n w -> jobs = pre ++ rts ++ post -> length pre = length (concat ords) ->
  (alone w -> uwp roomy (tested ord w) (jobs_done h (length (k_forked w)) rts) t w) ->
  (forall r w', suite (ords ++ [ord]) (n + r) w' -> uwp roomy Q (finished h jobs all report) (k r) w') ->
  uwp roomy Q (finished h jobs all report) (ubind t k) w.
Proof.
  intros Hs -> Hl Ht Hk. apply uwp_bind. eapply uwp_mono; [apply Ht; apply Hs| |].
  - intros r w' H. apply Hk. by eapply suite_step.
  - intros st w' H. left. eapply jobs_within; [|exact H]. destruct Hs as (_ & _ & E & _). lia.
Qed.

(** How a process of a test program ends even where forks are refused: a child
    has done one of the jobs; the parent has no child left and reports at most
    [m] passed tests. *)
Definition job_done (h : bool) (jobs : list Z) (st : Z) (w : kin) : Prop :=
  k_born w <> None /\ exists t, t ∈ jobs /\ did h t st w.
Definition ended (h : bool) (jobs : list Z) (m : Z) (report : list Z) (st : Z) (w : kin) : Prop :=
  job_done h jobs st w \/
  st = 0 /\ k_born w = None /\ k_left w = [] /\ exists n out, 0 <= n <= m /\ k_out w = out ++ text_of report [I n].

Lemma job_here h jobs t st w : t ∈ jobs -> k_born w <> None -> did h t st w -> job_done h jobs st w.
Proof. intros H1 H2 H3. split; [done|]. by exists t. Qed.

Ltac any_step :=
  first
    [ apply any_print
    | apply any_work; [cbn; lia|]
    | apply any_sys; [done|]; intros ? ? ->
    | apply uwp_exit ].
(** The body of a child that works for [t]. *)
Ltac any_child t :=
  intros ? ?; repeat any_step; apply (job_here _ _ t); [apply (bool_decide_unpack _); vm_compute; exact Logic.I|done|split_and!; reflexivity].
