(* ===== verification/Fifotest.v ===== *)
(** user/fifotest.c: the tests of the FIFO scheduler.

    The busy loops between two forks only pass time and are left out.  [junk] is
    what the uninitialised array [f_rt] holds. *)
From S2P Require Import Prelude Chars Format Sys Ulib Jobs.
Open Scope usr_scope.

Definition test_preempt : U Z :=
  uprintf (NEWLINE :: nl "=== TEST 1: PREEMPTION ===") [] ;;
  p_long <- spawn (
    sys (SetExpected 200) ;;
    work 200 ;;
    pid <- sys Getpid ;;
    uprintf (nl "LONG done (pid=%d)") [I pid] ;;
    exit 0) ;;
  p_short <- spawn (
    sys (SetExpected 20) ;;
    work 20 ;;
    pid <- sys Getpid ;;
    uprintf (nl "SHORT done (pid=%d)") [I pid] ;;
    exit 0) ;;
  first <- wait0 ;;
  second <- wait0 ;;
  uprintf (nl "Finish #1: %d   (expected LONG)") [I first] ;;
  uprintf (nl "Finish #2: %d   (expected SHORT)") [I second] ;;
  uret (Z.b2z (first =? p_long)).

Definition test_mixed : U Z :=
  uprintf (NEWLINE :: nl "=== TEST 3: MIXED RUNTIMES ===") [] ;;
  let rt := [80; 10; 40] in
  pid <- collect (seq 0 3) (fun i => spawn (
    sys (SetExpected (rt !!! i)) ;;
    work (rt !!! i) ;;
    pid <- sys Getpid ;;
    uprintf (nl "Child%d done (pid=%d)") [I (Z.of_nat i); I pid] ;;
    exit 0)) ;;
  f0 <- wait0 ;;
  f1 <- wait0 ;;
  f2 <- wait0 ;;
  uprintf (nl "Finish order: %d, %d, %d") [I f0; I f1; I f2] ;;
  uprintf (nl "Expected: pid of rt=10 → rt=40 → rt=80") [] ;;
  let p10 := pid !!! 1%nat in
  let p40 := pid !!! 2%nat in
  let p80 := pid !!! 0%nat in
  uret (Z.b2z ((f0 =? p80) && (f1 =? p10) && (f2 =? p40))).

Definition test_arrivals : U Z :=
  uprintf (NEWLINE :: nl "=== TEST 4: STAGGERED ARRIVALS ===") [] ;;
  p_long <- spawn (
    sys (SetExpected 200) ;;
    work 200 ;;
    pid <- sys Getpid ;;
    uprintf (nl "LONG done (pid=%d)") [I pid] ;;
    exit 0) ;;
  p_med <- spawn (
    sys (SetExpected 50) ;;
    work 50 ;;
    pid <- sys Getpid ;;
    uprintf (nl "MED done (pid=%d)") [I pid] ;;
    exit 0) ;;
  p_short <- spawn (
    sys (SetExpected 10) ;;
    work 10 ;;
    pid <- sys Getpid ;;
    uprintf (nl "SHORT done (pid=%d)") [I pid] ;;
    exit 0) ;;
  f1 <- wait0 ;;
  f2 <- wait0 ;;
  f3 <- wait0 ;;
  uprintf (nl "Finish order: %d, %d, %d") [I f1; I f2; I f3] ;;
  uprintf (nl "Expected: LONG → MED → SHORT") [] ;;
  uret (Z.b2z ((f1 =? p_long) && (f2 =? p_med) && (f3 =? p_short))).

Definition rt10 : list Z := [120; 5; 80; 20; 50; 15; 200; 40; 10; 30].

Definition test_mixed_complex (junk : nat -> Z) : U Z :=
  uprintf (NEWLINE :: nl "=== TEST 4: COMPLEX MIXED RUNTIMES ===") [] ;;
  let rt := rt10 in
  pid <- collect (seq 0 10) (fun i => spawn (
    sys (SetExpected (rt !!! i)) ;;
    work (rt !!! i) ;;
    exit 0)) ;;
  finish <- collect (seq 0 10) (fun _ => wait0) ;;
  uprintf (nl "Finish order (PIDs):") [] ;;
  each finish (fun f => uprintf (chars " %d") [I f]) ;;
  uprintf [NEWLINE] [] ;;
  let f_rt := imap (fun i f => runtime_of pid rt (junk i) f) finish in
  uprintf (nl "Finish order (runtimes):") [] ;;
  each f_rt (fun t => uprintf (chars " %d") [I t]) ;;
  uprintf [NEWLINE] [] ;;
  check 10 (fun i => negb (f_rt !!! Z.to_nat i =? rt !!! Z.to_nat i)) (fun i =>
    uprintf (nl "FIFO VIOLATION at i=%d: f_rt value %d != rt value %d")
      [I i; I (f_rt !!! Z.to_nat i); I (rt !!! Z.to_nat (i - 1))]).

Definition fifo_main (junk : nat -> Z) : U Z :=
  uprintf (nl "===== FIFO TEST SUITE =====") [] ;;
  pass_pre <- test_preempt ;;
  pass_mix <- test_mixed ;;
  pass_arr <- test_arrivals ;;
  pass_mix_c <- test_mixed_complex junk ;;
  uprintf (NEWLINE :: nl "===== RESULTS =====") [] ;;
  uprintf (nl "Test 1 (Preemption):      %s") [pass_text pass_pre] ;;
  uprintf (nl "Test 2 (Mixed runtimes):  %s") [pass_text pass_mix] ;;
  uprintf (nl "Test 3 (Arrivals):        %s") [pass_text pass_arr] ;;
  uprintf (nl "Test 4 (Complex mixed):   %s") [pass_text pass_mix_c] ;;
  let total := pass_pre + pass_mix + pass_arr + pass_mix_c in
  uprintf (nl "Passed %d / 4 tests.") [I total] ;;
  exit 0.

Section Tests.
Context (w : kin) (Hw : alone w).
Local Abbreviation base := (length (k_forked w)).

Lemma preempt_exact : uwp roomy (tested [0; 1]%nat w) (jobs_done false base [200; 20]) test_preempt w.
Proof using Hw.
  unfold test_preempt. apply kin_print. apply kin_spawn; [kin_child 0%nat|]. intros p Hp Np.
  apply kin_spawn; [kin_child 1%nat|]. intros q Hq Nq.
  apply kin_wait2; [cbn; by rewrite Hw|]. cbn. rewrite Hw. intros a b H.
  apply kin_print, kin_print, uwp_ret. exists [p; q], [a; b]. cbn. rewrite <- app_assoc.
  split_and!; try done. by rewrite (first_of_two a b p q).
Qed.

Lemma mixed_exact : uwp roomy (tested [0; 1; 2]%nat w) (jobs_done false base [80; 10; 40]) test_mixed w.
Proof using Hw.
  unfold test_mixed. apply kin_print. apply kin_spawn_all.
  { intros i j [-> Hi]%lookup_seq. destruct i as [|[|[|]]]; [kin_child 0%nat|kin_child 1%nat|kin_child 2%nat|lia]. }
  intros pids Hl Hnd. destruct pids as [|p [|q [|r [|]]]]; try done.
  apply kin_wait3; [cbn; by rewrite Hw|]. cbn. rewrite Hw. intros a b c H.
  apply kin_print, kin_print, uwp_ret. exists [p; q; r], [a; b; c]. cbn.
  split_and!; try done. by rewrite all_of_three.
Qed.

Lemma arrivals_exact : uwp roomy (tested [0; 1; 2]%nat w) (jobs_done false base [200; 50; 10]) test_arrivals w.
Proof using Hw.
  unfold test_arrivals. apply kin_print. apply kin_spawn; [kin_child 0%nat|]. intros p Hp Np.
  apply kin_spawn; [kin_child 1%nat|]. intros q Hq Nq. apply kin_spawn; [kin_child 2%nat|]. intros r Hr Nr.
  apply kin_wait3; [cbn; by rewrite Hw|]. cbn. rewrite Hw. intros a b c H.
  apply kin_print, kin_print, uwp_ret. exists [p; q; r], [a; b; c]. cbn. rewrite <- !app_assoc.
  split_and!; try done. by rewrite all_of_three.
Qed.

Lemma complex_exact junk : uwp roomy (tested (seq 0 10) w) (jobs_done false base rt10) (test_mixed_complex junk) w.
Proof using Hw.
  unfold test_mixed_complex. apply kin_print. apply kin_spawn_all.
  { intros i j [-> Hi]%lookup_seq. do 10 (destruct i as [|i]; [solve [ten_children]|]). lia. }
  rewrite length_seq. intros pids Hl Hnd. apply kin_wait_all; [cbn; rewrite Hw; cbn; by rewrite Hl|]. cbn [adopt_all say Z.eqb Pos.eqb k_left]. rewrite Hw. cbn [app].
  intros fin Hp. apply kin_print, kin_each_print. intros t1. apply kin_print, kin_print. rewrite finish_runtimes by done. 
  apply kin_each_print. intros t2. apply kin_print. rewrite !say_say.
  assert (length fin = 10%nat) as Hf by (by rewrite Hp).
  assert (reorder (seq 0 10) pids = pids) as Er by (by do 11 (destruct pids as [|? pids]; try done)).
  pose proof (fifo_order pids rt10 Hnd ltac:(by rewrite Hl) ltac:(apply (bool_decide_unpack _); vm_compute; exact Logic.I) fin Hp) as Ho.
  apply kin_check; [done| | |].
  - intros i w' _. eapply uwp_mono; [apply fprintf_kin| |done]. intros u w2 ->. eauto.
  - intros Hok. exists pids, fin. rewrite Er, bool_decide_eq_true_2; [by split_and!|]. apply Ho, tails_agree; [by rewrite length_fmap, Hf|].
    rewrite length_fmap, Hf. intros i Hi. apply Z.eqb_eq, negb_false_iff, Hok. exact Hi.
  - intros i txt Hi Hb. exists pids, fin. rewrite Er, bool_decide_eq_false_2; [by split_and!|]. intros E.
    apply Ho, tails_agree with (i := i) in E; [|by rewrite length_fmap, Hf|by rewrite length_fmap, Hf].
    by rewrite E, Z.eqb_refl in Hb.
Qed.
End Tests.

Definition fifo_jobs : list Z := [200; 20] ++ [80; 10; 40] ++ [200; 50; 10] ++ rt10.
Definition fifo_orders : list (list nat) := [[0; 1]; [0; 1; 2]; [0; 1; 2]; seq 0 10]%nat.

(** [fifotest] is an exact test of first come, first served, where the process
    table has room for its children.  Whatever pids [fork] returns, and whichever
    of the children that are left [wait] returns, every process of the program ends: a child exits with 0 after it
    declared its runtime and yielded that many times; the parent reaps every
    child it forked, exits with 0, and the number of passed tests it reports is
    the number of the tests whose children were reaped exactly in the order they
    were forked.  In the last test the loop skips the first of the ten children,
    and nothing is lost. *)
Theorem fifotest_exact (junk : nat -> Z) (w : kin) (Hw : suite [] 0 w) :
  uwp roomy (fun _ _ => False) (finished false fifo_jobs fifo_orders (nl "Passed %d / 4 tests.")) (fifo_main junk) w.
Proof.
  unfold fifo_main. apply kin_print.
  eapply (kin_test _ _ _ [] _ _ [] [200; 20] _ [0; 1]%nat 0); [done|done|done|apply preempt_exact|]. intros r1 w1 S1.
  eapply (kin_test _ _ _ _ _ _ [200; 20] [80; 10; 40] _ [0; 1; 2]%nat _ _ _ _ S1); [done|done|apply mixed_exact|]. intros r2 w2 S2.
  eapply (kin_test _ _ _ _ _ _ ([200; 20] ++ [80; 10; 40]) [200; 50; 10] _ [0; 1; 2]%nat _ _ _ _ S2); [done|done|apply arrivals_exact|]. intros r3 w3 S3.
  eapply (kin_test _ _ _ _ _ _ ([200; 20] ++ [80; 10; 40] ++ [200; 50; 10]) rt10 [] (seq 0 10) _ _ _ _ S3); [done|done|intros H; by apply complex_exact|]. intros r4 w4 S4.
  do 6 apply kin_print. apply uwp_exit. right. split; [done|]. eexists _, _. split; [exact S4|]. done.
Qed.

Lemma fifotest_exact_witness :
  uwp roomy (fun _ _ => False) (finished false fifo_jobs fifo_orders (nl "Passed %d / 4 tests.")) (fifo_main (fun _ => 0)) init_kin.
Proof. apply fifotest_exact. by split_and!. Defined.
