(* ===== verification/Stcftest.v ===== *)
(** user/stcftest.c: the tests of the STCF scheduler.

    The busy loops between two forks only pass time and are left out.  [junk] is
    what the uninitialised array [f_rt] holds. *)
From stdpp Require Import sorting.
From S2P Require Import Prelude Chars Format Sys Ulib Jobs.
Open Scope usr_scope.

Definition test_preempt : U Z :=
  uprintf (NEWLINE :: nl "=== TEST 1: PREEMPTION ===") [] ;;
  p_long <- spawn (
    sys (SetExpected 200) ;;
    sys (SetStcfVals 200) ;;
    work 200 ;;
    pid <- sys Getpid ;;
    uprintf (nl "LONG done (pid=%d)") [I pid] ;;
    exit 0) ;;
  p_short <- spawn (
    sys (SetExpected 20) ;;
    sys (SetStcfVals 20) ;;
    work 20 ;;
    pid <- sys Getpid ;;
    uprintf (nl "SHORT done (pid=%d)") [I pid] ;;
    exit 0) ;;
  first <- wait0 ;;
  second <- wait0 ;;
  uprintf (nl "Finish #1: %d   (expected SHORT)") [I first] ;;
  uprintf (nl "Finish #2: %d   (expected LONG)") [I second] ;;
  uret (Z.b2z (first =? p_short)).

Definition test_mixed : U Z :=
  uprintf (NEWLINE :: nl "=== TEST 3: MIXED RUNTIMES ===") [] ;;
  let rt := [80; 10; 40] in
  pid <- collect (seq 0 3) (fun i => spawn (
    sys (SetExpected (rt !!! i)) ;;
    sys (SetStcfVals (rt !!! i)) ;;
    work (rt !!! i) ;;
    pid <- sys Getpid ;;
    uprintf (nl "Child%d done (pid=%d)") [I (Z.of_nat i); I pid] ;;
    exit 0)) ;;
  f0 <- wait0 ;;
  f1 <- wait0 ;;
  f2 <- wait0 ;;
  uprintf (nl "Finish order: %d, %d, %d") [I f0; I f1; I f2] ;;
  uprintf (nl "Expected: pid of rt=10 → rt=40 → rt=80") [] ;;
  let p10 := pid !!! 1%nat in
  let p40 := pid !!! 2%nat in
  let p80 := pid !!! 0%nat in
  uret (Z.b2z ((f0 =? p10) && (f1 =? p40) && (f2 =? p80))).

Definition test_arrivals : U Z :=
  uprintf (NEWLINE :: nl "=== TEST 4: STAGGERED ARRIVALS ===") [] ;;
  p_long <- spawn (
    sys (SetExpected 200) ;;
    sys (SetStcfVals 200) ;;
    work 200 ;;
    pid <- sys Getpid ;;
    uprintf (nl "LONG done (pid=%d)") [I pid] ;;
    exit 0) ;;
  p_med <- spawn (
    sys (SetExpected 50) ;;
    sys (SetStcfVals 50) ;;
    work 50 ;;
    pid <- sys Getpid ;;
    uprintf (nl "MED done (pid=%d)") [I pid] ;;
    exit 0) ;;
  p_short <- spawn (
    sys (SetExpected 10) ;;
    sys (SetStcfVals 10) ;;
    work 10 ;;
    pid <- sys Getpid ;;
    uprintf (nl "SHORT done (pid=%d)") [I pid] ;;
    exit 0) ;;
  f1 <- wait0 ;;
  f2 <- wait0 ;;
  f3 <- wait0 ;;
  uprintf (nl "Finish order: %d, %d, %d") [I f1; I f2; I f3] ;;
  uprintf (nl "Expected: SHORT → MED → LONG") [] ;;
  uret (Z.b2z ((f1 =? p_short) && (f2 =? p_med) && (f3 =? p_long))).

Definition rt10 : list Z := [120; 5; 80; 20; 50; 15; 200; 40; 10; 30].

Definition test_mixed_complex (junk : nat -> Z) : U Z :=
  uprintf (NEWLINE :: nl "=== TEST 4: COMPLEX MIXED RUNTIMES ===") [] ;;
  let rt := rt10 in
  pid <- collect (seq 0 10) (fun i => spawn (
    sys (SetExpected (rt !!! i)) ;;
    sys (SetStcfVals (rt !!! i)) ;;
    work (rt !!! i) ;;
    exit 0)) ;;
  finish <- collect (seq 0 10) (fun _ => wait0) ;;
  uprintf (nl "Finish order (PIDs):") [] ;;
  each finish (fun f => uprintf (chars " %d") [I f]) ;;
  uprintf [NEWLINE] [] ;;
  let f_rt := imap (fun i f => runtime_of pid rt (junk i) f) finish in
  uprintf (nl "Finish order (runtimes):") [] ;;
  each f_rt (fun t => uprintf (chars " %d") [I t]) ;;
  uprintf [NEWLINE] [] ;;
  check 10 (fun i => f_rt !!! Z.to_nat i <? f_rt !!! Z.to_nat (i - 1)) (fun i =>
    uprintf (nl "STCF VIOLATION at i=%d: %d < %d")
      [I i; I (f_rt !!! Z.to_nat i); I (f_rt !!! Z.to_nat (i - 1))]).

Definition stcf_main (junk : nat -> Z) : U Z :=
  uprintf (nl "===== STCF TEST SUITE =====") [] ;;
  sys (SetStcfVals 1) ;;
  pass_pre <- test_preempt ;;
  pass_mix <- test_mixed ;;
  pass_arr <- test_arrivals ;;
  pass_mix_c <- test_mixed_complex junk ;;
  uprintf (NEWLINE :: nl "===== RESULTS =====") [] ;;
  uprintf (nl "Test 1 (Preemption):      %s") [pass_text pass_pre] ;;
  uprintf (nl "Test 2 (Mixed runtimes):  %s") [pass_text pass_mix] ;;
  uprintf (nl "Test 3 (Arrivals):        %s") [pass_text pass_arr] ;;
  uprintf (nl "Test 4 (Complex mixed):   %s") [pass_text pass_mix_c] ;;
  let total := pass_pre + pass_mix + pass_arr + pass_mix_c in
  uprintf (nl "Passed %d / 4 tests.") [I total] ;;
  exit 0.

(** The ten children by their runtimes. *)
Definition ord10 : list nat := [1; 8; 5; 3; 9; 7; 4; 2; 0; 6]%nat.

Section Tests.
Context (w : kin) (Hw : alone w).
Local Abbreviation base := (length (k_forked w)).

Lemma stcf_preempt_exact : uwp roomy (tested [1; 0]%nat w) (jobs_done true base [200; 20]) test_preempt w.
Proof using Hw.
  unfold test_preempt. apply kin_print. apply kin_spawn; [kin_child 0%nat|]. intros p Hp Np.
  apply kin_spawn; [kin_child 1%nat|]. intros q Hq Nq.
  apply kin_wait2; [cbn; by rewrite Hw|]. cbn. rewrite Hw. intros a b H.
  apply kin_print, kin_print, uwp_ret. exists [p; q], [a; b]. cbn. rewrite <- app_assoc.
  split_and!; try done. by rewrite (second_of_two a b p q).
Qed.

Lemma stcf_mixed_exact : uwp roomy (tested [1; 2; 0]%nat w) (jobs_done true base [80; 10; 40]) test_mixed w.
Proof using Hw.
  unfold test_mixed. apply kin_print. apply kin_spawn_all.
  { intros i j [-> Hi]%lookup_seq. destruct i as [|[|[|]]]; [kin_child 0%nat|kin_child 1%nat|kin_child 2%nat|lia]. }
  intros pids Hl Hnd. destruct pids as [|p [|q [|r [|]]]]; try done.
  apply kin_wait3; [cbn; by rewrite Hw|]. cbn. rewrite Hw. intros a b c H.
  apply kin_print, kin_print, uwp_ret. exists [p; q; r], [a; b; c]. cbn.
  split_and!; try done. by rewrite all_of_three.
Qed.

Lemma stcf_arrivals_exact : uwp roomy (tested [2; 1; 0]%nat w) (jobs_done true base [200; 50; 10]) test_arrivals w.
Proof using Hw.
  unfold test_arrivals. apply kin_print. apply kin_spawn; [kin_child 0%nat|]. intros p Hp Np.
  apply kin_spawn; [kin_child 1%nat|]. intros q Hq Nq. apply kin_spawn; [kin_child 2%nat|]. intros r Hr Nr.
  apply kin_wait3; [cbn; by rewrite Hw|]. cbn. rewrite Hw. intros a b c H.
  apply kin_print, kin_print, uwp_ret. exists [p; q; r], [a; b; c]. cbn. rewrite <- !app_assoc.
  split_and!; try done. by rewrite all_of_three.
Qed.

Lemma stcf_complex_exact junk : uwp roomy (tested ord10 w) (jobs_done true base rt10) (test_mixed_complex junk) w.
Proof using Hw.
  unfold test_mixed_complex. apply kin_print. apply kin_spawn_all.
  { intros i j [-> Hi]%lookup_seq. do 10 (destruct i as [|i]; [solve [ten_children]|]). lia. }
  rewrite length_seq. intros pids Hl Hnd. apply kin_wait_all; [cbn; rewrite Hw; cbn; by rewrite Hl|]. cbn [adopt_all say Z.eqb Pos.eqb k_left]. rewrite Hw. cbn [app].
  intros fin Hp. apply kin_print, kin_each_print. intros t1. apply kin_print, kin_print. rewrite finish_runtimes by done. 
  apply kin_each_print. intros t2. apply kin_print. rewrite !say_say.
  assert (length fin = 10%nat) as Hf by (by rewrite Hp).
  assert (ord10 ≡ₚ seq 0 (length pids)) as Ho10 by (rewrite Hl; apply (bool_decide_unpack _); vm_compute; exact Logic.I).
  assert (Sorted Z.le (runtime_of pids rt10 0 <$> reorder ord10 pids)) as Hs.
  { rewrite reorder_fmap, runtime_pids by (done || by rewrite Hl). apply (bool_decide_unpack _). vm_compute. exact Logic.I. }
  pose proof (stcf_order pids rt10 Hnd ltac:(by rewrite Hl) ltac:(apply (bool_decide_unpack _); vm_compute; exact Logic.I)
    ord10 fin Hp (reorder_perm _ _ Ho10) Hs) as Ho.
  apply kin_check; [done| | |].
  - intros i w' _. eapply uwp_mono; [apply fprintf_kin| |done]. intros u w2 ->. eauto.
  - intros Hok. exists pids, fin. rewrite bool_decide_eq_true_2; [by split_and!|]. apply Ho, sorted_steps.
    rewrite length_fmap, Hf. intros i Hi. apply Z.ltb_ge, Hok. exact Hi.
  - intros i txt Hi Hb. exists pids, fin. rewrite bool_decide_eq_false_2; [by split_and!|]. intros E.
    apply Z.ltb_lt in Hb. pose proof (proj2 (sorted_steps _) (proj2 Ho E) i) as Hle. rewrite length_fmap, Hf in Hle.
    specialize (Hle Hi). lia.
Qed.
End Tests.

Definition stcf_jobs : list Z := [200; 20] ++ [80; 10; 40] ++ [200; 50; 10] ++ rt10.
Definition stcf_orders : list (list nat) := [[1; 0]; [1; 2; 0]; [2; 1; 0]; ord10]%nat.


(** * Refused forks *)

Section Refused.
Context (s : kin * bool) (Hs : brood 0 s).
Local Abbreviation done_job := (fun st s' => job_done true stcf_jobs st (fst s')).
Local Abbreviation verdict := (fun r s' => 0 <= r <= 1 /\ brood 0 s').

Ltac parent :=
  repeat first
    [ eapply brood_print; [eassumption|]; intros ? ?
    | eapply brood_wait; [eassumption|]; intros ? ? ?
    | eapply brood_each_print; [eassumption|]; intros ? ? ].
Ltac answer := apply uwp_ret; split; [match goal with |- context [Z.b2z ?b] => destruct b end; cbn; lia|assumption].

Lemma stcf_preempt_ends : uwp kernel verdict done_job test_preempt s.
Proof using Hs.
  unfold test_preempt. parent. eapply brood_spawn; [eassumption|any_child 200|]. intros ? ? ?.
  eapply brood_spawn; [eassumption|any_child 20|]. intros ? ? ?. parent. answer.
Qed.

Lemma stcf_mixed_ends : uwp kernel verdict done_job test_mixed s.
Proof using Hs.
  unfold test_mixed. parent. eapply brood_spawn_all; [eassumption| |].
  { intros a i b [_ Ha]%elem_of_seq. revert i b. destruct a as [|[|[|]]]; [any_child 80|any_child 10|any_child 40|lia]. }
  intros pids s1 H1. cbn [length seq] in H1. parent. answer.
Qed.

Lemma stcf_arrivals_ends : uwp kernel verdict done_job test_arrivals s.
Proof using Hs.
  unfold test_arrivals. parent. eapply brood_spawn; [eassumption|any_child 200|]. intros ? ? ?.
  eapply brood_spawn; [eassumption|any_child 50|]. intros ? ? ?. eapply brood_spawn; [eassumption|any_child 10|]. intros ? ? ?.
  parent. answer.
Qed.

Lemma stcf_complex_ends junk : uwp kernel verdict done_job (test_mixed_complex junk) s.
Proof using Hs.
  unfold test_mixed_complex. parent. eapply brood_spawn_all; [eassumption| |].
  { intros a i b [_ Ha]%elem_of_seq. revert i b.
    destruct a as [|[|[|[|[|[|[|[|[|[|]]]]]]]]]];
      [any_child 120|any_child 5|any_child 80|any_child 20|any_child 50|any_child 15|any_child 200|any_child 40|any_child 10|any_child 30|lia]. }
  intros pids s1 H1. eapply brood_wait_all; [exact H1|]. intros fin s2 H2. parent.
  match goal with H : brood 0 ?s' |- uwp _ _ _ _ ?s' => destruct s' as [w' b'] end.
  apply uwp_check; [done| |].
  - intros i Hi _. eapply uwp_mono; [apply (fprintf_any done_job)| |done]. intros [] s3 ->. split; [lia|assumption].
  - intros _. split; [lia|assumption].
Qed.
End Refused.

Section NoRoom.
Context (w : kin) (Hw : alone w) (Qx : Z -> kin -> Prop).
Local Abbreviation fooled := (fun r w' => r = 1 /\ exists txt, w' = say 1 txt w).

Lemma stcf_preempt_fooled : uwp full fooled Qx test_preempt w.
Proof using Hw.
  unfold test_preempt. apply kin_print. do 2 apply full_spawn. do 2 (apply full_wait; [done|]). do 2 apply kin_print.
  rewrite !say_say. apply uwp_ret. split; [done|]. by eexists.
Qed.
Lemma stcf_mixed_fooled : uwp full fooled Qx test_mixed w.
Proof using Hw.
  unfold test_mixed. apply kin_print, full_spawn_all. do 3 (apply full_wait; [done|]). do 2 apply kin_print.
  rewrite !say_say. apply uwp_ret. split; [done|]. by eexists.
Qed.
Lemma stcf_arrivals_fooled : uwp full fooled Qx test_arrivals w.
Proof using Hw.
  unfold test_arrivals. apply kin_print. do 3 apply full_spawn. do 3 (apply full_wait; [done|]). do 2 apply kin_print.
  rewrite !say_say. apply uwp_ret. split; [done|]. by eexists.
Qed.
(** Every entry of the array is the runtime of the last refused child. *)
Lemma stcf_complex_fooled junk : uwp full fooled Qx (test_mixed_complex junk) w.
Proof using Hw.
  unfold test_mixed_complex. apply kin_print, full_spawn_all. apply full_wait_all; [done|]. cbn [length seq].
  apply kin_print, kin_each_print. intros t1. do 2 apply kin_print.
  replace (imap _ _) with (replicate 10 30) by reflexivity.
  apply kin_each_print. intros t2. apply kin_print. rewrite !say_say.
  apply uwp_check; [done| |].
  - intros i Hi Hb. exfalso. rewrite !lookup_total_replicate_2 in Hb by lia. by rewrite Z.ltb_irrefl in Hb.
  - intros _. split; [done|]. by eexists.
Qed.
End NoRoom.

(** * The program *)

(** With room for every child. *)
Lemma stcf_roomy (junk : nat -> Z) (w : kin) : suite [] 0 w ->
  uwp roomy (fun _ _ => False) (finished true stcf_jobs stcf_orders (nl "Passed %d / 4 tests.")) (stcf_main junk) w.
Proof.
  intros Hw. unfold stcf_main. apply kin_print. apply kin_sys; [done|]. intros a w' ->.
  eapply (kin_test _ _ _ [] _ _ [] [200; 20] _ [1; 0]%nat 0); [done|done|done|apply stcf_preempt_exact|]. intros r1 w1 S1.
  eapply (kin_test _ _ _ _ _ _ [200; 20] [80; 10; 40] _ [1; 2; 0]%nat _ _ _ _ S1); [done|done|apply stcf_mixed_exact|]. intros r2 w2 S2.
  eapply (kin_test _ _ _ _ _ _ ([200; 20] ++ [80; 10; 40]) [200; 50; 10] _ [2; 1; 0]%nat _ _ _ _ S2); [done|done|apply stcf_arrivals_exact|]. intros r3 w3 S3.
  eapply (kin_test _ _ _ _ _ _ ([200; 20] ++ [80; 10; 40] ++ [200; 50; 10]) rt10 [] ord10 _ _ _ _ S3); [done|done|intros H; by apply stcf_complex_exact|]. intros r4 w4 S4.
  do 6 apply kin_print. apply uwp_exit. right. split; [done|]. eexists _, _. split; [exact S4|]. done.
Qed.

(** With some of them. *)
Lemma stcf_ends (junk : nat -> Z) s : brood 0 s ->
  uwp kernel (fun _ _ => False)
    (fun st s' => st = 0 /\ ended true stcf_jobs 4 (nl "Passed %d / 4 tests.") st (fst s')) (stcf_main junk) s.
Proof.
  intros Hs. unfold stcf_main. eapply brood_print; [exact Hs|]. intros [w0 b0] H0. apply any_sys; [done|]. intros a w' ->.
  assert (forall t (k : Z -> U Z) s', brood 0 s' ->
    uwp kernel (fun r s' => 0 <= r <= 1 /\ brood 0 s') (fun st s' => job_done true stcf_jobs st (fst s')) t s' ->
    (forall r s', 0 <= r <= 1 -> brood 0 s' -> uwp kernel (fun _ _ => False)
       (fun st s' => st = 0 /\ ended true stcf_jobs 4 (nl "Passed %d / 4 tests.") st (fst s')) (k r) s') ->
    uwp kernel (fun _ _ => False)
      (fun st s' => st = 0 /\ ended true stcf_jobs 4 (nl "Passed %d / 4 tests.") st (fst s')) (ubind t k) s') as Ht.
  { intros t k s' _ H Hk. apply uwp_bind. eapply uwp_mono; [exact H|intros r s2 [? ?]; by apply Hk|].
    intros st s2 H2. split; [by destruct H2 as (_ & ? & _ & ? & _)|]. by left. }
  eapply Ht; [|by apply stcf_preempt_ends|]; [done|]. intros r1 s1 R1 S1.
  eapply Ht; [|by apply stcf_mixed_ends|]; [done|]. intros r2 s2 R2 S2.
  eapply Ht; [|by apply stcf_arrivals_ends|]; [done|]. intros r3 s3 R3 S3.
  eapply Ht; [|by apply stcf_complex_ends|]; [done|]. intros r4 s4 R4 S4.
  do 5 (eapply brood_print; [eassumption|]; intros ? ?).
  match goal with H : brood 0 ?s' |- uwp _ _ _ _ ?s' => destruct s' as [w5 b5]; destruct H as [Hb Hl] end.
  apply any_print, uwp_exit. split; [done|]. right. cbn in Hb, Hl |- *. split_and!; [done|done|apply nil_length_inv; lia|].
  eexists (r1 + r2 + r3 + r4), _. split; [lia|reflexivity].
Qed.

(** With none. *)
Lemma stcf_fooled (junk : nat -> Z) (w : kin) : alone w ->
  uwp full (fun _ _ => False) (fun st w' =>
      st = 0 /\ k_forked w' = k_forked w /\ exists out, k_out w' = out ++ text_of (nl "Passed %d / 4 tests.") [I 4])
    (stcf_main junk) w.
Proof.
  intros Hw. unfold stcf_main. apply kin_print. apply kin_sys; [done|]. intros a w' ->.
  apply uwp_bind. eapply uwp_mono; [by apply stcf_preempt_fooled| |intros ? ? Hx; exact Hx]. intros r1 w1 [-> [t1 ->]].
  apply uwp_bind. eapply uwp_mono; [by apply stcf_mixed_fooled| |intros ? ? Hx; exact Hx]. intros r2 w2 [-> [t2 ->]].
  apply uwp_bind. eapply uwp_mono; [by apply stcf_arrivals_fooled| |intros ? ? Hx; exact Hx]. intros r3 w3 [-> [t3 ->]].
  apply uwp_bind. eapply uwp_mono; [by apply stcf_complex_fooled| |intros ? ? Hx; exact Hx]. intros r4 w4 [-> [t4 ->]].
  do 6 apply kin_print. apply uwp_exit. split_and!; [done|done|]. by eexists.
Qed.

(** C39. [stcftest] is an exact test of shortest time to completion first, as
    long as the kernel has room for its children.  Whatever the kernel answers to
    [fork], failures included, and to [wait], every process of the program ends
    with status 0: a child after it declared the runtime of a job to both
    interfaces and yielded that many times, the parent with no child left and a
    report of at most 4 passed tests.  If no [fork] failed, each child has done
    the job of its [fork], the parent has reaped every child, and the number it
    reports is the number of the tests whose children were reaped exactly in the
    order of their runtimes, the shortest first.  If every [fork] fails, the
    parent still reports that all 4 tests passed, with no child ever run: the
    program compares the -1 of [wait] with the -1 of [fork]. *)
Theorem stcftest_exact (junk : nat -> Z) (w : kin) (Hw : suite [] 0 w) :
  uwp kernel (fun _ _ => False) (fun st s =>
      (st = 0 /\ ended true stcf_jobs 4 (nl "Passed %d / 4 tests.") st (fst s)) /\
      (snd s = false -> finished true stcf_jobs stcf_orders (nl "Passed %d / 4 tests.") st (fst s)))
    (stcf_main junk) (w, false) /\
  uwp full (fun _ _ => False) (fun st w' =>
      st = 0 /\ k_forked w' = k_forked w /\ exists out, k_out w' = out ++ text_of (nl "Passed %d / 4 tests.") [I 4])
    (stcf_main junk) w.
Proof.
  split; [|by apply stcf_fooled, Hw].
  assert (brood 0 (w, false)) as Hs by (destruct Hw as (Hb & Hl & _); split; [done|]; cbn; by rewrite Hl).
  pose proof (uwp_refusable _ _ _ _ _ _ (stcf_ends junk _ Hs) (fun _ => stcf_roomy junk w Hw)) as H.
  eapply uwp_mono; [exact H|by intros r s [[] _]|]. intros st s Hx. exact Hx.
Qed.

Lemma stcftest_exact_witness :
  uwp full (fun _ _ => False) (fun st w' =>
      st = 0 /\ k_forked w' = [] /\ exists out, k_out w' = out ++ text_of (nl "Passed %d / 4 tests.") [I 4])
    (stcf_main (fun _ => 0)) init_kin /\
  uwp kernel (fun _ _ => False) (fun st s => st = 0) (stcf_main (fun _ => 0)) (init_kin, false).
Proof.
  destruct (stcftest_exact (fun _ => 0) init_kin) as [H1 H2]; [by split_and!|]. split; [exact H2|].
  eapply uwp_mono; [exact H1|done|]. by intros st s [[-> _] _].
Defined.
