(* ===== verification/Sjftest.v ===== *)
(** user/sjftest.c: the tests of the SJF scheduler.

    The children report through a pipe: each writes one byte when it is done, and
    the parent looks at the order of the bytes.  The busy loops between two forks
    are left out. *)
From stdpp Require Import sorting.
From S2P Require Import Prelude Chars Format Sys Ulib Jobs.
Open Scope usr_scope.

(** A child that writes [tag] to the pipe [(r, w)], with its messages. *)
Definition tag_child (r w t : Z) (tag : Z) (fmt : list Z) : U unit :=
  sys (Close r) ;;
  sys (SetExpected t) ;;
  work t ;;
  sys (Write w [tag]) ;;
  pid <- sys Getpid ;;
  uprintf fmt [I pid] ;;
  sys (Close w) ;;
  exit 0.

Definition test_preempt : U Z :=
  uprintf (NEWLINE :: nl "=== TEST 1: PREEMPTION BEHAVIOR ===") [] ;;
  p <- sys Pipe ;;
  let '(k, (r, w)) := p in
  if k <? 0 then uprintf (nl "pipe failed") [] ;; uret 0 else
  p_long <- spawn (tag_child r w 400 (ch "L") (nl "LONG done (pid=%d)")) ;;
  p_short <- spawn (tag_child r w 20 (ch "S") (nl "SHORT done (pid=%d)")) ;;
  sys (Close w) ;;
  a <- sys (Read r 1) ;;
  if negb (fst a =? 1) then
    uprintf (nl "read #1 failed") [] ;; sys (Close r) ;; wait0 ;; wait0 ;; uret 0
  else
  b <- sys (Read r 1) ;;
  if negb (fst b =? 1) then
    uprintf (nl "read #2 failed") [] ;; sys (Close r) ;; wait0 ;; wait0 ;; uret 0
  else
  let o0 := default 0 (head (snd a)) in
  let o1 := default 0 (head (snd b)) in
  sys (Close r) ;;
  uprintf (nl "Completion tags (pipe order): %c then %c") [I o0; I o1] ;;
  uprintf (nl "Expected: S then L (short before long)") [] ;;
  wait0 ;;
  wait0 ;;
  uret (Z.b2z ((o0 =? ch "S") && (o1 =? ch "L"))).

(** [for(i = 0; i < n; i++) if(read(r, &tags[i], 1) != 1) { ...; return 0; }]:
    the bytes, or the index of the read that failed. *)
Fixpoint read_tags (r : Z) (n : nat) (i : nat) : U (list Z + nat) :=
  match n with
  | O => uret (inl [])
  | S n' =>
      a <- sys (Read r 1) ;;
      if negb (fst a =? 1) then uret (inr i)
      else
        t <- read_tags r n' (S i) ;;
        match t with
        | inl tags => uret (inl (default 0 (head (snd a)) :: tags))
        | inr j => uret (inr j)
        end
  end.

(** [for(k = 0; k < n; k++) wait(0);] *)
Definition wait_n (n : nat) : U unit := each (seq 0 n) (fun _ => wait0 ;; uret tt).

(** [f_rt[i] = rt[tags[i]]], or the first tag out of range. *)
Fixpoint tag_runtimes (rt tags : list Z) : list Z + Z :=
  match tags with
  | [] => inl []
  | idx :: tags' =>
      if (idx <? 0) || (Z.of_nat (length rt) <=? idx) then inr idx
      else match tag_runtimes rt tags' with
           | inl l => inl (rt !!! Z.to_nat idx :: l)
           | inr bad => inr bad
           end
  end.

Definition test_mixed_batch : U Z :=
  uprintf (NEWLINE :: nl "=== TEST 2: MIXED BATCH (ALL ARRIVE TOGETHER) ===") [] ;;
  let rt := [80; 10; 40] in
  p <- sys Pipe ;;
  let '(k, (r, w)) := p in
  if k <? 0 then uprintf (nl "pipe failed") [] ;; uret 0 else
  pid <- collect (seq 0 3) (fun i => spawn (
    sys (Close r) ;;
    sys (SetExpected (rt !!! i)) ;;
    work (rt !!! i) ;;
    sys (Write w [Z.of_nat i]) ;;
    pid <- sys Getpid ;;
    uprintf (nl "Child%d done (pid=%d, rt=%d)") [I (Z.of_nat i); I pid; I (rt !!! i)] ;;
    sys (Close w) ;;
    exit 0)) ;;
  sys (Close w) ;;
  t <- read_tags r 3 0 ;;
  match t with
  | inr i => uprintf (nl "read #%d failed") [I (Z.of_nat i)] ;; sys (Close r) ;; wait_n 3 ;; uret 0
  | inl tags =>
      sys (Close r) ;;
      match tag_runtimes rt tags with
      | inr idx => uprintf (nl "bad tag %d") [I idx] ;; wait_n 3 ;; uret 0
      | inl f_rt =>
          uprintf (nl "Completion runtimes (pipe order): %d, %d, %d")
            [I (f_rt !!! 0%nat); I (f_rt !!! 1%nat); I (f_rt !!! 2%nat)] ;;
          uprintf (nl "Expected SJF order: 10, 40, 80") [] ;;
          wait_n 3 ;;
          uret (Z.b2z ((f_rt !!! 0%nat =? 10) && (f_rt !!! 1%nat =? 40) && (f_rt !!! 2%nat =? 80)))
      end
  end.

Definition test_arrivals : U Z :=
  uprintf (NEWLINE :: nl "=== TEST 3: STAGGERED ARRIVALS ===") [] ;;
  p <- sys Pipe ;;
  let '(k, (r, w)) := p in
  if k <? 0 then uprintf (nl "pipe failed") [] ;; uret 0 else
  p_long <- spawn (tag_child r w 200 (ch "L") (nl "LONG done (pid=%d)")) ;;
  p_med <- spawn (tag_child r w 50 (ch "M") (nl "MED done (pid=%d)")) ;;
  p_short <- spawn (tag_child r w 10 (ch "S") (nl "SHORT done (pid=%d)")) ;;
  sys (Close w) ;;
  t <- read_tags r 3 0 ;;
  match t with
  | inr _ =>
      uprintf (nl "read failed in test_arrivals") [] ;; sys (Close r) ;; wait0 ;; wait0 ;; wait0 ;; uret 0
  | inl order =>
      sys (Close r) ;;
      uprintf (nl "Completion tags (pipe order): %c, %c, %c")
        [I (order !!! 0%nat); I (order !!! 1%nat); I (order !!! 2%nat)] ;;
      uprintf (nl "Expected: S, M, L") [] ;;
      wait0 ;;
      wait0 ;;
      wait0 ;;
      uret (Z.b2z ((order !!! 0%nat =? ch "S") && (order !!! 1%nat =? ch "M") && (order !!! 2%nat =? ch "L")))
  end.

Definition sjf_rt10 : list Z := [120; 5; 80; 20; 50; 15; 200; 40; 10; 30].

Definition test_mixed_complex : U Z :=
  uprintf (NEWLINE :: nl "=== TEST 4: COMPLEX MIXED RUNTIMES ===") [] ;;
  let rt := sjf_rt10 in
  p <- sys Pipe ;;
  let '(k, (r, w)) := p in
  if k <? 0 then uprintf (nl "pipe failed") [] ;; uret 0 else
  pid <- collect (seq 0 10) (fun i => spawn (
    sys (Close r) ;;
    sys (SetExpected (rt !!! i)) ;;
    work (rt !!! i) ;;
    sys (Write w [Z.of_nat i]) ;;
    exit 0)) ;;
  sys (Close w) ;;
  t <- read_tags r 10 0 ;;
  match t with
  | inr i => uprintf (nl "read #%d failed in mixed_complex") [I (Z.of_nat i)] ;; sys (Close r) ;; wait_n 10 ;; uret 0
  | inl tags =>
      sys (Close r) ;;
      match tag_runtimes rt tags with
      | inr idx => uprintf (nl "bad tag %d in mixed_complex") [I idx] ;; wait_n 10 ;; uret 0
      | inl f_rt =>
          uprintf (chars "Completion runtimes (pipe order):") [] ;;
          each f_rt (fun t => uprintf (chars " %d") [I t]) ;;
          uprintf [NEWLINE] [] ;;
          ok <- check 10 (fun i => f_rt !!! Z.to_nat i <? f_rt !!! Z.to_nat (i - 1)) (fun i =>
            uprintf (nl "SJF VIOLATION at i=%d: %d < %d")
              [I i; I (f_rt !!! Z.to_nat i); I (f_rt !!! Z.to_nat (i - 1))]) ;;
          wait_n 10 ;;
          uret ok
      end
  end.

(** A child of the last test: it works, waits for the byte, and works on. *)
Definition blocked_child (fds : list Z) (r t before after : Z) (failed done : list Z) : U unit :=
  each fds (fun fd => sys (Close fd) ;; uret tt) ;;
  sys (SetExpected t) ;;
  sys (SetStcfVals t) ;;
  work before ;;
  a <- sys (Read r 1) ;;
  (if negb (fst a =? 1) then uprintf failed [] ;; exit 0 else uret tt) ;;
  work after ;;
  pid <- sys Getpid ;;
  uprintf done [I pid] ;;
  exit 0.

Definition test_stcf_vs_sjf_diff : U Z :=
  uprintf (NEWLINE :: nl "=== TEST 5: STCF vs SJF DIFFERENCE ===") [] ;;
  p <- sys Pipe ;;
  let '(ka, (a0, a1)) := p in
  if ka <? 0 then uprintf (nl "pipe error") [] ;; uret 0 else
  p <- sys Pipe ;;
  let '(kb, (b0, b1)) := p in
  if kb <? 0 then uprintf (nl "pipe error") [] ;; uret 0 else
  pidA <- sys Fork ;;
  if pidA <? 0 then uprintf (nl "fork A failed") [] ;; uret 0 else
  (if pidA =? 0 then blocked_child [a1; b0; b1] a0 200 100 100 (nl "A: read failed") (nl "A done (pid=%d)") else uret tt) ;;
  pidB <- sys Fork ;;
  if pidB <? 0 then uprintf (nl "fork B failed") [] ;; uret 0 else
  (if pidB =? 0 then blocked_child [b1; a0; a1] b0 150 20 130 (nl "B: read failed") (nl "B done (pid=%d)") else uret tt) ;;
  sys (Close a0) ;;
  sys (Close b0) ;;
  work 2000 ;;
  k <- sys (Write a1 (chars "x")) ;;
  (if negb (k =? 1) then uprintf (nl "parent: write A failed") [] else uret tt) ;;
  k <- sys (Write b1 (chars "y")) ;;
  (if negb (k =? 1) then uprintf (nl "parent: write B failed") [] else uret tt) ;;
  sys (Close a1) ;;
  sys (Close b1) ;;
  first <- wait0 ;;
  second <- wait0 ;;
  uprintf (nl "Finish order (PIDs): %d, %d") [I first; I second] ;;
  uprintf (nl "Expected under SJF: B (pid=%d) then A (pid=%d)") [I pidA; I pidB] ;;
  if (first =? pidB) && (second =? pidA) then uret 1 else uret 0.

Definition test_suite : U Z :=
  pass_pre <- test_preempt ;;
  pass_batch <- test_mixed_batch ;;
  pass_arr <- test_arrivals ;;
  pass_mix_c <- test_mixed_complex ;;
  pass_diff <- test_stcf_vs_sjf_diff ;;
  let total := pass_pre + pass_batch + pass_arr + pass_mix_c + pass_diff in
  uprintf (NEWLINE :: nl "===== RESULTS =====") [] ;;
  uprintf (nl "Test 1 (Preemption):        %s") [pass_text pass_pre] ;;
  uprintf (nl "Test 2 (Mixed batch):       %s") [pass_text pass_batch] ;;
  uprintf (nl "Test 3 (Arrivals):          %s") [pass_text pass_arr] ;;
  uprintf (nl "Test 4 (Complex mixed set): %s") [pass_text pass_mix_c] ;;
  uprintf (nl "Test 5 (SJF vs STCF):       %s") [pass_text pass_diff] ;;
  uprintf (nl "Passed %d / 5 tests.") [I total] ;;
  uret total.

(** The suites that are left, and [failed]. *)
Fixpoint suite_loop (n : nat) : U bool :=
  match n with
  | O => uret false
  | S n' =>
      total <- test_suite ;;
      if negb (total =? 5) then uret true else suite_loop n'
  end.

Definition NUM_LOOPS : nat := 10.
Definition sjf_main : U Z :=
  uprintf (nl "===== SJF TESTING =====") [] ;;
  sys (SetExpected 1) ;;
  failed <- suite_loop NUM_LOOPS ;;
  (if negb failed then uprintf (nl "Test Suite passed %d times.") [I (Z.of_nat NUM_LOOPS)] else uret tt) ;;
  exit 0.

(** * Rules for pipes *)

Definition send (bs : list Z) (w : kin) : kin :=
  Kin (k_born w) (k_forked w) (k_left w) (k_reaped w) (k_tags w) (k_expected w) (k_hint w) (k_yields w) (k_sent w ++ bs) (k_out w).
Lemma say_send fd bs w : 2 < fd -> say fd bs w = send bs w.
Proof. intros H. unfold say. by rewrite (proj2 (Z.eqb_neq fd 1)) by lia. Qed.

Section PipeRules.
Context {B : Type} (Q : B -> kin -> Prop) (Qx : Z -> kin -> Prop).

Lemma kin_pipe (k : Z * (Z * Z) -> U B) w :
  (forall r v, uwp roomy Q Qx (k (-1, (r, v))) w) ->
  (forall r v, 2 < r -> 2 < v -> uwp roomy Q Qx (k (0, (r, v))) w) ->
  uwp roomy Q Qx (ubind (sys Pipe) k) w.
Proof.
  intros H1 H2. apply kin_sys; [done|]. intros [z [r v]] w' [[Hz|(Hz & Hr & Hv)] ->]; cbn in *; subst z; auto.
Qed.

Lemma kin_read1 fd (k : Z * list Z -> U B) w :
  (forall n, n <= 0 -> uwp roomy Q Qx (k (n, [])) w) ->
  (forall b, uwp roomy Q Qx (k (1, [b])) (tag [b] w)) ->
  uwp roomy Q Qx (ubind (sys (Read fd 1)) k) w.
Proof.
  intros H1 H2. apply kin_sys; [done|]. intros [n bs] w' [(Hn & Hb & ->)|(Hne & Hn & Hle & ->)]; cbn in *; subst; [by apply H1|].
  destruct bs as [|b [|? ?]]; [done|apply H2|cbn in Hle; lia].
Qed.

Lemma kin_wait_n n (k : unit -> U B) w :
  length (k_left w) = n -> (forall fin, fin ≡ₚ k_left w -> uwp roomy Q Qx (k tt) (reap_all fin w)) ->
  uwp roomy Q Qx (ubind (wait_n n) k) w.
Proof.
  intros Hn Hk. apply uwp_bind. unfold wait_n.
  eapply uwp_mono; [apply (uwp_each _ (fun (l' : list nat) w' => exists fin left, k_left w ≡ₚ fin ++ left /\ length left = length l' /\
    w' = Kin (k_born w) (k_forked w) left (k_reaped w ++ fin) (k_tags w) (k_expected w) (k_hint w) (k_yields w) (k_sent w) (k_out w)) Qx)| |done].
  - intros a l' w1 (fin & left & Hp & Hl & ->). cbn [length] in Hl.
    apply kin_wait; [by intros E; cbn in E; rewrite E in Hl|]. cbn [k_left]. intros p left' Hp'. apply uwp_ret.
    exists (fin ++ [p]), left'. split_and!.
    + by rewrite Hp, Hp', <- app_assoc.
    + apply Permutation_length in Hp'. cbn in Hp'. lia.
    + unfold reap. cbn. by rewrite app_assoc.
  - exists [], (k_left w). rewrite length_seq, app_nil_r. split_and!; [done|done|]. by destruct w.
  - intros [] w' (fin & left & Hp & Hl & ->). cbn in Hl. destruct left; [|done]. rewrite app_nil_r in Hp. by apply Hk.
Qed.
End PipeRules.

Lemma tag_tag bs cs w : tag cs (tag bs w) = tag (bs ++ cs) w.
Proof. unfold tag. cbn. by rewrite app_assoc. Qed.
Lemma tag_nil w : tag [] w = w.
Proof. unfold tag. destruct w. cbn. by rewrite app_nil_r. Qed.

Lemma read_tags_kin (P : list Z + nat -> kin -> Prop) Qx fd n i w :
  (forall tags, length tags = n -> P (inl tags) (tag tags w)) ->
  (forall j tags, (length tags < n)%nat -> P (inr j) (tag tags w)) ->
  uwp roomy P Qx (read_tags fd n i) w.
Proof.
  revert P i w. induction n as [|n IH]; intros P i w H1 H2; cbn [read_tags].
  - apply uwp_ret. rewrite <- (tag_nil w). by apply H1.
  - apply kin_read1.
    + intros m Hm. cbn [fst]. rewrite (proj2 (Z.eqb_neq m 1)) by lia. apply uwp_ret. rewrite <- (tag_nil w). apply H2. cbn. lia.
    + intros b. cbn [fst snd head from_option id]. change (negb (1 =? 1)) with false. cbv iota. apply uwp_bind, IH.
      * intros tags Hl. rewrite tag_tag. apply uwp_ret. apply (H1 (b :: tags)). cbn. lia.
      * intros j tags Hl. rewrite tag_tag. apply uwp_ret. apply (H2 j (b :: tags)). cbn. lia.
Qed.

Lemma tag_runtimes_spec rt tags :
  match tag_runtimes rt tags with
  | inl l => Forall (fun i => 0 <= i < Z.of_nat (length rt)) tags /\ l = (fun i => rt !!! Z.to_nat i) <$> tags
  | inr _ => ~ Forall (fun i => 0 <= i < Z.of_nat (length rt)) tags
  end.
Proof.
  induction tags as [|i tags IH]; [by split|]. cbn [tag_runtimes].
  destruct (Z.ltb_spec i 0); cbn [orb]; [intros H'; inversion H'; lia|].
  destruct (Z.leb_spec (Z.of_nat (length rt)) i); [intros H'; inversion H'; lia|].
  destruct (tag_runtimes rt tags) as [l|bad].
  - destruct IH as [Hf ->]. split; [by constructor|done].
  - intros H'. by inversion H'.
Qed.

(** * The tests *)

Definition sjf_jobs : list (Z * Z) :=
  [(400, ch "L"); (20, ch "S"); (80, 0); (10, 1); (40, 2); (200, ch "L"); (50, ch "M"); (10, ch "S")] ++
  zip sjf_rt10 (seqZ 0 10).

(** A child declared its runtime, worked that long and sent its tag; a child of
    the last test stops early if its pipe is closed. *)
Definition sjf_done (st : Z) (w : kin) : Prop :=
  st = 0 /\ is_Some (k_born w) /\
  ((exists t g, (t, g) ∈ sjf_jobs /\ k_expected w = Some t /\ k_yields w = t /\ k_sent w = [g]) \/
   (exists t before, (t, before) ∈ [(200, 100); (150, 20)] /\ k_expected w = Some t /\ k_hint w = Some t /\
     (k_yields w = t \/ k_yields w = before))).

(** A test that reaps all its children and judges by the bytes of its pipe. *)
Definition piped (good : list Z -> bool) (w : kin) (r : Z) (w' : kin) : Prop :=
  exists pids fin tags, fin ≡ₚ pids /\ k_born w' = k_born w /\ k_left w' = [] /\ k_forked w' = k_forked w ++ pids /\
    k_reaped w' = k_reaped w ++ fin /\ k_tags w' = k_tags w ++ tags /\ r = Z.b2z (good tags).

Definition in_order (order tags : list Z) : bool := bool_decide (tags = order).
Definition by_runtime (tags : list Z) : bool :=
  bool_decide (length tags = 10%nat /\ Forall (fun i => 0 <= i < 10) tags /\ Sorted Z.le ((fun i => sjf_rt10 !!! Z.to_nat i) <$> tags)).

Lemma in_order_short order tags : (length tags < length order)%nat -> in_order order tags = false.
Proof. intros H. apply bool_decide_eq_false. intros ->. lia. Qed.

Lemma tag_child_kin r v t g fmt n :
  2 < v -> 0 <= t -> (t, g) ∈ sjf_jobs -> uwp roomy (fun _ _ => False) sjf_done (tag_child r v t g fmt) (child_of n).
Proof.
  intros Hv Ht Hg. unfold tag_child. do 2 (apply kin_sys; [done|]; intros ? ? ->). apply kin_work; [done|].
  apply kin_sys; [done|]. intros ? ? [_ ->]. rewrite say_send by done. apply kin_sys; [done|]. intros ? ? ->.
  apply kin_print. apply kin_sys; [done|]. intros ? ? ->. apply uwp_exit. split_and!; [done|by eexists|]. left. by exists t, g.
Qed.

Section Tests.
Context (w : kin) (Hw : alone w).

(** A test that fails before it forks. *)
Lemma piped_none good txt : good [] = false -> piped good w 0 (say 1 txt w).
Proof using Hw. intros H. exists [], [], []. cbn. rewrite !app_nil_r. split_and!; try done. by rewrite H. Qed.

Local Ltac quiet := apply kin_sys; [done|]; intros ? ? ->.
Local Ltac tagger := apply tag_child_kin; [done|done|apply (bool_decide_unpack _); vm_compute; exact Logic.I].

Lemma sjf_preempt_exact : uwp roomy (piped (in_order (chars "SL")) w) sjf_done test_preempt w.
Proof using Hw.
  unfold test_preempt. apply kin_print, kin_pipe.
  { intros r v. apply kin_print, uwp_ret. rewrite say_say. by apply piped_none. }
  intros r v Hr Hv. cbv iota beta. change (0 <? 0) with false. cbv iota.
  apply kin_spawn; [tagger|]. intros p Hp Np. apply kin_spawn; [tagger|]. intros q Hq Nq. quiet. apply kin_read1.
  { intros n Hn. cbn [fst]. rewrite (proj2 (Z.eqb_neq n 1)) by lia. cbn [negb]. apply kin_print. quiet.
    apply kin_wait2; [cbn; by rewrite Hw|]. cbn. rewrite Hw. intros x y H. apply uwp_ret. exists [p; q], [x; y], [].
    cbn. rewrite <- app_assoc, app_nil_r. by split_and!. }
  intros b0. cbn [fst]. change (negb (1 =? 1)) with false. cbv iota. apply kin_read1.
  { intros n Hn. cbn [fst]. rewrite (proj2 (Z.eqb_neq n 1)) by lia. cbn [negb]. apply kin_print. quiet.
    apply kin_wait2; [cbn; by rewrite Hw|]. cbn. rewrite Hw. intros x y H. apply uwp_ret. exists [p; q], [x; y], [b0].
    rewrite in_order_short by (cbn; lia). cbn. rewrite <- app_assoc. by split_and!. }
  intros b1. cbn [fst snd head from_option id]. change (negb (1 =? 1)) with false. cbv iota. quiet. apply kin_print, kin_print.
  apply kin_wait2; [cbn; by rewrite Hw|]. cbn. rewrite Hw. intros x y H. apply uwp_ret. exists [p; q], [x; y], [b0; b1].
  cbn. rewrite <- !app_assoc. split_and!; try done. by rewrite all_of_two.
Qed.

Lemma sjf_arrivals_exact : uwp roomy (piped (in_order (chars "SML")) w) sjf_done test_arrivals w.
Proof using Hw.
  unfold test_arrivals. apply kin_print, kin_pipe.
  { intros r v. apply kin_print, uwp_ret. rewrite say_say. by apply piped_none. }
  intros r v Hr Hv. cbv iota beta. change (0 <? 0) with false. cbv iota.
  apply kin_spawn; [tagger|]. intros p Hp Np. apply kin_spawn; [tagger|]. intros q Hq Nq. apply kin_spawn; [tagger|]. intros u Hu Nu.
  quiet. apply uwp_bind, read_tags_kin.
  - intros tags Hl. destruct tags as [|b0 [|b1 [|b2 [|]]]]; try done. quiet. apply kin_print, kin_print.
    apply kin_wait3; [cbn; by rewrite Hw|]. cbn. rewrite Hw. intros x y z H. apply uwp_ret. exists [p; q; u], [x; y; z], [b0; b1; b2].
    cbn. rewrite <- !app_assoc. split_and!; try done. by rewrite all_of_three.
  - intros j tags Hl. apply kin_print. quiet.
    apply kin_wait3; [cbn; by rewrite Hw|]. cbn. rewrite Hw. intros x y z H. apply uwp_ret. exists [p; q; u], [x; y; z], tags.
    rewrite in_order_short by (cbn; lia). cbn. rewrite <- !app_assoc. by split_and!.
Qed.

(** The child [i] of the tests with an array of runtimes. *)
Lemma array_child r v t g (rest : U unit) n :
  2 < v -> 0 <= t -> uwp roomy (fun _ _ => False) sjf_done rest (send [g] (yielded t (expect t (child_of n)))) ->
  uwp roomy (fun _ _ => False) sjf_done
    (sys (Close r) ;; sys (SetExpected t) ;; work t ;; sys (Write v [g]) ;; rest) (child_of n).
Proof.
  intros Hv Ht H. do 2 quiet. apply kin_work; [done|]. apply kin_sys; [done|]. intros ? ? [_ ->]. by rewrite say_send.
Qed.

Lemma job_done t g n : (t, g) ∈ sjf_jobs -> sjf_done 0 (send [g] (yielded t (expect t (child_of n)))).
Proof. intros H. split_and!; [done|by eexists|]. left. by exists t, g. Qed.

Lemma batch_order a b c :
  Forall (fun i => 0 <= i < 3) [a; b; c] ->
  (([80; 10; 40] !!! Z.to_nat a =? 10) && ([80; 10; 40] !!! Z.to_nat b =? 40) && ([80; 10; 40] !!! Z.to_nat c =? 80))
  = in_order [1; 2; 0] [a; b; c].
Proof.
  rewrite !Forall_cons. intros (Ha & Hb & Hc & _).
  assert (a = 0 \/ a = 1 \/ a = 2) as Ea by lia. assert (b = 0 \/ b = 1 \/ b = 2) as Eb by lia. assert (c = 0 \/ c = 1 \/ c = 2) as Ec by lia.
  by destruct Ea as [->|[->| ->]], Eb as [->|[->| ->]], Ec as [->|[->| ->]].
Qed.

Lemma sjf_batch_exact : uwp roomy (piped (in_order [1; 2; 0]) w) sjf_done test_mixed_batch w.
Proof using Hw.
  unfold test_mixed_batch. apply kin_print, kin_pipe.
  { intros r v. apply kin_print, uwp_ret. rewrite say_say. by apply piped_none. }
  intros r v Hr Hv. cbv iota beta. change (0 <? 0) with false. cbv iota. apply kin_spawn_all.
  { intros i j [-> Hi]%lookup_seq. cbn [Nat.add].
    assert (([80; 10; 40] !!! i, Z.of_nat i) ∈ sjf_jobs /\ 0 <= [80; 10; 40] !!! i) as [Hj Ht].
    { destruct i as [|[|[|]]]; [..|lia]; (split; [apply (bool_decide_unpack _); vm_compute; exact Logic.I|done]). }
    apply array_child; [done|done|]. quiet. apply kin_print. quiet. apply uwp_exit. by apply job_done. }
  rewrite length_seq. intros pids Hp Hnd. quiet. apply uwp_bind, read_tags_kin.
  - intros tags Hl. quiet. pose proof (tag_runtimes_spec [80; 10; 40] tags) as Hs.
    destruct (tag_runtimes [80; 10; 40] tags) as [f_rt|bad].
    + destruct Hs as [Hs ->]. destruct tags as [|b0 [|b1 [|b2 [|]]]]; try done. apply kin_print, kin_print.
      apply kin_wait_n; [cbn; by rewrite Hw|]. cbn -[lookup_total]. rewrite Hw. intros fin H. apply uwp_ret. exists pids, fin, [b0; b1; b2].
      rewrite <- batch_order by done. by split_and!.
    + apply kin_print. apply kin_wait_n; [cbn; by rewrite Hw|]. cbn. rewrite Hw. intros fin H. apply uwp_ret. exists pids, fin, tags.
      unfold in_order. rewrite bool_decide_eq_false_2; [by split_and!|]. intros ->. apply Hs. by repeat constructor.
  - intros j tags Hl. apply kin_print. quiet.
    apply kin_wait_n; [cbn; by rewrite Hw|]. cbn. rewrite Hw. intros fin H. apply uwp_ret. exists pids, fin, tags.
    rewrite in_order_short by (cbn; lia). by split_and!.
Qed.

Lemma sjf_complex_exact : uwp roomy (piped by_runtime w) sjf_done test_mixed_complex w.
Proof using Hw.
  unfold test_mixed_complex. apply kin_print, kin_pipe.
  { intros r v. apply kin_print, uwp_ret. rewrite say_say. by apply piped_none. }
  intros r v Hr Hv. cbv iota beta. change (0 <? 0) with false. cbv iota. apply kin_spawn_all.
  { intros i j [-> Hi]%lookup_seq. cbn [Nat.add].
    assert ((sjf_rt10 !!! i, Z.of_nat i) ∈ sjf_jobs /\ 0 <= sjf_rt10 !!! i) as [Hj Ht].
    { do 10 (destruct i as [|i]; [split; [apply (bool_decide_unpack _); vm_compute; exact Logic.I|done]|]). lia. }
    apply array_child; [done|done|]. apply uwp_exit. by apply job_done. }
  rewrite length_seq. intros pids Hp Hnd. quiet. apply uwp_bind, read_tags_kin.
  - intros tags Hl. quiet. pose proof (tag_runtimes_spec sjf_rt10 tags) as Hs. change (Z.of_nat (length sjf_rt10)) with 10 in Hs.
    destruct (tag_runtimes sjf_rt10 tags) as [f_rt|bad].
    + destruct Hs as [Hs Ef]. apply kin_print, kin_each_print. intros txt. apply kin_print. rewrite !say_say.
      assert (length f_rt = 10%nat) as Hf by (by rewrite Ef, length_fmap). apply uwp_bind, kin_check; [done| | |].
      * intros i w' _. eapply uwp_mono; [apply fprintf_kin| |done]. intros u w2 ->. eauto.
      * intros Hok. apply kin_wait_n; [cbn; by rewrite Hw, length_app, Hp|]. cbn. rewrite Hw. intros fin H. apply uwp_ret.
        exists pids, fin, tags. unfold by_runtime. rewrite bool_decide_eq_true_2; [by split_and!|]. split_and!; [done|done|].
        rewrite <- Ef. apply sorted_steps. rewrite Hf. intros i Hi. by apply Z.ltb_ge, Hok.
      * intros i txt' Hi Hb. apply kin_wait_n; [cbn; by rewrite Hw, length_app, Hp|]. cbn. rewrite Hw. intros fin H. apply uwp_ret.
        exists pids, fin, tags. unfold by_runtime. rewrite bool_decide_eq_false_2; [by split_and!|]. intros (_ & _ & Hso).
        rewrite <- Ef in Hso. apply Z.ltb_lt in Hb. pose proof (proj2 (sorted_steps _) Hso i) as Hle. rewrite Hf in Hle. specialize (Hle Hi). lia.
    + apply kin_print. apply kin_wait_n; [cbn; by rewrite Hw, length_app, Hp|]. cbn. rewrite Hw. intros fin H. apply uwp_ret. exists pids, fin, tags.
      unfold by_runtime. rewrite bool_decide_eq_false_2; [by split_and!|]. by intros (_ & ? & _).
  - intros j tags Hl. apply kin_print. quiet.
    apply kin_wait_n; [cbn; by rewrite Hw, length_app, Hp|]. cbn. rewrite Hw. intros fin H. apply uwp_ret. exists pids, fin, tags.
    unfold by_runtime. rewrite bool_decide_eq_false_2; [by split_and!|]. intros (? & _). lia.
Qed.

Lemma kin_closes {B} (Q : B -> kin -> Prop) Qx fds (k : unit -> U B) w0 :
  uwp roomy Q Qx (k tt) w0 -> uwp roomy Q Qx (ubind (each fds (fun fd => sys (Close fd) ;; uret tt)) k) w0.
Proof.
  intros H. apply uwp_bind. eapply uwp_mono; [apply (uwp_each _ (fun _ w' => w' = w0) Qx)| |done].
  - intros fd l w1 ->. quiet. by apply uwp_ret.
  - done.
  - by intros [] w' ->.
Qed.

Lemma blocked_child_kin fds r t before after failed fin n :
  0 <= before -> 0 <= after -> before + after = t -> (t, before) ∈ [(200, 100); (150, 20)] ->
  uwp roomy (fun _ _ => False) sjf_done (blocked_child fds r t before after failed fin) (child_of n).
Proof.
  intros Hb Ha Ht Hin. unfold blocked_child. apply kin_closes. do 2 quiet. apply kin_work; [done|]. apply kin_read1.
  - intros m Hm. cbn [fst]. rewrite (proj2 (Z.eqb_neq m 1)) by lia. cbn [negb]. apply uwp_bind, kin_print, uwp_exit.
    split_and!; [done|by eexists|]. right. exists t, before. split_and!; [done..|]. by right.
  - intros b. cbn [fst]. change (negb (1 =? 1)) with false. cbv iota. apply uwp_bind, uwp_ret. apply kin_work; [done|]. quiet.
    apply kin_print, uwp_exit. split_and!; [done|by eexists|]. right. exists t, before. split_and!; [done..|]. left. cbn. lia.
Qed.

(** The verdict of the last test. *)
Definition waited (w : kin) (r : Z) (w' : kin) : Prop :=
  exists pids fin, fin ≡ₚ pids /\ k_born w' = k_born w /\ k_left w' = [] /\ k_forked w' = k_forked w ++ pids /\
    k_reaped w' = k_reaped w ++ fin /\ k_tags w' = k_tags w /\
    r = Z.b2z (bool_decide (pids <> [] /\ fin = reorder [1; 0]%nat pids)).

Lemma waited_none txt : waited w 0 (say 1 txt w).
Proof using Hw. exists [], []. cbn. rewrite !app_nil_r. by split_and!. Qed.

Lemma ret_if (b : bool) w0 :
  uwp roomy (fun r w' => r = Z.b2z b /\ w' = w0) sjf_done (if b then uret 1 else uret 0) w0.
Proof. destruct b; by apply uwp_ret. Qed.

Lemma sjf_diff_exact : uwp roomy (waited w) sjf_done test_stcf_vs_sjf_diff w.
Proof using Hw.
  unfold test_stcf_vs_sjf_diff. apply kin_print, kin_pipe.
  { intros r v. apply kin_print, uwp_ret. rewrite say_say. apply waited_none. }
  intros a0 a1 Ha0 Ha1. cbv iota beta. change (0 <? 0) with false. cbv iota. apply kin_pipe.
  { intros r v. apply kin_print, uwp_ret. rewrite say_say. apply waited_none. }
  intros b0 b1 Hb0 Hb1. cbv iota beta. change (0 <? 0) with false. cbv iota. apply kin_fork.
  { change (0 <? 0) with false. change (0 =? 0) with true. cbv iota. apply uwp_bind.
    eapply uwp_mono; [apply blocked_child_kin; [done..|apply (bool_decide_unpack _); vm_compute; exact Logic.I]|done|done]. }
  intros pa Hpa _. rewrite (proj2 (Z.ltb_ge pa 0)), (proj2 (Z.eqb_neq pa 0)) by lia. apply uwp_bind, uwp_ret, kin_fork.
  { change (0 <? 0) with false. change (0 =? 0) with true. cbv iota. apply uwp_bind.
    eapply uwp_mono; [apply blocked_child_kin; [done..|apply (bool_decide_unpack _); vm_compute; exact Logic.I]|done|done]. }
  intros pb Hpb _. rewrite (proj2 (Z.ltb_ge pb 0)), (proj2 (Z.eqb_neq pb 0)) by lia. apply uwp_bind, uwp_ret. do 2 quiet.
  apply kin_work; [done|]. apply kin_sys; [done|]. intros ? ? [-> ->]. change (negb (Z.of_nat (length (chars "x")) =? 1)) with false. cbv iota.
  apply uwp_bind, uwp_ret. apply kin_sys; [done|]. intros ? ? [-> ->]. change (negb (Z.of_nat (length (chars "y")) =? 1)) with false. cbv iota.
  apply uwp_bind, uwp_ret. rewrite !say_send by done. do 2 quiet.
  apply kin_wait2; [cbn; by rewrite Hw|]. cbn. rewrite Hw. intros x y H. apply kin_print, kin_print.
  eapply uwp_mono; [apply ret_if| |done]. intros r w' [-> ->]. exists [pa; pb], [x; y]. cbn. rewrite <- !app_assoc. split_and!; try done.
  rewrite all_of_two. f_equal. apply bool_decide_ext. naive_solver.
Qed.
End Tests.

(** One run of the suite: [r] of its five tests passed. *)
Definition suite_run (w : kin) (r : Z) (w' : kin) : Prop :=
  exists w1 w2 w3 w4 w5 r1 r2 r3 r4 r5 txt,
    piped (in_order (chars "SL")) w r1 w1 /\ piped (in_order [1; 2; 0]) w1 r2 w2 /\
    piped (in_order (chars "SML")) w2 r3 w3 /\ piped by_runtime w3 r4 w4 /\ waited w4 r5 w5 /\
    r = r1 + r2 + r3 + r4 + r5 /\ w' = say 1 (txt ++ text_of (nl "Passed %d / 5 tests.") [I r]) w5.

(** [n] runs in which all tests passed. *)
Inductive perfect : nat -> kin -> kin -> Prop :=
| perfect_0 w : perfect 0 w w
| perfect_S n w w1 w' : suite_run w 5 w1 -> perfect n w1 w' -> perfect (S n) w w'.

Definition settled (w : kin) : Prop := k_left w = [] /\ k_reaped w ≡ₚ k_forked w.

Lemma piped_settled good w r w' : settled w -> piped good w r w' -> settled w'.
Proof. intros [_ H] (p & f & t & Hp & _ & L & F & R & _). split; [done|]. by rewrite F, R, H, Hp. Qed.
Lemma waited_settled w r w' : settled w -> waited w r w' -> settled w'.
Proof. intros [_ H] (p & f & Hp & _ & L & F & R & _). split; [done|]. by rewrite F, R, H, Hp. Qed.
Lemma run_settled w r w' : settled w -> suite_run w r w' -> settled w'.
Proof.
  intros H (w1 & w2 & w3 & w4 & w5 & r1 & r2 & r3 & r4 & r5 & txt & P1 & P2 & P3 & P4 & P5 & _ & ->).
  change (settled w5). eapply waited_settled; [|exact P5]. do 4 (eapply piped_settled; [|eassumption]). done.
Qed.

Lemma test_suite_exact w : settled w -> uwp roomy (suite_run w) sjf_done test_suite w.
Proof.
  intros H. unfold test_suite.
  apply uwp_bind. eapply uwp_mono; [apply sjf_preempt_exact, H| |done]. intros r1 w1 P1. pose proof (piped_settled _ _ _ _ H P1) as H1.
  apply uwp_bind. eapply uwp_mono; [apply sjf_batch_exact, H1| |done]. intros r2 w2 P2. pose proof (piped_settled _ _ _ _ H1 P2) as H2.
  apply uwp_bind. eapply uwp_mono; [apply sjf_arrivals_exact, H2| |done]. intros r3 w3 P3. pose proof (piped_settled _ _ _ _ H2 P3) as H3.
  apply uwp_bind. eapply uwp_mono; [apply sjf_complex_exact, H3| |done]. intros r4 w4 P4. pose proof (piped_settled _ _ _ _ H3 P4) as H4.
  apply uwp_bind. eapply uwp_mono; [apply sjf_diff_exact, H4| |done]. intros r5 w5 P5.
  do 7 apply kin_print. rewrite !say_say, !app_assoc. apply uwp_ret.
  eexists w1, w2, w3, w4, w5, r1, r2, r3, r4, r5, _. split_and!; done.
Qed.

Lemma suite_loop_exact n w :
  settled w ->
  uwp roomy (fun failed w' => if (failed : bool) then exists k w1 r, (k < n)%nat /\ perfect k w w1 /\ suite_run w1 r w' /\ r <> 5 /\ settled w'
                               else perfect n w w' /\ settled w') sjf_done (suite_loop n) w.
Proof.
  revert w. induction n as [|n IH]; intros w H; cbn [suite_loop].
  - apply uwp_ret. split; [constructor|done].
  - apply uwp_bind. eapply uwp_mono; [by apply test_suite_exact| |done]. intros r w1 Hr. pose proof (run_settled _ _ _ H Hr) as H1.
    destruct (Z.eqb_spec r 5) as [->|Hne]; cbn [negb].
    + eapply uwp_mono; [by apply IH| |done]. intros [] w2 Hb.
      * destruct Hb as (k & w3 & r & Hk & Hp & Hrest). exists (S k), w3, r. split; [lia|]. split; [by econstructor|done].
      * destruct Hb as [Hp Hs]. split; [by econstructor|done].
    + apply uwp_ret. exists O, w, r. split; [lia|]. split; [constructor|done].
Qed.

(** [sjftest] is an exact test, where the process table has room for its
    children.  Whatever the kernel answers to [wait], [pipe] and [read], every process of the program ends: a child exits
    with 0 after it declared its runtime, yielded that many times and sent its
    tag; the parent reaps every child and exits with 0.  A run of the suite
    counts the tests whose tags came in the order of shortest job first: short
    before long; 10, 40, 80; short, medium, long; ten tags with runtimes that do
    not decrease; and B before A.  The parent reports success exactly if ten runs
    passed all five, and stops at the first run that did not. *)
Theorem sjftest_exact (w : kin) (Hw : settled w) :
  uwp roomy (fun _ _ => False) (fun st w' => sjf_done st w' \/
      st = 0 /\ settled w' /\ exists txt, let w0 := expect 1 (say 1 txt w) in
        ((exists w1, perfect 10 w0 w1 /\ w' = say 1 (text_of (nl "Test Suite passed %d times.") [I 10]) w1) \/
         (exists k w1 r, (k < 10)%nat /\ perfect k w0 w1 /\ suite_run w1 r w' /\ r <> 5)))
    sjf_main w.
Proof.
  unfold sjf_main. apply kin_print. apply kin_sys; [done|]. intros ? ? ->. apply uwp_bind.
  eapply uwp_mono; [apply suite_loop_exact, Hw| |by left]. intros [] w' H; cbn [negb].
  - apply uwp_bind, uwp_ret, uwp_exit. right. destruct H as (k & w1 & r & Hk & Hp & Hr & Hne & Hs). split_and!; [done..|].
    eexists. cbv zeta. right. exists k, w1, r. split_and!; done.
  - apply kin_print, uwp_exit. right. destruct H as [Hp Hs].
    split_and!; [done|exact Hs|]. eexists. cbv zeta. left. eexists. split; [exact Hp|done].
Qed.

Lemma sjftest_exact_witness :
  uwp roomy (fun _ _ => False) (fun st w' => sjf_done st w' \/
      st = 0 /\ settled w' /\ exists txt, let w0 := expect 1 (say 1 txt init_kin) in
        ((exists w1, perfect 10 w0 w1 /\ w' = say 1 (text_of (nl "Test Suite passed %d times.") [I 10]) w1) \/
         (exists k w1 r, (k < 10)%nat /\ perfect k w0 w1 /\ suite_run w1 r w' /\ r <> 5)))
    sjf_main init_kin.
Proof. apply (sjftest_exact init_kin). by split. Defined.
