(* ===== verification/Schedeval.v ===== *)
(** user/schedeval.c: the workloads that compare the schedulers, and the times
    they print.

    The busy loops that space out the forks only pass time and are left out. *)
From S2P Require Import Prelude Ring Chars Format Sys Ulib Jobs.
Open Scope usr_scope.

Definition MICROSECONDS : Z := 10.
Definition MILLISECONDS : Z := 10000.

(** The times of [print_info], in [uint64]. *)
Definition turnaround (info : uprocinfo) (scale : Z) : Z := u64 (pi_etime info - pi_ctime info) / scale.
Definition waiting (info : uprocinfo) (scale : Z) : Z := u64 (u64 (pi_etime info - pi_ctime info) - pi_rtime info) / scale.
Definition response (info : uprocinfo) (scale : Z) : Z := u64 (pi_stime info - pi_ctime info) / scale.

Definition print_info (pid : Z) : U unit :=
  let scale := MICROSECONDS in
  let units := if scale =? MILLISECONDS then chars "ms" else chars "µs" in
  r <- sys (GetProcInfo pid) ;;
  let '(k, info) := r in
  if k =? 0 then
    let tat := turnaround info scale in
    let wt := waiting info scale in
    let rt := response info scale in
    uprintf (nl "pid: %d, ctime (creation time): %lu, stime (start time): %lu, rtime (runtime): %lu, etime (exit time): %lu, priority: %d, name: %s")
      [I (pi_pid info); I (pi_ctime info / scale); I (pi_stime info / scale); I (pi_rtime info / scale);
       I (pi_etime info / scale); I (pi_priority info); T (upto_nul (pi_name info))] ;;
    uprintf (nl "turnaround time %lu %s, waiting time %lu %s, response time %lu %s ") [I tat; T units; I wt; T units; I rt; T units] ;;
    uprintf [NEWLINE] []
  else uprintf (nl "failed to get proc info for pid %d") [I pid].

Definition wait_for_all_children : U unit :=
  while (fun _ : unit => r <- wait0 ;; if 0 <? r then uret (inl tt) else uret (inr tt)) tt.

Definition sanity_check : U Z :=
  uprintf (NEWLINE :: nl "=== SANITY CHECK ===") [] ;;
  p_long <- spawn (
    sys (SetExpected 200) ;;
    work 200 ;;
    pid <- sys Getpid ;;
    uprintf (nl "LONG done (pid=%d)") [I pid] ;;
    print_info pid ;;
    exit 0) ;;
  p_short <- spawn (
    sys (SetExpected 20) ;;
    work 20 ;;
    pid <- sys Getpid ;;
    uprintf (nl "SHORT done (pid=%d)") [I pid] ;;
    print_info pid ;;
    exit 0) ;;
  wait0 ;;
  wait0 ;;
  uret 0.

Definition eval1 : U Z :=
  uprintf (NEWLINE :: nl "=== TEST 1: MANY SHORT + ONE LONG WITHIN ===") [] ;;
  let rt := [20; 20; 500; 20; 20] in
  pid <- collect (seq 0 5) (fun i => spawn (
    sys (SetExpected (rt !!! i)) ;;
    sys (SetStcfVals (rt !!! i)) ;;
    work (rt !!! i) ;;
    pid <- sys Getpid ;;
    (if rt !!! i <? 100 then uprintf (nl "Child %d (pid=%d) SHORT job rt=%d done") [I (Z.of_nat i); I pid; I (rt !!! i)]
     else uprintf (nl "Child %d (pid=%d) LONG job rt=%d done") [I (Z.of_nat i); I pid; I (rt !!! i)]) ;;
    pid <- sys Getpid ;;
    print_info pid ;;
    exit 0)) ;;
  finish <- collect (seq 0 5) (fun _ => wait0) ;;
  uprintf (NEWLINE :: nl "=== COMPLETION ORDER ===") [] ;;
  each finish (fun f => uprintf (chars "%d ") [I f]) ;;
  uprintf [NEWLINE] [] ;;
  uret 0.

Definition eval2 : U Z :=
  uprintf (NEWLINE :: nl "=== TEST 2: LONG THEN MANY SHORT JOBS ===") [] ;;
  p_long <- spawn (
    sys (SetExpected 500) ;;
    sys (SetStcfVals 500) ;;
    work 500 ;;
    pid <- sys Getpid ;;
    uprintf (nl "LONG done (pid=%d)") [I pid] ;;
    print_info pid ;;
    exit 0) ;;
  let runtimes := [20; 20; 20; 20] in
  p_short <- collect (seq 0 4) (fun i => spawn (
    sys (SetExpected (runtimes !!! i)) ;;
    sys (SetStcfVals (runtimes !!! i)) ;;
    work (runtimes !!! i) ;;
    pid <- sys Getpid ;;
    uprintf (nl "SHORT %d done (pid=%d)") [I (Z.of_nat i); I pid] ;;
    print_info pid ;;
    exit 0)) ;;
  finish <- collect (seq 0 5) (fun _ => wait0) ;;
  uprintf (nl "Finish order:") [] ;;
  each finish (fun f => uprintf (chars "%d ") [I f]) ;;
  uprintf [NEWLINE] [] ;;
  uret 0.

(** [main] does not call [eval3]. *)
Definition eval3 : U Z :=
  uprintf (NEWLINE :: nl "=== TEST 3: STARVATION OF LONG JOB ===") [] ;;
  p_long <- spawn (
    sys (SetExpected 500) ;;
    sys (SetStcfVals 500) ;;
    work 500 ;;
    pid <- sys Getpid ;;
    uprintf (nl "LONG done (pid=%d)") [I pid] ;;
    pid <- sys Getpid ;;
    print_info pid ;;
    exit 0) ;;
  let rt := [10; 10; 10; 10; 10; 10] in
  pid_short <- collect (seq 0 6) (fun i => spawn (
    sys (SetExpected (rt !!! i)) ;;
    sys (SetStcfVals (rt !!! i)) ;;
    work (rt !!! i) ;;
    pid <- sys Getpid ;;
    uprintf (nl "SHORT %d done (pid=%d)") [I (Z.of_nat i); I pid] ;;
    pid <- sys Getpid ;;
    print_info pid ;;
    exit 0)) ;;
  finish <- collect (seq 0 7) (fun _ => wait0) ;;
  uprintf (NEWLINE :: nl "Completion order:") [] ;;
  each finish (fun f => uprintf (chars "%d ") [I f]) ;;
  uprintf [NEWLINE] [] ;;
  uprintf (nl "Expected (SJF/STCF): short jobs first, long job last") [] ;;
  uprintf (nl "Demonstrates starvation of long job in STCF/SJF & MLFQ" ++ [NEWLINE]) [] ;;
  uret 0.

Definition eval_main : U Z :=
  sanity_check ;;
  wait_for_all_children ;;
  eval1 ;;
  wait_for_all_children ;;
  eval2 ;;
  wait_for_all_children ;;
  exit 0.

(** * The processes *)

Lemma kin_info {B} (Q : B -> kin -> Prop) Qx pid (k : unit -> U B) w :
  (forall txt, uwp roomy Q Qx (k tt) (say 1 txt w)) -> uwp roomy Q Qx (ubind (print_info pid) k) w.
Proof.
  intros H. apply uwp_bind. unfold print_info. cbv zeta. apply kin_sys; [done|]. intros [z info] w' ->. destruct (z =? 0).
  - apply kin_print, kin_print. rewrite say_say. eapply uwp_mono; [apply fprintf_kin| |done]. intros [] w' ->. rewrite say_say. apply H.
  - eapply uwp_mono; [apply fprintf_kin| |done]. intros [] w' ->. apply H.
Qed.

(** [wait_for_all_children] reaps whatever is left. *)
Lemma kin_wait_for_all {B} (Q : B -> kin -> Prop) Qx (k : unit -> U B) w :
  Forall (Z.lt 0) (k_left w) -> (forall fin, fin ≡ₚ k_left w -> uwp roomy Q Qx (k tt) (reap_all fin w)) ->
  uwp roomy Q Qx (ubind wait_for_all_children k) w.
Proof.
  intros Hpos Hk. apply uwp_bind. unfold wait_for_all_children.
  apply (uwp_while _ (fun _ w' => exists fin left, k_left w ≡ₚ fin ++ left /\
    w' = Kin (k_born w) (k_forked w) left (k_reaped w ++ fin) (k_tags w) (k_expected w) (k_hint w) (k_yields w) (k_sent w) (k_out w))
    (fun _ w' => length (k_left w'))).
  - intros _ w1 (fin & left & Hp & ->). cbn [k_left]. destruct (decide (left = [])) as [->|Hne].
    + apply uwp_bind. unfold wait0. apply kin_sys; [done|]. intros [p st] w2 [Hr ->]. cbn in Hr. subst p. apply uwp_ret, uwp_ret.
      rewrite app_nil_r in Hp. by apply Hk.
    + apply kin_wait; [done|]. cbn [k_left]. intros p left' Hp'. rewrite Hp, Hp', Forall_app, Forall_cons in Hpos.
      destruct Hpos as (_ & Hpp & _). rewrite (proj2 (Z.ltb_lt 0 p) Hpp). apply uwp_ret. split.
      * exists (fin ++ [p]), left'. split; [by rewrite Hp, Hp', <- app_assoc|]. unfold reap. cbn. by rewrite app_assoc.
      * apply Permutation_length in Hp'. cbn in *. lia.
  - exists [], (k_left w). rewrite app_nil_r. split; [done|]. by destruct w.
Qed.

(** A workload of [n] children. *)
Definition ran (n : nat) (w w' : kin) : Prop :=
  exists pids fin, length pids = n /\ fin ≡ₚ pids /\ k_born w' = k_born w /\ k_left w' = [] /\
    k_forked w' = k_forked w ++ pids /\ k_reaped w' = k_reaped w ++ fin.

Ltac eval_step := first [apply kin_info; intros ? | kin_step].
Ltac eval_child i :=
  repeat eval_step; eapply (jobs_here _ _ _ i);
    [first [reflexivity | eassumption] | cbn; f_equal; rewrite ?length_app; cbn; lia | split_and!; reflexivity].

Section Evals.
Context (w : kin) (Hw : alone w).
Local Abbreviation base := (length (k_forked w)).

Lemma sanity_ran : uwp roomy (fun _ w' => ran 2 w w') (jobs_done false base [200; 20]) sanity_check w.
Proof using Hw.
  unfold sanity_check. apply kin_print. apply kin_spawn; [eval_child 0%nat|]. intros p Hp Np.
  apply kin_spawn; [eval_child 1%nat|]. intros q Hq Nq. apply kin_wait2; [cbn; by rewrite Hw|]. cbn. rewrite Hw. intros a b H.
  apply uwp_ret. exists [p; q], [a; b]. cbn. rewrite <- app_assoc. by split_and!.
Qed.

Lemma eval1_ran : uwp roomy (fun _ w' => ran 5 w w') (jobs_done true base [20; 20; 500; 20; 20]) eval1 w.
Proof using Hw.
  unfold eval1. apply kin_print. apply kin_spawn_all.
  { intros i j [-> Hi]%lookup_seq.
    destruct i as [|[|[|[|[|]]]]]; [eval_child 0%nat|eval_child 1%nat|eval_child 2%nat|eval_child 3%nat|eval_child 4%nat|lia]. }
  rewrite length_seq. intros pids Hl Hnd. apply kin_wait_all; [cbn; rewrite Hw; cbn; by rewrite Hl|]. cbn. rewrite Hw. intros fin Hp.
  apply kin_print, kin_each_print. intros txt. apply kin_print, uwp_ret. exists pids, fin. by split_and!.
Qed.

Lemma eval2_ran : uwp roomy (fun _ w' => ran 5 w w') (jobs_done true base [500; 20; 20; 20; 20]) eval2 w.
Proof using Hw.
  unfold eval2. apply kin_print. apply kin_spawn; [eval_child 0%nat|]. intros p Hp Np. apply kin_spawn_all.
  { intros i j [-> Hi]%lookup_seq.
    destruct i as [|[|[|[|]]]]; [eval_child 1%nat|eval_child 2%nat|eval_child 3%nat|eval_child 4%nat|lia]. }
  rewrite length_seq. intros pids Hl Hnd. apply kin_wait_all; [cbn; rewrite Hw; cbn; by rewrite Hl|]. cbn. rewrite Hw. intros fin Hpf.
  apply kin_print, kin_each_print. intros txt. apply kin_print, uwp_ret. exists (p :: pids), fin. cbn. rewrite <- app_assoc. by split_and!; rewrite ?Hl.
Qed.

Lemma eval3_ran : uwp roomy (fun _ w' => ran 7 w w') (jobs_done true base [500; 10; 10; 10; 10; 10; 10]) eval3 w.
Proof using Hw.
  unfold eval3. apply kin_print. apply kin_spawn; [eval_child 0%nat|]. intros p Hp Np. apply kin_spawn_all.
  { intros i j [-> Hi]%lookup_seq.
    destruct i as [|[|[|[|[|[|]]]]]]; [eval_child 1%nat|eval_child 2%nat|eval_child 3%nat|eval_child 4%nat|eval_child 5%nat|eval_child 6%nat|lia]. }
  rewrite length_seq. intros pids Hl Hnd. apply kin_wait_all; [cbn; rewrite Hw; cbn; by rewrite Hl|]. cbn. rewrite Hw. intros fin Hpf.
  apply kin_print, kin_each_print. intros txt. do 3 apply kin_print. apply uwp_ret. exists (p :: pids), fin. cbn. rewrite <- app_assoc. by split_and!; rewrite ?Hl.
Qed.
End Evals.

(** The parent between two workloads: [n] children forked and reaped. *)
Definition reaped_all (n : nat) (w : kin) : Prop :=
  k_left w = [] /\ length (k_forked w) = n /\ k_reaped w ≡ₚ k_forked w.

Lemma ran_all n m w w' : reaped_all n w -> ran m w w' -> reaped_all (n + m) w'.
Proof.
  intros (_ & Hl & Hp) (p & f & Lp & Pp & _ & L & F & R). split_and!; [done| |].
  - by rewrite F, length_app, Hl, Lp.
  - by rewrite F, R, Hp, Pp.
Qed.

(** Between two workloads [wait_for_all_children] finds nothing to do. *)
Lemma kin_wait_none {B} (Q : B -> kin -> Prop) Qx (k : unit -> U B) w :
  k_left w = [] -> uwp roomy Q Qx (k tt) w -> uwp roomy Q Qx (ubind wait_for_all_children k) w.
Proof.
  intros Hl H. apply kin_wait_for_all; [by rewrite Hl|]. rewrite Hl. intros fin Hf. apply Permutation_nil_r in Hf as ->.
  destruct w. cbn in Hl. subst. unfold reap_all. cbn. by rewrite app_nil_r.
Qed.

(** [schedeval] runs its workloads to the end, where the process table has room
    for its children.  Whatever the kernel answers to [wait] and [getprocinfo],
    every process of it ends: a child exits with 0 after it declared its runtime
    (to both schedulers in the evaluations) and yielded that many times; the parent forks twelve children, reaps each of them
    once, finds no child left after each workload, and exits with 0. *)
Theorem schedeval_ends (w : kin) (Hw : reaped_all 0 w) :
  uwp roomy (fun _ _ => False) (fun st w' =>
      jobs_done false 0 [200; 20] st w' \/ jobs_done true 2 ([20; 20; 500; 20; 20] ++ [500; 20; 20; 20; 20]) st w' \/
      st = 0 /\ reaped_all 12 w') eval_main w.
Proof.
  unfold eval_main. apply uwp_bind. eapply uwp_mono; [apply sanity_ran, Hw| |intros st w' H; left; by destruct Hw as (_ & <- & _)].
  intros r1 w1 R1. pose proof (ran_all _ _ _ _ Hw R1) as H1. apply kin_wait_none; [apply H1|].
  apply uwp_bind. eapply uwp_mono; [apply eval1_ran, H1| |].
  2:{ intros st w' (i & t & Hi & Hb & Hd). right. left. exists i, t. split_and!; [by apply lookup_app_l_Some| |done].
      destruct H1 as (_ & E & _). by rewrite Hb, E. }
  intros r2 w2 R2. pose proof (ran_all _ _ _ _ H1 R2) as H2. apply kin_wait_none; [apply H2|].
  apply uwp_bind. eapply uwp_mono; [apply eval2_ran, H2| |].
  2:{ intros st w' (i & t & Hi & Hb & Hd). right. left. exists (5 + i)%nat, t. split_and!; [done| |done].
      destruct H2 as (_ & E & _). by rewrite Hb, E. }
  intros r3 w3 R3. pose proof (ran_all _ _ _ _ H2 R3) as H3. apply kin_wait_none; [apply H3|].
  apply uwp_exit. by right; right.
Qed.

Lemma schedeval_ends_witness :
  uwp roomy (fun _ _ => False) (fun st w' =>
      jobs_done false 0 [200; 20] st w' \/ jobs_done true 2 ([20; 20; 500; 20; 20] ++ [500; 20; 20; 20; 20]) st w' \/
      st = 0 /\ reaped_all 12 w') eval_main init_kin.
Proof. apply (schedeval_ends init_kin). by split_and!. Defined.

(** The children call [print_info] on themselves before they exit, when [etime]
    is still zero: the turnaround time they print is [2^64] minus their creation
    time. *)
Lemma running_turnaround info :
  pi_etime info = 0 -> 0 < pi_ctime info < 2 ^ 64 -> turnaround info MICROSECONDS = (2 ^ 64 - pi_ctime info) / 10.
Proof.
  intros E H. unfold turnaround. rewrite E. f_equal. unfold u64. symmetry. apply (Z.mod_unique _ _ (-1)); lia.
Qed.
