(* ===== verification/Sh.v ===== *)
(** user/sh.c: the shell.

    The line read is the text [text], the characters before the NUL at [es]; a
    position in it is an index, and [*s] at the index [es] is the NUL.  A parsed
    command records the start and the end of each word, as the C structures do;
    [nulterminate] then stores a NUL at each end, in the buffer.  [parseexec]
    goes on filling the [execcmd] that the redirections already wrap:
    [push_arg] reaches it through them.  [malloc] is taken to succeed.

    The parser either goes on at a new position, or stops the process with a
    message on descriptor 2 ([PPanic]).  Recursion is bounded by [fuel];
    ShParse shows that four times the length of the text is enough. *)
From S2P Require Import Prelude Chars Format Sys Ulib.
Open Scope usr_scope.

Definition MAXARGS : nat := 10.

Inductive cmd :=
| ExecCmd (argv : list (nat * nat))
| RedirCmd (c : cmd) (file efile : nat) (mode fd : Z)
| PipeCmd (left right : cmd)
| ListCmd (left right : cmd)
| BackCmd (c : cmd).

Inductive presult A :=
| POk (a : A) (s : nat)
| PPanic (msg : list Z)
| PFuel.
Arguments POk {A} _ _. Arguments PPanic {A} _. Arguments PFuel {A}.

(** [panic(s)] prints [s] and a newline. *)
Definition sh_panic {A} (s : string) : presult A := PPanic (nl s).

Definition pbind {A B} (r : presult A) (k : A -> nat -> presult B) : presult B :=
  match r with
  | POk a s => k a s
  | PPanic msg => PPanic msg
  | PFuel => PFuel
  end.
Notation "'plet' a , s ':=' r 'in' k" := (pbind r (fun a s => k))
  (at level 10, a name, s name, r at level 100, k at level 200).

(** * Parsing *)

Definition whitespace : list Z := [32; 9; 13; 10; 11].
Definition symbols : list Z := chars "<|>&;()".
Definition is_in (set : list Z) (c : Z) : bool := bool_decide (is_Some (strchr_at set c)).

Section Parser.
Context (text : list Z).
Local Abbreviation es := (length text).

(** [while(s < es && test( *s)) s++], [n] being at least [es - s]. *)
Fixpoint scan (test : Z -> bool) (n s : nat) : nat :=
  match n with
  | O => s
  | S n' => if (s <? es)%nat && test (cat text s) then scan test n' (S s) else s
  end.
Definition skip_blanks (s : nat) : nat := scan (is_in whitespace) (es - s) s.

(** The token, its start and its end, and the new position. *)
Definition gettoken (s : nat) : Z * nat * nat * nat :=
  let s := skip_blanks s in
  let q := s in
  let c := cat text s in
  let '(ret, s) :=
    if c =? 0 then (c, s)
    else if (c =? ch "|") || (c =? ch "(") || (c =? ch ")") || (c =? ch ";") || (c =? ch "&") || (c =? ch "<")
    then (c, S s)
    else if c =? ch ">" then
      if cat text (S s) =? ch ">" then (ch "+", S (S s)) else (c, S s)
    else
      (ch "a", scan (fun c => negb (is_in whitespace c) && negb (is_in symbols c)) (es - s) s) in
  let eq := s in
  (ret, q, eq, skip_blanks s).

Definition peek (s : nat) (toks : string) : bool * nat :=
  let s := skip_blanks s in
  (negb (cat text s =? 0) && is_in (chars toks) (cat text s), s).

Fixpoint parseredirs (fuel : nat) (c : cmd) (s : nat) : presult cmd :=
  match fuel with
  | O => PFuel
  | S fuel' =>
      let '(p, s) := peek s "<>" in
      if negb p then POk c s else
      let '(tok, _, _, s) := gettoken s in
      let '(t, q, eq, s) := gettoken s in
      if negb (t =? ch "a") then sh_panic "missing file for redirection" else
      let c :=
        if tok =? ch "<" then RedirCmd c q eq O_RDONLY 0
        else if tok =? ch ">" then RedirCmd c q eq (Z.lor (Z.lor O_WRONLY O_CREATE) O_TRUNC) 1
        else if tok =? ch "+" then RedirCmd c q eq (Z.lor O_WRONLY O_CREATE) 1
        else c in
      parseredirs fuel' c s
  end.

(** [cmd->argv[argc] = q; cmd->eargv[argc] = eq]. *)
Fixpoint push_arg (c : cmd) (q eq : nat) : cmd :=
  match c with
  | ExecCmd argv => ExecCmd (argv ++ [(q, eq)])
  | RedirCmd c' f ef mode fd => RedirCmd (push_arg c' q eq) f ef mode fd
  | _ => c
  end.

(** The loop of [parseexec]. *)
Fixpoint exec_loop (fuel : nat) (ret : cmd) (argc : nat) (s : nat) : presult cmd :=
  match fuel with
  | O => PFuel
  | S fuel' =>
      let '(p, s) := peek s "|)&;" in
      if p then POk ret s else
      let '(tok, q, eq, s) := gettoken s in
      if tok =? 0 then POk ret s else
      if negb (tok =? ch "a") then sh_panic "syntax" else
      let ret := push_arg ret q eq in
      let argc := S argc in
      if (MAXARGS <=? argc)%nat then sh_panic "too many args" else
      plet ret, s := parseredirs (S es) ret s in
      exec_loop fuel' ret argc s
  end.

(** The loop of [parseline]. *)
Fixpoint back_loop (fuel : nat) (c : cmd) (s : nat) : presult cmd :=
  match fuel with
  | O => PFuel
  | S fuel' =>
      let '(p, s) := peek s "&" in
      if negb p then POk c s else
      let '(_, _, _, s) := gettoken s in
      back_loop fuel' (BackCmd c) s
  end.

Fixpoint parseline (fuel s : nat) {struct fuel} : presult cmd :=
  match fuel with
  | O => PFuel
  | S fuel' =>
      plet c, s := parsepipe fuel' s in
      plet c, s := back_loop (S es) c s in
      let '(p, s) := peek s ";" in
      if p then
        let '(_, _, _, s) := gettoken s in
        plet r, s := parseline fuel' s in
        POk (ListCmd c r) s
      else POk c s
  end
with parsepipe (fuel s : nat) {struct fuel} : presult cmd :=
  match fuel with
  | O => PFuel
  | S fuel' =>
      plet c, s := parseexec fuel' s in
      let '(p, s) := peek s "|" in
      if p then
        let '(_, _, _, s) := gettoken s in
        plet r, s := parsepipe fuel' s in
        POk (PipeCmd c r) s
      else POk c s
  end
with parseexec (fuel s : nat) {struct fuel} : presult cmd :=
  match fuel with
  | O => PFuel
  | S fuel' =>
      let '(p, s) := peek s "(" in
      if p then parseblock fuel' s else
      plet ret, s := parseredirs (S es) (ExecCmd []) s in
      exec_loop (S es) ret 0 s
  end
with parseblock (fuel s : nat) {struct fuel} : presult cmd :=
  match fuel with
  | O => PFuel
  | S fuel' =>
      let '(p, s) := peek s "(" in
      if negb p then sh_panic "parseblock" else
      let '(_, _, _, s) := gettoken s in
      plet c, s := parseline fuel' s in
      let '(p, s) := peek s ")" in
      if negb p then sh_panic "syntax - missing )" else
      let '(_, _, _, s) := gettoken s in
      parseredirs (S es) c s
  end.

(** [parsecmd] up to the call of [nulterminate]. *)
Definition parsecmd : presult cmd :=
  plet c, s := parseline (4 * es + 4) 0 in
  let '(_, s) := peek s "" in
  if negb (s =? es)%nat then
    PPanic (text_of (nl "leftovers: %s") [T (drop s text)] ++ nl "syntax")
  else POk c s.
End Parser.

(** * The strings of a command *)

(** The stores of [nulterminate] in the buffer, the NUL at its end included. *)
Fixpoint nulterminate (c : cmd) (buf : list Z) : list Z :=
  match c with
  | ExecCmd argv => foldl (fun b '(q, eq) => <[eq := 0]> b) buf argv
  | RedirCmd c' _ efile _ _ => <[efile := 0]> (nulterminate c' buf)
  | PipeCmd l r | ListCmd l r => nulterminate r (nulterminate l buf)
  | BackCmd c' => nulterminate c' buf
  end.

(** A command with its strings. *)
Inductive scmd :=
| SExec (argv : list (list Z))
| SRedir (c : scmd) (file : list Z) (mode fd : Z)
| SPipe (left right : scmd)
| SList (left right : scmd)
| SBack (c : scmd).

(** The strings the pointers of a command point to. *)
Fixpoint resolve (buf : list Z) (c : cmd) : scmd :=
  match c with
  | ExecCmd argv => SExec ((fun '(q, _) => upto_nul (drop q buf)) <$> argv)
  | RedirCmd c' file _ mode fd => SRedir (resolve buf c') (upto_nul (drop file buf)) mode fd
  | PipeCmd l r => SPipe (resolve buf l) (resolve buf r)
  | ListCmd l r => SList (resolve buf l) (resolve buf r)
  | BackCmd c' => SBack (resolve buf c')
  end.

(** [runcmd(parsecmd(cmd))] sees this command. *)
Definition parsed (text : list Z) : presult scmd :=
  plet c, s := parsecmd text in POk (resolve (nulterminate c (text ++ [0])) c) s.

(** * Running *)

Definition spanic {A} (s : string) : U A := fprintf 2 (chars "%s" ++ [NEWLINE]) [T (chars s)] ;; exit 1.

Definition fork1 : U Z :=
  pid <- sys Fork ;;
  (if pid =? -1 then spanic "fork" else uret tt) ;;
  uret pid.

Fixpoint runcmd {A} (c : scmd) : U A :=
  match c with
  | SExec [] => exit 1
  | SExec (path :: args) =>
      sys (Exec path (path :: args)) ;;
      fprintf 2 (nl "exec %s failed") [T path] ;;
      exit 0
  | SRedir c' file mode fd =>
      sys (Close fd) ;;
      k <- sys (Open file mode) ;;
      if k <? 0 then fprintf 2 (nl "open %s failed") [T file] ;; exit 1
      else runcmd c'
  | SList l r =>
      pid <- fork1 ;;
      if pid =? 0 then runcmd l else
      sys Wait ;;
      runcmd r
  | SPipe l r =>
      k <- sys Pipe ;;
      let '(k, (p0, p1)) := k in
      (if k <? 0 then spanic "pipe" else uret tt) ;;
      pid <- fork1 ;;
      if pid =? 0 then
        sys (Close 1) ;;
        sys (Dup p1) ;;
        sys (Close p0) ;;
        sys (Close p1) ;;
        runcmd l
      else
      pid <- fork1 ;;
      if pid =? 0 then
        sys (Close 0) ;;
        sys (Dup p0) ;;
        sys (Close p0) ;;
        sys (Close p1) ;;
        runcmd r
      else
      sys (Close p0) ;;
      sys (Close p1) ;;
      sys Wait ;;
      sys Wait ;;
      exit 0
  | SBack c' =>
      pid <- fork1 ;;
      if pid =? 0 then runcmd c' else exit 0
  end.

(** The line read, with its newline; [None] at the end of the input. *)
Definition getcmd (nbuf : Z) : U (option (list Z)) :=
  sys (Write 2 (chars "$ ")) ;;
  s <- gets nbuf ;;
  uret (if default 0 (head s) =? 0 then None else Some (upto_nul s)).

Fixpoint skip_lead (s : list Z) : list Z :=
  match s with
  | c :: s' => if (c =? 32) || (c =? 9) then skip_lead s' else s
  | [] => []
  end.

(** [parsecmd] and [runcmd] in the child. *)
Definition run_line {A} (s : list Z) : U A :=
  match parsed s with
  | POk c _ => runcmd c
  | PPanic msg => each msg (fun b => sys (Write 2 [b]) ;; uret tt) ;; exit 1
  | PFuel => exit 1
  end.

Definition sh_main (_ : list (list Z)) : U Z :=
  while (fun _ : unit =>
    fd <- sys (Open (chars "console") O_RDWR) ;;
    if 0 <=? fd then
      if 3 <=? fd then sys (Close fd) ;; uret (inr tt) else uret (inl tt)
    else uret (inr tt)) tt ;;
  while (fun _ : unit =>
    line <- getcmd 100 ;;
    match line with
    | None => uret (inr tt)
    | Some line =>
        let cmd := skip_lead line in
        if cat cmd 0 =? NEWLINE then uret (inl tt) else
        if (cat cmd 0 =? ch "c") && (cat cmd 1 =? ch "d") && (cat cmd 2 =? ch " ") then
          let dir := drop 3 (take (length cmd - 1) cmd) in
          k <- sys (Chdir dir) ;;
          unless (negb (k <? 0)) (fprintf 2 (nl "cannot cd %s") [T dir]) ;;
          uret (inl tt)
        else
          pid <- fork1 ;;
          if pid =? 0 then run_line cmd else
          sys Wait ;;
          uret (inl tt)
    end) tt ;;
  exit 0.
