(* ===== verification/ShParse.v ===== *)
(** The shell's parser: it terminates on every line, accepts exactly the lines
    of the grammar below, and builds the command the line stands for.

<<
    line  ::= pipe &* | pipe &* ; line
    pipe  ::= exec | exec '|' pipe
    exec  ::= ( line ) redir* | (word | redir)*        at most 9 words
    redir ::= < word | > word | >> word
>>

    with any blanks between the tokens, and a word a maximal run of characters
    that are neither blanks nor symbols. *)
From S2P Require Import Prelude Chars Format Sys Ulib Sh.

(** * Tokens *)

Inductive tok := TW (w : list Z) | TS (c : Z) | TApp.

Definition wordchar (c : Z) : bool := negb (is_in whitespace c) && negb (is_in symbols c).
Definition stops (test : Z -> bool) (l : list Z) : Prop := match head l with Some c => test c = false | None => True end.
Definition blanks (ws : list Z) : Prop := Forall (fun c => is_in whitespace c = true) ws.

(** [spells toks l]: the text [l] is the tokens [toks]. *)
Inductive spells : list tok -> list Z -> Prop :=
| sp_nil ws : blanks ws -> spells [] ws
| sp_word ws w rest toks :
    blanks ws -> w <> [] -> Forall (fun c => wordchar c = true) w -> stops wordchar rest ->
    spells toks rest -> spells (TW w :: toks) (ws ++ w ++ rest)
| sp_sym ws c rest toks :
    blanks ws -> is_in symbols c = true -> (c = ch ">" -> stops (Z.eqb (ch ">")) rest) ->
    spells toks rest -> spells (TS c :: toks) (ws ++ [c] ++ rest)
| sp_app ws rest toks :
    blanks ws -> spells toks rest -> spells (TApp :: toks) (ws ++ [ch ">"; ch ">"] ++ rest).

(** What [peek] sees of a token. *)
Definition first_sym (toks : list tok) : option Z :=
  match toks with
  | TS c :: _ => Some c
  | TApp :: _ => Some (ch ">")
  | _ => None
  end.
Definition tok_code (t : tok) : Z := match t with TW _ => ch "a" | TS c => c | TApp => ch "+" end.

(** * The grammar *)

Inductive rdop := RIn | ROut | RAppend.
Definition redir : Type := rdop * list Z.
Inductive item := IWord (w : list Z) | IRedir (r : redir).

Inductive gexec := GSimple (items : list item) | GBlock (l : gline) (rs : list redir)
with gpipe := GOne (e : gexec) | GBar (e : gexec) (p : gpipe)
with gline := GLine (p : gpipe) (amps : nat) | GSeq (p : gpipe) (amps : nat) (l : gline).

Scheme gexec_ind' := Induction for gexec Sort Prop
  with gpipe_ind' := Induction for gpipe Sort Prop
  with gline_ind' := Induction for gline Sort Prop.
Combined Scheme grammar_ind from gexec_ind', gpipe_ind', gline_ind'.

Definition op_tok (op : rdop) : tok := match op with RIn => TS (ch "<") | ROut => TS (ch ">") | RAppend => TApp end.
Definition show_redir (r : redir) : list tok := [op_tok (fst r); TW (snd r)].
Definition show_redirs (rs : list redir) : list tok := concat (show_redir <$> rs).
Definition show_item (i : item) : list tok := match i with IWord w => [TW w] | IRedir r => show_redir r end.
Definition show_items (l : list item) : list tok := concat (show_item <$> l).

Fixpoint show_exec (e : gexec) : list tok :=
  match e with
  | GSimple items => show_items items
  | GBlock l rs => [TS (ch "(")] ++ show_line l ++ [TS (ch ")")] ++ show_redirs rs
  end
with show_pipe (p : gpipe) : list tok :=
  match p with
  | GOne e => show_exec e
  | GBar e p' => show_exec e ++ [TS (ch "|")] ++ show_pipe p'
  end
with show_line (l : gline) : list tok :=
  match l with
  | GLine p amps => show_pipe p ++ replicate amps (TS (ch "&"))
  | GSeq p amps l' => show_pipe p ++ replicate amps (TS (ch "&")) ++ [TS (ch ";")] ++ show_line l'
  end.

(** The command a line stands for. *)
Definition redirected (c : scmd) (r : redir) : scmd :=
  match fst r with
  | RIn => SRedir c (snd r) O_RDONLY 0
  | ROut => SRedir c (snd r) (Z.lor (Z.lor O_WRONLY O_CREATE) O_TRUNC) 1
  | RAppend => SRedir c (snd r) (Z.lor O_WRONLY O_CREATE) 1
  end.
Fixpoint add_word (c : scmd) (w : list Z) : scmd :=
  match c with
  | SExec argv => SExec (argv ++ [w])
  | SRedir c' f mode fd => SRedir (add_word c' w) f mode fd
  | _ => c
  end.
Definition add_item (c : scmd) (i : item) : scmd :=
  match i with IWord w => add_word c w | IRedir r => redirected c r end.

Fixpoint mean_exec (e : gexec) : scmd :=
  match e with
  | GSimple items => foldl add_item (SExec []) items
  | GBlock l rs => foldl redirected (mean_line l) rs
  end
with mean_pipe (p : gpipe) : scmd :=
  match p with
  | GOne e => mean_exec e
  | GBar e p' => SPipe (mean_exec e) (mean_pipe p')
  end
with mean_line (l : gline) : scmd :=
  match l with
  | GLine p amps => Nat.iter amps SBack (mean_pipe p)
  | GSeq p amps l' => SList (Nat.iter amps SBack (mean_pipe p)) (mean_line l')
  end.

(** At most 9 words in a simple command. *)
Fixpoint words_of (items : list item) : nat :=
  match items with
  | [] => O
  | IWord _ :: l => S (words_of l)
  | IRedir _ :: l => words_of l
  end.
Fixpoint fit_exec (e : gexec) : Prop :=
  match e with
  | GSimple items => (words_of items < MAXARGS)%nat
  | GBlock l _ => fit_line l
  end
with fit_pipe (p : gpipe) : Prop :=
  match p with
  | GOne e => fit_exec e
  | GBar e p' => fit_exec e /\ fit_pipe p'
  end
with fit_line (l : gline) : Prop :=
  match l with
  | GLine p _ => fit_pipe p
  | GSeq p _ l' => fit_pipe p /\ fit_line l'
  end.

(** * Reading tokens *)

Lemma is_in_spec set c : is_in set c = true <-> c ∈ set.
Proof.
  unfold is_in. rewrite bool_decide_eq_true. induction set as [|x set IH]; cbn [strchr_at].
  - rewrite elem_of_nil. split; [by intros [? ?]|done].
  - rewrite elem_of_cons, <- IH. destruct (Z.eqb_spec x c) as [->|Hne]; [naive_solver|].
    unfold is_Some. split.
    + intros [i Hi]. apply fmap_Some in Hi as (j & Hj & _). right. by exists j.
    + intros [E|[i Hi]]; [congruence|]. exists (S i). by rewrite Hi.
Qed.

Lemma symbol_not_blank c : is_in symbols c = true -> is_in whitespace c = false.
Proof.
  rewrite is_in_spec. intros H. destruct (is_in whitespace c) eqn:E; [|done]. rewrite is_in_spec in E.
  exfalso. revert H E. unfold symbols, whitespace. cbn. rewrite !elem_of_cons, !elem_of_nil. lia.
Qed.
Lemma symbol_nonzero c : is_in symbols c = true -> c <> 0.
Proof. rewrite is_in_spec. unfold symbols. cbn. rewrite !elem_of_cons, elem_of_nil. lia. Qed.

Lemma wordchar_not_blank c : wordchar c = true -> is_in whitespace c = false.
Proof. unfold wordchar. by destruct (is_in whitespace c). Qed.
Lemma wordchar_not_symbol c : wordchar c = true -> is_in symbols c = false.
Proof. unfold wordchar. destruct (is_in whitespace c), (is_in symbols c); done. Qed.

(** The text at a token: what is left once blanks are skipped. *)
Definition body (toks : list tok) (l : list Z) : Prop :=
  match toks with
  | [] => l = []
  | TW w :: toks' => exists rest, l = w ++ rest /\ w <> [] /\ Forall (fun c => wordchar c = true) w /\
      stops wordchar rest /\ spells toks' rest
  | TS c :: toks' => exists rest, l = [c] ++ rest /\ is_in symbols c = true /\
      (c = ch ">" -> stops (Z.eqb (ch ">")) rest) /\ spells toks' rest
  | TApp :: toks' => exists rest, l = [ch ">"; ch ">"] ++ rest /\ spells toks' rest
  end.

Lemma body_spells toks l : body toks l -> spells toks l.
Proof.
  destruct toks as [|[w|c|] toks]; cbn [body].
  - intros ->. apply sp_nil. constructor.
  - intros (rest & -> & ? & ? & ? & ?). apply (sp_word []); [constructor|done..].
  - intros (rest & -> & ? & ? & ?). apply (sp_sym []); [constructor|done..].
  - intros (rest & -> & ?). apply (sp_app []); [constructor|done..].
Qed.

Lemma body_stops toks l : body toks l -> stops (is_in whitespace) l.
Proof.
  destruct toks as [|[w|c|] toks]; cbn [body].
  - by intros ->.
  - intros (rest & -> & Hne & Hw & _). destruct Hw as [|c w Hc Hw]; [done|]. cbn. by apply wordchar_not_blank.
  - intros (rest & -> & ? & _). cbn. by apply symbol_not_blank.
  - by intros (rest & -> & _).
Qed.

Lemma spells_body toks l : spells toks l -> exists ws l', l = ws ++ l' /\ blanks ws /\ body toks l'.
Proof.
  destruct 1 as [ws H|ws w rest toks Hb ? ? ? ?|ws c rest toks Hb ? ? ?|ws rest toks Hb ?]; exists ws.
  - exists []. by rewrite app_nil_r.
  - exists (w ++ rest). split; [done|]. split; [done|]. by exists rest.
  - exists ([c] ++ rest). split; [done|]. split; [done|]. by exists rest.
  - exists ([ch ">"; ch ">"] ++ rest). split; [done|]. split; [done|]. by exists rest.
Qed.

Section Positions.
Context (text : list Z) (Hnul : nonul text).

(** [l] is what is left of the text at position [s]. *)
Definition left (s : nat) (l : list Z) : Prop := drop s text = l /\ (s <= length text)%nat.

Lemma left_length s l : left s l -> (s + length l = length text)%nat.
Proof. intros [<- H]. rewrite length_drop. lia. Qed.
Lemma left_cat s l : left s l -> cat text s = cat l 0.
Proof. intros [<- H]. unfold cat. by rewrite lookup_drop, Nat.add_0_r. Qed.
Lemma left_app s a b : left s (a ++ b) -> left (s + length a) b.
Proof.
  intros H. pose proof (left_length _ _ H) as Hl. rewrite length_app in Hl. destruct H as [H1 H2].
  split; [|lia]. rewrite <- drop_drop, H1. apply drop_app_length.
Qed.
Lemma left_nul s l : left s l -> nonul l.
Proof. intros [<- _]. by apply Forall_drop. Qed.

(** Where a scan ends. *)
Lemma scan_left test s ws rest n :
  left s (ws ++ rest) -> Forall (fun c => test c = true) ws -> stops test rest ->
  (length text - s <= n)%nat -> scan text test n s = (s + length ws)%nat.
Proof using Type.
  intros Hp Hw Hr. revert s n Hp. induction Hw as [|c ws Hc Hw IH]; intros s n Hp Hn.
  - cbn [length]. rewrite Nat.add_0_r. destruct n as [|n]; [done|]. cbn [scan].
    pose proof (left_length _ _ Hp) as Hl. pose proof (left_cat _ _ Hp) as Hc. cbn in Hl, Hc.
    destruct rest as [|c rest]; [by rewrite (proj2 (Nat.ltb_ge _ _)) by (cbn in Hl; lia)|].
    rewrite Hc. cbn in Hr |- *. rewrite Hr. by rewrite andb_false_r.
  - pose proof (left_length _ _ Hp) as Hl. pose proof (left_cat _ _ Hp) as Hcc. cbn in Hl, Hcc.
    destruct n as [|n]; [lia|]. cbn [scan]. rewrite (proj2 (Nat.ltb_lt _ _)) by lia. rewrite Hcc, Hc. cbn [andb].
    rewrite (IH (S s)); [cbn; lia| |lia]. apply (left_app s [c]) in Hp. by rewrite Nat.add_1_r in Hp.
Qed.

Lemma skip_left s ws rest :
  left s (ws ++ rest) -> blanks ws -> stops (is_in whitespace) rest -> skip_blanks text s = (s + length ws)%nat.
Proof using Type. intros. by eapply scan_left. Qed.

(** Skipping blanks. *)
Lemma skip_tok s l toks :
  left s l -> spells toks l ->
  exists l', left (skip_blanks text s) l' /\ body toks l' /\ (s <= skip_blanks text s)%nat.
Proof using Type.
  intros Hp Hs. apply spells_body in Hs as (ws & l' & -> & Hb & Hbody).
  exists l'. rewrite (skip_left s ws l' Hp Hb (body_stops _ _ Hbody)).
  split; [by apply left_app|]. split; [done|lia].
Qed.

(** [gettoken] at a word: the word's start and end. *)
Lemma gettoken_word s l w toks :
  left s l -> spells (TW w :: toks) l ->
  exists q rest s' l', gettoken text s = (ch "a", q, (q + length w)%nat, s') /\
    left q (w ++ rest) /\ w <> [] /\ Forall (fun c => wordchar c = true) w /\ stops wordchar rest /\
    left s' l' /\ spells toks l' /\ (s < s')%nat.
Proof using Hnul.
  intros Hp Hs. destruct (skip_tok s l _ Hp Hs) as (l0 & Hp0 & (rest & -> & Hne & Hw & Hst & Ht) & Hle).
  unfold gettoken. cbv zeta. set (q := skip_blanks text s) in *.
  assert (scan text (fun c => negb (is_in whitespace c) && negb (is_in symbols c)) (length text - q) q =
    (q + length w)%nat) as Escan by (eapply (scan_left wordchar); done).
  pose proof (left_app _ _ _ Hp0) as Hp1. destruct (skip_tok _ _ _ Hp1 Ht) as (l' & Hp' & Hb' & Hle').
  exists q, rest, (skip_blanks text (q + length w)), l'.
  assert (cat text q <> 0 /\ is_in symbols (cat text q) = false) as [Hc0 Hcs].
  { rewrite (left_cat _ _ Hp0). destruct Hw as [|c w Hc Hw]; [done|]. cbn. apply left_nul in Hp0.
    apply Forall_cons in Hp0 as [? _]. unfold id. split; [lia|by apply wordchar_not_symbol]. }
  assert (forall x, is_in symbols x = true -> (cat text q =? x) = false) as Hx
    by (intros x Hx; apply Z.eqb_neq; congruence).
  rewrite (proj2 (Z.eqb_neq _ _) Hc0), !Hx by done. cbn [orb]. rewrite Escan.
  split; [done|]. split_and!; try done; [by apply body_spells|]. destruct w; [done|cbn in *; lia].
Qed.

Lemma cat_head l : cat l 0 = default 0 (head l).
Proof using Type. by destruct l. Qed.

(** At a symbol. *)
Lemma gettoken_symbol s l t toks :
  left s l -> spells (t :: toks) l -> (if t is TW _ then False else True) ->
  exists q eq s' l', gettoken text s = (tok_code t, q, eq, s') /\
    left s' l' /\ spells toks l' /\ (s < s')%nat /\ tok_code t <> ch "a" /\ tok_code t <> 0.
Proof using Type.
  intros Hp Hs Ht. destruct (skip_tok s l _ Hp Hs) as (l0 & Hp0 & Hb & Hle).
  unfold gettoken. cbv zeta. set (q := skip_blanks text s) in *.
  pose proof (left_cat _ _ Hp0) as Hc. destruct t as [w|c|]; [done|..]; cbn [body tok_code] in *.
  - destruct Hb as (rest & -> & Hsym & Hgt & Hr). pose proof (left_app _ _ _ Hp0) as Hp1. cbn in Hp1, Hc.
    rewrite Nat.add_1_r in Hp1. destruct (skip_tok _ _ _ Hp1 Hr) as (l' & Hp' & Hb' & Hle').
    exists q, (S q), (skip_blanks text (S q)), l'.
    split; [|split_and!; [done|by apply body_spells|lia|by intros ->|by apply symbol_nonzero]].
    rewrite Hc. unfold id. rewrite (proj2 (Z.eqb_neq _ _) (symbol_nonzero c Hsym)).
    destruct (_ || _ || _ || _ || _ || _) eqn:Eo; [done|].
    assert (c = ch ">") as ->.
    { rewrite is_in_spec in Hsym. revert Hsym Eo. unfold symbols. cbn [chars]. rewrite !elem_of_cons, elem_of_nil.
      intros H. repeat destruct H as [-> | H]; by vm_compute. }
    rewrite Z.eqb_refl, (left_cat _ _ Hp1), cat_head. specialize (Hgt eq_refl).
    destruct rest as [|d rest]; [done|]. cbn in Hgt |- *. unfold id. by rewrite Z.eqb_sym, Hgt.
  - destruct Hb as (rest & -> & Hr). pose proof (left_app _ _ _ Hp0) as Hp1.
    pose proof (left_app _ [ch ">"] _ Hp0) as Hp2. cbn in Hp1, Hp2.
    replace (q + 2)%nat with (S (S q)) in Hp1 by lia. rewrite Nat.add_1_r in Hp2.
    destruct (skip_tok _ _ _ Hp1 Hr) as (l' & Hp' & Hb' & Hle').
    exists q, (S (S q)), (skip_blanks text (S (S q))), l'.
    split; [|split_and!; [done|by apply body_spells|lia|done|done]].
    rewrite Hc, (left_cat _ _ Hp2). done.
Qed.

(** At the end. *)
Lemma gettoken_end s l :
  left s l -> spells [] l -> gettoken text s = (0, length text, length text, length text).
Proof using Type.
  intros Hp Hs. destruct (skip_tok s l _ Hp Hs) as (l0 & Hp0 & Hb & Hle). cbn in Hb. subst l0.
  pose proof (left_length _ _ Hp0) as Hl. cbn in Hl. rewrite Nat.add_0_r in Hl.
  unfold gettoken. cbv zeta. rewrite (left_cat _ _ Hp0). cbn. rewrite Hl.
  assert (skip_blanks text (length text) = length text) as ->; [|done].
  unfold skip_blanks. by rewrite Nat.sub_diag.
Qed.

(** [peek] for some of the symbols. *)
Lemma peek_tok s l toks (set : string) :
  left s l -> spells toks l -> Forall (fun c => is_in symbols c = true) (chars set) ->
  exists s' l', peek text s set = (match first_sym toks with Some c => is_in (chars set) c | None => false end, s') /\
    left s' l' /\ spells toks l' /\ (s <= s')%nat.
Proof using Hnul.
  intros Hp Hs Hset. destruct (skip_tok s l _ Hp Hs) as (l' & Hp' & Hb & Hle).
  exists (skip_blanks text s), l'. split; [|split_and!; [done|by apply body_spells|done]].
  unfold peek. f_equal. rewrite (left_cat _ _ Hp').
  destruct toks as [|[w|c|] toks]; cbn [body first_sym] in *.
  - by subst l'.
  - destruct Hb as (rest & -> & Hne & Hw & _). destruct Hw as [|c w Hc Hw]; [done|]. cbn. unfold id.
    apply left_nul in Hp'. apply Forall_cons in Hp' as [Hc0 _]. rewrite (proj2 (Z.eqb_neq c 0)) by lia. cbn [negb andb].
    destruct (is_in (chars set) c) eqn:E; [|done]. rewrite is_in_spec in E.
    rewrite Forall_forall in Hset. apply Hset in E. apply wordchar_not_symbol in Hc. congruence.
  - destruct Hb as (rest & -> & Hsym & _). cbn. unfold id.
    by rewrite (proj2 (Z.eqb_neq _ _) (symbol_nonzero c Hsym)).
  - by destruct Hb as (rest & -> & _).
Qed.

(** Every text has tokens. *)
Lemma spells_total l : nonul l -> exists toks, spells toks l.
Proof using Type.
  remember (length l) as n eqn:En. revert l En. induction n as [n IH] using lt_wf_ind. intros l En Hl.
  assert (exists ws l', l = ws ++ l' /\ blanks ws /\ stops (is_in whitespace) l') as (ws & l' & -> & Hb & Hst).
  { clear. induction l as [|c l (ws & l' & -> & Hb & Hst)]; [exists [], []; by repeat constructor|].
    destruct (is_in whitespace c) eqn:E; [|exists [], (c :: ws ++ l'); by repeat constructor].
    exists (c :: ws), l'. split; [done|]. split; [by constructor|done]. }
  apply Forall_app in Hl as [_ Hl]. rewrite length_app in En.
  destruct l' as [|c l']; [exists []; rewrite app_nil_r; by constructor|]. cbn in Hst, En.
  destruct (is_in symbols c) eqn:Es.
  - destruct (decide (c = ch ">" /\ head l' = Some (ch ">"))) as [[-> Hh]|Hno].
    + destruct l' as [|d l']; [done|]. injection Hh as ->.
      destruct (IH (length l') ltac:(cbn in En; lia) l' eq_refl) as [toks Ht]; [by do 2 apply Forall_cons in Hl as [_ Hl]|].
      exists (TApp :: toks). by apply sp_app.
    + destruct (IH (length l') ltac:(cbn in En; lia) l' eq_refl) as [toks Ht]; [by apply Forall_cons in Hl as [_ Hl]|].
      exists (TS c :: toks). apply sp_sym; [done..| |done]. intros ->. destruct l' as [|d l']; [done|]. cbn [stops head].
      apply Z.eqb_neq. intros E. apply Hno. split; [done|]. by rewrite <- E.
  - assert (exists w rest, l' = w ++ rest /\ Forall (fun c => wordchar c = true) w /\ stops wordchar rest)
      as (w & rest & -> & Hw & Hr).
    { clear. induction l' as [|d l' (w & rest & -> & Hw & Hr)]; [exists [], []; by repeat constructor|].
      destruct (wordchar d) eqn:E; [|exists [], (d :: w ++ rest); by repeat constructor].
      exists (d :: w), rest. split; [done|]. split; [by constructor|done]. }
    rewrite length_app in En. destruct (IH (length rest) ltac:(lia) rest eq_refl) as [toks Ht].
    { apply Forall_cons in Hl as [_ Hl]. by apply Forall_app in Hl as [_ ?]. }
    exists (TW (c :: w) :: toks). apply (sp_word ws (c :: w) rest); [done|done| |done|done].
    constructor; [|done]. unfold wordchar. by rewrite Hst, Es.
Qed.
End Positions.

(** * Commands and their words *)

Section Parsing.
Context (text : list Z) (Hnul : nonul text).
Local Abbreviation es := (length text).
Local Abbreviation left := (left text).

Definition word_in (q eq : nat) : list Z := take (eq - q) (drop q text).

(** The command with its words, each the characters from its start to its
    end. *)
Fixpoint view (c : cmd) : scmd :=
  match c with
  | ExecCmd argv => SExec ((fun '(q, eq) => word_in q eq) <$> argv)
  | RedirCmd c' q eq mode fd => SRedir (view c') (word_in q eq) mode fd
  | PipeCmd l r => SPipe (view l) (view r)
  | ListCmd l r => SList (view l) (view r)
  | BackCmd c' => SBack (view c')
  end.

(** The start and the end of a word of the text. *)
Definition range (q eq : nat) : Prop :=
  exists w rest, left q (w ++ rest) /\ eq = (q + length w)%nat /\
    Forall (fun c => wordchar c = true) w /\ stops wordchar rest.

Fixpoint good (c : cmd) : Prop :=
  match c with
  | ExecCmd argv => Forall (fun r => range (fst r) (snd r)) argv
  | RedirCmd c' q eq _ _ => good c' /\ range q eq
  | PipeCmd l r | ListCmd l r => good l /\ good r
  | BackCmd c' => good c'
  end.

Lemma word_at_left q w rest : left q (w ++ rest) -> word_in q (q + length w) = w.
Proof using Type.
  intros [H _]. unfold word_in. rewrite H. replace (q + length w - q)%nat with (length w) by lia.
  apply take_app_length.
Qed.

Lemma view_push c q eq : view (push_arg c q eq) = add_word (view c) (word_in q eq).
Proof using Type.
  induction c as [argv|c IH f ef mode fd| | |]; cbn; [|by rewrite IH|done..].
  by rewrite fmap_app.
Qed.
Lemma good_push c q eq : good c -> range q eq -> good (push_arg c q eq).
Proof using Type.
  intros Hc Hr. induction c as [argv|c IH f ef mode fd| | |]; cbn in *; try done.
  - apply Forall_app. split; [done|]. by rewrite Forall_singleton.
  - destruct Hc as [? ?]. auto.
Qed.

(** A parse that goes on at the tokens [more]. *)
Definition goes (r : presult cmd) (s : nat) (more : list tok) (P : cmd -> Prop) : Prop :=
  exists c s' l', r = POk c s' /\ left s' l' /\ spells more l' /\ (s <= s')%nat /\ P c.
Definition panics (r : presult cmd) : Prop := exists msg, r = PPanic msg.

Definition seen (set : string) (toks : list tok) : bool :=
  match first_sym toks with Some c => is_in (chars set) c | None => false end.

Lemma peek_seen s l toks (set : string) :
  left s l -> spells toks l -> Forall (fun c => is_in symbols c = true) (chars set) ->
  exists s' l', peek text s set = (seen set toks, s') /\ left s' l' /\ spells toks l' /\ (s <= s')%nat.
Proof using Hnul. apply peek_tok. exact Hnul. Qed.

Lemma seen_redir toks : seen "<>" toks = true -> exists op toks', toks = op_tok op :: toks'.
Proof using Type.
  unfold seen. destruct toks as [|[w|c|] toks]; cbn [first_sym]; [done|done| |intros _; by exists RAppend, toks].
  rewrite is_in_spec. cbn [chars]. rewrite !elem_of_cons, elem_of_nil. intros [->|[->|[]]].
  - by exists RIn, toks.
  - by exists ROut, toks.
Qed.
Lemma seen_op op toks : seen "<>" (op_tok op :: toks) = true.
Proof using Type. by destruct op. Qed.

(** A peek for one symbol other than [>]. *)
Lemma seen_one a toks :
  a <> Ascii.ascii_of_N 62 -> seen (String a "") toks = true -> exists toks', toks = TS (ch (String a "")) :: toks'.
Proof using Type.
  intros Ha. unfold seen. destruct toks as [|[w|c|] toks]; cbn [first_sym]; try done.
  - rewrite is_in_spec. cbn [chars]. rewrite elem_of_cons, elem_of_nil. intros [->|[]]. by exists toks.
  - rewrite is_in_spec. cbn [chars]. rewrite elem_of_cons, elem_of_nil. intros [E|[]]. exfalso. apply Ha.
    rewrite <- (Ascii.ascii_N_embedding a). apply N2Z.inj in E. by rewrite <- E.
Qed.

(** A redirection. *)
Lemma redir_step c q eq w rest op :
  left q (w ++ rest) -> Forall (fun c => wordchar c = true) w -> stops wordchar rest -> eq = (q + length w)%nat ->
  let tok := tok_code (op_tok op) in
  let c' := if tok =? ch "<" then RedirCmd c q eq O_RDONLY 0
        else if tok =? ch ">" then RedirCmd c q eq (Z.lor (Z.lor O_WRONLY O_CREATE) O_TRUNC) 1
        else if tok =? ch "+" then RedirCmd c q eq (Z.lor O_WRONLY O_CREATE) 1
        else c in
  view c' = redirected (view c) (op, w) /\ (good c -> good c').
Proof using Type.
  intros Hq Hw Hr ->. assert (range q (q + length w)) as Hrg by (by exists w, rest).
  pose proof (word_at_left _ _ _ Hq) as Ew. 
  destruct op; (split; [exact (f_equal (fun x => SRedir (view c) x _ _) Ew)|by intros Hg; split]).
Qed.

Lemma word_or_symbol t : (exists w, t = TW w) \/ (if t is TW _ then False else True).
Proof using Type. destruct t; eauto. Qed.

Ltac sets := repeat constructor.
(** [peeks set s' l']: what [peek] for [set] sees at the tokens at hand. *)
Ltac peeks set s' l' Hp' Hs' Hle :=
  match goal with Hp : left ?s ?l, Hs : spells ?toks ?l |- context [peek text ?s set] =>
    let H := fresh in
    destruct (peek_seen s l toks set Hp Hs) as (s' & l' & H & Hp' & Hs' & Hle); [by sets|];
    rewrite H; clear H; clear Hp Hs
  end.

Lemma redirs_sound fuel c s l toks :
  left s l -> spells toks l -> (es - s < fuel)%nat ->
  panics (parseredirs text fuel c s) \/
  exists rs more, toks = show_redirs rs ++ more /\
    goes (parseredirs text fuel c s) s more (fun c' => view c' = foldl redirected (view c) rs /\ (good c -> good c')).
Proof using Hnul.
  revert c s l toks. induction fuel as [|fuel IH]; intros c s l toks Hp Hs Hf; [lia|]. cbn [parseredirs].
  peeks "<>" s1 l1 Hp1 Hs1 Hle1. destruct (seen "<>" toks) eqn:Eseen; cbn [negb].
  2: { right. exists [], toks. split; [done|]. exists c, s1, l1. split_and!; done. }
  apply seen_redir in Eseen as (op & toks1 & ->).
  destruct (gettoken_symbol text s1 l1 _ _ Hp1 Hs1) as (q0 & eq0 & s2 & l2 & -> & Hp2 & Hs2 & Hlt & _); [by destruct op|].
  pose proof (left_length _ _ _ Hp2).
  destruct toks1 as [|t toks2].
  { left. rewrite (gettoken_end text s2 l2 Hp2 Hs2). by eexists. }
  destruct (word_or_symbol t) as [[w ->]|Hnw].
  - destruct (gettoken_word text Hnul s2 l2 w toks2 Hp2 Hs2)
      as (q & rest & s3 & l3 & -> & Hq & Hne & Hw & Hr & Hp3 & Hs3 & Hlt3).
    rewrite Z.eqb_refl. cbn [negb].
    match goal with |- context [parseredirs text fuel ?c' s3] => set (c1 := c') end.
    destruct (redir_step c q _ w rest op Hq Hw Hr eq_refl) as [Hv Hg]. fold c1 in Hv, Hg.
    destruct (IH c1 s3 l3 toks2 Hp3 Hs3) as [Hpan|(rs & more & -> & c2 & s4 & l4 & E4 & Hp4 & Hs4 & Hle4 & Hv4 & Hg4)];
      [lia|by left|right].
    exists ((op, w) :: rs), more. split; [done|]. exists c2, s4, l4. split_and!; [done..|lia| |auto].
    by rewrite Hv4, Hv.
  - left. destruct (gettoken_symbol text s2 l2 t toks2 Hp2 Hs2) as (q & eq & s3 & l3 & -> & _ & _ & _ & Hna & _); [done|].
    rewrite (proj2 (Z.eqb_neq _ _) Hna). by eexists.
Qed.

Lemma redirs_complete fuel c s l rs more :
  left s l -> spells (show_redirs rs ++ more) l -> seen "<>" more = false ->
  parseredirs text fuel c s = PFuel \/
  goes (parseredirs text fuel c s) s more (fun c' => view c' = foldl redirected (view c) rs /\ (good c -> good c')).
Proof using Hnul.
  revert c s l rs. induction fuel as [|fuel IH]; intros c s l rs Hp Hs Hm; [by left|]. cbn [parseredirs].
  peeks "<>" s1 l1 Hp1 Hs1 Hle1. destruct rs as [|[op w] rs].
  { cbn [show_redirs fmap list_fmap concat app] in *. rewrite Hm. cbn [negb]. right. exists c, s1, l1. by split_and!. }
  change (show_redirs ((op, w) :: rs) ++ more) with (op_tok op :: TW w :: (show_redirs rs ++ more)) in *.
  rewrite seen_op. cbn [negb].
  destruct (gettoken_symbol text s1 l1 _ _ Hp1 Hs1) as (q0 & eq0 & s2 & l2 & -> & Hp2 & Hs2 & Hlt & _); [by destruct op|].
  destruct (gettoken_word text Hnul s2 l2 w _ Hp2 Hs2)
    as (q & rest & s3 & l3 & -> & Hq & Hne & Hw & Hr & Hp3 & Hs3 & Hlt3).
  rewrite Z.eqb_refl. cbn [negb].
  match goal with |- context [parseredirs text fuel ?c' s3] => set (c1 := c') end.
  destruct (redir_step c q _ w rest op Hq Hw Hr eq_refl) as [Hv Hg]. fold c1 in Hv, Hg.
  destruct (IH c1 s3 l3 rs Hp3 Hs3 Hm) as [?|(c2 & s4 & l4 & E4 & Hp4 & Hs4 & Hle4 & Hv4 & Hg4)]; [by left|right].
  exists c2, s4, l4. split_and!; [done..|lia| |auto]. by rewrite Hv4, Hv.
Qed.

(** ** Simple commands *)

Lemma split_items items :
  exists rs items', items = (IRedir <$> rs) ++ items' /\ (if items' is IRedir _ :: _ then False else True).
Proof using Type.
  induction items as [|[w|r] items (rs & items' & -> & H)]; [by exists [], []|by eexists [], _|].
  by exists (r :: rs), items'.
Qed.
Lemma show_items_split rs items : show_items ((IRedir <$> rs) ++ items) = show_redirs rs ++ show_items items.
Proof using Type.
  unfold show_items, show_redirs. rewrite fmap_app, concat_app, <- list_fmap_compose. done.
Qed.
Lemma words_split rs items : words_of ((IRedir <$> rs) ++ items) = words_of items.
Proof using Type. by induction rs. Qed.
Lemma add_items_split c rs items :
  foldl add_item c ((IRedir <$> rs) ++ items) = foldl add_item (foldl redirected c rs) items.
Proof using Type. rewrite foldl_app. f_equal. revert c. induction rs as [|r rs IH]; intros c; [done|]. apply IH. Qed.

(** What may follow a simple command. *)
Definition ends_exec (more : list tok) : Prop := more = [] \/ seen "|)&;" more = true.

Lemma ends_exec_redir more : ends_exec more -> seen "<>" more = false.
Proof using Type.
  intros [->|H]; [done|]. revert H. unfold seen. destruct (first_sym more) as [c|]; [|done].
  rewrite is_in_spec. cbn [chars]. rewrite !elem_of_cons, elem_of_nil.
  intros H. repeat destruct H as [-> | H]; done.
Qed.

Lemma word_step c q w rest :
  left q (w ++ rest) -> Forall (fun c => wordchar c = true) w -> stops wordchar rest ->
  view (push_arg c q (q + length w)) = add_word (view c) w /\ (good c -> good (push_arg c q (q + length w))).
Proof using Type.
  intros Hq Hw Hr. split.
  - by rewrite view_push, (word_at_left _ _ _ Hq).
  - intros Hg. apply good_push; [done|]. by exists w, rest.
Qed.

Lemma exec_loop_sound fuel c argc s l toks :
  left s l -> spells toks l -> (es - s < fuel)%nat -> (argc < MAXARGS)%nat ->
  panics (exec_loop text fuel c argc s) \/
  exists items more, toks = show_items items ++ more /\ (argc + words_of items < MAXARGS)%nat /\
    goes (exec_loop text fuel c argc s) s more (fun c' => view c' = foldl add_item (view c) items /\ (good c -> good c')).
Proof using Hnul.
  revert c argc s l toks. induction fuel as [|fuel IH]; intros c argc s l toks Hp Hs Hf Ha; [lia|]. cbn [exec_loop].
  peeks "|)&;" s1 l1 Hp1 Hs1 Hle1. destruct (seen "|)&;" toks) eqn:Eseen.
  { right. exists [], toks. split; [done|]. split; [cbn; lia|]. exists c, s1, l1. by split_and!. }
  pose proof (left_length _ _ _ Hp1).
  destruct toks as [|t toks1].
  { rewrite (gettoken_end text s1 l1 Hp1 Hs1). right. exists [], []. split; [done|]. split; [cbn; lia|].
    exists c, es, []. split_and!; [done| |by repeat constructor|lia|done|done]. split; [by apply drop_all|lia]. }
  destruct (word_or_symbol t) as [[w ->]|Hnw].
  2: { left. destruct (gettoken_symbol text s1 l1 t toks1 Hp1 Hs1) as (q & eq & s3 & l3 & -> & _ & _ & _ & Hna & Hn0); [done|].
       rewrite (proj2 (Z.eqb_neq _ _) Hn0), (proj2 (Z.eqb_neq _ _) Hna). by eexists. }
  destruct (gettoken_word text Hnul s1 l1 w _ Hp1 Hs1)
    as (q & rest & s2 & l2 & -> & Hq & Hne & Hw & Hr & Hp2 & Hs2 & Hlt2).
  cbv zeta. change (ch "a" =? 0) with false. rewrite Z.eqb_refl. cbn [negb]. cbv iota.
  destruct (word_step c q w rest Hq Hw Hr) as [Hv Hg]. set (c1 := push_arg c q (q + length w)) in *.
  destruct (Nat.leb_spec MAXARGS (S argc)); [left; by eexists|].
  destruct (redirs_sound (S es) c1 s2 l2 toks1 Hp2 Hs2 ltac:(lia))
    as [[msg ->]|(rs & more & -> & c2 & s3 & l3 & -> & Hp3 & Hs3 & Hle3 & Hv3 & Hg3)]; [left; by eexists|].
  cbn [pbind]. pose proof (left_length _ _ _ Hp2).
  destruct (IH c2 (S argc) s3 l3 more Hp3 Hs3 ltac:(lia) ltac:(lia))
    as [?|(items & more' & -> & Hn & c3 & s4 & l4 & -> & Hp4 & Hs4 & Hle4 & Hv4 & Hg4)]; [by left|right].
  exists (IWord w :: (IRedir <$> rs) ++ items), more'. split.
  { change (show_items (IWord w :: (IRedir <$> rs) ++ items)) with (TW w :: show_items ((IRedir <$> rs) ++ items)).
    rewrite show_items_split. cbn [app]. by rewrite <- app_assoc. }
  split; [cbn [words_of]; rewrite words_split; lia|].
  exists c3, s4, l4. split_and!; [done..|lia| |auto].
  cbn [foldl add_item]. rewrite add_items_split, Hv4, Hv3, Hv. done.
Qed.

Lemma exec_loop_complete fuel c argc s l items more :
  left s l -> spells (show_items items ++ more) l -> ends_exec more ->
  (if items is IRedir _ :: _ then False else True) -> (argc + words_of items < MAXARGS)%nat ->
  exec_loop text fuel c argc s = PFuel \/
  goes (exec_loop text fuel c argc s) s more (fun c' => view c' = foldl add_item (view c) items /\ (good c -> good c')).
Proof using Hnul.
  revert c argc s l items. induction fuel as [|fuel IH]; intros c argc s l items Hp Hs Hm Hi Ha; [by left|]. cbn [exec_loop].
  peeks "|)&;" s1 l1 Hp1 Hs1 Hle1. pose proof (left_length _ _ _ Hp1).
  destruct items as [|[w|r] items]; [|clear Hi|done].
  { cbn [show_items fmap list_fmap concat app] in *. right. destruct Hm as [-> | Hm].
    - cbn [seen first_sym]. rewrite (gettoken_end text s1 l1 Hp1 Hs1).
      exists c, es, []. split_and!; [done| |by repeat constructor|lia|done|done]. split; [by apply drop_all|lia].
    - rewrite Hm. exists c, s1, l1. by split_and!. }
  change (show_items (IWord w :: items) ++ more) with (TW w :: (show_items items ++ more)) in *.
  cbn [seen first_sym].
  destruct (gettoken_word text Hnul s1 l1 w _ Hp1 Hs1)
    as (q & rest & s2 & l2 & -> & Hq & Hne & Hw & Hr & Hp2 & Hs2 & Hlt2).
  cbv zeta. change (ch "a" =? 0) with false. rewrite Z.eqb_refl. cbn [negb]. cbv iota.
  destruct (word_step c q w rest Hq Hw Hr) as [Hv Hg]. set (c1 := push_arg c q (q + length w)) in *.
  cbn [words_of] in Ha. destruct (Nat.leb_spec MAXARGS (S argc)); [lia|].
  destruct (split_items items) as (rs & items' & -> & Hi').
  rewrite show_items_split, <- app_assoc in Hs2. rewrite words_split in Ha.
  destruct (redirs_complete (S es) c1 s2 l2 rs (show_items items' ++ more) Hp2 Hs2)
    as [-> | (c2 & s3 & l3 & -> & Hp3 & Hs3 & Hle3 & Hv3 & Hg3)]; [|by left|].
  { destruct items' as [|[w'|r'] items']; [by apply ends_exec_redir|done..]. }
  cbn [pbind].
  destruct (IH c2 (S argc) s3 l3 items' Hp3 Hs3 Hm Hi' ltac:(lia))
    as [?|(c3 & s4 & l4 & -> & Hp4 & Hs4 & Hle4 & Hv4 & Hg4)]; [by left|right].
  exists c3, s4, l4. split_and!; [done..|lia| |auto].
  cbn [foldl add_item]. rewrite add_items_split, Hv4, Hv3, Hv. done.
Qed.

(** ** The rest of the grammar *)

Lemma back_loop_sound fuel c s l toks :
  left s l -> spells toks l -> (es - s < fuel)%nat ->
  exists n more, toks = replicate n (TS (ch "&")) ++ more /\
    goes (back_loop text fuel c s) s more (fun c' => view c' = Nat.iter n SBack (view c) /\ (good c -> good c')).
Proof using Hnul.
  revert c s l toks. induction fuel as [|fuel IH]; intros c s l toks Hp Hs Hf; [lia|]. cbn [back_loop].
  peeks "&" s1 l1 Hp1 Hs1 Hle1. destruct (seen "&" toks) eqn:Eseen; cbn [negb].
  2: { exists O, toks. split; [done|]. exists c, s1, l1. by split_and!. }
  apply seen_one in Eseen as [toks1 ->]; [|done].
  destruct (gettoken_symbol text s1 l1 _ _ Hp1 Hs1) as (q & eq & s2 & l2 & -> & Hp2 & Hs2 & Hlt & _); [done|].
  pose proof (left_length _ _ _ Hp2).
  destruct (IH (BackCmd c) s2 l2 toks1 Hp2 Hs2) as (n & more & -> & c' & s3 & l3 & -> & Hp3 & Hs3 & Hle3 & Hv & Hg); [lia|].
  exists (S n), more. split; [done|]. exists c', s3, l3. split_and!; [done..|lia| |auto].
  rewrite Hv. by rewrite Nat.iter_succ_r.
Qed.

Lemma back_loop_complete fuel c s l n more :
  left s l -> spells (replicate n (TS (ch "&")) ++ more) l -> seen "&" more = false ->
  back_loop text fuel c s = PFuel \/
  goes (back_loop text fuel c s) s more (fun c' => view c' = Nat.iter n SBack (view c) /\ (good c -> good c')).
Proof using Hnul.
  revert c s l n. induction fuel as [|fuel IH]; intros c s l n Hp Hs Hm; [by left|]. cbn [back_loop].
  peeks "&" s1 l1 Hp1 Hs1 Hle1. destruct n as [|n]; cbn [replicate app] in *.
  { rewrite Hm. right. exists c, s1, l1. by split_and!. }
  change (seen "&" _) with true. cbn [negb].
  destruct (gettoken_symbol text s1 l1 _ _ Hp1 Hs1) as (q & eq & s2 & l2 & -> & Hp2 & Hs2 & Hlt & _); [done|].
  destruct (IH (BackCmd c) s2 l2 n Hp2 Hs2 Hm) as [?|(c' & s3 & l3 & -> & Hp3 & Hs3 & Hle3 & Hv & Hg)]; [by left|right].
  exists c', s3, l3. split_and!; [done..|lia| |auto]. rewrite Hv. by rewrite Nat.iter_succ_r.
Qed.

(** A parse of some part of the grammar: it panics, or reads a phrase and
    builds what it stands for. *)
Definition sound {G} (run : presult cmd) (s : nat) (toks : list tok) (show : G -> list tok) (fit : G -> Prop)
    (mean : G -> scmd) : Prop :=
  panics run \/ exists g more, toks = show g ++ more /\ fit g /\
    goes run s more (fun c => view c = mean g /\ good c).

Definition line_sound (fuel : nat) : Prop := forall s l toks,
  left s l -> spells toks l -> (4 * (es - s) + 4 <= fuel)%nat ->
  sound (parseline text fuel s) s toks show_line fit_line mean_line.
Definition pipe_sound (fuel : nat) : Prop := forall s l toks,
  left s l -> spells toks l -> (4 * (es - s) + 3 <= fuel)%nat ->
  sound (parsepipe text fuel s) s toks show_pipe fit_pipe mean_pipe.
Definition exec_sound (fuel : nat) : Prop := forall s l toks,
  left s l -> spells toks l -> (4 * (es - s) + 2 <= fuel)%nat ->
  sound (parseexec text fuel s) s toks show_exec fit_exec mean_exec.
Definition block_sound (fuel : nat) : Prop := forall s l toks,
  left s l -> spells toks l -> (4 * (es - s) + 1 <= fuel)%nat ->
  sound (parseblock text fuel s) s toks show_exec fit_exec mean_exec.

Lemma line_step fuel : pipe_sound fuel -> line_sound fuel -> line_sound (S fuel).
Proof using Hnul.
  intros IHp IHl s l toks Hp Hs Hf.
  cbn [parseline].
  destruct (IHp s l toks Hp Hs ltac:(lia)) as [[msg ->]|(p & m1 & -> & Fp & c1 & s1 & l1 & -> & Hp1 & Hs1 & Hle1 & Hv1 & Hg1)];
    [left; by eexists|]. cbn [pbind].
  destruct (back_loop_sound (S es) c1 s1 l1 m1 Hp1 Hs1 ltac:(lia))
    as (n & m2 & -> & c2 & s2 & l2 & -> & Hp2 & Hs2 & Hle2 & Hv2 & Hg2). cbn [pbind].
  peeks ";" s3 l3 Hp3 Hs3 Hle3. destruct (seen ";" m2) eqn:Eseen.
  2: { right. exists (GLine p n), m2. split; [cbn; by rewrite <- app_assoc|]. split; [done|].
       exists c2, s3, l3. split_and!; [done..|lia| |auto]. cbn. by rewrite Hv2, Hv1. }
  apply seen_one in Eseen as [m3 ->]; [|done].
  destruct (gettoken_symbol text s3 l3 _ _ Hp3 Hs3) as (q & eq & s4 & l4 & -> & Hp4 & Hs4 & Hlt & _); [done|].
  pose proof (left_length _ _ _ Hp4).
  destruct (IHl s4 l4 m3 Hp4 Hs4 ltac:(lia)) as [[msg ->]|(r & m4 & -> & Fr & c5 & s5 & l5 & -> & Hp5 & Hs5 & Hle5 & Hv5 & Hg5)];
    [left; by eexists|right]. cbn [pbind].
  exists (GSeq p n r), m4. split; [cbn; by rewrite <- !app_assoc|]. split; [done|].
  exists (ListCmd c2 c5), s5, l5. split_and!; [done..|lia| |cbn; auto]. cbn. by rewrite Hv2, Hv1, Hv5.
Qed.

Lemma pipe_step fuel : exec_sound fuel -> pipe_sound fuel -> pipe_sound (S fuel).
Proof using Hnul.
  intros IHe IHp s l toks Hp Hs Hf.
  cbn [parsepipe].
  destruct (IHe s l toks Hp Hs ltac:(lia)) as [[msg ->]|(e & m1 & -> & Fe & c1 & s1 & l1 & -> & Hp1 & Hs1 & Hle1 & Hv1 & Hg1)];
    [left; by eexists|]. cbn [pbind].
  peeks "|" s3 l3 Hp3 Hs3 Hle3. destruct (seen "|" m1) eqn:Eseen.
  2: { right. exists (GOne e), m1. split; [done|]. split; [done|].
       exists c1, s3, l3. split_and!; [done..|lia|done|done]. }
  apply seen_one in Eseen as [m3 ->]; [|done].
  destruct (gettoken_symbol text s3 l3 _ _ Hp3 Hs3) as (q & eq & s4 & l4 & -> & Hp4 & Hs4 & Hlt & _); [done|].
  pose proof (left_length _ _ _ Hp4).
  destruct (IHp s4 l4 m3 Hp4 Hs4 ltac:(lia)) as [[msg ->]|(r & m4 & -> & Fr & c5 & s5 & l5 & -> & Hp5 & Hs5 & Hle5 & Hv5 & Hg5)];
    [left; by eexists|right]. cbn [pbind].
  exists (GBar e r), m4. split; [cbn; by rewrite <- !app_assoc|]. split; [done|].
  exists (PipeCmd c1 c5), s5, l5. split_and!; [done..|lia| |cbn; auto]. cbn. by rewrite Hv1, Hv5.
Qed.

Lemma exec_step fuel : block_sound fuel -> exec_sound (S fuel).
Proof using Hnul.
  intros IHb s l toks Hp Hs Hf.
  cbn [parseexec]. peeks "(" s1 l1 Hp1 Hs1 Hle1. destruct (seen "(" toks) eqn:Eseen.
  { destruct (IHb s1 l1 toks Hp1 Hs1 ltac:(lia)) as [?|(g & m & -> & Fg & c2 & s2 & l2 & E & Hp2 & Hs2 & Hle2 & H2)]; [by left|right].
    exists g, m. split; [done|]. split; [done|]. exists c2, s2, l2. split; [done|]. split; [done|]. split; [done|].
    split; [lia|done]. }
  destruct (redirs_sound (S es) (ExecCmd []) s1 l1 toks Hp1 Hs1 ltac:(lia))
    as [[msg ->]|(rs & m1 & -> & c2 & s2 & l2 & -> & Hp2 & Hs2 & Hle2 & Hv2 & Hg2)]; [left; by eexists|]. cbn [pbind].
  destruct (exec_loop_sound (S es) c2 0 s2 l2 m1 Hp2 Hs2 ltac:(lia) ltac:(unfold MAXARGS; lia))
    as [?|(items & m2 & -> & Hn & c3 & s3 & l3 & E & Hp3 & Hs3 & Hle3 & Hv3 & Hg3)]; [by left|right].
  exists (GSimple ((IRedir <$> rs) ++ items)), m2. split; [cbn [show_exec]; by rewrite show_items_split, <- app_assoc|].
  split; [cbn [fit_exec]; rewrite words_split; lia|].
  exists c3, s3, l3. split_and!; [done..|lia| |by apply Hg3, Hg2; constructor].
  cbn [mean_exec]. by rewrite add_items_split, Hv3, Hv2.
Qed.

Lemma block_step fuel : line_sound fuel -> block_sound (S fuel).
Proof using Hnul.
  intros IHl s l toks Hp Hs Hf.
  cbn [parseblock]. peeks "(" s1 l1 Hp1 Hs1 Hle1. destruct (seen "(" toks) eqn:Eseen; cbn [negb]; [|left; by eexists].
  apply seen_one in Eseen as [m1 ->]; [|done].
  destruct (gettoken_symbol text s1 l1 _ _ Hp1 Hs1) as (q & eq & s2 & l2 & -> & Hp2 & Hs2 & Hlt & _); [done|].
  pose proof (left_length _ _ _ Hp2).
  destruct (IHl s2 l2 m1 Hp2 Hs2 ltac:(lia)) as [[msg ->]|(g & m2 & -> & Fg & c3 & s3 & l3 & -> & Hp3 & Hs3 & Hle3 & Hv3 & Hg3)];
    [left; by eexists|]. cbn [pbind].
  peeks ")" s4 l4 Hp4 Hs4 Hle4. destruct (seen ")" m2) eqn:Eseen2; cbn [negb]; [|left; by eexists].
  apply seen_one in Eseen2 as [m3 ->]; [|done].
  destruct (gettoken_symbol text s4 l4 _ _ Hp4 Hs4) as (q' & eq' & s5 & l5 & -> & Hp5 & Hs5 & Hlt5 & _); [done|].
  destruct (redirs_sound (S es) c3 s5 l5 m3 Hp5 Hs5 ltac:(lia))
    as [?|(rs & m4 & -> & c6 & s6 & l6 & E & Hp6 & Hs6 & Hle6 & Hv6 & Hg6)]; [by left|right].
  exists (GBlock g rs), m4. split; [cbn; by rewrite <- !app_assoc|]. split; [done|].
  exists c6, s6, l6. split_and!; [done..|lia| |auto]. cbn. by rewrite Hv6, Hv3.
Qed.

Lemma parse_sound fuel : line_sound fuel /\ pipe_sound fuel /\ exec_sound fuel /\ block_sound fuel.
Proof using Hnul.
  induction fuel as [|fuel (IHl & IHp & IHe & IHb)].
  - split_and!; intros s l toks Hp Hs Hf; lia.
  - split_and!; [by apply line_step|by apply pipe_step|by apply exec_step|by apply block_step].
Qed.

(** What may follow. *)
Definition ends_with (set : string) (more : list tok) : Prop := more = [] \/ seen set more = true.

Lemma ends_incl (a b : string) more :
  ends_with a more -> (forall c, c ∈ chars a -> c ∈ chars b) -> ends_with b more.
Proof using Type.
  intros [->|H] Hab; [by left|right]. revert H. unfold seen. destruct (first_sym more) as [c|]; [|done].
  rewrite !is_in_spec. auto.
Qed.
Lemma ends_none (a b : string) more :
  ends_with a more -> (forall c, c ∈ chars a -> c ∉ chars b) -> seen b more = false.
Proof using Type.
  intros [->|H] Hab; [done|]. revert H. unfold seen. destruct (first_sym more) as [c|]; [|done].
  rewrite is_in_spec. intros Hc. destruct (is_in (chars b) c) eqn:E; [|done]. rewrite is_in_spec in E. by destruct (Hab c).
Qed.
Ltac by_chars := intros ?; cbn [chars]; rewrite ?elem_of_cons, ?elem_of_nil; cbn; lia.

Definition completes (run : nat -> nat -> presult cmd) (set : string) (toks : list tok) (mean : scmd) : Prop :=
  forall fuel s l more, left s l -> spells (toks ++ more) l -> ends_with set more ->
    run fuel s = PFuel \/ goes (run fuel s) s more (fun c => view c = mean /\ good c).

Lemma simple_complete items :
  (words_of items < MAXARGS)%nat ->
  completes (parseexec text) "|)&;" (show_items items) (foldl add_item (SExec []) items).
Proof using Hnul.
  intros Hn [|fuel] s l more Hp Hs Hm; [by left|]. cbn [parseexec]. peeks "(" s1 l1 Hp1 Hs1 Hle1.
  assert (seen "(" (show_items items ++ more) = false) as ->.
  { destruct items as [|[w|[[] f]] items]; [|done..]. eapply ends_none; [exact Hm|by_chars]. }
  destruct (split_items items) as (rs & items' & -> & Hi').
  rewrite show_items_split, <- app_assoc in Hs1. rewrite words_split in Hn.
  destruct (redirs_complete (S es) (ExecCmd []) s1 l1 rs (show_items items' ++ more) Hp1 Hs1)
    as [-> | (c2 & s2 & l2 & -> & Hp2 & Hs2 & Hle2 & Hv2 & Hg2)]; [|by left|].
  { destruct items' as [|[w'|r'] items']; [by apply ends_exec_redir|done..]. }
  cbn [pbind].
  destruct (exec_loop_complete (S es) c2 0 s2 l2 items' more Hp2 Hs2 Hm Hi' ltac:(lia))
    as [?|(c3 & s3 & l3 & E & Hp3 & Hs3 & Hle3 & Hv3 & Hg3)]; [by left|right].
  exists c3, s3, l3. split_and!; [done..|lia| |by apply Hg3, Hg2; constructor].
  by rewrite add_items_split, Hv3, Hv2.
Qed.

Lemma block_complete g rs :
  completes (parseline text) ")" (show_line g) (mean_line g) ->
  completes (parseexec text) "|)&;" (show_exec (GBlock g rs)) (mean_exec (GBlock g rs)).
Proof using Hnul.
  intros IH [|fuel] s l more Hp Hs Hm; [by left|]. cbn [parseexec show_exec app] in *. peeks "(" s1 l1 Hp1 Hs1 Hle1.
  change (seen "(" _) with true. cbv iota. destruct fuel as [|fuel]; [by left|]. cbn [parseblock].
  peeks "(" s2 l2 Hp2 Hs2 Hle2. change (seen "(" _) with true. cbn [negb].
  destruct (gettoken_symbol text s2 l2 _ _ Hp2 Hs2) as (q & eq & s3 & l3 & -> & Hp3 & Hs3 & Hlt & _); [done|].
  rewrite <- app_assoc in Hs3.
  destruct (IH fuel s3 l3 _ Hp3 Hs3) as [-> | (c4 & s4 & l4 & -> & Hp4 & Hs4 & Hle4 & Hv4 & Hg4)]; [by right|by left|].
  cbn [pbind app] in *. peeks ")" s5 l5 Hp5 Hs5 Hle5. change (seen ")" _) with true. cbn [negb].
  destruct (gettoken_symbol text s5 l5 _ _ Hp5 Hs5) as (q' & eq' & s6 & l6 & -> & Hp6 & Hs6 & Hlt6 & _); [done|].
  destruct (redirs_complete (S es) c4 s6 l6 rs more Hp6 Hs6)
    as [? | (c7 & s7 & l7 & E & Hp7 & Hs7 & Hle7 & Hv7 & Hg7)]; [by apply ends_exec_redir|by left|right].
  exists c7, s7, l7. split_and!; [done..|lia| |auto]. cbn. by rewrite Hv7, Hv4.
Qed.

Lemma bar_complete e p :
  completes (parseexec text) "|)&;" (show_exec e) (mean_exec e) ->
  completes (parsepipe text) ")&;" (show_pipe p) (mean_pipe p) ->
  completes (parsepipe text) ")&;" (show_pipe (GBar e p)) (mean_pipe (GBar e p)).
Proof using Hnul.
  intros IHe IHp [|fuel] s l more Hp Hs Hm; [by left|]. cbn [parsepipe show_pipe mean_pipe] in *.
  rewrite <- app_assoc in Hs.
  destruct (IHe fuel s l _ Hp Hs) as [-> | (c1 & s1 & l1 & -> & Hp1 & Hs1 & Hle1 & Hv1 & Hg1)]; [by right|by left|].
  cbn [pbind app] in *. peeks "|" s2 l2 Hp2 Hs2 Hle2. change (seen "|" _) with true. cbv iota.
  destruct (gettoken_symbol text s2 l2 _ _ Hp2 Hs2) as (q & eq & s3 & l3 & -> & Hp3 & Hs3 & Hlt & _); [done|].
  destruct (IHp fuel s3 l3 _ Hp3 Hs3 Hm) as [-> | (c4 & s4 & l4 & -> & Hp4 & Hs4 & Hle4 & Hv4 & Hg4)]; [by left|right].
  exists (PipeCmd c1 c4), s4, l4. split_and!; [done..|lia| |cbn; auto]. cbn. by rewrite Hv1, Hv4.
Qed.

Lemma one_complete e :
  completes (parseexec text) "|)&;" (show_exec e) (mean_exec e) ->
  completes (parsepipe text) ")&;" (show_pipe (GOne e)) (mean_pipe (GOne e)).
Proof using Hnul.
  intros IHe [|fuel] s l more Hp Hs Hm; [by left|]. cbn [parsepipe show_pipe mean_pipe] in *.
  destruct (IHe fuel s l _ Hp Hs) as [-> | (c1 & s1 & l1 & -> & Hp1 & Hs1 & Hle1 & Hv1 & Hg1)];
    [eapply ends_incl; [exact Hm|by_chars]|by left|right].
  cbn [pbind]. peeks "|" s2 l2 Hp2 Hs2 Hle2. rewrite (ends_none ")&;" "|" more Hm ltac:(by_chars)).
  exists c1, s2, l2. split_and!; [done..|lia|done|done].
Qed.

(** The [&]s after a pipeline. *)
Lemma amps_complete p n fuel s l more :
  completes (parsepipe text) ")&;" (show_pipe p) (mean_pipe p) ->
  left s l -> spells (show_pipe p ++ replicate n (TS (ch "&")) ++ more) l -> ends_with ");" more ->
  let run := plet c, s := parsepipe text fuel s in back_loop text (S es) c s in
  run = PFuel \/ goes run s more (fun c => view c = Nat.iter n SBack (mean_pipe p) /\ good c).
Proof using Hnul.
  intros IHp Hp Hs Hm run. unfold run.
  destruct (IHp fuel s l _ Hp Hs) as [-> | (c1 & s1 & l1 & -> & Hp1 & Hs1 & Hle1 & Hv1 & Hg1)]; [|by left|].
  { destruct n; [eapply ends_incl; [exact Hm|by_chars]|by right]. }
  cbn [pbind].
  destruct (back_loop_complete (S es) c1 s1 l1 n more Hp1 Hs1) as [-> | (c2 & s2 & l2 & -> & Hp2 & Hs2 & Hle2 & Hv2 & Hg2)];
    [eapply ends_none; [exact Hm|by_chars]|by left|right].
  exists c2, s2, l2. split_and!; [done..|lia|by rewrite Hv2, Hv1|auto].
Qed.

Lemma parseline_amps fuel s :
  parseline text (S fuel) s =
  (plet c, s := (plet c, s := parsepipe text fuel s in back_loop text (S es) c s) in
   let '(p, s) := peek text s ";" in
   if p then let '(_, _, _, s) := gettoken text s in
     plet r, s := parseline text fuel s in POk (ListCmd c r) s
   else POk c s).
Proof using Type. cbn [parseline]. by destruct (parsepipe text fuel s). Qed.

Lemma parse_complete :
  (forall e, fit_exec e -> completes (parseexec text) "|)&;" (show_exec e) (mean_exec e)) /\
  (forall p, fit_pipe p -> completes (parsepipe text) ")&;" (show_pipe p) (mean_pipe p)) /\
  (forall l, fit_line l -> completes (parseline text) ")" (show_line l) (mean_line l)).
Proof using Hnul.
  apply grammar_ind.
  - intros items Hn. by apply simple_complete.
  - intros l IH rs Hf. by apply block_complete, IH.
  - intros e IH Hf. by apply one_complete, IH.
  - intros e IHe p IHp [He Hp]. apply bar_complete; auto.
  - intros p IHp n Hf [|fuel] s l more Hl Hs Hm; [by left|]. rewrite parseline_amps. cbn [show_line] in Hs.
    rewrite <- app_assoc in Hs.
    destruct (amps_complete p n fuel s l more (IHp Hf) Hl Hs) as [-> | (c2 & s2 & l2 & -> & Hp2 & Hs2 & Hle2 & H2)];
      [eapply ends_incl; [exact Hm|by_chars]|by left|right].
    cbn [pbind]. peeks ";" s3 l3 Hp3 Hs3 Hle3. rewrite (ends_none ")" ";" more Hm ltac:(by_chars)).
    exists c2, s3, l3. split; [done|]. split; [done|]. split; [done|]. split; [lia|done].
  - intros p IHp n r IHr [Hf Hr] [|fuel] s l more Hl Hs Hm; [by left|]. rewrite parseline_amps. cbn [show_line] in Hs.
    rewrite <- !app_assoc in Hs.
    destruct (amps_complete p n fuel s l _ (IHp Hf) Hl Hs) as [-> | (c2 & s2 & l2 & -> & Hp2 & Hs2 & Hle2 & Hv2 & Hg2)];
      [by right|by left|].
    cbn [pbind app] in *. peeks ";" s3 l3 Hp3 Hs3 Hle3. change (seen ";" _) with true. cbv iota.
    destruct (gettoken_symbol text s3 l3 _ _ Hp3 Hs3) as (q & eq & s4 & l4 & -> & Hp4 & Hs4 & Hlt & _); [done|].
    destruct (IHr Hr fuel s4 l4 _ Hp4 Hs4 Hm) as [-> | (c5 & s5 & l5 & -> & Hp5 & Hs5 & Hle5 & Hv5 & Hg5)]; [by left|right].
    exists (ListCmd c2 c5), s5, l5. split_and!; [done..|lia| |cbn; auto]. cbn. by rewrite Hv2, Hv5.
Qed.

(** ** The strings *)

(** The buffer still has the characters of the words. *)
Definition agrees (b : list Z) : Prop :=
  length b = S es /\ forall i, (i < es)%nat -> wordchar (cat text i) = true -> b !! i = text !! i.
(** The ends of the words of a command are NUL. *)
Fixpoint zeros (b : list Z) (c : cmd) : Prop :=
  match c with
  | ExecCmd argv => Forall (fun r => b !! snd r = Some 0) argv
  | RedirCmd c' _ eq _ _ => zeros b c' /\ b !! eq = Some 0
  | PipeCmd l r | ListCmd l r => zeros b l /\ zeros b r
  | BackCmd c' => zeros b c'
  end.
(** NULs stay. *)
Definition keeps (b b' : list Z) : Prop := forall i, b !! i = Some 0 -> b' !! i = Some 0.

Lemma zeros_keeps b b' c : keeps b b' -> zeros b c -> zeros b' c.
Proof using Type.
  intros H. induction c; cbn; try naive_solver. intros Hz. eapply Forall_impl; [exact Hz|]. auto.
Qed.

Lemma upto_nul_word b w : nonul w -> upto_nul (w ++ 0 :: b) = w.
Proof using Type.
  induction 1 as [|c w Hc Hw IH]; [done|]. cbn. rewrite (proj2 (Z.eqb_neq c 0)) by lia. by rewrite IH.
Qed.

Lemma range_string b q eq : agrees b -> range q eq -> b !! eq = Some 0 -> upto_nul (drop q b) = word_in q eq.
Proof using Hnul.
  intros [Hl Ha] (w & rest & Hq & -> & Hw & Hr) Hz. rewrite (word_at_left _ _ _ Hq).
  pose proof (left_length _ _ _ Hq) as Hlen. rewrite length_app in Hlen.
  assert (nonul w) as Hnw by (apply left_nul in Hq; [by apply Forall_app in Hq as [? _]|done]).
  destruct Hq as [Hq _]. apply lookup_lt_Some in Hz as Hlt.
  assert (take (length w) (drop q b) = w) as Et.
  { apply list_eq. intros i. destruct (decide (i < length w)%nat) as [Hi|Hi].
    - rewrite lookup_take_lt, lookup_drop by done.
      assert (text !! (q + i)%nat = w !! i) as Et by (rewrite <- lookup_drop, Hq; by apply lookup_app_l).
      rewrite Ha; [done|lia|]. unfold cat. rewrite Et. destruct (w !! i) as [c|] eqn:Ei.
      + by apply (Forall_lookup_1 _ _ _ _ Hw) in Ei.
      + apply lookup_ge_None in Ei. lia.
    - rewrite !lookup_ge_None_2; [done|lia|rewrite length_take; lia]. }
  rewrite <- (take_drop (length w) (drop q b)), Et, drop_drop.
  rewrite (drop_S b 0 (q + length w) Hz). by apply upto_nul_word.
Qed.

Lemma resolve_good b c : agrees b -> good c -> zeros b c -> resolve b c = view c.
Proof using Hnul.
  intros Ha. induction c as [argv|c IH q eq mode fd|l IHl r IHr|l IHl r IHr|c IH]; cbn.
  - intros Hg Hz. f_equal. apply list_fmap_ext. intros i [q eq] Hi. cbn in *.
    apply (Forall_lookup_1 _ _ _ _ Hg) in Hi as Hr. apply (Forall_lookup_1 _ _ _ _ Hz) in Hi as H0.
    by apply range_string.
  - intros [Hg Hr] [Hz H0]. rewrite IH by done. f_equal. by apply range_string.
  - intros [? ?] [? ?]. by rewrite IHl, IHr.
  - intros [? ?] [? ?]. by rewrite IHl, IHr.
  - intros. by rewrite IH.
Qed.

(** A store at the end of a word. *)
Lemma store_end b q eq :
  agrees b -> range q eq -> agrees (<[eq := 0]> b) /\ keeps b (<[eq := 0]> b) /\ <[eq := 0]> b !! eq = Some 0.
Proof using Type.
  intros [Hl Ha] (w & rest & Hq & -> & Hw & Hr). pose proof (left_length _ _ _ Hq) as Hlen. rewrite length_app in Hlen.
  apply left_app in Hq. split_and!.
  - split; [by rewrite length_insert|]. intros i Hi Hc. rewrite list_lookup_insert_ne; [by apply Ha|].
    intros <-. rewrite (left_cat _ _ _ Hq) in Hc. destruct rest as [|c rest]; [cbn in Hlen; lia|].
    cbn in Hc, Hr. unfold id in Hc. congruence.
  - intros i Hi. destruct (decide (i = (q + length w)%nat)) as [->|]; [|by rewrite list_lookup_insert_ne].
    apply list_lookup_insert_eq. lia.
  - apply list_lookup_insert_eq. lia.
Qed.

Lemma nulterminate_good c b :
  agrees b -> good c -> agrees (nulterminate c b) /\ keeps b (nulterminate c b) /\ zeros (nulterminate c b) c.
Proof using Type.
  revert b. induction c as [argv|c IH q eq mode fd|l IHl r IHr|l IHl r IHr|c IH]; intros b Ha Hg; cbn in *.
  - revert b Ha. induction Hg as [|[q eq] argv Hr Hg IH]; intros b Ha; cbn; [split; [done|]; split; [by intros i|constructor]|].
    destruct (store_end b q eq Ha Hr) as (A1 & K1 & Z1). destruct (IH _ A1) as (A2 & K2 & Z2).
    split; [done|]. split; [by intros i Hi; apply K2, K1|]. constructor; [by apply K2|done].
  - destruct Hg as [Hg Hr]. destruct (IH b Ha Hg) as (A1 & K1 & Z1). destruct (store_end _ q eq A1 Hr) as (A2 & K2 & Z2).
    split; [done|]. split; [by intros i Hi; apply K2, K1|]. split; [by eapply zeros_keeps|done].
  - destruct Hg as [Hl Hr]. destruct (IHl b Ha Hl) as (A1 & K1 & Z1). destruct (IHr _ A1 Hr) as (A2 & K2 & Z2).
    split; [done|]. split; [by intros i Hi; apply K2, K1|]. split; [by eapply zeros_keeps|done].
  - destruct Hg as [Hl Hr]. destruct (IHl b Ha Hl) as (A1 & K1 & Z1). destruct (IHr _ A1 Hr) as (A2 & K2 & Z2).
    split; [done|]. split; [by intros i Hi; apply K2, K1|]. split; [by eapply zeros_keeps|done].
  - by apply IH.
Qed.

Lemma resolve_nulterminate c : good c -> resolve (nulterminate c (text ++ [0])) c = view c.
Proof using Hnul.
  intros Hg. assert (agrees (text ++ [0])) as Ha.
  { split; [rewrite length_app; cbn; lia|]. intros i Hi _. by apply lookup_app_l. }
  destruct (nulterminate_good c _ Ha Hg) as (A & K & Z). by apply resolve_good.
Qed.

(** ** The whole line *)

Lemma left_start : left 0 text.
Proof using Type. split; [by rewrite drop_0|lia]. Qed.

(** The end of the text is seen. *)
Lemma peek_end s l more :
  left s l -> spells more l -> exists s', snd (peek text s "") = s' /\ (s' = es <-> more = []).
Proof using Type.
  intros Hp Hs. destruct (skip_tok text s l more Hp Hs) as (l' & Hp' & Hb & Hle).
  exists (skip_blanks text s). split; [done|]. pose proof (left_length _ _ _ Hp') as Hl.
  destruct more as [|t more]; cbn [body] in Hb.
  - subst l'. cbn in Hl. split; [done|lia].
  - split; [|done]. intros E. assert (l' = []) as -> by (destruct l'; [done|cbn in Hl; lia]).
    destruct t as [w|c|]; [destruct Hb as (rest & E' & Hne & _)|destruct Hb as (rest & E' & _)|destruct Hb as (rest & E' & _)];
      [by destruct w|done|done].
Qed.

Lemma parsecmd_cases :
  panics (parsecmd text) \/
  exists c g, parsecmd text = POk c es /\ spells (show_line g) text /\ fit_line g /\ view c = mean_line g /\ good c.
Proof using Hnul.
  destruct (spells_total text Hnul) as [toks Ht]. unfold parsecmd.
  destruct (proj1 (parse_sound (4 * es + 4)) 0%nat text toks left_start Ht ltac:(lia))
    as [[msg ->]|(g & more & -> & Fg & c & s & l & -> & Hp & Hs & _ & Hv & Hg)]; [left; by eexists|].
  cbn [pbind]. destruct (peek_end s l more Hp Hs) as (s' & Es & Hend).
  destruct (peek text s "") as [p s'']. cbn in Es. subst s''.
  destruct (Nat.eqb_spec s' es) as [->|Hne]; cbn [negb]; [right|left; by eexists].
  rewrite (proj1 Hend eq_refl), app_nil_r in Ht. by exists c, g.
Qed.

Lemma parsecmd_complete g :
  spells (show_line g) text -> fit_line g -> exists c, parsecmd text = POk c es /\ view c = mean_line g /\ good c.
Proof using Hnul.
  intros Hs Hf. unfold parsecmd.
  destruct (proj2 (proj2 parse_complete) g Hf (4 * es + 4)%nat 0%nat text [] left_start) as [E|(c & s & l & -> & Hp & Hs' & _ & Hv & Hg)];
    [by rewrite app_nil_r|by left| |].
  - exfalso. destruct (proj1 (parse_sound (4 * es + 4)) 0%nat text _ left_start Hs ltac:(lia)) as [[msg E']|(g' & m & _ & _ & c & s & l & E' & _)];
      congruence.
  - cbn [pbind]. destruct (peek_end s l [] Hp Hs') as (s' & Es & Hend).
    destruct (peek text s "") as [p s'']. cbn in Es. subst s''. rewrite (proj2 Hend eq_refl), Nat.eqb_refl. by exists c.
Qed.
End Parsing.

(** C18. The shell's parser accepts exactly the lines of the grammar, whatever
    the blanks between the tokens, and the command it builds is the one the
    line stands for: after [nulterminate] has stored its NULs in the line, the
    strings of the command are the words of the line. *)
Theorem parsed_correct (text : list Z) (c : scmd) (Hnul : nonul text) :
  parsed text = POk c (length text) <->
  exists g, spells (show_line g) text /\ fit_line g /\ mean_line g = c.
Proof.
  unfold parsed. split.
  - destruct (parsecmd_cases text Hnul) as [[msg ->]|(c' & g & -> & Hs & Hf & Hv & Hg)]; [done|]. cbn [pbind].
    rewrite resolve_nulterminate by done. intros [= <-]. by exists g.
  - intros (g & Hs & Hf & <-). destruct (parsecmd_complete text Hnul g Hs Hf) as (c' & -> & Hv & Hg). cbn [pbind].
    by rewrite resolve_nulterminate, Hv.
Qed.

(** The parser terminates: on every line it either builds a command and
    has read the whole line, or prints an error message; its recursion never
    runs out of the four times the length of the line it is given. *)
Theorem parsed_total (text : list Z) (Hnul : nonul text) :
  (exists c, parsed text = POk c (length text)) \/ (exists msg, parsed text = PPanic msg).
Proof.
  unfold parsed. destruct (parsecmd_cases text Hnul) as [[msg ->]|(c & g & -> & _)].
  - right. by exists msg.
  - left. by eexists.
Qed.

(** * Witnesses *)

Definition demo_line : list Z := chars "cat <in|wc>>out ;(ls a)&" ++ [NEWLINE].
Definition demo_scmd : scmd :=
  SList (SPipe (SRedir (SExec [chars "cat"]) (chars "in") 0 0) (SRedir (SExec [chars "wc"]) (chars "out") 0x201 1))
    (SBack (SExec [chars "ls"; chars "a"])).

Lemma parsed_correct_witness :
  exists g, spells (show_line g) demo_line /\ fit_line g /\ mean_line g = demo_scmd.
Proof.
  apply (parsed_correct demo_line demo_scmd).
  - apply (bool_decide_unpack _). vm_compute. exact Logic.I.
  - vm_compute. exact eq_refl.
Defined.

Lemma parsed_total_witness :
  (exists c, parsed (chars "a | ) b") = POk c (length (chars "a | ) b"))) \/
  (exists msg, parsed (chars "a | ) b") = PPanic msg).
Proof.
  apply (parsed_total (chars "a | ) b")). apply (bool_decide_unpack _). vm_compute. exact Logic.I.
Defined.
