(* ===== verification/ShRun.v ===== *)
(** What the shell runs, with which descriptors, and what it does where a call
    fails.

    A process has a table of 16 descriptors; [open], [dup] and [pipe] take the
    lowest free one, as the kernel's [fdalloc] does.  [spawns ok] runs a program
    and all the processes it forks and collects, in order, the programs that are
    executed, each with the table it gets, and what is written.  [ok] says which
    of the calls [fork], [exec], [open] and [pipe] succeed: they are numbered in
    the order in which they are met, those of a child before the rest of its
    parent's. *)
From S2P Require Import Prelude Chars Format Sys Ulib Sh ShParse.
Open Scope usr_scope.

Inductive obj := Console | FileAt (path : list Z) (mode : Z) | PipeOut (id : nat) | PipeIn (id : nat).
Definition table : Type := list (option obj).
Record job := Job { j_path : list Z; j_argv : list (list Z); j_fds : table }.

(** A program executed, or bytes written to an object. *)
Inductive event := Ran (j : job) | Wrote (o : option obj) (bs : list Z).

(** The pipes made and the calls met so far. *)
Record count := Count { c_pipes : nat; c_calls : nat }.
Definition tick (n : count) : count := Count (c_pipes n) (S (c_calls n)).
Definition new_pipe (n : count) : count := Count (S (c_pipes n)) (c_calls n).

Fixpoint lowest (t : table) : option nat :=
  match t with
  | [] => None
  | None :: _ => Some O
  | Some _ :: t' => S <$> lowest t'
  end.

(** The descriptor [fd] of a table. *)
Definition fd_obj (t : table) (fd : Z) : option obj := if fd <? 0 then None else mjoin (t !! Z.to_nat fd).

Definition alloc (t : table) (o : obj) : option (Z * table) :=
  i ← lowest t; Some (Z.of_nat i, <[i := Some o]> t).

Section Runs.
Context (ok : nat -> bool).

(** The next call that may fail does. *)
Definition fails (n : count) : bool := negb (ok (c_calls n)).

(** The calls other than [fork], [exec] and [exit]. *)
Definition fdstep {X} (e : sysE X) (t : table) (n : count) : option (X * table * count) :=
  match e in sysE X return option (X * table * count) with
  | Fork | Exit _ | Exec _ _ => None
  | Close fd => o ← fd_obj t fd; Some (0, <[Z.to_nat fd := None]> t, n)
  | Dup fd => o ← fd_obj t fd; '(i, t') ← alloc t o; Some (i, t', n)
  | Open path mode =>
      if fails n then Some (-1, t, tick n)
      else '(i, t') ← alloc t (FileAt path mode); Some (i, t', tick n)
  | Pipe =>
      if fails n then Some ((-1, (0, 0)), t, tick n)
      else '(i, t1) ← alloc t (PipeOut (c_pipes n)); '(j, t2) ← alloc t1 (PipeIn (c_pipes n));
           Some ((0, (i, j)), t2, new_pipe (tick n))
  | Wait => Some ((1, 0), t, n)
  | Write fd bs => Some (Z.of_nat (length bs), t, n)
  | Read _ _ => Some ((0, []), t, n)
  | Fstat _ => Some ((0, Ustat 0 0 0 0 0), t, n)
  | GetProcInfo _ => Some ((0, Uprocinfo 0 0 [] 0 0 0 0 0 0 0 0 0), t, n)
  | Kill _ | Mknod _ _ _ | Unlink _ | Link _ _ | Mkdir _ | Chdir _ | Getpid | Sbrk _ _ | Pause _ | Uptime | Yield
  | SetExpected _ | SetStcfVals _ => Some (0, t, n)
  end.

(** What a call writes. *)
Definition written {X} (e : sysE X) (t : table) : list event :=
  match e with Write fd bs => [Wrote (fd_obj t fd) bs] | _ => [] end.

(** What a program does next. *)
Inductive next A :=
| Stop (l : list event) (n : count) | Go (l : list event) (p : U A) (t : table) (n : count)
| Split (k : Z -> U A) (n : count) | Back (a : A) | Stuck.
Arguments Back {A} _. Arguments Stop {A} _ _. Arguments Go {A} _ _ _ _. Arguments Split {A} _ _. Arguments Stuck {A}.

Definition next_call {A X} (e : sysE X) (k : X -> U A) (t : table) (n : count) : next A :=
  match fdstep e t n with
  | Some (a, t', n') => Go (written e t) (k a) t' n'
  | None =>
      match e in sysE X return (X -> U A) -> next A with
      | Fork => fun k => if fails n then Go [] (k (-1)) t (tick n) else Split k (tick n)
      | Exit _ => fun _ => Stop [] n
      | Exec path argv => fun k => if fails n then Go [] (k (-1)) t (tick n) else Stop [Ran (Job path argv t)] (tick n)
      | _ => fun _ => Stuck
      end k
  end.
Definition next_of {A} (p : U A) (t : table) (n : count) : next A :=
  match observe p with
  | RetF a => Back a
  | TauF p' => Go [] p' t n
  | VisF e k => next_call e k t n
  end.

(** A run of the program and of the processes it forks, [K] for what follows a
    program that returns.  The parent of a fork goes on with any positive process
    number. *)
Definition after A : Type := A -> table -> count -> list event -> count -> Prop.
Inductive spawns {A} (K : after A) : U A -> table -> count -> list event -> count -> Prop :=
| sp_back p a t n l n' : next_of p t n = Back a -> K a t n l n' -> spawns K p t n l n'
| sp_stop p t n l n' : next_of p t n = Stop l n' -> spawns K p t n l n'
| sp_go p p' t t' n n' l0 l n'' : next_of p t n = Go l0 p' t' n' -> spawns K p' t' n' l n'' -> spawns K p t n (l0 ++ l) n''
| sp_split p k t n n0 l1 n1 l2 n2 :
    next_of p t n = Split k n0 -> spawns K (k 0) t n0 l1 n1 ->
    (forall pid, 0 < pid -> spawns K (k pid) t n1 l2 n2) -> spawns K p t n (l1 ++ l2) n2.

(** A program that returns is over. *)
Definition over {A} : after A := fun _ _ n l n' => l = [] /\ n' = n.

(** What happens is determined. *)
Lemma spawns_det {A} (p : U A) t n l1 n1 l2 n2 :
  spawns over p t n l1 n1 -> spawns over p t n l2 n2 -> l1 = l2 /\ n1 = n2.
Proof.
  intros H. revert l2 n2. induction H as [p a t n l n' E H|p t n l n1 E|p p' t t' n n' l0 l n'' E H IH|p k t n n0 l1 n1 l2 n2 E H1 IH1 H2 IH2];
    intros l' m H'; destruct H' as [p0 a0 t0 m0 l3 m1 E' H'|p0 t0 m0 l3 m1 E'|p0 p1 t0 t1 m0 m1 l3 l4 m2 E' H'|p0 k0 t0 m0 m1 la ma lb mb E' Ha Hb];
    rewrite E in E'; simplify_eq; [|done| |].
  - by destruct H as [-> ->], H' as [-> ->].
  - by destruct (IH _ _ H') as [-> ->].
  - destruct (IH1 _ _ Ha) as [-> ->]. destruct (IH2 1 ltac:(lia) _ _ (Hb 1 ltac:(lia))) as [-> ->]. done.
Qed.

Lemma next_bind {A B} (p : U A) (k : A -> U B) t n :
  next_of (ubind p k) t n =
  match next_of p t n with
  | Back a => next_of (k a) t n
  | Stop l n' => Stop l n'
  | Go l p' t' n' => Go l (ubind p' k) t' n'
  | Split h n' => Split (fun x => ubind (h x) k) n'
  | Stuck => Stuck
  end.
Proof.
  unfold next_of. rewrite observe_bind. destruct (observe p) as [a|p'|X e h]; [done..|].
  unfold next_call. destruct (fdstep e t n) as [[[a t'] n']|]; [done|]. destruct e; try done; by destruct (fails n).
Qed.

Lemma spawns_bind {A B} (K : after B) (p : U A) (k : A -> U B) t n l n' :
  spawns (fun a t n l n' => spawns K (k a) t n l n') p t n l n' -> spawns K (ubind p k) t n l n'.
Proof.
  induction 1 as [p a t n l n' E H|p t n l n1 E|p p' t t' n n' l0 l n'' E H IH|p h t n n0 l1 n1 l2 n2 E H1 IH1 H2 IH2];
    pose proof (next_bind p k t n) as En; rewrite E in En.
  - destruct H as [q b t n l n' Eq H|q t n l n' Eq|q q' t t' n n' l0 l n'' Eq H|q h t n n0 l1 n1 l2 n2 Eq H1 H2]; rewrite Eq in En.
    + by eapply sp_back.
    + by apply sp_stop.
    + by eapply sp_go.
    + by eapply sp_split.
  - by apply sp_stop.
  - by eapply sp_go.
  - by eapply sp_split.
Qed.

Lemma spawns_ret {A} (K : after A) (a : A) t n l n' : K a t n l n' -> spawns K (uret a) t n l n'.
Proof. intros H. by eapply sp_back. Qed.

Lemma sp_quiet {A} (K : after A) (p p' : U A) t t' n n' l n'' :
  next_of p t n = Go [] p' t' n' -> spawns K p' t' n' l n'' -> spawns K p t n l n''.
Proof. apply (sp_go _ _ _ _ _ _ _ []). Qed.

Section Rules.
Context {A : Type} (K : after A).

Lemma spawns_sys {X} (e : sysE X) (k : X -> U A) a t t' n n' l n'' :
  fdstep e t n = Some (a, t', n') -> spawns K (k a) t' n' l n'' ->
  spawns K (ubind (sys e) k) t n (written e t ++ l) n''.
Proof.
  intros He H. apply spawns_bind. apply (sp_go _ _ (uret a) t t' n n'); [|by apply spawns_ret].
  unfold next_of. cbn. unfold next_call. by rewrite He.
Qed.
Lemma spawns_exit st t n : spawns K (exit st) t n [] n.
Proof. by apply sp_stop. Qed.
Lemma spawns_exec path argv (k : Z -> U A) t n :
  fails n = false -> spawns K (ubind (sys (Exec path argv)) k) t n [Ran (Job path argv t)] (tick n).
Proof. intros Hn. apply sp_stop. unfold next_of. cbn. unfold next_call. cbn. by rewrite Hn. Qed.
Lemma spawns_exec_fails path argv (k : Z -> U A) t n l n' :
  fails n = true -> spawns K (k (-1)) t (tick n) l n' -> spawns K (ubind (sys (Exec path argv)) k) t n l n'.
Proof.
  intros Hn H. apply spawns_bind. apply (sp_quiet _ _ (uret (-1)) t t n (tick n)); [|by apply spawns_ret].
  unfold next_of. cbn. unfold next_call. cbn. by rewrite Hn.
Qed.
End Rules.

(** Messages go out one byte at a time. *)
Definition said (o : option obj) (txt : list Z) : list event := (fun b => Wrote o [b]) <$> txt.

Lemma spawns_print {A} (K : after A) fd fmt args (k : unit -> U A) t n l n' :
  spawns K (k tt) t n l n' -> spawns K (ubind (fprintf fd fmt args) k) t n (said (fd_obj t fd) (text_of fmt args) ++ l) n'.
Proof.
  intros H. apply spawns_bind. unfold fprintf. fold (text_of fmt args). generalize (text_of fmt args) as cs.
  induction cs as [|c cs IH]; cbn [each]; [by apply spawns_ret|].
  apply spawns_bind, (spawns_sys _ (Write fd [c]) _ 1 _ t _ n); [done|]. by apply spawns_ret.
Qed.

(** [panic] of sh.c. *)
Lemma spawns_panic {A} (K : after A) msg txt t n :
  text_of (chars "%s" ++ [NEWLINE]) [T (chars msg)] = txt -> spawns K (spanic msg) t n (said (fd_obj t 2) txt) n.
Proof.
  intros <-. unfold spanic. rewrite <- (app_nil_r (said _ _)). apply spawns_print, spawns_exit.
Qed.

(** [fork1] that succeeds, and that does not. *)
Lemma spawns_fork1 {A} (K : after A) (k : Z -> U A) t n l1 n1 l2 n2 :
  fails n = false -> spawns K (k 0) t (tick n) l1 n1 -> (forall pid, 0 < pid -> spawns K (k pid) t n1 l2 n2) ->
  spawns K (ubind fork1 k) t n (l1 ++ l2) n2.
Proof.
  intros Hn H1 H2. apply spawns_bind. unfold fork1. apply spawns_bind. eapply sp_split.
  - unfold next_of. cbn. unfold next_call. cbn. by rewrite Hn.
  - apply spawns_ret. cbn [Z.eqb]. by apply spawns_bind, spawns_ret, spawns_ret.
  - intros pid Hpid. apply spawns_ret. rewrite (proj2 (Z.eqb_neq pid (-1))) by lia.
    apply spawns_bind, spawns_ret, spawns_ret. by apply H2.
Qed.
Lemma spawns_fork1_fails {A} (K : after A) (k : Z -> U A) t n :
  fails n = true -> spawns K (ubind fork1 k) t n (said (fd_obj t 2) (chars "fork" ++ [NEWLINE])) (tick n).
Proof.
  intros Hn. apply spawns_bind. unfold fork1. apply spawns_bind.
  apply (sp_quiet _ _ (uret (-1)) t t n (tick n)); [unfold next_of; cbn; unfold next_call; cbn; by rewrite Hn|].
  apply spawns_ret. change (-1 =? -1) with true. cbv iota. by apply spawns_bind, spawns_panic.
Qed.

(** * The programs of a command *)

(** A table with three descriptors. *)
Definition std (i o e : obj) : table := [Some i; Some o; Some e] ++ replicate 13 None.

(** What a command stands for: the programs run and the complaints, and the
    count after it.  Each process is given up at its first failing call. *)
Fixpoint jobs (c : scmd) (i o e : obj) (n : count) : list event * count :=
  match c with
  | SExec [] => ([], n)
  | SExec (path :: args) =>
      if fails n then (said (Some e) (text_of (nl "exec %s failed") [T path]), tick n)
      else ([Ran (Job path (path :: args) (std i o e))], tick n)
  | SRedir c' f mode fd =>
      if fails n then (said (Some e) (text_of (nl "open %s failed") [T f]), tick n)
      else if fd =? 0 then jobs c' (FileAt f mode) o e (tick n) else jobs c' i (FileAt f mode) e (tick n)
  | SPipe l r =>
      if fails n then (said (Some e) (nl "pipe"), tick n) else
      let p := c_pipes n in
      let n := new_pipe (tick n) in
      if fails n then (said (Some e) (nl "fork"), tick n) else
      let '(l1, n) := jobs l i (PipeIn p) e (tick n) in
      if fails n then (l1 ++ said (Some e) (nl "fork"), tick n) else
      let '(l2, n) := jobs r (PipeOut p) o e (tick n) in
      (l1 ++ l2, n)
  | SList l r =>
      if fails n then (said (Some e) (nl "fork"), tick n) else
      let '(l1, n) := jobs l i o e (tick n) in
      let '(l2, n) := jobs r i o e n in
      (l1 ++ l2, n)
  | SBack c' => if fails n then (said (Some e) (nl "fork"), tick n) else jobs c' i o e (tick n)
  end.

(** Redirections of descriptors 0 and 1, which are all the parser makes. *)
Fixpoint standard (c : scmd) : Prop :=
  match c with
  | SExec _ => True
  | SRedir c' _ _ fd => standard c' /\ (fd = 0 \/ fd = 1)
  | SPipe l r | SList l r => standard l /\ standard r
  | SBack c' => standard c'
  end.

#[local] Arguments ubind : simpl never.

Section Calls.
Context {A : Type} (K : after A) (i o e : obj) (n : count).

Lemma runs_open f mode (k : Z -> U A) (t : table) j l n' :
  lowest t = Some j ->
  (fails n = true -> spawns K (k (-1)) t (tick n) l n') ->
  (fails n = false -> spawns K (k (Z.of_nat j)) (<[j := Some (FileAt f mode)]> t) (tick n) l n') ->
  spawns K (ubind (sys (Open f mode)) k) t n l n'.
Proof.
  intros Hj Hf Hs. change l with (written (Open f mode) t ++ l). destruct (fails n) eqn:E.
  - eapply spawns_sys; [cbn; by rewrite E|by apply Hf].
  - eapply spawns_sys; [cbn; rewrite E; unfold alloc; by rewrite Hj|by apply Hs].
Qed.

Lemma runs_pipe (k : Z * (Z * Z) -> U A) l n' :
  let p := c_pipes n in
  (fails n = true -> spawns K (k (-1, (0, 0))) (std i o e) (tick n) l n') ->
  (fails n = false -> spawns K (k (0, (3, 4))) (<[4%nat := Some (PipeIn p)]> (<[3%nat := Some (PipeOut p)]> (std i o e))) (new_pipe (tick n)) l n') ->
  spawns K (ubind (sys Pipe) k) (std i o e) n l n'.
Proof.
  intros p Hf Hs. change l with (written Pipe (std i o e) ++ l). destruct (fails n) eqn:E.
  - eapply spawns_sys; [cbn; by rewrite E|by apply Hf].
  - eapply spawns_sys; [cbn; by rewrite E|by apply Hs].
Qed.
End Calls.

(** A call that writes nothing. *)
Ltac call :=
  match goal with |- spawns _ (ubind (sys ?c) _) ?t _ ?l _ => change l with (written c t ++ l) end;
  eapply spawns_sys; [reflexivity|]; cbv iota beta.

(** The two sides of a pipe, which is on descriptors 3 and 4. *)
Lemma runs_both {A} (K : after A) i o e p n n1 n2 l1 l2 (pl pr : U A) :
  let t := <[4%nat := Some (PipeIn p)]> (<[3%nat := Some (PipeOut p)]> (std i o e)) in
  fails n = false -> spawns K pl (std i (PipeIn p) e) (tick n) l1 n1 ->
  forall l' n',
  (if fails n1 then l' = said (Some e) (nl "fork") /\ n' = tick n1
   else l' = l2 /\ n' = n2 /\ spawns K pr (std (PipeOut p) o e) (tick n1) l2 n2) ->
  spawns K (pid <- fork1 ;;
    if pid =? 0 then sys (Close 1) ;; sys (Dup 4) ;; sys (Close 3) ;; sys (Close 4) ;; pl
    else pid <- fork1 ;;
      if pid =? 0 then sys (Close 0) ;; sys (Dup 3) ;; sys (Close 3) ;; sys (Close 4) ;; pr
      else sys (Close 3) ;; sys (Close 4) ;; sys Wait ;; sys Wait ;; exit 0) t n (l1 ++ l') n'.
Proof.
  intros t Hn Hl l' n' Hr. apply spawns_fork1 with n1; [done| |].
  - change (0 =? 0) with true. cbv iota. do 4 call. exact Hl.
  - intros pid Hpid. rewrite (proj2 (Z.eqb_neq pid 0)) by lia. destruct (fails n1) eqn:E1.
    + destruct Hr as [-> ->]. by apply spawns_fork1_fails.
    + destruct Hr as (-> & -> & Hr). rewrite <- (app_nil_r l2). apply spawns_fork1 with n2; [done| |].
      * change (0 =? 0) with true. cbv iota. do 4 call. exact Hr.
      * intros pid2 Hpid2. rewrite (proj2 (Z.eqb_neq pid2 0)) by lia. do 4 call. apply spawns_exit.
Qed.

Lemma runcmd_jobs {A} (K : after A) c i o e n :
  standard c -> spawns K (runcmd c) (std i o e) n (fst (jobs c i o e n)) (snd (jobs c i o e n)).
Proof.
  revert i o e n. induction c as [[|path args]|c IH f mode fd|l IHl r IHr|l IHl r IHr|c IH]; intros i o e n Hc; cbn [runcmd jobs].
  - apply spawns_exit.
  - destruct (fails n) eqn:E; [|by apply spawns_exec]. apply spawns_exec_fails; [done|].
    cbn [fst snd]. rewrite <- (app_nil_r (said _ _)). apply (spawns_print _ 2), spawns_exit.
  - destruct Hc as [Hc Hfd]. assert (fd_obj (<[Z.to_nat fd := None]> (std i o e)) 2 = Some e) as He by by destruct Hfd as [-> | ->].
    assert (exists x, fd_obj (std i o e) fd = Some x) as [x Hx] by (destruct Hfd as [-> | ->]; by eexists).
    change (fst ?x) with (written (Close fd) (std i o e) ++ fst x). eapply spawns_sys; [unfold fdstep; by rewrite Hx|].
    apply (runs_open _ n _ _ _ _ (Z.to_nat fd)); [by destruct Hfd as [-> | ->]|intros E; rewrite E..].
    + change (-1 <? 0) with true. cbv iota. cbn [fst snd]. rewrite <- (app_nil_r (said _ _)), <- He.
      apply (spawns_print _ 2), spawns_exit.
    + rewrite (proj2 (Z.ltb_ge _ _)) by lia. destruct Hfd as [-> | ->]; cbn [Z.eqb]; by apply IH.
  - destruct Hc as [Hl Hr]. apply runs_pipe; intros E; rewrite E; cbv iota beta.
    { change (-1 <? 0) with true. cbv iota. apply spawns_bind. by apply spawns_panic. }
    apply spawns_bind, spawns_ret. set (n0 := new_pipe (tick n)). destruct (fails n0) eqn:E0; [by apply spawns_fork1_fails|].
    specialize (IHl i (PipeIn (c_pipes n)) e (tick n0) Hl). destruct (jobs l i _ e _) as [l1 n1]. cbn [fst snd] in IHl.
    specialize (IHr (PipeOut (c_pipes n)) o e (tick n1) Hr). destruct (jobs r _ o e _) as [l2 n2]. cbn [fst snd] in IHr.
    pose proof (runs_both K i o e (c_pipes n) n0 n1 n2 l1 l2 (runcmd l) (runcmd r) E0 IHl) as Hb.
    destruct (fails n1) eqn:E1; by apply Hb.
  - destruct Hc as [Hl Hr]. destruct (fails n) eqn:E; [by apply spawns_fork1_fails|].
    specialize (IHl i o e (tick n) Hl). destruct (jobs l i o e _) as [l1 n1]. specialize (IHr i o e n1 Hr).
    destruct (jobs r i o e n1) as [l2 n2]. cbn [fst snd] in *. apply spawns_fork1 with n1; [done|exact IHl|].
    intros pid Hpid. rewrite (proj2 (Z.eqb_neq pid 0)) by lia. call. exact IHr.
  - destruct (fails n) eqn:E; [by apply spawns_fork1_fails|]. rewrite <- (app_nil_r (fst _)).
    eapply spawns_fork1; [done|by apply IH|]. intros pid Hpid. rewrite (proj2 (Z.eqb_neq pid 0)) by lia. apply spawns_exit.
Qed.

(** The commands of the grammar are standard. *)
Lemma standard_redirs c rs : standard c -> standard (foldl redirected c rs).
Proof.
  revert c. induction rs as [|[op f] rs IH]; intros c Hc; [done|]. apply IH. destruct op; cbn; auto.
Qed.
Lemma standard_items c items : standard c -> standard (foldl add_item c items).
Proof.
  revert c. induction items as [|[w|[op f]] items IH]; intros c Hc; [done|..]; apply IH.
  - clear -Hc. induction c; cbn in *; tauto.
  - destruct op; cbn; auto.
Qed.
Lemma standard_back n c : standard c -> standard (Nat.iter n SBack c).
Proof. induction n; cbn; auto. Qed.

Lemma standard_grammar :
  (forall e, standard (mean_exec e)) /\ (forall p, standard (mean_pipe p)) /\ (forall l, standard (mean_line l)).
Proof.
  apply grammar_ind; cbn; auto using standard_items, standard_redirs, standard_back.
  intros items. by apply standard_items.
Qed.

(** Where every call succeeds: the programs alone. *)
Fixpoint programs (c : scmd) (i o e : obj) (n : nat) : list job * nat :=
  match c with
  | SExec [] => ([], n)
  | SExec (path :: args) => ([Job path (path :: args) (std i o e)], n)
  | SRedir c' f mode fd =>
      if fd =? 0 then programs c' (FileAt f mode) o e n else programs c' i (FileAt f mode) e n
  | SPipe l r =>
      let '(l1, n1) := programs l i (PipeIn n) e (S n) in
      let '(l2, n2) := programs r (PipeOut n) o e n1 in
      (l1 ++ l2, n2)
  | SList l r =>
      let '(l1, n1) := programs l i o e n in
      let '(l2, n2) := programs r i o e n1 in
      (l1 ++ l2, n2)
  | SBack c' => programs c' i o e n
  end.

Lemma jobs_programs c i o e n : (forall m, ok m = true) ->
  fst (jobs c i o e n) = Ran <$> fst (programs c i o e (c_pipes n)) /\ c_pipes (snd (jobs c i o e n)) = snd (programs c i o e (c_pipes n)).
Proof.
  intros Hok. assert (forall m, fails m = false) as Hf by (intros m; unfold fails; by rewrite Hok).
  revert i o e n. induction c as [[|path args]|c IH f mode fd|l IHl r IHr|l IHl r IHr|c IH]; intros i o e n;
    cbn [jobs programs]; rewrite ?Hf; [done|done| | | |exact (IH i o e (tick n))].
  - destruct (fd =? 0); [exact (IH (FileAt f mode) o e (tick n))|exact (IH i (FileAt f mode) e (tick n))].
  - specialize (IHl i (PipeIn (c_pipes n)) e (tick (new_pipe (tick n)))). cbn [c_pipes tick new_pipe] in IHl.
    destruct (jobs l _ _ _ _) as [l1 n1], (programs l _ _ _ _) as [l1' m1]. cbn [fst snd] in IHl. destruct IHl as [-> <-]. rewrite Hf.
    specialize (IHr (PipeOut (c_pipes n)) o e (tick n1)). cbn [c_pipes tick] in IHr.
    destruct (jobs r _ _ _ _) as [l2 n2], (programs r _ _ _ _) as [l2' m2]. destruct IHr as [E1 E2]. cbn [fst snd] in *. subst.
    by rewrite fmap_app.
  - specialize (IHl i o e (tick n)). cbn [c_pipes tick] in IHl.
    destruct (jobs l _ _ _ _) as [l1 n1], (programs l _ _ _ _) as [l1' m1]. cbn [fst snd] in IHl. destruct IHl as [-> <-].
    specialize (IHr i o e n1). destruct (jobs r _ _ _ _) as [l2 n2], (programs r _ _ _ _) as [l2' m2]. destruct IHr as [E1 E2]. cbn [fst snd] in *. subst.
    by rewrite fmap_app.
Qed.
End Runs.

(** C38. The shell runs what the line says.  For a line of the grammar, and
    whichever of the calls [fork], [exec], [open] and [pipe] fail, the processes
    the shell starts do exactly what the line stands for: each command is
    executed with its redirections and its ends of the pipes as descriptors 0 and
    1 and with no other descriptor open beyond the shell's own three, so that no
    end of a pipe leaks into a command; a process whose call fails says so on
    descriptor 2 and runs nothing that depends on the call.  Where no call fails,
    the programs executed are all the commands of the line, in their order, and
    nothing is written. *)
Theorem run_line_jobs (ok : nat -> bool) (text : list Z) (g : gline) (i o e : obj) (n : count) (l : list event) (n' : count)
  (Hnul : nonul text) (Hs : spells (show_line g) text) (Hf : fit_line g) :
  (spawns ok over (run_line text : U unit) (std i o e) n l n' <-> jobs ok (mean_line g) i o e n = (l, n')) /\
  ((forall m, ok m = true) -> spawns ok over (run_line text : U unit) (std i o e) n l n' ->
     l = Ran <$> fst (programs (mean_line g) i o e (c_pipes n))).
Proof.
  assert (run_line text = (runcmd (mean_line g) : U unit)) as ->.
  { destruct (parsecmd_complete text Hnul g Hs Hf) as (c & E & Hv & Hg). unfold run_line, parsed. rewrite E. cbn [pbind].
    by rewrite resolve_nulterminate, Hv. }
  pose proof (runcmd_jobs ok (A := unit) over (mean_line g) i o e n (proj2 (proj2 standard_grammar) g)) as H. split; [split|].
  - intros H'. destruct (spawns_det _ _ _ _ _ _ _ _ H H') as [<- <-]. by destruct (jobs _ _ _ _ _ _).
  - intros E. by rewrite E in H.
  - intros Hok H'. destruct (spawns_det _ _ _ _ _ _ _ _ H H') as [<- _]. by apply jobs_programs.
Qed.

(** * Witness *)

Definition demo_g : gline :=
  GLine (GBar (GSimple [IWord (chars "cat"); IRedir (RIn, chars "in")]) (GOne (GSimple [IWord (chars "wc")]))) 0.
Definition demo_line : list Z := chars "cat <in|wc".
Lemma demo_nonul : nonul demo_line.
Proof. apply (bool_decide_unpack _). vm_compute. exact Logic.I. Qed.
Lemma demo_spells : spells (show_line demo_g) demo_line.
Proof.
  apply (sp_word [] (chars "cat") (chars " <in|wc")); [constructor|done|by repeat constructor|done|].
  apply (sp_sym (chars " ") (ch "<") (chars "in|wc")); [by repeat constructor|done|done|].
  apply (sp_word [] (chars "in") (chars "|wc")); [constructor|done|by repeat constructor|done|].
  apply (sp_sym [] (ch "|") (chars "wc")); [constructor|done|done|].
  apply (sp_word [] (chars "wc") []); [constructor|done|by repeat constructor|done|].
  apply sp_nil. constructor.
Qed.
Lemma demo_fits : fit_line demo_g.
Proof. cbv. lia. Qed.

(** With every call, and where the third, the [open], fails. *)
Lemma run_line_jobs_witness :
  spawns (fun _ => true) over (run_line demo_line : U unit) (std Console Console Console) (Count 0 0)
    [Ran (Job (chars "cat") [chars "cat"] (std (FileAt (chars "in") 0) (PipeIn 0) Console));
     Ran (Job (chars "wc") [chars "wc"] (std (PipeOut 0) Console Console))] (Count 1 6) /\
  spawns (fun m => negb (m =? 2)%nat) over (run_line demo_line : U unit) (std Console Console Console) (Count 0 0)
    (said (Some Console) (nl "open in failed") ++ [Ran (Job (chars "wc") [chars "wc"] (std (PipeOut 0) Console Console))]) (Count 1 5).
Proof.
  split.
  - apply (run_line_jobs _ demo_line demo_g); [exact demo_nonul|exact demo_spells|exact demo_fits|]. vm_compute. reflexivity.
  - apply (run_line_jobs _ demo_line demo_g); [exact demo_nonul|exact demo_spells|exact demo_fits|]. vm_compute. reflexivity.
Defined.
