(* ===== verification/Umalloc.v ===== *)
(** user/umalloc.c: the allocator of Kernighan and Ritchie.

    A [Header] of 16 bytes starts each block; [h_ptr] and [h_size] are the two
    fields of the headers in memory, by address.  The free blocks are a circular
    list through [base], whose address is below the heap's.  [sbrk] grows the
    process from its break [h_brk] up to [h_top], where memory ends, and shrinks
    it for a negative argument, which is an [int].

    The theorems: the free list stays in order, coalesced and apart from the
    blocks handed out; [malloc] returns a block of its own and of the size asked
    for; no memory is lost; both loops terminate. *)
From S2P Require Import Prelude Ring.

Record heap := Heap {
  h_ptr : gmap Z Z; h_size : gmap Z Z; h_freep : Z; h_brk : Z; h_top : Z }.

Definition HEADER : Z := 16.

Definition nxt (h : heap) (a : Z) : Z := default 0 (h_ptr h !! a).
Definition siz (h : heap) (a : Z) : Z := default 0 (h_size h !! a).
Definition set_ptr (a p : Z) (h : heap) : heap := Heap (<[a := p]> (h_ptr h)) (h_size h) (h_freep h) (h_brk h) (h_top h).
Definition set_size (a n : Z) (h : heap) : heap :=
  Heap (h_ptr h) (<[a := u32 n]> (h_size h)) (h_freep h) (h_brk h) (h_top h).
Definition set_freep (p : Z) (h : heap) : heap := Heap (h_ptr h) (h_size h) p (h_brk h) (h_top h).

(** The kernel's [sbrk]: the old break, or -1. *)
Definition h_sbrk (n : Z) (h : heap) : Z * heap :=
  if (0 <=? n) && (h_top h <? h_brk h + n) then (-1, h)
  else (h_brk h, Heap (h_ptr h) (h_size h) (h_freep h) (h_brk h + n) (h_top h)).

(** The loop of [free]: the block after which [bp] goes. *)
Fixpoint free_loop (fuel : nat) (h : heap) (bp p : Z) : option Z :=
  match fuel with
  | O => None
  | S fuel' =>
      if (p <? bp) && (bp <? nxt h p) then Some p
      else if (nxt h p <=? p) && ((p <? bp) || (bp <? nxt h p)) then Some p
      else free_loop fuel' h bp (nxt h p)
  end.

(** The block [bp] joined with the block after it, or pointing to it; then the
    block [p] joined with [bp], or pointing to it. *)
Definition link_next (bp p : Z) (h : heap) : heap :=
  if bp + HEADER * siz h bp =? nxt h p then
    let h := set_size bp (siz h bp + siz h (nxt h p)) h in
    set_ptr bp (nxt h (nxt h p)) h
  else set_ptr bp (nxt h p) h.
Definition link_prev (bp p : Z) (h : heap) : heap :=
  if p + HEADER * siz h p =? bp then
    let h := set_size p (siz h p + siz h bp) h in
    set_ptr p (nxt h bp) h
  else set_ptr p bp h.

Definition free (fuel : nat) (ap : Z) (h : heap) : option heap :=
  let bp := ap - HEADER in
  p ← free_loop fuel h bp (h_freep h);
  Some (set_freep p (link_prev bp p (link_next bp p h))).

(** 0 if there is no memory; the argument of [sbrk] is an [int]. *)
Definition morecore (fuel : nat) (nu : Z) (h : heap) : option (Z * heap) :=
  let nu := if nu <? 4096 then 4096 else nu in
  let '(p, h) := h_sbrk (s32 (nu * HEADER)) h in
  if p =? -1 then Some (0, h) else
  let hp := p in
  let h := set_size hp nu h in
  h ← free fuel (hp + HEADER) h;
  Some (h_freep h, h).

(** [malloc] takes the end of the block [p], or all of it. *)
Definition take_block (nunits prevp p : Z) (h : heap) : Z * heap :=
  let '(p, h) :=
    if siz h p =? nunits then (p, set_ptr prevp (nxt h p) h)
    else
      let h := set_size p (siz h p - nunits) h in
      let p := p + HEADER * siz h p in
      (p, set_size p nunits h) in
  (p + HEADER, set_freep prevp h).

Fixpoint malloc_loop (fuel : nat) (nunits prevp p : Z) (h : heap) : option (Z * heap) :=
  match fuel with
  | O => None
  | S fuel' =>
      if nunits <=? siz h p then Some (take_block nunits prevp p h)
      else if p =? h_freep h then
        '(p, h) ← morecore fuel nunits h;
        if p =? 0 then Some (0, h) else malloc_loop fuel' nunits p (nxt h p) h
      else malloc_loop fuel' nunits p (nxt h p) h
  end.

Section Allocator.
Context (base : Z).

Definition malloc_init (h : heap) : heap :=
  if h_freep h =? 0 then set_size base 0 (set_freep base (set_ptr base base h)) else h.

Definition units_for (nbytes : Z) : Z := (nbytes + HEADER - 1) / HEADER + 1.

Definition malloc (fuel : nat) (nbytes : Z) (h : heap) : option (Z * heap) :=
  let nunits := u32 (units_for nbytes) in
  let h := malloc_init h in
  malloc_loop fuel nunits (h_freep h) (nxt h (h_freep h)) h.

(** * The free list *)

(** A block: the address of its header, its size in units of 16 bytes. *)
Local Abbreviation block := (Z * Z)%type.
Definition stop (x : block) : Z := fst x + HEADER * snd x.
Definition disj (x y : block) : Prop := stop x <= fst y \/ stop y <= fst x.
Definition units (l : list block) : Z := foldr (fun x n => snd x + n) 0 l.

Definition head_addr (l : list block) (e : Z) : Z := match l with [] => e | x :: _ => fst x end.

(** The headers of the blocks [l], each pointing to the next, the last to
    [e]. *)
Fixpoint seg (h : heap) (l : list block) (e : Z) : Prop :=
  match l with
  | [] => True
  | x :: l' => nxt h (fst x) = head_addr l' e /\ siz h (fst x) = snd x /\ seg h l' e
  end.

(** Blocks in the order of their addresses, from beyond [lo] up to [hi], with a
    gap between any two. *)
Fixpoint ascend (lo : Z) (l : list block) (hi : Z) : Prop :=
  match l with
  | [] => lo <= hi
  | x :: l' => lo < fst x /\ 0 < snd x /\ ascend (stop x) l' hi
  end.

Definition apart (x : block) (l : list block) : Prop := Forall (disj x) l.
Fixpoint all_apart (l : list block) : Prop :=
  match l with
  | [] => True
  | x :: l' => apart x l' /\ all_apart l'
  end.

(** A block handed out: its header has its size, and it is in the heap. *)
Definition used_ok (h : heap) (x : block) : Prop :=
  0 < snd x /\ base < fst x /\ stop x <= h_brk h /\ siz h (fst x) = snd x.

(** [bs] are the free blocks and [used] those handed out. *)
Record heap_inv (h : heap) (bs used : list block) : Prop := {
  inv_seg : seg h ((base, 0) :: bs) base;
  inv_ord : ascend base bs (h_brk h);
  inv_freep : h_freep h ∈ fst <$> (base, 0) :: bs;
  inv_used : Forall (used_ok h) used;
  inv_apart : Forall (fun x => apart x bs) used;
  inv_disj : all_apart used;
  inv_base : 0 < base /\ base + HEADER <= h_brk h;
  inv_brk : h_brk h <= h_top h <= 2 ^ 36 }.

Lemma head_addr_app l l' e : head_addr (l ++ l') e = head_addr l (head_addr l' e).
Proof using Type. by destruct l. Qed.
Lemma seg_app h l l' e : seg h (l ++ l') e <-> seg h l (head_addr l' e) /\ seg h l' e.
Proof using Type. induction l as [|x l IH]; cbn [app seg]; [tauto|]. rewrite head_addr_app, IH. tauto. Qed.
Lemma seg_frame h h' l e :
  (forall a, a ∈ fst <$> l -> nxt h' a = nxt h a /\ siz h' a = siz h a) -> seg h l e -> seg h' l e.
Proof using Type.
  induction l as [|x l IH]; intros H; [done|]. cbn. destruct (H (fst x)) as [-> ->]; [set_solver|].
  intros (? & ? & ?). split_and!; [done..|]. apply IH; [set_solver|done].
Qed.

Lemma nxt_set_ptr a p h x : nxt (set_ptr a p h) x = if decide (x = a) then p else nxt h x.
Proof using Type.
  unfold nxt, set_ptr. cbn. case_decide as D; [subst; by rewrite lookup_insert_eq|]. by rewrite lookup_insert_ne.
Qed.
Lemma nxt_set_size a n h x : nxt (set_size a n h) x = nxt h x.
Proof using Type. done. Qed.
Lemma u32_small n : 0 <= n < 2 ^ 32 -> u32 n = n.
Proof using Type. apply Z.mod_small. Qed.
Lemma siz_set_size a n h x : siz (set_size a n h) x = if decide (x = a) then u32 n else siz h x.
Proof using Type.
  unfold siz, set_size. cbn. case_decide as D; [subst; by rewrite lookup_insert_eq|]. by rewrite lookup_insert_ne.
Qed.

Lemma ascend_app lo l l' hi : ascend lo (l ++ l') hi <-> ascend lo l (foldl (fun _ => stop) lo l) /\ ascend (foldl (fun _ => stop) lo l) l' hi.
Proof using Type.
  revert lo. induction l as [|x l IH]; intros lo; cbn; [split; [by intros|tauto]|]. rewrite IH. tauto.
Qed.
Lemma ascend_in lo l hi x : ascend lo l hi -> x ∈ l -> lo < fst x /\ 0 < snd x /\ stop x <= hi.
Proof using Type.
  revert lo. induction l as [|y l IH]; intros lo; cbn; [set_solver|]. intros (H1 & H2 & H3) [->|Hx]%elem_of_cons.
  - split_and!; [done..|]. clear IH. revert H3. generalize (stop y). induction l as [|z l IH]; intros m; cbn; [done|].
    intros (? & ? & Hz). apply IH in Hz. unfold stop, HEADER in *. lia.
  - destruct (IH _ H3 Hx) as (? & ? & ?). unfold stop, HEADER in *. split_and!; lia.
Qed.
Lemma ascend_le lo l hi : ascend lo l hi -> lo <= hi.
Proof using Type.
  destruct l as [|x l]; [done|]. intros H. destruct (ascend_in _ _ _ x H) as (? & ? & ?); [set_solver|].
  unfold stop, HEADER in *. lia.
Qed.
Lemma ascend_weaken lo lo' l hi hi' : ascend lo l hi -> lo' <= lo -> hi <= hi' -> ascend lo' l hi'.
Proof using Type.
  revert lo lo'. induction l as [|x l IH]; intros lo lo'; cbn; [lia|]. intros (? & ? & ?) ? ?. split_and!; [lia|done|].
  by eapply IH.
Qed.
Lemma units_app l l' : units (l ++ l') = units l + units l'.
Proof using Type. unfold units. induction l as [|x l IH]; cbn; lia. Qed.
Lemma ascend_units lo l hi : ascend lo l hi -> 0 <= units l /\ lo + HEADER * units l <= hi.
Proof using Type.
  unfold units. revert lo. induction l as [|x l IH]; intros lo; cbn; [lia|]. intros (? & ? & H). apply IH in H.
  unfold stop, HEADER in *. lia.
Qed.

(** ** The place of a block *)

Lemma locate x bs hi b :
  fst x < fst b -> stop x <= fst b -> apart b bs -> ascend (stop x) bs hi ->
  exists l1 t l2, x :: bs = l1 ++ t :: l2 /\ fst t < fst b /\ stop t <= fst b /\
    match l2 with [] => True | y :: _ => stop b <= fst y end.
Proof using Type.
  revert x. induction bs as [|y bs IH]; intros x H1 H2 Ha Ho; [by exists [], x, []|].
  apply Forall_cons in Ha as [Hd Ha]. destruct Ho as (H3 & H4 & Ho).
  destruct Hd as [Hd|Hd]; [by exists [], x, (y :: bs)|].
  destruct (IH y) as (l1 & t & l2 & E & H); [unfold stop, HEADER in *; lia|done..|].
  exists (x :: l1), t, l2. cbn. by rewrite <- E.
Qed.

Lemma order_split bs hi m x m' :
  ascend base bs hi -> (base, 0) :: bs = m ++ x :: m' ->
  ascend (stop x) m' hi /\ base <= fst x /\ fst x <= stop x.
Proof using Type.
  intros Ho E. destruct m as [|y m]; injection E as <- E.
  - subst m'. unfold stop, HEADER. cbn [fst snd]. rewrite Z.mul_0_r, Z.add_0_r. split_and!; [done|lia|lia].
  - rewrite E in Ho. apply ascend_app in Ho as [Ho1 (H2 & H3 & H4)]. apply ascend_le in Ho1.
    split; [done|]. unfold stop, HEADER in *. lia.
Qed.

(** The condition on which the loop of [free] stops at [p]. *)
Definition halts (h : heap) (bp p : Z) : bool :=
  ((p <? bp) && (bp <? nxt h p)) || ((nxt h p <=? p) && ((p <? bp) || (bp <? nxt h p))).

Lemma halts_place h bs hi b l1 t l2 :
  seg h ((base, 0) :: bs) base -> ascend base bs hi -> (base, 0) :: bs = l1 ++ t :: l2 ->
  base < fst b -> 0 < snd b -> fst t < fst b ->
  match l2 with [] => True | y :: _ => stop b <= fst y end ->
  halts h (fst b) (fst t) = true /\ forall x, x ∈ l1 \/ x ∈ l2 -> halts h (fst b) (fst x) = false.
Proof using Type.
  intros Hs Ho E Hb Hn Ht Hl2. unfold halts.
  assert (forall m x m', (base, 0) :: bs = m ++ x :: m' -> nxt h (fst x) = head_addr m' base) as Hnxt.
  { intros m x m' E'. rewrite E' in Hs. apply seg_app in Hs as [_ (? & _)]. done. }
  split.
  - rewrite (Hnxt _ _ _ E). destruct (order_split _ _ _ _ _ Ho E) as (_ & ? & _).
    destruct l2 as [|y l2]; cbn; unfold stop, HEADER in *; zbool; lia.
  - intros x [Hx|Hx]; apply list_elem_of_split in Hx as (m & m' & ->).
    + assert ((base, 0) :: bs = m ++ x :: (m' ++ t :: l2)) as E' by (rewrite E, <- app_assoc; done).
      rewrite (Hnxt _ _ _ E'). destruct (order_split _ _ _ _ _ Ho E') as (Ho' & Hbx & Hsx).
      destruct (ascend_in _ _ _ t Ho') as (? & _); [set_solver|].
      assert (fst x < head_addr (m' ++ t :: l2) base <= fst t).
      { destruct m' as [|y m']; cbn in *; [lia|]. destruct Ho' as (? & ? & Ho'').
        destruct (ascend_in _ _ _ t Ho'') as (? & _); [set_solver|]. unfold stop, HEADER in *. lia. }
      zbool; lia.
    + assert ((base, 0) :: bs = (l1 ++ t :: m) ++ x :: m') as E' by (rewrite E, <- app_assoc; done).
      rewrite (Hnxt _ _ _ E'). destruct (order_split _ _ _ _ _ Ho E') as (Ho' & Hbx & Hsx).
      assert (fst b < fst x).
      { destruct m as [|y m]; cbn in Hl2; [unfold stop, HEADER in *; lia|].
        destruct (order_split _ _ _ _ _ Ho E) as ((? & ? & Ho'') & _).
        destruct (ascend_in _ _ _ x Ho'') as (? & _); [set_solver|]. unfold stop, HEADER in *. lia. }
      destruct m' as [|y m']; cbn in *; unfold stop, HEADER in *; zbool; lia.
Qed.

Lemma free_walk h bp c1 t c2 e fuel :
  seg h (c1 ++ t :: c2) e -> Forall (fun x => halts h bp (fst x) = false) c1 -> halts h bp (fst t) = true ->
  (length c1 < fuel)%nat -> free_loop fuel h bp (head_addr (c1 ++ t :: c2) e) = Some (fst t).
Proof using Type.
  intros Hs Hc Ht. revert fuel. induction Hc as [|x c1 Hx Hc IH]; intros [|fuel] Hf; cbn in Hf; try lia; cbn [free_loop app head_addr].
  - revert Ht. unfold halts. destruct (_ && _); [done|]. cbn [orb]. by intros ->.
  - revert Hx. unfold halts. destruct (_ && _); [done|]. cbn [orb]. intros ->.
    destruct Hs as (-> & _ & Hs). apply IH; [done|lia].
Qed.

(** The list read from any of its blocks on. *)
Lemma seg_rotate h x y e : seg h (x ++ y) (head_addr (x ++ y) e) -> seg h (y ++ x) (head_addr (y ++ x) e).
Proof using Type.
  destruct x as [|a x]; [by rewrite app_nil_r|]. destruct y as [|b y]; [by rewrite app_nil_r|].
  rewrite !seg_app, !head_addr_app. cbn [head_addr]. tauto.
Qed.

Lemma free_loop_place h bs used b l1 t l2 fuel :
  heap_inv h bs used -> base < fst b -> 0 < snd b -> (base, 0) :: bs = l1 ++ t :: l2 -> fst t < fst b ->
  match l2 with [] => True | y :: _ => stop b <= fst y end -> (length bs < fuel)%nat ->
  free_loop fuel h (fst b) (h_freep h) = Some (fst t).
Proof using Type.
  intros Hi Hb Hn E Ht Hl2 Hf. destruct (halts_place h bs _ b l1 t l2 (inv_seg _ _ _ Hi) (inv_ord _ _ _ Hi) E Hb Hn Ht Hl2) as [H1 H2].
  pose proof (inv_freep _ _ _ Hi) as Hfp. apply list_elem_of_fmap in Hfp as (f & Ef & Hf').
  apply list_elem_of_split in Hf' as (x & y & Exy).
  pose proof (inv_seg _ _ _ Hi) as Hs. rewrite Exy in Hs. change base with (head_addr ((base, 0) :: bs) 0) in Hs.
  rewrite Exy in Hs. apply seg_rotate in Hs.
  assert (t ∈ (f :: y) ++ x) as Hin.
  { assert (t ∈ x ++ f :: y) by (rewrite <- Exy, E; set_solver). set_solver. }
  apply list_elem_of_split_l in Hin as (c1 & c2 & Ec & Hnin).
  assert (length c1 < fuel)%nat as Hlen.
  { apply (f_equal length) in Ec as L1. apply (f_equal length) in Exy as L2. clear -Hf L1 L2.
    rewrite !length_app in L1. rewrite length_app in L2. cbn in L1, L2. lia. }
  rewrite Ec in Hs. rewrite <- (free_walk h (fst b) c1 t c2 _ fuel Hs); [|..|done|done].
  - f_equal. rewrite Ef. rewrite <- Ec. done.
  - apply Forall_forall. intros z Hz. apply H2.
    assert (z ∈ (base, 0) :: bs) as Hz'.
    { rewrite Exy. assert (z ∈ (f :: y) ++ x) by (rewrite Ec; set_solver). set_solver. }
    rewrite E in Hz'. assert (z <> t) by (by intros ->). set_solver.
Qed.

(** ** Joining neighbours *)

Definition join_r (b : block) (l : list block) : block * list block :=
  match l with
  | y :: l' => if stop b =? fst y then ((fst b, snd b + snd y), l') else (b, l)
  | [] => (b, [])
  end.
Definition join_l (t b : block) (l : list block) : list block :=
  if stop t =? fst b then (fst t, snd t + snd b) :: l else t :: b :: l.
(** The list after [free]. *)
Definition put_block (l1 : list block) (t : block) (l2 : list block) (b : block) : list block :=
  let '(b', l2') := join_r b l2 in l1 ++ join_l t b' l2'.

Lemma join_r_ascend lo b l hi b' l' :
  join_r b l = (b', l') -> lo < fst b -> 0 < snd b -> stop b <= hi ->
  match l with [] => True | y :: _ => stop b <= fst y end -> ascend (stop b) l hi \/ (exists m, m <= fst b /\ ascend m l hi) ->
  ascend lo (b' :: l') hi /\ fst b' = fst b /\ snd b <= snd b' /\ units (b' :: l') = snd b + units l.
Proof using Type.
  intros E H1 H2 H3 Hl Ho. destruct l as [|y l]; cbn in E.
  - injection E as <- <-. cbn. unfold stop, HEADER in *. split_and!; lia.
  - assert (0 < snd y /\ ascend (stop y) l hi) as [Hy Hyl] by (destruct Ho as [(? & ? & ?)|(m & ? & ? & ? & ?)]; done).
    destruct (Z.eqb_spec (stop b) (fst y)) as [Eq|Ne]; injection E as <- <-; cbn [fst snd ascend units foldr].
    + replace (stop (fst b, snd b + snd y)) with (stop y) by (unfold stop, HEADER in *; cbn; lia).
      split_and!; [lia|lia|done|done|lia|]. unfold units. lia.
    + split_and!; [lia|done|lia|done|done|done|lia|]. unfold units. lia.
Qed.

(** Memory apart from both neighbours is apart from their union. *)
Lemma disj_union x a b n m : 0 < snd x -> disj x (a, n) -> disj x (b, m) -> a + HEADER * n = b -> disj x (a, n + m).
Proof using Type. unfold disj, stop, HEADER. cbn. lia. Qed.

Lemma apart_join_r x b l b' l' : join_r b l = (b', l') -> 0 < snd x -> disj x b -> apart x l -> disj x b' /\ apart x l'.
Proof using Type.
  intros E Hx Hd Ha. destruct l as [|y l]; cbn in E; [by injection E as <- <-|].
  apply Forall_cons in Ha as [Hy Ha].
  destruct (Z.eqb_spec (stop b) (fst y)) as [Eq|Ne]; injection E as <- <-; [|by split; [done|constructor]].
  split; [|done]. destruct b as [a n], y as [c m]. by eapply disj_union.
Qed.
Lemma apart_join_l x t b l : 0 < snd x -> disj x t -> disj x b -> apart x l -> apart x (join_l t b l).
Proof using Type.
  intros Hx Ht Hb Hl. unfold join_l. destruct (Z.eqb_spec (stop t) (fst b)); [|by constructor; [done|constructor]].
  constructor; [|done]. destruct t as [a n], b as [c m]. by eapply disj_union.
Qed.

(** The blocks of the list with [b] put in its place; [t] is [base] or a
    block. *)
Lemma put_block_list bs hi l1 t l2 b :
  ascend base bs hi -> (base, 0) :: bs = l1 ++ t :: l2 -> fst t < fst b -> stop t <= fst b -> 0 < snd b ->
  stop b <= hi -> base < fst b -> match l2 with [] => True | y :: _ => stop b <= fst y end ->
  exists bs', put_block l1 t l2 b = (base, 0) :: bs' /\ ascend base bs' hi /\ units bs' = units bs + snd b /\
    (forall x, 0 < snd x -> base < fst x -> apart x bs -> disj x b -> apart x bs') /\
    (exists y, y ∈ bs' /\ snd b <= snd y) /\ (fst t ∈ fst <$> (base, 0) :: bs') /\ (length bs' <= S (length bs))%nat.
Proof using Type.
  intros Ho E H1 H2 H3 H4 Hb Hl2. unfold put_block.
  destruct (order_split _ _ _ _ _ Ho E) as (Ho2 & Hbt & Hst). destruct (join_r b l2) as [b' l2'] eqn:Ej.
  destruct (join_r_ascend (fst t) b l2 hi b' l2' Ej) as (Hasc & Hfb & Hsb & Hu); [done..|by right; exists (stop t)|].
  assert (length l2' <= length l2)%nat as Hlen.
  { destruct l2 as [|y l2]; cbn in Ej; [by injection Ej as <- <-|]. destruct (_ =? _); injection Ej as <- <-; cbn; lia. }
  destruct Hasc as (Hlo & Hpos & Hasc). cbn in Hu. destruct l1 as [|z l1]; injection E as Ez E.
  - subst t l2. unfold join_l. rewrite (proj2 (Z.eqb_neq _ _)).
    2: { unfold stop, HEADER in *. cbn in *. lia. }
    exists (b' :: l2'). split; [done|]. split; [by repeat split; try done; cbn in *; lia|].
    split; [unfold units in *; cbn in *; lia|].
    split; [intros x Hx Hbx Ha Hd; destruct (apart_join_r x b bs b' l2' Ej Hx Hd Ha); by constructor|].
    split; [exists b'; split; [set_solver|lia]|]. split; [set_solver|cbn; lia].
  - subst z. exists (l1 ++ join_l t b' l2'). rewrite E in Ho |- *. apply ascend_app in Ho as [Ho1 (Ht1 & Ht2 & Ht3)].
    split; [done|]. split.
    { apply ascend_app. split; [done|]. unfold join_l. destruct (Z.eqb_spec (stop t) (fst b')) as [Eq|Ne].
      - cbn. split_and!; [done|lia|]. by replace (stop (fst t, snd t + snd b')) with (stop b') by (unfold stop, HEADER in *; cbn; lia).
      - cbn. split_and!; [done..| |done|done]. lia. }
    rewrite !units_app. unfold join_l. split; [destruct (_ =? _); unfold units in *; cbn in *; lia|]. split.
    { intros x Hx Hbx Ha Hd. apply Forall_app in Ha as [Ha1 Ha2]. apply Forall_cons in Ha2 as [Hat Ha2].
      destruct (apart_join_r x b l2 b' l2' Ej Hx Hd Ha2). apply Forall_app. split; [done|]. by apply apart_join_l. }
    split; [|split].
    + destruct (_ =? _); [exists (fst t, snd t + snd b')|exists b']; (split; [set_solver|cbn; lia]).
    + destruct (_ =? _); rewrite fmap_cons, fmap_app, !fmap_cons; set_solver.
    + rewrite !length_app. destruct (_ =? _); cbn; lia.
Qed.

(** ** The headers after [free] *)

(** [h'] differs from [h] only in the header at [a]. *)
Definition only (a : Z) (h h' : heap) : Prop :=
  (forall x, x <> a -> nxt h' x = nxt h x /\ siz h' x = siz h x) /\
  h_freep h' = h_freep h /\ h_brk h' = h_brk h /\ h_top h' = h_top h.

Lemma seg_only a h h' l e : only a h h' -> a ∉ fst <$> l -> seg h l e -> seg h' l e.
Proof using Type. intros [H _] Ha. apply seg_frame. intros x Hx. apply H. by intros ->. Qed.

Lemma only_set_ptr a p h : only a h (set_ptr a p h).
Proof using Type. split; [|done]. intros x Hx. rewrite nxt_set_ptr, decide_False by done. done. Qed.
Lemma only_set_size a n h : only a h (set_size a n h).
Proof using Type. split; [|done]. intros x Hx. rewrite siz_set_size, decide_False by done. done. Qed.
Lemma only_trans a h h1 h2 : only a h h1 -> only a h1 h2 -> only a h h2.
Proof using Type.
  intros [A1 (? & ? & ?)] [A2 (? & ? & ?)]. split; [|split_and!; congruence].
  intros x Hx. destruct (A1 x Hx), (A2 x Hx). split; congruence.
Qed.

Lemma link_next_spec b p h l e b' l' :
  join_r b l = (b', l') -> nxt h p = head_addr l e -> seg h l e -> siz h (fst b) = snd b ->
  fst b ∉ fst <$> l -> (l = [] -> stop b <> e) -> 0 <= snd b -> snd b + units l < 2 ^ 32 -> Forall (fun x => 0 <= snd x) l ->
  let h1 := link_next (fst b) p h in
  nxt h1 (fst b) = head_addr l' e /\ siz h1 (fst b) = snd b' /\ only (fst b) h h1.
Proof using Type.
  intros Ej Hp Hs Hsb Hnin He Hb0 Hu Hpos. unfold link_next. rewrite Hsb, Hp. fold (stop b).
  destruct l as [|y l]; cbn [head_addr join_r] in *.
  - injection Ej as <- <-. rewrite (proj2 (Z.eqb_neq _ _)) by auto.
    rewrite nxt_set_ptr, decide_True by done. split; [done|]. split; [done|apply only_set_ptr].
  - destruct Hs as (Hn & Hsz & Hs). destruct (Z.eqb_spec (stop b) (fst y)); injection Ej as <- <-.
    + rewrite nxt_set_ptr, decide_True by done. cbn zeta. split; [by rewrite !nxt_set_size, Hp|]. split.
      * transitivity (siz (set_size (fst b) (snd b + siz h (fst y)) h) (fst b)); [done|].
        rewrite siz_set_size, decide_True, Hsz by done. cbn. apply u32_small.
        apply Forall_cons in Hpos as [? Hpos]. unfold units in Hu. cbn in Hu.
        assert (0 <= foldr (fun x n => snd x + n) 0 l) by (clear -Hpos; induction Hpos; cbn; lia). lia.
      * eapply only_trans; [apply only_set_size|apply only_set_ptr].
    + rewrite nxt_set_ptr, decide_True by done. split; [done|]. split; [done|apply only_set_ptr].
Qed.

Lemma link_prev_spec t b h l e :
  nxt h (fst b) = head_addr l e -> siz h (fst b) = snd b -> siz h (fst t) = snd t -> seg h l e ->
  fst t <> fst b -> fst t ∉ fst <$> l -> 0 <= snd t + snd b < 2 ^ 32 ->
  let h1 := link_prev (fst b) (fst t) h in
  seg h1 (join_l t b l) e /\ only (fst t) h h1.
Proof using Type.
  intros Hn Hsb Hst Hs Hne Hnin Hu. unfold link_prev, join_l. rewrite Hst. fold (stop t).
  destruct (Z.eqb_spec (stop t) (fst b)) as [E|E].
  - set (h1 := set_ptr _ _ _). assert (only (fst t) h h1) as Ho
      by (eapply only_trans; [apply only_set_size|apply only_set_ptr]).
    split; [|done]. cbn [seg fst snd]. unfold h1 at 1. rewrite nxt_set_ptr, decide_True by done.
    split; [exact Hn|]. split; [|by eapply seg_only].
    transitivity (siz (set_size (fst t) (snd t + siz h (fst b)) h) (fst t)); [done|].
    rewrite siz_set_size, decide_True, Hsb by done. by apply u32_small.
  - set (h1 := set_ptr _ _ _). assert (only (fst t) h h1) as Ho by apply only_set_ptr. split; [|done].
    cbn [seg]. unfold h1 at 1. rewrite nxt_set_ptr, decide_True by done. split; [done|]. split; [exact Hst|].
    destruct (proj1 Ho (fst b)) as [-> ->]; [done|]. split_and!; [done..|]. by eapply seg_only.
Qed.

Lemma disj_sym x y : disj x y -> disj y x.
Proof using Type. unfold disj. tauto. Qed.
Lemma disj_ne x y : 0 < snd x -> 0 < snd y -> disj x y -> fst x <> fst y.
Proof using Type. unfold disj, stop, HEADER. lia. Qed.

(** No block of the list has the address of memory apart from it. *)
Lemma apart_nin x bs hi :
  0 < snd x -> base < fst x -> ascend base bs hi -> apart x bs -> fst x ∉ fst <$> (base, 0) :: bs.
Proof using Type.
  intros Hx Hb Ho Ha. cbn. rewrite elem_of_cons, list_elem_of_fmap. intros [E|(y & E & Hy)]; [lia|].
  apply (proj1 (Forall_forall _ _) Ha) in Hy as Hd. destruct (ascend_in _ _ _ _ Ho Hy) as (_ & ? & _).
  by apply (disj_ne x y).
Qed.
(** No other block starts inside a block of the list. *)
Lemma order_inside bs hi l1 t l2 a :
  ascend base bs hi -> (base, 0) :: bs = l1 ++ t :: l2 -> fst t <= a <= stop t ->
  (a ∉ fst <$> l1) /\ (a ∉ fst <$> l2).
Proof using Type.
  intros Ho E Ha. split; rewrite list_elem_of_fmap; intros (y & Ey & Hy).
  - apply list_elem_of_split in Hy as (m & m' & ->). rewrite <- app_assoc in E. cbn in E.
    destruct (order_split _ _ _ _ _ Ho E) as (Ho' & _ & ?). destruct (ascend_in _ _ _ t Ho') as (? & _); [set_solver|lia].
  - destruct (order_split _ _ _ _ _ Ho E) as (Ho' & _ & ?). destruct (ascend_in _ _ _ y Ho' Hy) as (? & _). lia.
Qed.
Lemma order_nodup bs hi l1 t l2 :
  ascend base bs hi -> (base, 0) :: bs = l1 ++ t :: l2 -> (fst t ∉ fst <$> l1) /\ (fst t ∉ fst <$> l2).
Proof using Type.
  intros Ho E. apply (order_inside bs hi l1 t l2 (fst t) Ho E). destruct (order_split _ _ _ _ _ Ho E) as (_ & _ & ?). lia.
Qed.

(** The list after [free]. *)
Lemma link_seg h bs hi l1 t l2 b :
  seg h ((base, 0) :: bs) base -> ascend base bs hi -> (base, 0) :: bs = l1 ++ t :: l2 ->
  used_ok h b -> apart b bs -> fst t < fst b -> stop t <= fst b -> stop b <= hi ->
  match l2 with [] => True | y :: _ => stop b <= fst y end -> hi <= 2 ^ 36 -> 0 < base ->
  let h' := link_prev (fst b) (fst t) (link_next (fst b) (fst t) h) in
  seg h' (put_block l1 t l2 b) base /\
  (forall x, x <> fst b -> x <> fst t -> siz h' x = siz h x) /\
  h_freep h' = h_freep h /\ h_brk h' = h_brk h /\ h_top h' = h_top h.
Proof using Type.
  intros Hs Ho E (Hn & Hb & _ & Hsz) Ha Ht Hst Hhi Hl2 Hmax Hb0.
  destruct (put_block_list bs hi l1 t l2 b Ho E Ht Hst Hn Hhi Hb Hl2) as (bs' & Eput & Ho' & Hu & _).
  pose proof (ascend_units _ _ _ Ho') as [_ Hmax']. unfold HEADER in Hmax'.
  destruct (order_nodup _ _ _ _ _ Ho E) as [Hn1 Hn2]. pose proof (apart_nin b bs hi Hn Hb Ho Ha) as Hnb.
  rewrite E in Hs, Hnb. rewrite fmap_app, fmap_cons in Hnb. apply seg_app in Hs as (Hs1 & Hnt & Hst' & Hs2). cbn in Hs1.
  destruct (order_split _ _ _ _ _ Ho E) as (Ho2 & Hbt & _). pose proof (ascend_units _ _ _ Ho2) as [Hu2 _].
  assert (0 <= snd t /\ units bs = units l1 + snd t + units l2 /\ 0 <= units l1) as (Ht0 & Hub & Hu1).
  { destruct l1 as [|z l1]; injection E as Ez E.
    - subst t bs. cbn. lia.
    - subst z. rewrite E in Ho |- *. apply ascend_app in Ho as [Ho1 (_ & ? & _)].
      apply ascend_units in Ho1 as [? _]. rewrite units_app. unfold units in *. cbn in *. lia. }
  unfold put_block. destruct (join_r b l2) as [b' l2'] eqn:Ej.
  destruct (link_next_spec b (fst t) h l2 base b' l2' Ej Hnt Hs2 Hsz) as (N1 & Z1 & O1);
    [set_solver|unfold stop, HEADER in *; lia|lia|lia| |].
  { apply Forall_forall. intros y Hy. destruct (ascend_in _ _ _ y Ho2 Hy) as (_ & ? & _). lia. }
  set (h1 := link_next (fst b) (fst t) h) in *.
  assert (seg h1 l2' base /\ fst b' = fst b /\ (fst t ∉ fst <$> l2') /\ 0 <= snd b' <= snd b + units l2)
    as (Hs2' & Eb & Hn2' & Hub').
  { apply (seg_only _ _ _ _ _ O1) in Hs2; [|set_solver].
    destruct l2 as [|y l2]; cbn in Ej; [injection Ej as <- <-; split_and!; try done; cbn; lia|].
    destruct Ho2 as (_ & ? & Ho2). pose proof (ascend_units _ _ _ Ho2) as [? _]. unfold units in *. cbn in *.
    destruct (_ =? _); injection Ej as <- <-; cbn in *; split_and!; try done; first [lia|tauto|set_solver]. }
  destruct (link_prev_spec t b' h1 l2' base) as [Hseg O2]; [by rewrite Eb| |..|done|lia|done|lia|].
  { by rewrite Eb. }
  { by rewrite (proj2 (proj1 O1 (fst t) ltac:(lia))). }
  rewrite Eb in Hseg, O2. set (h2 := link_prev (fst b) (fst t) h1) in *. cbv zeta. split.
  - apply seg_app. split; [|done].
    assert (head_addr (join_l t b' l2') base = fst t) as -> by (unfold join_l; by destruct (_ =? _)).
    eapply seg_only; [exact O2|done|]. eapply seg_only; [exact O1|set_solver|done].
  - destruct O1 as (O1 & ? & ? & ?), O2 as (O2 & ? & ? & ?). split_and!; [|congruence..].
    intros x Hx1 Hx2. by rewrite (proj2 (O2 x Hx2)), (proj2 (O1 x Hx1)).
Qed.

Lemma free_inv h bs used b fuel :
  heap_inv h bs (b :: used) -> (length bs < fuel)%nat ->
  exists h' bs', free fuel (fst b + HEADER) h = Some h' /\ heap_inv h' bs' used /\
    units bs' = units bs + snd b /\ h_brk h' = h_brk h /\ h_top h' = h_top h /\
    (exists y, y ∈ bs' /\ snd b <= snd y) /\ (length bs' <= S (length bs))%nat.
Proof using Type.
  intros Hi Hf. pose proof Hi as [Hs Ho Hfp Hus Hap Hdj Hb0 Hmax].
  apply Forall_cons in Hus as [Hb Hus], Hap as [Hab Hap]. destruct Hdj as [Hbu Hdj].
  pose proof Hb as (Hn & Hbb & Hhi & Hsz).
  destruct (locate (base, 0) bs (h_brk h) b) as (l1 & t & l2 & E & Ht & Hst & Hl2);
    [done|unfold stop, HEADER; cbn; lia|done|unfold stop, HEADER; cbn; by rewrite Z.add_0_r|].
  destruct (put_block_list bs _ l1 t l2 b Ho E Ht Hst Hn Hhi Hbb Hl2) as (bs' & Eput & Ho' & Hu & Hapart & Hbig & Hint & Hlen).
  destruct (link_seg h bs _ l1 t l2 b Hs Ho E Hb Hab Ht Hst Hhi Hl2 ltac:(lia) (proj1 Hb0)) as (Hs' & Hsame & F1 & F2 & F3).
  set (h' := link_prev (fst b) (fst t) (link_next (fst b) (fst t) h)) in *.
  exists (set_freep (fst t) h'), bs'. unfold free. replace (fst b + HEADER - HEADER) with (fst b) by lia.
  rewrite (free_loop_place h bs _ b l1 t l2 fuel Hi Hbb Hn E Ht Hl2 Hf). cbn [mbind option_bind].
  split; [done|]. split; [|split; [done|]; split; [exact F2|]; split; [exact F3|done]].
  rewrite Eput in Hs'. split; cbn [set_freep h_freep h_brk h_top]; rewrite ?F2, ?F3; try done.
  - by eapply seg_frame; [|exact Hs'].
  - apply Forall_forall. intros x Hx. pose proof (proj1 (Forall_forall _ _) Hus x Hx) as (Hx0 & Hbx & Hxhi & Hxs).
    pose proof (proj1 (Forall_forall _ _) Hbu x Hx) as Hd. pose proof (proj1 (Forall_forall _ _) Hap x Hx) as Hxa.
    split; [done|]. split; [done|]. split; [cbn; by rewrite F2|]. change (siz h' (fst x) = snd x). rewrite Hsame; [done|..].
    + apply disj_ne; [done..|]. by apply disj_sym.
    + pose proof (apart_nin x bs _ Hx0 Hbx Ho Hxa) as Hnin. rewrite E in Hnin. set_solver.
  - apply Forall_forall. intros x Hx. pose proof (proj1 (Forall_forall _ _) Hus x Hx) as (Hx0 & Hbx & _).
    apply Hapart; [done..|by apply (proj1 (Forall_forall _ _) Hap)|].
    apply disj_sym. by apply (proj1 (Forall_forall _ _) Hbu).
Qed.

(** ** More memory *)

Lemma morecore_inv h bs used nu fuel :
  heap_inv h bs used -> 0 < nu -> Z.max nu 4096 * HEADER < 2 ^ 31 -> (length bs < fuel)%nat ->
  (h_top h < h_brk h + Z.max nu 4096 * HEADER /\ morecore fuel nu h = Some (0, h)) \/
  exists h' bs', morecore fuel nu h = Some (h_freep h', h') /\ heap_inv h' bs' used /\
    units bs' = units bs + Z.max nu 4096 /\ h_brk h' = h_brk h + Z.max nu 4096 * HEADER /\ h_top h' = h_top h /\
    (exists y, y ∈ bs' /\ nu <= snd y) /\ (length bs' <= S (length bs))%nat.
Proof using Type.
  intros Hi Hnu Hmax Hf. unfold morecore.
  replace (if nu <? 4096 then 4096 else nu) with (Z.max nu 4096) by (zbool; lia).
  set (n := Z.max nu 4096) in *. assert (4096 <= n /\ nu <= n) as [Hn4 Hnn] by lia.
  assert (s32 (n * HEADER) = n * HEADER) as -> by (unfold s32, HEADER in *; rewrite Z.mod_small; lia).
  unfold h_sbrk. rewrite (proj2 (Z.leb_le 0 _)) by (unfold HEADER; lia). cbn [andb].
  pose proof Hi as [Hs Ho Hfp Hus Hap Hdj [Hb0 Hbb] Hbrk].
  destruct (Z.ltb_spec (h_top h) (h_brk h + n * HEADER)) as [Hlt|Hge]; [left; by rewrite Z.eqb_refl|right].
  rewrite (proj2 (Z.eqb_neq (h_brk h) (-1))) by (unfold HEADER in *; lia).
  set (h0 := Heap _ _ _ _ _). set (h1 := set_size (h_brk h) n h0). set (b := (h_brk h, n)).
  assert (forall x, x <> h_brk h -> siz h1 x = siz h x) as Hsz.
  { intros x Hx. unfold h1. rewrite siz_set_size, decide_False by done. done. }
  assert (heap_inv h1 bs (b :: used)) as Hi1.
  { split; cbn [h_brk h_top h_freep set_size h1 h0]; try done.
    - eapply seg_frame; [|exact Hs]. intros a Ha. split; [done|]. apply Hsz. intros ->.
      cbn in Ha. apply elem_of_cons in Ha as [Ha|Ha]; [unfold HEADER in *; lia|].
      apply list_elem_of_fmap in Ha as (y & Ey & Hy). destruct (ascend_in _ _ _ _ Ho Hy) as (_ & ? & ?).
      unfold stop, HEADER in *. lia.
    - eapply ascend_weaken; [exact Ho|lia|unfold HEADER; lia].
    - constructor.
      + unfold used_ok, stop, b. cbn. split_and!; [lia|unfold HEADER in *; lia|lia|].
        unfold h1. rewrite siz_set_size, decide_True by done. apply u32_small. unfold HEADER in *. lia.
      + eapply Forall_impl; [exact Hus|]. intros x (? & ? & ? & ?). unfold used_ok, stop in *. cbn.
        split_and!; [done..|unfold HEADER in *; lia|]. rewrite Hsz; [done|unfold HEADER in *; lia].
    - constructor; [|done]. apply Forall_forall. intros y Hy. destruct (ascend_in _ _ _ _ Ho Hy) as (_ & _ & ?). by right.
    - split; [|done]. eapply Forall_impl; [exact Hus|]. intros x (? & ? & ? & ?). by right.
    - unfold HEADER in *. lia.
    - lia. }
  destruct (free_inv h1 bs used b fuel Hi1 Hf) as (h' & bs' & E & Hi' & Hu & Eb & Et & (y & Hy & Hyn) & Hl).
  exists h', bs'. cbn [b fst] in E. rewrite E. cbn [mbind option_bind].
  split; [done|]. split; [done|]. split; [exact Hu|]. split; [exact Eb|]. split; [exact Et|].
  split; [|done]. exists y. split; [done|]. cbn in Hyn. lia.
Qed.

(** ** Taking a block *)

Lemma cut_list bs hi l1 t x xs l2 :
  ascend base bs hi -> (base, 0) :: bs = l1 ++ t :: x :: l2 ->
  xs = [] \/ (exists n, xs = [(fst x, n)] /\ 0 < n <= snd x) ->
  exists bs', l1 ++ t :: xs ++ l2 = (base, 0) :: bs' /\ ascend base bs' hi /\ units bs' = units bs - snd x + units xs /\
    (forall z, z ∈ bs' -> z ∈ xs \/ (z ∈ bs /\ disj x z)) /\ fst t ∈ fst <$> (base, 0) :: bs'.
Proof using Type.
  intros Ho E Hxs.
  assert (exists m, bs = m ++ x :: l2 /\ l1 ++ t :: xs ++ l2 = (base, 0) :: m ++ xs ++ l2 /\
    fst t ∈ fst <$> (base, 0) :: m) as (m & Em & El & Ht).
  { destruct l1 as [|z l1]; injection E as Ez E.
    - exists []. subst t. split; [done|]. split; [done|set_solver].
    - exists (l1 ++ [t]). subst z. rewrite <- !app_assoc. split; [done|]. split; [done|].
      rewrite fmap_cons, fmap_app. set_solver. }
  exists (m ++ xs ++ l2). split; [done|]. rewrite Em in Ho |- *.
  assert (forall z, z ∈ m -> disj x z) as Hm.
  { intros z Hz. right. apply ascend_app in Ho as [Ho1 (? & _)]. destruct (ascend_in _ _ _ z Ho1 Hz) as (_ & _ & ?). lia. }
  apply ascend_app in Ho as [Ho1 (Hx1 & Hx2 & Ho2)]. split.
  { apply ascend_app. split; [done|]. destruct Hxs as [-> | (n & -> & Hn)]; cbn.
    - eapply ascend_weaken; [exact Ho2|unfold stop, HEADER in *; lia|lia].
    - split_and!; [done|lia|]. eapply ascend_weaken; [exact Ho2|unfold stop, HEADER in *; cbn; lia|lia]. }
  rewrite !units_app. split; [unfold units in *; cbn in *; lia|]. split.
  - intros z Hz. apply elem_of_app in Hz as [Hz|Hz]; [right; split; [set_solver|by apply Hm]|].
    apply elem_of_app in Hz as [Hz|Hz]; [by left|]. right. split; [set_solver|]. left.
    destruct (ascend_in _ _ _ z Ho2 Hz) as (? & _). lia.
  - rewrite fmap_cons, fmap_app in *. set_solver.
Qed.

(** A part of a block is apart from what the block is apart from. *)
Lemma disj_part x b z : 0 < snd b -> fst x <= fst b -> stop b <= stop x -> disj x z -> disj b z.
Proof using Type. unfold disj, stop, HEADER. lia. Qed.

(** A block taken from the list: the headers that change are those of [t], of
    [x] and of the new block. *)
Lemma take_inv h h' bs used l1 t x xs l2 b :
  heap_inv h bs used -> (base, 0) :: bs = l1 ++ t :: x :: l2 ->
  xs = [] \/ (exists n, xs = [(fst x, n)] /\ 0 < n <= snd x) ->
  0 < snd b -> fst x <= fst b -> stop b <= stop x -> Forall (disj b) xs ->
  seg h' (l1 ++ t :: xs ++ l2) base -> siz h' (fst b) = snd b ->
  (forall a, a <> fst x -> a <> fst b -> siz h' a = siz h a) ->
  h_freep h' = fst t -> h_brk h' = h_brk h -> h_top h' = h_top h ->
  exists bs', heap_inv h' bs' (b :: used) /\ units bs' = units bs - snd x + units xs.
Proof using Type.
  intros [Hs Ho Hfp Hus Hap Hdj Hb0 Hbrk] E Hxs Hb Hlo Hhi Hbx Hs' Hsb Hsame F1 F2 F3.
  destruct (cut_list bs (h_brk h) l1 t x xs l2 Ho E Hxs) as (bs' & El & Ho' & Hu & Hin & Ht).
  assert (x ∈ bs) as Hxin.
  { destruct l1 as [|z l1]; injection E as Ez E; rewrite E; set_solver. }
  destruct (ascend_in _ _ _ _ Ho Hxin) as (Hx1 & Hx2 & Hx3).
  exists bs'. split; [|done]. rewrite El in Hs'. split; rewrite ?F1, ?F2, ?F3; try done.
  - constructor; [unfold used_ok; rewrite F2; unfold stop, HEADER in *; split_and!; [done|lia..|done]|].
    apply Forall_forall. intros y Hy. pose proof (proj1 (Forall_forall _ _) Hus y Hy) as (Hy0 & Hyb & Hyhi & Hys).
    pose proof (proj1 (Forall_forall _ _) (proj1 (Forall_forall _ _) Hap y Hy) x Hxin) as Hd.
    unfold used_ok. rewrite F2, Hsame; [done|by apply (disj_ne y x)|].
    apply (disj_ne y b); [done..|]. apply disj_sym. eapply disj_part; [done..|by apply disj_sym].
  - constructor.
    + apply Forall_forall. intros z Hz. destruct (Hin z Hz) as [Hz'|[_ Hz']].
      * by apply (proj1 (Forall_forall _ _) Hbx).
      * by eapply disj_part.
    + apply Forall_forall. intros y Hy. pose proof (proj1 (Forall_forall _ _) Hus y Hy) as (Hy0 & _).
      pose proof (proj1 (Forall_forall _ _) Hap y Hy) as Hya. apply Forall_forall. intros z Hz.
      destruct (Hin z Hz) as [Hz'|[Hz' _]]; [|by apply (proj1 (Forall_forall _ _) Hya)].
      pose proof (proj1 (Forall_forall _ _) Hya x Hxin) as Hd.
      destruct Hxs as [-> | (n & -> & Hn)]; [set_solver|]. apply list_elem_of_singleton in Hz' as ->.
      unfold disj, stop, HEADER in *. cbn. lia.
  - split; [|done]. apply Forall_forall. intros y Hy. eapply disj_part; [done..|]. apply disj_sym.
    by apply (proj1 (Forall_forall _ _) (proj1 (Forall_forall _ _) Hap y Hy)).
Qed.

Lemma seg_freep p h l e : seg h l e -> seg (set_freep p h) l e.
Proof using Type. by apply seg_frame. Qed.

(** All of the block [x]. *)
Lemma take_whole h bs used l1 t x l2 :
  heap_inv h bs used -> (base, 0) :: bs = l1 ++ t :: x :: l2 -> 0 < snd x ->
  let h' := set_freep (fst t) (set_ptr (fst t) (nxt h (fst x)) h) in
  exists bs', heap_inv h' bs' (x :: used) /\ units bs' + snd x = units bs.
Proof using Type.
  intros Hi E Hx h'. pose proof Hi as [Hs Ho _ _ _ _ _ _]. destruct (order_nodup _ _ _ _ _ Ho E) as [Ht1 Ht2].
  rewrite E in Hs. apply seg_app in Hs as (Hs1 & Hnt & Hst & Hnx & Hsx & Hs2).
  pose proof (only_set_ptr (fst t) (nxt h (fst x)) h) as Hon.
  destruct (take_inv h h' bs used l1 t x [] l2 x Hi E) as (bs' & Hi' & Hu); try done; [by left| |].
  { apply seg_freep, seg_app. split; [by eapply seg_only|]. cbn. rewrite nxt_set_ptr, decide_True by done.
    split; [done|]. split; [done|]. eapply seg_only; [exact Hon|set_solver|done]. }
  exists bs'. split; [done|]. unfold units in *. cbn in Hu. lia.
Qed.

(** The end of the block [x]. *)
Lemma take_part h bs used l1 t x l2 n :
  heap_inv h bs used -> (base, 0) :: bs = l1 ++ t :: x :: l2 -> 0 < n < snd x -> snd x < 2 ^ 32 ->
  let a := fst x + HEADER * (snd x - n) in
  let h' := set_freep (fst t) (set_size a n (set_size (fst x) (snd x - n) h)) in
  exists bs', heap_inv h' bs' ((a, n) :: used) /\ units bs' + n = units bs.
Proof using Type.
  intros Hi E Hn Hmax a h'. pose proof Hi as [Hs Ho _ _ _ _ _ _].
  assert ((base, 0) :: bs = (l1 ++ [t]) ++ x :: l2) as E2 by (by rewrite <- app_assoc).
  destruct (order_nodup _ _ _ _ _ Ho E2) as [Hx1 Hx2].
  destruct (order_inside _ _ _ _ _ a Ho E2) as [Ha1 Ha2]; [unfold a, stop, HEADER; lia|].
  rewrite fmap_app in Hx1, Ha1. assert (a <> fst x) as Hax by (unfold a, HEADER; lia).
  rewrite E in Hs. apply seg_app in Hs as (Hs1 & Hnt & Hst & Hnx & Hsx & Hs2).
  assert (forall z, z <> fst x -> z <> a -> siz h' z = siz h z) as Hsame.
  { intros z Hz1 Hz2. unfold h'. change (siz (set_freep ?p ?h) ?z) with (siz h z).
    rewrite !siz_set_size, !decide_False by done. done. }
  destruct (take_inv h h' bs used l1 t x [(fst x, snd x - n)] l2 (a, n) Hi E) as (bs' & Hi' & Hu); try done.
  - right. exists (snd x - n). split; [done|lia].
  - cbn. lia.
  - unfold a, HEADER. cbn. lia.
  - unfold a, stop, HEADER. cbn. lia.
  - apply Forall_singleton. right. unfold a, stop, HEADER. cbn. lia.
  - apply seg_app. split; [|split; [done|split; [|split; [done|split]]]].
    + eapply seg_frame; [|exact Hs1]. intros z Hz. split; [done|]. apply Hsame; intros ->; set_solver.
    + rewrite Hsame; [done|intros Ez; apply Hx1; set_solver|intros Ez; apply Ha1; set_solver].
    + cbn [fst snd]. unfold h'. change (siz (set_freep ?p ?h) ?z) with (siz h z).
      rewrite siz_set_size, decide_False, siz_set_size, decide_True by done. apply u32_small. lia.
    + eapply seg_frame; [|exact Hs2]. intros z Hz. split; [done|]. apply Hsame; intros ->; set_solver.
  - cbn [fst snd]. unfold h'. change (siz (set_freep ?p ?h) ?z) with (siz h z).
    rewrite siz_set_size, decide_True by done. apply u32_small. lia.
  - exists bs'. split; [done|]. unfold units in *. cbn in Hu. lia.
Qed.

Lemma take_block_inv h bs used nunits prevp x :
  heap_inv h bs used -> prevp ∈ fst <$> (base, 0) :: bs -> nxt h prevp = fst x -> x ∈ (base, 0) :: bs ->
  0 < nunits <= snd x ->
  exists a h' bs', take_block nunits prevp (fst x) h = (a + HEADER, h') /\ heap_inv h' bs' ((a, nunits) :: used) /\
    units bs' + nunits = units bs /\ h_brk h' = h_brk h /\ h_top h' = h_top h.
Proof using Type.
  intros Hi Hp Hn Hx Hnu. pose proof Hi as [Hs Ho _ _ _ _ Hb0 Hbrk].
  apply list_elem_of_fmap in Hp as (t & -> & Ht). apply list_elem_of_split in Ht as (l1 & l2 & E).
  assert (x ∈ bs) as Hxb by (apply elem_of_cons in Hx as [->|Hx]; [cbn in Hnu; lia|done]).
  destruct (ascend_in _ _ _ _ Ho Hxb) as (Hx1 & Hx2 & Hx3).
  assert (siz h (fst x) = snd x) as Hsx.
  { apply list_elem_of_split in Hxb as (m & m' & Em). pose proof Hs as (_ & _ & Hs'). rewrite Em in Hs'.
    apply seg_app in Hs' as (_ & _ & ? & _). done. }
  pose proof Hs as Hs0. rewrite E in Hs0. apply seg_app in Hs0 as (Hs1 & Hnt & Hst & Hs2).
  rewrite Hn in Hnt. destruct l2 as [|y l2]; [cbn in Hnt; lia|]. cbn in Hnt. destruct Hs2 as (_ & Hsy & _).
  assert (y = x) as -> by (destruct x, y; cbn in *; congruence).
  assert (snd x < 2 ^ 32) as Hmax by (unfold stop, HEADER in *; lia).
  unfold take_block. rewrite Hsx. destruct (Z.eqb_spec (snd x) nunits) as [Eq|Ne].
  - destruct (take_whole h bs used l1 t x l2 Hi E Hx2) as (bs' & Hi' & Hu).
    eexists (fst x), _, bs'. split; [done|]. rewrite <- Eq at 1. rewrite <- surjective_pairing. split; [exact Hi'|].
    split; [lia|done].
  - destruct (take_part h bs used l1 t x l2 nunits Hi E ltac:(lia) Hmax) as (bs' & Hi' & Hu).
    rewrite siz_set_size, decide_True, u32_small by (done || lia).
    eexists _, _, bs'. split; [done|]. split; [exact Hi'|]. split; [lia|done].
Qed.

(** ** The search *)

Lemma malloc_walk nunits h r f e prevp fuel :
  seg h (r ++ [f]) e -> fst f = h_freep h -> h_freep h ∉ fst <$> r -> nxt h prevp = head_addr (r ++ [f]) e ->
  let p := head_addr (r ++ [f]) e in
  let run := malloc_loop (S (length r) + fuel) nunits prevp p h in
  (exists prevp' x, run = Some (take_block nunits prevp' (fst x) h) /\ x ∈ r ++ [f] /\ nunits <= snd x /\
     nxt h prevp' = fst x /\ (prevp' = prevp \/ prevp' ∈ fst <$> r)) \/
  (Forall (fun x => snd x < nunits) (r ++ [f]) /\
   run = ('(p, h) ← morecore (S fuel) nunits h;
          if p =? 0 then Some (0, h) else malloc_loop fuel nunits p (nxt h p) h)).
Proof using Type.
  revert prevp. induction r as [|x r IH]; intros prevp Hs Hf Hnin Hp; cbn [app head_addr length Nat.add] in *; cbn [malloc_loop].
  - destruct Hs as (Hnf & Hsf & _). rewrite Hsf. destruct (Z.leb_spec nunits (snd f)).
    + left. exists prevp, f. split_and!; [done|set_solver|done..|by left].
    + right. rewrite <- Hf, Z.eqb_refl. split; [by constructor|done].
  - destruct Hs as (Hnx & Hsx & Hs). rewrite Hsx. destruct (Z.leb_spec nunits (snd x)).
    + left. exists prevp, x. split_and!; [done|set_solver|done..|by left].
    + rewrite (proj2 (Z.eqb_neq (fst x) (h_freep h))) by set_solver. rewrite Hnx.
      destruct (IH (fst x) Hs Hf ltac:(set_solver) Hnx) as [(pp & y & E & Hy & Hny & Hpy & Hpp)|[Hall E]].
      * left. exists pp, y. cbn in E. split_and!; [done|set_solver|done..|]. right. set_solver.
      * right. cbn in E. split; [by constructor|done].
Qed.

(** The list from the block after [freep] round to [freep]. *)
Lemma circle h bs used :
  heap_inv h bs used ->
  exists r f, let e := head_addr (r ++ [f]) 0 in
    seg h (r ++ [f]) e /\ fst f = h_freep h /\ (h_freep h ∉ fst <$> r) /\ nxt h (h_freep h) = head_addr (r ++ [f]) e /\
    (forall z, z ∈ r ++ [f] <-> z ∈ (base, 0) :: bs) /\ length r = length bs.
Proof using Type.
  intros [Hs Ho Hfp _ _ _ _ _]. apply list_elem_of_fmap in Hfp as (f & Ef & Hf).
  apply list_elem_of_split in Hf as (x & y & E). exists (y ++ x), f. cbv zeta.
  assert (base = head_addr (x ++ f :: y) 0) as Eb by (by rewrite <- E).
  pose proof Hs as Hs'. rewrite E in Hs'. rewrite Eb in Hs' at 1.
  replace (x ++ f :: y) with ((x ++ [f]) ++ y) in Hs' at 1 2 by (by rewrite <- app_assoc).
  apply seg_rotate in Hs'. rewrite app_assoc in Hs'. destruct (order_nodup _ _ _ _ _ Ho E) as [Hn1 Hn2].
  split; [exact Hs'|]. split; [done|]. split; [rewrite Ef, fmap_app; set_solver|]. split; [|split].
  - rewrite Ef. rewrite E in Hs. apply seg_app in Hs as (_ & -> & _). rewrite <- app_assoc, !head_addr_app.
    destruct y as [|z y]; [|done]. rewrite Eb. destruct x as [|z x]; done.
  - intros z. rewrite E. set_solver.
  - apply (f_equal length) in E. rewrite length_app in *. cbn in E. lia.
Qed.

(** A block of the size asked for is found. *)
Lemma malloc_found h bs used nunits fuel :
  heap_inv h bs used -> 0 < nunits -> (exists y, y ∈ bs /\ nunits <= snd y) -> (length bs < fuel)%nat ->
  exists a h' bs', malloc_loop fuel nunits (h_freep h) (nxt h (h_freep h)) h = Some (a + HEADER, h') /\
    heap_inv h' bs' ((a, nunits) :: used) /\ units bs' + nunits = units bs /\ h_brk h' = h_brk h /\ h_top h' = h_top h.
Proof using Type.
  intros Hi Hn (y & Hy & Hyn) Hf. destruct (circle h bs used Hi) as (r & f & Hs & Ef & Hnin & Hnx & Hin & Hlen).
  destruct (malloc_walk nunits h r f _ (h_freep h) (fuel - S (length r)) Hs Ef Hnin Hnx) as [(pp & x & E & Hx & Hnx' & Hpx & Hpp)|[Hall _]].
  - rewrite Hnx. replace (S (length r) + (fuel - S (length r)))%nat with fuel in E by lia. rewrite E.
    destruct (take_block_inv h bs used nunits pp x Hi) as (a & h' & bs' & -> & H); [|done|by apply Hin|lia|by exists a, h', bs'].
    destruct Hpp as [->|Hpp]; [apply (inv_freep _ _ _ Hi)|].
    apply list_elem_of_fmap in Hpp as (z & -> & Hz). apply list_elem_of_fmap. exists z. split; [done|]. apply Hin. set_solver.
  - exfalso. rewrite Forall_forall in Hall. specialize (Hall y). cbn in Hall. rewrite Hin in Hall.
    specialize (Hall ltac:(set_solver)). lia.
Qed.

(** C20. [malloc] returns memory of its own: on a heap whose blocks are in order,
    a request whose size in bytes fits an [int] gets a block of at least that
    many bytes that overlaps neither the free blocks nor any block handed out
    before, all in the heap, or a null pointer when no free block is large
    enough and the kernel refuses to grow the process.  The search ends, the
    free list stays ordered and coalesced, and no memory is lost: the units
    of the new block are missing from the free list, to which what [sbrk] gave
    was added. *)
Theorem malloc_correct (h : heap) (bs used : list block) (nbytes : Z) (fuel : nat)
  (Hi : heap_inv (malloc_init h) bs used) (Hn : 0 <= nbytes)
  (Hmax : Z.max (units_for nbytes) 4096 * HEADER < 2 ^ 31) (Hf : (2 * length bs + 4 <= fuel)%nat) :
  let nunits := units_for nbytes in
  let more := Z.max nunits 4096 in
  (malloc fuel nbytes h = Some (0, malloc_init h) /\
   Forall (fun x => snd x < nunits) bs /\ h_top h < h_brk h + HEADER * more) \/
  exists a h' bs' grown, malloc fuel nbytes h = Some (a + HEADER, h') /\
    heap_inv h' bs' ((a, nunits) :: used) /\ HEADER + nbytes <= HEADER * nunits /\
    units bs' + nunits = units bs + grown /\ h_brk h' = h_brk h + HEADER * grown /\ (grown = 0 \/ grown = more).
Proof using Type.
  intros nunits more. fold nunits in Hmax. fold more in Hmax.
  assert (0 < nunits /\ HEADER + nbytes <= HEADER * nunits) as [Hnu Hnb].
  { unfold nunits, units_for, HEADER. pose proof (Z.div_mod (nbytes + 16 - 1) 16 ltac:(lia)).
    pose proof (Z.mod_pos_bound (nbytes + 16 - 1) 16 ltac:(lia)). lia. }
  unfold malloc. fold nunits. rewrite u32_small by (unfold more, HEADER in *; lia).
  set (h1 := malloc_init h) in *. assert (h_brk h1 = h_brk h /\ h_top h1 = h_top h) as [Eb Et]
    by (unfold h1, malloc_init; by destruct (_ =? _)).
  destruct (circle h1 bs used Hi) as (r & f & Hs & Ef & Hnin & Hnx & Hin & Hlen).
  destruct (malloc_walk nunits h1 r f _ (h_freep h1) (fuel - S (length r)) Hs Ef Hnin Hnx) as [(pp & x & E & Hx & Hxn & _)|[Hall E]].
  - destruct (malloc_found h1 bs used nunits fuel Hi Hnu) as (a & h' & bs' & E' & Hi' & Hu & Hb & Ht); [|lia|].
    { exists x. split; [|done]. apply Hin in Hx. apply elem_of_cons in Hx as [->|Hx]; [cbn in Hxn; lia|done]. }
    right. exists a, h', bs', 0. rewrite Hb. split_and!; [done..|lia|lia|by left].
  - rewrite Hnx. replace (S (length r) + (fuel - S (length r)))%nat with fuel in E by lia. rewrite E.
    destruct (morecore_inv h1 bs used nunits (S (fuel - S (length r))) Hi Hnu Hmax ltac:(lia))
      as [[Hno ->]|(h2 & bs2 & -> & Hi2 & Hu2 & Hb2 & Ht2 & Hbig & Hlen2)]; cbn [mbind option_bind].
    + left. split; [done|]. fold more in Hno. split; [|lia]. apply Forall_forall. intros x Hx.
      rewrite Forall_forall in Hall. apply Hall, Hin. set_solver.
    + rewrite (proj2 (Z.eqb_neq (h_freep h2) 0)).
      2: { pose proof (inv_freep _ _ _ Hi2) as Hfp. pose proof (inv_base _ _ _ Hi2) as [Hb0 _]. intros E0. rewrite E0 in Hfp.
           cbn in Hfp. apply elem_of_cons in Hfp as [Hfp|Hfp]; [lia|]. apply list_elem_of_fmap in Hfp as (z & Ez & Hz).
           destruct (ascend_in _ _ _ _ (inv_ord _ _ _ Hi2) Hz) as (? & _). lia. }
      destruct (malloc_found h2 bs2 used nunits (fuel - S (length r)) Hi2 Hnu Hbig ltac:(lia)) as (a & h' & bs' & E' & Hi' & Hu & Hb & Ht).
      right. exists a, h', bs', more. fold more in Hu2, Hb2. split_and!; [done..|lia|lia|by right].
Qed.

(** C21. [free] gives a block back: it ends, the free list is again in order,
    with no two neighbours left apart, it has grown by exactly the units of the
    block, and the blocks still handed out are untouched. *)
Theorem free_correct (h : heap) (bs used : list block) (b : block) (fuel : nat)
  (Hi : heap_inv h bs (b :: used)) (Hf : (length bs < fuel)%nat) :
  exists h' bs', free fuel (fst b + HEADER) h = Some h' /\ heap_inv h' bs' used /\
    units bs' = units bs + snd b /\ h_brk h' = h_brk h.
Proof using Type.
  destruct (free_inv h bs used b fuel Hi Hf) as (h' & bs' & E & Hi' & Hu & Hb & _). by exists h', bs'.
Qed.

(** The heap of a process that has not called [malloc]. *)
Lemma fresh_heap h :
  h_freep h = 0 -> 0 < base -> base + HEADER <= h_brk h -> h_brk h <= h_top h <= 2 ^ 36 ->
  heap_inv (malloc_init h) [] [].
Proof using Type.
  intros Hf Hb Hbrk Htop. unfold malloc_init. rewrite Hf. cbn [Z.eqb]. split; cbn [h_brk h_top h_freep set_size set_freep set_ptr]; try done.
  - cbn. unfold nxt, siz. cbn. by rewrite !lookup_insert_eq.
  - cbn. unfold HEADER in *. lia.
  - cbn. set_solver.
Qed.
End Allocator.

(** A request for [2 ^ 32 - 1] bytes: the size that [morecore] passes to [sbrk]
    is cut to an [int], 16 bytes; [malloc] succeeds, with a block of which
    nothing but the header is in the heap. *)
Definition small_heap : heap := Heap ∅ ∅ 0 0x3000 0x10000000.

Lemma malloc_truncates :
  exists h', malloc 0x2000 10 (2 ^ 32 - 1) small_heap = Some (0x3010, h') /\ h_brk h' = 0x3010 /\
    siz h' 0x3000 = 2 ^ 28 + 1.
Proof. eexists. vm_compute. done. Qed.

(** * Witnesses *)

Lemma malloc_correct_witness :
  exists a h' bs' grown, malloc 0x2000 10 100 small_heap = Some (a + HEADER, h') /\
    heap_inv 0x2000 h' bs' [(a, 8)] /\ units bs' + 8 = grown.
Proof.
  destruct (malloc_correct 0x2000 small_heap [] [] 100 10) as [[E _]|(a & h' & bs' & grown & E & Hi & _ & Hu & _)].
  - apply fresh_heap; vm_compute; done.
  - done.
  - vm_compute. done.
  - cbn. lia.
  - vm_compute in E. done.
  - exists a, h', bs', grown. split; [exact E|]. split; [exact Hi|exact Hu].
Defined.

Definition used_heap : heap := Heap {[0x2000 := 0x2000]} (<[0x3000 := 5]> {[0x2000 := 0]}) 0x2000 0x3050 0x10000000.

Lemma free_correct_witness :
  exists h' bs', free 1 (0x3000 + HEADER) used_heap = Some h' /\ heap_inv 0x2000 h' bs' [] /\
    units bs' = 0 + 5 /\ h_brk h' = 0x3050.
Proof.
  apply (free_correct 0x2000 used_heap [] [] (0x3000, 5) 1); [|cbn; lia].
  split; try done.
  - apply list_elem_of_singleton. done.
  - by repeat constructor.
  - by repeat constructor.
  - split; [constructor|done].
Defined.
