(* ===== verification/Mkfs.v ===== *)
(** mkfs/mkfs.c: the program that builds the disk image, and the file system the
    kernel finds in it.

    The image is a map from sectors to their bytes; a sector that was never
    written cannot be read ([read] at the end of the file), and [die] and a
    failed [assert] are [Panic].  Structures are bytes, as in Fs: [xshort] and
    [xint] are what makes them little-endian on any host.  A file given to
    [mkfs] is its name and the pieces of up to 1024 bytes in which [read]
    returns its content, or no content if it cannot be opened.

    The theorems state the image in terms of the kernel's view of a disk
    (Fileio, Txn): [file_bytes], [mapped], [in_use]. *)
From S2P Require Import Prelude Ring Riscv Spinlock Memory Bytes Kstring Kalloc Vm Proc Switch Sleeplock UserMem Kstate Bio Cache Log Crash Fs Txn Fileio Dir Chars.

Definition FSSIZE : Z := 2000.
Definition NINODES : Z := 200.

Definition nbitmap : Z := FSSIZE / BPB + 1.
Definition ninodeblocks : Z := NINODES / IPB + 1.
Definition nlog : Z := Z.of_nat LOGBLOCKS + 1.
Definition nmeta : Z := 2 + nlog + ninodeblocks + nbitmap.
Definition nblocks : Z := FSSIZE - nmeta.

Record mkstate := Mk { mk_img : gmap Z (list Z); mk_freeinode : Z; mk_freeblock : Z }.
Definition set_img (f : gmap Z (list Z) -> gmap Z (list Z)) (s : mkstate) : mkstate :=
  Mk (f (mk_img s)) (mk_freeinode s) (mk_freeblock s).

(** The value whose bytes in memory are those of [x], the lowest first. *)
Definition xshort (x : Z) : Z := le_val (le_bytes 2 x).
Definition xint (x : Z) : Z := le_val (le_bytes 4 x).

Definition mk_sb : superblock :=
  Superblock FSMAGIC (xint FSSIZE) (xint nblocks) (xint NINODES) (xint nlog) (xint 2) (xint (2 + nlog))
    (xint (2 + nlog + ninodeblocks)).

(** * Sectors *)

Definition wsect (sec : Z) (buf : list Z) : M mkstate unit := modify (set_img (<[sec := buf]>)).
Definition rsect (sec : Z) : M mkstate (list Z) :=
  x <- gets (fun s => mk_img s !! sec) ;;
  match x with
  | Some buf => ret buf
  | None => panic "read"
  end.

(** * Inodes *)

Definition winode (inum : Z) (ip : dinode) : M mkstate unit :=
  let bn := IBLOCK inum mk_sb in
  buf <- rsect bn ;;
  wsect bn (put_dinode (Z.to_nat (inum mod IPB)) ip buf).

Definition rinode (inum : Z) : M mkstate dinode :=
  buf <- rsect (IBLOCK inum mk_sb) ;;
  ret (dinode_at (Z.to_nat (inum mod IPB)) buf).

Definition mk_ialloc (type : Z) : M mkstate Z :=
  inum <- gets mk_freeinode ;;
  modify (fun s => Mk (mk_img s) (u32 (mk_freeinode s + 1)) (mk_freeblock s)) ;;
  winode inum (Dinode (s16 (xshort type)) 0 0 (s16 (xshort 1)) (xint 0) (replicate 13 0)) ;;
  ret inum.

(** [freeblock++]. *)
Definition new_block : M mkstate Z :=
  b <- gets mk_freeblock ;;
  modify (fun s => Mk (mk_img s) (mk_freeinode s) (u32 (mk_freeblock s + 1))) ;;
  ret b.

Definition set_addr (k : nat) (a : Z) (d : dinode) : dinode :=
  Dinode (d_type d) (d_major d) (d_minor d) (d_nlink d) (d_size d) (<[k := a]> (d_addrs d)).
Definition set_dsize (n : Z) (d : dinode) : dinode :=
  Dinode (d_type d) (d_major d) (d_minor d) (d_nlink d) n (d_addrs d).

(** * Appending to a file *)

(** The address [addrs[k]], allocated if there is none. *)
Definition addr_block (k : nat) (din : dinode) : M mkstate dinode :=
  if xint (d_addrs din !!! k) =? 0 then
    b <- new_block ;;
    ret (set_addr k (xint b) din)
  else ret din.

(** The block [fbn] of the file, allocated if there is none. *)
Definition append_block (fbn : Z) (din : dinode) : M mkstate (dinode * Z) :=
  if fbn <? NDIRECT then
    din <- addr_block (Z.to_nat fbn) din ;;
    ret (din, xint (d_addrs din !!! Z.to_nat fbn))
  else
    din <- addr_block (Z.to_nat NDIRECT) din ;;
    let ind := xint (d_addrs din !!! Z.to_nat NDIRECT) in
    indirect <- rsect ind ;;
    let j := Z.to_nat (fbn - NDIRECT) in
    indirect <-
      (if word_at j indirect =? 0 then
         b <- new_block ;;
         let indirect := put_le 4 (4 * j) (xint b) indirect in
         wsect ind indirect ;;
         ret indirect
       else ret indirect) ;;
    ret (din, xint (word_at j indirect)).

(** An iteration of the loop of [iappend]. *)
Definition append_step (x : dinode * Z * list Z) : M mkstate (dinode * Z * list Z + dinode * Z) :=
  let '(din, off, p) := x in
  let n := Z.of_nat (length p) in
  if 0 <? n then
    let fbn := off / BSIZE in
    if negb (fbn <? MAXFILE) then panic "assert" else
    r <- append_block fbn din ;;
    let '(din, x) := r in
    let n1 := Z.min n ((fbn + 1) * BSIZE - off) in
    buf <- rsect x ;;
    wsect x (put_bytes (Z.to_nat (off - fbn * BSIZE)) (take (Z.to_nat n1) p) buf) ;;
    ret (inl (din, u32 (off + n1), drop (Z.to_nat n1) p))
  else ret (inr (din, off)).

Definition iappend (inum : Z) (p : list Z) : M mkstate unit :=
  din <- rinode inum ;;
  r <- loop (S (length p)) append_step (din, xint (d_size din), p) ;;
  let '(din, off) := r in
  winode inum (set_dsize (xint off) din).

(** * The bitmap *)

Definition mk_balloc (used : Z) : M mkstate unit :=
  if negb (used <? BPB) then panic "assert" else
  let buf := foldl (fun buf i => mark_bit i buf) zero_block (seqZ 0 used) in
  wsect (sb_bmapstart mk_sb) buf.

(** * main *)

(** [struct dirent], the name padded with NULs. *)
Definition dirent_bytes (inum : Z) (name : list Z) : list Z :=
  le_bytes 2 (xshort inum) ++ take 14 (name ++ replicate 14 0).

Definition strip_user (name : list Z) : list Z :=
  if bool_decide (take 5 name = chars "user/") then drop 5 name else name.
Definition strip_underscore (name : list Z) : list Z :=
  match name with
  | c :: name' => if c =? ch "_" then name' else name
  | [] => []
  end.

Definition mk_file (rootino : Z) (f : list Z * option (list (list Z))) : M mkstate unit :=
  let '(arg, content) := f in
  let shortname := strip_user arg in
  if bool_decide (ch "/" ∈ shortname) then panic "assert" else
  match content with
  | None => panic "open"
  | Some pieces =>
      let shortname := strip_underscore shortname in
      if negb (Z.of_nat (length shortname) <=? DIRSIZ) then panic "assert" else
      inum <- mk_ialloc T_FILE ;;
      iappend rootino (dirent_bytes inum shortname) ;;
      iterl pieces (fun buf => iappend inum buf)
  end.

Definition sb_bytes (sb : superblock) : list Z :=
  le_bytes 4 (sb_magic sb) ++ le_bytes 4 (sb_size sb) ++ le_bytes 4 (sb_nblocks sb) ++ le_bytes 4 (sb_ninodes sb) ++
  le_bytes 4 (sb_nlog sb) ++ le_bytes 4 (sb_logstart sb) ++ le_bytes 4 (sb_inodestart sb) ++ le_bytes 4 (sb_bmapstart sb).

(** [main] up to the files of the command line: the root directory. *)
Definition mk_root : M mkstate Z :=
  modify (fun s => Mk (mk_img s) (mk_freeinode s) nmeta) ;;
  iterl (seqZ 0 FSSIZE) (fun i => wsect i zero_block) ;;
  wsect 1 (put_bytes 0 (sb_bytes mk_sb) zero_block) ;;
  rootino <- mk_ialloc T_DIR ;;
  if negb (rootino =? ROOTINO) then panic "assert" else
  iappend rootino (dirent_bytes rootino (chars ".")) ;;
  iappend rootino (dirent_bytes rootino (chars "..")) ;;
  ret rootino.

(** The end of [main]: the size of the root directory and the bitmap. *)
Definition mk_finish (rootino : Z) : M mkstate unit :=
  din <- rinode rootino ;;
  let off := xint (d_size din) in
  let off := (off / BSIZE + 1) * BSIZE in
  winode rootino (set_dsize (xint off) din) ;;
  b <- gets mk_freeblock ;;
  mk_balloc b.

Definition mkfs_main (files : list (list Z * option (list (list Z)))) : M mkstate unit :=
  rootino <- mk_root ;;
  iterl files (mk_file rootino) ;;
  mk_finish rootino.

Definition mk_start : mkstate := Mk ∅ 1 0.

(** * The files of an image *)

Definition view (s : mkstate) : Z -> list Z := dblock (mk_img s).
(** Inode [inum] of an image. *)
Definition disk_inode (v : Z -> list Z) (inum : Z) : dinode := dinode_at (inode_slot inum) (v (IBLOCK inum mk_sb)).

(** The blocks of a file of [n] bytes, and with its indirect block. *)
Definition nblk (n : Z) : Z := (n + (BSIZE - 1)) / BSIZE.
Definition cost (nb : Z) : Z := nb + (if NDIRECT <? nb then 1 else 0).
Definition size_of (c : list Z) : Z := Z.of_nat (length c).

(** The file [d] has the content [c], in blocks below [fb], and no block beyond
    it; the rest of its last block is zero. *)
Record file_ok (v : Z -> list Z) (fb : Z) (d : dinode) (c : list Z) : Prop := {
  fo_din : dinode_ok d;
  fo_map : mapped v (inode_of d) (nblk (size_of c));
  fo_bytes : forall k, 0 <= k < nblk (size_of c) * BSIZE -> file_byte v (inode_of d) k = default 0 (c !! Z.to_nat k);
  fo_range : forall bn, 0 <= bn < nblk (size_of c) -> nmeta <= file_block v (inode_of d) bn < fb;
  fo_ind : if NDIRECT <? nblk (size_of c) then nmeta <= d_addrs d !!! 12%nat < fb else d_addrs d !!! 12%nat = 0;
  fo_free : forall bn, nblk (size_of c) <= bn < MAXFILE -> file_block v (inode_of d) bn = 0 }.

Definition owns (v : Z -> list Z) (d : dinode) (c : list Z) (y : Z) : Prop :=
  y = d_addrs d !!! 12%nat \/ exists bn, 0 <= bn < nblk (size_of c) /\ y = file_block v (inode_of d) bn.

(** The image: every sector is there, those from [freeblock] on are zero. *)
Record img_ok (s : mkstate) : Prop := {
  im_all : forall sec, 0 <= sec < FSSIZE -> is_Some (mk_img s !! sec);
  im_len : forall sec, 0 <= sec < FSSIZE -> length (view s sec) = Z.to_nat BSIZE;
  im_free : nmeta <= mk_freeblock s <= FSSIZE;
  im_zero : forall sec, mk_freeblock s <= sec < FSSIZE -> view s sec = zero_block }.

Lemma nblk_bounds n : 0 <= n -> BSIZE * (nblk n - 1) < n <= BSIZE * nblk n \/ (n = 0 /\ nblk n = 0).
Proof.
  intros Hn. unfold nblk. change BSIZE with 1024. pose proof (Z.div_mod (n + (1024 - 1)) 1024 ltac:(lia)).
  pose proof (Z.mod_pos_bound (n + (1024 - 1)) 1024 ltac:(lia)). lia.
Qed.
Lemma nblk_nonneg n : 0 <= n -> 0 <= nblk n.
Proof. intros H. destruct (nblk_bounds n H) as [?|[_ ->]]; [|done]. change BSIZE with 1024 in *. lia. Qed.

Lemma xint_id x : 0 <= x < 2 ^ 32 -> xint x = x.
Proof. intros H. unfold xint. rewrite le_val_le_bytes. by apply Z.mod_small. Qed.
Lemma xshort_id x : 0 <= x < 2 ^ 16 -> xshort x = x.
Proof. intros H. unfold xshort. rewrite le_val_le_bytes. by apply Z.mod_small. Qed.

Lemma rsect_ok s sec : img_ok s -> 0 <= sec < FSSIZE -> rsect sec s = Ret (view s sec) s.
Proof.
  intros H Hs. destruct (im_all _ H sec Hs) as [b E]. unfold rsect, view, dblock. kstep eq_refl. by rewrite E.
Qed.

(** The state after [wsect]. *)
Definition put_sect (sec : Z) (b : list Z) (s : mkstate) : mkstate := set_img (<[sec := b]>) s.
Lemma view_put sec b s x : view (put_sect sec b s) x = upd_view sec b (view s) x.
Proof. apply dblock_insert. Qed.
Lemma img_put s sec b :
  img_ok s -> length b = Z.to_nat BSIZE -> sec < mk_freeblock s -> img_ok (put_sect sec b s).
Proof.
  intros [H1 H2 H3 H4] Hb Hs. split.
  - intros x Hx. cbn. destruct (decide (x = sec)) as [->|]; [rewrite lookup_insert_eq; eauto|]. rewrite lookup_insert_ne by done. by apply H1.
  - intros x Hx. rewrite view_put. unfold upd_view. destruct (x =? sec); [done|by apply H2].
  - done.
  - intros x Hx. cbn in Hx. rewrite view_put. unfold upd_view. rewrite (proj2 (Z.eqb_neq x sec)) by lia. by apply H4.
Qed.

(** ** A block for the end of the file *)

Section Append.
Context (s : mkstate) (d : dinode) (c : list Z).
Context (Himg : img_ok s) (Hok : file_ok (view s) (mk_freeblock s) d c).
Local Abbreviation nb := (nblk (size_of c)).

(** What [append_block] leaves: the blocks of the file with block [fbn] among
    them. *)
Record grown (s' : mkstate) (d' : dinode) (fbn x : Z) : Prop := {
  gr_img : img_ok s';
  gr_inode : mk_freeinode s' = mk_freeinode s;
  gr_fb : mk_freeblock s' = mk_freeblock s + cost (fbn + 1) - cost nb;
  gr_din : dinode_ok d';
  gr_same : (d_type d', d_major d', d_minor d', d_nlink d', d_size d') = (d_type d, d_major d, d_minor d, d_nlink d, d_size d);
  gr_block : x = file_block (view s') (inode_of d') fbn;
  gr_old : forall bn, 0 <= bn < nb -> file_block (view s') (inode_of d') bn = file_block (view s) (inode_of d) bn;
  gr_data : forall bn, 0 <= bn < nb -> view s' (file_block (view s) (inode_of d) bn) = view s (file_block (view s) (inode_of d) bn);
  gr_new : fbn = nb -> mk_freeblock s <= x < mk_freeblock s' /\ view s' x = zero_block;
  gr_ind : if NDIRECT <? fbn + 1 then nmeta <= d_addrs d' !!! 12%nat < mk_freeblock s' else d_addrs d' !!! 12%nat = 0;
  gr_indnew : d_addrs d' !!! 12%nat = d_addrs d !!! 12%nat \/ mk_freeblock s <= d_addrs d' !!! 12%nat;
  gr_indx : x <> d_addrs d' !!! 12%nat;
  gr_free : forall bn, fbn + 1 <= bn < MAXFILE -> file_block (view s') (inode_of d') bn = 0;
  gr_frame : forall y, y < mk_freeblock s -> y <> d_addrs d !!! 12%nat -> view s' y = view s y }.

Lemma addr_range k : (k < 13)%nat -> 0 <= d_addrs d !!! k < 2 ^ 32.
Proof using Hok.
  intros Hk. pose proof (fo_din _ _ _ _ Hok) as [_ _ _ _ _ Hl Ha]. rewrite Forall_lookup in Ha.
  apply (Ha k). apply list_lookup_lookup_total_lt. lia.
Qed.

Lemma block_direct v dd bn : bn < NDIRECT -> file_block v (inode_of dd) bn = d_addrs dd !!! Z.to_nat bn.
Proof. intros H. unfold file_block. by rewrite (proj2 (Z.ltb_lt _ _) H). Qed.
Lemma block_indirect v dd bn :
  NDIRECT <= bn -> file_block v (inode_of dd) bn =
  if d_addrs dd !!! 12%nat =? 0 then 0 else word_at (Z.to_nat (bn - NDIRECT)) (v (d_addrs dd !!! 12%nat)).
Proof. intros H. unfold file_block. by rewrite (proj2 (Z.ltb_ge _ _) H). Qed.

(** The block is there. *)
Lemma append_old fbn :
  0 <= fbn < nb -> fbn + 1 = nb ->
  exists x, append_block fbn d s = Ret (d, x) s /\ grown s d fbn x.
Proof using Himg Hok.
  intros Hf Hnb. pose proof Hok as [Hd Hmap _ Hrg Hind Hfree]. pose proof (mp_max _ _ _ Hmap) as Hmax.
  pose proof (Hrg fbn Hf) as Hx. pose proof (im_free _ Himg) as [Hm1 Hm2]. set (x := file_block (view s) (inode_of d) fbn) in *.
  assert (nmeta = 47) as Em by done. assert (FSSIZE = 2000) as Ef by done.
  exists x. split.
  - unfold append_block. destruct (Z.ltb_spec fbn NDIRECT) as [Hlt|Hge].
    + assert (d_addrs d !!! Z.to_nat fbn = x) as E by (unfold x; by rewrite block_direct).
      unfold addr_block. rewrite E, xint_id, (proj2 (Z.eqb_neq x 0)) by lia. kstep eq_refl. by rewrite E, xint_id by lia.
    + rewrite (proj2 (Z.ltb_lt NDIRECT nb)) in Hind by lia. cbv iota in Hind. change (Z.to_nat NDIRECT) with 12%nat.
      set (a := d_addrs d !!! 12%nat) in *. unfold addr_block. fold a. rewrite (xint_id a), (proj2 (Z.eqb_neq a 0)) by lia.
      kstep eq_refl. fold a. rewrite (xint_id a) by lia. kstep (rsect_ok s a Himg ltac:(lia)).
      assert (word_at (Z.to_nat (fbn - NDIRECT)) (view s a) = x) as E.
      { unfold x. rewrite block_indirect by done. fold a. by rewrite (proj2 (Z.eqb_neq a 0)) by lia. }
      rewrite E, (proj2 (Z.eqb_neq x 0)) by lia. kstep eq_refl. by rewrite E, xint_id by lia.
  - split; try done.
    + rewrite Hnb. lia.
    + intros E. lia.
    + by rewrite Hnb.
    + by left.
    + by apply (mp_data _ _ _ Hmap).
    + by rewrite Hnb.
Qed.

(** The image once block [freeblock] is given away. *)
Definition bump (t : mkstate) : mkstate := Mk (mk_img t) (mk_freeinode t) (mk_freeblock t + 1).
Lemma new_block_ok t : img_ok t -> mk_freeblock t < FSSIZE -> new_block t = Ret (mk_freeblock t) (bump t) /\ img_ok (bump t).
Proof using Type.
  intros [H1 H2 H3 H4] Hlt. assert (FSSIZE = 2000 /\ nmeta = 47) as [Ef Em] by done. split.
  - unfold new_block, bump. kstep eq_refl. cbn. do 2 f_equal. unfold u32. by rewrite Z.mod_small by lia.
  - split; [exact H1|exact H2|cbn; lia|]. intros x Hx. cbn in Hx. apply H4. lia.
Qed.

Lemma set_addr_ok t k a : dinode_ok t -> 0 <= a < 2 ^ 32 -> dinode_ok (set_addr k a t).
Proof using Type.
  intros [H1 H2 H3 H4 H5 H6 H7] Ha. split; try done; cbn; [by rewrite length_insert|].
  apply Forall_insert; [done|]. done.
Qed.
Lemma addr_set t k a j : dinode_ok t -> (k < 13)%nat ->
  d_addrs (set_addr k a t) !!! j = if decide (j = k) then a else d_addrs t !!! j.
Proof using Type.
  intros Ht Hk. pose proof (dk_len _ Ht) as Hl. cbn. case_decide as D.
  - subst. apply list_lookup_total_insert_eq. lia.
  - by apply list_lookup_total_insert_ne.
Qed.

(** A new direct block. *)
Lemma append_direct :
  nb < NDIRECT -> mk_freeblock s < FSSIZE ->
  exists s' d' x, append_block nb d s = Ret (d', x) s' /\ grown s' d' nb x.
Proof using Himg Hok.
  intros Hnb Hroom. pose proof Hok as [Hd Hmap _ Hrg Hind Hfree]. pose proof (im_free _ Himg) as [Hm1 Hm2].
  assert (nmeta = 47) as Em by done. assert (FSSIZE = 2000) as Ef by done. assert (NDIRECT = 12 /\ MAXFILE = 268) as [En Ex] by done.
  assert (0 <= nb) as Hnb0 by (apply nblk_nonneg; unfold size_of; lia).
  rewrite (proj2 (Z.ltb_ge NDIRECT nb)) in Hind by lia. cbv iota in Hind.
  assert (d_addrs d !!! Z.to_nat nb = 0) as E0 by (rewrite <- (block_direct (view s) d nb) by done; apply Hfree; lia).
  set (b := mk_freeblock s) in *. destruct (new_block_ok s Himg Hroom) as [Enew Hi'].
  exists (bump s), (set_addr (Z.to_nat nb) b d), b.
  assert (forall j, d_addrs (set_addr (Z.to_nat nb) b d) !!! j = if decide (j = Z.to_nat nb) then b else d_addrs d !!! j) as Ea
    by (intros j; apply addr_set; [done|lia]).
  assert (forall bn, 0 <= bn < MAXFILE -> file_block (view s) (inode_of (set_addr (Z.to_nat nb) b d)) bn =
    if bn =? nb then b else file_block (view s) (inode_of d) bn) as Eb.
  { intros bn Hbn. destruct (Z.ltb_spec bn NDIRECT).
    - rewrite !block_direct, Ea by done. case_decide; destruct (Z.eqb_spec bn nb); done || lia.
    - rewrite !block_indirect, Ea by done. rewrite decide_False by lia. rewrite Hind. by rewrite (proj2 (Z.eqb_neq bn nb)) by lia. }
  split.
  - unfold append_block. rewrite (proj2 (Z.ltb_lt nb NDIRECT)) by done. unfold addr_block. rewrite E0.
    change (xint 0 =? 0) with true. cbv iota.
    erewrite bind_Ret; [|erewrite bind_Ret; [|exact Enew]; reflexivity]. fold b. rewrite (xint_id b) by lia.
    rewrite Ea, decide_True by done. by rewrite xint_id by lia.
  - split; try done.
    + cbn. unfold cost. rewrite (proj2 (Z.ltb_ge NDIRECT nb)), (proj2 (Z.ltb_ge NDIRECT (nb + 1))) by lia. fold b. lia.
    + apply set_addr_ok; [done|lia].
    + change (view (bump s)) with (view s). rewrite Eb by lia. by rewrite Z.eqb_refl.
    + intros bn Hbn. change (view (bump s)) with (view s). rewrite Eb by lia. by rewrite (proj2 (Z.eqb_neq bn nb)) by lia.
    + intros _. split; [cbn; lia|]. apply (im_zero _ Himg). fold b. lia.
    + rewrite (proj2 (Z.ltb_ge NDIRECT (nb + 1))) by lia. by rewrite Ea, decide_False by lia.
    + left. by rewrite Ea, decide_False by lia.
    + rewrite Ea, decide_False, Hind by lia. lia.
    + intros bn Hbn. change (view (bump s)) with (view s). rewrite Eb, (proj2 (Z.eqb_neq bn nb)) by lia. apply Hfree. lia.
Qed.

(** The indirect block, allocated if there is none. *)
Lemma indirect_ok :
  NDIRECT <= nb < MAXFILE -> mk_freeblock s < FSSIZE ->
  exists s1 d1, let a := d_addrs d1 !!! 12%nat in
    addr_block 12 d s = Ret d1 s1 /\ mk_img s1 = mk_img s /\ mk_freeinode s1 = mk_freeinode s /\ img_ok s1 /\ dinode_ok d1 /\
    (d_type d1, d_major d1, d_minor d1, d_nlink d1, d_size d1) = (d_type d, d_major d, d_minor d, d_nlink d, d_size d) /\
    mk_freeblock s1 = mk_freeblock s + (if nb =? NDIRECT then 1 else 0) /\ nmeta <= a < mk_freeblock s1 /\
    (forall j, (j < 12)%nat -> d_addrs d1 !!! j = d_addrs d !!! j) /\
    (forall bn, NDIRECT <= bn < MAXFILE -> word_at (Z.to_nat (bn - NDIRECT)) (view s a) = file_block (view s) (inode_of d) bn) /\
    (a = d_addrs d !!! 12%nat \/ a = mk_freeblock s).
Proof using Himg Hok.
  intros Hnb Hroom. pose proof Hok as [Hd Hmap _ Hrg Hind Hfree]. pose proof (im_free _ Himg) as [Hm1 Hm2].
  assert (nmeta = 47) as Em by done. assert (FSSIZE = 2000) as Ef by done. assert (NDIRECT = 12 /\ MAXFILE = 268) as [En Ex] by done.
  unfold addr_block. destruct (Z.eqb_spec nb NDIRECT) as [Eq|Ne].
  - rewrite (proj2 (Z.ltb_ge NDIRECT nb)) in Hind by lia. cbv iota in Hind. rewrite Hind.
    change (xint 0 =? 0) with true. cbv iota. destruct (new_block_ok s Himg Hroom) as [Enew Hi'].
    set (b := mk_freeblock s) in *. exists (bump s), (set_addr 12 b d). cbv zeta.
    assert (forall j, d_addrs (set_addr 12 b d) !!! j = if decide (j = 12%nat) then b else d_addrs d !!! j) as Ea
      by (intros j; apply addr_set; [done|lia]).
    rewrite Ea, decide_True by done. split_and!; try done.
    + kstep Enew. unfold ret. by rewrite (xint_id b) by lia.
    + apply set_addr_ok; [done|lia].
    + cbn. fold b. lia.
    + intros j Hj. by rewrite Ea, decide_False by lia.
    + intros bn Hbn. rewrite block_indirect, Hind by lia. cbn [Z.eqb].
      rewrite (im_zero _ Himg) by (fold b; lia). unfold word_at, get_le, sub_bytes, zero_block.
      rewrite drop_replicate, take_replicate. generalize (Nat.min 4 (Z.to_nat BSIZE - 4 * Z.to_nat (bn - NDIRECT))).
      intros n. induction n as [|n IH]; [done|]. cbn. by rewrite IH.
    + by right.
  - rewrite (proj2 (Z.ltb_lt NDIRECT nb)) in Hind by lia. cbv iota in Hind. set (a := d_addrs d !!! 12%nat) in *.
    exists s, d. fold a. cbv zeta. rewrite xint_id, (proj2 (Z.eqb_neq a 0)) by lia. split_and!; try done; [lia..| |by left].
    intros bn Hbn. rewrite block_indirect by lia. fold a. by rewrite (proj2 (Z.eqb_neq a 0)) by lia.
Qed.

Lemma word_put i j b l : (4 * j + 4 <= length l)%nat -> 0 <= b < 2 ^ 32 ->
  word_at i (put_le 4 (4 * j) b l) = if decide (i = j) then b else word_at i l.
Proof using Type.
  intros Hl Hb. unfold word_at. case_decide as D.
  - subst. rewrite get_put_same by done. by apply Z.mod_small.
  - apply get_put_other; lia.
Qed.

(** A new block behind the indirect block. *)
Lemma append_indirect :
  NDIRECT <= nb < MAXFILE -> mk_freeblock s + cost (nb + 1) - cost nb <= FSSIZE ->
  exists s' d' x, append_block nb d s = Ret (d', x) s' /\ grown s' d' nb x.
Proof using Himg Hok.
  intros Hnb Hroom. pose proof Hok as [Hd Hmap _ Hrg Hind Hfree]. pose proof (im_free _ Himg) as [Hm1 Hm2].
  assert (nmeta = 47) as Em by done. assert (FSSIZE = 2000) as Ef by done. assert (NDIRECT = 12 /\ MAXFILE = 268) as [En Ex] by done.
  assert (cost (nb + 1) - cost nb = 1 + (if nb =? NDIRECT then 1 else 0)) as Hcost.
  { unfold cost. destruct (Z.ltb_spec NDIRECT (nb + 1)), (Z.ltb_spec NDIRECT nb), (Z.eqb_spec nb NDIRECT); lia. }
  destruct (indirect_ok Hnb) as (s1 & d1 & E1 & Ei & Hfi & Hi1 & Hd1 & Hsame & Hfb & Ha & Hdir & Hword & Hanew);
    [destruct (_ =? _); lia|]. set (a := d_addrs d1 !!! 12%nat) in *. set (b := mk_freeblock s1).
  assert (view s1 = view s) as Ev by (unfold view; by rewrite Ei).
  destruct (new_block_ok s1 Hi1) as [Enew Hi2]; [lia|]. fold b in Enew.
  set (j := Z.to_nat (nb - NDIRECT)). set (blk := put_le 4 (4 * j) b (view s a)).
  assert (length (view s a) = Z.to_nat BSIZE) as Hla by (apply (im_len _ Himg); destruct (_ =? _); lia).
  change (Z.to_nat BSIZE) with 1024%nat in Hla. assert (4 * j + 4 <= 1024)%nat as Hj by lia.
  assert (0 <= b < 2 ^ 32) as Hb by (unfold b; destruct (_ =? _); lia).
  assert (forall bn, NDIRECT <= bn < MAXFILE -> word_at (Z.to_nat (bn - NDIRECT)) blk =
    if bn =? nb then b else file_block (view s) (inode_of d) bn) as Hblk.
  { intros bn Hbn. unfold blk. rewrite word_put, Hword by (lia || done).
    case_decide; destruct (Z.eqb_spec bn nb); done || lia. }
  set (s' := put_sect a blk (bump s1)). exists s', d1, b.
  assert (forall y, view s' y = if y =? a then blk else view s y) as Hv.
  { intros y. unfold s'. rewrite view_put. unfold upd_view. change (view (bump s1)) with (view s1). by rewrite Ev. }
  assert (forall bn, 0 <= bn < MAXFILE -> file_block (view s') (inode_of d1) bn =
    if bn =? nb then b else file_block (view s) (inode_of d) bn) as Hfb'.
  { intros bn Hbn. destruct (Z.ltb_spec bn NDIRECT).
    - rewrite !block_direct, Hdir, (proj2 (Z.eqb_neq bn nb)) by (done || lia). done.
    - rewrite block_indirect by done. fold a. rewrite (proj2 (Z.eqb_neq a 0)), Hv, Z.eqb_refl by lia. apply Hblk. lia. }
  split.
  - unfold append_block. rewrite (proj2 (Z.ltb_ge nb NDIRECT)) by lia. change (Z.to_nat NDIRECT) with 12%nat.
    kstep E1. fold a. rewrite (xint_id a) by (destruct (nb =? NDIRECT); lia).
    kstep (rsect_ok s1 a Hi1 ltac:(destruct (nb =? NDIRECT); lia)). rewrite Ev. fold j.
    assert (word_at j (view s a) = 0) as -> by (unfold j; rewrite Hword by lia; apply Hfree; lia). cbn [Z.eqb].
    erewrite bind_Ret; [|erewrite bind_Ret; [|exact Enew]; rewrite (xint_id b) by done; reflexivity]. fold blk.
    unfold j. rewrite Hblk, Z.eqb_refl by lia. by rewrite (xint_id b).
  - split; try done.
    + apply img_put; [done| |cbn; lia]. unfold blk. by rewrite length_put_le, Hla by lia.
    + cbn. fold b. lia.
    + rewrite Hfb' by lia. by rewrite Z.eqb_refl.
    + intros bn Hbn. rewrite Hfb' by lia. by rewrite (proj2 (Z.eqb_neq bn nb)) by lia.
    + intros bn Hbn. rewrite Hv. destruct (Z.eqb_spec (file_block (view s) (inode_of d) bn) a) as [E|]; [|done]. exfalso.
      destruct Hanew as [Hn|Hn]; [|specialize (Hrg bn Hbn); lia].
      apply (mp_data _ _ _ Hmap bn Hbn). rewrite E. exact Hn.
    + intros _. split; [cbn; unfold b; destruct (_ =? _); lia|]. rewrite Hv, (proj2 (Z.eqb_neq b a)) by (unfold b; lia).
      apply (im_zero _ Himg). unfold b. destruct (_ =? _); lia.
    + rewrite (proj2 (Z.ltb_lt NDIRECT (nb + 1))) by lia. cbn. fold a b. lia.
    + fold a. destruct Hanew as [->|Hn]; [by left|right; lia].
    + fold a. unfold b. lia.
    + intros bn Hbn. rewrite Hfb', (proj2 (Z.eqb_neq bn nb)) by lia. apply Hfree. lia.
    + intros y Hy1 Hy2. rewrite Hv, (proj2 (Z.eqb_neq y a)); [done|]. destruct Hanew as [Hn|Hn]; congruence || lia.
Qed.

(** The block of the next byte. *)
Lemma next_block : let fbn := size_of c / BSIZE in
  fbn = nb \/ (0 <= fbn < nb /\ fbn + 1 = nb).
Proof using Type.
  cbv zeta. assert (0 <= size_of c) as H0 by (unfold size_of; lia).
  pose proof (nblk_bounds (size_of c) H0) as Hb. change BSIZE with 1024 in *.
  pose proof (Z.div_mod (size_of c) 1024 ltac:(lia)). pose proof (Z.mod_pos_bound (size_of c) 1024 ltac:(lia)). lia.
Qed.

Lemma append_block_ok :
  let fbn := size_of c / BSIZE in
  fbn < MAXFILE -> mk_freeblock s + cost (fbn + 1) - cost nb <= FSSIZE ->
  exists s' d' x, append_block fbn d s = Ret (d', x) s' /\ grown s' d' fbn x.
Proof using Himg Hok.
  intros fbn Hmax Hroom. assert (0 <= nb) as Hnb0 by (apply nblk_nonneg; unfold size_of; lia).
  destruct next_block as [E|[Hlt E]]; fold fbn in E.
  - rewrite E in *. destruct (Z.ltb_spec nb NDIRECT) as [H|H].
    + apply append_direct; [done|]. unfold cost in Hroom.
      rewrite (proj2 (Z.ltb_ge NDIRECT nb)), (proj2 (Z.ltb_ge NDIRECT (nb + 1))) in Hroom by lia. lia.
    + by apply append_indirect.
  - destruct (append_old fbn) as (x & Ea & Hg); [done..|]. by exists s, d, x.
Qed.

(** The blocks of the file after [append_block]. *)
Lemma grown_range s' d' fbn x :
  grown s' d' fbn x -> fbn = nb \/ fbn + 1 = nb ->
  forall bn, 0 <= bn < fbn + 1 -> nmeta <= file_block (view s') (inode_of d') bn < mk_freeblock s' /\
    (bn < nb /\ file_block (view s') (inode_of d') bn = file_block (view s) (inode_of d) bn \/
     bn = nb /\ fbn = nb /\ file_block (view s') (inode_of d') bn = x /\ mk_freeblock s <= x).
Proof using Himg Hok.
  intros G Hf bn Hbn. pose proof (im_free _ Himg).
  assert (cost nb <= cost (fbn + 1)) as Hc.
  { unfold cost. destruct (Z.ltb_spec NDIRECT nb), (Z.ltb_spec NDIRECT (fbn + 1)); lia. }
  pose proof (gr_fb _ _ _ _ G). destruct (decide (bn < nb)) as [Hlt|Hge].
  - rewrite (gr_old _ _ _ _ G) by lia. pose proof (fo_range _ _ _ _ Hok bn ltac:(lia)). split; [lia|by left].
  - assert (bn = fbn /\ fbn = nb) as [-> Hfn] by lia. rewrite <- (gr_block _ _ _ _ G).
    destruct (gr_new _ _ _ _ G Hfn) as [? _]. split; [lia|]. right. split_and!; [done..|lia].
Qed.

Lemma grown_mapped s' d' fbn x :
  grown s' d' fbn x -> fbn = nb \/ fbn + 1 = nb -> fbn < MAXFILE -> mapped (view s') (inode_of d') (fbn + 1).
Proof using Himg Hok.
  intros G Hf Hmax. pose proof (grown_range _ _ _ _ G Hf) as Hr. pose proof (im_free _ (gr_img _ _ _ _ G)).
  assert (nmeta = 47) as Em by done. pose proof (fo_map _ _ _ _ Hok) as Hmap. split.
  - lia.
  - intros bn Hbn. destruct (Hr bn Hbn) as [? _]. lia.
  - intros bn Hbn. destruct (Hr bn Hbn) as [? _]. apply (im_len _ (gr_img _ _ _ _ G)). lia.
  - intros a b Ha Hb E. destruct (Hr a Ha) as [_ Ca], (Hr b Hb) as [_ Cb].
    destruct Ca as [[La Ea]|(La & _ & Ea & Na)], Cb as [[Lb Eb]|(Lb & _ & Eb & Nb)]; try lia.
    + apply (mp_inj _ _ _ Hmap); [lia..|congruence].
    + pose proof (fo_range _ _ _ _ Hok a ltac:(lia)). lia.
    + pose proof (fo_range _ _ _ _ Hok b ltac:(lia)). lia.
  - intros bn Hbn. change (i_addrs (inode_of d') !!! Z.to_nat NDIRECT) with (d_addrs d' !!! 12%nat).
    destruct (Hr bn Hbn) as [_ [[L E]|(L & _ & E & N)]].
    + rewrite E. destruct (gr_indnew _ _ _ _ G) as [->|Hn].
      * apply (mp_data _ _ _ Hmap). lia.
      * pose proof (fo_range _ _ _ _ Hok bn ltac:(lia)). lia.
    + rewrite E. apply (gr_indx _ _ _ _ G).
Qed.

(** The bytes of the file after [append_block]. *)
Lemma grown_bytes s' d' fbn x k :
  grown s' d' fbn x -> fbn = nb \/ fbn + 1 = nb -> 0 <= k < (fbn + 1) * BSIZE ->
  file_byte (view s') (inode_of d') k = default 0 (c !! Z.to_nat k).
Proof using Himg Hok.
  intros G Hf Hk. assert (0 <= k / BSIZE < fbn + 1) as Hkb.
  { split; [apply Z.div_pos; [lia|done]|apply Z.div_lt_upper_bound; [done|lia]]. }
  unfold file_byte. destruct (grown_range _ _ _ _ G Hf _ Hkb) as [_ [[L E]|(L & Hfn & E & N)]].
  - rewrite E, (gr_data _ _ _ _ G) by lia. apply (fo_bytes _ _ _ _ Hok k).
    change BSIZE with 1024 in *. pose proof (Z.div_mod k 1024 ltac:(lia)). pose proof (Z.mod_pos_bound k 1024 ltac:(lia)). lia.
  - rewrite E. destruct (gr_new _ _ _ _ G Hfn) as [_ ->]. unfold zero_block.
    pose proof (Z.mod_pos_bound k BSIZE eq_refl). rewrite lookup_total_replicate_2 by lia.
    rewrite lookup_ge_None_2; [done|]. pose proof (nblk_bounds (size_of c) ltac:(unfold size_of; lia)) as Hb.
    unfold size_of in *. change BSIZE with 1024 in *. pose proof (Z.div_mod k 1024 ltac:(lia)). lia.
Qed.
End Append.

(** ** The loop *)

(** The file [d] with content [c] became [d'] with content [c']; nothing but its
    own blocks and new ones changed. *)
Record appended (s s' : mkstate) (d d' : dinode) (c c' : list Z) : Prop := {
  ap_img : img_ok s';
  ap_inode : mk_freeinode s' = mk_freeinode s;
  ap_fb : mk_freeblock s' = mk_freeblock s + cost (nblk (size_of c')) - cost (nblk (size_of c));
  ap_grow : mk_freeblock s <= mk_freeblock s';
  ap_same : (d_type d', d_major d', d_minor d', d_nlink d', d_size d') = (d_type d, d_major d, d_minor d, d_nlink d, d_size d);
  ap_ok : file_ok (view s') (mk_freeblock s') d' c';
  ap_frame : forall y, y < mk_freeblock s -> ~ owns (view s) d c y -> view s' y = view s y;
  ap_owns : forall y, owns (view s') d' c' y -> owns (view s) d c y \/ mk_freeblock s <= y }.

Lemma appended_refl s d c : img_ok s -> file_ok (view s) (mk_freeblock s) d c -> appended s s d d c c.
Proof. intros H1 H2. split; try done; [lia..|]. by left. Qed.
Lemma appended_trans s1 s2 s3 d1 d2 d3 c1 c2 c3 :
  appended s1 s2 d1 d2 c1 c2 -> appended s2 s3 d2 d3 c2 c3 -> appended s1 s3 d1 d3 c1 c3.
Proof.
  intros [A1 A2 A3 A4 A5 A6 A7 A8] [B1 B2 B3 B4 B5 B6 B7 B8]. split; try done; try lia; try congruence.
  - intros y Hy Ho. rewrite B7; [by apply A7|lia|]. intros Hy'. apply A8 in Hy' as [?|?]; [done|lia].
  - intros y Hy. apply B8 in Hy as [Hy|Hy]; [by apply A8|right; lia].
Qed.

Lemma file_block_ext v w ip bn : (forall y, v y = w y) -> file_block v ip bn = file_block w ip bn.
Proof. intros H. unfold file_block. by rewrite H. Qed.
Lemma patched_ext v v1 v2 ip nb off n bs :
  (forall y, v1 y = v2 y) -> patched v v1 ip nb off n bs -> patched v v2 ip nb off n bs.
Proof.
  intros E [P1 [M1 M2 M3 M4 M5] P3 P4].
  assert (forall bn, file_block v2 ip bn = file_block v1 ip bn) as Eb by (intros bn; apply file_block_ext; intros y; by rewrite E).
  split.
  - intros bn Hbn. rewrite Eb. by apply P1.
  - split; [done|..]; intros; rewrite ?Eb in *; rewrite <- ?E; auto.
  - intros k Hk. unfold file_byte. rewrite Eb, <- E. by apply P3.
  - intros x Hx. rewrite <- E. by apply P4.
Qed.

(** The size of the file after the bytes that fit its last block. *)
Lemma nblk_step n m : 0 <= n -> 0 < m <= (n / BSIZE + 1) * BSIZE - n -> nblk (n + m) = n / BSIZE + 1.
Proof.
  intros Hn Hm. unfold nblk. change BSIZE with 1024 in *. symmetry. apply Z.div_unique with (n + m - n / 1024 * 1024 - 1).
  - pose proof (Z.div_mod n 1024 ltac:(lia)). pose proof (Z.mod_pos_bound n 1024 ltac:(lia)). lia.
  - lia.
Qed.

(** The state once the bytes [bs] are in the block [x] of the file. *)
Lemma step_appended s d c bs n1 s1 d1 fbn x :
  img_ok s -> file_ok (view s) (mk_freeblock s) d c -> grown s d c s1 d1 fbn x ->
  fbn = nblk (size_of c) \/ fbn + 1 = nblk (size_of c) -> 0 <= fbn < MAXFILE -> 0 < n1 -> length bs = Z.to_nat n1 ->
  size_of (c ++ bs) = size_of c + n1 -> nblk (size_of (c ++ bs)) = fbn + 1 ->
  size_of c - fbn * BSIZE + n1 <= BSIZE -> 0 <= size_of c - fbn * BSIZE ->
  let s2 := put_sect x (put_bytes (Z.to_nat (size_of c - fbn * BSIZE)) bs (view s1 x)) s1 in
  patched (view s1) (view s2) (inode_of d1) (fbn + 1) (size_of c) n1 bs ->
  appended s s2 d d1 c (c ++ bs).
Proof.
  intros Himg Hok G Hf Hfbn Hn1 Hbs Hsz Hnb Hfit Hpos s2 [P1 P2 P3 P4].
  pose proof (grown_range s d c Himg Hok _ _ _ _ G Hf) as Hrange.
  pose proof (im_free _ (gr_img _ _ _ _ _ _ _ G)) as Hfree1. assert (nmeta = 47 /\ FSSIZE = 2000) as [En EF] by done.
  destruct (Hrange fbn ltac:(lia)) as [Hx Hxc]. rewrite <- (gr_block _ _ _ _ _ _ _ G) in Hx, Hxc.
  assert (cost (nblk (size_of c)) <= cost (fbn + 1)) as Hc.
  { unfold cost. destruct (Z.ltb_spec NDIRECT (nblk (size_of c))), (Z.ltb_spec NDIRECT (fbn + 1)); lia. }
  pose proof (gr_fb _ _ _ _ _ _ _ G) as Hfb.
  assert (forall y, view s2 y = if y =? x then put_bytes (Z.to_nat (size_of c - fbn * BSIZE)) bs (view s1 x) else view s1 y) as Hv
    by (intros y; unfold s2; by rewrite view_put).
  assert (length (view s1 x) = Z.to_nat BSIZE) as Hlx by (apply (im_len _ (gr_img _ _ _ _ _ _ _ G)); lia).
  split.
  - apply img_put; [apply G| |lia]. rewrite length_put_bytes; [done|]. lia.
  - exact (gr_inode _ _ _ _ _ _ _ G).
  - rewrite Hnb. exact Hfb.
  - cbn. lia.
  - exact (gr_same _ _ _ _ _ _ _ G).
  - split; rewrite ?Hnb.
    + exact (gr_din _ _ _ _ _ _ _ G).
    + exact P2.
    + intros k Hk. rewrite P3 by done. unfold size_of in *.
      destruct (Z.leb_spec (Z.of_nat (length c)) k), (Z.ltb_spec k (Z.of_nat (length c) + n1)); cbn [andb].
      * rewrite lookup_app_r by lia. replace (Z.to_nat k - length c)%nat with (Z.to_nat (k - Z.of_nat (length c))) by lia.
        by rewrite (list_lookup_lookup_total_lt bs) by lia.
      * rewrite (grown_bytes s d c Himg Hok s1 d1 fbn x k G Hf Hk).
        rewrite (lookup_ge_None_2 c), (lookup_ge_None_2 (c ++ bs)) by (rewrite ?length_app; lia). done.
      * rewrite (grown_bytes s d c Himg Hok s1 d1 fbn x k G Hf Hk). by rewrite lookup_app_l by lia.
      * lia.
    + intros bn Hbn. rewrite P1 by done. destruct (Hrange bn Hbn) as [? _]. cbn. lia.
    + exact (gr_ind _ _ _ _ _ _ _ G).
    + intros bn Hbn. rewrite <- (gr_free _ _ _ _ _ _ _ G bn Hbn).
      destruct (Z.ltb_spec bn NDIRECT); [by rewrite !block_direct|]. rewrite !block_indirect by done.
      destruct (_ =? 0); [done|]. f_equal. rewrite Hv, (proj2 (Z.eqb_neq _ x)); [done|].
      apply not_eq_sym, (gr_indx _ _ _ _ _ _ _ G).
  - intros y Hy Ho. rewrite Hv. destruct (Z.eqb_spec y x) as [->|].
    + exfalso. destruct Hxc as [[L E]|(L & _ & _ & N)]; [|lia]. apply Ho. right. exists fbn. split; [lia|done].
    + apply (gr_frame _ _ _ _ _ _ _ G); [done|]. intros E. apply Ho. by left.
  - intros y [E|(bn & Hbn & E)].
    + rewrite E. destruct (gr_indnew _ _ _ _ _ _ _ G) as [->|Hn]; [left; by left|by right].
    + rewrite Hnb in Hbn. rewrite P1 in E by done. destruct (Hrange bn Hbn) as [_ [[L Eb]|(L & _ & Eb & N)]].
      * left. right. exists bn. split; [lia|congruence].
      * right. congruence || lia.
Qed.

Lemma append_step_ok s d c p :
  img_ok s -> file_ok (view s) (mk_freeblock s) d c -> p <> [] -> size_of (c ++ p) <= MAXFILE * BSIZE ->
  let fbn := size_of c / BSIZE in
  let n1 := Z.min (size_of p) ((fbn + 1) * BSIZE - size_of c) in
  mk_freeblock s + cost (fbn + 1) - cost (nblk (size_of c)) <= FSSIZE ->
  exists s' d', append_step (d, size_of c, p) s =
      Ret (inl (d', size_of (c ++ take (Z.to_nat n1) p), drop (Z.to_nat n1) p)) s' /\
    0 < n1 /\ appended s s' d d' c (c ++ take (Z.to_nat n1) p) /\ nblk (size_of (c ++ take (Z.to_nat n1) p)) = fbn + 1.
Proof.
  intros Himg Hok Hp Hmax fbn n1 Hroom. unfold size_of in Hmax. rewrite length_app in Hmax.
  assert (0 < size_of p) as Hp0 by (unfold size_of; destruct p; [done|cbn; lia]).
  assert (0 <= size_of c) as Hc0 by (unfold size_of; lia).
  pose proof (Z.div_mod (size_of c) BSIZE ltac:(done)) as Hdm. pose proof (Z.mod_pos_bound (size_of c) BSIZE eq_refl) as Hmod.
  assert (BSIZE = 1024 /\ MAXFILE = 268 /\ FSSIZE = 2000 /\ nmeta = 47) as (EB & EM & EF & En) by done.
  assert (0 <= fbn < MAXFILE) as Hfbn by (unfold fbn, size_of in *; lia).
  assert (0 < n1 <= BSIZE - size_of c mod BSIZE) as Hn1 by (unfold n1, fbn; lia).
  assert (length (take (Z.to_nat n1) p) = Z.to_nat n1) as Hbs.
  { assert (n1 <= size_of p) by (unfold n1; lia). rewrite length_take. unfold size_of in *. lia. }
  set (bs := take (Z.to_nat n1) p) in *.
  assert (size_of (c ++ bs) = size_of c + n1) as Hsz by (unfold size_of in *; rewrite length_app; lia).
  assert (nblk (size_of (c ++ bs)) = fbn + 1) as Hnb by (rewrite Hsz; apply nblk_step; unfold fbn in *; lia).
  destruct (append_block_ok s d c Himg Hok ltac:(unfold fbn in *; lia) Hroom) as (s1 & d1 & x & E1 & G). fold fbn in E1, G.
  assert (fbn = nblk (size_of c) \/ fbn + 1 = nblk (size_of c)) as Hf by (destruct (next_block c) as [?|[? ?]]; unfold fbn; tauto).
  pose proof (grown_mapped s d c Himg Hok _ _ _ _ G Hf ltac:(lia)) as Hmap.
  pose proof (grown_range s d c Himg Hok _ _ _ _ G Hf) as Hrange.
  destruct (Hrange fbn ltac:(lia)) as [Hx Hxc]. rewrite <- (gr_block _ _ _ _ _ _ _ G) in Hx, Hxc.
  pose proof (im_free _ (gr_img _ _ _ _ _ _ _ G)) as Hfree1.
  set (s2 := put_sect x (put_bytes (Z.to_nat (size_of c - fbn * BSIZE)) bs (view s1 x)) s1).
  assert (patched (view s1) (view s2) (inode_of d1) (fbn + 1) (size_of c) n1 bs) as HP.
  { pose proof (patch_block (view s1) (inode_of d1) (fbn + 1) (size_of c) n1 bs Hmap) as HP. cbv zeta in HP. fold fbn in HP.
    rewrite <- (gr_block _ _ _ _ _ _ _ G) in HP. eapply patched_ext; [intros y; symmetry; apply view_put|].
    replace (Z.to_nat (size_of c - fbn * BSIZE)) with (Z.to_nat (size_of c mod BSIZE)) by (rewrite Z.mod_eq by done; unfold fbn; f_equal; ring).
    apply HP; [lia|lia|lia|done]. }
  exists s2, d1. split; [|split; [lia|]; split; [|done]].
  - unfold append_step. fold (size_of p). rewrite (proj2 (Z.ltb_lt 0 (size_of p))) by done. fold fbn.
    rewrite (proj2 (Z.ltb_lt fbn MAXFILE)) by lia. cbn [negb]. kstep E1. cbv beta iota. fold n1.
    kstep (rsect_ok s1 x (gr_img _ _ _ _ _ _ _ G) ltac:(lia)). fold bs. unfold wsect. kstep eq_refl. unfold ret, s2, put_sect.
    do 3 f_equal. f_equal. rewrite Hsz. unfold u32. apply Z.mod_small. unfold size_of in *. lia.
  - assert (size_of c - fbn * BSIZE = size_of c mod BSIZE) as Emod by (rewrite Z.mod_eq by done; unfold fbn; ring).
    apply (step_appended s d c bs n1 s1 d1 fbn x); try done; lia.
Qed.

Lemma nblk_mono n m : n <= m -> nblk n <= nblk m.
Proof. intros H. unfold nblk. apply Z.div_le_mono; [done|lia]. Qed.
Lemma cost_mono a b : a <= b -> cost a <= cost b.
Proof. intros H. unfold cost. destruct (Z.ltb_spec NDIRECT a), (Z.ltb_spec NDIRECT b); lia. Qed.

Lemma append_loop fuel s d c p :
  img_ok s -> file_ok (view s) (mk_freeblock s) d c -> (length p < fuel)%nat -> size_of (c ++ p) <= MAXFILE * BSIZE ->
  mk_freeblock s + cost (nblk (size_of (c ++ p))) - cost (nblk (size_of c)) <= FSSIZE ->
  exists s' d', loop fuel append_step (d, size_of c, p) s = Ret (d', size_of (c ++ p)) s' /\ appended s s' d d' c (c ++ p).
Proof.
  revert s d c p. induction fuel as [|fuel IH]; intros s d c p Himg Hok Hf Hmax Hroom; [lia|].
  destruct (decide (p = [])) as [->|Hne].
  - exists s, d. rewrite app_nil_r. split; [|by apply appended_refl]. by eapply loop_exit.
  - set (n1 := Z.min (size_of p) ((size_of c / BSIZE + 1) * BSIZE - size_of c)).
    set (bs := take (Z.to_nat n1) p). set (q := drop (Z.to_nat n1) p).
    assert (c ++ p = (c ++ bs) ++ q) as Ep by (rewrite <- app_assoc; unfold bs, q; by rewrite take_drop).
    assert (0 < n1 -> nblk (size_of c + n1) = size_of c / BSIZE + 1) as Hnb.
    { intros Hn. apply nblk_step; [unfold size_of; lia|]. unfold n1 in *. lia. }
    assert (0 < n1 <= size_of p) as Hn1.
    { assert (0 < size_of p) by (unfold size_of; destruct p; [done|cbn; lia]).
      pose proof (Z.div_mod (size_of c) BSIZE ltac:(done)). pose proof (Z.mod_pos_bound (size_of c) BSIZE eq_refl). unfold n1. lia. }
    assert (size_of c + n1 <= size_of (c ++ p)) as Hle by (unfold size_of in *; rewrite length_app; lia).
    assert (size_of c / BSIZE + 1 <= nblk (size_of (c ++ p))) as Hbl by (rewrite <- Hnb by lia; by apply nblk_mono).
    apply cost_mono in Hbl.
    destruct (append_step_ok s d c p Himg Hok Hne Hmax ltac:(lia)) as (s1 & d1 & E1 & _ & HA & Hnb1). fold n1 bs q in E1, HA, Hnb1.
    destruct (IH s1 d1 (c ++ bs) q) as (s' & d' & E' & HA'); [apply HA|apply HA| |by rewrite <- Ep| |].
    + unfold q. rewrite length_drop. unfold size_of in Hn1. lia.
    + rewrite <- Ep, (ap_fb _ _ _ _ _ _ HA). lia.
    + exists s', d'. rewrite Ep. split; [by rewrite (loop_next _ _ _ _ _ _ E1)|]. by eapply appended_trans.
Qed.

(** * All the files *)

Lemma file_frame v v' fb fb' d c :
  file_ok v fb d c -> fb <= fb' -> (forall y, nmeta <= y -> owns v d c y -> v' y = v y) ->
  file_ok v' fb' d c /\ forall y, owns v' d c y <-> owns v d c y.
Proof.
  intros [H1 H2 H3 H4 H5 H6] Hfb Hv. assert (nmeta = 47) as En by done. pose proof (mp_max _ _ _ H2) as Hmax.
  assert (0 <= nblk (size_of c)) as Hnb0 by (apply nblk_nonneg; unfold size_of; lia).
  assert (forall bn, file_block v' (inode_of d) bn = file_block v (inode_of d) bn) as Eb.
  { intros bn. destruct (Z.ltb_spec bn NDIRECT); [by rewrite !block_direct|]. rewrite !block_indirect by done.
    destruct (Z.eqb_spec (d_addrs d !!! 12%nat) 0) as [|Hne]; [done|]. f_equal. apply Hv; [|by left].
    destruct (NDIRECT <? _); lia. }
  assert (forall bn, 0 <= bn < nblk (size_of c) -> v' (file_block v (inode_of d) bn) = v (file_block v (inode_of d) bn)) as Ed.
  { intros bn Hbn. apply Hv; [by apply H4|]. right. by exists bn. }
  split; [split; try done|].
  - destruct H2 as [M1 M2 M3 M4 M5]. split; [done|..]; intros; rewrite ?Eb in *; rewrite ?Ed by done; auto.
  - intros k Hk. rewrite <- H3 by done. unfold file_byte. rewrite Eb, Ed; [done|].
    split; [apply Z.div_pos; [lia|done]|apply Z.div_lt_upper_bound; [done|lia]].
  - intros bn Hbn. rewrite Eb. specialize (H4 bn Hbn). lia.
  - destruct (NDIRECT <? _); [lia|done].
  - intros bn Hbn. rewrite Eb. by apply H6.
  - intros y. unfold owns. setoid_rewrite Eb. done.
Qed.

Lemma iblock_range inum : 0 <= inum < NINODES -> 33 <= IBLOCK inum mk_sb < 46.
Proof.
  intros H. unfold IBLOCK. change (sb_inodestart mk_sb) with 33. change IPB with 16. change NINODES with 200 in H.
  pose proof (Z.div_pos inum 16 ltac:(lia) ltac:(lia)). assert (inum / 16 < 13) by (apply Z.div_lt_upper_bound; lia). lia.
Qed.
Lemma slot_range inum : (inode_slot inum < 16)%nat.
Proof. unfold inode_slot. change IPB with 16. pose proof (Z.mod_pos_bound inum 16 ltac:(lia)). lia. Qed.

Lemma rinode_ok s inum : img_ok s -> 0 <= inum < NINODES -> rinode inum s = Ret (disk_inode (view s) inum) s.
Proof.
  intros Himg Hi. pose proof (iblock_range inum Hi). assert (FSSIZE = 2000) as Ef by done.
  unfold rinode. by kstep (rsect_ok s (IBLOCK inum mk_sb) Himg ltac:(lia)).
Qed.

Lemma winode_ok s inum d :
  img_ok s -> 0 <= inum < NINODES -> dinode_ok d ->
  exists s', winode inum d s = Ret tt s' /\ img_ok s' /\ mk_freeinode s' = mk_freeinode s /\ mk_freeblock s' = mk_freeblock s /\
    (forall i, 0 <= i < NINODES -> disk_inode (view s') i = if i =? inum then d else disk_inode (view s) i) /\
    (forall y, y < 33 \/ 46 <= y -> view s' y = view s y).
Proof.
  intros Himg Hi Hd. pose proof (iblock_range inum Hi) as Hb. pose proof (im_free _ Himg) as Hfb.
  assert (nmeta = 47 /\ FSSIZE = 2000) as [En Ef] by done.
  set (b := IBLOCK inum mk_sb) in *. assert (length (view s b) = 1024%nat) as Hl by (apply (im_len _ Himg); lia).
  pose proof (slot_range inum) as Hs. set (k := inode_slot inum) in *.
  assert (length (put_dinode k d (view s b)) = 1024%nat) as Hl'.
  { unfold put_dinode. fold (dinode_bytes d). rewrite length_put_bytes; [done|]. rewrite dinode_bytes_length by done. lia. }
  exists (put_sect b (put_dinode k d (view s b)) s). split_and!.
  - unfold winode. fold b. kstep (rsect_ok s b Himg ltac:(lia)). done.
  - by apply img_put; [|rewrite Hl'|lia].
  - done.
  - done.
  - intros i Hir. pose proof (iblock_range i Hir). unfold disk_inode. rewrite view_put. unfold upd_view.
    destruct (Z.eqb_spec (IBLOCK i mk_sb) b) as [Eb|Nb].
    + destruct (Z.eqb_spec i inum) as [->|Ni]; [fold k; apply dinode_roundtrip; [done|lia]|].
      rewrite dinode_other by (done || lia || (intros Ek; apply Ni; unfold k, inode_slot, b, IBLOCK in *; change IPB with 16 in *;
        pose proof (Z.div_mod i 16 ltac:(lia)); pose proof (Z.div_mod inum 16 ltac:(lia));
        pose proof (Z.mod_pos_bound i 16 ltac:(lia)); pose proof (Z.mod_pos_bound inum 16 ltac:(lia)); lia)).
      by rewrite Eb.
    + rewrite (proj2 (Z.eqb_neq i inum)); [done|]. intros ->. done.
  - intros y Hy. rewrite view_put. unfold upd_view. by rewrite (proj2 (Z.eqb_neq y b)) by lia.
Qed.

(** The inodes allocated so far, with their types and contents: inode [k + 1] is
    the [k]-th. *)
Local Abbreviation entry := (Z * list Z)%type.
Definition used_blocks (fs : list entry) : Z := foldr (fun e n => cost (nblk (size_of (snd e))) + n) 0 fs.
Definition inum_of (k : nat) : Z := Z.of_nat k + 1.

Record mk_inv (s : mkstate) (fs : list entry) : Prop := {
  mi_img : img_ok s;
  mi_inode : mk_freeinode s = inum_of (length fs);
  mi_count : inum_of (length fs) <= NINODES;
  mi_sb : view s 1 = put_bytes 0 (sb_bytes mk_sb) zero_block;
  mi_file : forall k ty c, fs !! k = Some (ty, c) ->
    let d := disk_inode (view s) (inum_of k) in
    (d_type d, d_major d, d_minor d, d_nlink d, d_size d) = (ty, 0, 0, 1, size_of c) /\ file_ok (view s) (mk_freeblock s) d c;
  mi_sep : forall k k' ty c ty' c' y, fs !! k = Some (ty, c) -> fs !! k' = Some (ty', c') -> k <> k' -> nmeta <= y ->
    owns (view s) (disk_inode (view s) (inum_of k)) c y -> owns (view s) (disk_inode (view s) (inum_of k')) c' y -> False;
  mi_blocks : mk_freeblock s = nmeta + used_blocks fs }.

Lemma used_blocks_app l l' : used_blocks (l ++ l') = used_blocks l + used_blocks l'.
Proof. unfold used_blocks. induction l as [|e l IH]; cbn; lia. Qed.
Lemma used_blocks_cons e l : used_blocks (e :: l) = cost (nblk (size_of (snd e))) + used_blocks l.
Proof. done. Qed.
Lemma used_blocks_insert fs k ty c ty' c' :
  fs !! k = Some (ty, c) -> used_blocks (<[k := (ty', c')]> fs) = used_blocks fs - cost (nblk (size_of c)) + cost (nblk (size_of c')).
Proof.
  intros H. rewrite (insert_take_drop _ _ _ (lookup_lt_Some _ _ _ H)), used_blocks_app.
  pose proof (used_blocks_app (take k fs) ((ty, c) :: drop (S k) fs)) as E. rewrite take_drop_middle in E by done.
  rewrite E, !used_blocks_cons. cbn [snd]. lia.
Qed.

Lemma inum_range s fs k e : mk_inv s fs -> fs !! k = Some e -> 0 <= inum_of k < NINODES.
Proof. intros H Hk. apply lookup_lt_Some in Hk. pose proof (mi_count _ _ H).
  unfold inum_of in *. lia.
Qed.
Lemma inum_inj a b : (inum_of a =? inum_of b) = bool_decide (a = b).
Proof. unfold inum_of. destruct (Z.eqb_spec (Z.of_nat a + 1) (Z.of_nat b + 1)); case_bool_decide; done || lia. Qed.

Lemma owns_range v fb d c y : file_ok v fb d c -> owns v d c y -> y = 0 \/ nmeta <= y < fb.
Proof.
  intros H [->|(bn & Hbn & ->)].
  - pose proof (fo_ind _ _ _ _ H). destruct (NDIRECT <? _); [by right|by left].
  - right. by apply (fo_range _ _ _ _ H).
Qed.

(** Only the addresses matter. *)
Lemma file_addrs v fb d1 d2 c : file_ok v fb d1 c -> d_addrs d2 = d_addrs d1 -> dinode_ok d2 -> file_ok v fb d2 c.
Proof. intros [? M ? ? ? ?] E Hd. destruct d1, d2. cbn in E. subst. split; try done. by destruct M. Qed.

(** One file grew, and its inode was written. *)
Lemma append_inv s s1 s2 fs k ty c c' d1 d2 :
  let d := disk_inode (view s) (inum_of k) in
  mk_inv s fs -> fs !! k = Some (ty, c) -> appended s s1 d d1 c c' ->
  img_ok s2 -> mk_freeinode s2 = mk_freeinode s1 -> mk_freeblock s2 = mk_freeblock s1 ->
  (forall i, 0 <= i < NINODES -> disk_inode (view s2) i = if i =? inum_of k then d2 else disk_inode (view s1) i) ->
  (forall y, y < 33 \/ 46 <= y -> view s2 y = view s1 y) ->
  (d_type d2, d_major d2, d_minor d2, d_nlink d2, d_size d2) = (ty, 0, 0, 1, size_of c') ->
  d_addrs d2 = d_addrs d1 -> dinode_ok d2 -> mk_inv s2 (<[k := (ty, c')]> fs).
Proof.
  intros d Hi Hk [A1 A2 A3 A4 A5 A6 A7 A8] I2 FI2 FB2 W2 V2 Hfld Haddr Hd2.
  assert (nmeta = 47 /\ NINODES = 200) as [En EN] by done. pose proof (im_free _ (mi_img _ _ Hi)) as Hfb.
  pose proof (mi_file _ _ Hi k ty c Hk) as [_ Hok].
  assert (forall v y, owns v d2 c' y <-> owns v d1 c' y) as Hown2 by (intros v y; clear -Haddr; destruct d1, d2; cbn in Haddr; by subst).
  assert (file_ok (view s2) (mk_freeblock s2) d2 c' /\ forall y, owns (view s2) d2 c' y <-> owns (view s1) d1 c' y) as [Hok2 Ho2].
  { destruct (file_frame (view s1) (view s2) (mk_freeblock s1) (mk_freeblock s2) d2 c') as [F1 F2].
    - by apply (file_addrs _ _ d1).
    - lia.
    - intros y Hy _. apply V2. lia.
    - split; [done|]. intros y. by rewrite F2, Hown2. }
  assert (forall y, 0 < y < nmeta -> view s1 y = view s y) as Hlow.
  { intros y Hy. apply A7; [lia|]. intros Ho. destruct (owns_range _ _ _ _ _ Hok Ho); lia. }
  assert (forall k' ty' c0, fs !! k' = Some (ty', c0) -> k' <> k ->
    disk_inode (view s2) (inum_of k') = disk_inode (view s) (inum_of k') /\
    file_ok (view s2) (mk_freeblock s2) (disk_inode (view s) (inum_of k')) c0 /\
    forall y, owns (view s2) (disk_inode (view s) (inum_of k')) c0 y <-> owns (view s) (disk_inode (view s) (inum_of k')) c0 y) as Hother.
  { intros k' ty' c0 Hk' Hne. pose proof (inum_range _ _ _ _ Hi Hk') as Hin. pose proof (mi_file _ _ Hi k' ty' c0 Hk') as [_ Hok'].
    split.
    - rewrite W2, inum_inj, bool_decide_eq_false_2 by done. unfold disk_inode. pose proof (iblock_range _ Hin).
      by rewrite Hlow by lia.
    - apply (file_frame (view s) _ (mk_freeblock s)); [done|lia|]. intros y Hy Ho.
      destruct (owns_range _ _ _ _ _ Hok' Ho); [lia|]. rewrite V2, A7; [done|lia| |lia].
      intros Ho'. eapply (mi_sep _ _ Hi k' k); done. }
  split.
  - done.
  - rewrite length_insert, FI2, A2. apply (mi_inode _ _ Hi).
  - rewrite length_insert. apply (mi_count _ _ Hi).
  - rewrite V2, Hlow by lia. apply (mi_sb _ _ Hi).
  - intros k' ty' c0 Hk'. destruct (decide (k' = k)) as [->|Hne].
    + rewrite list_lookup_insert_eq in Hk' by (by eapply lookup_lt_Some). injection Hk' as <- <-.
      rewrite W2, Z.eqb_refl by (by eapply inum_range). done.
    + rewrite list_lookup_insert_ne in Hk' by done. destruct (Hother _ _ _ Hk' Hne) as (-> & Hf & _).
      split; [by apply (mi_file _ _ Hi)|done].
  - assert (forall k' ty' c0 y, fs !! k' = Some (ty', c0) -> k' <> k -> nmeta <= y ->
      owns (view s2) (disk_inode (view s2) (inum_of k')) c0 y -> owns (view s2) d2 c' y -> False) as Hsep.
    { intros k' ty' c0 y Hk' Hne Hy O1 O2. destruct (Hother _ _ _ Hk' Hne) as (E & _ & Ho'). rewrite E, Ho' in O1.
      rewrite Ho2 in O2. pose proof (mi_file _ _ Hi k' ty' c0 Hk') as [_ Hok'].
      destruct (owns_range _ _ _ _ _ Hok' O1); [lia|]. apply A8 in O2 as [O2|?]; [|lia]. by eapply (mi_sep _ _ Hi k' k). }
    intros k1 k2 ty1 c1 ty2 c2 y H1 H2 Hne Hy O1 O2.
    destruct (decide (k1 = k)) as [->|N1], (decide (k2 = k)) as [->|N2]; [done|..].
    + rewrite list_lookup_insert_eq in H1 by (by eapply lookup_lt_Some). injection H1 as <- <-.
      rewrite list_lookup_insert_ne in H2 by done. rewrite W2, Z.eqb_refl in O1 by (by eapply inum_range). by eapply (Hsep k2).
    + rewrite list_lookup_insert_eq in H2 by (by eapply lookup_lt_Some). injection H2 as <- <-.
      rewrite list_lookup_insert_ne in H1 by done. rewrite W2, Z.eqb_refl in O2 by (by eapply inum_range). by eapply (Hsep k1).
    + rewrite list_lookup_insert_ne in H1, H2 by done. destruct (Hother _ _ _ H1 N1) as (E1 & _ & Ho1), (Hother _ _ _ H2 N2) as (E2 & _ & Ho2').
      rewrite E1, Ho1 in O1. rewrite E2, Ho2' in O2. by eapply (mi_sep _ _ Hi k1 k2).
  - rewrite FB2, A3, (mi_blocks _ _ Hi), (used_blocks_insert _ _ _ _ _ _ Hk). lia.
Qed.

(** [iappend] appends. *)
Lemma iappend_ok s fs k ty c p :
  mk_inv s fs -> fs !! k = Some (ty, c) -> size_of (c ++ p) <= MAXFILE * BSIZE ->
  nmeta + used_blocks (<[k := (ty, c ++ p)]> fs) <= FSSIZE ->
  exists s', iappend (inum_of k) p s = Ret tt s' /\ mk_inv s' (<[k := (ty, c ++ p)]> fs).
Proof.
  intros Hi Hk Hmax Hroom. pose proof (inum_range _ _ _ _ Hi Hk) as Hin. pose proof (mi_file _ _ Hi k ty c Hk) as [Hfld Hok].
  pose proof (iblock_range _ Hin) as Hib. assert (nmeta = 47 /\ FSSIZE = 2000 /\ MAXFILE * BSIZE = 274432) as (En & Ef & EM) by done.
  rewrite (used_blocks_insert _ _ _ _ _ _ Hk) in Hroom. pose proof (mi_blocks _ _ Hi) as Hblk.
  set (d := disk_inode (view s) (inum_of k)) in *. pose proof (f_equal snd Hfld) as T5. cbn [snd] in T5.
  assert (0 <= size_of c) as Hc0 by (unfold size_of; lia).
  assert (size_of c <= size_of (c ++ p)) as Hcp by (unfold size_of; rewrite length_app; lia).
  destruct (append_loop (S (length p)) s d c p (mi_img _ _ Hi) Hok ltac:(lia) Hmax ltac:(lia)) as (s1 & d1 & E1 & HA).
  pose proof HA as [A1 A2 A3 A4 A5 A6 A7 A8].
  set (d2 := set_dsize (xint (size_of (c ++ p))) d1).
  assert (xint (size_of (c ++ p)) = size_of (c ++ p)) as Ex by (apply xint_id; lia).
  assert (dinode_ok d2) as Hd2.
  { destruct (fo_din _ _ _ _ A6) as [? ? ? ? ? ? ?]. split; try done. change (d_size d2) with (xint (size_of (c ++ p))). rewrite Ex. lia. }
  destruct (winode_ok s1 (inum_of k) d2 A1 Hin Hd2) as (s2 & E2 & I2 & FI2 & FB2 & W2 & V2).
  exists s2. split.
  { unfold iappend. kstep (rinode_ok s (inum_of k) (mi_img _ _ Hi) Hin). fold d.
    rewrite T5, xint_id by lia. kstep E1. exact E2. }
  apply (append_inv s s1 s2 fs k ty c (c ++ p) d1 d2); try done.
  exact (f_equal2 pair (f_equal fst (eq_trans A5 Hfld)) Ex).
Qed.

(** [ialloc]: a new, empty file. *)
Lemma mk_ialloc_ok s fs ty :
  mk_inv s fs -> inum_of (length fs) < NINODES -> 0 <= ty < 2 ^ 15 ->
  exists s', mk_ialloc ty s = Ret (inum_of (length fs)) s' /\ mk_inv s' (fs ++ [(ty, [])]).
Proof.
  intros Hi Hlt Hty. set (k := length fs) in *. assert (0 <= inum_of k < NINODES) as Hin by (unfold inum_of in *; lia).
  assert (nmeta = 47 /\ NINODES = 200 /\ MAXFILE = 268) as (En & EN & EM) by done.
  set (d := Dinode ty 0 0 1 0 (replicate 13 0)).
  assert (dinode_ok d) as Hd.
  { split; cbn [d d_type d_major d_minor d_nlink d_size d_addrs]; [lia..|done|]. by apply Forall_replicate. }
  set (s0 := Mk (mk_img s) (u32 (mk_freeinode s + 1)) (mk_freeblock s)).
  assert (img_ok s0) as Hi0 by (destruct (mi_img _ _ Hi); by split).
  destruct (winode_ok s0 (inum_of k) d Hi0 Hin Hd) as (s' & E & I' & FI & FB & W & V).
  exists s'. split.
  { unfold mk_ialloc. kstep eq_refl. rewrite (mi_inode _ _ Hi). fold k. kstep eq_refl. fold s0.
    assert (s16 (xshort ty) = ty) as -> by (rewrite xshort_id by lia; apply s16_id; lia).
    change (s16 (xshort 1)) with 1. change (xint 0) with 0. fold d. kstep E. done. }
  assert (forall v y, owns v d [] y <-> y = 0) as Hown0.
  { intros v y. unfold owns. change (nblk (size_of [])) with 0. split; [intros [?|(bn & ? & _)]; [done|lia]|by left]. }
  assert (file_ok (view s') (mk_freeblock s') d []) as Hok0.
  { split; change (nblk (size_of [])) with 0; try (intros; lia); try done.
    - split; intros; lia.
    - intros bn Hbn. destruct (Z.ltb_spec bn NDIRECT).
      + rewrite block_direct by done. cbn [inode_of i_addrs d d_addrs]. apply lookup_total_replicate_2. change NDIRECT with 12 in *. lia.
      + by rewrite block_indirect by done. }
  assert (forall k' ty' c0, fs !! k' = Some (ty', c0) ->
    disk_inode (view s') (inum_of k') = disk_inode (view s) (inum_of k') /\
    file_ok (view s') (mk_freeblock s') (disk_inode (view s) (inum_of k')) c0 /\
    forall y, owns (view s') (disk_inode (view s) (inum_of k')) c0 y <-> owns (view s) (disk_inode (view s) (inum_of k')) c0 y) as Hother.
  { intros k' ty' c0 Hk'. pose proof (inum_range _ _ _ _ Hi Hk') as Hin'. pose proof (mi_file _ _ Hi k' ty' c0 Hk') as [_ Hok'].
    pose proof (lookup_lt_Some _ _ _ Hk'). split.
    - rewrite W, inum_inj, bool_decide_eq_false_2 by (done || unfold k; lia). done.
    - apply (file_frame (view s) _ (mk_freeblock s)); [done|rewrite FB; cbn; lia|]. intros y Hy _. rewrite V by lia. done. }
  assert (disk_inode (view s') (inum_of k) = d) as Ed by (rewrite W, Z.eqb_refl by done; done).
  split.
  - done.
  - rewrite length_app, FI. cbn. rewrite (mi_inode _ _ Hi). fold k. unfold inum_of in *. unfold u32. rewrite Z.mod_small by lia. lia.
  - rewrite length_app. cbn. fold k. unfold inum_of in *. lia.
  - rewrite V by lia. apply (mi_sb _ _ Hi).
  - intros k' ty' c0 Hk'. apply lookup_snoc_Some in Hk' as [[Hlt' Hk']|[-> [= <- <-]]].
    + destruct (Hother _ _ _ Hk') as (-> & Hf & _). split; [by apply (mi_file _ _ Hi)|done].
    + fold k. by rewrite Ed.
  - intros k1 k2 ty1 c1 ty2 c2 y H1 H2 Hne Hy O1 O2.
    apply lookup_snoc_Some in H1 as [[L1 H1]|[-> [= <- <-]]]; apply lookup_snoc_Some in H2 as [[L2 H2]|[-> [= <- <-]]].
    + destruct (Hother _ _ _ H1) as (E1 & _ & Ho1), (Hother _ _ _ H2) as (E2 & _ & Ho2).
      rewrite E1, Ho1 in O1. rewrite E2, Ho2 in O2. by eapply (mi_sep _ _ Hi k1 k2).
    + fold k in O2. rewrite Ed, Hown0 in O2. lia.
    + fold k in O1. rewrite Ed, Hown0 in O1. lia.
    + done.
  - rewrite FB, used_blocks_app. change (used_blocks [(ty, [])]) with 0. cbn. rewrite (mi_blocks _ _ Hi). lia.
Qed.

(** Contents grow, and so do the blocks in use. *)
Lemma cost_nonneg n : 0 <= n -> 0 <= cost n.
Proof. intros H. unfold cost. destruct (NDIRECT <? n); lia. Qed.
Lemma size_app c p : size_of (c ++ p) = size_of c + size_of p.
Proof. unfold size_of. rewrite length_app. lia. Qed.
Lemma used_grow fs k ty c p q :
  fs !! k = Some (ty, c) -> used_blocks (<[k := (ty, c ++ p)]> fs) <= used_blocks (<[k := (ty, c ++ p ++ q)]> fs).
Proof.
  intros H. rewrite !(used_blocks_insert _ _ _ _ _ _ H), app_assoc.
  assert (cost (nblk (size_of (c ++ p))) <= cost (nblk (size_of ((c ++ p) ++ q)))); [|lia].
  apply cost_mono, nblk_mono. rewrite (size_app (c ++ p) q). unfold size_of. lia.
Qed.

Lemma pieces_ok s fs k ty c pieces :
  mk_inv s fs -> fs !! k = Some (ty, c) -> size_of (c ++ concat pieces) <= MAXFILE * BSIZE ->
  nmeta + used_blocks (<[k := (ty, c ++ concat pieces)]> fs) <= FSSIZE ->
  exists s', iterl pieces (fun buf => iappend (inum_of k) buf) s = Ret tt s' /\ mk_inv s' (<[k := (ty, c ++ concat pieces)]> fs).
Proof.
  revert s fs c. induction pieces as [|p pieces IH]; intros s fs c Hi Hk Hmax Hroom; cbn [concat iterl] in *.
  - exists s. rewrite app_nil_r. split; [done|]. by rewrite list_insert_id.
  - pose proof (used_grow fs k ty c p (concat pieces) Hk). rewrite app_assoc, size_app in Hmax.
    assert (0 <= size_of (concat pieces)) by (unfold size_of; lia).
    destruct (iappend_ok s fs k ty c p Hi Hk ltac:(lia) ltac:(lia)) as (s1 & E1 & Hi1).
    destruct (IH s1 (<[k := (ty, c ++ p)]> fs) (c ++ p) Hi1) as (s' & E' & Hi').
    + apply list_lookup_insert_eq. by eapply lookup_lt_Some.
    + rewrite size_app. lia.
    + rewrite list_insert_insert_eq, <- app_assoc. lia.
    + exists s'. kstep E1. split; [done|]. by rewrite list_insert_insert_eq, <- app_assoc in Hi'.
Qed.
