(* ===== verification/MkfsMain.v ===== *)
(** mkfs/mkfs.c, [main]: the image [mkfs] writes holds the files of the command
    line.

    The files of an image are a list: inode [k + 1] is the [k]-th, the root
    directory first.  [layout] is that list for the arguments of the command;
    [mk_root], [mk_file] and [mk_finish] keep [mk_inv] along it. *)
From S2P Require Import Prelude Chars Riscv Memory Bytes Kstate Bio Cache Log Crash Fs Txn Fileio Mkfs.

Local Abbreviation arg := (list Z * option (list (list Z)))%type.

Definition content_of (f : arg) : list Z := concat (default [] (snd f)).
Definition name_of (f : arg) : list Z := strip_underscore (strip_user (fst f)).
(** An argument [mkfs] accepts: a file that can be read, whose name has no slash
    and fits a directory entry. *)
Definition good_arg (f : arg) : Prop :=
  is_Some (snd f) /\ ~ (ch "/" ∈ strip_user (fst f)) /\ Z.of_nat (length (name_of f)) <= DIRSIZ /\
  size_of (content_of f) <= MAXFILE * BSIZE.

(** The directory entries of the files from inode [i] on. *)
Fixpoint dir_entries (i : Z) (files : list arg) : list Z :=
  match files with
  | [] => []
  | f :: files => dirent_bytes i (name_of f) ++ dir_entries (i + 1) files
  end.
Definition dots : list Z := dirent_bytes ROOTINO (chars ".") ++ dirent_bytes ROOTINO (chars "..").
Definition root_content (files : list arg) : list Z := dots ++ dir_entries (ROOTINO + 1) files.
Definition layout (files : list arg) : list (Z * list Z) :=
  (T_DIR, root_content files) :: ((fun f => (T_FILE, content_of f)) <$> files).

Lemma dirent_length i n : length (dirent_bytes i n) = 16%nat.
Proof. unfold dirent_bytes. rewrite length_app, length_le_bytes, length_take, length_app, length_replicate. lia. Qed.
Lemma dir_entries_length i files : length (dir_entries i files) = (16 * length files)%nat.
Proof. revert i. induction files as [|f files IH]; intros i; [done|]. cbn [dir_entries length]. rewrite length_app, dirent_length, IH. lia. Qed.
Lemma dir_entries_snoc i files f :
  dir_entries i (files ++ [f]) = dir_entries i files ++ dirent_bytes (i + Z.of_nat (length files)) (name_of f).
Proof.
  revert i. induction files as [|g files IH]; intros i; cbn [dir_entries app length].
  - by rewrite app_nil_r, Z.add_0_r.
  - rewrite IH, <- app_assoc. do 3 f_equal. lia.
Qed.
Lemma root_content_size files : size_of (root_content files) = 16 * (Z.of_nat (length files) + 2).
Proof. unfold size_of, root_content, dots. rewrite !length_app, !dirent_length, dir_entries_length. lia. Qed.
Lemma layout_length files : length (layout files) = S (length files).
Proof. cbn. by rewrite length_map. Qed.

Lemma used_nonneg fs : 0 <= used_blocks fs.
Proof.
  induction fs as [|[ty c] fs IH]; [done|]. rewrite used_blocks_cons. cbn [snd].
  pose proof (cost_nonneg (nblk (size_of c))). pose proof (nblk_nonneg (size_of c)). unfold size_of in *. lia.
Qed.
Lemma layout_mono l l' : used_blocks (layout l) <= used_blocks (layout (l ++ l')).
Proof.
  unfold layout. rewrite fmap_app, !used_blocks_cons, used_blocks_app. cbn [snd].
  pose proof (used_nonneg ((fun f : arg => (T_FILE, content_of f)) <$> l')).
  assert (cost (nblk (size_of (root_content l))) <= cost (nblk (size_of (root_content (l ++ l'))))); [|lia].
  apply cost_mono, nblk_mono. rewrite !root_content_size, length_app. lia.
Qed.

(** One file of the command line. *)
Lemma mk_file_ok s l f :
  mk_inv s (layout l) -> good_arg f -> inum_of (length (layout l)) < NINODES ->
  nmeta + used_blocks (layout (l ++ [f])) <= FSSIZE ->
  exists s', mk_file ROOTINO f s = Ret tt s' /\ mk_inv s' (layout (l ++ [f])).
Proof.
  intros Hi ([pieces Ep] & Hs & Hn & Hmax) Hlt Hroom. destruct f as [name o]. cbn [snd fst] in *. subst o.
  set (i := inum_of (length (layout l))) in *.
  set (de := dirent_bytes i (name_of (name, Some pieces))).
  assert (root_content (l ++ [(name, Some pieces)]) = root_content l ++ de) as Er.
  { unfold root_content. rewrite dir_entries_snoc, app_assoc. unfold de, i, inum_of. rewrite layout_length. do 2 f_equal. change ROOTINO with 1. lia. }
  assert (layout (l ++ [(name, Some pieces)]) = <[0%nat := (T_DIR, root_content l ++ de)]> (layout l) ++ [(T_FILE, concat pieces)]) as El.
  { unfold layout. rewrite fmap_app, Er. done. }
  rewrite El, used_blocks_app in Hroom. set (fs0 := layout l) in *.
  destruct (mk_ialloc_ok s fs0 T_FILE Hi Hlt ltac:(done)) as (s1 & E1 & Hi1).
  assert ((fs0 ++ [(T_FILE, [])]) !! 0%nat = Some (T_DIR, root_content l)) as H0 by done.
  assert (nmeta = 47 /\ NINODES = 200 /\ MAXFILE = 268 /\ BSIZE = 1024) as (En & EN & EM & EB) by done.
  pose proof (used_nonneg [(T_FILE, concat pieces)]) as Hnn.
  assert (0 <= cost (nblk (size_of (concat pieces)))) as Hc by (apply cost_nonneg, nblk_nonneg; unfold size_of; lia).
  destruct (iappend_ok s1 _ 0 T_DIR (root_content l) de Hi1 H0) as (s2 & E2 & Hi2).
  { rewrite <- Er, root_content_size, length_app. cbn [length]. unfold i, inum_of, fs0 in Hlt. rewrite layout_length in Hlt. lia. }
  { change (<[0%nat := (T_DIR, root_content l ++ de)]> (fs0 ++ [(T_FILE, [])]))
      with ((<[0%nat := (T_DIR, root_content l ++ de)]> fs0) ++ [(T_FILE, [])]).
    rewrite used_blocks_app. change (used_blocks [(T_FILE, [])]) with 0. lia. }
  change (<[0%nat := (T_DIR, root_content l ++ de)]> (fs0 ++ [(T_FILE, [])]))
    with ((<[0%nat := (T_DIR, root_content l ++ de)]> fs0) ++ [(T_FILE, [])]) in Hi2.
  set (fs1 := <[0%nat := (T_DIR, root_content l ++ de)]> fs0) in *.
  assert (length fs1 = length fs0) as Hl1 by apply length_insert.
  assert (<[length fs0 := (T_FILE, [] ++ concat pieces)]> (fs1 ++ [(T_FILE, [])]) = fs1 ++ [(T_FILE, concat pieces)]) as Ei.
  { rewrite insert_app_r_alt by lia. rewrite Hl1, Nat.sub_diag. done. }
  destruct (pieces_ok s2 _ (length fs0) T_FILE [] pieces Hi2) as (s3 & E3 & Hi3).
  { rewrite lookup_app_r by lia. by rewrite Hl1, Nat.sub_diag. }
  { done. }
  { rewrite Ei, used_blocks_app. lia. }
  rewrite Ei in Hi3. exists s3. split; [|by rewrite El].
  unfold mk_file. rewrite bool_decide_eq_false_2 by done.
  change (strip_underscore (strip_user name)) with (name_of (name, Some pieces)).
  rewrite (proj2 (Z.leb_le _ _) Hn). cbn [negb]. kstep E1. fold i de. kstep E2. done.
Qed.

Lemma mk_files_ok s l files :
  mk_inv s (layout l) -> Forall good_arg files -> Z.of_nat (length (l ++ files)) + 2 <= NINODES ->
  nmeta + used_blocks (layout (l ++ files)) <= FSSIZE ->
  exists s', iterl files (mk_file ROOTINO) s = Ret tt s' /\ mk_inv s' (layout (l ++ files)).
Proof.
  intros Hi Hg. revert s l Hi. induction Hg as [|f files Hf Hg IH]; intros s l Hi Hc Hroom; cbn [iterl].
  - exists s. by rewrite app_nil_r.
  - rewrite (cons_middle f l files), app_assoc in Hc, Hroom |- *. pose proof (layout_mono (l ++ [f]) files).
    destruct (mk_file_ok s l f Hi Hf) as (s1 & E1 & Hi1).
    + rewrite !length_app in Hc. cbn in Hc. unfold inum_of. rewrite layout_length. lia.
    + lia.
    + kstep E1. by apply IH.
Qed.

(** ** The empty image *)

Lemma zero_loop l : forall s,
  iterl l (fun i => wsect i zero_block) s =
  Ret tt (set_img (fun img => foldl (fun img i => <[i := zero_block]> img) img l) s).
Proof.
  induction l as [|x l IH]; intros s; cbn [iterl]; [by destruct s|].
  assert (wsect x zero_block s = Ret tt (set_img (<[x := zero_block]>) s)) as E by done.
  kstep E. rewrite IH. by destruct s.
Qed.
Lemma zeroed l : forall (img : gmap Z (list Z)) x, x ∈ l \/ img !! x = Some zero_block ->
  foldl (fun img i => <[i := zero_block]> img) img l !! x = Some zero_block.
Proof.
  induction l as [|y l IH]; intros img x H; cbn.
  - destruct H as [H|H]; [by apply elem_of_nil in H|done].
  - apply IH. destruct (decide (x = y)) as [->|Hne]; [right; apply lookup_insert_eq|].
    rewrite lookup_insert_ne by done. destruct H as [H|H]; [left; set_solver|by right].
Qed.

Definition zeros : gmap Z (list Z) := foldl (fun img i => <[i := zero_block]> img) ∅ (seqZ 0 FSSIZE).
Definition blank : mkstate := put_sect 1 (put_bytes 0 (sb_bytes mk_sb) zero_block) (Mk zeros 1 nmeta).
Lemma blank_inv : mk_inv blank [].
Proof.
  assert (forall sec, 0 <= sec < FSSIZE -> zeros !! sec = Some zero_block) as H.
  { intros sec Hs. apply zeroed. left. apply elem_of_seqZ. lia. }
  split; try (intros; done).
  - apply img_put; [|done|done]. split.
    + intros sec Hs. cbn [mk_img]. rewrite H by done. done.
    + intros sec Hs. unfold view, dblock. cbn [mk_img]. by rewrite H.
    + done.
    + intros sec Hs. unfold view, dblock. cbn [mk_img mk_freeblock] in *. rewrite H; [done|]. change nmeta with 47 in Hs. lia.
Qed.

Lemma mk_root_ok : exists s, mk_root mk_start = Ret ROOTINO s /\ mk_inv s (layout []).
Proof.
  destruct (mk_ialloc_ok blank [] T_DIR blank_inv ltac:(done) ltac:(done)) as (s1 & E1 & Hi1). cbn [app length] in *.
  destruct (iappend_ok s1 _ 0 T_DIR [] (dirent_bytes ROOTINO (chars ".")) Hi1 eq_refl ltac:(done) ltac:(done)) as (s2 & E2 & Hi2).
  destruct (iappend_ok s2 _ 0 T_DIR _ (dirent_bytes ROOTINO (chars "..")) Hi2 eq_refl ltac:(done) ltac:(done)) as (s3 & E3 & Hi3).
  exists s3. split; [|exact Hi3].
  unfold mk_root. kstep eq_refl. kstep (zero_loop (seqZ 0 FSSIZE) (Mk ∅ 1 nmeta)).
  kstep (eq_refl : wsect 1 _ _ = Ret tt blank). kstep E1.
  change (inum_of 0) with ROOTINO. rewrite Z.eqb_refl. cbn [negb]. kstep E2. kstep E3. done.
Qed.

(** ** The bitmap *)

Lemma marked n : forall j, Z.of_nat n <= BPB -> 0 <= j < BPB ->
  bit_set j (foldl (fun buf i => mark_bit i buf) zero_block (seqZ 0 (Z.of_nat n))) = (j <? Z.of_nat n) /\
  length (foldl (fun buf i => mark_bit i buf) zero_block (seqZ 0 (Z.of_nat n))) = Z.to_nat BSIZE.
Proof.
  induction n as [|n IH]; intros j Hn Hj.
  - split; [|done]. rewrite bit_set_testbit. change (Z.of_nat 0) with 0. change (seqZ 0 0) with ([] : list Z). cbn [foldl].
    unfold zero_block. rewrite (proj2 (Z.ltb_ge j 0)) by lia.
    rewrite lookup_total_replicate_2; [by rewrite Z.testbit_0_l|].
    change BPB with (1024 * 8) in Hj. change BSIZE with 1024. apply Z2Nat.inj_lt; [apply Z.div_pos; lia|done|].
    apply Z.div_lt_upper_bound; lia.
  - destruct (IH j ltac:(lia) Hj) as [Hb Hl].
    replace (Z.of_nat (S n)) with (Z.of_nat n + 1) by lia.
    rewrite seqZ_app, foldl_app by lia. change (seqZ (0 + Z.of_nat n) 1) with [0 + Z.of_nat n]. cbn [foldl].
    set (buf := foldl _ zero_block (seqZ 0 (Z.of_nat n))) in *. rewrite Z.add_0_l.
    split.
    + rewrite mark_bit_spec by (try rewrite Hl; change BPB with 8192 in Hn; change BSIZE with 1024; lia). rewrite Hb.
      destruct (Z.ltb_spec j (Z.of_nat n)), (Z.eqb_spec j (Z.of_nat n)), (Z.ltb_spec j (Z.of_nat n + 1)); lia || done.
    + unfold mark_bit. by rewrite length_insert.
Qed.

Lemma mk_balloc_ok s :
  img_ok s ->
  exists s', mk_balloc (mk_freeblock s) s = Ret tt s' /\ img_ok s' /\ mk_freeblock s' = mk_freeblock s /\
    (forall y, y <> 46 -> view s' y = view s y) /\
    (forall b, 0 <= b < FSSIZE -> in_use mk_sb (view s') b = (b <? mk_freeblock s)).
Proof.
  intros Hi. pose proof (im_free _ Hi) as Hf. assert (nmeta = 47 /\ FSSIZE = 2000 /\ BPB = 8192) as (En & Ef & Eb) by done.
  set (n := Z.to_nat (mk_freeblock s)). assert (mk_freeblock s = Z.of_nat n) as E by lia.
  exists (put_sect 46 (foldl (fun buf i => mark_bit i buf) zero_block (seqZ 0 (mk_freeblock s))) s).
  rewrite E. split_and!.
  - unfold mk_balloc. rewrite (proj2 (Z.ltb_lt _ BPB)) by lia. done.
  - apply img_put; [done| |lia]. by apply (marked n 0); lia.
  - done.
  - intros y Hy. rewrite view_put. unfold upd_view. by rewrite (proj2 (Z.eqb_neq y 46)) by done.
  - intros b Hb. unfold in_use, BBLOCK. rewrite Eb. rewrite Z.div_small, Z.mod_small by lia.
    change (0 + sb_bmapstart mk_sb) with 46. rewrite view_put. unfold upd_view. rewrite Z.eqb_refl. apply marked; lia.
Qed.

(** ** The image *)

(** [mkfs] rounds the size of the root directory up to whole blocks. *)
Definition root_size (files : list arg) : Z := (16 * (Z.of_nat (length files) + 2) / BSIZE + 1) * BSIZE.

(** The disk [v] holds [files]: inode [k + 1] is the [k]-th of [layout files],
    its blocks are there, hold its content and nothing else, belong to no other
    file and are marked in the bitmap, which marks no block that is not in use. *)
Record image (v : Z -> list Z) (files : list arg) : Prop := {
  iw_super : sb_of (v 1) = mk_sb;
  iw_inode : forall k ty c, layout files !! k = Some (ty, c) ->
    let d := disk_inode v (inum_of k) in
    (d_type d, d_major d, d_minor d, d_nlink d, d_size d) =
      (ty, 0, 0, 1, if bool_decide (k = 0%nat) then root_size files else size_of c);
  iw_bytes : forall k ty c, layout files !! k = Some (ty, c) ->
    let ip := inode_of (disk_inode v (inum_of k)) in
    mapped v ip (nblk (size_of c)) /\ file_bytes v ip 0 (size_of c) = c /\
    (forall j, size_of c <= j < nblk (size_of c) * BSIZE -> file_byte v ip j = 0) /\
    (forall bn, nblk (size_of c) <= bn < MAXFILE -> file_block v ip bn = 0);
  iw_marked : forall k ty c b, layout files !! k = Some (ty, c) -> owns v (disk_inode v (inum_of k)) c b -> b <> 0 ->
    nmeta <= b < FSSIZE /\ in_use mk_sb v b = true;
  iw_apart : forall k k' ty c ty' c' b, layout files !! k = Some (ty, c) -> layout files !! k' = Some (ty', c') -> k <> k' ->
    owns v (disk_inode v (inum_of k)) c b -> owns v (disk_inode v (inum_of k')) c' b -> b = 0;
  iw_bitmap : forall b, 0 <= b < FSSIZE -> in_use mk_sb v b = (b <? nmeta + used_blocks (layout files)) }.

Lemma file_ok_bytes v fb d c : file_ok v fb d c -> file_bytes v (inode_of d) 0 (size_of c) = c.
Proof.
  intros H. apply list_eq. intros i. unfold file_bytes. rewrite list_lookup_fmap.
  destruct (decide (i < length c)%nat) as [Hi|Hi].
  - rewrite lookup_seq_lt by (unfold size_of; lia). cbn. destruct (lookup_lt_is_Some_2 c i Hi) as [x E]. rewrite E. f_equal.
    assert (nblk (size_of c) * BSIZE >= size_of c) by (destruct (nblk_bounds (size_of c)) as [?|[? ->]]; unfold size_of in *; lia).
    rewrite (fo_bytes _ _ _ _ H) by (unfold size_of in *; lia). by rewrite Z.add_0_l, Nat2Z.id, E.
  - rewrite lookup_seq_ge by (unfold size_of; lia). by rewrite lookup_ge_None_2 by lia.
Qed.

Lemma mk_finish_ok s files :
  mk_inv s (layout files) -> exists s', mk_finish ROOTINO s = Ret tt s' /\ image (view s') files.
Proof.
  intros Hi. assert (nmeta = 47 /\ FSSIZE = 2000 /\ NINODES = 200 /\ BSIZE = 1024) as (En & Ef & EN & EB) by done.
  destruct (mi_file _ _ Hi 0%nat T_DIR (root_content files) eq_refl) as [Hh Hok]. change (inum_of 0) with ROOTINO in *.
  set (d := disk_inode (view s) ROOTINO) in *. cbv zeta in Hh.
  assert (d_size d = 16 * (Z.of_nat (length files) + 2)) as Hsz by (rewrite <- root_content_size; exact (f_equal snd Hh)).
  pose proof (mi_count _ _ Hi) as Hc. rewrite layout_length in Hc. unfold inum_of in Hc.
  assert (0 <= root_size files < 2 ^ 31) as Hrs.
  { unfold root_size. rewrite EB. pose proof (Z.div_le_upper_bound (16 * (Z.of_nat (length files) + 2)) 1024 4 ltac:(lia) ltac:(lia)).
    pose proof (Z.div_pos (16 * (Z.of_nat (length files) + 2)) 1024 ltac:(lia) ltac:(lia)). lia. }
  set (d' := set_dsize (root_size files) d).
  assert (dinode_ok d') as Hd' by (destruct (fo_din _ _ _ _ Hok); split; try done; cbn; lia).
  destruct (winode_ok s ROOTINO d' (mi_img _ _ Hi) ltac:(done) Hd') as (s1 & E1 & I1 & FI1 & FB1 & W1 & V1).
  destruct (mk_balloc_ok s1 I1) as (s2 & E2 & I2 & FB2 & V2 & B2). rewrite FB1, (mi_blocks _ _ Hi) in B2.
  assert (forall i, 0 <= i < NINODES -> disk_inode (view s2) i = if i =? ROOTINO then d' else disk_inode (view s) i) as W2.
  { intros i Hin. rewrite <- W1 by done. unfold disk_inode. rewrite V2; [done|]. pose proof (iblock_range i Hin). lia. }
  assert (forall k ty c, layout files !! k = Some (ty, c) ->
    let d2 := disk_inode (view s2) (inum_of k) in
    file_ok (view s2) (mk_freeblock s) d2 c /\ forall y, owns (view s2) d2 c y <-> owns (view s) (disk_inode (view s) (inum_of k)) c y) as Hf.
  { intros k ty c Hk. pose proof (inum_range _ _ _ _ Hi Hk) as Hin. destruct (mi_file _ _ Hi k ty c Hk) as [_ Hok'].
    destruct (file_frame _ (view s2) _ (mk_freeblock s) _ _ Hok' ltac:(lia)) as [Hf Ho].
    { intros y Hy _. rewrite V2, V1 by lia. done. }
    cbv zeta. rewrite W2 by done. destruct (Z.eqb_spec (inum_of k) ROOTINO) as [E|]; [|done].
    rewrite E in *. fold d in Hf, Ho |- *. split; [by apply (file_addrs _ _ d)|]. intros y. rewrite <- Ho. unfold owns, d'. by destruct d. }
  exists s2. split.
  { unfold mk_finish. kstep (rinode_ok s ROOTINO (mi_img _ _ Hi) ltac:(done)). fold d. cbv zeta.
    assert (xint ((xint (d_size d) / BSIZE + 1) * BSIZE) = root_size files) as ->.
    { rewrite (xint_id (d_size d)), Hsz by lia. fold (root_size files). apply xint_id. lia. }
    fold d'. kstep E1. kstep eq_refl. done. }
  split.
  - rewrite V2, V1, (mi_sb _ _ Hi) by lia. vm_compute. done.
  - intros k ty c Hk. cbv zeta. rewrite W2 by by eapply inum_range. destruct (mi_file _ _ Hi k ty c Hk) as [Hh2 _]. cbv zeta in Hh2.
    change ROOTINO with (inum_of 0). rewrite inum_inj. destruct (bool_decide_reflect (k = 0%nat)) as [->|]; [|done].
    injection Hk as <- <-. unfold d', set_dsize. cbn [d_type d_major d_minor d_nlink d_size]. f_equal. exact (f_equal fst Hh).
  - intros k ty c Hk. destruct (Hf k ty c Hk) as [H _]. cbv zeta. split_and!.
    + apply H.
    + by eapply file_ok_bytes.
    + intros j Hj. rewrite (fo_bytes _ _ _ _ H) by (unfold size_of in *; lia). by rewrite lookup_ge_None_2 by (unfold size_of in *; lia).
    + apply H.
  - intros k ty c b Hk Hb Hne. destruct (Hf k ty c Hk) as [H _]. pose proof (im_free _ (mi_img _ _ Hi)).
    destruct (owns_range _ _ _ _ _ H Hb) as [|Hr]; [done|]. split; [lia|]. rewrite B2 by lia.
    apply Z.ltb_lt. rewrite <- (mi_blocks _ _ Hi). lia.
  - intros k k' ty c ty' c' b Hk Hk' Hne Hb Hb'. destruct (Hf k ty c Hk) as [H Ho], (Hf k' ty' c' Hk') as [_ Ho'].
    destruct (owns_range _ _ _ _ _ H Hb) as [|Hr]; [done|]. rewrite Ho in Hb. rewrite Ho' in Hb'.
    destruct (mi_sep _ _ Hi k k' ty c ty' c' b Hk Hk' Hne ltac:(lia) Hb Hb').
  - done.
Qed.

Lemma mkfs_image files :
  Forall good_arg files -> Z.of_nat (length files) + 2 <= NINODES -> nmeta + used_blocks (layout files) <= FSSIZE ->
  exists s, mkfs_main files mk_start = Ret tt s /\ image (view s) files.
Proof.
  intros Hgood Hcount Hroom. destruct mk_root_ok as (s0 & E0 & Hi0).
  destruct (mk_files_ok s0 [] files Hi0 Hgood Hcount Hroom) as (s1 & E1 & Hi1).
  destruct (mk_finish_ok s1 files Hi1) as (s2 & E2 & Hw).
  exists s2. split; [|done]. unfold mkfs_main. kstep E0. kstep E1. exact E2.
Qed.

(** C19. [mkfs], given files that can be opened, with names that fit, at most 198
    of them, none over MAXFILE blocks and together no more than the disk holds,
    writes every sector of the image and ends; the image is a file system as the
    kernel reads it.  The superblock describes the layout; the root directory is
    inode 1, with [.] and [..] and then one entry for each file, in order, under
    its name without [user/] and the leading underscore; file [k] is inode
    [k + 2], with one link, the size of its content, and blocks in which the
    kernel's block mapping finds exactly its content, with zeros to the end of
    the last block; no block belongs to two files, and the bitmap marks the
    meta blocks and the blocks of the files, and only those. *)
Theorem mkfs_correct files
  (Hgood : Forall good_arg files) (Hcount : Z.of_nat (length files) + 2 <= NINODES)
  (Hroom : nmeta + used_blocks (layout files) <= FSSIZE) :
  exists s, mkfs_main files mk_start = Ret tt s /\ image (view s) files.
Proof. by apply mkfs_image. Qed.

Lemma mkfs_correct_witness :
  let files := [(chars "README", Some [chars "hi"]); (chars "user/_cat", Some (replicate 14 (replicate 1024 7)))] in
  exists s, mkfs_main files mk_start = Ret tt s /\ image (view s) files.
Proof.
  apply mkfs_correct.
  - repeat constructor; try (by eexists); try done; apply (bool_decide_unpack _); vm_compute; exact Logic.I.
  - done.
  - vm_compute. done.
Defined.

(** With 62 files the entries fill the first block of the root directory, and its
    size is two blocks: the second one is not there. *)
Lemma root_past_blocks files :
  length files = 62%nat -> root_size files = 2 * BSIZE /\ nblk (size_of (root_content files)) = 1.
Proof. intros H. rewrite root_content_size. unfold root_size. by rewrite H. Qed.
