(* ===== verification/Boot.v ===== *)
(** From the image to the kernel: the files that mkfs/mkfs.c puts on the disk are
    the files that kernel/fs.c finds there.

    The two programs share no code: [mkfs] writes inodes, directory entries and
    block maps its own way.  Here the directory lookup and the block mapping of the
    kernel run on the image. *)
From S2P Require Import Prelude Chars Riscv Spinlock Memory Bytes Kstring Kalloc Vm Proc Switch Sleeplock UserMem Kstate Bio Cache Log Crash Fs Txn Fileio Itable Dir Dirent Inodes Namei Mkfs MkfsMain.

Local Abbreviation arg := (list Z * option (list (list Z)))%type.

(** * The entries of the root directory *)

(** The names the kernel can tell apart: C strings that are not empty, each once,
    and not [.] or [..]. *)
Record names_ok (files : list arg) : Prop := {
  no_string : forall f, f ∈ files -> name_of f <> [] /\ (0 ∉ name_of f) /\ all_bytes (name_of f);
  no_dup : NoDup (chars "." :: chars ".." :: (name_of <$> files)) }.

(** The entries of the root directory, in order. *)
Definition slots (files : list arg) : list (Z * list Z) :=
  (ROOTINO, chars ".") :: (ROOTINO, chars "..") :: imap (fun k f => (inum_of (S k), name_of f)) files.

Lemma slots_length files : length (slots files) = (length files + 2)%nat.
Proof. cbn. rewrite length_imap. lia. Qed.

Lemma slots_file files k : slots files !! S (S k) = (fun f => (inum_of (S k), name_of f)) <$> files !! k.
Proof. exact (list_lookup_imap _ files k). Qed.

Lemma slots_names files : snd <$> slots files = chars "." :: chars ".." :: (name_of <$> files).
Proof.
  unfold slots. cbn [fmap list_fmap snd]. do 2 f_equal. rewrite fmap_imap. apply list_eq. intros k.
  rewrite list_lookup_imap, list_lookup_fmap. done.
Qed.

Lemma root_slots files : root_content files = concat (uncurry dirent_bytes <$> slots files).
Proof.
  unfold root_content, dots, slots. cbn [fmap list_fmap concat uncurry]. rewrite <- app_assoc. do 2 f_equal.
  change (ROOTINO + 1) with (inum_of 1).
  assert (forall j, dir_entries (inum_of j) files = concat (uncurry dirent_bytes <$> imap (fun k f => (inum_of (j + k), name_of f)) files)) as H.
  { induction files as [|f files IH]; intros j; [done|]. cbn [dir_entries imap fmap list_fmap concat uncurry].
    rewrite Nat.add_0_r. f_equal. replace (inum_of j + 1) with (inum_of (S j)) by (unfold inum_of; lia). rewrite IH.
    do 2 f_equal. apply imap_ext. intros k g _. cbn. by replace (j + S k)%nat with (S (j + k)) by lia. }
  apply (H 1%nat).
Qed.

Lemma chunk16 (l : list (list Z)) k x :
  Forall (fun y => length y = 16%nat) l -> l !! k = Some x -> take 16 (drop (16 * k) (concat l)) = x.
Proof.
  intros H. revert k. induction H as [|y l Hy _ IH]; intros k Hk; [done|]. destruct k as [|k]; cbn in Hk.
  - injection Hk as ->. cbn [concat]. rewrite Nat.mul_0_r, drop_0. by apply take_app_length'.
  - cbn [concat]. rewrite drop_app, drop_ge by lia. cbn [app]. replace (16 * S k - length y)%nat with (16 * k)%nat by lia.
    by apply IH.
Qed.

Lemma root_entry files k i nm : slots files !! k = Some (i, nm) ->
  take 16 (drop (16 * k) (root_content files)) = dirent_bytes i nm.
Proof.
  intros H. rewrite root_slots. apply chunk16.
  - apply Forall_fmap, Forall_true. intros [? ?]. apply dirent_length.
  - by rewrite list_lookup_fmap, H.
Qed.

(** ** An entry as the kernel reads it *)

Definition pad (nm : list Z) : list Z := nm ++ replicate (Z.to_nat DIRSIZ - length nm) 0.

Lemma pad_ok nm : (length nm <= Z.to_nat DIRSIZ)%nat -> (0 ∉ nm) -> all_bytes nm -> name_ok (pad nm) /\ name_string (pad nm) = nm.
Proof.
  intros Hl H0 Hb. unfold pad. split; [split|].
  - rewrite length_app, length_replicate. lia.
  - apply Forall_app. split; [done|by apply Forall_replicate].
  - destruct (Z.to_nat DIRSIZ - length nm)%nat; [rewrite app_nil_r; by apply name_string_full|by apply name_string_nul].
Qed.

Lemma dirent_entry i nm :
  (length nm <= Z.to_nat DIRSIZ)%nat -> (0 ∉ nm) -> all_bytes nm -> 0 <= i < 2 ^ 16 ->
  all_bytes (dirent_bytes i nm) /\ de_inum (dirent_bytes i nm) = i /\ name_string (de_name (dirent_bytes i nm)) = nm.
Proof.
  intros Hl H0 Hb Hi. destruct (pad_ok nm Hl H0 Hb) as [P1 P2].
  assert (dirent_bytes i nm = new_entry (pad nm) i) as ->.
  { unfold dirent_bytes, new_entry. rewrite xshort_id by done. f_equal. rewrite name_field_spec, P2 by done.
    change DIRSIZ with 14 in *. rewrite take_app_ge, take_replicate by lia. do 2 f_equal. lia. }
  destruct (new_entry_spec (pad nm) i P1 Hi) as (_ & N2 & N3 & N4). split; [done|]. split; [done|].
  rewrite N4. rewrite <- P2 at 2. by apply name_field_ok.
Qed.

Lemma find_least_at (p : nat -> bool) k n :
  (k < n)%nat -> p k = true -> (forall j, (j < k)%nat -> p j = false) -> List.find p (seq 0 n) = Some k.
Proof.
  intros Hk Hp Hj. replace n with (k + S (n - S k))%nat by lia. rewrite seq_app. cbn [seq Nat.add].
  assert (forall l, (forall j, j ∈ l -> p j = false) -> List.find p (l ++ k :: seq (S k) (n - S k)) = Some k) as H.
  { induction l as [|a l IH]; intros Ha; cbn; [by rewrite Hp|]. rewrite Ha by (by left). apply IH. intros j Hj'. apply Ha. by right. }
  apply H. intros j [_ Hin]%elem_of_seq. by apply Hj.
Qed.

Section Image.
Context (v : Z -> list Z) (files : list arg) (Hw : image v files).
Context (Hgood : Forall good_arg files) (Hcount : Z.of_nat (length files) + 2 <= NINODES) (Hn : names_ok files).
Let d := on_disk mk_sb v ROOTINO.
Let ip := inode_of d.
Let c := root_content files.
Let L := (length files + 2)%nat.

Lemma slot_ok k i nm : slots files !! k = Some (i, nm) ->
  (length nm <= Z.to_nat DIRSIZ)%nat /\ (0 ∉ nm) /\ all_bytes nm /\ 0 < i < 2 ^ 16.
Proof using Hgood Hcount Hn.
  intros H. change NINODES with 200 in Hcount. change DIRSIZ with 14.
  assert (forall nm', nm' = chars "." \/ nm' = chars ".." -> (length nm' <= 14)%nat /\ (0 ∉ nm') /\ all_bytes nm') as Hdot.
  { intros nm' [->| ->]; (split; [cbn; lia|]; split; apply (bool_decide_unpack _); vm_compute; exact Logic.I). }
  destruct k as [|[|k]].
  - injection H as <- <-. destruct (Hdot (chars ".")) as (? & ? & ?); [by left|]. by split_and!.
  - injection H as <- <-. destruct (Hdot (chars "..")) as (? & ? & ?); [by right|]. by split_and!.
  - rewrite slots_file in H. destruct (files !! k) as [f|] eqn:E; [|done]. injection H as <- <-.
    pose proof (list_elem_of_lookup_2 _ _ _ E) as Hin. destruct (no_string _ Hn f Hin) as (_ & H0 & Hb).
    rewrite Forall_forall in Hgood. destruct (Hgood f Hin) as (_ & _ & Hl & _). change DIRSIZ with 14 in Hl.
    apply lookup_lt_Some in E. unfold inum_of. split_and!; try done; lia.
Qed.

Lemma root_fields : d_type d = T_DIR /\ d_nlink d = 1 /\ d_size d = root_size files.
Proof using Hw.
  pose proof (iw_inode _ _ Hw 0%nat T_DIR (root_content files) eq_refl) as H. cbv zeta in H.
  change (disk_inode v (inum_of 0)) with d in H. by injection H.
Qed.

Lemma root_mapped : mapped v ip (nblk (size_of c)) /\ file_bytes v ip 0 (size_of c) = c /\
  forall j, size_of c <= j < nblk (size_of c) * BSIZE -> file_byte v ip j = 0.
Proof using Hw.
  destruct (iw_bytes _ _ Hw 0%nat T_DIR (root_content files) eq_refl) as (H1 & H2 & H3 & _). done.
Qed.

Lemma root_byte j : 0 <= j < size_of c -> file_byte v ip j = c !!! Z.to_nat j.
Proof using Hw.
  intros Hj. destruct root_mapped as (_ & E & _).
  assert (file_bytes v ip 0 (size_of c) !! Z.to_nat j = Some (file_byte v ip j)) as H.
  { unfold file_bytes. rewrite list_lookup_fmap, lookup_seq_lt by lia. cbn. do 2 f_equal. lia. }
  rewrite E in H. by rewrite (list_lookup_total_correct _ _ _ H).
Qed.

Lemma root_used k i nm : slots files !! k = Some (i, nm) -> entry v ip k = dirent_bytes i nm.
Proof using Hw.
  intros H. rewrite <- (root_entry files k i nm H). pose proof (lookup_lt_Some _ _ _ H) as Hk. rewrite slots_length in Hk.
  pose proof (root_content_size files : size_of c = _) as Hs.
  apply list_eq_same_length with 16%nat.
  - rewrite length_take, length_drop. fold c. unfold size_of in Hs. lia.
  - unfold entry. rewrite file_bytes_length. done.
  - intros j x y Hj Hx Hy. unfold entry, file_bytes in Hx. rewrite list_lookup_fmap, lookup_seq_lt in Hx by (unfold DIRENT; lia).
    injection Hx as <-. rewrite lookup_take_lt, lookup_drop in Hy by done. cbn [Nat.add].
    rewrite root_byte by (unfold DIRENT; lia). unfold DIRENT. apply list_lookup_total_correct. fold c in Hy. rewrite <- Hy. f_equal. lia.
Qed.

(** The image rounds the size up to whole blocks: the entries that are left are
    free.  It has a block for each of them unless the entries in use end at the
    end of a block. *)
Context (Hpart : Z.of_nat L mod 64 <> 0).

Lemma root_blocks : nblk (size_of c) * BSIZE = root_size files /\ root_size files = DIRENT * (root_size files / DIRENT).
Proof using Hpart.
  unfold c, root_size, nblk, DIRENT. rewrite root_content_size. change BSIZE with 1024.
  unfold L in Hpart. rewrite Nat2Z.inj_add in Hpart. change (Z.of_nat 2) with 2 in Hpart.
  Z.to_euclidean_division_equations. lia.
Qed.

Lemma root_zero k : (L <= k)%nat -> DIRENT * (Z.of_nat k + 1) <= root_size files -> de_inum (entry v ip k) = 0.
Proof using Hw Hpart.
  intros Hk Hs. destruct root_mapped as (_ & _ & Hz). destruct root_blocks as [Eb _].
  pose proof (root_content_size files : size_of c = _) as Hc. unfold DIRENT in *.
  assert (entry v ip k = replicate 16 0) as ->; [|done].
  apply list_eq_same_length with 16%nat; [done|unfold entry; by rewrite file_bytes_length|].
  intros j x y Hj Hx Hy. unfold entry, file_bytes in Hx. rewrite list_lookup_fmap, lookup_seq_lt in Hx by (unfold DIRENT; lia).
  injection Hx as <-. rewrite lookup_replicate in Hy. destruct Hy as [-> _]. apply Hz. unfold DIRENT. unfold L in Hk. lia.
Qed.

Lemma root_directory : directory v ip (Z.to_nat (d_size d / DIRENT)) (nblk (size_of c)).
Proof using Hw Hpart Hgood Hcount Hn.
  destruct root_fields as (Ht & _ & Hs), root_mapped as (Hm & _ & Hz), root_blocks as [Eb Ed].
  assert (0 <= root_size files / DIRENT) as Hp.
  { unfold root_size, DIRENT. change BSIZE with 1024. Z.to_euclidean_division_equations. lia. }
  rewrite Hs. split; [done| |done| |].
  - change (i_size ip) with (d_size d). rewrite Hs, Z2Nat.id by done. done.
  - rewrite Z2Nat.id by done. lia.
  - intros j Hj. destruct (Z.lt_ge_cases j (size_of c)) as [Hlt|Hge]; [|rewrite Hz by lia; lia].
    rewrite root_byte by lia. set (k := Z.to_nat (j / 16)).
    assert (is_Some (slots files !! k)) as [[i nm] Hk].
    { apply lookup_lt_is_Some_2. rewrite slots_length. pose proof (root_content_size files : size_of c = _) as Hc.
      unfold k. Z.to_euclidean_division_equations. lia. }
    destruct (slot_ok k i nm Hk) as (S1 & S2 & S3 & S4). destruct (dirent_entry i nm S1 S2 S3 ltac:(lia)) as [Hb _].
    rewrite <- (root_entry files k i nm Hk) in Hb. fold c in Hb. unfold all_bytes in Hb. rewrite Forall_lookup in Hb.
    apply (Hb (Z.to_nat (j mod 16))). rewrite lookup_take_lt, lookup_drop by (Z.to_euclidean_division_equations; lia).
    replace (16 * k + Z.to_nat (j mod 16))%nat with (Z.to_nat j) by (unfold k; Z.to_euclidean_division_equations; lia).
    apply list_lookup_lookup_total_lt. unfold size_of in Hlt. lia.
Qed.

Lemma root_child k i nm : slots files !! k = Some (i, nm) -> dir_child v d nm = Some i.
Proof using Hw Hpart Hgood Hcount Hn.
  intros Hk. destruct (slot_ok k i nm Hk) as (S1 & S2 & S3 & S4). destruct (dirent_entry i nm S1 S2 S3 ltac:(lia)) as (_ & E1 & E2).
  unfold dir_child. fold ip. rewrite take_ge by done. unfold dir_find.
  rewrite (find_least_at _ k); [cbn; by rewrite (root_used k i nm), E1|..].
  - destruct root_fields as (_ & _ & ->), root_blocks as [Eb _]. pose proof (lookup_lt_Some _ _ _ Hk) as Hl. rewrite slots_length in Hl.
    unfold root_size, DIRENT. change BSIZE with 1024. Z.to_euclidean_division_equations. lia.
  - unfold named. rewrite (root_used k i nm), E1, E2, name_string_full, bool_decide_eq_true_2 by done.
    by rewrite (proj2 (Z.eqb_neq i 0)) by lia.
  - intros j Hj. destruct (lookup_lt_is_Some_2 (slots files) j) as [[i' nm'] Hk']; [apply lookup_lt_Some in Hk; lia|].
    destruct (slot_ok j i' nm' Hk') as (S1' & S2' & S3' & S4').
    destruct (dirent_entry i' nm' S1' S2' S3' ltac:(lia)) as (_ & _ & E2').
    unfold named. rewrite (root_used j i' nm'), E2', name_string_full by done.
    rewrite bool_decide_eq_false_2; [apply andb_false_r|].
    intros <-. pose proof (no_dup _ Hn) as Hd. rewrite <- slots_names in Hd.
    assert (j = k); [|lia]. apply (NoDup_lookup _ j k nm Hd); rewrite list_lookup_fmap; [by rewrite Hk'|by rewrite Hk].
Qed.

Lemma root_none nm : nm ∉ chars "." :: chars ".." :: (name_of <$> files) -> 0 ∉ nm -> Z.of_nat (length nm) <= DIRSIZ ->
  dir_child v d nm = None.
Proof using Hw Hpart Hgood Hcount Hn.
  intros Hout H0 Hlen. rewrite <- slots_names in Hout. unfold dir_child. fold ip. rewrite take_ge by lia.
  destruct (dir_find v ip nm _) as [k|] eqn:E; [|done]. exfalso. unfold dir_find in E. apply List.find_some in E as [Hk E].
  apply List.in_seq in Hk. unfold named in E. apply andb_true_iff in E as [E1 E2]. apply negb_true_iff, Z.eqb_neq in E1.
  apply bool_decide_eq_true_1 in E2. rewrite name_string_full in E2 by done.
  destruct (slots files !! k) as [[i nm']|] eqn:Ek.
  - destruct (slot_ok k i nm' Ek) as (S1 & S2 & S3 & S4). destruct (dirent_entry i nm' S1 S2 S3 ltac:(lia)) as (_ & _ & E3).
    rewrite (root_used k i nm'), E3 in E2 by done. apply Hout. rewrite E2. apply list_elem_of_fmap. exists (i, nm').
    split; [done|]. by apply list_elem_of_lookup_2 in Ek.
  - apply E1, root_zero.
    + apply lookup_ge_None_1 in Ek. rewrite slots_length in Ek. exact Ek.
    + destruct root_fields as (_ & _ & Es), root_blocks as [_ ->]. rewrite Es in Hk. unfold DIRENT in *. lia.
Qed.
End Image.

Section Readable.
Context `{W : WaitBound} `{D : DiskDriver} `{Dok : !DiskOk}.

Lemma slash_elements nm : nm <> [] -> SLASH ∉ nm -> elements (SLASH :: nm) = [nm].
Proof.
  intros Hne Hs. rewrite elements_slash by done.
  assert (split_elem nm = (nm, [])) as E.
  { induction nm as [|x nm IH]; [done|]. apply not_elem_of_cons in Hs as [H1 H2]. cbn [split_elem].
    rewrite (proj2 (Z.eqb_neq x SLASH)) by done. destruct (decide (nm = [])) as [->|]; [done|]. by rewrite IH. }
  by rewrite (elements_elem nm nm [] E).
Qed.

(** A name in the root directory. *)
Lemma namei_root me v s nm nb :
  let d := on_disk (k_sb s) v ROOTINO in
  ready me ROOTDEV v None s -> (2 <= nfree (k_itable s))%nat ->
  nm <> [] -> SLASH ∉ nm -> 0 ∉ nm -> all_bytes nm ->
  d_type d = T_DIR -> d_nlink d = 1 -> directory v (inode_of d) (Z.to_nat (d_size d / DIRENT)) nb ->
  (forall n, dir_child v d nm = Some n -> d_nlink (on_disk (k_sb s) v n) <> 0) ->
  match dir_child v d nm with
  | Some n => exists i s', namei (SLASH :: nm) s = Ret (Some i) s' /\ ready me ROOTDEV v None s' /\ k_sb s' = k_sb s /\
      (i < NINODE)%nat /\ refers ROOTDEV n (k_itable s' !!! i) = true
  | None => exists s', namei (SLASH :: nm) s = Ret None s'
  end.
Proof using Dok.
  intros d R Hf Hne Hs H0 Hb Ht Hl Hd Hch. pose proof (slash_elements nm Hne Hs) as Ee.
  assert (name_ok no_name) as Hnn by (split; [done|]; by apply Forall_replicate).
  destruct (namex_spec me v (SLASH :: nm) false no_name s ROOTINO R Hf) as (r & name' & s' & E & R' & H); try done.
  - apply not_elem_of_cons. done.
  - by constructor.
  - rewrite Ee. cbn [path_ok]. fold d. rewrite Hl, Ht. split; [done|]. split; [done|]. split; [by exists nb|]. intros m Hm. split; [by apply Hch|done].
  - rewrite Ee in H. cbn [lookup_path] in H. fold d in H. rewrite Ht in H. change (T_DIR =? T_DIR) with true in H.
    cbn [negb andb] in H. destruct (dir_child v d nm) as [n|].
    + destruct H as (i & -> & Hsb & Hi & Hr & _). exists i, s'. split; [unfold namei; by kstep E|]. done.
    + destruct H as [-> _]. exists s'. unfold namei. by kstep E.
Qed.

Section Booted.
Context (v : Z -> list Z) (files : list arg) (Hw : image v files).
Context (Hgood : Forall good_arg files) (Hcount : Z.of_nat (length files) + 2 <= NINODES) (Hn : names_ok files).
Context (Hpart : Z.of_nat (length files + 2) mod 64 <> 0).
Context (me : nat) (s : kstate) (R : ready me ROOTDEV v None s) (Esb : k_sb s = mk_sb) (Hf : (2 <= nfree (k_itable s))%nat).

(** The inode of file [k]. *)
Lemma file_inode k f : files !! k = Some f ->
  let d := on_disk mk_sb v (inum_of (S k)) in let n := size_of (content_of f) in
  d_type d = T_FILE /\ d_nlink d = 1 /\ d_size d = n /\ mapped v (inode_of d) (nblk n) /\ file_bytes v (inode_of d) 0 n = content_of f.
Proof using Hw.
  intros Hk d n.
  assert (layout files !! S k = Some (T_FILE, content_of f)) as Hlay.
  { transitivity (((fun f : arg => (T_FILE, content_of f)) <$> files) !! k); [done|]. by rewrite list_lookup_fmap, Hk. }
  pose proof (iw_inode _ _ Hw _ _ _ Hlay) as Hi. cbv zeta in Hi. destruct (iw_bytes _ _ Hw _ _ _ Hlay) as (Hm & Hb & _).
  change (disk_inode v (inum_of (S k))) with d in *. rewrite bool_decide_eq_false_2 in Hi by done.
  split_and!; try done; by injection Hi.
Qed.

Lemma file_slot k f : files !! k = Some f -> slots files !! S (S k) = Some (inum_of (S k), name_of f).
Proof using Type. intros H. by rewrite slots_file, H. Qed.

Lemma name_no_slash f : f ∈ files -> SLASH ∉ name_of f.
Proof using Hgood.
  intros Hin. rewrite Forall_forall in Hgood. destruct (Hgood f Hin) as (_ & Hs & _). intros H. apply Hs. revert H.
  unfold name_of, strip_underscore. destruct (strip_user (fst f)) as [|x l]; [done|]. destruct (_ =? _); [by right|done].
Qed.

Lemma image_finds f : f ∈ files -> let n := size_of (content_of f) in
  exists i s1 s2 s3, namei (SLASH :: name_of f) s = Ret (Some i) s1 /\ ilock (Some i) s1 = Ret tt s2 /\
    readi i DLocal 0 n s2 = Ret (n, content_of f) s3.
Proof using All.
  intros Hin n. pose proof (name_no_slash f Hin) as Hs. destruct (no_string _ Hn f Hin) as (Hne & H0 & Hb).
  pose proof (proj1 (Forall_forall _ _) Hgood f Hin) as (_ & _ & _ & Hmax). fold n in Hmax. change (MAXFILE * BSIZE) with 274432 in Hmax.
  apply list_elem_of_lookup in Hin as [k Hk]. destruct (file_inode k f Hk) as (D1 & D2 & D3 & D4 & D5). fold n in D3, D4, D5.
  destruct (root_fields v files Hw) as (Ht & Hl & _).
  pose proof (root_directory v files Hw Hgood Hcount Hn Hpart) as Hd.
  pose proof (root_child v files Hw Hgood Hcount Hn Hpart _ _ _ (file_slot k f Hk)) as Hc.
  rewrite <- Esb in Ht, Hl, Hd, Hc.
  pose proof (namei_root me v s (name_of f) _ R Hf Hne Hs H0 Hb Ht Hl Hd) as H. rewrite Hc in H.
  destruct H as (i & s1 & E1 & R1 & S1 & Hi & Hr).
  { intros m [= <-]. by rewrite Esb, D2. }
  assert (k_sb s1 = mk_sb) as S1' by congruence. rewrite <- S1' in D1.
  destruct (ilock_ready s1 i _ R1 Hi Hr) as (s2 & E2 & R2 & S2 & Hip & [_ _ K]); [by rewrite D1|].
  rewrite S1' in Hip. set (d := on_disk mk_sb v (inum_of (S k))) in *.
  assert (refers ROOTDEV (inum_of (S k)) (k_itable s2 !!! i) = true) as (_ & P & _)%refers_iff by by rewrite K.
  assert (mapped v (k_itable s2 !!! i) (nblk n)) as Hm by (rewrite Hip; by destruct D4).
  assert (i_size (k_itable s2 !!! i) = n) as Hsz by (by rewrite Hip).
  assert (0 <= n <= nblk n * BSIZE) as Hn0.
  { unfold nblk, n, size_of. change BSIZE with 1024. Z.to_euclidean_division_equations. lia. }
  destruct (readi_txn v s2 i 0 n (nblk n) (rd_txn _ _ _ _ _ R2) (rd_log _ _ _ _ _ R2) P Hm) as (s3 & E3 & _); [lia..|].
  exists i, s1, s2, s3. split; [done|]. split; [done|]. rewrite E3, Hsz.
  rewrite (proj2 (Z.ltb_ge n 0)), (proj2 (Z.leb_gt _ _)) by lia. cbn [orb]. rewrite Z.min_l by lia.
  do 2 f_equal. rewrite Hip. exact D5.
Qed.

Lemma image_misses nm :
  nm ∉ chars "." :: chars ".." :: (name_of <$> files) ->
  nm <> [] -> SLASH ∉ nm -> 0 ∉ nm -> all_bytes nm -> Z.of_nat (length nm) <= DIRSIZ ->
  exists s1, namei (SLASH :: nm) s = Ret None s1.
Proof using All.
  intros Hout Hne Hs H0 Hb Hlen. destruct (root_fields v files Hw) as (Ht & Hl & _).
  pose proof (root_directory v files Hw Hgood Hcount Hn Hpart) as Hd.
  pose proof (root_none v files Hw Hgood Hcount Hn Hpart nm Hout H0 Hlen) as Hc.
  rewrite <- Esb in Ht, Hl, Hd, Hc.
  pose proof (namei_root me v s nm _ R Hf Hne Hs H0 Hb Ht Hl Hd) as H. rewrite Hc in H. by apply H.
Qed.
End Booted.

(** C7. [mkfs] and the kernel agree on the file system.  On the image that [mkfs]
    writes for [files], a kernel that has read the superblock finds each of them
    by its name in the root directory, and reads back exactly the bytes that were
    put in; a name that was not given is not found.  The entries of the root
    directory must not end exactly at the end of a block: there [mkfs] rounds the
    size up to a block that it does not allocate. *)
Theorem image_readable files
  (Hgood : Forall good_arg files) (Hcount : Z.of_nat (length files) + 2 <= NINODES)
  (Hroom : nmeta + used_blocks (layout files) <= FSSIZE) (Hn : names_ok files)
  (Hpart : Z.of_nat (length files + 2) mod 64 <> 0) :
  exists m, mkfs_main files mk_start = Ret tt m /\
    let v := Mkfs.view m in
    forall me s, ready me ROOTDEV v None s -> k_sb s = sb_of (v 1) -> (2 <= nfree (k_itable s))%nat ->
      (forall f, f ∈ files -> let n := size_of (content_of f) in
         exists i s1 s2 s3, namei (SLASH :: name_of f) s = Ret (Some i) s1 /\ ilock (Some i) s1 = Ret tt s2 /\
           readi i DLocal 0 n s2 = Ret (n, content_of f) s3) /\
      (forall nm, nm ∉ chars "." :: chars ".." :: (name_of <$> files) ->
         nm <> [] -> SLASH ∉ nm -> 0 ∉ nm -> all_bytes nm -> Z.of_nat (length nm) <= DIRSIZ ->
         exists s1, namei (SLASH :: nm) s = Ret None s1).
Proof using Dok.
  destruct (mkfs_image files Hgood Hcount Hroom) as (m & E & Hw). exists m. split; [done|]. intros v me s R Esb Hf. fold v in Hw.
  rewrite (iw_super _ _ Hw) in Esb. split.
  - by apply (image_finds v files Hw Hgood Hcount Hn Hpart me).
  - by apply (image_misses v files Hw Hgood Hcount Hn Hpart me).
Qed.
End Readable.

Lemma image_readable_witness :
  let files := [(chars "README", Some [chars "hi"]); (chars "user/_cat", Some (replicate 14 (replicate 1024 7)))] in
  exists m, mkfs_main files mk_start = Ret tt m /\
    let s := demo_booted (sb_of (Mkfs.view m 1)) (mk_img m) in
    (exists i s1 s2 s3, @namei 0%nat ram_disk (chars "/README") s = Ret (Some i) s1 /\
       @ilock 0%nat ram_disk (Some i) s1 = Ret tt s2 /\ @readi 0%nat ram_disk i DLocal 0 2 s2 = Ret (2, chars "hi") s3) /\
    (exists s1, @namei 0%nat ram_disk (chars "/ls") s = Ret None s1).
Proof.
  intros files. destruct (@image_readable 0%nat ram_disk ram_disk_ok files) as (m & E & H).
  - repeat constructor; try (by eexists); try done; apply (bool_decide_unpack _); vm_compute; exact Logic.I.
  - done.
  - vm_compute. done.
  - split; [|apply (bool_decide_unpack _); vm_compute; exact Logic.I].
    apply Forall_forall. repeat constructor; apply (bool_decide_unpack _); vm_compute; exact Logic.I.
  - vm_compute. done.
  - exists m. split; [exact E|]. cbv zeta in H |- *.
    destruct (H 1%nat (demo_booted (sb_of (Mkfs.view m 1)) (mk_img m)) (demo_booted_ready _ _) eq_refl) as [H1 H2]; [vm_compute; lia|].
    split.
    + apply (H1 (chars "README", Some [chars "hi"])). left.
    + apply (H2 (chars "ls")); [apply (bool_decide_unpack _); vm_compute; exact Logic.I|discriminate|
        apply (bool_decide_unpack _); vm_compute; exact Logic.I..|vm_compute; discriminate].
Defined.
